(* ===== verification/_CoqProject ===== *)
-Q . S2P
Prelude.v
PyDict.v
PyList.v
PyStr.v
PyTime.v
PyFloat.v
FloatArith.v
Contracts.v
EventStore.v
DurableStore.v
Scheduler.v
UrlLib.v
UrlJoin.v
RobotParser.v
Url.v
Origin.v
Robots.v
Frontier.v
Heap.v
PriorityFrontier.v
CondCache.v
CookieJar.v
RateLimiter.v
CostGate.v
Budget.v
WorkerPool.v
PersistModels.v
DocStore.v
Persistence.v
PersistLaws.v
ReferenceStore.v
CredScope.v
Trace.v
Wp.v
RedisClient.v
QueueBroker.v
BrokerLaws.v
PosixFs.v
FsLaws.v
EvidenceStore.v
EvidenceLaws.v
HarRedaction.v
HarLaws.v
HarCapture.v
Recovery.v
RecoveryLaws.v
HttpAdapter.v
HttpCrawl.v
CrawlContracts.v
Normalize.v
Sitemaps.v
FrontierLike.v
CrawlRunner.v
CrawlRun.v
Vault.v
AuthSession.v
CredLifecycle.v
PyFormat.v
PromptRedaction.v
PromptRegistry.v
Planners.v
ModelProviders.v
ProviderLaws.v
