(* ===== verification/Prelude.v ===== *)
(** * A verification library for veracrawl

    Paths are under [src/src/veracrawl/] unless they say otherwise.

    ** The program and what is modelled

    veracrawl is a governed crawling platform: typed pydantic contracts, ports
    (Python protocols) and adapters behind them. This library models the parts
    that decide something on their own, and leaves out the record types, fixture
    drivers and wrappers around them. Its parts, in the order of [_CoqProject]:

    {e The language.} [Prelude] has the exceptions, the result type [res] and the
    state-and-error monad [M S A := S -> res A * S] (a method that raises keeps
    the writes it made). [PyDict], [PyList], [PyStr], [PyTime], [PyFloat] and
    [FloatArith] are the built-in types: insertion-ordered dicts, stable sorting,
    text, clock readings, binary64 floats. [UrlLib], [UrlJoin], [RobotParser] and
    [Heap] are the standard library's [urllib.parse], [urllib.robotparser] and
    [heapq]. [Trace] and [Wp] are two calculi for methods: what a method records
    through its ports, and weakest preconditions.

    {e Durable state and scheduling.} [Contracts] (models of [contracts/durable.py],
    [command.py], [event.py], [scheduler.py]); [EventStore]
    ([runtime_events/event_store.py], [adapters/event_stores/sqlite_event_store.py],
    [runtime_events/durable.py]); [DurableStore] ([runtime_support/durable_store.py]);
    [Scheduler] ([scheduler/runtime.py]). [PersistModels], [DocStore],
    [Persistence] and [PersistLaws] are [contracts/persistence.py], part of
    [contracts/scale.py], and [adapters/persistence/json_document.py] over an
    abstract document store of which the table of [sqlite.py] is an instance;
    [ReferenceStore] is [runtime_support/persistence_store.py].

    {e The frontier of a crawl.} [Url] ([external_crawl/url.py]); [Origin] (the
    text of an origin, and the scheme, host and port it stands for);
    [Robots] ([adapters/network/urllib_robots.py]); [Frontier]
    ([external_crawl/frontier.py]); [PriorityFrontier]
    ([external_crawl/priority_frontier.py]); [FrontierLike]
    ([external_crawl/frontier_protocol.py]), the interface with its laws, which
    both frontiers satisfy.

    {e Being polite and bounded.} [CondCache]
    ([adapters/network/in_memory_conditional_cache.py]); [CookieJar]
    ([adapters/network/in_memory_cookie_jar.py]); [RateLimiter]
    ([adapters/network/aimd_rate_limiter.py]); [CostGate]
    ([agents/recovery/in_memory_cost_gate.py]); [Budget]
    ([adapters/budget/outbox_backed_budget.py]); [WorkerPool]
    ([adapters/work_queue/]).

    {e Fetching and crawling.} [HttpAdapter] is
    [adapters/network/stdlib_http.py] with [contracts/network.py], and
    [HttpCrawl] its protocol; [CrawlContracts], [Normalize], [Sitemaps] and
    [CrawlRunner] are the job, planner and observation contracts, documents and
    links, [remote_sitemap.py], [remote_rss.py] and [httpx_crawl_fetcher.py], and
    [external_crawl/runner.py] with [dispatch.py]; [CrawlRun] is what its runs do.
    [Planners] is [adapters/planning/] with the observer of
    [adapters/graph/in_memory_graph_observer.py].

    {e Queues and evidence.} [RedisClient], [QueueBroker] and [BrokerLaws]
    ([adapters/queue_brokers/redis.py]); [PosixFs], [FsLaws], [EvidenceStore] and
    [EvidenceLaws] ([adapters/object_stores/local_fs_evidence_store.py]);
    [HarRedaction], [HarLaws] and [HarCapture]
    ([runtime_support/har_redaction.py], [_log_redaction.py], and
    [_postprocess_har] of [adapters/browser/playwright.py]).

    {e Credentials and agents.} [CredScope]
    ([contracts/security_privacy.py], [adapters/session/strict_allowlist_scope.py]);
    [Vault] ([adapters/credential_vault/]); [AuthSession]
    ([adapters/session/authorized_session_adapter.py]); [CredLifecycle]
    ([agents/credential_lifecycle.py]); [Recovery] and [RecoveryLaws]
    ([agents/recovery/], [agents/escalation/], [agents/run_controller.py]);
    [PyFormat], [PromptRedaction] and [PromptRegistry] ([string.Formatter],
    [agents/prompt_redaction.py], [adapters/prompt_registry/]);
    [ModelProviders] and [ProviderLaws] ([adapters/model_providers/]: the second
    OpenAI adapter, the Anthropic one, the replaying one).

    ** How state and operations correspond to the code

    An object's attributes are a [Record], or the sections' parameters where a
    constructor fixes them; a method is a [Definition] in [M] on that record, its
    guards in the order of the code. A model of [contracts/] is a [Record] with a
    [validate_] function; [model_copy] runs no validator. What the object is
    given (a fetcher, a clock, a lock-holding service, a client) is a class of
    operations on a world of any type, [... Ports], with a class of laws where a
    theorem needs them, and a concrete instance in the witnesses. A call under a
    lock is one atomic step; where threads or processes interleave
    ([RateLimiter], [Budget], [WorkerPool], [PosixFs]) the steps between them are
    the operations of a transition system. A call of [QueueBroker] is a sequence
    of Redis commands, and its histories ([BrokerLaws]) are of whole calls.

    The components meet through interfaces: [EventStore] is used by [WorkerPool];
    [DocStore] by [Persistence]; [FrontierLike] by [CrawlRunner]; the outbox of
    [Budget], [Vault] and [CredLifecycle] is [DurableStore]'s; [AuthSession] is
    proved over ports of which [CredScope] and [Vault] are the production
    instances; [Planners] hands its hints to [PriorityFrontier], the charge of
    [Budget] and the prompts of [PromptRegistry] are ports of it; [HarCapture] stores through [EvidenceStore]'s port; the controller
    of [Recovery] runs over the cost gate itself.

    ** What the theorems show

    - Exactly once: a command is applied once and replayed from then on
      ([DurableStore], [PersistLaws]); an item has one active lease, a stale one
      changes nothing ([Scheduler], [BrokerLaws]); the pools process every item
      once ([WorkerPool]); a credential session is cleaned up once.
    - Logs: append-only and without gaps; the SQLite store refines the one in
      memory; the two texts of the persistence ports answer alike
      ([ReferenceStore]); totals are the sums over the durable records ([Budget]);
      every use of a credential is recorded.
    - Reach: private hosts are never admitted ([Url]); every request of a fetch
      is one that the policy and robots admitted, with one evidence each
      ([HttpCrawl]); a crawl visits the items of its frontier, whose policy admitted
      them but for the children of sitemaps, and its report is true ([CrawlRun]);
      unknown rules disallow ([Robots]).
    - Confinement: cookies go back to the run and origin that set them, as far as
      no host is an IPv6 one ([CookieJar]); credentials are sent in scope only and stay with their
      origin; secrets of an archive do not influence what is stored, and no
      canary survives ([HarCapture], [HarLaws]); no prompt depends on a secret
      that the items and attributes of its context lead to by the walk of the
      redaction alone ([PromptRedaction], [PromptRegistry]); a failed model call tells the status and request id of an
      answer only ([ProviderLaws]).
    - Bounds and ends: concurrency and spacing of requests ([RateLimiter]); a
      run of the controller makes a bounded number of extractions, and a failure
      that keeps coming back stops the objective ([RecoveryLaws]); no answer of a
      model goes uncharged ([Planners]), and a call of a model posts a bounded
      number of times, with the pauses of its backoff and jitter ([ProviderLaws]); the crawl, the
      drain loops and the chains of escalations end.
    - Fidelity: what a run observed steers its frontier ([Planners]); the turns
      sent to a model keep every message in order ([ProviderLaws]); canonical
      URLs are fixed points; an anchor cites the text that it
      was made from ([Normalize]); a stored payload is read back, and a [put] is
      seen whole or not at all ([EvidenceLaws]).

    ** Fuel

    Recursion is structural wherever the code's loop runs over a list or counts
    ([HttpAdapter] counts redirects and attempts down, [Recovery] the iterations
    that the code counts up to [max_recovery_iterations], [ModelProviders] runs over
    the list of its attempts). Fuel appears in: the
    crawl loop of [CrawlRunner], [None] when it runs out, where [CrawlRun] proves
    that some fuel is always enough; the drain loops of [WorkerPool], where more
    fuel than queued items is proved to be enough; the writes of [EvidenceStore],
    a byte at least per turn, with the length of the payload; its reads, whose
    number is an argument that the round trip wants above that length; [Heap] and
    the bisection of [CrawlRunner], with the length of the list. The wait loop of [RateLimiter] is no loop here: each turn is a step
    of the system, and its progress is a theorem. A path of [PosixFs] follows at
    most 40 links, as in the kernel.

    ** Parameters and conventions

    Parameters, since their code is not in the repository: [NetEnv] (name
    resolution, IPv6 literals), SHA-256, the cookie and date parsers of the
    standard library, the regular-expression engines, the tokens of
    [html.parser], element trees, [json.loads] and [json.dumps], the text of
    numbers in [float(...)], random choices, httpx and its responses, the Redis
    server, the vault's backends, hosted models. Their laws are named classes or
    hypotheses, met by concrete instances in the witnesses. Clock readings, uuids
    and random names are arguments or calls of a port. Text is the bytes of UTF-8; functions
    that depend on characters are those of ASCII text. Messages of exceptions
    leave out the [repr] of values. The file tree of [PosixFs] takes a script of
    what other processes and failing calls do.

    ** Not modelled

    Half of the implementation is record types without decisions:
    [contracts/registry.py] (a table of 8,782 lines), and the contracts of the
    operator console, graph, memory, optimisation and acceptance, whose
    validators ask that reference lists are present. The control plane, target
    runtimes, benchmarks, release and publishing gates build those records in a
    fixed order from fixtures. The other model adapters, official APIs, browser
    sessions and extraction strategies are requests to services or heuristics on
    their answers. The ports are protocols without behaviour. Of the components
    above: opening connections, spawning processes, loading packages, log lines,
    file modes and the guards of [CredentialValue] against copying. *)
From stdpp Require Export base tactics list strings gmap relations pretty.
From Stdlib Require Export ZArith.
From Stdlib Require Import Lia.
#[export] Set Default Goal Selector "!".

(** ** Exceptions

    The exception classes raised by the modelled modules. [subclass_value_error]
    is Python's [issubclass(_, ValueError)]: pydantic's [ValidationError] and
    the scheduler's [LeaseTokenError] derive from [ValueError]. *)

Inductive VaultBackendErrorKind := VB_NOT_FOUND | VB_BACKEND_UNREACHABLE | VB_AUTH_FAILED | VB_INTERNAL.
#[export] Instance VaultBackendErrorKind_eq_dec : EqDecision VaultBackendErrorKind.
Proof. solve_decision. Defined.

(** Each value has its own subclass of [NetworkAdapterError]. *)
Inductive NetworkFailureType :=
  | EGRESS_DENIED | PRIVATE_NETWORK_DENIED | ROBOTS_BLOCKED | RATE_BUDGET_EXCEEDED | SIZE_BUDGET_EXCEEDED | REDIRECT_DENIED
  | NETWORK_TIMEOUT | UNSAFE_BROWSER_SIDE_EFFECT | ADAPTER_FAILURE | MISSING_NETWORK_ARTIFACT | RETRY_EXHAUSTED.
#[export] Instance NetworkFailureType_eq_dec : EqDecision NetworkFailureType.
Proof. solve_decision. Defined.

(** The classes of a failed model call ([contracts/errors.py]). *)
Inductive ProviderErrorClass :=
  | ProviderAuthFailed | ProviderRateLimited | ProviderServerError | ProviderBadRequest | ProviderNotFound | ProviderAdapterFailure.
#[export] Instance ProviderErrorClass_eq_dec : EqDecision ProviderErrorClass.
Proof. solve_decision. Defined.

Inductive exn :=
  | ValueError (msg : string)
  | TypeError (msg : string)
  | ValidationError (msg : string)
  | LeaseTokenError (msg : string)
  | KeyError (key : string)
  | IndexError
  | IntegrityError
  | AssertionError
  | RuntimeError (msg : string)
  | OverflowError
  | ZeroDivisionError
  | ReplayValidationError (msg : string)
  | TokenBudgetExceeded
  | CostGateExceeded (failed_cap run_ref : string)
  | RepeatedFailureSignatureExceeded (sig objective_ref : string) (count : Z)
  | RateLimitProhibited (msg : string)
  | ProductionRuntimeNotImplemented (backend gate : string)
  | CredentialNotFoundError (msg : string)
  | VaultBackendError (kind : VaultBackendErrorKind)
  | CredentialScopeViolation (scope_ref requested_origin requested_route requested_method reason : string)
  | LifecycleEndCallbackError (msg : string)
  | FetchError (msg : string)
  | OSError
  | FileExistsError
  | FileNotFoundError
  | EvidenceArtifactStoreError (msg : string)
  | EvidenceRedactionRequired (msg : string)
  | HarRedactionError (msg : string)
  | RobotsFetchPolicyError (msg : string)
  | NetworkAdapterError (failure_type : NetworkFailureType) (detail : string)
  | ImportError
  | JSONDecodeError
  | UnicodeDecodeError
  | MalformedTemplateField (msg : string)
  | StructuredOutputViolation
  | ProviderTraceMissingError (provider_request_id : string)
  | ModelProviderError (class : ProviderErrorClass) (status_code : Z) (error_code : string) (request_id : option string)
  | ReplayLookupMissError (provider_request_id : string)
  | NotImplementedError
  | PromptCredentialLeakError (template_ref : string)
  | PromptTemplateNotFoundError (template_ref : string)
  | PromptTemplateLoadError (template_ref reason : string)
  | PromptTemplateVariableError (template_ref : string) (missing extra : list string)
  (** An exception of code outside the repository, by its class. *)
  | ForeignError (class : string).

#[export] Instance exn_eq_dec : EqDecision exn.
Proof. solve_decision. Defined.

Definition subclass_value_error (e : exn) : bool :=
  match e with
  | ValueError _ | ValidationError _ | LeaseTokenError _ | NetworkAdapterError _ _ | HarRedactionError _ | JSONDecodeError | UnicodeDecodeError => true
  | _ => false
  end.

(** [issubclass(_, OSError)] *)
Definition subclass_os_error (e : exn) : bool :=
  match e with OSError | FileExistsError | FileNotFoundError => true | _ => false end.

(** ** Results and the state-and-exception monad

    [res A] is a call that returns or raises. [M S A] is a method of an object
    whose attributes are [S]: Python keeps the writes made before a [raise], so
    the final state is returned in both cases. *)

Inductive res (A : Type) :=
  | Ok (a : A)
  | Raise (e : exn).
Arguments Ok {A} a.
Arguments Raise {A} e.

#[export] Instance res_eq_dec {A} `{EqDecision A} : EqDecision (res A).
Proof. solve_decision. Defined.

Definition rbind {A B} (m : res A) (k : A -> res B) : res B :=
  match m with Ok a => k a | Raise e => Raise e end.

Definition guard (b : bool) (e : exn) : res unit :=
  if b then Ok tt else Raise e.

Definition is_ok {A} (m : res A) : bool :=
  match m with Ok _ => true | Raise _ => false end.

Definition M (S A : Type) : Type := S -> res A * S.

Definition ret {S A} (a : A) : M S A := fun s => (Ok a, s).
Definition raise {S A} (e : exn) : M S A := fun s => (Raise e, s).
Definition bind {S A B} (m : M S A) (k : A -> M S B) : M S B :=
  fun s => match m s with
           | (Ok a, s') => k a s'
           | (Raise e, s') => (Raise e, s')
           end.
Definition gets {S A} (f : S -> A) : M S A := fun s => (Ok (f s), s).
Definition modify {S} (f : S -> S) : M S unit := fun s => (Ok tt, f s).
Definition lift {S A} (r : res A) : M S A := fun s => (r, s).

(** [try: m except Exception: ...]: the result or the exception as a value. *)
Definition attempt {S A} (m : M S A) : M S (res A) := fun s => let '(r, s') := m s in (Ok r, s').

(** A method of an object with attributes [L] in a world [E]: a call of a port,
    and an assignment of attributes. *)
Definition on_world {L E A} (m : M E A) : M (L * E) A := fun p => let '(r, e) := m p.2 in (r, (p.1, e)).
Definition on_object {L E} (f : L -> L) : M (L * E) unit := modify (fun p => (f p.1, p.2)).

Declare Scope py_scope.
Delimit Scope py_scope with py.
Notation "'let*' x := m 'in' k" := (bind m (fun x => k))
  (at level 10, x pattern, m at level 100, k at level 200) : py_scope.
Notation "'do*' m 'in' k" := (bind m (fun _ => k))
  (at level 10, m at level 100, k at level 200) : py_scope.
Notation "'let?' x := m 'in' k" := (rbind m (fun x => k))
  (at level 10, x pattern, m at level 100, k at level 200) : py_scope.
Notation "'do?' m 'in' k" := (rbind m (fun _ => k))
  (at level 10, m at level 100, k at level 200) : py_scope.
#[export] Set Warnings "-notation-overridden".
Open Scope py_scope.

(** [for x in l: f(x)] when [f] only raises. *)
Fixpoint for_each {A} (f : A -> res unit) (l : list A) : res unit :=
  match l with
  | [] => Ok tt
  | x :: l' => do? f x in for_each f l'
  end.

Lemma for_each_ok {A} (f : A -> res unit) l : for_each f l = Ok tt <-> forall x, x ∈ l -> f x = Ok tt.
Proof.
  induction l as [|x l IH]; simpl; [split; [|done]; by intros _ x ?%elem_of_nil|].
  destruct (f x) as [[]|e] eqn:E; simpl.
  - rewrite IH. split; [intros H y [->|Hy]%elem_of_cons; auto|intros H y Hy; apply H; by right].
  - split; [done|]. intros H. rewrite <-E. apply H. left.
Qed.

(** Python's [xs or ys] on lists and [x if x is not None else y]. *)
Definition list_or {A} (xs ys : list A) : list A := if xs is [] then ys else xs.
Definition or_else {A} (x y : option A) : option A := if x is Some _ then x else y.

(** Truthiness of an [Optional[str]], of a [str] and of a [list]. *)
Definition truthy_str (s : string) : bool := negb (bool_decide (s = "")).
Definition truthy_opt (o : option string) : bool :=
  if o is Some s then truthy_str s else false.
Definition truthy_list {A} (l : list A) : bool := if l is [] then false else true.

Lemma truthy_list_spec {A} (l : list A) : truthy_list l = bool_decide (l <> []).
Proof. by destruct l. Qed.

(** [[f(x) for x in l if P(x)]] is empty when no [x] passes the filter. *)
Lemma comprehension_nil {A B} (f : A -> B) (P : A -> Prop) `{forall x, Decision (P x)} l :
  f <$> filter P l = [] <-> forall x, x ∈ l -> ~ P x.
Proof.
  split.
  - intros E x Hx HP. apply fmap_nil_inv in E.
    assert (x ∈ filter P l) as Hin by (by apply list_elem_of_filter).
    rewrite E in Hin. by apply elem_of_nil in Hin.
  - intros Hno. destruct (filter P l) as [|x l'] eqn:E; [done|].
    assert (x ∈ filter P l) as [HP Hx]%list_elem_of_filter by (rewrite E; left).
    by destruct (Hno x).
Qed.

(** [filter] depends on its predicate at the elements of the list only. *)
Lemma filter_ext_in {A} (P Q : A -> Prop) `{forall x, Decision (P x)} `{forall x, Decision (Q x)} (l : list A) :
  (forall x, x ∈ l -> P x <-> Q x) -> filter P l = filter Q l.
Proof.
  induction l as [|x l IH]; intros HPQ; [done|]. rewrite !filter_cons.
  assert (P x <-> Q x) as Hx by (apply HPQ; left).
  rewrite IH by (intros y Hy; apply HPQ; by right).
  destruct (decide (P x)), (decide (Q x)); tauto.
Qed.

Lemma filter_all {A} (P : A -> Prop) `{forall x, Decision (P x)} (l : list A) :
  (forall x, x ∈ l -> P x) -> filter P l = l.
Proof.
  induction l as [|x l IH]; intros HP; [done|].
  rewrite filter_cons_True by (apply HP; left). by rewrite IH by (intros y Hy; apply HP; by right).
Qed.

(** ** Reachability *)

Definition preserved {S} (step : S -> S -> Prop) (I : S -> Prop) : Prop :=
  forall s s', step s s' -> I s -> I s'.

Lemma rtc_preserved {S} (step : S -> S -> Prop) (I : S -> Prop) s s' :
  preserved step I -> rtc step s s' -> I s -> I s'.
Proof. intros HP Hr. induction Hr; eauto. Qed.

Lemma preserved_and {S} (step : S -> S -> Prop) (I J : S -> Prop) :
  preserved step I ->
  (forall s s', step s s' -> I s -> J s -> J s') ->
  preserved step (fun s => I s /\ J s).
Proof. intros HI HJ s s' Hs [? ?]. split; [by eapply HI | by eapply HJ]. Qed.

(** ** Laws of the monads, and the tactic that runs them *)

Lemma bind_ok {S A B} (m : M S A) (k : A -> M S B) s b s' :
  bind m k s = (Ok b, s') <->
  exists a s1, m s = (Ok a, s1) /\ k a s1 = (Ok b, s').
Proof.
  unfold bind. destruct (m s) as [[a|e] s1]; split; intros H.
  - by exists a, s1.
  - destruct H as (a' & s1' & [= -> ->] & H). done.
  - done.
  - by destruct H as (a' & s1' & ? & ?).
Qed.

Lemma bind_eq {S A B} (m : M S A) (k : A -> M S B) s a s' : m s = (Ok a, s') -> bind m k s = k a s'.
Proof. unfold bind. by intros ->. Qed.
Lemma attempt_eq {S A} (m : M S A) s r s' : m s = (r, s') -> attempt m s = (Ok r, s').
Proof. unfold attempt. by intros ->. Qed.

Lemma rbind_ok {A B} (m : res A) (k : A -> res B) b :
  rbind m k = Ok b <-> exists a, m = Ok a /\ k a = Ok b.
Proof.
  destruct m as [a|e]; simpl; split; intros H.
  - by exists a.
  - by destruct H as (a' & [= ->] & H).
  - done.
  - by destruct H as (a' & ? & ?).
Qed.

Lemma lift_ok {S A} (r : res A) (s s' : S) a : lift r s = (Ok a, s') <-> r = Ok a /\ s' = s.
Proof. unfold lift. split; [by intros [= -> ->]|by intros [-> ->]]. Qed.

Lemma on_world_run {L E A} (m : M E A) (p : L * E) : on_world m p = ((m p.2).1, (p.1, (m p.2).2)).
Proof. unfold on_world. by destruct (m p.2). Qed.

Lemma on_world_ok {L E A} (m : M E A) (p p' : L * E) a : on_world m p = (Ok a, p') <-> m p.2 = (Ok a, p'.2) /\ p'.1 = p.1.
Proof.
  rewrite on_world_run. destruct (m p.2) as [r e]. destruct p' as [c e']. simpl. split; [by intros [= -> <- <-]|].
  by intros [[= -> ->] ->].
Qed.

Lemma guard_ok b e u : guard b e = Ok u <-> b = true.
Proof. destruct b, u; simpl; split; congruence. Qed.

(** [run_m H] splits a successful monadic run into its steps. *)
Ltac run_m H :=
  repeat match type of H with
  | bind _ _ _ = (Ok _, _) =>
      let a := fresh "a" in let s := fresh "s" in let H1 := fresh "Hm" in
      apply bind_ok in H; destruct H as (a & s & H1 & H)
  | rbind _ _ = Ok _ =>
      let a := fresh "a" in let H1 := fresh "Hr" in
      apply rbind_ok in H; destruct H as (a & H1 & H)
  | gets _ _ = _ => unfold gets in H
  | modify _ _ = _ => unfold modify in H
  | lift _ _ = _ => unfold lift in H
  | ret _ _ = _ => unfold ret in H
  end; simplify_eq/=.

Create HintDb py.
Create Rewrite HintDb py.
#[export] Hint Rewrite @bind_ok @rbind_ok guard_ok : py.
#[export] Hint Resolve preserved_and : py.
