(* ===== verification/PyDict.v ===== *)
(** * Python's [dict] and [OrderedDict]

    A dict is the list of its items in insertion order: [d[k] = v] on a known
    key writes in place, on a new key appends. [list(d.values())], [popitem]
    and [move_to_end] observe that order, so it is kept. Lookups are the only
    thing most clients see: [dict_equiv] (same lookups) is the coarser
    equivalence, with [Proper] instances for the operations. *)
From stdpp Require Import base list.
From Stdlib Require Import Lia.
From S2P Require Import Prelude.

Definition dict (K V : Type) : Type := list (K * V).

Section Dict.
Context {K V : Type} `{EqDecision K}.
Implicit Types (d : dict K V) (k : K) (v : V).

Fixpoint dict_get d k : option V :=
  match d with
  | [] => None
  | (k', v) :: d' => if decide (k = k') then Some v else dict_get d' k
  end.

(** [d[k] = v] *)
Fixpoint dict_set d k v : dict K V :=
  match d with
  | [] => [(k, v)]
  | (k', v') :: d' =>
      if decide (k = k') then (k, v) :: d' else (k', v') :: dict_set d' k v
  end.

(** [del d[k]] / [d.pop(k, None)] *)
Fixpoint dict_del d k : dict K V :=
  match d with
  | [] => []
  | (k', v') :: d' =>
      if decide (k = k') then d' else (k', v') :: dict_del d' k
  end.

Definition dict_keys d : list K := d.*1.
Definition dict_values d : list V := d.*2.
Definition dict_mem d k : bool := if dict_get d k is Some _ then true else false.
Definition dict_get_or d k v : V := default v (dict_get d k).

(** [d.setdefault(k, v)]: the value found or stored, and the dict after. *)
Definition dict_setdefault d k v : V * dict K V :=
  match dict_get d k with
  | Some v' => (v', d)
  | None => (v, dict_set d k v)
  end.

(** [OrderedDict.move_to_end(k)] for a key that is present. *)
Definition dict_move_to_end d k : dict K V :=
  match dict_get d k with
  | Some v => dict_del d k ++ [(k, v)]
  | None => d
  end.

(** The invariant of the representation: no key occurs twice. *)
Definition dict_wf d : Prop := NoDup (dict_keys d).

Lemma dict_get_set_eq d k v : dict_get (dict_set d k v) k = Some v.
Proof.
  induction d as [|[k' v'] d IH]; simpl; [by rewrite decide_True|].
  case_decide; simpl; [by rewrite decide_True | by rewrite decide_False].
Qed.

Lemma dict_get_set_ne d k k' v : k' <> k -> dict_get (dict_set d k v) k' = dict_get d k'.
Proof.
  intros Hne. induction d as [|[k0 v0] d IH]; simpl; [by rewrite decide_False|].
  destruct (decide (k = k0)) as [<-|]; simpl; [by rewrite !decide_False|].
  case_decide; [done|]. apply IH.
Qed.

Lemma dict_get_set d k k' v :
  dict_get (dict_set d k v) k' = if decide (k' = k) then Some v else dict_get d k'.
Proof.
  case_decide; subst; [apply dict_get_set_eq | by apply dict_get_set_ne].
Qed.

Lemma dict_get_Some_in d k v : dict_get d k = Some v -> (k, v) ∈ d.
Proof.
  induction d as [|[k' v'] d IH]; csimpl; [done|].
  case_decide; intros; simplify_eq; rewrite elem_of_cons; auto.
Qed.

Lemma dict_get_in d k v : dict_wf d -> (k, v) ∈ d -> dict_get d k = Some v.
Proof.
  unfold dict_wf, dict_keys.
  induction d as [|[k' v'] d IH]; csimpl; [by intros _ ?%elem_of_nil|].
  intros [Hk Hd]%NoDup_cons [[= -> ->]|Hin]%elem_of_cons.
  - by rewrite decide_True.
  - case_decide as Hc; [|by apply IH]. subst. exfalso. apply Hk.
    apply list_elem_of_fmap. by exists (k', v).
Qed.

Lemma dict_get_None d k : dict_get d k = None <-> k ∉ dict_keys d.
Proof.
  unfold dict_keys. induction d as [|[k' v'] d IH]; csimpl.
  - split; [intros _; apply not_elem_of_nil | done].
  - rewrite not_elem_of_cons. case_decide; [naive_solver|]. rewrite IH. tauto.
Qed.

Lemma elem_of_dict_keys d k : k ∈ dict_keys d <-> is_Some (dict_get d k).
Proof.
  rewrite <-not_eq_None_Some, dict_get_None. split; [tauto|].
  intros H. destruct (decide (k ∈ dict_keys d)); [done|tauto].
Qed.

Lemma elem_of_dict_values d v : dict_wf d -> v ∈ dict_values d <-> exists k, dict_get d k = Some v.
Proof.
  intros Hwf. unfold dict_values. rewrite list_elem_of_fmap. split.
  - intros ([k v'] & -> & Hin). exists k. by apply dict_get_in.
  - intros [k Hk]. exists (k, v). split; [done|]. by apply dict_get_Some_in.
Qed.

Lemma dict_keys_set d k v :
  dict_keys (dict_set d k v) =
    if dict_get d k is Some _ then dict_keys d else dict_keys d ++ [k].
Proof.
  unfold dict_keys. induction d as [|[k' v'] d IH]; csimpl; [done|].
  destruct (decide (k = k')) as [->|Hne]; csimpl; [done|].
  rewrite IH. by destruct (dict_get d k).
Qed.

Lemma dict_set_wf d k v : dict_wf d -> dict_wf (dict_set d k v).
Proof.
  unfold dict_wf. rewrite dict_keys_set.
  destruct (dict_get d k) eqn:E; [done|]. intros Hd. apply dict_get_None in E.
  apply NoDup_app. split_and!; [done| | apply NoDup_singleton].
  intros x Hx ->%list_elem_of_singleton. done.
Qed.

Lemma dict_empty_wf : dict_wf [].
Proof. apply NoDup_nil_2. Qed.

Lemma dict_set_new d k v : dict_get d k = None -> dict_set d k v = d ++ [(k, v)].
Proof.
  induction d as [|[k' v'] d IH]; csimpl; [done|].
  case_decide; [done|]. intros. by rewrite IH.
Qed.

Lemma dict_set_in d k v kv : kv ∈ dict_set d k v -> kv = (k, v) \/ kv ∈ d.
Proof.
  induction d as [|[k' v'] d IH]; simpl; [intros ->%list_elem_of_singleton; by left|].
  case_decide; rewrite !elem_of_cons; [naive_solver|]. intros [->|H']; [by right; left|]. destruct (IH H'); auto.
Qed.

Lemma dict_get_cons k v d k' : dict_get ((k, v) :: d) k' = if decide (k' = k) then Some v else dict_get d k'.
Proof. done. Qed.
Lemma dict_set_cons k v d k' v' :
  dict_set ((k, v) :: d) k' v' = if decide (k' = k) then (k', v') :: d else (k, v) :: dict_set d k' v'.
Proof. done. Qed.

Lemma dict_set_set d k v v' : dict_set (dict_set d k v) k v' = dict_set d k v'.
Proof.
  induction d as [|[k0 v0] d IH]; csimpl; [by rewrite decide_True|].
  case_decide; csimpl; [by rewrite decide_True|]. rewrite decide_False by done. by rewrite IH.
Qed.

Lemma dict_set_id d k v : dict_get d k = Some v -> dict_set d k v = d.
Proof.
  induction d as [|[k' v'] d IH]; csimpl; [done|].
  case_decide; intros; simplify_eq; [done|]. by rewrite IH.
Qed.

Lemma dict_set_length d k v :
  length (dict_set d k v) = if dict_get d k is Some _ then length d else S (length d).
Proof.
  induction d as [|[k' v'] d IH]; csimpl; [done|].
  case_decide; [done|]. csimpl. rewrite IH. by destruct (dict_get d k).
Qed.

Lemma dict_keys_del_incl d k : dict_keys (dict_del d k) ⊆ dict_keys d.
Proof.
  unfold dict_keys. induction d as [|[k' v'] d IH]; csimpl; [done|].
  case_decide; csimpl; set_solver.
Qed.

Lemma dict_del_wf d k : dict_wf d -> dict_wf (dict_del d k).
Proof.
  unfold dict_wf. induction d as [|[k' v'] d IH]; csimpl; [done|].
  intros [Hk Hd]%NoDup_cons. case_decide; [done|]. csimpl.
  apply NoDup_cons. split; [|by apply IH].
  intros Hin. apply Hk. by apply (dict_keys_del_incl d k).
Qed.

Lemma dict_get_del_eq d k : dict_wf d -> dict_get (dict_del d k) k = None.
Proof.
  unfold dict_wf. induction d as [|[k' v'] d IH]; csimpl; [done|].
  intros [Hk Hd]%NoDup_cons. case_decide as Hc; csimpl.
  - apply dict_get_None. by subst.
  - rewrite decide_False by done. by apply IH.
Qed.

Lemma dict_get_del_ne d k k' : k' <> k -> dict_get (dict_del d k) k' = dict_get d k'.
Proof.
  intros Hne. induction d as [|[k0 v0] d IH]; csimpl; [done|].
  destruct (decide (k = k0)) as [<-|]; csimpl; [by rewrite decide_False|].
  case_decide; [done|]. apply IH.
Qed.

Lemma dict_del_None d k : dict_get d k = None -> dict_del d k = d.
Proof.
  induction d as [|[k' v'] d IH]; csimpl; [done|]. case_decide; [done|]. intros. by rewrite IH.
Qed.

(** Writing a key, then moving it to the end. *)
Lemma dict_set_move_to_end d k v : dict_move_to_end (dict_set d k v) k = dict_del d k ++ [(k, v)].
Proof.
  unfold dict_move_to_end. rewrite dict_get_set_eq. f_equal.
  induction d as [|[k' v'] d IH]; csimpl; [by rewrite decide_True|].
  case_decide; csimpl; [by rewrite decide_True|]. rewrite decide_False by done. by rewrite IH.
Qed.

Lemma dict_get_app d d' k :
  dict_get (d ++ d') k = if dict_get d k is Some v then Some v else dict_get d' k.
Proof. induction d as [|[k' v'] d IH]; csimpl; [done|]. case_decide; [done|]. apply IH. Qed.

Lemma dict_wf_cons k v d : dict_wf ((k, v) :: d) <-> k ∉ dict_keys d /\ dict_wf d.
Proof. unfold dict_wf, dict_keys. csimpl. by rewrite NoDup_cons. Qed.

Lemma dict_del_length d k :
  length (dict_del d k) = if dict_get d k is Some _ then pred (length d) else length d.
Proof.
  induction d as [|[k' v'] d IH]; csimpl; [done|].
  case_decide; [done|]. csimpl. rewrite IH.
  destruct (dict_get d k) eqn:E; [|done].
  destruct d; [done|]. done.
Qed.

Lemma dict_move_to_end_perm d k : dict_move_to_end d k ≡ₚ d.
Proof.
  unfold dict_move_to_end. destruct (dict_get d k) as [v|] eqn:E; [|done].
  revert E. induction d as [|[k' v'] d IH]; csimpl; [done|].
  case_decide; intros; simplify_eq.
  - by rewrite (comm app).
  - csimpl. by rewrite IH.
Qed.

Lemma dict_perm_get d d' k : dict_wf d -> d ≡ₚ d' -> dict_get d' k = dict_get d k.
Proof.
  intros Hwf HP.
  assert (dict_wf d') as Hwf' by (unfold dict_wf, dict_keys in *; by rewrite <-HP).
  destruct (dict_get d' k) as [v|] eqn:E.
  - symmetry. apply dict_get_in; [done|]. rewrite HP. by apply dict_get_Some_in.
  - symmetry. apply dict_get_None. apply dict_get_None in E.
    unfold dict_keys in *. by rewrite HP.
Qed.

Lemma dict_wf_perm d d' : d ≡ₚ d' -> dict_wf d -> dict_wf d'.
Proof. unfold dict_wf, dict_keys. by intros ->. Qed.

Lemma dict_set_perm d k v v' :
  dict_get d k = Some v' -> dict_set d k v ≡ₚ (k, v) :: dict_del d k.
Proof.
  induction d as [|[k0 v0] d IH]; csimpl; [done|].
  case_decide; intros; [done|]. rewrite IH by done. constructor.
Qed.

Lemma dict_del_perm d k v : dict_get d k = Some v -> (k, v) :: dict_del d k ≡ₚ d.
Proof.
  induction d as [|[k0 v0] d IH]; csimpl; [done|].
  case_decide; intros; simplify_eq; [done|].
  rewrite <-IH at 2 by done. constructor.
Qed.

Lemma dict_values_forall (P : V -> Prop) d :
  dict_wf d -> (forall k v, dict_get d k = Some v -> P v) <-> Forall P (dict_values d).
Proof.
  intros Hwf. rewrite Forall_forall. split.
  - intros H v [k Hk]%elem_of_dict_values; [eauto|done].
  - intros H k v Hk. apply H, elem_of_dict_values; [done|]. by exists k.
Qed.

(** Two dicts that answer every lookup alike. *)
Definition dict_equiv d d' : Prop := forall k, dict_get d k = dict_get d' k.

#[export] Instance dict_equiv_equivalence : Equivalence dict_equiv.
Proof.
  split; [by intros d k | by intros d d' H k | intros d1 d2 d3 H1 H2 k].
  by rewrite H1, H2.
Qed.
#[export] Instance dict_get_proper : Proper (dict_equiv ==> eq ==> eq) dict_get.
Proof. intros d d' H k ? <-. apply H. Qed.
#[export] Instance dict_set_proper : Proper (dict_equiv ==> eq ==> eq ==> dict_equiv) dict_set.
Proof.
  intros d d' H k ? <- v ? <- k'. rewrite !dict_get_set. case_decide; [done|]. apply H.
Qed.
End Dict.

Arguments dict_get : simpl nomatch.
Arguments dict_set : simpl nomatch.

#[export] Hint Resolve dict_set_wf dict_del_wf dict_empty_wf : py.
#[export] Hint Rewrite @dict_get_set_eq : py.

(** [dict_solve] simplifies lookups in updated dicts, splitting on key equality. *)
Ltac dict_simpl :=
  repeat match goal with
  | H : context [dict_get (dict_set _ _ _) _] |- _ => rewrite dict_get_set in H
  | |- context [dict_get (dict_set _ _ _) _] => rewrite dict_get_set
  | _ => case_decide
  end; simplify_eq/=.
