(* ===== verification/PyList.v ===== *)
(** * Python lists: stable sorting

    [sorted(xs, key=...)] is stable; [le a b] is [key(a) <= key(b)]. *)
From stdpp Require Import sorting.
From S2P Require Import Prelude.

Section Sort.
Context {A : Type} (le : A -> A -> bool).

Fixpoint sort_insert (x : A) (l : list A) : list A :=
  match l with
  | [] => [x]
  | y :: l' => if le x y then x :: y :: l' else y :: sort_insert x l'
  end.

Definition py_sorted (l : list A) : list A := foldr sort_insert [] l.

Lemma sort_insert_perm x l : sort_insert x l ≡ₚ x :: l.
Proof.
  induction l as [|y l IH]; simpl; [done|]. case_match; [done|].
  rewrite IH. constructor.
Qed.

Lemma py_sorted_perm l : py_sorted l ≡ₚ l.
Proof. induction l as [|x l IH]; simpl; [done|]. by rewrite sort_insert_perm, IH. Qed.

Lemma elem_of_py_sorted l x : x ∈ py_sorted l <-> x ∈ l.
Proof. by rewrite py_sorted_perm. Qed.

Lemma py_sorted_length l : length (py_sorted l) = length l.
Proof. by rewrite py_sorted_perm. Qed.

Context (le_total : forall x y, le x y = false -> le y x = true).
Context (le_trans : forall x y z, le x y = true -> le y z = true -> le x z = true).

Lemma sort_insert_sorted x l :
  StronglySorted (fun a b => le a b = true) l ->
  StronglySorted (fun a b => le a b = true) (sort_insert x l).
Proof.
  induction 1 as [|y l Hl IH Hy]; simpl; [by repeat constructor|].
  destruct (le x y) eqn:E.
  - constructor; [by constructor|]. constructor; [done|].
    eapply Forall_impl; [done|]. simpl. eauto.
  - constructor; [done|]. rewrite sort_insert_perm. constructor; eauto.
Qed.

Lemma py_sorted_sorted l : StronglySorted (fun a b => le a b = true) (py_sorted l).
Proof. induction l as [|x l IH]; simpl; [constructor|]. by apply sort_insert_sorted. Qed.

(** The first element of a sorted list is a minimum of the input. *)
Lemma py_sorted_head l x l' :
  py_sorted l = x :: l' -> x ∈ l /\ forall y, y ∈ l -> y = x \/ le x y = true.
Proof.
  intros E. pose proof (py_sorted_sorted l) as Hs. rewrite E in Hs.
  apply StronglySorted_inv in Hs as [_ Hx].
  assert (forall y, y ∈ l <-> y ∈ x :: l') as Hin by (intros y; by rewrite <-E, elem_of_py_sorted).
  split; [apply Hin; left|].
  intros y [->|Hy]%Hin%elem_of_cons; [by left|right].
  rewrite Forall_forall in Hx. auto.
Qed.

Lemma py_sorted_nil l : py_sorted l = [] <-> l = [].
Proof.
  split; [|by intros ->]. intros E. apply Permutation_nil. by rewrite <-E, py_sorted_perm.
Qed.

(** A list already in order is left alone: stability on a run of equals. *)
Lemma py_sorted_id l : StronglySorted (fun a b => le a b = true) l -> py_sorted l = l.
Proof.
  induction 1 as [|x l Hl IH Hx]; simpl; [done|]. rewrite IH.
  destruct l as [|y l]; simpl; [done|]. inversion Hx as [|? ? Hy]; subst. by rewrite Hy.
Qed.

(** Stability: the elements equivalent to [a] keep their input order. *)
Lemma sort_insert_stable (P : A -> bool) x l :
  (forall y z, P y = true -> P z = true -> le y z = true) ->
  filter (fun y => P y = true) (sort_insert x l) = filter (fun y => P y = true) (x :: l).
Proof.
  intros HP. induction l as [|y l IH]; simpl; [done|].
  destruct (le x y) eqn:E; [done|].
  rewrite filter_cons, IH, !filter_cons.
  destruct (decide (P x = true)) as [Hx|]; [|done].
  destruct (decide (P y = true)) as [Hy|]; [|done].
  by rewrite HP in E.
Qed.

Lemma py_sorted_stable (P : A -> bool) l :
  (forall y z, P y = true -> P z = true -> le y z = true) ->
  filter (fun y => P y = true) (py_sorted l) = filter (fun y => P y = true) l.
Proof.
  intros HP. induction l as [|x l IH]; simpl; [done|].
  rewrite sort_insert_stable by done. rewrite !filter_cons, IH. done.
Qed.

(** With an antisymmetric order the result does not depend on the order of
    the input: what makes a [sorted(...)] over dict values deterministic. *)
Lemma py_sorted_ext l k :
  (forall x y, x ∈ l -> y ∈ l -> le x y = true -> le y x = true -> x = y) ->
  l ≡ₚ k -> py_sorted l = py_sorted k.
Proof.
  intros Hanti HP.
  assert (py_sorted l ≡ₚ py_sorted k) as HP' by (by rewrite !py_sorted_perm).
  assert (forall x y, x ∈ py_sorted l -> y ∈ py_sorted l ->
    le x y = true -> le y x = true -> x = y) as Ha
    by (intros x y; rewrite !elem_of_py_sorted; auto).
  pose proof (py_sorted_sorted l) as Hl. pose proof (py_sorted_sorted k) as Hk.
  revert Ha HP' Hl Hk. generalize (py_sorted k). generalize (py_sorted l). clear.
  induction l as [|x l IH]; intros k Ha HP Hl Hk.
  { symmetry. apply Permutation_nil. by symmetry. }
  destruct k as [|y k]; [by apply Permutation_length in HP|].
  apply StronglySorted_inv in Hl as [Hl Hxl]. apply StronglySorted_inv in Hk as [Hk Hyk].
  rewrite Forall_forall in Hxl, Hyk.
  assert (x = y) as ->.
  { assert (y ∈ x :: l) as Hy by (rewrite HP; left).
    assert (x ∈ y :: k) as Hx by (rewrite <-HP; left).
    apply elem_of_cons in Hy as [->|Hy]; [done|].
    apply elem_of_cons in Hx as [->|Hx]; [done|].
    apply Ha; [left|by right|auto|auto]. }
  apply Permutation_cons_inv in HP. f_equal. apply IH; try done.
  intros a b Hina Hinb. apply Ha; by right.
Qed.

(** The last element of the result is a maximum of the input. *)
Lemma py_sorted_last l z :
  last (py_sorted l) = Some z -> z ∈ l /\ forall y, y ∈ l -> y = z \/ le y z = true.
Proof.
  intros E. pose proof (py_sorted_sorted l) as Hs. apply last_Some in E as [l' E].
  assert (forall y, y ∈ l <-> y ∈ l' ++ [z]) as Hin by (intros y; by rewrite <-E, elem_of_py_sorted).
  rewrite E in Hs. split; [apply Hin, elem_of_app; right; left|].
  intros y [Hy| ->%list_elem_of_singleton]%Hin%elem_of_app; [right|by left].
  clear Hin E. induction l' as [|x l' IH]; [by apply elem_of_nil in Hy|].
  apply StronglySorted_inv in Hs as [Hs Hx]. rewrite Forall_forall in Hx.
  apply elem_of_cons in Hy as [->|Hy]; [|by apply IH].
  apply Hx, elem_of_app. right; left.
Qed.
End Sort.

(** Sorting by a key is sorting the keys. *)
Lemma py_sorted_fmap {A B} (f : A -> B) (le : B -> B -> bool) l :
  py_sorted le (f <$> l) = f <$> py_sorted (fun x y => le (f x) (f y)) l.
Proof.
  set (lef := fun x y => le (f x) (f y)).
  induction l as [|x l IH]; [done|]. rewrite fmap_cons.
  change (sort_insert le (f x) (py_sorted le (f <$> l)) = f <$> sort_insert lef x (py_sorted lef l)).
  rewrite IH. clear IH. generalize (py_sorted lef l). clear l. intros l. subst lef.
  induction l as [|y l IH]; csimpl; [done|]. case_match; csimpl; [done|]. by rewrite IH.
Qed.

Lemma Zleb_total x y : Z.leb x y = false -> Z.leb y x = true.
Proof. rewrite Z.leb_gt, Z.leb_le. lia. Qed.
Lemma Zleb_trans x y z : Z.leb x y = true -> Z.leb y z = true -> Z.leb x z = true.
Proof. rewrite !Z.leb_le. lia. Qed.
#[export] Hint Resolve Zleb_total Zleb_trans : py.

(** A sorted, non-empty list of integers lies between its ends. *)
Lemma py_sorted_Z_bounds l a r :
  py_sorted Z.leb l = a :: r ->
  a ∈ l /\ default a (last (a :: r)) ∈ l /\
  forall x, x ∈ l -> (a <= x <= default a (last (a :: r)))%Z.
Proof.
  intros E. destruct (py_sorted_head Z.leb Zleb_total Zleb_trans _ _ _ E) as [Ha Hmin].
  destruct (last (a :: r)) as [z|] eqn:El; [|by apply last_None in El].
  rewrite <-E in El.
  destruct (py_sorted_last Z.leb Zleb_total Zleb_trans _ _ El) as [Hz Hmax].
  split_and!; [done|done|]. intros x Hx. simpl.
  destruct (Hmin _ Hx) as [->|H1%Z.leb_le], (Hmax _ Hx) as [->|H2%Z.leb_le]; lia.
Qed.

(** A list of integers covering its range counts that range iff it has no
    duplicates. *)
Lemma cover_length_NoDup (l : list Z) a b :
  (forall x, x ∈ l <-> (a <= x <= b)%Z) -> (a <= b)%Z ->
  Z.of_nat (length l) = (b - a + 1)%Z <-> NoDup l.
Proof.
  intros Hl Hab.
  assert (forall x, x ∈ l <-> x ∈ seqZ a (b - a + 1)) as Hs
    by (intros x; rewrite Hl, elem_of_seqZ; lia).
  split; intros H.
  - assert (seqZ a (b - a + 1) ≡ₚ l) as <-; [|apply NoDup_seqZ].
    apply submseteq_length_Permutation.
    + apply NoDup_submseteq; [apply NoDup_seqZ|]. intros x. by rewrite Hs.
    + rewrite length_seqZ. lia.
  - assert (l ≡ₚ seqZ a (b - a + 1)) as -> by (by apply NoDup_Permutation; auto using NoDup_seqZ).
    rewrite length_seqZ. lia.
Qed.
