(* ===== verification/PyStr.v ===== *)
(** * Python strings

    A [str] is a [string], the UTF-8 bytes of its text; the methods that depend on
    characters (case, whitespace, digits) are those of ASCII text (code points 0..127 of the
    modelled inputs); the functions below are the [str] methods the source
    uses. Lemmas: concatenation, separators, and the decimal rendering of
    integers in f-strings. *)
From Stdlib Require Import Ascii.
From S2P Require Import Prelude.

(** ** Characters of a string *)

Fixpoint str_in_char (c : ascii) (s : string) : bool :=
  match s with
  | EmptyString => false
  | String c' s => bool_decide (c = c') || str_in_char c s
  end.

Fixpoint str_forall (p : ascii -> bool) (s : string) : bool :=
  match s with
  | EmptyString => true
  | String c s => p c && str_forall p s
  end.

Lemma append_nil_l s : "" +:+ s = s.
Proof. done. Qed.
Lemma append_cons c s t : String c s +:+ t = String c (s +:+ t).
Proof. done. Qed.
Lemma append_nil_r s : s +:+ "" = s.
Proof. induction s as [|c s IH]; [done|]. by rewrite append_cons, IH. Qed.
Lemma append_assoc s t u : (s +:+ t) +:+ u = s +:+ (t +:+ u).
Proof. induction s as [|c s IH]; [done|]. by rewrite !append_cons, IH. Qed.
Create Rewrite HintDb str.
#[export] Hint Rewrite append_nil_l append_nil_r append_cons append_assoc : str.

Lemma append_inj_l s t u : s +:+ t = s +:+ u -> t = u.
Proof.
  induction s as [|c s IH]; [done|]. rewrite !append_cons. intros [= H]. auto.
Qed.
#[export] Instance append_inj s : Inj (=) (=) (String.append s).
Proof. intros t u. apply append_inj_l. Qed.

Lemma str_in_char_app c s t : str_in_char c (s +:+ t) = str_in_char c s || str_in_char c t.
Proof. induction s as [|c' s IH]; [done|]. rewrite append_cons. simpl. by rewrite IH, orb_assoc. Qed.

Lemma str_forall_app p s t : str_forall p (s +:+ t) = str_forall p s && str_forall p t.
Proof. induction s as [|c' s IH]; [done|]. rewrite append_cons. simpl. by rewrite IH, andb_assoc. Qed.

(** A string with two marked positions splits one way: after the last
    separator. *)
Lemma sep_inj c s1 s2 t1 t2 :
  s1 +:+ String c t1 = s2 +:+ String c t2 ->
  str_in_char c t1 = false -> str_in_char c t2 = false ->
  s1 = s2 /\ t1 = t2.
Proof.
  revert s2. induction s1 as [|x s1 IH]; intros [|y s2]; autorewrite with str; intros H H1 H2.
  - by injection H.
  - injection H as <- ->. rewrite str_in_char_app in H1. simpl in H1.
    rewrite bool_decide_true in H1 by done. by rewrite orb_true_l, orb_true_r in H1.
  - injection H as -> <-. rewrite str_in_char_app in H2. simpl in H2.
    rewrite bool_decide_true in H2 by done. by rewrite orb_true_l, orb_true_r in H2.
  - injection H as -> H. destruct (IH s2 H H1 H2) as [-> ->]. done.
Qed.

(** ** Decimal rendering *)

Definition is_digit (c : ascii) : bool :=
  (48 <=? N_of_ascii c)%N && (N_of_ascii c <=? 57)%N.

Lemma pretty_N_char_digit n : is_digit (pretty_N_char n) = true.
Proof. unfold pretty_N_char. by repeat case_match. Qed.

Lemma pretty_N_go_digits n s :
  str_forall is_digit s = true -> str_forall is_digit (pretty_N_go n s) = true.
Proof.
  revert s. induction (N.lt_wf_0 n) as [n _ IH]; intros s Hs.
  assert (n = 0 \/ 0 < n)%N as [->|Hn] by lia; [by rewrite pretty_N_go_0|].
  rewrite pretty_N_go_step by done. apply IH; [by apply N.div_lt|].
  simpl. by rewrite pretty_N_char_digit.
Qed.

Lemma pretty_N_digits (n : N) : str_forall is_digit (pretty n) = true.
Proof.
  unfold pretty, pretty_N. case_decide; [done|]. by apply pretty_N_go_digits.
Qed.

Lemma str_forall_not_in p c s : str_forall p s = true -> p c = false -> str_in_char c s = false.
Proof.
  induction s as [|c' s IH]; simpl; [done|]. intros [H1 H2]%andb_true_iff Hc.
  case_bool_decide; [congruence|]. auto.
Qed.

Lemma pretty_Z_no_colon (n : Z) : str_in_char ":" (pretty n) = false.
Proof.
  destruct n as [|p|p]; unfold pretty, pretty_Z; [done|..];
    [|rewrite str_in_char_app; change (str_in_char ":" "-") with false; rewrite orb_false_l];
    by apply (str_forall_not_in is_digit); [apply pretty_N_digits|].
Qed.

(** [f"{prefix}{id}:{n}"] determines [id] and [n]. *)
Lemma numbered_ref_inj prefix a1 a2 (n1 n2 : Z) :
  prefix +:+ a1 +:+ ":" +:+ pretty n1 = prefix +:+ a2 +:+ ":" +:+ pretty n2 ->
  a1 = a2 /\ n1 = n2.
Proof.
  intros H%append_inj_l.
  destruct (sep_inj ":" a1 a2 (pretty n1) (pretty n2) H) as [-> Hp];
    [apply pretty_Z_no_colon..|].
  split; [done|]. by apply (inj pretty) in Hp.
Qed.

(** ** Methods of [str] *)

Definition lower_char (c : ascii) : ascii :=
  if (65 <=? N_of_ascii c)%N && (N_of_ascii c <=? 90)%N then ascii_of_N (N_of_ascii c + 32) else c.

Fixpoint str_map (f : ascii -> ascii) (s : string) : string :=
  match s with EmptyString => "" | String c s => String (f c) (str_map f s) end.

(** [s.lower()] *)
Definition lower : string -> string := str_map lower_char.

(** [c.isspace()] *)
Definition is_space (c : ascii) : bool :=
  let n := N_of_ascii c in
  ((9 <=? n) && (n <=? 13) || (28 <=? n) && (n <=? 31) || (n =? 32))%N.

Fixpoint str_lstrip (p : ascii -> bool) (s : string) : string :=
  match s with
  | EmptyString => ""
  | String c s' => if p c then str_lstrip p s' else s
  end.

Fixpoint str_rstrip (p : ascii -> bool) (s : string) : string :=
  match s with
  | EmptyString => ""
  | String c s' => match str_rstrip p s' with
                   | EmptyString => if p c then "" else String c ""
                   | t => String c t
                   end
  end.

(** [s.strip()] *)
Definition strip (s : string) : string := str_rstrip is_space (str_lstrip is_space s).

(** [s.replace(c, "")] for all [c] in a class. *)
Fixpoint str_filter (p : ascii -> bool) (s : string) : string :=
  match s with
  | EmptyString => ""
  | String c s => if p c then String c (str_filter p s) else str_filter p s
  end.

(** [s.partition(c)]: what precedes the first [c], whether it occurs, the rest. *)
Fixpoint partition (c : ascii) (s : string) : string * bool * string :=
  match s with
  | EmptyString => ("", false, "")
  | String x s' => if decide (x = c) then ("", true, s')
                   else let '(a, f, b) := partition c s' in (String x a, f, b)
  end.

(** [s.rpartition(c)]: around the last [c]; [("", "", s)] when there is none. *)
Fixpoint rpartition (c : ascii) (s : string) : string * bool * string :=
  match s with
  | EmptyString => ("", false, "")
  | String x s' =>
      match rpartition c s' with
      | (a, true, b) => (String x a, true, b)
      | (_, false, b) => if decide (x = c) then ("", true, s') else ("", false, String x b)
      end
  end.

(** [s.split(c)] *)
Fixpoint split_on (c : ascii) (s : string) : list string :=
  match s with
  | EmptyString => [""]
  | String x s' =>
      if decide (x = c) then "" :: split_on c s'
      else match split_on c s' with [] => [String x ""] | t :: l => String x t :: l end
  end.

(** [sep.join(l)] *)
Fixpoint join (sep : string) (l : list string) : string :=
  match l with
  | [] => ""
  | [s] => s
  | s :: l => s +:+ sep +:+ join sep l
  end.

Lemma join_cons sep s t l : join sep (s :: t :: l) = s +:+ sep +:+ join sep (t :: l).
Proof. done. Qed.

(** The longest prefix of characters satisfying [p], and the rest. *)
Fixpoint span (p : ascii -> bool) (s : string) : string * string :=
  match s with
  | EmptyString => ("", "")
  | String c s' => if p c then let '(a, b) := span p s' in (String c a, b) else ("", s)
  end.

Definition startswith (prefix s : string) : bool := String.prefix prefix s.

(** [s.endswith(t)] *)
Fixpoint endswith (t s : string) : bool :=
  bool_decide (s = t) || match s with EmptyString => false | String _ s' => endswith t s' end.

(** [t in s] *)
Fixpoint str_contains (t s : string) : bool :=
  String.prefix t s || match s with EmptyString => false | String _ s' => str_contains t s' end.

(** [s and s.strip()], the test of a non-blank identifier. *)
Definition non_blank (s : string) : bool := truthy_str s && truthy_str (strip s).

Definition isdigit (s : string) : bool := truthy_str s && str_forall is_digit s.

(** [int(s)] for a string of digits. *)
Fixpoint int_of_digits_acc (acc : Z) (s : string) : Z :=
  match s with
  | EmptyString => acc
  | String c s => int_of_digits_acc (10 * acc + (Z.of_N (N_of_ascii c) - 48)) s
  end.
Definition int_of_digits : string -> Z := int_of_digits_acc 0.

(** [int(s)]: surrounding whitespace, a sign, digits in groups separated by single
    underscores, at most 4300 of them; [None] is the [ValueError]. *)
Definition py_int (s : string) : option Z :=
  let s := strip s in
  let '(negative, digits) :=
    match s with
    | String "-" r => (true, r)
    | String "+" r => (false, r)
    | _ => (false, s)
    end in
  let groups := split_on "_" digits in
  let n := int_of_digits (join "" groups) in
  if forallb isdigit groups && Nat.leb (String.length (join "" groups)) 4300
  then Some (if negative then - n else n)%Z else None.

(** ** Their lemmas *)

Lemma str_in_char_forall c s : str_in_char c s = false <-> str_forall (fun x => negb (bool_decide (c = x))) s = true.
Proof.
  induction s as [|x s IH]; simpl; [done|]. rewrite orb_false_iff, andb_true_iff, negb_true_iff. by rewrite IH.
Qed.

Lemma str_forall_impl (p q : ascii -> bool) s :
  (forall c, p c = true -> q c = true) -> str_forall p s = true -> str_forall q s = true.
Proof.
  intros Hpq. induction s as [|x s IH]; simpl; [done|]. rewrite !andb_true_iff. naive_solver.
Qed.

Lemma str_lstrip_id p s : str_forall (fun c => negb (p c)) s = true -> str_lstrip p s = s.
Proof. destruct s as [|c s]; simpl; [done|]. by destruct (p c). Qed.

Lemma str_rstrip_id p s : str_forall (fun c => negb (p c)) s = true -> str_rstrip p s = s.
Proof.
  induction s as [|c s IH]; simpl; [done|]. intros [Hc Hs]%andb_true_iff. rewrite IH by done.
  destruct (p c); [done|]. by destruct s.
Qed.

Lemma strip_id s : str_forall (fun c => negb (is_space c)) s = true -> strip s = s.
Proof. intros H. unfold strip. rewrite str_lstrip_id by done. by apply str_rstrip_id. Qed.

Lemma str_filter_id p s : str_forall p s = true -> str_filter p s = s.
Proof. induction s as [|c s IH]; simpl; [done|]. intros [-> Hs]%andb_true_iff. by rewrite IH. Qed.

Lemma partition_spec c s a b :
  partition c s = (a, true, b) <-> s = a +:+ String c b /\ str_in_char c a = false.
Proof.
  revert a. induction s as [|x s IH]; intros a; simpl.
  { split; [done|]. intros [H _]. by destruct a. }
  destruct (decide (x = c)) as [->|Hne].
  - split; [intros [= <- <-]; done|]. intros [H Ha]. destruct a as [|y a]; [by injection H as ->|].
    injection H as -> _. simpl in Ha. by rewrite bool_decide_true in Ha.
  - destruct (partition c s) as [[a' f] b'] eqn:E. split.
    + intros [= <- -> ->]. destruct (proj1 (IH a') eq_refl) as [-> Ha]. split; [done|].
      simpl. by rewrite bool_decide_false.
    + intros [H Ha]. destruct a as [|y a]; [injection H; congruence|]. injection H as -> H.
      simpl in Ha. apply orb_false_iff in Ha as [_ Ha].
      pose proof (proj2 (IH a) (conj H Ha)) as E2. by simplify_eq.
Qed.

Lemma partition_none c s a b :
  partition c s = (a, false, b) <-> str_in_char c s = false /\ a = s /\ b = "".
Proof.
  revert a. induction s as [|x s IH]; intros a; simpl; [naive_solver|].
  destruct (decide (x = c)) as [->|Hne].
  - rewrite bool_decide_true by done. naive_solver.
  - rewrite bool_decide_false by done. destruct (partition c s) as [[a' f] b'] eqn:E. simpl. split.
    + intros [= <- -> ->]. destruct (proj1 (IH a') eq_refl) as (? & -> & ->). done.
    + intros (Hs & -> & ->). pose proof (proj2 (IH s) (conj Hs (conj eq_refl eq_refl))) as E2. by simplify_eq.
Qed.

Lemma rpartition_cases c s :
  (str_in_char c s = false /\ rpartition c s = ("", false, s)) \/
  (exists a b, s = a +:+ String c b /\ str_in_char c b = false /\ rpartition c s = (a, true, b)).
Proof.
  induction s as [|x s IH]; simpl; [by left|].
  destruct IH as [[Hs ->]|(a & b & -> & Hb & ->)].
  - destruct (decide (x = c)) as [->|Hne].
    + right. exists "", s. done.
    + left. rewrite bool_decide_false by done. done.
  - right. exists (String x a), b. done.
Qed.

Lemma rpartition_some c a b : str_in_char c b = false -> rpartition c (a +:+ String c b) = (a, true, b).
Proof.
  intros Hb. destruct (rpartition_cases c (a +:+ String c b)) as [[H _]|(a' & b' & H & Hb' & ->)].
  - rewrite str_in_char_app in H. simpl in H. rewrite bool_decide_true in H by done.
    by rewrite orb_true_r in H.
  - destruct (sep_inj c _ _ _ _ H Hb Hb') as [-> ->]. done.
Qed.

Lemma rpartition_none c s : str_in_char c s = false -> rpartition c s = ("", false, s).
Proof.
  intros Hs. destruct (rpartition_cases c s) as [[_ ->]|(a & b & -> & Hb & _)]; [done|].
  rewrite str_in_char_app in Hs. simpl in Hs. rewrite bool_decide_true in Hs by done.
  by rewrite orb_true_r in Hs.
Qed.

Lemma split_on_none c s : str_in_char c s = false -> split_on c s = [s].
Proof.
  induction s as [|x s IH]; simpl; [done|]. intros [Hx Hs]%orb_false_iff.
  apply bool_decide_eq_false in Hx. rewrite decide_False by congruence. by rewrite IH.
Qed.

Lemma split_on_app c s t : str_in_char c s = false -> split_on c (s +:+ String c t) = s :: split_on c t.
Proof.
  induction s as [|x s IH].
  - intros _. simpl. by rewrite decide_True.
  - simpl. intros [Hx Hs]%orb_false_iff. apply bool_decide_eq_false in Hx.
    rewrite decide_False by congruence. change (split_on c (String.append s _)) with (split_on c (s +:+ String c t)).
    by rewrite IH.
Qed.

Lemma split_on_join c l :
  l <> [] -> Forall (fun s => str_in_char c s = false) l -> split_on c (join (String c "") l) = l.
Proof.
  induction l as [|s l IH]; [done|]. intros _ [Hs Hl]%Forall_cons.
  destruct l as [|t l]; [by apply split_on_none|].
  change (join _ (s :: t :: l)) with (s +:+ String c (join (String c "") (t :: l))).
  rewrite split_on_app by done. by rewrite IH.
Qed.

Lemma split_on_no_sep c s t : t ∈ split_on c s -> str_in_char c t = false.
Proof.
  revert t. induction s as [|x s IH]; intros t; simpl.
  - by intros ->%list_elem_of_singleton.
  - case_decide as Hx.
    + intros [->|Ht]%elem_of_cons; [done|by apply IH].
    + destruct (split_on c s) as [|t' l]; intros [->|Ht]%elem_of_cons; simpl.
      * by rewrite bool_decide_false by congruence.
      * by apply elem_of_nil in Ht.
      * rewrite bool_decide_false by congruence. apply IH. left.
      * apply IH. by right.
Qed.

Lemma split_on_forall c p s :
  str_forall p s = true -> forall t, t ∈ split_on c s -> str_forall p t = true.
Proof.
  induction s as [|x s IH]; simpl.
  - by intros _ t ->%list_elem_of_singleton.
  - intros [Hx Hs]%andb_true_iff t. specialize (IH Hs). case_decide.
    + intros [->|Ht]%elem_of_cons; auto.
    + destruct (split_on c s) as [|t' l]; intros [->|Ht]%elem_of_cons; simpl; rewrite ?Hx; [done|..].
      * by apply elem_of_nil in Ht.
      * apply IH. left.
      * apply IH. by right.
Qed.

Lemma span_spec p s a b :
  span p s = (a, b) -> s = a +:+ b /\ str_forall p a = true /\
    match b with EmptyString => True | String c _ => p c = false end.
Proof.
  revert a. induction s as [|c s IH]; intros a; simpl; [by intros [= <- <-]|].
  destruct (p c) eqn:Hc.
  - destruct (span p s) as [a' b']. intros [= <- <-]. destruct (IH a' eq_refl) as (-> & Ha & Hb).
    simpl. by rewrite Hc, Ha.
  - intros [= <- <-]. done.
Qed.

Lemma span_app p a b :
  str_forall p a = true -> match b with EmptyString => True | String c _ => p c = false end ->
  span p (a +:+ b) = (a, b).
Proof.
  intros Ha Hb. induction a as [|c a IH].
  - simpl. destruct b as [|c b]; [done|]. simpl. by rewrite Hb.
  - simpl in Ha. apply andb_true_iff in Ha as [Hc Ha]. rewrite append_cons. simpl. by rewrite Hc, IH.
Qed.

Lemma lower_app s t : lower (s +:+ t) = lower s +:+ lower t.
Proof. induction s as [|c s IH]; [done|]. rewrite append_cons. unfold lower in *. simpl. by rewrite IH. Qed.

Definition is_lower (c : ascii) : bool := bool_decide (lower_char c = c).

Lemma lower_char_lower c : lower_char (lower_char c) = lower_char c.
Proof. destruct c as [[] [] [] [] [] [] [] []]; reflexivity. Qed.

Lemma lower_is_lower s : str_forall is_lower (lower s) = true.
Proof.
  induction s as [|c s IH]; [done|]. simpl. unfold is_lower at 1.
  by rewrite lower_char_lower, bool_decide_true.
Qed.

Lemma lower_id s : str_forall is_lower s = true -> lower s = s.
Proof.
  induction s as [|c s IH]; simpl; [done|]. intros [Hc%bool_decide_eq_true Hs]%andb_true_iff.
  unfold lower in *. simpl. by rewrite Hc, IH.
Qed.

Lemma str_forall_lower p s :
  (forall c, p c = true -> p (lower_char c) = true) -> str_forall p s = true -> str_forall p (lower s) = true.
Proof.
  intros Hp. induction s as [|c s IH]; simpl; [done|]. rewrite !andb_true_iff. naive_solver.
Qed.

Lemma pretty_N_char_value n :
  (n < 10)%N -> (Z.of_N (N_of_ascii (pretty_N_char n)) - 48 = Z.of_N n)%Z.
Proof.
  intros H. destruct n as [|p]; [done|].
  do 4 (destruct p as [p|p|]; try done; try lia).
Qed.

Lemma int_of_pretty_N_go n s :
  int_of_digits_acc 0 (pretty_N_go n s) = int_of_digits_acc (Z.of_N n) s.
Proof.
  revert s. induction (N.lt_wf_0 n) as [n _ IH]; intros s.
  assert (n = 0 \/ 0 < n)%N as [->|Hn] by lia; [by rewrite pretty_N_go_0|].
  rewrite pretty_N_go_step by done. rewrite IH by (by apply N.div_lt). simpl.
  rewrite pretty_N_char_value by (by apply N.mod_lt).
  f_equal. rewrite (N.div_mod n 10) at 3 by done. lia.
Qed.

Lemma pretty_pos (p : positive) : pretty (Z.pos p) = pretty_N_go (N.pos p) "".
Proof. reflexivity. Qed.

(** [int(str(n)) = n] *)
Lemma int_of_pretty (n : Z) : (0 <= n)%Z -> int_of_digits (pretty n) = n.
Proof.
  intros Hn. destruct n as [|p|p]; [done| |lia].
  rewrite pretty_pos. unfold int_of_digits. by rewrite int_of_pretty_N_go.
Qed.

Lemma pretty_N_go_nonempty n s : (0 < n)%N \/ s <> "" -> pretty_N_go n s <> "".
Proof.
  revert s. induction (N.lt_wf_0 n) as [n _ IH]; intros s Hs.
  assert (n = 0 \/ 0 < n)%N as [->|Hn] by lia.
  - rewrite pretty_N_go_0. destruct Hs; [lia|done].
  - rewrite pretty_N_go_step by done. apply IH; [by apply N.div_lt|by right].
Qed.

Lemma pretty_isdigit (n : Z) : (0 <= n)%Z -> isdigit (pretty n) = true.
Proof.
  intros Hn. destruct n as [|p|p]; [done| |lia].
  rewrite pretty_pos. unfold isdigit. rewrite pretty_N_go_digits by done. rewrite andb_true_r.
  unfold truthy_str. rewrite bool_decide_false; [done|]. apply pretty_N_go_nonempty. left. lia.
Qed.

Lemma str_length_app s t : String.length (s +:+ t) = String.length s + String.length t.
Proof. induction s as [|c s IH]; [done|]. rewrite append_cons. simpl. by rewrite IH. Qed.

Lemma startswith_spec p s : startswith p s = true <-> exists r, s = p +:+ r.
Proof.
  unfold startswith. revert s. induction p as [|c p IH]; intros s.
  - split; [|by destruct s]. intros _. by exists s.
  - destruct s as [|c' s]; simpl; [split; [done|intros [r [=]]]|].
    destruct (Ascii.ascii_dec c c') as [->|Hne].
    + rewrite IH. split; intros [r H]; exists r; [by rewrite H|by injection H].
    + split; [done|]. intros [r [=]]. congruence.
Qed.

Lemma str_contains_mid t a b : str_contains t (a +:+ t +:+ b) = true.
Proof.
  induction a as [|c a IH].
  - rewrite append_nil_l. assert (startswith t (t +:+ b) = true) as H by (apply startswith_spec; by exists b).
    unfold startswith in H. by destruct (t +:+ b); simpl in *; rewrite H.
  - rewrite append_cons. simpl. by rewrite IH, orb_true_r.
Qed.

Lemma endswith_spec t s : endswith t s = true <-> exists r, s = r +:+ t.
Proof.
  induction s as [|c s IH]; simpl; rewrite orb_true_iff, bool_decide_eq_true.
  - split; [intros [->|?]; [by exists ""|done]|]. intros [[|c r] H]; [by left|done].
  - rewrite IH. split.
    + intros [<-|[r ->]]; [by exists ""|by exists (String c r)].
    + intros [[|c' r] H]; [by left|right]. injection H as -> ->. by exists r.
Qed.

Lemma partition_forall p c s a f b :
  partition c s = (a, f, b) -> str_forall p s = true -> str_forall p a = true /\ str_forall p b = true.
Proof.
  destruct f; intros E Hs.
  - apply partition_spec in E as [-> _]. rewrite str_forall_app in Hs. simpl in Hs.
    apply andb_true_iff in Hs as [? [_ ?]%andb_true_iff]. done.
  - by apply partition_none in E as (_ & -> & ->).
Qed.

(** [s.rpartition(c)[2]] has no [c]. *)
Lemma rpartition_tail c s : str_in_char c (rpartition c s).2 = false.
Proof. by destruct (rpartition_cases c s) as [[H ->]|(a & b & _ & H & ->)]. Qed.

(** The characters of [str(n)]. *)
Lemma pretty_Z_chars p (n : Z) :
  (forall c, is_digit c = true -> p c = true) -> p "-"%char = true -> str_forall p (pretty n) = true.
Proof.
  intros Hp Hm. destruct n as [|q|q]; unfold pretty, pretty_Z; [simpl; by rewrite Hp|..].
  - eapply str_forall_impl; [exact Hp|apply pretty_N_digits].
  - rewrite str_forall_app. simpl. rewrite Hm. simpl.
    eapply str_forall_impl; [exact Hp|apply pretty_N_digits].
Qed.

(** ** The order of strings *)

Lemma string_leb_total a b : String.leb a b = false -> String.leb b a = true.
Proof. destruct (String.leb_total a b) as [?|?]; congruence. Qed.

Lemma string_leb_trans a b c : String.leb a b = true -> String.leb b c = true -> String.leb a c = true.
Proof.
  pose proof (String.le_po) as [[_ Ht] _]. unfold String.le in Ht.
  intros H1 H2. apply Is_true_true. eapply Ht; by apply Is_true_true.
Qed.

Lemma string_leb_antisym a b : String.leb a b = true -> String.leb b a = true -> a = b.
Proof.
  pose proof (String.le_po) as [_ Ha]. unfold String.le in Ha. intros H1 H2.
  apply Ha; by apply Is_true_true.
Qed.
