(* ===== verification/PyTime.v ===== *)
(** * Clock readings and digests

    A UTC [datetime] is its number of microseconds since the epoch;
    [isoformat] is [datetime.isoformat()] of an aware UTC value. [stable_hash]
    of a [str] is [contracts/common.py]'s: the SHA-256 digest, a parameter, of
    its JSON text. Lemmas: what characters these texts contain, and that the
    JSON text determines the string. *)
From Stdlib Require Import Ascii.
From S2P Require Import Prelude PyStr.
Local Open Scope Z_scope.

(** [datetime.min] and [datetime.max], in microseconds. *)
Definition datetime_min : Z := -62135596800000000.
Definition datetime_max : Z := 253402300799999999.

(** [d + timedelta(microseconds=us)] *)
Definition datetime_add (d us : Z) : res Z :=
  do? guard ((datetime_min <=? d + us) && (d + us <=? datetime_max)) OverflowError in Ok (d + us).

(** The proleptic Gregorian date of a day number (0 is 1970-01-01). *)
Definition civil_from_days (days : Z) : Z * Z * Z :=
  let z := days + 719468 in
  let era := z / 146097 in
  let doe := z - era * 146097 in
  let yoe := (doe - doe / 1460 + doe / 36524 - doe / 146096) / 365 in
  let doy := doe - (365 * yoe + yoe / 4 - yoe / 100) in
  let mp := (5 * doy + 2) / 153 in
  let m := if mp <? 10 then mp + 3 else mp - 9 in
  (yoe + era * 400 + (if m <=? 2 then 1 else 0), m, doy - (153 * mp + 2) / 5 + 1).

(** [f"{n:0{width}d}"] for [n >= 0] *)
Definition zfill (width : nat) (n : Z) : string :=
  let s := pretty n in
  String.concat "" (repeat "0" (width - String.length s)) +:+ s.

Definition isoformat (us : Z) : string :=
  let seconds := us / 1000000 in
  let micro := us mod 1000000 in
  let '(y, m, d) := civil_from_days (seconds / 86400) in
  let s := seconds mod 86400 in
  zfill 4 y +:+ "-" +:+ zfill 2 m +:+ "-" +:+ zfill 2 d +:+ "T" +:+
  zfill 2 (s / 3600) +:+ ":" +:+ zfill 2 (s / 60 mod 60) +:+ ":" +:+ zfill 2 (s mod 60) +:+
  (if micro =? 0 then "" else "." +:+ zfill 6 micro) +:+ "+00:00".

Example isoformat_example : isoformat 1709210096000123 = "2024-02-29T12:34:56.000123+00:00".
Proof. by vm_compute. Qed.

(** No character outside those of digits, signs and separators. *)
Lemma zfill_chars p width n :
  (forall c, is_digit c = true -> p c = true) -> p "-"%char = true -> str_forall p (zfill width n) = true.
Proof.
  intros Hp Hm. unfold zfill. rewrite str_forall_app, (pretty_Z_chars p) by done. rewrite andb_true_r.
  induction (width - String.length (pretty n))%nat as [|k IH]; [done|].
  destruct k as [|k]; simpl in *; [by rewrite Hp|]. by rewrite Hp.
Qed.

Lemma isoformat_not_in c us :
  is_digit c = false -> c <> "-"%char -> c <> "T"%char -> c <> ":"%char -> c <> "."%char -> c <> "+"%char ->
  str_in_char c (isoformat us) = false.
Proof.
  intros Hd H1 H2 H3 H4 H5. apply str_in_char_forall. unfold isoformat.
  destruct (civil_from_days _) as [[y m] d].
  set (p := fun x => negb (bool_decide (c = x))).
  assert (forall x, c <> x -> p x = true) as Hp by (intros x Hx; unfold p; by rewrite bool_decide_false).
  assert (forall w n, str_forall p (zfill w n) = true) as Hz.
  { intros w n. apply zfill_chars; [|by apply Hp]. intros x Hx. apply Hp. intros <-. congruence. }
  assert (str_forall p "+00:00" = true) as Htz.
  { simpl. rewrite !Hp; [done|..]; try done; by intros ->. }
  destruct (_ =? 0); rewrite !str_forall_app, !Hz, Htz; simpl; by rewrite !Hp.
Qed.

(** ** contracts/common.py: [canonical_json] of a [str], [stable_hash] *)

Definition hex_digit (n : N) : ascii := ascii_of_N (if (n <? 10)%N then n + 48 else n + 87).

(** [json.dumps] with [ensure_ascii], one ASCII character. *)
Definition json_escape (c : ascii) : string :=
  let n := N_of_ascii c in
  if (n =? 34)%N || (n =? 92)%N then String "\" (String c "")
  else if (n =? 10)%N then "\n" else if (n =? 13)%N then "\r" else if (n =? 9)%N then "\t"
  else if (n =? 8)%N then "\b" else if (n =? 12)%N then "\f"
  else if (n <? 32)%N || (n =? 127)%N then "\u00" +:+ String (hex_digit (n / 16)) (String (hex_digit (n mod 16)) "")
  else String c "".

Fixpoint json_escapes (s : string) : string :=
  match s with EmptyString => "" | String c s' => json_escape c +:+ json_escapes s' end.

Definition canonical_json (s : string) : string :=
  String (ascii_of_N 34) (json_escapes s) +:+ String (ascii_of_N 34) "".

Definition stable_hash (sha256_hexdigest : string -> string) (value : string) : string :=
  sha256_hexdigest (canonical_json value).

(** *** The escapes form a prefix code, so the JSON text determines the string. *)

Definition all_chars : list ascii := ascii_of_nat <$> seq 0 256.

Lemma all_chars_spec c : c ∈ all_chars.
Proof.
  apply list_elem_of_fmap. exists (nat_of_ascii c). split; [by rewrite ascii_nat_embedding|].
  apply elem_of_seq. pose proof (nat_ascii_bounded c). lia.
Qed.

Lemma escapes_prefix_code :
  forallb (fun c => forallb (fun d => bool_decide (c = d) || negb (String.prefix (json_escape c) (json_escape d)))
    all_chars) all_chars = true.
Proof. by vm_compute. Qed.

Lemma prefix_append s t : String.prefix s (s +:+ t) = true.
Proof. induction s as [|c s IH]; [by destruct t|]. simpl. by destruct (ascii_dec c c). Qed.

Lemma append_cases s1 s2 t1 t2 : s1 +:+ t1 = s2 +:+ t2 ->
  String.prefix s1 s2 = true \/ String.prefix s2 s1 = true.
Proof.
  revert s2. induction s1 as [|c s1 IH]; intros [|d s2] E; [by left|by left|by right|].
  rewrite !append_cons in E. injection E as -> E. simpl. destruct (ascii_dec d d) as [_|]; [|done]. by apply IH.
Qed.

Lemma escape_inj c d s t : json_escape c +:+ s = json_escape d +:+ t -> c = d /\ s = t.
Proof.
  intros E. assert (c = d) as ->.
  { pose proof escapes_prefix_code as Hall. rewrite forallb_forall in Hall.
    assert (forall x y, x = y \/ String.prefix (json_escape x) (json_escape y) = false) as Hxy.
    { intros x y. specialize (Hall x ltac:(apply list_elem_of_In, all_chars_spec)).
      rewrite forallb_forall in Hall. specialize (Hall y ltac:(apply list_elem_of_In, all_chars_spec)).
      apply orb_true_iff in Hall as [?%bool_decide_eq_true|?%negb_true_iff]; auto. }
    destruct (append_cases _ _ _ _ E) as [H|H]; [destruct (Hxy c d)|destruct (Hxy d c)]; congruence. }
  split; [done|]. by apply append_inj_l in E.
Qed.

Lemma json_escape_nonempty c s : json_escape c +:+ s <> "".
Proof. unfold json_escape. by repeat (destruct (_ || _) || destruct (_ =? _)%N). Qed.

Lemma json_escapes_inj s t : json_escapes s = json_escapes t -> s = t.
Proof.
  revert t. induction s as [|c s IH]; intros [|d t]; simpl; intros E.
  - done.
  - symmetry in E. by apply json_escape_nonempty in E.
  - by apply json_escape_nonempty in E.
  - apply escape_inj in E as [-> E]. f_equal. auto.
Qed.

Lemma append_inj_r s t u : s +:+ u = t +:+ u -> s = t.
Proof.
  revert t. induction s as [|c s IH]; intros [|d t] E.
  - done.
  - apply (f_equal String.length) in E. rewrite str_length_app in E. simpl in E. rewrite str_length_app in E. lia.
  - apply (f_equal String.length) in E. simpl in E. rewrite !str_length_app in E. simpl in E. lia.
  - rewrite !append_cons in E. injection E as -> E. f_equal. auto.
Qed.

#[export] Instance canonical_json_inj : Inj (=) (=) canonical_json.
Proof. intros s t E. unfold canonical_json in E. apply append_inj_r in E. injection E. apply json_escapes_inj. Qed.
