(* ===== verification/PyFloat.v ===== *)
(** * Python's [float]

    A [float] is a binary64 number: the kernel's primitive floats, with the
    Standard Library's specification of their comparison. [fkey] embeds the
    numbers that are not NaN in a lexicographic order on integers, where
    comparisons are decided by [lia]. *)
From Stdlib Require Import Floats.
From S2P Require Import Prelude.
Local Open Scope Z_scope.

(** [max(a, b)] and [min(a, b)]: the first argument unless the second is
    strictly better, so a NaN second argument is ignored. *)
Definition py_max (a b : float) : float := if PrimFloat.ltb a b then b else a.
Definition py_min (a b : float) : float := if PrimFloat.ltb b a then b else a.

(** [float(n)], the conversion of an [int] operand. *)
Definition float_of_int (n : Z) : res float :=
  let f := SF2Prim (SpecFloat.binary_normalize FloatOps.prec FloatOps.emax n 0 false) in
  if PrimFloat.is_infinity f then Raise OverflowError else Ok f.

(** [a / b] *)
Definition float_div (a b : float) : res float :=
  if PrimFloat.eqb b 0%float then Raise ZeroDivisionError else Ok (PrimFloat.div a b).

Definition not_nan (x : float) : Prop := Prim2SF x <> S754_nan.

Definition sf_key (x : spec_float) : Z * Z * Z :=
  match x with
  | S754_zero _ | S754_nan => (0, 0, 0)
  | S754_infinity false => (2, 0, 0)
  | S754_infinity true => (-2, 0, 0)
  | S754_finite false m e => (1, e, Zpos m)
  | S754_finite true m e => (-1, - e, Zneg m)
  end.
Definition fkey (x : float) : Z * Z * Z := sf_key (Prim2SF x).

Definition lex_lt (a b : Z * Z * Z) : Prop :=
  let '(a1, a2, a3) := a in let '(b1, b2, b3) := b in
  a1 < b1 \/ (a1 = b1 /\ (a2 < b2 \/ (a2 = b2 /\ a3 < b3))).

Lemma SFcompare_key x y :
  x <> S754_nan -> y <> S754_nan ->
  match SFcompare x y with
  | Some Lt => lex_lt (sf_key x) (sf_key y)
  | Some Gt => lex_lt (sf_key y) (sf_key x)
  | Some Eq => sf_key x = sf_key y
  | None => False
  end.
Proof.
  destruct x as [|[]| |[] m e], y as [|[]| |[] m' e']; simpl; try done; try lia; intros _ _;
    destruct (Z.compare_spec e e'); simpl; try lia;
    change (Pos.compare_cont Eq m m') with (Pos.compare m m');
    destruct (Pos.compare_spec m m'); simpl; try lia; subst; done.
Qed.

Lemma ltb_key x y : not_nan x -> not_nan y -> PrimFloat.ltb x y = true <-> lex_lt (fkey x) (fkey y).
Proof.
  intros Hx Hy. rewrite FloatAxioms.ltb_spec. unfold SFltb, fkey. pose proof (SFcompare_key _ _ Hx Hy) as H.
  destruct (SFcompare _ _) as [[]|]; [..|done]; (split; [|]); try done; intros Hl;
    destruct (sf_key (Prim2SF x)) as [[? ?] ?], (sf_key (Prim2SF y)) as [[? ?] ?]; simpl in *;
    simplify_eq; lia.
Qed.

Lemma eqb_key x y : not_nan x -> not_nan y -> PrimFloat.eqb x y = true <-> fkey x = fkey y.
Proof.
  intros Hx Hy. rewrite FloatAxioms.eqb_spec. unfold SFeqb, fkey. pose proof (SFcompare_key _ _ Hx Hy) as H.
  destruct (SFcompare _ _) as [[]|]; [done|..|done]; (split; [done|]); intros Hl;
    rewrite Hl in H; destruct (sf_key (Prim2SF y)) as [[? ?] ?]; simpl in H; lia.
Qed.

Lemma leb_key x y : not_nan x -> not_nan y -> PrimFloat.leb x y = true <-> ~ lex_lt (fkey y) (fkey x).
Proof.
  intros Hx Hy. rewrite FloatAxioms.leb_spec. unfold SFleb, fkey. pose proof (SFcompare_key _ _ Hx Hy) as H.
  destruct (SFcompare _ _) as [[]|]; [..|done]; (split; [|]); try done; intros Hl;
    destruct (sf_key (Prim2SF x)) as [[? ?] ?], (sf_key (Prim2SF y)) as [[? ?] ?]; simpl in *;
    simplify_eq; try lia; tauto.
Qed.

Lemma ltb_not_nan x y : PrimFloat.ltb x y = true -> not_nan x /\ not_nan y.
Proof.
  rewrite FloatAxioms.ltb_spec. unfold SFltb, not_nan.
  destruct (Prim2SF x) as [|[]| |[] ? ?], (Prim2SF y) as [|[]| |[] ? ?]; done.
Qed.

Lemma opp_not_nan x : not_nan x -> not_nan (PrimFloat.opp x).
Proof. unfold not_nan. rewrite FloatAxioms.opp_spec. by destruct (Prim2SF x). Qed.

Lemma opp_key x : not_nan x ->
  fkey (PrimFloat.opp x) = let '(a, b, c) := fkey x in (- a, - b, - c).
Proof.
  unfold not_nan, fkey. rewrite FloatAxioms.opp_spec. destruct (Prim2SF x) as [|[]| |[] m e]; simpl; try done.
  intros _. by rewrite Z.opp_involutive.
Qed.

(** Clamping bounds any score, NaN included. *)
Lemma clamp_bounds lo hi x :
  PrimFloat.ltb lo hi = true ->
  let r := py_max lo (py_min hi x) in
  not_nan r /\ PrimFloat.leb lo r = true /\ PrimFloat.leb r hi = true.
Proof.
  intros Hlh. destruct (ltb_not_nan _ _ Hlh) as [Hlo Hhi]. pose proof (proj1 (ltb_key _ _ Hlo Hhi) Hlh) as Hk.
  assert (forall a b, not_nan a -> not_nan b -> (lex_lt (fkey a) (fkey b) \/ fkey a = fkey b) ->
    PrimFloat.leb a b = true) as Hle.
  { intros a b Ha Hb H. apply leb_key; [done..|].
    destruct (fkey a) as [[? ?] ?], (fkey b) as [[? ?] ?]; simpl in *. destruct H; simplify_eq; lia. }
  set (y := py_min hi x). assert (not_nan y /\ PrimFloat.leb y hi = true) as [Hy Hyh].
  { unfold y, py_min. destruct (PrimFloat.ltb x hi) eqn:E; [|split; [done|apply Hle; auto]].
    destruct (ltb_not_nan _ _ E) as [Hx _]. split; [done|]. apply Hle; [done..|left]. by apply ltb_key. }
  unfold py_max. destruct (PrimFloat.ltb lo y) eqn:E; simpl; split_and!; try done.
  - apply Hle; [done..|left]. by apply ltb_key.
  - apply Hle; auto.
  - apply Hle; auto.
Qed.

(** [a / b] for [int]s with [b > 0] and [a >= 0]: the quotient, correctly
    rounded; [OverflowError] when it is not a float. *)
Definition int_truediv (a b : Z) : res float :=
  if b =? 0 then Raise ZeroDivisionError else
  if a =? 0 then Ok 0%float else
  let '(m, e, l) := SFdiv_core_binary FloatOps.prec FloatOps.emax a 0 b 0 in
  let f := SF2Prim (binary_round_aux FloatOps.prec FloatOps.emax false m e l) in
  if PrimFloat.is_infinity f then Raise OverflowError else Ok f.

(** [math.isfinite] *)
Definition isfinite (x : float) : bool := PrimFloat.is_finite x.

(** [int(x)]: towards zero. *)
Definition int_of_float (x : float) : res Z :=
  match Prim2SF x with
  | S754_zero _ => Ok 0
  | S754_nan => Raise (ValueError "cannot convert float NaN to integer")
  | S754_infinity _ => Raise OverflowError
  | S754_finite s m e =>
      let n := if 0 <=? e then Zpos m * 2 ^ e else Zpos m / 2 ^ (- e) in
      Ok (if s then - n else n)
  end.

(** [float(s)] of a string of digits: too many digits give infinity. *)
Definition float_of_digits (n : Z) : float := SF2Prim (SpecFloat.binary_normalize FloatOps.prec FloatOps.emax n 0 false).
