(* ===== verification/FloatArith.v ===== *)
(** * Sums and differences of floats

    What the clients of the clock rely on: rounding never takes a sum of
    non-negative floats below one of its terms, and never makes a positive
    difference vanish, so [a - b <= 0] decides [a <= b]. Proved from the
    Standard Library's definition of binary64 rounding: a representable number
    below the exact result is still below the rounded one. *)
From Stdlib Require Import Floats.
From S2P Require Import Prelude PyFloat.
Local Open Scope Z_scope.

Local Abbreviation prec := FloatOps.prec.
Local Abbreviation emax := FloatOps.emax.
Local Abbreviation emin := (SpecFloat.emin prec emax).
Local Abbreviation SFadd := SpecFloat.SFadd.
Local Abbreviation SFsub := SpecFloat.SFsub.
Local Abbreviation fexp := (SpecFloat.fexp prec emax).

Lemma emin_eq : emin = -1074.
Proof. reflexivity. Qed.
Lemma fexp_eq e : fexp e = Z.max (e - 53) (-1074).
Proof. reflexivity. Qed.

(** The value of [m * 2^e] in units of the least positive float. *)
Definition units (m e : Z) : Z := m * 2 ^ (e + 1074).

Lemma units_shift m e k : 0 <= k -> -1074 <= e -> units m (e + k) = units (m * 2 ^ k) e.
Proof.
  intros Hk He. unfold units. replace (e + k + 1074) with (k + (e + 1074)) by lia.
  rewrite Z.pow_add_r by lia. lia.
Qed.

Lemma units_le m m' e : -1074 <= e -> units m e <= units m' e <-> m <= m'.
Proof.
  intros He. unfold units. symmetry. apply Z.mul_le_mono_pos_r. apply Z.pow_pos_nonneg; lia.
Qed.

Lemma digits2_bounds p : 2 ^ (Zpos (digits2_pos p) - 1) <= Zpos p < 2 ^ Zpos (digits2_pos p).
Proof.
  assert (forall q, 2 ^ Zpos q = 2 * 2 ^ (Zpos q - 1)) as Hpow.
  { intros q. rewrite <-Z.pow_succ_r by lia. f_equal. lia. }
  induction p as [p IH|p IH|]; simpl digits2_pos; [..|by simpl]; specialize (Hpow (digits2_pos p));
    rewrite Pos2Z.inj_succ, Z.pow_succ_r by lia;
    replace (Z.succ (Zpos (digits2_pos p)) - 1) with (Zpos (digits2_pos p)) by lia; lia.
Qed.

(** ** Shifts *)

Lemma iter_pos_add {A} (f : A -> A) n x : SpecFloat.iter_pos f n x = Nat.iter (Pos.to_nat n) f x.
Proof.
  revert x. induction n as [n IH|n IH|]; intros x; cbn [SpecFloat.iter_pos].
  - rewrite !IH, <-Nat.iter_add. replace (Pos.to_nat n~1) with (S (Pos.to_nat n + Pos.to_nat n))%nat by lia.
    by rewrite Nat.iter_succ_r.
  - rewrite !IH, <-Nat.iter_add. by replace (Pos.to_nat n~0) with (Pos.to_nat n + Pos.to_nat n)%nat by lia.
  - done.
Qed.

Lemma shr_1_m r : 0 <= shr_m r -> shr_m (shr_1 r) = shr_m r / 2.
Proof.
  destruct r as [m b s]. simpl. destruct m as [|[p|p|]|p]; simpl; intros H; try lia; try done.
  - apply (Z.div_unique _ _ _ 1); lia.
  - apply (Z.div_unique _ _ _ 0); lia.
Qed.

Lemma shr_iter_m n r : 0 <= shr_m r -> shr_m (Nat.iter n shr_1 r) = shr_m r / 2 ^ Z.of_nat n.
Proof.
  intros Hr. induction n as [|n IH]; simpl Nat.iter; [by rewrite Z.div_1_r|].
  rewrite shr_1_m, IH.
  - rewrite Z.div_div by (try apply Z.pow_nonzero; lia). f_equal.
    rewrite Nat2Z.inj_succ, Z.pow_succ_r by lia. lia.
  - rewrite IH. apply Z.div_pos; [done|]. apply Z.pow_pos_nonneg; lia.
Qed.

Lemma shr_record_m m l : shr_m (shr_record_of_loc m l) = m.
Proof. by destruct l as [|[]]. Qed.

(** [shr_fexp] divides by a power of two and moves the exponent to [fexp]. *)
Lemma shr_fexp_spec m e l :
  0 <= m ->
  let n := Z.max 0 (fexp (Zdigits2 m + e) - e) in
  shr_m (shr_fexp prec emax m e l).1 = m / 2 ^ n /\ (shr_fexp prec emax m e l).2 = e + n.
Proof.
  intros Hm n. unfold shr_fexp, shr, n. destruct (fexp (Zdigits2 m + e) - e) as [|p|p] eqn:E; simpl.
  - rewrite shr_record_m, Z.div_1_r. lia.
  - rewrite iter_pos_add, shr_iter_m; rewrite shr_record_m; [|done].
    rewrite positive_nat_Z. replace (Z.max 0 (Zpos p)) with (Zpos p) by lia. done.
  - rewrite shr_record_m, Z.div_1_r. lia.
Qed.

(** ** Representable numbers *)

Definition canonical (m : positive) (e : Z) : Prop := fexp (Zpos (digits2_pos m) + e) = e.

Lemma canonical_bounds m e : canonical m e ->
  -1074 <= e /\ Zpos m < 2 ^ 53 /\ (-1074 < e -> 2 ^ 52 <= Zpos m).
Proof.
  unfold canonical. rewrite fexp_eq. intros H. pose proof (digits2_bounds m) as [Hl Hu].
  split; [lia|]. split.
  - eapply Z.lt_le_trans; [exact Hu|]. apply Z.pow_le_mono_r; lia.
  - intros He. eapply Z.le_trans; [|exact Hl]. apply Z.pow_le_mono_r; lia.
Qed.

Lemma least_canonical : canonical 1 (-1074).
Proof. reflexivity. Qed.

(** Canonical pairs are ordered by exponent, then mantissa. *)
Lemma canonical_order m1 e1 m2 e2 :
  canonical m1 e1 -> canonical m2 e2 -> units (Zpos m1) e1 <= units (Zpos m2) e2 ->
  e1 < e2 \/ (e1 = e2 /\ Zpos m1 <= Zpos m2).
Proof.
  intros (H1 & _ & Hn1)%canonical_bounds (H2 & Hu2 & _)%canonical_bounds Hle.
  destruct (Z.lt_trichotomy e1 e2) as [?|[->|Hgt]]; [by left|right|exfalso].
  - split; [done|]. by apply (units_le _ _ e2).
  - replace e1 with (e2 + (e1 - e2)) in Hle by lia. rewrite units_shift in Hle by lia.
    apply units_le in Hle; [|done].
    assert (2 ^ 1 <= 2 ^ (e1 - e2)) as Hp by (apply Z.pow_le_mono_r; lia).
    specialize (Hn1 ltac:(lia)). nia.
Qed.

(** A representable number at most [m * 2^e] survives the truncation of [m] to
    the exponent the result is rounded to. *)
Lemma truncation_floor mx ex m e l :
  canonical mx ex -> 0 < m -> -1074 <= e -> units (Zpos mx) ex <= units m e ->
  let '(r, e') := shr_fexp prec emax m e l in
  -1074 <= e' /\ units (Zpos mx) ex <= units (shr_m r) e'.
Proof.
  intros Hx Hm He Hle. pose proof (shr_fexp_spec m e l ltac:(lia)) as [Hr He'].
  destruct (shr_fexp prec emax m e l) as [r e']. simpl in Hr, He'.
  apply canonical_bounds in Hx as (Hex & Hux & _).
  destruct m as [|p|p]; [lia| |lia]. simpl Zdigits2 in *. rewrite fexp_eq in *.
  set (d := Zpos (digits2_pos p)) in *. set (n := Z.max 0 _) in *.
  assert (0 <= n) as Hn by lia. assert (0 < 2 ^ n) as Hpn by (apply Z.pow_pos_nonneg; lia).
  split; [lia|]. rewrite Hr, He'.
  destruct (Z.eq_dec n 0) as [->|Hn0]; [by rewrite Z.div_1_r, Z.add_0_r|].
  destruct (Z.le_gt_cases (e + n) ex) as [Hge|Hlt].
  - (* a multiple of the unit of the result *)
    replace ex with ((e + n) + (ex - (e + n))) by lia. rewrite units_shift by lia.
    apply units_le; [lia|]. apply Z.div_le_lower_bound; [done|].
    apply (units_le _ _ e He). rewrite (Z.mul_comm (2 ^ n)), <-units_shift by lia.
    rewrite <-units_shift by lia. by replace (e + n + (ex - (e + n))) with ex by lia.
  - (* smaller than every number with the result's exponent *)
    assert (2 ^ 52 <= Zpos p / 2 ^ n) as H52.
    { apply Z.div_le_lower_bound; [done|]. rewrite <-Z.pow_add_r by lia.
      eapply Z.le_trans; [|apply (digits2_bounds p)]. apply Z.pow_le_mono_r; lia. }
    replace (e + n) with (ex + (e + n - ex)) by lia. rewrite units_shift by lia.
    apply units_le; [done|].
    assert (2 ^ 1 <= 2 ^ (e + n - ex)) by (apply Z.pow_le_mono_r; lia). nia.
Qed.

Lemma round_ne_ge m l : m <= round_nearest_even m l.
Proof. destruct l as [|[]]; simpl; try lia. destruct (Z.even m); lia. Qed.

(** The positive results at least as large as a representable number. *)
Definition at_least (mx : positive) (ex : Z) (x : spec_float) : Prop :=
  match x with
  | S754_infinity false => True
  | S754_finite false m e => units (Zpos mx) ex <= units (Zpos m) e
  | _ => False
  end.

Lemma units_pos m e : -1074 <= e -> 0 < units m e <-> 0 < m.
Proof.
  intros He. unfold units. assert (0 < 2 ^ (e + 1074)) by (apply Z.pow_pos_nonneg; lia). nia.
Qed.

Lemma binary_round_aux_ge mx ex m e :
  canonical mx ex -> -1074 <= e -> units (Zpos mx) ex <= units (Zpos m) e ->
  at_least mx ex (binary_round_aux prec emax false (Zpos m) e loc_Exact).
Proof.
  intros Hx He Hle. unfold binary_round_aux.
  assert (0 < units (Zpos mx) ex) as Hpos by (apply units_pos; [apply (canonical_bounds mx ex Hx)|lia]).
  pose proof (truncation_floor mx ex (Zpos m) e loc_Exact Hx ltac:(lia) He Hle) as H1.
  destruct (shr_fexp prec emax (Zpos m) e loc_Exact) as [r1 e1]. destruct H1 as [He1 Hle1].
  set (m1 := round_nearest_even _ _).
  assert (units (Zpos mx) ex <= units m1 e1) as Hle1'.
  { eapply Z.le_trans; [exact Hle1|]. apply units_le; [done|]. apply round_ne_ge. }
  assert (0 < m1) as Hm1 by (apply (units_pos _ e1); [done|lia]).
  pose proof (truncation_floor mx ex m1 e1 loc_Exact Hx Hm1 He1 Hle1') as H2.
  destruct (shr_fexp prec emax m1 e1 loc_Exact) as [r2 e2]. destruct H2 as [He2 Hle2].
  assert (0 < shr_m r2) as Hm2 by (apply (units_pos _ e2); [done|lia]).
  destruct (shr_m r2) as [|p|p]; [lia| |lia]. destruct (e2 <=? emax - prec); simpl; [done|done].
Qed.

Lemma shl_align_spec m e e' :
  -1074 <= e' -> let '(m', e1) := shl_align m e e' in
  e1 = Z.min e e' /\ (-1074 <= e -> units (Zpos m') e1 = units (Zpos m) e).
Proof.
  intros He'. unfold shl_align. destruct (e' - e) as [|d|d] eqn:E; [lia|lia|].
  split; [lia|]. intros He. replace e with (e' + Zpos d) by lia. rewrite units_shift by lia.
  f_equal.
  clear. induction d as [|d IH] using Pos.peano_ind; [simpl; lia|].
  rewrite Pos.iter_succ, Pos2Z.inj_succ, Z.pow_succ_r by lia. lia.
Qed.

Lemma binary_round_ge mx ex m e :
  canonical mx ex -> -1074 <= e -> units (Zpos mx) ex <= units (Zpos m) e ->
  at_least mx ex (binary_round prec emax false m e).
Proof.
  intros Hx He Hle. unfold binary_round.
  assert (-1074 <= fexp (Zpos (digits2_pos m) + e)) as Hf by (rewrite fexp_eq; lia).
  pose proof (shl_align_spec m e _ Hf) as H.
  destruct (shl_align m e (fexp (Zpos (digits2_pos m) + e))) as [mz ez]. destruct H as [-> Hu].
  apply binary_round_aux_ge; [done|lia|]. by rewrite Hu.
Qed.

(** ** Sums and differences *)

Definition valid (x : spec_float) : Prop := SpecFloat.valid_binary prec emax x = true.

Lemma valid_finite s m e : valid (S754_finite s m e) -> canonical m e.
Proof.
  unfold valid. simpl. unfold bounded, canonical_mantissa. intros [H _]%andb_true_iff.
  by apply Z.eqb_eq in H.
Qed.

Lemma at_least_leb mx ex r :
  canonical mx ex -> valid r -> at_least mx ex r -> SFleb (S754_finite false mx ex) r = true.
Proof.
  intros Hx Hr H. destruct r as [|[]| |[] m e]; try done. apply valid_finite in Hr.
  destruct (canonical_order _ _ _ _ Hx Hr H) as [Hlt|[-> Hle]]; unfold SFleb; simpl.
  - by rewrite (proj2 (Z.compare_lt_iff _ _) Hlt).
  - rewrite Z.compare_refl. change (Pos.compare_cont Eq mx m) with (Pos.compare mx m).
    destruct (Pos.compare_spec mx m); [done|done|lia].
Qed.

Lemma at_least_pos mx ex r : at_least mx ex r -> SFltb (S754_zero false) r = true.
Proof. by destruct r as [|[]| |[] m e]. Qed.

(** Both operands of a sum, at a common exponent. *)
Lemma aligned m1 e1 m2 e2 :
  canonical m1 e1 -> canonical m2 e2 ->
  let ez := Z.min e1 e2 in
  -1074 <= ez /\
  units (Zpos (shl_align m1 e1 ez).1) ez = units (Zpos m1) e1 /\
  units (Zpos (shl_align m2 e2 ez).1) ez = units (Zpos m2) e2.
Proof.
  intros (H1 & _)%canonical_bounds (H2 & _)%canonical_bounds ez. split; [lia|].
  pose proof (shl_align_spec m1 e1 ez ltac:(lia)) as A1. pose proof (shl_align_spec m2 e2 ez ltac:(lia)) as A2.
  destruct (shl_align m1 e1 ez) as [a1 b1], (shl_align m2 e2 ez) as [a2 b2]. simpl.
  destruct A1 as [-> A1], A2 as [-> A2].
  replace (Z.min e1 ez) with ez in A1 by lia. replace (Z.min e2 ez) with ez in A2 by lia. auto.
Qed.

Lemma SFadd_ge x y :
  valid x -> valid y -> valid (SFadd prec emax x y) ->
  SFleb (S754_zero false) x = true -> SFleb (S754_zero false) y = true ->
  SFleb x (SFadd prec emax x y) = true.
Proof.
  intros Hx Hy Hr Hx0 Hy0.
  destruct x as [sx|[]| |[] mx ex], y as [sy|[]| |[] my ey]; try done; try (by destruct sx);
    try (by destruct sx, sy).
  - (* x + 0 *) unfold SFleb. simpl. rewrite Z.compare_refl.
    change (Pos.compare_cont Eq mx mx) with (Pos.compare mx mx). by rewrite Pos.compare_refl.
  - apply valid_finite in Hx, Hy. apply at_least_leb; [done|done|].
    simpl. destruct (aligned mx ex my ey Hx Hy) as (Hez & H1 & H2). simpl in H1, H2.
    apply binary_round_ge; [done|done|]. rewrite <-H1. apply units_le; [done|]. simpl. lia.
Qed.

Lemma binary_round_pos m e :
  -1074 <= e -> SFltb (S754_zero false) (binary_round prec emax false m e) = true.
Proof.
  intros He. apply (at_least_pos 1 (-1074)). apply binary_round_ge; [apply least_canonical|done|].
  apply (Z.le_trans _ (units 1 e)).
  - unfold units. apply Z.mul_le_mono_nonneg_l; [lia|]. apply Z.pow_le_mono_r; lia.
  - apply units_le; [done|lia].
Qed.

(** The order of positive numbers is the order of their values. *)
Lemma ltb_units m1 e1 m2 e2 :
  canonical m1 e1 -> canonical m2 e2 ->
  SFltb (S754_finite false m1 e1) (S754_finite false m2 e2) = true ->
  units (Zpos m1) e1 < units (Zpos m2) e2.
Proof.
  intros H1 H2 Hlt. apply Z.nle_gt. intros Hle. unfold SFltb in Hlt. simpl in Hlt.
  destruct (canonical_order _ _ _ _ H2 H1 Hle) as [Hc|[-> Hc]].
  - by rewrite (proj2 (Z.compare_gt_iff _ _) Hc) in Hlt.
  - rewrite Z.compare_refl in Hlt. change (Pos.compare_cont Eq m1 m2) with (Pos.compare m1 m2) in Hlt.
    destruct (Pos.compare_spec m1 m2); [done|lia|done].
Qed.

Lemma ltb_negative m1 e1 m2 e2 :
  SFltb (S754_finite true m1 e1) (S754_finite true m2 e2) =
  SFltb (S754_finite false m2 e2) (S754_finite false m1 e1).
Proof.
  unfold SFltb. simpl. rewrite (Z.compare_antisym e1 e2).
  change (Pos.compare_cont Eq m1 m2) with (Pos.compare m1 m2).
  change (Pos.compare_cont Eq m2 m1) with (Pos.compare m2 m1). rewrite (Pos.compare_antisym m1 m2).
  destruct (e1 ?= e2), (m1 ?= m2)%positive; done.
Qed.

Lemma SFsub_pos x y :
  valid x -> valid y -> SFltb y x = true ->
  SFltb (S754_zero false) (SFsub prec emax x y) = true.
Proof.
  intros Hx Hy Hlt.
  destruct x as [sx|[]| |[] mx ex], y as [sy|[]| |[] my ey]; try done; try (by destruct sx);
    try (by destruct sy); apply valid_finite in Hx, Hy;
    simpl; destruct (aligned mx ex my ey Hx Hy) as (Hez & H1 & H2); simpl in H1, H2;
    set (a := (shl_align mx ex (Z.min ex ey)).1) in *; set (b := (shl_align my ey (Z.min ex ey)).1) in *;
    change (fst (shl_align mx ex (Z.min ex ey))) with a; change (fst (shl_align my ey (Z.min ex ey))) with b.
  - rewrite ltb_negative in Hlt. apply (ltb_units _ _ _ _ Hx Hy) in Hlt. rewrite <-H1, <-H2 in Hlt.
    apply Z.lt_nge in Hlt. rewrite units_le in Hlt by done.
    replace (- Zpos a - - Zpos b) with (Zpos (b - a)) by lia. by apply binary_round_pos.
  - replace (Zpos a - - Zpos b) with (Zpos (a + b)) by lia. by apply binary_round_pos.
  - apply (ltb_units _ _ _ _ Hy Hx) in Hlt. rewrite <-H1, <-H2 in Hlt.
    apply Z.lt_nge in Hlt. rewrite units_le in Hlt by done.
    replace (Zpos a - Zpos b) with (Zpos (a - b)) by lia. by apply binary_round_pos.
Qed.

(** [y - x] is [-(x - y)], up to the sign of zero. *)
Lemma binary_round_opp m e : binary_round prec emax true m e = SFopp (binary_round prec emax false m e).
Proof.
  unfold binary_round. destruct (shl_align _ _ _) as [mz ez]. unfold binary_round_aux.
  destruct (shr_fexp prec emax (Zpos mz) ez loc_Exact) as [r1 e1].
  destruct (shr_fexp prec emax _ e1 loc_Exact) as [r2 e2]. destruct (shr_m r2); [done| |done].
  by destruct (e2 <=? emax - prec).
Qed.

Lemma SFsub_opp x y :
  SFsub prec emax y x = SFopp (SFsub prec emax x y) \/ SFsub prec emax y x = S754_zero false.
Proof.
  destruct x as [sx|sx| |sx mx ex], y as [sy|sy| |sy my ey]; try (by left); simpl;
    try (by destruct sx, sy; auto); try (by destruct sx; auto); try (by destruct sy; auto).
  rewrite (Z.min_comm ey ex). set (a := cond_Zopp sx _). set (b := cond_Zopp sy _).
  replace (b - a) with (- (a - b)) by lia. destruct (a - b) as [|p|p]; simpl; [by right|left..].
  - apply binary_round_opp.
  - rewrite binary_round_opp. by destruct (binary_round prec emax false p (Z.min ex ey)) as [[]|[]| |[] ? ?].
Qed.

Lemma SFsub_diag s m e : SFsub prec emax (S754_finite s m e) (S754_finite s m e) = S754_zero false.
Proof. cbv [SpecFloat.SFsub]. by rewrite Z.sub_diag. Qed.

Lemma SFadd_comm x y : SFadd prec emax x y = SFadd prec emax y x.
Proof.
  destruct x as [[]|[]| |sx mx ex], y as [[]|[]| |sy my ey]; try done. simpl.
  rewrite (Z.min_comm ey ex). f_equal. lia.
Qed.

(** ** The same for [float] *)

Lemma prim_valid x : valid (Prim2SF x).
Proof. apply FloatAxioms.Prim2SF_valid. Qed.

Lemma nonneg_spec x : PrimFloat.leb 0 x = true <-> SFleb (S754_zero false) (Prim2SF x) = true.
Proof. rewrite FloatAxioms.leb_spec. done. Qed.

(** [x <= x + y] for [x, y >= 0]. *)
Lemma leb_add_r x y : PrimFloat.leb 0 x = true -> PrimFloat.leb 0 y = true -> PrimFloat.leb x (x + y) = true.
Proof.
  rewrite !nonneg_spec, FloatAxioms.leb_spec. intros Hx Hy. rewrite FloatAxioms.add_spec.
  apply SFadd_ge; try apply prim_valid; try done. pose proof (prim_valid (x + y)) as H.
  by rewrite FloatAxioms.add_spec in H.
Qed.

Lemma leb_add_l x y : PrimFloat.leb 0 x = true -> PrimFloat.leb 0 y = true -> PrimFloat.leb y (x + y) = true.
Proof.
  intros Hx Hy. pose proof (leb_add_r y x Hy Hx) as H. rewrite FloatAxioms.leb_spec, FloatAxioms.add_spec in *.
  unfold SF64add in *. by rewrite SFadd_comm.
Qed.

Lemma leb_not_nan x y : PrimFloat.leb x y = true -> not_nan x /\ not_nan y.
Proof.
  rewrite FloatAxioms.leb_spec. unfold SFleb, not_nan.
  destruct (Prim2SF x) as [|[]| |[] ? ?], (Prim2SF y) as [|[]| |[] ? ?]; done.
Qed.

Lemma leb_trans x y z : PrimFloat.leb x y = true -> PrimFloat.leb y z = true -> PrimFloat.leb x z = true.
Proof.
  intros H1 H2. destruct (leb_not_nan _ _ H1) as [Hx Hy], (leb_not_nan _ _ H2) as [_ Hz].
  apply leb_key in H1, H2; [|done..]. apply leb_key; [done..|].
  destruct (fkey x) as [[? ?] ?], (fkey y) as [[? ?] ?], (fkey z) as [[? ?] ?]. simpl in *. lia.
Qed.

Lemma leb_total x y : not_nan x -> not_nan y -> PrimFloat.leb x y = true \/ PrimFloat.ltb y x = true.
Proof.
  intros Hx Hy. destruct (PrimFloat.leb x y) eqn:E; [by left|right].
  apply not_true_iff_false in E. rewrite leb_key in E by done. apply ltb_key; [done..|].
  destruct (fkey x) as [[? ?] ?], (fkey y) as [[? ?] ?]. simpl in *. lia.
Qed.

Lemma ltb_leb x y : PrimFloat.ltb x y = true -> PrimFloat.leb x y = true.
Proof.
  intros H. destruct (ltb_not_nan _ _ H) as [Hx Hy]. apply leb_key; [done..|].
  apply ltb_key in H; [|done..]. destruct (fkey x) as [[? ?] ?], (fkey y) as [[? ?] ?]. simpl in *. lia.
Qed.

Lemma leb_refl x : not_nan x -> PrimFloat.leb x x = true.
Proof. intros H. apply leb_key; [done..|]. destruct (fkey x) as [[? ?] ?]. simpl. lia. Qed.

Lemma nonneg_add x y : PrimFloat.leb 0 x = true -> PrimFloat.leb 0 y = true -> PrimFloat.leb 0 (x + y) = true.
Proof. intros Hx Hy. eapply leb_trans; [exact Hx|]. by apply leb_add_r. Qed.

(** [x - y <= 0] only if [x <= y]... *)
Lemma sub_nonpos x y : PrimFloat.leb (x - y) 0 = true -> PrimFloat.leb x y = true.
Proof.
  intros H. destruct (leb_not_nan _ _ H) as [Hs _].
  assert (not_nan x /\ not_nan y) as [Hx Hy].
  { unfold not_nan in *. rewrite FloatAxioms.sub_spec in Hs. unfold SF64sub in Hs.
    destruct (Prim2SF x) as [|[]| |[] ? ?], (Prim2SF y) as [|[]| |[] ? ?]; done. }
  destruct (leb_total x y Hx Hy) as [?|Hlt]; [done|exfalso].
  rewrite FloatAxioms.ltb_spec in Hlt. apply SFsub_pos in Hlt; [|apply prim_valid..].
  rewrite FloatAxioms.leb_spec, FloatAxioms.sub_spec in H. unfold SF64sub in H.
  change (Prim2SF 0) with (S754_zero false) in H.
  by destruct (SFsub prec emax (Prim2SF x) (Prim2SF y)) as [|[]| |[] ? ?].
Qed.

(** ... and for finite numbers, whenever [x <= y]. *)
Definition finite (x : float) : Prop :=
  match Prim2SF x with S754_zero _ | S754_finite _ _ _ => True | _ => False end.

Lemma sub_nonpos_conv x y :
  finite x -> finite y -> PrimFloat.leb x y = true -> PrimFloat.leb (x - y) 0 = true.
Proof.
  intros Fx Fy Hle. destruct (leb_not_nan _ _ Hle) as [Hx Hy].
  rewrite FloatAxioms.leb_spec, FloatAxioms.sub_spec. unfold SF64sub. change (Prim2SF 0) with (S754_zero false).
  destruct (SFsub_opp (Prim2SF y) (Prim2SF x)) as [-> | ->]; [|done].
  destruct (PrimFloat.ltb x y) eqn:Hlt.
  - rewrite FloatAxioms.ltb_spec in Hlt. apply SFsub_pos in Hlt; [|apply prim_valid..].
    by destruct (SFsub prec emax (Prim2SF y) (Prim2SF x)) as [|[]| |[] ? ?].
  - assert (fkey x = fkey y) as Hk.
    { apply leb_key in Hle; [|done..]. apply not_true_iff_false in Hlt. rewrite ltb_key in Hlt by done.
      destruct (fkey x) as [[? ?] ?], (fkey y) as [[? ?] ?]. simpl in *. repeat f_equal; lia. }
    unfold fkey, finite in *.
    destruct (Prim2SF x) as [sx|[]| |[] mx ex], (Prim2SF y) as [sy|[]| |[] my ey]; simpl in Hk; try done;
      [by destruct sx, sy|..]; simplify_eq;
      try match goal with H : - _ = - _ |- _ => apply Z.opp_inj in H as -> end; by rewrite SFsub_diag.
Qed.

(** [max] returns an upper bound of its first argument, and of its second if
    both are numbers. *)
Lemma py_max_l a b : not_nan a -> PrimFloat.leb a (py_max a b) = true.
Proof. intros Ha. unfold py_max. destruct (PrimFloat.ltb a b) eqn:E; [by apply ltb_leb|by apply leb_refl]. Qed.

Lemma py_max_r a b : not_nan a -> not_nan b -> PrimFloat.leb b (py_max a b) = true.
Proof.
  intros Ha Hb. unfold py_max. destruct (PrimFloat.ltb a b) eqn:E; [by apply leb_refl|].
  destruct (leb_total b a Hb Ha) as [?|?]; [done|congruence].
Qed.

Lemma py_max_not_nan a b : not_nan a -> not_nan (py_max a b).
Proof. intros Ha. by apply (py_max_l a b), leb_not_nan in Ha as [_ ?]. Qed.

Lemma py_min_le_l a b : not_nan a -> PrimFloat.leb (py_min a b) a = true.
Proof. intros Ha. unfold py_min. destruct (PrimFloat.ltb b a) eqn:E; [by apply ltb_leb|by apply leb_refl]. Qed.

(** ** Products, quotients and conversions of non-negative numbers *)

Lemma shr_fexp_nonneg m e l : 0 <= m -> 0 <= shr_m (shr_fexp prec emax m e l).1.
Proof.
  intros Hm. destruct (shr_fexp_spec m e l Hm) as [-> _]. apply Z.div_pos; [done|].
  apply Z.pow_pos_nonneg; lia.
Qed.

Lemma binary_round_aux_nonneg m e l :
  0 <= m -> SFleb (S754_zero false) (binary_round_aux prec emax false m e l) = true.
Proof.
  intros Hm. unfold binary_round_aux. pose proof (shr_fexp_nonneg m e l Hm) as H1.
  destruct (shr_fexp prec emax m e l) as [r1 e1]. simpl in H1.
  set (m1 := round_nearest_even _ _). assert (0 <= m1) as Hm1.
  { unfold m1. pose proof (round_ne_ge (shr_m r1) (loc_of_shr_record r1)). lia. }
  pose proof (shr_fexp_nonneg m1 e1 loc_Exact Hm1) as H2.
  destruct (shr_fexp prec emax m1 e1 loc_Exact) as [r2 e2]. simpl in H2.
  destruct (shr_m r2) as [|p|p]; [done| |lia]. by destruct (e2 <=? emax - prec).
Qed.

Lemma binary_round_nonneg m e : SFleb (S754_zero false) (binary_round prec emax false m e) = true.
Proof. unfold binary_round. destruct (shl_align _ _ _) as [mz ez]. by apply binary_round_aux_nonneg. Qed.

Lemma binary_normalize_nonneg n : 0 <= n -> SFleb (S754_zero false) (binary_normalize prec emax n 0 false) = true.
Proof. intros Hn. destruct n as [|p|p]; [done| |lia]. apply binary_round_nonneg. Qed.

Lemma nonneg_mul x y : PrimFloat.leb 0 x = true -> PrimFloat.leb 0 y = true -> finite x -> finite y ->
  PrimFloat.leb 0 (x * y) = true.
Proof.
  rewrite !nonneg_spec, FloatAxioms.mul_spec. unfold finite, SF64mul. intros Hx Hy Fx Fy.
  destruct (Prim2SF x) as [sx|[]| |[] mx ex], (Prim2SF y) as [sy|[]| |[] my ey]; try done;
    simpl; try (by destruct sx; destruct sy); try (by destruct sx); try (by destruct sy).
  by apply binary_round_aux_nonneg.
Qed.

Lemma nonneg_div x y : PrimFloat.leb 0 x = true -> PrimFloat.ltb 0 y = true -> finite y ->
  PrimFloat.leb 0 (x / y) = true.
Proof.
  rewrite !nonneg_spec, FloatAxioms.ltb_spec, FloatAxioms.div_spec. unfold finite, SF64div.
  change (Prim2SF 0) with (S754_zero false). intros Hx Hy Fy.
  destruct (Prim2SF y) as [sy|[]| |[] my ey]; try done.
  destruct (Prim2SF x) as [sx|[]| |[] mx ex]; try done; try (by destruct sx).
  unfold SFdiv, SFdiv_core_binary. set (m' := match _ with Z0 => _ | _ => _ end).
  assert (0 <= m') as Hm'.
  { unfold m'. destruct (_ - _); [lia| |lia]. apply Z.shiftl_nonneg. lia. }
  pose proof (Z.div_pos m' (Zpos my) Hm' ltac:(lia)) as Hq. unfold Z.div in Hq.
  destruct (Z.div_eucl m' (Zpos my)) as [q r]. by apply binary_round_aux_nonneg.
Qed.

(** [SF2Prim] keeps the sign, for any mantissa and exponent. *)
Lemma nonneg_of_SF sf : SFleb (S754_zero false) sf = true -> PrimFloat.leb 0 (SF2Prim sf) = true.
Proof.
  destruct sf as [[]|[]| |[] m e]; try done; intros _. unfold SF2Prim, Z.ldexp.
  rewrite nonneg_spec, FloatAxioms.ldshiftexp_spec, FloatAxioms.of_uint63_spec.
  set (i := Uint63Axioms.to_Z _) at 1. assert (0 <= i) as Hi by apply Uint63.to_Z_bounded.
  pose proof (binary_normalize_nonneg i Hi) as H. unfold SFldexp.
  destruct (binary_normalize prec emax i 0 false) as [[]|[]| |[] mf ef]; try done. apply binary_round_nonneg.
Qed.

Lemma finite_spec x : not_nan x -> PrimFloat.is_infinity x = false -> finite x.
Proof.
  unfold PrimFloat.is_infinity, not_nan, finite. rewrite FloatAxioms.eqb_spec, FloatAxioms.abs_spec.
  by destruct (Prim2SF x) as [|[]| |].
Qed.

Lemma float_of_int_nonneg n x : 0 <= n -> float_of_int n = Ok x -> PrimFloat.leb 0 x = true /\ finite x.
Proof.
  unfold float_of_int. intros Hn. destruct (PrimFloat.is_infinity _) eqn:Hi; intros; simplify_eq.
  assert (PrimFloat.leb 0 (SF2Prim (binary_normalize prec emax n 0 false)) = true) as H
    by (by apply nonneg_of_SF, binary_normalize_nonneg).
  split; [done|]. apply finite_spec; [|done]. by apply leb_not_nan in H as [_ ?].
Qed.

(** [math.isfinite] and [x < 0], the two tests the code makes of an amount. *)
Lemma isfinite_finite x : isfinite x = true -> finite x.
Proof.
  unfold isfinite, PrimFloat.is_finite. intros [Hn Hi]%negb_true_iff%orb_false_iff. apply finite_spec; [|done].
  unfold not_nan. intros HS. unfold PrimFloat.is_nan in Hn. rewrite FloatAxioms.eqb_spec in Hn.
  unfold SFeqb in Hn. by rewrite HS in Hn.
Qed.

Lemma finite_not_nan x : finite x -> not_nan x.
Proof. unfold finite, not_nan. by destruct (Prim2SF x). Qed.

Lemma not_ltb_leb x : finite x -> PrimFloat.ltb x 0 = false -> PrimFloat.leb 0 x = true.
Proof.
  intros Hx Hl. destruct (leb_total 0 x) as [?|?]; [done|by apply finite_not_nan|done|congruence].
Qed.

Lemma ltb_leb_trans x y z : PrimFloat.ltb x y = true -> PrimFloat.leb y z = true -> PrimFloat.ltb x z = true.
Proof.
  intros Hxy Hyz. destruct (ltb_not_nan _ _ Hxy) as [Hx Hy]. destruct (leb_not_nan _ _ Hyz) as [_ Hz].
  rewrite ltb_key in * by done. rewrite leb_key in Hyz by done.
  destruct (fkey x) as [[? ?] ?], (fkey y) as [[? ?] ?], (fkey z) as [[? ?] ?]; simpl in *. lia.
Qed.
