(* ===== verification/Contracts.v ===== *)
(** * Contracts: the durable, command, event and scheduler data models

    The pydantic models of [contracts/durable.py], [contracts/command.py],
    [contracts/event.py] and [contracts/scheduler.py]. A model is a [Record];
    its [@model_validator(mode="after")] is a [validate_*] function that
    returns the model or raises [ValidationError] (pydantic wraps the
    [ValueError] of the validator). A constructor call [X(...)] is
    [validate_x {| ... |}]; [model_copy(update=...)] does {e not} run the
    validator and is plain record construction. Timestamps are microseconds
    since the epoch ([Z]); [created_at] is the clock reading of the
    construction. *)
From Stdlib Require PrimFloat.
From S2P Require Import Prelude PyDict.
#[local] Set Warnings "-register-all".
Local Open Scope Z_scope.

Abbreviation Ref := string (only parsing).

(** JSON-like Python objects, the values of a [dict[str, object]]. *)
Inductive pyobj :=
  | PNone
  | PBool (b : bool)
  | PInt (n : Z)
  | PStr (s : string)
  | PList (l : list pyobj)
  | PDict (d : list (string * pyobj)).

(** ** Enumerations *)

Inductive UnitOfWorkStatus := UOW_OPEN | UOW_COMMITTED | UOW_ROLLED_BACK | UOW_FAILED.
Inductive DurableCommandRecordStatus :=
  DCR_RECORDED | DCR_COMMITTED | DCR_DUPLICATE | DCR_REJECTED | DCR_FAILED.
Inductive OutboxStatus := OB_PENDING | OB_DISPATCHED | OB_FAILED.
Inductive FrontierItemStatus :=
  FI_QUEUED | FI_LEASED | FI_COMPLETED | FI_RELEASED | FI_RETRYING | FI_DEAD_LETTERED.
Inductive QueueLeaseStatus :=
  QL_ACTIVE | QL_HEARTBEAT_RECORDED | QL_COMPLETED | QL_RELEASED | QL_EXPIRED | QL_INVALID.
Inductive CommandStatus := CS_PROPOSED | CS_ACCEPTED | CS_REJECTED | CS_COMMITTED | CS_FAILED.
Inductive CommandResultStatus := CR_COMMITTED | CR_REJECTED | CR_FAILED | CR_DUPLICATE.
Inductive CompletenessResult := PASS | FAIL | NEEDS_REVIEW.

#[export] Instance UnitOfWorkStatus_eq_dec : EqDecision UnitOfWorkStatus.
Proof. solve_decision. Defined.
#[export] Instance DurableCommandRecordStatus_eq_dec : EqDecision DurableCommandRecordStatus.
Proof. solve_decision. Defined.
#[export] Instance OutboxStatus_eq_dec : EqDecision OutboxStatus.
Proof. solve_decision. Defined.
#[export] Instance FrontierItemStatus_eq_dec : EqDecision FrontierItemStatus.
Proof. solve_decision. Defined.
#[export] Instance QueueLeaseStatus_eq_dec : EqDecision QueueLeaseStatus.
Proof. solve_decision. Defined.
#[export] Instance CommandStatus_eq_dec : EqDecision CommandStatus.
Proof. solve_decision. Defined.
#[export] Instance CommandResultStatus_eq_dec : EqDecision CommandResultStatus.
Proof. solve_decision. Defined.
#[export] Instance CompletenessResult_eq_dec : EqDecision CompletenessResult.
Proof. solve_decision. Defined.

Definition QueueLeaseStatus_value (s : QueueLeaseStatus) : string :=
  match s with
  | QL_ACTIVE => "active" | QL_HEARTBEAT_RECORDED => "heartbeat_recorded"
  | QL_COMPLETED => "completed" | QL_RELEASED => "released"
  | QL_EXPIRED => "expired" | QL_INVALID => "invalid"
  end.

Definition CommandStatus_value (s : CommandStatus) : string :=
  match s with
  | CS_PROPOSED => "proposed" | CS_ACCEPTED => "accepted" | CS_REJECTED => "rejected"
  | CS_COMMITTED => "committed" | CS_FAILED => "failed"
  end.

(** ** contracts/durable.py *)

Record UnitOfWorkRecord := {
  uow_id : Ref;
  uow_run_ref : Ref;
  uow_status : UnitOfWorkStatus;
  uow_command_record_refs : list Ref;
  uow_event_refs : list Ref;
  uow_outbox_refs : list Ref;
  uow_artifact_refs : list Ref;
  uow_committed_at_ref : option Ref;
  uow_failure_refs : list Ref;
  uow_recovery_report_refs : list Ref;
  uow_created_at : Z }.

Definition validate_unit_of_work (u : UnitOfWorkRecord) : res UnitOfWorkRecord :=
  do? guard (negb (bool_decide (uow_status u = UOW_COMMITTED))
             || truthy_list (uow_command_record_refs u) || truthy_list (uow_event_refs u))
        (ValidationError "committed unit of work requires command records or events") in
  do? guard (negb (bool_decide (uow_status u = UOW_COMMITTED)) || truthy_opt (uow_committed_at_ref u))
        (ValidationError "committed unit of work requires committed_at_ref") in
  do? guard (negb (bool_decide (uow_status u = UOW_FAILED)) || truthy_list (uow_failure_refs u))
        (ValidationError "failed unit of work requires failure_refs") in
  Ok u.

Record DurableCommandRecord := {
  dcr_id : Ref;
  dcr_command_ref : Ref;
  dcr_command_type : string;
  dcr_target_aggregate_type : string;
  dcr_target_aggregate_id : string;
  dcr_idempotency_key : string;
  dcr_command_result_ref : option Ref;
  dcr_event_refs : list Ref;
  dcr_outbox_refs : list Ref;
  dcr_status : DurableCommandRecordStatus;
  dcr_duplicate_of_ref : option Ref;
  dcr_rejection_reason_refs : list Ref;
  dcr_created_at : Z }.

(** The f-string of [DurableCommandRecord.identity]. *)
Definition command_identity (ctype atype aid key : string) : string :=
  ctype +:+ "|" +:+ atype +:+ "|" +:+ aid +:+ "|" +:+ key.

Definition identity (r : DurableCommandRecord) : string :=
  command_identity (dcr_command_type r) (dcr_target_aggregate_type r)
    (dcr_target_aggregate_id r) (dcr_idempotency_key r).

Definition validate_record (r : DurableCommandRecord) : res DurableCommandRecord :=
  do? guard (negb (bool_decide (dcr_status r = DCR_COMMITTED))
             || (truthy_opt (dcr_command_result_ref r) && truthy_list (dcr_event_refs r)))
        (ValidationError "committed durable command requires result and event refs") in
  do? guard (negb (bool_decide (dcr_status r = DCR_DUPLICATE)) || truthy_opt (dcr_duplicate_of_ref r))
        (ValidationError "duplicate durable command requires duplicate_of_ref") in
  do? guard (negb (bool_decide (dcr_status r = DCR_REJECTED)) || truthy_list (dcr_rejection_reason_refs r))
        (ValidationError "rejected durable command requires rejection reasons") in
  Ok r.

Record OutboxRecord := {
  ob_id : Ref;
  ob_run_ref : Ref;
  ob_command_result_ref : Ref;
  ob_event_ref : Ref;
  ob_dispatch_topic : string;
  ob_payload_ref : Ref;
  ob_idempotency_key : string;
  ob_status : OutboxStatus;
  ob_attempt_count : Z;
  ob_dispatched_at_ref : option Ref;
  ob_last_error_ref : option Ref;
  ob_created_at : Z }.

Definition validate_outbox (o : OutboxRecord) : res OutboxRecord :=
  do? guard (0 <=? ob_attempt_count o)
        (ValidationError "outbox attempt_count must be non-negative") in
  do? guard (negb (bool_decide (ob_status o = OB_DISPATCHED)) || truthy_opt (ob_dispatched_at_ref o))
        (ValidationError "dispatched outbox record requires dispatched_at_ref") in
  do? guard (negb (bool_decide (ob_status o = OB_FAILED)) || truthy_opt (ob_last_error_ref o))
        (ValidationError "failed outbox record requires last_error_ref") in
  Ok o.

Record EventCursorRecord := {
  ec_id : Ref;
  ec_run_ref : Ref;
  ec_from_sequence : Z;
  ec_to_sequence : Z;
  ec_event_refs : list Ref;
  ec_contiguous : bool;
  ec_missing_sequence_numbers : list Z;
  ec_created_at : Z }.

Definition validate_cursor (c : EventCursorRecord) : res EventCursorRecord :=
  do? guard (negb ((ec_from_sequence c <? 1) || (ec_to_sequence c <? ec_from_sequence c)))
        (ValidationError "event cursor range is invalid") in
  let expected_count := ec_to_sequence c - ec_from_sequence c + 1 in
  do? guard (negb (ec_contiguous c) || (Z.of_nat (length (ec_event_refs c)) =? expected_count))
        (ValidationError "contiguous event cursor requires complete event refs") in
  do? guard (ec_contiguous c || truthy_list (ec_missing_sequence_numbers c))
        (ValidationError "non-contiguous event cursor requires missing sequence numbers") in
  Ok c.

(** ** contracts/command.py *)

Record CommandEnvelope := {
  ce_id : Ref;
  ce_command_type : string;
  ce_target_aggregate_type : string;
  ce_target_aggregate_id : string;
  ce_expected_version : option Z;
  ce_idempotency_key : string;
  ce_actor_ref : Ref;
  ce_precondition_refs : list Ref;
  ce_policy_decision_refs : list Ref;
  ce_approval_decision_refs : list Ref;
  ce_payload_ref : Ref;
  ce_status : CommandStatus;
  ce_created_at : Z }.

(** The [allowed] table of [CommandEnvelope.transition]. *)
Definition allowed (s : CommandStatus) : list CommandStatus :=
  match s with
  | CS_PROPOSED => [CS_ACCEPTED; CS_REJECTED; CS_FAILED]
  | CS_ACCEPTED => [CS_COMMITTED; CS_FAILED]
  | CS_REJECTED | CS_COMMITTED | CS_FAILED => []
  end.

Definition with_command_status (s : CommandStatus) (c : CommandEnvelope) : CommandEnvelope :=
  {| ce_id := ce_id c; ce_command_type := ce_command_type c;
     ce_target_aggregate_type := ce_target_aggregate_type c;
     ce_target_aggregate_id := ce_target_aggregate_id c;
     ce_expected_version := ce_expected_version c;
     ce_idempotency_key := ce_idempotency_key c; ce_actor_ref := ce_actor_ref c;
     ce_precondition_refs := ce_precondition_refs c;
     ce_policy_decision_refs := ce_policy_decision_refs c;
     ce_approval_decision_refs := ce_approval_decision_refs c;
     ce_payload_ref := ce_payload_ref c; ce_status := s;
     ce_created_at := ce_created_at c |}.

Definition transition (c : CommandEnvelope) (status : CommandStatus) : res CommandEnvelope :=
  if bool_decide (status ∈ allowed (ce_status c)) then Ok (with_command_status status c)
  else Raise (ValueError ("invalid command transition " +:+ CommandStatus_value (ce_status c)
                          +:+ "->" +:+ CommandStatus_value status)).

Record CommandResult := {
  cr_id : Ref;
  cr_command_id : string;
  cr_result : CommandResultStatus;
  cr_emitted_event_refs : list Ref;
  cr_output_refs : list Ref;
  cr_rejection_reasons : list string;
  cr_error : dict string pyobj;
  cr_created_at : Z }.

Definition validate_result (r : CommandResult) : res CommandResult :=
  do? guard (negb (bool_decide (cr_result r = CR_COMMITTED)) || truthy_list (cr_emitted_event_refs r))
        (ValidationError "committed command result requires emitted_event_refs") in
  do? guard (negb (bool_decide (cr_result r = CR_REJECTED)) || truthy_list (cr_rejection_reasons r))
        (ValidationError "rejected command result requires rejection_reasons") in
  do? guard (negb (bool_decide (cr_result r = CR_FAILED)) || truthy_list (cr_error r))
        (ValidationError "failed command result requires error") in
  Ok r.

(** ** contracts/event.py *)

(** [confidence] is an optional Python float, i.e. an IEEE binary64 number. *)
Record CrawlRunEvent := {
  ev_id : string;
  ev_run_id : string;
  ev_objective_id : string;
  ev_crawl_plan_id : string;
  ev_event_version : string;
  ev_sequence : Z;
  ev_event_type : string;
  ev_event_type_spec_id : string;
  ev_payload_ref : Ref;
  ev_actor : string;
  ev_agent_id : option string;
  ev_model_id : option string;
  ev_prompt_version : option string;
  ev_prompt_ref : option Ref;
  ev_tool_name : option string;
  ev_tool_version : option string;
  ev_tool_input_schema_ref : option Ref;
  ev_tool_output_schema_ref : option Ref;
  ev_input_refs : list Ref;
  ev_output_refs : list Ref;
  ev_decision : option string;
  ev_reason : option string;
  ev_confidence : option PrimFloat.float;
  ev_state_before : option (dict string pyobj);
  ev_state_after : option (dict string pyobj);
  ev_causation_id : string;
  ev_correlation_id : string;
  ev_trace_id : string;
  ev_run_plan_snapshot_id : option Ref;
  ev_policy_snapshot_id : option Ref;
  ev_policy_decision_refs : list Ref;
  ev_memory_snapshot_refs : list Ref;
  ev_graph_snapshot_refs : list Ref;
  ev_idempotency_key : string;
  ev_error : dict string pyobj;
  ev_created_at : Z }.

Definition validate_sequence (e : CrawlRunEvent) : res CrawlRunEvent :=
  do? guard (1 <=? ev_sequence e) (ValidationError "event sequence must be >= 1") in Ok e.

(** A [CrawlRunEvent(...)] call that leaves the optional fields at their
    defaults, which is what every modelled producer does. *)
Definition CrawlRunEvent_defaults (id run_id objective_id crawl_plan_id : string) (sequence : Z)
    (event_type event_type_spec_id payload_ref actor : string) (output_refs : list Ref)
    (state_before state_after : option (dict string pyobj))
    (causation_id correlation_id trace_id : string) (policy_decision_refs : list Ref)
    (idempotency_key : string) (error : dict string pyobj) (now : Z) : CrawlRunEvent :=
  {| ev_id := id; ev_run_id := run_id; ev_objective_id := objective_id;
     ev_crawl_plan_id := crawl_plan_id; ev_event_version := "1.0"; ev_sequence := sequence;
     ev_event_type := event_type; ev_event_type_spec_id := event_type_spec_id;
     ev_payload_ref := payload_ref; ev_actor := actor; ev_agent_id := None;
     ev_model_id := None; ev_prompt_version := None; ev_prompt_ref := None;
     ev_tool_name := None; ev_tool_version := None; ev_tool_input_schema_ref := None;
     ev_tool_output_schema_ref := None; ev_input_refs := []; ev_output_refs := output_refs;
     ev_decision := None; ev_reason := None; ev_confidence := None;
     ev_state_before := state_before; ev_state_after := state_after;
     ev_causation_id := causation_id; ev_correlation_id := correlation_id;
     ev_trace_id := trace_id; ev_run_plan_snapshot_id := None; ev_policy_snapshot_id := None;
     ev_policy_decision_refs := policy_decision_refs; ev_memory_snapshot_refs := [];
     ev_graph_snapshot_refs := []; ev_idempotency_key := idempotency_key; ev_error := error;
     ev_created_at := now |}.

(** ** contracts/scheduler.py *)

Record FrontierItem := {
  fi_id : Ref;
  fi_run_ref : Ref;
  fi_source_ref : Ref;
  fi_priority : Z;
  fi_status : FrontierItemStatus;
  fi_attempt_count : Z;
  fi_max_attempts : Z;
  fi_policy_decision_refs : list Ref;
  fi_lease_ref : option Ref;
  fi_result_refs : list Ref;
  fi_last_error_ref : option Ref;
  fi_failure_refs : list Ref;
  fi_created_at : Z }.

Definition validate_frontier_item (i : FrontierItem) : res FrontierItem :=
  do? guard (negb ((fi_attempt_count i <? 0) || (fi_max_attempts i <? 1)))
        (ValidationError "frontier attempts must be valid") in
  do? guard (negb (bool_decide (fi_status i = FI_LEASED)) || truthy_opt (fi_lease_ref i))
        (ValidationError "leased frontier item requires lease_ref") in
  do? guard (negb (bool_decide (fi_status i = FI_COMPLETED)) || truthy_list (fi_result_refs i))
        (ValidationError "completed frontier item requires result_refs") in
  do? guard (negb (bool_decide (fi_status i = FI_DEAD_LETTERED)) || truthy_list (fi_failure_refs i))
        (ValidationError "dead-lettered frontier item requires failure_refs") in
  Ok i.

Record QueueLease := {
  ql_id : Ref;
  ql_frontier_item_ref : Ref;
  ql_run_ref : Ref;
  ql_lease_token_ref : Ref;
  ql_holder_ref : Ref;
  ql_status : QueueLeaseStatus;
  ql_expires_at_ref : Ref;
  ql_heartbeat_ref : option Ref;
  ql_completed_at_ref : option Ref;
  ql_released_at_ref : option Ref;
  ql_expiry_reason_ref : option Ref;
  ql_replaced_by_lease_ref : option Ref;
  ql_created_at : Z }.

Definition validate_lease (l : QueueLease) : res QueueLease :=
  do? guard (negb (bool_decide (ql_status l = QL_COMPLETED)) || truthy_opt (ql_completed_at_ref l))
        (ValidationError "completed lease requires completed_at_ref") in
  do? guard (negb (bool_decide (ql_status l = QL_RELEASED)) || truthy_opt (ql_released_at_ref l))
        (ValidationError "released lease requires released_at_ref") in
  do? guard (negb (bool_decide (ql_status l = QL_EXPIRED)) || truthy_opt (ql_expiry_reason_ref l))
        (ValidationError "expired lease requires expiry_reason_ref") in
  do? guard (negb (bool_decide (ql_status l = QL_INVALID)) || truthy_opt (ql_expiry_reason_ref l))
        (ValidationError "invalid lease requires reason ref") in
  Ok l.

Record SchedulerRecoveryReport := {
  sr_id : Ref;
  sr_run_ref : Ref;
  sr_expired_lease_refs : list Ref;
  sr_retry_frontier_item_refs : list Ref;
  sr_dead_letter_refs : list Ref;
  sr_invalid_lease_refs : list Ref;
  sr_operator_status : string;
  sr_completeness_result : CompletenessResult;
  sr_created_at : Z }.

Definition validate_report (r : SchedulerRecoveryReport) : res SchedulerRecoveryReport :=
  let has_blockers := truthy_list (sr_expired_lease_refs r)
                      || truthy_list (sr_retry_frontier_item_refs r)
                      || truthy_list (sr_dead_letter_refs r)
                      || truthy_list (sr_invalid_lease_refs r) in
  do? guard (negb (bool_decide (sr_completeness_result r = PASS) && has_blockers))
        (ValidationError "passing scheduler recovery report cannot contain blockers") in
  do? guard (bool_decide (sr_completeness_result r = PASS) || has_blockers)
        (ValidationError "non-pass scheduler recovery report requires blockers") in
  Ok r.

(** ** What the validators establish *)

(** [transition] only moves along the table, and its targets are final or
    reach a final state in one more move. *)
Definition terminal (s : CommandStatus) : bool :=
  match s with CS_REJECTED | CS_COMMITTED | CS_FAILED => true | _ => false end.

Definition command_step (c c' : CommandEnvelope) : Prop :=
  exists s, transition c s = Ok c'.

Lemma transition_ok c s c' :
  transition c s = Ok c' <-> s ∈ allowed (ce_status c) /\ c' = with_command_status s c.
Proof. unfold transition. case_bool_decide; naive_solver. Qed.

Lemma allowed_terminal s : terminal s = true -> allowed s = [].
Proof. by destruct s. Qed.

Lemma validate_unit_of_work_ok u u' :
  validate_unit_of_work u = Ok u' ->
  u' = u /\ (uow_status u = UOW_COMMITTED ->
             uow_command_record_refs u <> [] \/ uow_event_refs u <> []).
Proof.
  unfold validate_unit_of_work. intros H. run_m H. split; [done|].
  intros E. rewrite E in Hr. apply guard_ok in Hr. rewrite bool_decide_true in Hr by done.
  destruct (uow_command_record_refs u'), (uow_event_refs u'); simpl in *; naive_solver.
Qed.

(** A command's status follows its table: [transition] succeeds exactly on
    the listed moves and changes nothing else, a rejected, committed or failed
    command never moves again, and every run of transitions has at most two. *)
Theorem command_lifecycle c :
  (forall s c', transition c s = Ok c' <-> s ∈ allowed (ce_status c) /\ c' = with_command_status s c) /\
  (terminal (ce_status c) = true <-> forall c', ~ command_step c c') /\
  (forall n c', nsteps command_step n c c' -> (n <= 2)%nat).
Proof.
  split; [intros s c'; apply transition_ok|]. split.
  - split.
    + intros Ht c' [s [Hs _]%transition_ok]. rewrite (allowed_terminal _ Ht) in Hs.
      by apply elem_of_nil in Hs.
    + intros Hno. destruct (ce_status c) eqn:E; try done; exfalso;
        eapply (Hno _); exists CS_FAILED; apply transition_ok; (split; [|reflexivity]);
        rewrite E; set_solver.
  - assert (forall n c c', nsteps command_step n c c' ->
      (n <= match ce_status c with CS_PROPOSED => 2 | CS_ACCEPTED => 1 | _ => 0 end)%nat) as Hb.
    { intros n c0 c' Hn. induction Hn as [|n x y z [s [Hs ->]%transition_ok] _ IH]; [lia|].
      simpl in IH. destruct (ce_status x); simpl in Hs; set_unfold; naive_solver lia. }
    intros n c' Hn%Hb. destruct (ce_status c); lia.
Qed.
