(* ===== verification/EventStore.v ===== *)
(** * Runtime event stores

    [runtime_events/event_store.py] (in memory), [adapters/event_stores/
    sqlite_event_store.py] (SQLite) and [runtime_events/durable.py] (sequence
    gaps and cursors). The abstract promise is {e one append-only log per run,
    numbered 1, 2, 3, ...}: the class [EventStore] states it, both stores are
    instances, and clients (the worker pool) are proved against the class. *)
From stdpp Require Import sorting.
From S2P Require Import Prelude PyDict PyList Contracts.
Local Open Scope Z_scope.

(** ** The port and its laws *)

(** [EventStorePort]: operations on a state [S], the runs' logs as clients
    observe them, and the representation invariant. *)
Class EventStore (S : Type) := {
  es_append : CrawlRunEvent -> M S Ref;
  es_stream : S -> string -> list CrawlRunEvent;
  es_inv : S -> Prop;
  (** An id that no stored event carries. *)
  es_fresh : S -> string -> Prop;
  (** An event that the store can give back as it was. *)
  es_stores : CrawlRunEvent -> Prop }.

(** A log is well numbered when the n-th event (from 1) has sequence n. *)
Definition numbered (run : string) (l : list CrawlRunEvent) : Prop :=
  forall n e, l !! n = Some e -> ev_sequence e = Z.of_nat n + 1 /\ ev_run_id e = run.

Definition gap_message (run : string) (expected got : Z) : string :=
  "event sequence gap for " +:+ run +:+ ": expected " +:+ pretty expected +:+
  ", got " +:+ pretty got.

Class EventStoreLaws (S : Type) `{EventStore S} := {
  es_append_next : forall s e, es_inv s -> es_fresh s (ev_id e) -> es_stores (S := S) e ->
    ev_sequence e = Z.of_nat (length (es_stream s (ev_run_id e))) + 1 ->
    exists s', es_append e s = (Ok (ev_id e), s') /\ es_inv s' /\
      (forall r, es_stream s' r =
        if decide (r = ev_run_id e) then es_stream s r ++ [e] else es_stream s r) /\
      (forall i, es_fresh s i -> i <> ev_id e -> es_fresh s' i);
  es_append_gap : forall s e, es_inv s -> es_fresh s (ev_id e) ->
    ev_sequence e <> Z.of_nat (length (es_stream s (ev_run_id e))) + 1 ->
    exists s', es_append e s =
        (Raise (ReplayValidationError (gap_message (ev_run_id e)
           (Z.of_nat (length (es_stream s (ev_run_id e))) + 1) (ev_sequence e))), s') /\
      es_inv s' /\ (forall r, es_stream s' r = es_stream s r) /\
      (forall i, es_fresh s i -> es_fresh s' i);
  es_numbered : forall s r, es_inv s -> numbered r (es_stream s r) }.

Lemma numbered_nil r : numbered r [].
Proof. intros n e H. by rewrite lookup_nil in H. Qed.

Lemma numbered_snoc r l e :
  numbered r l -> ev_run_id e = r -> ev_sequence e = Z.of_nat (length l) + 1 ->
  numbered r (l ++ [e]).
Proof.
  intros Hl Hr Hs n x [[_ Hx]|[-> ->]]%lookup_snoc_Some; [by apply Hl|done].
Qed.
#[export] Hint Resolve numbered_nil numbered_snoc : py.

Lemma numbered_sequences run l : numbered run l -> ev_sequence <$> l = seqZ 1 (Z.of_nat (length l)).
Proof.
  intros Hl. apply list_eq. intros i. rewrite list_lookup_fmap.
  destruct (l !! i) as [e|] eqn:E; simpl.
  - destruct (Hl _ _ E) as [-> _]. symmetry. apply lookup_seqZ.
    apply lookup_lt_Some in E. lia.
  - symmetry. apply lookup_seqZ_ge. apply lookup_ge_None in E. lia.
Qed.

(** ** InMemoryEventStore *)

Module InMemory.
(** [self._events : defaultdict(list)] *)
Record InMemoryEventStore := { _events : dict string (list CrawlRunEvent) }.

(** [self._events[run_id]]: the defaultdict stores the default it returns,
    so the entry survives the [raise] below. *)
Definition append (event : CrawlRunEvent) : M InMemoryEventStore Ref := fun s =>
  let '(current, d) := dict_setdefault (_events s) (ev_run_id event) [] in
  let expected_sequence := Z.of_nat (length current) + 1 in
  if negb (ev_sequence event =? expected_sequence) then
    (Raise (ReplayValidationError
              (gap_message (ev_run_id event) expected_sequence (ev_sequence event))),
     {| _events := d |})
  else
    (Ok (ev_id event), {| _events := dict_set d (ev_run_id event) (current ++ [event]) |}).

Definition stream (s : InMemoryEventStore) (run_id : string) : list CrawlRunEvent :=
  dict_get_or (_events s) run_id [].

Definition empty : InMemoryEventStore := {| _events := [] |}.

(** [append_runtime_event]: the sequence is computed from the stream. *)
Definition append_runtime_event (run_id objective_id plan_id event_type payload_ref
    causation_id correlation_id : string) (output_refs policy_decision_refs : option (list Ref))
    (state_before state_after error : option (dict string pyobj)) (actor : string) (now : Z)
    : M InMemoryEventStore Ref :=
  let* sequence := gets (fun s => Z.of_nat (length (stream s run_id)) + 1) in
  let* event := lift (validate_sequence (CrawlRunEvent_defaults
      ("event:" +:+ run_id +:+ ":" +:+ pretty sequence) run_id objective_id plan_id sequence
      event_type ("event-type:" +:+ event_type) payload_ref actor (default [] output_refs)
      state_before state_after causation_id correlation_id
      ("trace:" +:+ run_id +:+ ":" +:+ pretty sequence) (default [] policy_decision_refs)
      ("idem:event:" +:+ run_id +:+ ":" +:+ pretty sequence) (default [] error) now)) in
  append event.

Definition inv (s : InMemoryEventStore) : Prop := forall r, numbered r (stream s r).

Lemma setdefault_stream s run :
  dict_setdefault (_events s) run [] =
    (stream s run, if dict_get (_events s) run is Some _ then _events s
                   else dict_set (_events s) run []).
Proof.
  unfold dict_setdefault, stream, dict_get_or. by destruct (dict_get (_events s) run).
Qed.

Lemma stream_set_nil s run r d :
  d = (if dict_get (_events s) run is Some _ then _events s else dict_set (_events s) run []) ->
  dict_get_or d r [] = stream s r.
Proof.
  intros ->. unfold stream, dict_get_or. destruct (dict_get (_events s) run) eqn:E; [done|].
  rewrite dict_get_set. case_decide; subst; [by rewrite E|done].
Qed.

Lemma mem_append_accepts s e :
  ev_sequence e = Z.of_nat (length (stream s (ev_run_id e))) + 1 ->
  exists s', append e s = (Ok (ev_id e), s') /\
    forall r, stream s' r = if decide (r = ev_run_id e) then stream s r ++ [e] else stream s r.
Proof.
  intros He. unfold append. rewrite setdefault_stream.
  rewrite (proj2 (Z.eqb_eq _ _) He). eexists; split; [done|]. intros r.
  unfold stream at 1, dict_get_or; cbn [_events]. rewrite dict_get_set.
  case_decide as Hr; [by subst|].
  by apply (stream_set_nil s (ev_run_id e) r).
Qed.

Lemma mem_append_rejects s e :
  ev_sequence e <> Z.of_nat (length (stream s (ev_run_id e))) + 1 ->
  exists s', append e s = (Raise (ReplayValidationError (gap_message (ev_run_id e)
      (Z.of_nat (length (stream s (ev_run_id e))) + 1) (ev_sequence e))), s') /\
    forall r, stream s' r = stream s r.
Proof.
  intros He. unfold append. rewrite setdefault_stream.
  rewrite (proj2 (Z.eqb_neq _ _) He). eexists; split; [done|].
  intros r. by apply (stream_set_nil s (ev_run_id e) r).
Qed.
End InMemory.

#[export] Instance InMemory_EventStore : EventStore InMemory.InMemoryEventStore := {
  es_append := InMemory.append;
  es_stream := InMemory.stream;
  es_inv := InMemory.inv;
  es_fresh := fun _ _ => True;
  es_stores := fun _ => True }.

#[export] Instance InMemory_EventStoreLaws : EventStoreLaws InMemory.InMemoryEventStore.
Proof.
  split; cbn.
  - intros s e Hinv _ _ He. destruct (InMemory.mem_append_accepts s e He) as (s' & Ha & Hs).
    exists s'. split_and!; [done| |done|done].
    intros r. rewrite Hs. case_decide; subst; auto with py.
  - intros s e Hinv _ He. destruct (InMemory.mem_append_rejects s e He) as (s' & Ha & Hs).
    exists s'. split_and!; [done| |done|done]. intros r. rewrite Hs. apply Hinv.
  - intros s r Hinv. apply Hinv.
Qed.

(** ** SqliteEventStore

    [sqlite3] is Python's standard library: the table is its list of rows in
    insertion order, [SELECT] filters it, [INSERT] checks the two uniqueness
    constraints of the schema. The JSON encoding of the payload column is
    pydantic's ([model_dump_json] / [model_validate]), a parameter. *)

Module Sqlite.
Section Sqlite.
Context {Payload : Type}
        (model_dump_json : CrawlRunEvent -> Payload)
        (model_validate_json : Payload -> res CrawlRunEvent).

Record row := {
  row_id : string;
  row_run_id : string;
  row_sequence : Z;
  row_payload : Payload }.

#[local] Abbreviation table := (list row).

Definition rows_of (run_id : string) (t : table) : table :=
  filter (fun r => row_run_id r = run_id) t.

(** [SELECT COALESCE(MAX(sequence), 0) FROM events WHERE run_id = ?] *)
Definition max_sequence (run_id : string) (t : table) : Z :=
  match row_sequence <$> rows_of run_id t with
  | [] => 0
  | x :: l => foldl Z.max x l
  end.

Definition insert (r : row) : M table unit := fun t =>
  if bool_decide (Exists (fun r' => row_id r' = row_id r \/
       (row_run_id r' = row_run_id r /\ row_sequence r' = row_sequence r)) t)
  then (Raise IntegrityError, t) else (Ok tt, t ++ [r]).

Definition append (event : CrawlRunEvent) : M table Ref := fun t =>
  if bool_decide (ev_id event ∈ row_id <$> t) then (Ok (ev_id event), t)
  else
    let next_seq := max_sequence (ev_run_id event) t + 1 in
    if negb (ev_sequence event =? next_seq) then
      (Raise (ReplayValidationError
                (gap_message (ev_run_id event) next_seq (ev_sequence event))), t)
    else
      (do* insert {| row_id := ev_id event; row_run_id := ev_run_id event;
                     row_sequence := ev_sequence event;
                     row_payload := model_dump_json event |} in
       ret (ev_id event)) t.

Fixpoint load_all (l : list row) : res (list CrawlRunEvent) :=
  match l with
  | [] => Ok []
  | r :: l => let? e := model_validate_json (row_payload r) in
              let? es := load_all l in Ok (e :: es)
  end.

Definition stream (t : table) (run_id : string) : res (list CrawlRunEvent) :=
  load_all (py_sorted (fun r r' => row_sequence r <=? row_sequence r') (rows_of run_id t)).

(** *** The table as a log *)

(** Not every event survives its JSON text: pydantic writes [inf] and [nan] as
    [null], for one. *)
Definition readable (e : CrawlRunEvent) : Prop := model_validate_json (model_dump_json e) = Ok e.

Definition row_of (e : CrawlRunEvent) : row :=
  {| row_id := ev_id e; row_run_id := ev_run_id e; row_sequence := ev_sequence e;
     row_payload := model_dump_json e |}.

(** Every run's rows, in insertion order, are dumps of a numbered log. *)
Definition run_log (t : table) (run : string) (l : list CrawlRunEvent) : Prop :=
  rows_of run t = row_of <$> l /\ numbered run l /\ Forall readable l.

Definition inv (t : table) : Prop := forall run, exists l, run_log t run l.

Lemma foldl_max_seqZ x n :
  foldl Z.max x (seqZ (Z.succ x) (Z.of_nat n)) = x + Z.of_nat n.
Proof.
  revert x. induction n as [|n IH]; intros x; [by rewrite Z.add_0_r|].
  rewrite Nat2Z.inj_succ, seqZ_cons, Z.pred_succ by lia. simpl.
  rewrite Z.max_r by lia. rewrite IH. lia.
Qed.

Lemma max_sequence_log t run l : run_log t run l -> max_sequence run t = Z.of_nat (length l).
Proof.
  intros (Hr & Hl & _). unfold max_sequence. rewrite Hr, <-list_fmap_compose.
  change (row_sequence ∘ row_of) with ev_sequence.
  rewrite (numbered_sequences run) by done. clear.
  destruct l as [|e l]; [done|]. rewrite seqZ_cons by (simpl; lia).
  simpl length. rewrite Nat2Z.inj_succ, Z.pred_succ, (foldl_max_seqZ 1). lia.
Qed.

Lemma load_all_rows l : Forall readable l -> load_all (row_of <$> l) = Ok l.
Proof. induction 1 as [|e l He _ IH]; csimpl; [done|]. rewrite He. simpl. by rewrite IH. Qed.

Lemma numbered_sorted run l :
  numbered run l ->
  StronglySorted (fun r r' => (row_sequence r <=? row_sequence r') = true) (row_of <$> l).
Proof.
  intros Hl%numbered_sequences. revert Hl. generalize 1. induction l as [|e l IH]; intros n; csimpl; [constructor|].
  rewrite Nat2Z.inj_succ, seqZ_cons by lia. intros [= He Hl].
  rewrite Z.pred_succ in Hl. constructor; [by eapply IH|].
  apply Forall_forall. intros r (e' & -> & He')%list_elem_of_fmap. simpl.
  apply Z.leb_le. assert (ev_sequence e' ∈ ev_sequence <$> l) as Hin
    by (by apply list_elem_of_fmap_2).
  rewrite Hl, elem_of_seqZ in Hin. lia.
Qed.

Lemma stream_log t run l : run_log t run l -> stream t run = Ok l.
Proof.
  intros (Hr & Hl & Hread). unfold stream. rewrite Hr, py_sorted_id; [by apply load_all_rows|].
  by eapply numbered_sorted.
Qed.

Lemma run_log_unique t run l l' : run_log t run l -> run_log t run l' -> l = l'.
Proof. intros H1 H2. apply stream_log in H1, H2. congruence. Qed.

Definition stream_or_nil (t : table) (run : string) : list CrawlRunEvent :=
  if stream t run is Ok l then l else [].

Lemma inv_run_log t run : inv t -> run_log t run (stream_or_nil t run).
Proof.
  intros Hi. destruct (Hi run) as [l Hl]. unfold stream_or_nil.
  by rewrite (stream_log _ _ _ Hl).
Qed.

Lemma row_sequence_bound t run l r :
  run_log t run l -> r ∈ t -> row_run_id r = run -> row_sequence r <= Z.of_nat (length l).
Proof.
  intros (Hr & Hl & _) Hin Hrun.
  assert (r ∈ rows_of run t) as Hin' by (by apply list_elem_of_filter).
  rewrite Hr in Hin'. apply list_elem_of_fmap in Hin' as (e & -> & He).
  assert (ev_sequence e ∈ ev_sequence <$> l) as Hs by (by apply list_elem_of_fmap_2).
  rewrite (numbered_sequences run) in Hs by done. apply elem_of_seqZ in Hs. simpl. lia.
Qed.

Lemma insert_fresh t e l :
  run_log t (ev_run_id e) l -> ev_id e ∉ row_id <$> t ->
  ev_sequence e = Z.of_nat (length l) + 1 ->
  insert (row_of e) t = (Ok tt, t ++ [row_of e]).
Proof.
  intros Hl Hf Hs. unfold insert. rewrite bool_decide_false; [done|].
  intros (r & Hin & [Hid|[Hrun Hseq]])%Exists_exists.
  - apply Hf. simpl in Hid. rewrite <-Hid. by apply list_elem_of_fmap_2.
  - pose proof (row_sequence_bound _ _ _ _ Hl Hin Hrun). simpl in *. lia.
Qed.

Lemma rows_of_snoc run t e :
  rows_of run (t ++ [row_of e]) =
    rows_of run t ++ (if decide (ev_run_id e = run) then [row_of e] else []).
Proof.
  unfold rows_of. rewrite filter_app, filter_cons, filter_nil. simpl. by repeat case_decide.
Qed.

Lemma run_log_snoc t run l e :
  run_log t run l -> readable e ->
  (ev_run_id e = run -> ev_sequence e = Z.of_nat (length l) + 1) ->
  run_log (t ++ [row_of e]) run (if decide (run = ev_run_id e) then l ++ [e] else l).
Proof.
  intros (Hr & Hl & Hread) He Hs. unfold run_log. rewrite rows_of_snoc, Hr.
  destruct (decide (run = ev_run_id e)) as [->|Hne].
  - rewrite decide_True by done. rewrite fmap_app. split_and!; [done|auto with py|]. by apply Forall_app_2; [|constructor].
  - rewrite decide_False by congruence. by rewrite app_nil_r.
Qed.

Lemma sql_append_accepts t e :
  inv t -> ev_id e ∉ row_id <$> t -> readable e ->
  ev_sequence e = Z.of_nat (length (stream_or_nil t (ev_run_id e))) + 1 ->
  append e t = (Ok (ev_id e), t ++ [row_of e]) /\ inv (t ++ [row_of e]) /\
  forall r, stream_or_nil (t ++ [row_of e]) r =
    if decide (r = ev_run_id e) then stream_or_nil t r ++ [e] else stream_or_nil t r.
Proof.
  intros Hi Hf Hread Hs. pose proof (inv_run_log t (ev_run_id e) Hi) as Hl.
  assert (forall r, run_log (t ++ [row_of e]) r
    (if decide (r = ev_run_id e) then stream_or_nil t r ++ [e] else stream_or_nil t r)) as Hnew.
  { intros r. apply run_log_snoc; [by apply inv_run_log|done|]. by intros <-. }
  split_and!.
  - unfold append. rewrite bool_decide_false by done.
    rewrite (max_sequence_log _ _ _ Hl), <-Hs, Z.eqb_refl. simpl.
    change {| row_id := _ |} with (row_of e). unfold bind.
    by rewrite (insert_fresh t e _ Hl).
  - intros r. eexists. apply Hnew.
  - intros r. unfold stream_or_nil at 1. by rewrite (stream_log _ _ _ (Hnew r)).
Qed.

Lemma sql_append_rejects t e :
  inv t -> ev_id e ∉ row_id <$> t ->
  ev_sequence e <> Z.of_nat (length (stream_or_nil t (ev_run_id e))) + 1 ->
  append e t = (Raise (ReplayValidationError (gap_message (ev_run_id e)
    (Z.of_nat (length (stream_or_nil t (ev_run_id e))) + 1) (ev_sequence e))), t).
Proof.
  intros Hi Hf Hs. pose proof (inv_run_log t (ev_run_id e) Hi) as Hl.
  unfold append. rewrite bool_decide_false by done.
  rewrite (max_sequence_log _ _ _ Hl). by rewrite (proj2 (Z.eqb_neq _ _) Hs).
Qed.

#[export] Instance Sqlite_EventStore : EventStore table := {
  es_append := append;
  es_stream := stream_or_nil;
  es_inv := inv;
  es_fresh := fun t i => i ∉ row_id <$> t;
  es_stores := readable }.

#[export] Instance Sqlite_EventStoreLaws : EventStoreLaws table.
Proof.
  split; cbn.
  - intros t e Hi Hf Hread Hs. destruct (sql_append_accepts t e Hi Hf Hread Hs) as (Ha & Hi' & Hst).
    eexists. split_and!; [done|done|done|].
    intros i Hfi Hne. rewrite fmap_app, not_elem_of_app. split; [done|].
    by intros ?%list_elem_of_singleton.
  - intros t e Hi Hf Hs. exists t. by rewrite (sql_append_rejects t e Hi Hf Hs).
  - intros t r Hi. apply (inv_run_log t r Hi).
Qed.

(** Where the two stores differ: an id already in the table is accepted
    whatever its run and sequence, and nothing is written. *)
Lemma append_known_id t e :
  ev_id e ∈ row_id <$> t -> append e t = (Ok (ev_id e), t).
Proof. intros H. unfold append. by rewrite bool_decide_true. Qed.
End Sqlite.
End Sqlite.

(** ** runtime_events/durable.py: gaps and cursors *)

Definition event_sequence_gaps (events : list CrawlRunEvent) : list Z :=
  match py_sorted Z.leb (ev_sequence <$> events) with
  | [] => []
  | first :: rest =>
      let sequences := first :: rest in
      let final := default first (last sequences) in
      (* sorted(set(range(first, last + 1)) - set(sequences)) *)
      filter (fun n => n ∉ sequences) (seqZ first (final + 1 - first))
  end.

Definition by_sequence (e e' : CrawlRunEvent) : bool := ev_sequence e <=? ev_sequence e'.

Definition build_event_cursor_record (run_ref : string) (events : list CrawlRunEvent) (now : Z)
    : res EventCursorRecord :=
  match py_sorted by_sequence events with
  | [] =>
      validate_cursor
        {| ec_id := "event-cursor:" +:+ run_ref +:+ ":empty"; ec_run_ref := run_ref;
           ec_from_sequence := 1; ec_to_sequence := 1; ec_event_refs := ["event:none"];
           ec_contiguous := true; ec_missing_sequence_numbers := []; ec_created_at := now |}
  | first :: rest =>
      let ordered := first :: rest in
      let final := default first (last ordered) in
      let gaps := event_sequence_gaps ordered in
      validate_cursor
        {| ec_id := "event-cursor:" +:+ run_ref +:+ ":" +:+ pretty (ev_sequence first)
                    +:+ "-" +:+ pretty (ev_sequence final);
           ec_run_ref := run_ref; ec_from_sequence := ev_sequence first;
           ec_to_sequence := ev_sequence final; ec_event_refs := ev_id <$> ordered;
           ec_contiguous := negb (truthy_list gaps); ec_missing_sequence_numbers := gaps;
           ec_created_at := now |}
  end.

Definition sequences (events : list CrawlRunEvent) : list Z := ev_sequence <$> events.

Lemma py_sorted_by_sequence events :
  ev_sequence <$> py_sorted by_sequence events = py_sorted Z.leb (ev_sequence <$> events).
Proof. symmetry. apply (py_sorted_fmap ev_sequence Z.leb). Qed.

Lemma event_sequence_gaps_elem events n :
  n ∈ event_sequence_gaps events <->
  n ∉ sequences events /\
  exists lo hi, lo ∈ sequences events /\ hi ∈ sequences events /\ lo <= n <= hi.
Proof.
  unfold event_sequence_gaps, sequences.
  destruct (py_sorted Z.leb (ev_sequence <$> events)) as [|a r] eqn:E.
  - apply py_sorted_nil in E. rewrite E. split; [by intros ?%elem_of_nil|].
    by intros (_ & lo & hi & ?%elem_of_nil & _).
  - destruct (py_sorted_Z_bounds _ _ _ E) as (Ha & Hz & Hb).
    rewrite <-E, list_elem_of_filter, elem_of_py_sorted, E, elem_of_seqZ. split.
    + intros [Hn Hr]. split; [done|]. exists a, (default a (last (a :: r))).
      split_and!; [done|done|lia|lia].
    + intros (Hn & lo & hi & Hlo%Hb & Hhi%Hb & ?). split; [done|]. lia.
Qed.

Lemma event_sequence_gaps_sorted_events events :
  event_sequence_gaps (py_sorted by_sequence events) = event_sequence_gaps events.
Proof.
  unfold event_sequence_gaps. rewrite py_sorted_by_sequence.
  rewrite (py_sorted_id Z.leb (py_sorted Z.leb _)); [done|].
  apply py_sorted_sorted; auto with py. eauto with py.
Qed.

Lemma numbered_log_sorted run l :
  numbered run l -> StronglySorted (fun e e' => by_sequence e e' = true) l.
Proof.
  intros Hl%numbered_sequences. revert Hl. generalize 1.
  induction l as [|e l IH]; intros n; csimpl; [constructor|].
  rewrite Nat2Z.inj_succ, seqZ_cons by lia. intros [= He Hl].
  rewrite Z.pred_succ in Hl. constructor; [by eapply IH|].
  apply Forall_forall. intros e' He'.
  apply Z.leb_le. assert (ev_sequence e' ∈ ev_sequence <$> l) as Hin
    by (by apply list_elem_of_fmap_2).
  rewrite Hl, elem_of_seqZ in Hin. lia.
Qed.

(** The ends of the record built from a non-empty stream. *)
Lemma cursor_bounds events first rest :
  py_sorted by_sequence events = first :: rest ->
  let final := default first (last (first :: rest)) in
  ev_sequence first ∈ sequences events /\ ev_sequence final ∈ sequences events /\
  forall n, n ∈ sequences events -> ev_sequence first <= n <= ev_sequence final.
Proof.
  intros E. pose proof (py_sorted_by_sequence events) as Hs. rewrite E in Hs.
  symmetry in Hs. csimpl in Hs.
  destruct (py_sorted_Z_bounds _ _ _ Hs) as (H1 & H2 & H3).
  rewrite <-fmap_cons, fmap_last in H2, H3.
  destruct (last (first :: rest)) as [z|] eqn:El; [|by apply last_None in El]. done.
Qed.

Lemma no_gaps_cover events first rest :
  py_sorted by_sequence events = first :: rest ->
  event_sequence_gaps events = [] ->
  forall n, n ∈ sequences events <->
    ev_sequence first <= n <= ev_sequence (default first (last (first :: rest))).
Proof.
  intros E Hg n. destruct (cursor_bounds _ _ _ E) as (H1 & H2 & H3).
  split; [apply H3|]. intros Hn. destruct (decide (n ∈ sequences events)); [done|].
  assert (n ∈ event_sequence_gaps events) as Hin
    by (apply event_sequence_gaps_elem; split; [done|];
        eexists _, _; split_and!; [exact H1 | exact H2 | lia | lia]).
  rewrite Hg in Hin. by apply elem_of_nil in Hin.
Qed.

(** The cursor of a well numbered log covers it, from 1 to its length. *)
Lemma cursor_numbered run l now :
  numbered run l -> l <> [] ->
  build_event_cursor_record run l now = Ok
    {| ec_id := "event-cursor:" +:+ run +:+ ":" +:+ pretty 1
                +:+ "-" +:+ pretty (Z.of_nat (length l));
       ec_run_ref := run; ec_from_sequence := 1; ec_to_sequence := Z.of_nat (length l);
       ec_event_refs := ev_id <$> l; ec_contiguous := true; ec_missing_sequence_numbers := [];
       ec_created_at := now |}.
Proof.
  intros Hn Hne. pose proof (numbered_sequences _ _ Hn) as Hs.
  assert (py_sorted by_sequence l = l) as Hsort by (apply py_sorted_id, (numbered_log_sorted run), Hn).
  assert (event_sequence_gaps l = []) as Hg.
  { destruct (event_sequence_gaps l) as [|n g] eqn:E; [done|].
    assert (n ∈ event_sequence_gaps l) as Hin by (rewrite E; left).
    apply event_sequence_gaps_elem in Hin as (Hno & lo & hi & Hlo & Hhi & ?).
    unfold sequences in *. rewrite Hs, elem_of_seqZ in *. lia. }
  unfold build_event_cursor_record. rewrite Hsort. destruct l as [|e l]; [done|].
  assert (ev_sequence e = 1) as -> by (by destruct (Hn 0%nat e eq_refl)).
  assert (ev_sequence (default e (last (e :: l))) = Z.of_nat (length (e :: l))) as ->.
  { rewrite last_lookup. destruct ((e :: l) !! pred (length (e :: l))) as [z|] eqn:E.
    - simpl default. destruct (Hn _ _ E) as [-> _]. simpl. lia.
    - apply lookup_ge_None in E. simpl in E. lia. }
  rewrite Hg. unfold validate_cursor. cbn [ec_from_sequence ec_to_sequence ec_contiguous ec_event_refs
    ec_missing_sequence_numbers truthy_list negb].
  rewrite length_fmap. rewrite (proj2 (Z.ltb_ge _ _)) by (simpl; lia).
  rewrite (proj2 (Z.ltb_ge _ _)) by (simpl; lia).
  rewrite (proj2 (Z.eqb_eq _ _)) by (simpl; lia). done.
Qed.

(** [build_event_cursor_record] on a stream of well-formed events returns a
    cursor exactly when the stream has a gap or no repeated sequence; a
    gap-free stream with a duplicated sequence makes the cursor's validator
    raise. *)
Theorem build_event_cursor_total run_ref events now :
  Forall (fun e => 1 <= ev_sequence e) events ->
  is_ok (build_event_cursor_record run_ref events now) = true <->
  event_sequence_gaps events <> [] \/ NoDup (sequences events).
Proof.
  intros Hpos. unfold build_event_cursor_record.
  destruct (py_sorted by_sequence events) as [|first rest] eqn:E.
  { apply py_sorted_nil in E as ->. split; [right; constructor|done]. }
  rewrite <-E at 1. rewrite <-E, event_sequence_gaps_sorted_events, E.
  destruct (cursor_bounds _ _ _ E) as (H1 & H2 & H3). pose proof (H3 _ H2) as Hle.
  assert (1 <= ev_sequence first) as H1'.
  { apply list_elem_of_fmap in H1 as (e & -> & He). rewrite Forall_forall in Hpos. auto. }
  assert (length (ev_id <$> first :: rest) = length (sequences events)) as Hlen.
  { unfold sequences. rewrite !length_fmap, <-E. by rewrite (py_sorted_length by_sequence). }
  revert Hlen. generalize (ev_id <$> first :: rest). intros refs Hlen.
  unfold validate_cursor. cbn [ec_from_sequence ec_to_sequence ec_contiguous ec_event_refs
    ec_missing_sequence_numbers].
  rewrite (proj2 (Z.ltb_ge _ _)) by lia. rewrite (proj2 (Z.ltb_ge _ _)) by lia. cbn.
  destruct (event_sequence_gaps events) as [|g gs] eqn:Eg; cbn; [|naive_solver].
  rewrite <-(cover_length_NoDup _ _ _ (no_gaps_cover _ _ _ E Eg)) by lia.
  rewrite Hlen.
  destruct (Z.eqb_spec (Z.of_nat (length (sequences events)))
    (ev_sequence (default first (last (first :: rest))) - ev_sequence first + 1)); cbn; naive_solver.
Qed.

(** [append_runtime_event] computes the sequence itself, so on a store of
    well numbered logs it always succeeds: the event it builds is the next of
    its run, every other run's log is untouched, and the logs stay numbered. *)
Theorem append_runtime_event_extends run obj plan ty payload cause corr outs pol before after
    error actor now s :
  InMemory.inv s ->
  exists e s', InMemory.append_runtime_event run obj plan ty payload cause corr outs pol before
      after error actor now s = (Ok (ev_id e), s') /\
    ev_id e = "event:" +:+ run +:+ ":" +:+ pretty (Z.of_nat (length (InMemory.stream s run)) + 1) /\
    ev_event_type e = ty /\ ev_causation_id e = cause /\
    InMemory.stream s' run = InMemory.stream s run ++ [e] /\
    (forall r, r <> run -> InMemory.stream s' r = InMemory.stream s r) /\ InMemory.inv s'.
Proof.
  intros Hi. unfold InMemory.append_runtime_event, bind, gets, lift, validate_sequence.
  rewrite (proj2 (Z.leb_le _ _)) by (cbn; lia). cbn [guard rbind].
  match goal with |- context [InMemory.append ?x _] => set (e := x) end.
  destruct (@es_append_next _ InMemory_EventStore InMemory_EventStoreLaws s e Hi I I eq_refl)
    as (s' & E & Hi' & Hs & _).
  exists e, s'. split_and!; try done.
  - etrans; [apply (Hs run)|]. by rewrite decide_True.
  - intros r Hr. etrans; [apply (Hs r)|]. by rewrite decide_False.
Qed.

Lemma append_runtime_event_extends_witness :
  exists e s', InMemory.append_runtime_event "r" "o" "p" "started" "pl" "c" "corr" None None None
      None None "system" 0 InMemory.empty = (Ok (ev_id e), s') /\ InMemory.stream s' "r" = [e].
Proof.
  destruct (append_runtime_event_extends "r" "o" "p" "started" "pl" "c" "corr" None None None
      None None "system" 0 InMemory.empty) as (e & s' & H & _ & _ & _ & Hs & _).
  - intros r. apply numbered_nil.
  - exists e, s'. split; [exact H|exact Hs].
Defined.

(** ** The two stores behave alike *)

(** Appending a batch; the results are the return values, in order. *)
Fixpoint append_all {S} `{EventStore S} (events : list CrawlRunEvent) (s : S) : list (res Ref) * S :=
  match events with
  | [] => ([], s)
  | e :: events =>
      let '(r, s) := es_append e s in
      let '(rs, s) := append_all events s in (r :: rs, s)
  end.

Section Agree.
Context {S1 S2 : Type} `{EventStoreLaws S1} `{EventStoreLaws S2}.

Definition same_logs (s1 : S1) (s2 : S2) : Prop :=
  es_inv s1 /\ es_inv s2 /\ forall r, es_stream s1 r = es_stream s2 r.

Lemma append_agree s1 s2 e :
  same_logs s1 s2 -> es_fresh s1 (ev_id e) -> es_fresh s2 (ev_id e) ->
  es_stores (S := S1) e -> es_stores (S := S2) e ->
  (es_append e s1).1 = (es_append e s2).1 /\
  same_logs (es_append e s1).2 (es_append e s2).2 /\
  forall i, i <> ev_id e ->
    (es_fresh s1 i -> es_fresh (es_append e s1).2 i) /\
    (es_fresh s2 i -> es_fresh (es_append e s2).2 i).
Proof.
  intros (Hi1 & Hi2 & Hs) Hf1 Hf2 Hst1 Hst2.
  destruct (decide (ev_sequence e = Z.of_nat (length (es_stream s1 (ev_run_id e))) + 1)) as [He|He].
  - destruct (es_append_next s1 e) as (s1' & -> & Hi1' & Hs1 & Hf1'); [done..|].
    destruct (es_append_next s2 e) as (s2' & -> & Hi2' & Hs2 & Hf2'); [done..|by rewrite <-Hs|].
    simpl. split_and!; [done| |by auto]. split_and!; [done..|].
    intros r. by rewrite Hs1, Hs2, Hs.
  - destruct (es_append_gap s1 e) as (s1' & -> & Hi1' & Hs1 & Hf1'); [done..|].
    destruct (es_append_gap s2 e) as (s2' & -> & Hi2' & Hs2 & Hf2'); [done..|by rewrite <-Hs|].
    simpl. split_and!; [by rewrite Hs| |by auto]. split_and!; [done..|].
    intros r. by rewrite Hs1, Hs2, Hs.
Qed.

Lemma append_all_agree events s1 s2 :
  NoDup (ev_id <$> events) -> same_logs s1 s2 ->
  (forall e, e ∈ events -> es_stores (S := S1) e /\ es_stores (S := S2) e) ->
  (forall e, e ∈ events -> es_fresh s1 (ev_id e) /\ es_fresh s2 (ev_id e)) ->
  (append_all events s1).1 = (append_all events s2).1 /\
  same_logs (append_all events s1).2 (append_all events s2).2.
Proof.
  revert s1 s2. induction events as [|e events IH]; intros s1 s2 Hnd Hs Hst Hf; [done|].
  apply NoDup_cons in Hnd as [Hne Hnd]. simpl.
  destruct (append_agree s1 s2 e Hs) as (Hr & Hs' & Hf'); [first [apply Hf; left|apply Hst; left]..|].
  destruct (es_append e s1) as [r1 s1'], (es_append e s2) as [r2 s2']. simpl in *. subst r2.
  destruct (IH s1' s2') as [IHr IHs]; [done|done|by intros x Hx; apply Hst; right| |].
  - intros x Hx. assert (ev_id x <> ev_id e) as Hxe.
    { intros Heq. apply Hne. rewrite <-Heq. by apply list_elem_of_fmap_2. }
    destruct (Hf' _ Hxe) as [H3 H4]. destruct (Hf x); [by right|]. auto.
  - destruct (append_all events s1') as [rs1 t1], (append_all events s2') as [rs2 t2].
    simpl in *. by subst.
Qed.
End Agree.

(** C9: Starting empty, the in-memory and the SQLite event stores return the
    same results (refs and sequence-gap errors alike) for every batch of
    appends with distinct event ids, and expose the same streams afterwards,
    each numbered 1, 2, 3, ... The events of the batch are ones whose JSON text
    reads back as the event, which leaves out an event with an infinite float or
    a NaN as its confidence or in its states: pydantic writes these as [null]. *)
Theorem sqlite_refines_in_memory {Payload} (dump : CrawlRunEvent -> Payload)
    (load : Payload -> res CrawlRunEvent) (events : list CrawlRunEvent) :
  Forall (Sqlite.readable dump load) events ->
  NoDup (ev_id <$> events) ->
  let append_sqlite := @append_all _ (Sqlite.Sqlite_EventStore dump load) in
  let '(results1, mem) := append_all events InMemory.empty in
  let '(results2, table) := append_sqlite events [] in
  results1 = results2 /\
  forall run, Sqlite.stream load table run = Ok (InMemory.stream mem run) /\
              numbered run (InMemory.stream mem run).
Proof.
  intros Hld Hnd append_sqlite.
  pose proof (@append_all_agree _ _ _ InMemory_EventStoreLaws _
    (Sqlite.Sqlite_EventStoreLaws dump load) events InMemory.empty [] Hnd) as Hagree.
  fold append_sqlite in Hagree.
  destruct (append_all events InMemory.empty) as [r1 mem].
  destruct (append_sqlite events []) as [r2 table].
  destruct Hagree as (Hr & Hm & Ht & Hs); simpl.
  - split_and!; [intros r; apply numbered_nil| |done].
    intros r. exists []. split_and!; [done|apply numbered_nil|constructor].
  - intros e He. split; [done|]. by eapply Forall_forall in Hld.
  - intros e _. split; [done|]. apply not_elem_of_nil.
  - split; [done|]. intros run. split; [|apply Hm].
    pose proof (Sqlite.inv_run_log dump load table run Ht) as Hl.
    rewrite (Sqlite.stream_log dump load _ _ _ Hl). f_equal. symmetry. apply (Hs run).
Qed.

Example sqlite_refines_in_memory_witness :
  let e i run seq := CrawlRunEvent_defaults i run "o" "p" seq "t" "event-type:t" "pl" "system" []
                       None None "c" "corr" "tr" [] "k" [] 0 in
  let events := [e "a" "r" 1; e "b" "r" 3; e "c" "r" 2; e "d" "q" 1] in
  fst (append_all events InMemory.empty) =
    [Ok "a"; Raise (ReplayValidationError (gap_message "r" 2 3)); Ok "c"; Ok "d"] /\
  let '(results1, mem) := append_all events InMemory.empty in
  let '(results2, table) := @append_all _ (Sqlite.Sqlite_EventStore (fun x => x) Ok) events [] in
  results1 = results2 /\
  forall run, Sqlite.stream Ok table run = Ok (InMemory.stream mem run) /\
              numbered run (InMemory.stream mem run).
Proof.
  intros e events. split; [vm_compute; reflexivity|].
  apply (sqlite_refines_in_memory (fun x => x) Ok events); [by repeat constructor|].
  apply (bool_decide_unpack _). vm_compute. exact I.
Defined.

Example build_event_cursor_total_witness :
  let e i seq := CrawlRunEvent_defaults i "r" "o" "p" seq "t" "event-type:t" "pl" "system" []
                   None None "c" "corr" "tr" [] "k" [] 0 in
  is_ok (build_event_cursor_record "r" [e "a" 2; e "b" 1; e "c" 2] 0) = false /\
  is_ok (build_event_cursor_record "r" [e "a" 2; e "b" 4; e "c" 2] 0) = true.
Proof.
  intros e. split.
  - pose proof (build_event_cursor_total "r" [e "a" 2; e "b" 1; e "c" 2] 0) as H.
    destruct (is_ok _) eqn:E; [|reflexivity]. exfalso.
    destruct H as [H _]; [repeat constructor; simpl; lia|].
    destruct (H eq_refl) as [Hg|Hnd]; [by apply Hg; vm_compute|].
    apply (bool_decide_pack _) in Hnd. by vm_compute in Hnd.
  - apply build_event_cursor_total; [repeat constructor; simpl; lia|]. left. by vm_compute.
Defined.
