(* ===== verification/DurableStore.v ===== *)
(** * The deterministic durable store

    [runtime_support/durable_store.py]: [DurableBackingStore] is the state,
    every method of [DeterministicDurableStore] an operation on it. [reopen]
    wraps the same backing object, so it is the identity on the state. A
    method that raises keeps the writes it made before. [now] arguments are
    the clock readings of [TimestampedModel.created_at]; a method that builds
    several records reads the clock once per record, in order ([now 0],
    [now 1], ...). *)
From S2P Require Import Prelude PyDict PyList PyStr Contracts EventStore.
Local Open Scope Z_scope.

Record DurableBackingStore := {
  unit_of_work_records : dict Ref UnitOfWorkRecord;
  command_records : dict Ref DurableCommandRecord;
  command_identity_index : dict string Ref;
  command_results : dict Ref CommandResult;
  events_by_run : dict Ref (list CrawlRunEvent);
  outbox_records : dict Ref OutboxRecord;
  artifact_refs : gset Ref;
  frontier_items : dict Ref FrontierItem;
  queue_leases : dict Ref QueueLease;
  invalid_lease_refs : list Ref;
  sequence_overrides : dict Ref Z }.

Definition empty_backing : DurableBackingStore :=
  {| unit_of_work_records := []; command_records := []; command_identity_index := [];
     command_results := []; events_by_run := []; outbox_records := []; artifact_refs := ∅;
     frontier_items := []; queue_leases := []; invalid_lease_refs := []; sequence_overrides := [] |}.

Abbreviation Store := DurableBackingStore.

(** Attribute writes. *)
Definition set_uow f (s : Store) : Store :=
  {| unit_of_work_records := f (unit_of_work_records s); command_records := command_records s;
     command_identity_index := command_identity_index s; command_results := command_results s;
     events_by_run := events_by_run s; outbox_records := outbox_records s;
     artifact_refs := artifact_refs s; frontier_items := frontier_items s;
     queue_leases := queue_leases s; invalid_lease_refs := invalid_lease_refs s;
     sequence_overrides := sequence_overrides s |}.
Definition set_commands f g (s : Store) : Store :=
  {| unit_of_work_records := unit_of_work_records s; command_records := f (command_records s);
     command_identity_index := g (command_identity_index s); command_results := command_results s;
     events_by_run := events_by_run s; outbox_records := outbox_records s;
     artifact_refs := artifact_refs s; frontier_items := frontier_items s;
     queue_leases := queue_leases s; invalid_lease_refs := invalid_lease_refs s;
     sequence_overrides := sequence_overrides s |}.
Definition set_results f (s : Store) : Store :=
  {| unit_of_work_records := unit_of_work_records s; command_records := command_records s;
     command_identity_index := command_identity_index s; command_results := f (command_results s);
     events_by_run := events_by_run s; outbox_records := outbox_records s;
     artifact_refs := artifact_refs s; frontier_items := frontier_items s;
     queue_leases := queue_leases s; invalid_lease_refs := invalid_lease_refs s;
     sequence_overrides := sequence_overrides s |}.
Definition set_events f (s : Store) : Store :=
  {| unit_of_work_records := unit_of_work_records s; command_records := command_records s;
     command_identity_index := command_identity_index s; command_results := command_results s;
     events_by_run := f (events_by_run s); outbox_records := outbox_records s;
     artifact_refs := artifact_refs s; frontier_items := frontier_items s;
     queue_leases := queue_leases s; invalid_lease_refs := invalid_lease_refs s;
     sequence_overrides := sequence_overrides s |}.
Definition set_outbox f (s : Store) : Store :=
  {| unit_of_work_records := unit_of_work_records s; command_records := command_records s;
     command_identity_index := command_identity_index s; command_results := command_results s;
     events_by_run := events_by_run s; outbox_records := f (outbox_records s);
     artifact_refs := artifact_refs s; frontier_items := frontier_items s;
     queue_leases := queue_leases s; invalid_lease_refs := invalid_lease_refs s;
     sequence_overrides := sequence_overrides s |}.
Definition set_artifacts f (s : Store) : Store :=
  {| unit_of_work_records := unit_of_work_records s; command_records := command_records s;
     command_identity_index := command_identity_index s; command_results := command_results s;
     events_by_run := events_by_run s; outbox_records := outbox_records s;
     artifact_refs := f (artifact_refs s); frontier_items := frontier_items s;
     queue_leases := queue_leases s; invalid_lease_refs := invalid_lease_refs s;
     sequence_overrides := sequence_overrides s |}.
Definition set_frontier f (s : Store) : Store :=
  {| unit_of_work_records := unit_of_work_records s; command_records := command_records s;
     command_identity_index := command_identity_index s; command_results := command_results s;
     events_by_run := events_by_run s; outbox_records := outbox_records s;
     artifact_refs := artifact_refs s; frontier_items := f (frontier_items s);
     queue_leases := queue_leases s; invalid_lease_refs := invalid_lease_refs s;
     sequence_overrides := sequence_overrides s |}.
Definition set_leases f g (s : Store) : Store :=
  {| unit_of_work_records := unit_of_work_records s; command_records := command_records s;
     command_identity_index := command_identity_index s; command_results := command_results s;
     events_by_run := events_by_run s; outbox_records := outbox_records s;
     artifact_refs := artifact_refs s; frontier_items := frontier_items s;
     queue_leases := f (queue_leases s); invalid_lease_refs := g (invalid_lease_refs s);
     sequence_overrides := sequence_overrides s |}.

(** [d[k]] on a dict attribute. *)
Definition getitem {V} (d : Store -> dict Ref V) (k : Ref) : M Store V := fun s =>
  match dict_get (d s) k with Some v => (Ok v, s) | None => (Raise (KeyError k), s) end.

(** ** Units of work *)

Definition begin (run_ref : Ref) (now : Z) : M Store UnitOfWorkRecord :=
  let* n := gets (fun s => Z.of_nat (length (unit_of_work_records s)) + 1) in
  let* record := lift (validate_unit_of_work
    {| uow_id := "uow:" +:+ run_ref +:+ ":" +:+ pretty n; uow_run_ref := run_ref;
       uow_status := UOW_OPEN; uow_command_record_refs := []; uow_event_refs := [];
       uow_outbox_refs := []; uow_artifact_refs := []; uow_committed_at_ref := None;
       uow_failure_refs := []; uow_recovery_report_refs := []; uow_created_at := now |}) in
  do* modify (set_uow (fun d => dict_set d (uow_id record) record)) in
  ret record.

Definition uow_copy (u : UnitOfWorkRecord) (status : UnitOfWorkStatus)
    (committed_at : option Ref) (failures : list Ref) : UnitOfWorkRecord :=
  {| uow_id := uow_id u; uow_run_ref := uow_run_ref u; uow_status := status;
     uow_command_record_refs := uow_command_record_refs u; uow_event_refs := uow_event_refs u;
     uow_outbox_refs := uow_outbox_refs u; uow_artifact_refs := uow_artifact_refs u;
     uow_committed_at_ref := committed_at; uow_failure_refs := failures;
     uow_recovery_report_refs := uow_recovery_report_refs u; uow_created_at := uow_created_at u |}.

Definition commit (unit_of_work_ref : Ref) : M Store UnitOfWorkRecord :=
  let* current := getitem unit_of_work_records unit_of_work_ref in
  let updated := uow_copy current UOW_COMMITTED
                   (Some ("clock:" +:+ unit_of_work_ref +:+ ":committed"))
                   (uow_failure_refs current) in
  do* modify (set_uow (fun d => dict_set d (uow_id updated) updated)) in
  ret updated.

Definition rollback (unit_of_work_ref reason_ref : Ref) : M Store UnitOfWorkRecord :=
  let* current := getitem unit_of_work_records unit_of_work_ref in
  let updated := uow_copy current UOW_ROLLED_BACK (uow_committed_at_ref current) [reason_ref] in
  do* modify (set_uow (fun d => dict_set d (uow_id updated) updated)) in
  ret updated.

(** ** Command records and results *)

Definition save_command_record (record : DurableCommandRecord) : M Store Ref :=
  do* modify (set_commands (fun d => dict_set d (dcr_id record) record)
                           (fun d => dict_set d (identity record) (dcr_id record))) in
  ret (dcr_id record).

Definition find_command_record (command_type target_aggregate_type target_aggregate_id
    idempotency_key : string) : M Store (option DurableCommandRecord) :=
  let* record_ref := gets (fun s => dict_get (command_identity_index s)
    (command_identity command_type target_aggregate_type target_aggregate_id idempotency_key)) in
  match record_ref with
  | None => ret None
  | Some record_ref => let* r := getitem command_records record_ref in ret (Some r)
  end.

Definition get_command_result (s : Store) (result_ref : Ref) : option CommandResult :=
  dict_get (command_results s) result_ref.

(** ** Events *)

Definition append_event (event : CrawlRunEvent) : M Store Ref := fun s =>
  let '(events, d) := dict_setdefault (events_by_run s) (ev_run_id event) [] in
  let s := set_events (fun _ => d) s in
  let expected := Z.of_nat (length events) + 1 in
  if negb (ev_sequence event =? expected) then
    (Raise (ValueError (gap_message (ev_run_id event) expected (ev_sequence event))), s)
  else (Ok (ev_id event),
        set_events (fun d => dict_set d (ev_run_id event) (events ++ [event])) s).

Definition force_append_event_for_fixture (event : CrawlRunEvent) : M Store Ref := fun s =>
  let '(events, d) := dict_setdefault (events_by_run s) (ev_run_id event) [] in
  (Ok (ev_id event), set_events (fun _ => dict_set d (ev_run_id event) (events ++ [event])) s).

Definition stream_events (s : Store) (run_ref : Ref) : list CrawlRunEvent :=
  dict_get_or (events_by_run s) run_ref [].

Definition build_event_cursor (s : Store) (run_ref : Ref) (now : Z) : res EventCursorRecord :=
  build_event_cursor_record run_ref (stream_events s run_ref) now.

(** ** Outbox *)

Definition append_outbox (record : OutboxRecord) : M Store Ref :=
  do* modify (set_outbox (fun d => dict_set d (ob_id record) record)) in
  ret (ob_id record).

Definition get_outbox (s : Store) (outbox_ref : Ref) : option OutboxRecord :=
  dict_get (outbox_records s) outbox_ref.

Definition list_outbox (s : Store) (run_ref : option Ref) : list OutboxRecord :=
  let records := dict_values (outbox_records s) in
  match run_ref with
  | Some run_ref => filter (fun record => ob_run_ref record = run_ref) records
  | None => records
  end.

Definition list_pending_outbox (s : Store) (run_ref : Ref) : list OutboxRecord :=
  filter (fun record => ob_status record = OB_PENDING) (list_outbox s (Some run_ref)).

Definition ob_copy (o : OutboxRecord) (status : OutboxStatus) (dispatched_at last_error : option Ref)
    (attempts : Z) : OutboxRecord :=
  {| ob_id := ob_id o; ob_run_ref := ob_run_ref o; ob_command_result_ref := ob_command_result_ref o;
     ob_event_ref := ob_event_ref o; ob_dispatch_topic := ob_dispatch_topic o;
     ob_payload_ref := ob_payload_ref o; ob_idempotency_key := ob_idempotency_key o;
     ob_status := status; ob_attempt_count := attempts; ob_dispatched_at_ref := dispatched_at;
     ob_last_error_ref := last_error; ob_created_at := ob_created_at o |}.

Definition mark_outbox_dispatched (outbox_ref dispatched_at_ref : Ref) : M Store OutboxRecord :=
  let* current := getitem outbox_records outbox_ref in
  if bool_decide (ob_status current = OB_DISPATCHED) then ret current
  else
    let updated := ob_copy current OB_DISPATCHED (Some dispatched_at_ref)
                     (ob_last_error_ref current) (ob_attempt_count current + 1) in
    do* modify (set_outbox (fun d => dict_set d (ob_id updated) updated)) in
    ret updated.

Definition mark_outbox_failed (outbox_ref error_ref : Ref) : M Store OutboxRecord :=
  let* current := getitem outbox_records outbox_ref in
  let updated := ob_copy current OB_FAILED (ob_dispatched_at_ref current)
                   (Some error_ref) (ob_attempt_count current + 1) in
  do* modify (set_outbox (fun d => dict_set d (ob_id updated) updated)) in
  ret updated.

(** ** Artifact refs *)

Definition register_artifact_ref (artifact_ref : Ref) : M Store Ref :=
  do* modify (set_artifacts (fun a => {[artifact_ref]} ∪ a)) in ret artifact_ref.

Definition remove_artifact_ref_for_fixture (artifact_ref : Ref) : M Store unit :=
  modify (set_artifacts (fun a => a ∖ {[artifact_ref]})).

Definition has_artifact_ref (s : Store) (artifact_ref : Ref) : bool :=
  bool_decide (artifact_ref ∈ artifact_refs s).

(** ** Frontier items and queue leases *)

Definition save_frontier_item (item : FrontierItem) : M Store Ref :=
  do* modify (set_frontier (fun d => dict_set d (fi_id item) item)) in ret (fi_id item).

Definition get_frontier_item (s : Store) (item_ref : Ref) : option FrontierItem :=
  dict_get (frontier_items s) item_ref.

Definition list_frontier_items (s : Store) (run_ref : option Ref) : list FrontierItem :=
  let items := dict_values (frontier_items s) in
  match run_ref with
  | Some run_ref => filter (fun item => fi_run_ref item = run_ref) items
  | None => items
  end.

Definition save_queue_lease (lease : QueueLease) : M Store Ref :=
  do* modify (set_leases (fun d => dict_set d (ql_id lease) lease) id) in ret (ql_id lease).

Definition get_queue_lease (s : Store) (lease_ref : Ref) : option QueueLease :=
  dict_get (queue_leases s) lease_ref.

Definition list_queue_leases (s : Store) (run_ref : option Ref) : list QueueLease :=
  let leases := dict_values (queue_leases s) in
  match run_ref with
  | Some run_ref => filter (fun lease => ql_run_ref lease = run_ref) leases
  | None => leases
  end.

Definition record_invalid_lease_ref (invalid_ref : Ref) : M Store unit :=
  modify (set_leases id (fun l => l ++ [invalid_ref])).

Definition list_invalid_lease_refs (s : Store) : list Ref := invalid_lease_refs s.

(** ** Commands *)

(** The commit of a command that has no recorded outcome. *)
Definition execute_command (command : CommandEnvelope) (run_ref objective_ref plan_ref : Ref)
    (event_type : string) (output_refs : list Ref) (now : nat -> Z)
    : M Store (DurableCommandRecord * CommandResult * OutboxRecord * bool) :=
  let* sequence := gets (fun s => Z.of_nat (length (stream_events s run_ref)) + 1) in
  let* event := lift (validate_sequence (CrawlRunEvent_defaults
      ("event:" +:+ run_ref +:+ ":" +:+ pretty sequence) run_ref objective_ref plan_ref
      sequence event_type ("event-type:" +:+ event_type) (ce_payload_ref command) "system"
      output_refs (Some [("status", PStr "accepted")]) (Some [("status", PStr "committed")])
      (ce_id command) ("corr:" +:+ run_ref)
      ("trace:" +:+ run_ref +:+ ":" +:+ pretty sequence) (ce_policy_decision_refs command)
      ("event:" +:+ ce_id command) [] (now 0%nat))) in
  do* append_event event in
  let* result := lift (validate_result
    {| cr_id := "command-result:" +:+ ce_id command; cr_command_id := ce_id command;
       cr_result := CR_COMMITTED; cr_emitted_event_refs := [ev_id event];
       cr_output_refs := output_refs; cr_rejection_reasons := []; cr_error := [];
       cr_created_at := now 1%nat |}) in
  do* modify (set_results (fun d => dict_set d (cr_id result) result)) in
  let* outbox := lift (validate_outbox
    {| ob_id := "outbox:" +:+ ce_id command; ob_run_ref := run_ref;
       ob_command_result_ref := cr_id result; ob_event_ref := ev_id event;
       ob_dispatch_topic := "topic:" +:+ event_type; ob_payload_ref := ce_payload_ref command;
       ob_idempotency_key := "outbox:" +:+ ce_id command; ob_status := OB_PENDING;
       ob_attempt_count := 0; ob_dispatched_at_ref := None; ob_last_error_ref := None;
       ob_created_at := now 2%nat |}) in
  do* append_outbox outbox in
  let* record := lift (validate_record
    {| dcr_id := "durable-command:" +:+ ce_id command; dcr_command_ref := ce_id command;
       dcr_command_type := ce_command_type command;
       dcr_target_aggregate_type := ce_target_aggregate_type command;
       dcr_target_aggregate_id := ce_target_aggregate_id command;
       dcr_idempotency_key := ce_idempotency_key command;
       dcr_command_result_ref := Some (cr_id result); dcr_event_refs := [ev_id event];
       dcr_outbox_refs := [ob_id outbox]; dcr_status := DCR_COMMITTED;
       dcr_duplicate_of_ref := None; dcr_rejection_reason_refs := [];
       dcr_created_at := now 3%nat |}) in
  do* save_command_record record in
  ret (record, result, outbox, false).

Definition handle_command (command : CommandEnvelope) (run_ref objective_ref plan_ref : Ref)
    (event_type : string) (output_refs : list Ref) (now : nat -> Z)
    : M Store (DurableCommandRecord * CommandResult * OutboxRecord * bool) :=
  let* existing := find_command_record (ce_command_type command)
    (ce_target_aggregate_type command) (ce_target_aggregate_id command)
    (ce_idempotency_key command) in
  match existing with
  | Some ({| dcr_command_result_ref := Some result_ref |} as existing) =>
      let* result := getitem command_results result_ref in
      let* outbox_ref := match dcr_outbox_refs existing with
                         | [] => raise IndexError
                         | r :: _ => ret r
                         end in
      let* outbox := getitem outbox_records outbox_ref in
      let* duplicate := lift (validate_record
        {| dcr_id := "durable-command-duplicate:" +:+ ce_id command;
           dcr_command_ref := ce_id command; dcr_command_type := ce_command_type command;
           dcr_target_aggregate_type := ce_target_aggregate_type command;
           dcr_target_aggregate_id := ce_target_aggregate_id command;
           dcr_idempotency_key := ce_idempotency_key command;
           dcr_command_result_ref := Some (cr_id result);
           dcr_event_refs := dcr_event_refs existing; dcr_outbox_refs := dcr_outbox_refs existing;
           dcr_status := DCR_DUPLICATE; dcr_duplicate_of_ref := Some (dcr_id existing);
           dcr_rejection_reason_refs := []; dcr_created_at := now 0%nat |}) in
      ret (duplicate, result, outbox, true)
  | _ => execute_command command run_ref objective_ref plan_ref event_type output_refs now
  end.

(** ** Status updates used by the scheduler *)

Definition fi_copy (item : FrontierItem) (status : FrontierItemStatus) (lease_ref : option Ref)
    (result_refs failure_refs : list Ref) (last_error_ref : option Ref) (attempt_count : Z)
    : FrontierItem :=
  {| fi_id := fi_id item; fi_run_ref := fi_run_ref item; fi_source_ref := fi_source_ref item;
     fi_priority := fi_priority item; fi_status := status; fi_attempt_count := attempt_count;
     fi_max_attempts := fi_max_attempts item;
     fi_policy_decision_refs := fi_policy_decision_refs item; fi_lease_ref := lease_ref;
     fi_result_refs := result_refs; fi_last_error_ref := last_error_ref;
     fi_failure_refs := failure_refs; fi_created_at := fi_created_at item |}.

(** The keyword arguments default to [None], which keeps the field. *)
Definition mark_frontier_item_status (item : FrontierItem) (status : FrontierItemStatus)
    (lease_ref : option Ref) (result_refs failure_refs : option (list Ref))
    (last_error_ref : option Ref) (attempt_count : option Z) : M Store FrontierItem :=
  let updated := fi_copy item status (or_else lease_ref (fi_lease_ref item))
                   (default (fi_result_refs item) result_refs)
                   (default (fi_failure_refs item) failure_refs)
                   (or_else last_error_ref (fi_last_error_ref item))
                   (default (fi_attempt_count item) attempt_count) in
  do* save_frontier_item updated in
  ret updated.

Definition ql_copy (lease : QueueLease) (status : QueueLeaseStatus)
    (heartbeat completed released expiry replaced : option Ref) : QueueLease :=
  {| ql_id := ql_id lease; ql_frontier_item_ref := ql_frontier_item_ref lease;
     ql_run_ref := ql_run_ref lease; ql_lease_token_ref := ql_lease_token_ref lease;
     ql_holder_ref := ql_holder_ref lease; ql_status := status;
     ql_expires_at_ref := ql_expires_at_ref lease; ql_heartbeat_ref := heartbeat;
     ql_completed_at_ref := completed; ql_released_at_ref := released;
     ql_expiry_reason_ref := expiry; ql_replaced_by_lease_ref := replaced;
     ql_created_at := ql_created_at lease |}.

Definition mark_queue_lease_status (lease : QueueLease) (status : QueueLeaseStatus)
    (heartbeat_ref completed_at_ref released_at_ref expiry_reason_ref replaced_by_lease_ref
     : option Ref) : M Store QueueLease :=
  let updated := ql_copy lease status
                   (or_else heartbeat_ref (ql_heartbeat_ref lease))
                   (or_else completed_at_ref (ql_completed_at_ref lease))
                   (or_else released_at_ref (ql_released_at_ref lease))
                   (or_else expiry_reason_ref (ql_expiry_reason_ref lease))
                   (or_else replaced_by_lease_ref (ql_replaced_by_lease_ref lease)) in
  do* save_queue_lease updated in
  ret updated.

(** ** Closed forms *)

Definition push_event (e : CrawlRunEvent) (s : Store) : Store :=
  set_events (fun d => dict_set d (ev_run_id e) (stream_events s (ev_run_id e) ++ [e])) s.

Lemma append_event_spec e s :
  let n := Z.of_nat (length (stream_events s (ev_run_id e))) + 1 in
  if ev_sequence e =? n then append_event e s = (Ok (ev_id e), push_event e s)
  else exists d, append_event e s =
         (Raise (ValueError (gap_message (ev_run_id e) n (ev_sequence e))), set_events (fun _ => d) s) /\
       forall r, dict_get_or d r [] = stream_events s r.
Proof.
  unfold append_event, push_event, stream_events, dict_get_or, dict_setdefault, set_events. cbn.
  destruct (dict_get (events_by_run s) (ev_run_id e)) as [l|] eqn:E; cbn;
    (case_match; cbn; [|eexists]).
  - done.
  - done.
  - by rewrite dict_set_set.
  - split; [done|]. intros r. rewrite dict_get_set. case_decide; subst; [by rewrite E|done].
Qed.

Lemma stream_push_event e s r :
  stream_events (push_event e s) r =
    if decide (r = ev_run_id e) then stream_events s r ++ [e] else stream_events s r.
Proof.
  unfold stream_events at 1, push_event, dict_get_or. simpl. rewrite dict_get_set.
  case_decide; by subst.
Qed.

Definition commit_command (record : DurableCommandRecord) (result : CommandResult)
    (outbox : OutboxRecord) (event : CrawlRunEvent) (s : Store) : Store :=
  set_commands (fun d => dict_set d (dcr_id record) record)
    (fun d => dict_set d (identity record) (dcr_id record))
    (set_outbox (fun d => dict_set d (ob_id outbox) outbox)
      (set_results (fun d => dict_set d (cr_id result) result) (push_event event s))).

Definition command_key (c : CommandEnvelope) : string :=
  command_identity (ce_command_type c) (ce_target_aggregate_type c) (ce_target_aggregate_id c)
    (ce_idempotency_key c).

(** What the records of the command [cid] look like. *)
Record committed_as (cid : Ref) (key : string) (record : DurableCommandRecord) : Prop := {
  ca_command : dcr_command_ref record = cid;
  ca_id : dcr_id record = "durable-command:" +:+ cid;
  ca_key : identity record = key;
  ca_result : dcr_command_result_ref record = Some ("command-result:" +:+ cid);
  ca_outbox : dcr_outbox_refs record = ["outbox:" +:+ cid] }.

(** An executed command leaves one event at the end of the run's log, a result,
    a pending outbox record and an indexed record. *)
Lemma execute_run c run obj plan et outs now s :
  exists record result outbox event,
    execute_command c run obj plan et outs now s =
      (Ok (record, result, outbox, false), commit_command record result outbox event s) /\
    committed_as (ce_id c) (command_key c) record /\ dcr_status record = DCR_COMMITTED /\
    dcr_event_refs record = [ev_id event] /\
    cr_id result = "command-result:" +:+ ce_id c /\ cr_result result = CR_COMMITTED /\
    cr_emitted_event_refs result = [ev_id event] /\ cr_output_refs result = outs /\
    ob_id outbox = "outbox:" +:+ ce_id c /\ ob_status outbox = OB_PENDING /\
    ob_run_ref outbox = run /\ ob_event_ref outbox = ev_id event /\ ob_attempt_count outbox = 0 /\
    ev_run_id event = run /\ ev_causation_id event = ce_id c /\
    ev_sequence event = Z.of_nat (length (stream_events s run)) + 1.
Proof.
  unfold execute_command, bind, gets. cbn. unfold lift, validate_sequence, rbind.
  rewrite (proj2 (Z.leb_le _ _)) by (cbn; lia). cbn.
  match goal with |- context [append_event ?e] => pose proof (append_event_spec e s) as Ha end.
  cbn in Ha. rewrite Z.eqb_refl in Ha. rewrite Ha. cbn.
  eexists _, _, _, _. split; [reflexivity|]. done.
Qed.

Lemma handle_first c run obj plan et outs now s :
  dict_get (command_identity_index s) (command_key c) = None ->
  handle_command c run obj plan et outs now s = execute_command c run obj plan et outs now s.
Proof.
  intros Hnew. unfold handle_command, bind at 1, find_command_record, bind, gets. cbn.
  fold (command_key c). by rewrite Hnew.
Qed.

Lemma find_indexed c s ref record :
  dict_get (command_identity_index s) (command_key c) = Some ref ->
  dict_get (command_records s) ref = Some record ->
  find_command_record (ce_command_type c) (ce_target_aggregate_type c)
    (ce_target_aggregate_id c) (ce_idempotency_key c) s = (Ok (Some record), s).
Proof.
  intros Hi Hr. unfold find_command_record, bind, gets. fold (command_key c).
  rewrite Hi. cbn. unfold getitem. by rewrite Hr.
Qed.

(** A command whose identity is known replays the recorded outcome. *)
Lemma handle_duplicate c run obj plan et outs now s ref record cid result outbox :
  dict_get (command_identity_index s) (command_key c) = Some ref ->
  dict_get (command_records s) ref = Some record ->
  committed_as cid (command_key c) record ->
  dict_get (command_results s) ("command-result:" +:+ cid) = Some result ->
  dict_get (outbox_records s) ("outbox:" +:+ cid) = Some outbox ->
  exists duplicate,
    handle_command c run obj plan et outs now s = (Ok (duplicate, result, outbox, true), s) /\
    dcr_status duplicate = DCR_DUPLICATE /\ dcr_duplicate_of_ref duplicate = Some (dcr_id record) /\
    dcr_event_refs duplicate = dcr_event_refs record /\ dcr_command_ref duplicate = ce_id c.
Proof.
  intros Hi Hr Hc Hres Hob. unfold handle_command, bind at 1.
  rewrite (find_indexed _ _ _ _ Hi Hr).
  destruct Hc as [Hcmd Hid Hkey Hres' Hob'].
  destruct record; cbn in *; subst. unfold bind at 1, getitem at 1. rewrite Hres.
  unfold bind, getitem. cbn. rewrite Hob. cbn. eexists. done.
Qed.

(** ** Outbox and unit-of-work closed forms *)

Definition put_outbox (o : OutboxRecord) (s : Store) : Store :=
  set_outbox (fun d => dict_set d (ob_id o) o) s.

Lemma mark_dispatched_run k at_ s o :
  get_outbox s k = Some o ->
  mark_outbox_dispatched k at_ s =
    if bool_decide (ob_status o = OB_DISPATCHED) then (Ok o, s)
    else let o' := ob_copy o OB_DISPATCHED (Some at_) (ob_last_error_ref o) (ob_attempt_count o + 1) in
         (Ok o', put_outbox o' s).
Proof.
  intros Ho. unfold mark_outbox_dispatched, bind, getitem. unfold get_outbox in Ho. rewrite Ho.
  by case_bool_decide.
Qed.

Lemma mark_failed_run k err s o :
  get_outbox s k = Some o ->
  let o' := ob_copy o OB_FAILED (ob_dispatched_at_ref o) (Some err) (ob_attempt_count o + 1) in
  mark_outbox_failed k err s = (Ok o', put_outbox o' s).
Proof.
  intros Ho. unfold mark_outbox_failed, bind, getitem. unfold get_outbox in Ho. by rewrite Ho.
Qed.

Definition put_uow (u : UnitOfWorkRecord) (s : Store) : Store :=
  set_uow (fun d => dict_set d (uow_id u) u) s.

(** ** Sequences of calls

    Every method that changes the store, with its arguments. *)

Inductive StoreCall :=
  | CallBegin (run_ref : Ref) (now : Z)
  | CallCommit (unit_of_work_ref : Ref)
  | CallRollback (unit_of_work_ref reason_ref : Ref)
  | CallSaveCommandRecord (record : DurableCommandRecord)
  | CallAppendEvent (event : CrawlRunEvent)
  | CallForceAppendEvent (event : CrawlRunEvent)
  | CallAppendOutbox (record : OutboxRecord)
  | CallOutboxDispatched (outbox_ref dispatched_at_ref : Ref)
  | CallOutboxFailed (outbox_ref error_ref : Ref)
  | CallRegisterArtifact (artifact_ref : Ref)
  | CallRemoveArtifact (artifact_ref : Ref)
  | CallSaveItem (item : FrontierItem)
  | CallSaveLease (lease : QueueLease)
  | CallInvalidLease (invalid_ref : Ref)
  | CallHandle (command : CommandEnvelope) (run_ref objective_ref plan_ref : Ref) (event_type : string)
      (output_refs : list Ref) (now : nat -> Z).

(** The store after a call, whether it returned or raised. *)
Definition run_call (c : StoreCall) (s : Store) : Store :=
  match c with
  | CallBegin run now => (begin run now s).2
  | CallCommit k => (commit k s).2
  | CallRollback k reason => (rollback k reason s).2
  | CallSaveCommandRecord record => (save_command_record record s).2
  | CallAppendEvent e => (append_event e s).2
  | CallForceAppendEvent e => (force_append_event_for_fixture e s).2
  | CallAppendOutbox o => (append_outbox o s).2
  | CallOutboxDispatched k at_ => (mark_outbox_dispatched k at_ s).2
  | CallOutboxFailed k err => (mark_outbox_failed k err s).2
  | CallRegisterArtifact a => (register_artifact_ref a s).2
  | CallRemoveArtifact a => (remove_artifact_ref_for_fixture a s).2
  | CallSaveItem i => (save_frontier_item i s).2
  | CallSaveLease l => (save_queue_lease l s).2
  | CallInvalidLease r => (record_invalid_lease_ref r s).2
  | CallHandle c run obj plan et outs now => (handle_command c run obj plan et outs now s).2
  end.
Definition after (calls : list StoreCall) (s : Store) : Store := foldl (fun s c => run_call c s) s calls.

Lemma after_app calls calls' s : after (calls ++ calls') s = after calls' (after calls s).
Proof. apply foldl_app. Qed.
Lemma after_preserved (P : StoreCall -> Prop) (I : Store -> Prop) calls s :
  (forall c s, P c -> I s -> I (run_call c s)) -> Forall P calls -> I s -> I (after calls s).
Proof. intros HI Hc. revert s. induction Hc as [|c calls Hc _ IH]; intros s Hs; [done|]. apply IH. by apply HI. Qed.

Lemma getitem_cases {V B} (d : Store -> dict Ref V) k (f : V -> M Store B) s :
  bind (getitem d k) f s =
    match dict_get (d s) k with Some v => f v s | None => (Raise (KeyError k), s) end.
Proof. unfold bind, getitem. by destruct (dict_get (d s) k). Qed.

Lemma find_run t1 t2 t3 t4 s : exists r, find_command_record t1 t2 t3 t4 s = (r, s).
Proof.
  unfold find_command_record, bind, gets. destruct (dict_get (command_identity_index s) _); [|by eexists].
  unfold getitem. destruct (dict_get (command_records s) _); by eexists.
Qed.
Lemma bind_raised {A B} (m : M Store A) (k : A -> M Store B) s e s' : m s = (Raise e, s') -> bind m k s = (Raise e, s').
Proof. unfold bind. by intros ->. Qed.

(** [handle_command] changes nothing and does not report a new command, or
    executes the command: from any state. *)
Lemma handle_cases c run obj plan et outs now s :
  (exists r, handle_command c run obj plan et outs now s = (r, s) /\ forall handled, r = Ok handled -> handled.2 = true) \/
  handle_command c run obj plan et outs now s = execute_command c run obj plan et outs now s.
Proof.
  unfold handle_command. destruct (find_run (ce_command_type c) (ce_target_aggregate_type c) (ce_target_aggregate_id c) (ce_idempotency_key c) s) as [[[existing|]|e] E].
  2: { right. by rewrite (bind_eq _ _ _ _ _ E). }
  2: { left. rewrite (bind_raised _ _ _ _ _ E). by eexists. }
  rewrite (bind_eq _ _ _ _ _ E). destruct existing as [? ? ? ? ? ? [result_ref|] ? obs]; [left|by right]. cbn [dcr_outbox_refs].
  rewrite getitem_cases. destruct (dict_get (command_results s) result_ref); [|by eexists].
  destruct obs as [|ob obs]; [by eexists|]. rewrite (bind_eq _ _ s ob s) by done. rewrite getitem_cases.
  destruct (dict_get (outbox_records s) ob); [|by eexists]. unfold bind, lift. destruct (validate_record _); [|by eexists].
  eexists. split; [done|]. by intros ? [= <-].
Qed.

Lemma handle_executes c run obj plan et outs now s record result outbox s1 :
  handle_command c run obj plan et outs now s = (Ok (record, result, outbox, false), s1) ->
  exists event, s1 = commit_command record result outbox event s /\ committed_as (ce_id c) (command_key c) record /\
    cr_id result = "command-result:" +:+ ce_id c /\ ob_id outbox = "outbox:" +:+ ce_id c.
Proof.
  intros Hh. destruct (handle_cases c run obj plan et outs now s) as [(r & E & Hf)|E]; [rewrite Hh in E; injection E as <- ->; by specialize (Hf _ eq_refl)|].
  destruct (execute_run c run obj plan et outs now s) as (rec & res & ob & event & E2 & Hc & _ & _ & Hcr & _ & _ & _ & Hob & _).
  rewrite E, E2 in Hh. injection Hh as <- <- <- <-. by exists event.
Qed.

Lemma append_event_log e s :
  (append_event e s).2 = push_event e s /\ ev_sequence e = Z.of_nat (length (stream_events s (ev_run_id e))) + 1 \/
  exists d, (append_event e s).2 = set_events (fun _ => d) s /\ forall r, dict_get_or d r [] = stream_events s r.
Proof.
  pose proof (append_event_spec e s) as Ha. cbn in Ha. case_match eqn:Hq.
  - left. rewrite Ha. split; [done|by apply Z.eqb_eq].
  - right. destruct Ha as (d & -> & Hd). by exists d.
Qed.

(** *** The logs *)

(** Not the method that appends an event without looking at its number. *)
Definition unforced (c : StoreCall) : Prop := if c is CallForceAppendEvent _ then False else True.

(** No event is added, or the next of a run. *)
Definition log_grows (s s' : Store) : Prop :=
  (forall r, stream_events s' r = stream_events s r) \/
  exists e, ev_sequence e = Z.of_nat (length (stream_events s (ev_run_id e))) + 1 /\
    forall r, stream_events s' r = stream_events (push_event e s) r.

Lemma run_call_log c s : unforced c -> log_grows s (run_call c s).
Proof.
  intros Hc. destruct c as [| | | |e| | | | | | | | | |c run obj plan et outs now]; simpl; try done; try (left; done).
  - left. unfold commit. rewrite getitem_cases. by case_match.
  - left. unfold rollback. rewrite getitem_cases. by case_match.
  - destruct (append_event_log e s) as [[-> He]|(d & -> & Hd)]; [right; by exists e|by left].
  - left. unfold mark_outbox_dispatched. rewrite getitem_cases. case_match; [|done]. by case_bool_decide.
  - left. unfold mark_outbox_failed. rewrite getitem_cases. by case_match.
  - destruct (handle_cases c run obj plan et outs now s) as [(r & -> & _)| ->]; [by left|].
    destruct (execute_run c run obj plan et outs now s) as (record & result & outbox & event & -> & _ & _ & _ & _ & _ & _ & _ & _ & _ & _ & _ & _ & Hr & _ & Hs).
    right. exists event. by rewrite Hr.
Qed.

Lemma log_grows_prefix s s' r : log_grows s s' -> stream_events s r `prefix_of` stream_events s' r.
Proof.
  intros [E|(e & _ & E)]; rewrite E; [done|]. rewrite stream_push_event.
  case_decide; [by eexists|done].
Qed.

Lemma log_grows_numbered s s' : log_grows s s' -> (forall r, numbered r (stream_events s r)) ->
  forall r, numbered r (stream_events s' r).
Proof.
  intros [E|(e & Hs & E)] Hn r; rewrite E; [apply Hn|]. rewrite stream_push_event.
  case_decide; subst; [by apply numbered_snoc|apply Hn].
Qed.

Lemma after_numbered calls s : Forall unforced calls -> (forall r, numbered r (stream_events s r)) ->
  forall r, numbered r (stream_events (after calls s) r).
Proof.
  apply (after_preserved unforced (fun s => forall r, numbered r (stream_events s r))).
  intros c s' Hc. apply log_grows_numbered. by apply run_call_log.
Qed.
Lemma after_prefix calls s r : Forall unforced calls -> stream_events s r `prefix_of` stream_events (after calls s) r.
Proof.
  intros Hc. apply (after_preserved unforced (fun s' => stream_events s r `prefix_of` stream_events s' r)); [|done|done].
  intros c s' Hu Hp. etrans; [exact Hp|]. by apply log_grows_prefix, run_call_log.
Qed.

(** *** Records under their ids *)

Definition outbox_keyed (s : Store) : Prop := forall k o, dict_get (outbox_records s) k = Some o -> ob_id o = k.
Definition uow_keyed (s : Store) : Prop := forall k u, dict_get (unit_of_work_records s) k = Some u ->
  uow_id u = k /\ exists r n, k = "uow:" +:+ r +:+ ":" +:+ pretty n /\ 1 <= n <= Z.of_nat (length (unit_of_work_records s)).

Lemma put_outbox_keyed o s : outbox_keyed s -> outbox_keyed (put_outbox o s).
Proof. intros Hs k o'. simpl. rewrite dict_get_set. case_decide; [naive_solver|apply Hs]. Qed.

Lemma run_call_outbox_keyed c s : outbox_keyed s -> outbox_keyed (run_call c s).
Proof.
  intros Hs. destruct c as [| | | |e|e|o| | | | | | | |c run obj plan et outs now]; simpl; try done.
  - unfold commit. rewrite getitem_cases. by case_match.
  - unfold rollback. rewrite getitem_cases. by case_match.
  - by destruct (append_event_log e s) as [[-> _]|(d & -> & _)].
  - unfold force_append_event_for_fixture. by destruct (dict_setdefault _ _ _).
  - by apply put_outbox_keyed.
  - unfold mark_outbox_dispatched. rewrite getitem_cases. case_match; [|done]. case_bool_decide; [done|by apply put_outbox_keyed].
  - unfold mark_outbox_failed. rewrite getitem_cases. case_match; [by apply put_outbox_keyed|done].
  - destruct (handle_cases c run obj plan et outs now s) as [(r & -> & _)| ->]; [done|].
    destruct (execute_run c run obj plan et outs now s) as (record & result & outbox & event & -> & _).
    intros k o'. simpl. rewrite dict_get_set. case_decide; [naive_solver|apply Hs].
Qed.

Lemma put_uow_keyed u s : uow_keyed s -> is_Some (dict_get (unit_of_work_records s) (uow_id u)) -> uow_keyed (put_uow u s).
Proof.
  intros Hs [u' Hu] k u2. simpl. rewrite dict_get_set, dict_set_length, Hu. case_decide as Hk; [|apply Hs].
  intros [= <-]. subst k. by destruct (Hs _ _ Hu).
Qed.
Lemma run_call_uow_keyed c s : uow_keyed s -> uow_keyed (run_call c s).
Proof.
  intros Hs. destruct c as [run now|k|k reason| |e|e| | | | | | | | |c run obj plan et outs now]; cbn [run_call]; try done.
  - assert (exists u, begin run now s = (Ok u, put_uow u s) /\ uow_id u = "uow:" +:+ run +:+ ":" +:+ pretty (Z.of_nat (length (unit_of_work_records s)) + 1))
      as (u & -> & Hid) by (eexists; split; reflexivity).
    intros k u2. simpl. rewrite dict_get_set, dict_set_length. case_decide as Hk.
    + intros [= <-]. split; [done|]. eexists run, _. split; [rewrite Hk; exact Hid|].
      destruct (dict_get (unit_of_work_records s) (uow_id u)) as [u2|] eqn:E; [|lia].
      destruct (Hs _ _ E) as (_ & r2 & n2 & Hr2 & ?). rewrite Hid in Hr2. apply (numbered_ref_inj "uow:") in Hr2 as [_ <-]. lia.
    + intros Hu2. destruct (Hs _ _ Hu2) as (? & r2 & n2 & Hr2 & ?). split; [done|].
      exists r2, n2. split; [done|]. case_match; lia.
  - unfold commit. rewrite getitem_cases. case_match eqn:Ho; [|done]. apply (put_uow_keyed (uow_copy _ _ _ _)); [done|]. simpl.
    destruct (Hs _ _ Ho) as [-> _]. by rewrite Ho.
  - unfold rollback. rewrite getitem_cases. case_match eqn:Ho; [|done]. apply (put_uow_keyed (uow_copy _ _ _ _)); [done|]. simpl.
    destruct (Hs _ _ Ho) as [-> _]. by rewrite Ho.
  - by destruct (append_event_log e s) as [[-> _]|(d & -> & _)].
  - unfold force_append_event_for_fixture. by destruct (dict_setdefault _ _ _).
  - unfold mark_outbox_dispatched. rewrite getitem_cases. case_match; [|done]. by case_bool_decide.
  - unfold mark_outbox_failed. rewrite getitem_cases. by case_match.
  - destruct (handle_cases c run obj plan et outs now s) as [(r & -> & _)| ->]; [done|].
    by destruct (execute_run c run obj plan et outs now s) as (record & result & outbox & event & -> & _).
Qed.

Lemma after_uow_keyed calls : uow_keyed (after calls empty_backing).
Proof. apply (after_preserved (fun _ => True)); [intros; by apply run_call_uow_keyed|by apply Forall_true|done]. Qed.
Lemma after_outbox_keyed calls : outbox_keyed (after calls empty_backing).
Proof. apply (after_preserved (fun _ => True)); [intros; by apply run_call_outbox_keyed|by apply Forall_true|done]. Qed.

(** *** A committed command *)

(** What is stored of a committed command. *)
Definition committed (cid key : string) (record : DurableCommandRecord) (result : CommandResult)
    (s : Store) : Prop :=
  committed_as cid key record /\
  dict_get (command_identity_index s) key = Some (dcr_id record) /\
  dict_get (command_records s) (dcr_id record) = Some record /\
  dict_get (command_results s) ("command-result:" +:+ cid) = Some result /\
  exists o, dict_get (outbox_records s) ("outbox:" +:+ cid) = Some o /\ ob_id o = "outbox:" +:+ cid.

(** The calls that leave the command [cid] alone: no other command is handled
    under its id, and no record is saved by hand under its id or its identity. *)
Definition spares (cid key : string) (c : StoreCall) : Prop :=
  match c with
  | CallHandle c _ _ _ _ _ _ => ce_id c = cid -> command_key c = key
  | CallSaveCommandRecord record => dcr_id record <> "durable-command:" +:+ cid /\ identity record <> key
  | _ => True
  end.

Lemma command_slot_ne prefix cid1 cid2 :
  cid1 <> cid2 -> prefix +:+ cid1 <> prefix +:+ cid2.
Proof. intros Hne E. apply Hne. by apply (append_inj_l prefix). Qed.

Lemma put_outbox_committed cid key record result o s : committed cid key record result s -> committed cid key record result (put_outbox o s).
Proof.
  intros (Hc & Hi & Hr & Hres & o' & Ho & Hid). split_and!; try done. simpl. rewrite dict_get_set.
  case_decide as Hk; [by exists o|by exists o'].
Qed.

Lemma run_call_committed cid key record result c s :
  spares cid key c -> committed cid key record result s -> committed cid key record result (run_call c s).
Proof.
  intros Hsp Hcm. pose proof Hcm as (Hc & Hi & Hr & Hres & o & Ho & Hoid).
  destruct c as [| | |rec|e|e|o2| | | | | | | |c run obj plan et outs now]; simpl; try done.
  - unfold commit. rewrite getitem_cases. by case_match.
  - unfold rollback. rewrite getitem_cases. by case_match.
  - destruct Hsp as [H1 H2]. split_and!; try done; simpl; [rewrite dict_get_set, decide_False; [done|congruence]
      |rewrite dict_get_set, decide_False; [done|rewrite (ca_id _ _ _ Hc); congruence]|by exists o].
  - by destruct (append_event_log e s) as [[-> _]|(d & -> & _)].
  - unfold force_append_event_for_fixture. by destruct (dict_setdefault _ _ _).
  - by apply put_outbox_committed.
  - unfold mark_outbox_dispatched. rewrite getitem_cases. case_match; [|done]. case_bool_decide; [done|by apply put_outbox_committed].
  - unfold mark_outbox_failed. rewrite getitem_cases. case_match; [by apply put_outbox_committed|done].
  - destruct (decide (command_key c = key)) as [<-|Hkey].
    { destruct (handle_duplicate c run obj plan et outs now s _ _ _ _ _ Hi Hr Hc Hres Ho) as (dup & -> & _). done. }
    assert (ce_id c <> cid) as Hid by (intros E; by apply Hkey, Hsp).
    destruct (handle_cases c run obj plan et outs now s) as [(r & -> & _)| ->]; [done|].
    destruct (execute_run c run obj plan et outs now s) as (rec & res & ob & event & -> & Hc' & _ & _ & Hcr & _ & _ & _ & Hob & _).
    split_and!; [done|..]; simpl; rewrite dict_get_set, decide_False; try done.
    + rewrite (ca_key _ _ _ Hc'). congruence.
    + rewrite (ca_id _ _ _ Hc), (ca_id _ _ _ Hc'). by apply command_slot_ne.
    + rewrite Hcr. by apply command_slot_ne.
    + by exists o.
    + rewrite Hob. by apply command_slot_ne.
Qed.

(** A command whose identity (type, aggregate, idempotency key) is new
    commits in one call that never raises: its event is appended to the run's
    log with the next sequence number, its result lists that event and the
    given outputs, a pending outbox record for the event is stored, and a
    committed record is indexed; no other run's log, and no frontier item or
    lease, changes. *)
Theorem handle_command_commits c run obj plan et outs now s :
  dict_get (command_identity_index s) (command_key c) = None ->
  exists record result outbox event s',
    handle_command c run obj plan et outs now s = (Ok (record, result, outbox, false), s') /\
    dcr_status record = DCR_COMMITTED /\ cr_result result = CR_COMMITTED /\
    cr_emitted_event_refs result = [ev_id event] /\ cr_output_refs result = outs /\
    ev_sequence event = Z.of_nat (length (stream_events s run)) + 1 /\
    (forall r, stream_events s' r =
       if decide (r = run) then stream_events s run ++ [event] else stream_events s r) /\
    dict_get (command_identity_index s') (command_key c) = Some (dcr_id record) /\
    dict_get (command_records s') (dcr_id record) = Some record /\
    get_command_result s' (cr_id result) = Some result /\
    get_outbox s' (ob_id outbox) = Some outbox /\
    outbox ∈ list_pending_outbox s' run /\ ob_event_ref outbox = ev_id event /\
    frontier_items s' = frontier_items s /\ queue_leases s' = queue_leases s.
Proof.
  intros Hnew. rewrite (handle_first c run obj plan et outs now s Hnew).
  destruct (execute_run c run obj plan et outs now s)
    as (record & result & outbox & event & E & Hc & Hst & Hev & Hcr & Hcrs & Hem & Ho & Hob & Hobs
        & Hobr & Hobe & _ & Hrun & _ & Hseq).
  exists record, result, outbox, event, (commit_command record result outbox event s).
  split_and!; try done; simpl.
  - intros r. pose proof (stream_push_event event s r) as Hp. rewrite Hrun in Hp.
    etrans; [exact Hp|]. case_decide; by subst.
  - by rewrite (ca_key _ _ _ Hc), dict_get_set_eq.
  - by rewrite dict_get_set_eq.
  - unfold get_command_result. simpl. by rewrite dict_get_set_eq.
  - unfold get_outbox. simpl. by rewrite dict_get_set_eq.
  - unfold list_pending_outbox, list_outbox. rewrite !list_elem_of_filter. split_and!; [done..|].
    simpl. unfold dict_values. apply list_elem_of_fmap. exists (ob_id outbox, outbox).
    split; [done|]. apply dict_get_Some_in, dict_get_set_eq.
Qed.

(** C1: Exactly-once commands. In any state of the store, after a command has
    committed, whatever methods of the store are called then, handling a command
    with the same identity again returns the original result, an outbox record
    with the original id and a duplicate record pointing at the original, and
    leaves the store as it is. The calls in between are all the methods that change the
    store, with any arguments, except that no other command is handled under the
    id of the first (every record is keyed by that id), and that no record is
    saved by hand under its id or its identity. *)
Theorem command_replay_is_idempotent c run obj plan et outs now s record result outbox s1 calls
    c' run' obj' plan' et' outs' now' :
  handle_command c run obj plan et outs now s = (Ok (record, result, outbox, false), s1) ->
  Forall (spares (ce_id c) (command_key c)) calls ->
  command_key c' = command_key c ->
  exists duplicate outbox',
    handle_command c' run' obj' plan' et' outs' now' (after calls s1) =
      (Ok (duplicate, result, outbox', true), after calls s1) /\
    dcr_status duplicate = DCR_DUPLICATE /\ dcr_duplicate_of_ref duplicate = Some (dcr_id record) /\
    dcr_event_refs duplicate = dcr_event_refs record /\ ob_id outbox' = ob_id outbox.
Proof.
  intros Hh Hcalls Hkey.
  assert (committed (ce_id c) (command_key c) record result s1 /\ ob_id outbox = "outbox:" +:+ ce_id c) as [Hcm Hoid].
  { destruct (handle_executes _ _ _ _ _ _ _ _ _ _ _ _ Hh) as (event & -> & Hc & Hcr & Hob).
    split; [|done]. split_and!; [done|..]; simpl; rewrite dict_get_set, decide_True; try done; [by rewrite (ca_key _ _ _ Hc)|by exists outbox]. }
  pose proof (after_preserved _ _ calls s1 (run_call_committed (ce_id c) (command_key c) record result) Hcalls Hcm) as (Hc & Hi & Hr & Hres & o & Ho & Hid).
  rewrite <-Hkey in *.
  destruct (handle_duplicate c' run' obj' plan' et' outs' now' _ _ _ _ _ _ Hi Hr Hc Hres Ho) as (dup & E2 & ? & ? & ? & _).
  exists dup, o. split_and!; try done. congruence.
Qed.

(** C26: The event logs of a store. After any calls of its methods from the empty
    store, with any arguments and failing or not, except the method that appends
    an event without looking at its number (made for the fixture of a damaged
    log), each run's log is numbered 1, 2, 3, ... without gaps, and
    [build_event_cursor] succeeds with a contiguous cursor over the whole log;
    and any further such calls only add to the log. *)
Theorem event_logs_append_only_and_gap_free calls more run now :
  Forall unforced (calls ++ more) ->
  let s1 := after calls empty_backing in
  let s2 := after (calls ++ more) empty_backing in
  stream_events s1 run `prefix_of` stream_events s2 run /\
  numbered run (stream_events s2 run) /\
  exists cursor, build_event_cursor s2 run now = Ok cursor /\
    ec_contiguous cursor = true /\ ec_missing_sequence_numbers cursor = [] /\
    ec_from_sequence cursor = 1 /\
    (stream_events s2 run <> [] ->
       ec_to_sequence cursor = Z.of_nat (length (stream_events s2 run)) /\
       ec_event_refs cursor = ev_id <$> stream_events s2 run).
Proof.
  intros Hc s1 s2. assert (numbered run (stream_events s2 run)) as Hn by (apply after_numbered; [done|by intros r]).
  split_and!; [unfold s1, s2; rewrite after_app; apply after_prefix; by apply Forall_app in Hc as [_ ?]|done|]. unfold build_event_cursor.
  destruct (decide (stream_events s2 run = [])) as [->|Hne].
  - eexists. by split_and!.
  - rewrite (cursor_numbered _ _ _ Hn Hne). eexists. by split_and!.
Qed.

(** Dispatching an outbox record is idempotent: the second call returns the
    first call's record and writes nothing. The first marks it dispatched,
    counts one attempt unless it was dispatched before, takes it out of the
    pending list and touches no other record. *)
Theorem outbox_dispatch_idempotent s k at_ at_' o :
  outbox_keyed s -> get_outbox s k = Some o ->
  exists o' s', mark_outbox_dispatched k at_ s = (Ok o', s') /\
    mark_outbox_dispatched k at_' s' = (Ok o', s') /\
    ob_status o' = OB_DISPATCHED /\
    ob_attempt_count o' = ob_attempt_count o +
      (if decide (ob_status o = OB_DISPATCHED) then 0 else 1) /\
    (forall run, o' ∉ list_pending_outbox s' run) /\
    (forall k', get_outbox s' k' = if decide (k' = k) then Some o' else get_outbox s k').
Proof.
  intros Hwf Ho. pose proof (Hwf _ _ Ho) as Hid.
  assert (forall o s run, ob_status o = OB_DISPATCHED -> o ∉ list_pending_outbox s run) as Hp.
  { intros o1 s1 run H1 [H2 _]%list_elem_of_filter. congruence. }
  rewrite (mark_dispatched_run _ at_ _ _ Ho). case_bool_decide as Hst.
  - exists o, s. rewrite (mark_dispatched_run _ _ _ _ Ho), bool_decide_true, decide_True by done.
    split_and!; try done; [lia|by auto|]. intros k'. by case_decide; subst.
  - eexists _, _. split; [done|].
    assert (forall o', ob_id o' = k -> forall k', get_outbox (put_outbox o' s) k' =
              if decide (k' = k) then Some o' else get_outbox s k') as Hg.
    { intros o' <- k'. apply dict_get_set. }
    erewrite mark_dispatched_run; [|rewrite Hg by done; by rewrite decide_True].
    rewrite decide_False by done. split_and!; try done; [by auto|]. by apply Hg.
Qed.

(** [begin] never reuses an id: in every state the store reaches it returns
    an open unit of work under a new key and keeps all existing ones. *)
Theorem begin_is_fresh s run now :
  uow_keyed s ->
  exists u, begin run now s = (Ok u, put_uow u s) /\ uow_status u = UOW_OPEN /\
    dict_get (unit_of_work_records s) (uow_id u) = None /\
    forall k v, dict_get (unit_of_work_records s) k = Some v ->
      dict_get (unit_of_work_records (put_uow u s)) k = Some v.
Proof.
  intros Hwf. eexists. split; [reflexivity|]. cbn. split; [done|].
  set (key := "uow:" +:+ _). assert (dict_get (unit_of_work_records s) key = None) as Hnew.
  { destruct (dict_get _ key) as [v|] eqn:E; [|done].
    destruct (Hwf _ _ E) as (_ & r & n & Hk & ?).
    apply (numbered_ref_inj "uow:") in Hk as [_ <-]. lia. }
  split; [done|]. intros k v Hk. rewrite dict_get_set_ne; [done|]. congruence.
Qed.

(** [commit] copies the record without validating it: a unit of work that was
    begun and committed violates [UnitOfWorkRecord]'s own validator. *)
Theorem commit_breaks_contract run now :
  exists u, fst (bind (begin run now) (fun u => commit (uow_id u)) empty_backing) = Ok u /\
    uow_status u = UOW_COMMITTED /\ is_ok (validate_unit_of_work u) = false.
Proof.
  assert (exists u, begin run now empty_backing = (Ok u, put_uow u empty_backing) /\
            uow_command_record_refs u = [] /\ uow_event_refs u = []) as (u & E & Hc & He)
    by (eexists; split; [reflexivity|done]).
  unfold bind. rewrite E. unfold commit. rewrite getitem_cases.
  assert (dict_get (unit_of_work_records (put_uow u empty_backing)) (uow_id u) = Some u) as ->
    by apply dict_get_set_eq.
  eexists. split; [reflexivity|]. split; [done|].
  unfold validate_unit_of_work. simpl. by rewrite Hc, He.
Qed.

(** The identity joins its four parts with a bar, which the parts may contain:
    two different commands can share an identity, and the second is answered
    with the first one's result. *)
Example identity_collision :
  command_identity "a|b" "c" "d" "k" = command_identity "a" "b|c" "d" "k".
Proof. reflexivity. Qed.

(** ** Witnesses *)

Definition w_command : CommandEnvelope :=
  {| ce_id := "cmd-1"; ce_command_type := "start"; ce_target_aggregate_type := "run";
     ce_target_aggregate_id := "r1"; ce_expected_version := None; ce_idempotency_key := "k1";
     ce_actor_ref := "actor"; ce_precondition_refs := []; ce_policy_decision_refs := [];
     ce_approval_decision_refs := []; ce_payload_ref := "payload"; ce_status := CS_ACCEPTED;
     ce_created_at := 0 |}.
Definition w_handle := handle_command w_command "r1" "obj" "plan" "started" ["out"] Z.of_nat.
Definition w_store : Store := snd (w_handle empty_backing).

Definition w_call : StoreCall := CallHandle w_command "r1" "obj" "plan" "started" ["out"] Z.of_nat.

(** Another command of the run, its event dispatched, and a record of a third. *)
Definition w_other : CommandEnvelope :=
  {| ce_id := "cmd-2"; ce_command_type := "stop"; ce_target_aggregate_type := "run";
     ce_target_aggregate_id := "r1"; ce_expected_version := None; ce_idempotency_key := "k2";
     ce_actor_ref := "actor"; ce_precondition_refs := []; ce_policy_decision_refs := [];
     ce_approval_decision_refs := []; ce_payload_ref := "payload"; ce_status := CS_ACCEPTED;
     ce_created_at := 0 |}.
Definition w_calls : list StoreCall :=
  [CallHandle w_other "r1" "obj" "plan" "stopped" [] Z.of_nat; CallOutboxDispatched "outbox:cmd-1" "t1"; CallRollback "none" "reason"].

Lemma handle_command_commits_witness :
  exists record result outbox event s', w_handle empty_backing = (Ok (record, result, outbox, false), s') /\ stream_events s' "r1" = [event].
Proof.
  destruct (handle_command_commits w_command "r1" "obj" "plan" "started" ["out"] Z.of_nat empty_backing eq_refl)
    as (record & result & outbox & event & s' & E & _ & _ & _ & _ & _ & H & _).
  exists record, result, outbox, event, s'. split; [exact E|]. rewrite H. reflexivity.
Defined.

Lemma command_replay_is_idempotent_witness :
  exists duplicate result outbox, w_handle (after w_calls w_store) = (Ok (duplicate, result, outbox, true), after w_calls w_store).
Proof.
  destruct (w_handle empty_backing) as [[[[[record result] outbox] []]|e] s1] eqn:E;
    try (vm_compute in E; discriminate E).
  assert (s1 = w_store) as -> by (unfold w_store; rewrite E; reflexivity).
  destruct (command_replay_is_idempotent w_command "r1" "obj" "plan" "started" ["out"] Z.of_nat
    empty_backing record result outbox w_store w_calls w_command "r1" "obj" "plan" "started" ["out"] Z.of_nat)
    as (dup & outbox' & H & _); [exact E|repeat constructor; discriminate|reflexivity|].
  exists dup, result, outbox'. exact H.
Defined.

Lemma event_logs_append_only_and_gap_free_witness :
  Forall unforced ([w_call] ++ w_calls) /\ numbered "r1" (stream_events (after ([w_call] ++ w_calls) empty_backing) "r1") /\ length (stream_events (after ([w_call] ++ w_calls) empty_backing) "r1") = 2%nat.
Proof.
  assert (Forall unforced ([w_call] ++ w_calls)) as Hc by (repeat constructor).
  split; [exact Hc|]. split; [|reflexivity].
  apply (event_logs_append_only_and_gap_free [w_call] w_calls "r1" 0 Hc).
Defined.

Lemma outbox_dispatch_idempotent_witness :
  exists o s', mark_outbox_dispatched "outbox:cmd-1" "t1" w_store = (Ok o, s') /\ mark_outbox_dispatched "outbox:cmd-1" "t2" s' = (Ok o, s').
Proof.
  destruct (get_outbox w_store "outbox:cmd-1") as [o|] eqn:E; [|vm_compute in E; discriminate E].
  destruct (outbox_dispatch_idempotent w_store "outbox:cmd-1" "t1" "t2" o
              (after_outbox_keyed [w_call]) E) as (o' & s' & H1 & H2 & _).
  exists o', s'. split; assumption.
Defined.

Lemma begin_is_fresh_witness :
  exists u, begin "r1" 0 w_store = (Ok u, put_uow u w_store).
Proof.
  destruct (begin_is_fresh w_store "r1" 0 (after_uow_keyed [w_call])) as (u & H & _). exists u. exact H.
Defined.
