(* ===== verification/Scheduler.v ===== *)
(** * The frontier scheduler

    [scheduler/runtime.py]: priority leasing with fencing tokens, heartbeat,
    completion, release, expiry with bounded retries, and the recovery report.
    Theorems: what is leased, that a stale lease can do nothing, mutual
    exclusion of leases over all runs of the protocol, the retry bound, and
    that the recovery report is always well formed. *)
From stdpp Require Import sorting.
From S2P Require Import Prelude PyDict PyList PyStr Contracts DurableStore.
Local Open Scope Z_scope.

Definition enqueue_frontier_item (item_id run_ref source_ref : Ref) (priority max_attempts : Z)
    (policy_decision_refs : option (list Ref)) (now : Z) : M Store FrontierItem :=
  let* item := lift (validate_frontier_item
    {| fi_id := item_id; fi_run_ref := run_ref; fi_source_ref := source_ref;
       fi_priority := priority; fi_status := FI_QUEUED; fi_attempt_count := 0;
       fi_max_attempts := max_attempts;
       fi_policy_decision_refs := default [] policy_decision_refs; fi_lease_ref := None;
       fi_result_refs := []; fi_last_error_ref := None; fi_failure_refs := [];
       fi_created_at := now |}) in
  do* save_frontier_item item in
  ret item.

Definition eligible (item : FrontierItem) : bool :=
  bool_decide (fi_status item = FI_QUEUED \/ fi_status item = FI_RETRYING).

(** The key [(-priority, id)] of [sorted], compared as a tuple. *)
Definition lease_order (a b : FrontierItem) : bool :=
  (- fi_priority a <? - fi_priority b)
  || ((- fi_priority a =? - fi_priority b) && String.leb (fi_id a) (fi_id b)).

Definition lease_id (item_id : Ref) (n : Z) : Ref := "lease:" +:+ item_id +:+ ":" +:+ pretty n.
Definition lease_token (item_id : Ref) (n : Z) : Ref :=
  "lease-token:" +:+ item_id +:+ ":" +:+ pretty n.

Definition lease_next_frontier_item (run_ref holder_ref expires_at_ref : Ref) (now : Z)
    : M Store (option (FrontierItem * QueueLease)) :=
  let* items := gets (fun s => filter (fun i => eligible i = true)
                                      (list_frontier_items s (Some run_ref))) in
  match py_sorted lease_order items with
  | [] => ret None
  | item :: _ =>
      let* lease := lift (validate_lease
        {| ql_id := lease_id (fi_id item) (fi_attempt_count item + 1);
           ql_frontier_item_ref := fi_id item; ql_run_ref := run_ref;
           ql_lease_token_ref := lease_token (fi_id item) (fi_attempt_count item + 1);
           ql_holder_ref := holder_ref; ql_status := QL_ACTIVE;
           ql_expires_at_ref := expires_at_ref; ql_heartbeat_ref := None;
           ql_completed_at_ref := None; ql_released_at_ref := None;
           ql_expiry_reason_ref := None; ql_replaced_by_lease_ref := None;
           ql_created_at := now |}) in
      do* save_queue_lease lease in
      let* leased_item := mark_frontier_item_status item FI_LEASED (Some (ql_id lease)) None None
                            None (Some (fi_attempt_count item + 1)) in
      ret (Some (leased_item, lease))
  end.

Definition require_active_lease (lease_ref lease_token_ref : Ref) : M Store QueueLease :=
  let* lease := gets (fun s => get_queue_lease s lease_ref) in
  let refuse (tag msg : string) : M Store QueueLease :=
    do* record_invalid_lease_ref ("invalid-lease:" +:+ lease_ref +:+ ":" +:+ tag) in
    raise (LeaseTokenError msg) in
  match lease with
  | None => refuse lease_token_ref ("invalid lease token for " +:+ lease_ref)
  | Some lease =>
      if negb (bool_decide (ql_lease_token_ref lease = lease_token_ref)) then
        refuse lease_token_ref ("invalid lease token for " +:+ lease_ref)
      else if negb (bool_decide (ql_status lease = QL_ACTIVE)) then
        refuse (QueueLeaseStatus_value (ql_status lease))
               ("lease " +:+ lease_ref +:+ " is not active")
      else ret lease
  end.

Definition heartbeat_lease (lease_ref lease_token_ref heartbeat_ref : Ref) : M Store QueueLease :=
  let* lease := require_active_lease lease_ref lease_token_ref in
  let* heartbeated := mark_queue_lease_status lease QL_HEARTBEAT_RECORDED (Some heartbeat_ref)
                        None None None None in
  let active := ql_copy heartbeated QL_ACTIVE (ql_heartbeat_ref heartbeated)
                  (ql_completed_at_ref heartbeated) (ql_released_at_ref heartbeated)
                  (ql_expiry_reason_ref heartbeated) (ql_replaced_by_lease_ref heartbeated) in
  do* save_queue_lease active in
  ret active.

Definition unknown_frontier_item {A} (item_ref : Ref) : M Store A :=
  raise (ValueError ("unknown frontier item: " +:+ item_ref)).

Definition complete_frontier_item (item_ref lease_ref lease_token_ref : Ref)
    (result_refs : list Ref) : M Store (FrontierItem * QueueLease) :=
  let* lease := require_active_lease lease_ref lease_token_ref in
  let* item := gets (fun s => get_frontier_item s item_ref) in
  match item with
  | None => unknown_frontier_item item_ref
  | Some item =>
      let* completed_lease := mark_queue_lease_status lease QL_COMPLETED None
        (Some ("clock:" +:+ ql_id lease +:+ ":completed")) None None None in
      let* completed_item := mark_frontier_item_status item FI_COMPLETED None
        (Some result_refs) None None None in
      ret (completed_item, completed_lease)
  end.

Definition release_frontier_item (item_ref lease_ref lease_token_ref : Ref)
    : M Store (FrontierItem * QueueLease) :=
  let* lease := require_active_lease lease_ref lease_token_ref in
  let* item := gets (fun s => get_frontier_item s item_ref) in
  match item with
  | None => unknown_frontier_item item_ref
  | Some item =>
      let* released_lease := mark_queue_lease_status lease QL_RELEASED None None
        (Some ("clock:" +:+ ql_id lease +:+ ":released")) None None in
      let* released_item := mark_frontier_item_status item FI_QUEUED (Some (ql_id lease))
        None None None None in
      ret (released_item, released_lease)
  end.

Definition expire_lease (lease_ref reason_ref : Ref) : M Store (FrontierItem * QueueLease) :=
  let* lease := gets (fun s => get_queue_lease s lease_ref) in
  match lease with
  | None => raise (ValueError ("unknown lease: " +:+ lease_ref))
  | Some lease =>
      let* item := gets (fun s => get_frontier_item s (ql_frontier_item_ref lease)) in
      match item with
      | None => unknown_frontier_item (ql_frontier_item_ref lease)
      | Some item =>
          let* expired := mark_queue_lease_status lease QL_EXPIRED None None None
                            (Some reason_ref) None in
          let next_status := if fi_attempt_count item <? fi_max_attempts item
                             then FI_RETRYING else FI_DEAD_LETTERED in
          let failures := if decide (next_status = FI_DEAD_LETTERED) then [reason_ref] else [] in
          let* updated_item := mark_frontier_item_status item next_status None None
                                 (Some failures) (Some reason_ref) None in
          ret (updated_item, expired)
      end
  end.

Definition scheduler_recovery_report (s : Store) (run_ref report_id : Ref) (now : Z)
    : res SchedulerRecoveryReport :=
  let expired := ql_id <$> filter (fun l => ql_status l = QL_EXPIRED)
                                  (list_queue_leases s (Some run_ref)) in
  let retry_items := fi_id <$> filter (fun i => fi_status i = FI_RETRYING)
                                      (list_frontier_items s (Some run_ref)) in
  let dead_letters := fi_id <$> filter (fun i => fi_status i = FI_DEAD_LETTERED)
                                       (list_frontier_items s (Some run_ref)) in
  let invalid := list_invalid_lease_refs s in
  let '(result, operator_status) :=
    if truthy_list invalid || truthy_list dead_letters
    then (FAIL, if truthy_list invalid then "invalid_lease" else "dead_letter")
    else if truthy_list expired || truthy_list retry_items
    then (NEEDS_REVIEW, "stale_lease")
    else (PASS, "scheduler_recovered") in
  validate_report
    {| sr_id := report_id; sr_run_ref := run_ref; sr_expired_lease_refs := expired;
       sr_retry_frontier_item_refs := retry_items; sr_dead_letter_refs := dead_letters;
       sr_invalid_lease_refs := invalid; sr_operator_status := operator_status;
       sr_completeness_result := result; sr_created_at := now |}.

(** ** Closed forms of the operations *)

Definition put_lease (l : QueueLease) (s : Store) : Store :=
  set_leases (fun d => dict_set d (ql_id l) l) id s.
Definition put_item (i : FrontierItem) (s : Store) : Store :=
  set_frontier (fun d => dict_set d (fi_id i) i) s.
Definition note_invalid (r : Ref) (s : Store) : Store := set_leases id (fun l => l ++ [r]) s.

Lemma get_frontier_put_lease l s k : get_frontier_item (put_lease l s) k = get_frontier_item s k.
Proof. done. Qed.
Lemma get_frontier_put_item i s k :
  get_frontier_item (put_item i s) k = if decide (k = fi_id i) then Some i else get_frontier_item s k.
Proof. apply dict_get_set. Qed.
Lemma get_lease_put_item i s k : get_queue_lease (put_item i s) k = get_queue_lease s k.
Proof. done. Qed.
Lemma get_lease_put_lease l s k :
  get_queue_lease (put_lease l s) k = if decide (k = ql_id l) then Some l else get_queue_lease s k.
Proof. apply dict_get_set. Qed.
Lemma get_frontier_note r s k : get_frontier_item (note_invalid r s) k = get_frontier_item s k.
Proof. done. Qed.
Lemma get_lease_note r s k : get_queue_lease (note_invalid r s) k = get_queue_lease s k.
Proof. done. Qed.
Create Rewrite HintDb store.
#[export] Hint Rewrite get_frontier_put_lease get_frontier_put_item get_lease_put_item
  get_lease_put_lease get_frontier_note get_lease_note : store.

(** What [require_active_lease] does: return the lease unchanged, or record
    one invalid reference and raise. *)
Lemma require_active_lease_spec ref tok s :
  (exists l, get_queue_lease s ref = Some l /\ ql_lease_token_ref l = tok /\
     ql_status l = QL_ACTIVE /\ require_active_lease ref tok s = (Ok l, s)) \/
  (exists tag msg, require_active_lease ref tok s =
     (Raise (LeaseTokenError msg), note_invalid ("invalid-lease:" +:+ ref +:+ ":" +:+ tag) s) /\
     forall l, get_queue_lease s ref = Some l -> ql_lease_token_ref l = tok ->
               ql_status l <> QL_ACTIVE).
Proof.
  unfold require_active_lease, gets, bind.
  destruct (get_queue_lease s ref) as [l|] eqn:El; [|right; by eexists _, _].
  case_bool_decide as Ht; simpl.
  - case_bool_decide as Ha; simpl; [left; by eexists|].
    right. eexists _, _. split; [done|]. intros l' [= <-] _. done.
  - right. eexists _, _. split; [done|]. intros l' [= <-]. done.
Qed.

(** The item the scheduler serves first: eligible, of maximal priority, and
    least id among those. *)
Definition served_first (s : Store) (run : Ref) (i : FrontierItem) : Prop :=
  i ∈ list_frontier_items s (Some run) /\ eligible i = true /\
  forall j, j ∈ list_frontier_items s (Some run) -> eligible j = true ->
    fi_priority j < fi_priority i \/
    (fi_priority j = fi_priority i /\ String.leb (fi_id i) (fi_id j) = true).

Lemma lease_order_total a b : lease_order a b = false -> lease_order b a = true.
Proof.
  unfold lease_order. rewrite orb_false_iff, andb_false_iff, orb_true_iff, andb_true_iff,
    Z.ltb_ge, Z.eqb_neq, Z.ltb_lt, Z.eqb_eq.
  intros [H1 [H2|H2]]; [left; lia|].
  destruct (String.leb_total (fi_id a) (fi_id b)) as [?|?]; [congruence|].
  destruct (decide (fi_priority a = fi_priority b)); [right|left]; [split; [lia|done]|lia].
Qed.

Lemma lease_order_trans a b c :
  lease_order a b = true -> lease_order b c = true -> lease_order a c = true.
Proof.
  unfold lease_order. rewrite !orb_true_iff, !andb_true_iff, !Z.ltb_lt, !Z.eqb_eq.
  intros [H1|[H1 L1]] [H2|[H2 L2]]; [left; lia..|]. right. split; [lia|].
  pose proof (String.le_po) as [[_ Ht] _]. unfold String.le in Ht.
  apply Is_true_true. eapply Ht; by apply Is_true_true.
Qed.

Lemma lease_order_served a b :
  lease_order a b = true ->
  fi_priority b < fi_priority a \/
  (fi_priority b = fi_priority a /\ String.leb (fi_id a) (fi_id b) = true).
Proof.
  unfold lease_order. rewrite orb_true_iff, andb_true_iff, Z.ltb_lt, Z.eqb_eq.
  intros [?|[? ?]]; [left; lia|right; split; [lia|done]].
Qed.

Lemma sorted_eligible_head s run i rest :
  py_sorted lease_order (filter (fun i => eligible i = true) (list_frontier_items s (Some run)))
    = i :: rest -> served_first s run i.
Proof.
  intros E. destruct (py_sorted_head _ lease_order_total lease_order_trans _ _ _ E) as [Hi Hmin].
  apply list_elem_of_filter in Hi as [Hel Hin]. split_and!; [done..|].
  intros j Hj Hej. destruct (Hmin j) as [->|Ho]; [by apply list_elem_of_filter| |].
  - right. split; [done|]. by destruct (String.leb_total (fi_id i) (fi_id i)).
  - by apply lease_order_served.
Qed.

Definition new_lease (i : FrontierItem) (run holder exp : Ref) (now : Z) : QueueLease :=
  {| ql_id := lease_id (fi_id i) (fi_attempt_count i + 1);
     ql_frontier_item_ref := fi_id i; ql_run_ref := run;
     ql_lease_token_ref := lease_token (fi_id i) (fi_attempt_count i + 1);
     ql_holder_ref := holder; ql_status := QL_ACTIVE; ql_expires_at_ref := exp;
     ql_heartbeat_ref := None; ql_completed_at_ref := None; ql_released_at_ref := None;
     ql_expiry_reason_ref := None; ql_replaced_by_lease_ref := None; ql_created_at := now |}.

Definition leased (i : FrontierItem) : FrontierItem :=
  fi_copy i FI_LEASED (Some (lease_id (fi_id i) (fi_attempt_count i + 1))) (fi_result_refs i)
    (fi_failure_refs i) (fi_last_error_ref i) (fi_attempt_count i + 1).

(** Leasing never raises; it serves [served_first] or finds nothing eligible. *)
Lemma lease_next_spec run holder exp now s :
  (lease_next_frontier_item run holder exp now s = (Ok None, s) /\
   forall j, j ∈ list_frontier_items s (Some run) -> eligible j = false) \/
  (exists i, served_first s run i /\
   lease_next_frontier_item run holder exp now s =
     (Ok (Some (leased i, new_lease i run holder exp now)),
      put_item (leased i) (put_lease (new_lease i run holder exp now) s))).
Proof.
  unfold lease_next_frontier_item, gets, bind.
  destruct (py_sorted _ _) as [|i rest] eqn:E.
  - left. split; [done|]. intros j Hj. destruct (eligible j) eqn:Ej; [|done].
    apply py_sorted_nil in E.
    assert (j ∈ filter (fun i => eligible i = true) (list_frontier_items s (Some run))) as Hin
      by (by apply list_elem_of_filter).
    rewrite E in Hin. by apply elem_of_nil in Hin.
  - right. exists i. split; [by eapply sorted_eligible_head|]. done.
Qed.

Definition finish (l : QueueLease) (st : QueueLeaseStatus) (completed released expiry : option Ref)
    : QueueLease :=
  ql_copy l st (ql_heartbeat_ref l) (or_else completed (ql_completed_at_ref l))
    (or_else released (ql_released_at_ref l)) (or_else expiry (ql_expiry_reason_ref l))
    (ql_replaced_by_lease_ref l).

Definition expired_item (i : FrontierItem) (reason : Ref) : FrontierItem :=
  let next := if fi_attempt_count i <? fi_max_attempts i then FI_RETRYING else FI_DEAD_LETTERED in
  fi_copy i next (fi_lease_ref i) (fi_result_refs i)
    (if decide (next = FI_DEAD_LETTERED) then [reason] else []) (Some reason) (fi_attempt_count i).

(** A successful scheduler operation on a lease replaces that lease and one
    item, and touches nothing else. *)
Lemma complete_run item_ref ref tok results s l i :
  require_active_lease ref tok s = (Ok l, s) -> get_frontier_item s item_ref = Some i ->
  let l' := finish l QL_COMPLETED (Some ("clock:" +:+ ql_id l +:+ ":completed")) None None in
  let i' := fi_copy i FI_COMPLETED (fi_lease_ref i) results (fi_failure_refs i)
              (fi_last_error_ref i) (fi_attempt_count i) in
  complete_frontier_item item_ref ref tok results s =
    (Ok (i', l'), put_item i' (put_lease l' s)).
Proof. intros Hr Hi. unfold complete_frontier_item, bind at 1. rewrite Hr. unfold bind, gets. by rewrite Hi. Qed.

Lemma release_run item_ref ref tok s l i :
  require_active_lease ref tok s = (Ok l, s) -> get_frontier_item s item_ref = Some i ->
  let l' := finish l QL_RELEASED None (Some ("clock:" +:+ ql_id l +:+ ":released")) None in
  let i' := fi_copy i FI_QUEUED (Some (ql_id l)) (fi_result_refs i) (fi_failure_refs i)
              (fi_last_error_ref i) (fi_attempt_count i) in
  release_frontier_item item_ref ref tok s = (Ok (i', l'), put_item i' (put_lease l' s)).
Proof. intros Hr Hi. unfold release_frontier_item, bind at 1. rewrite Hr. unfold bind, gets. by rewrite Hi. Qed.

Lemma expire_run ref reason s l i :
  get_queue_lease s ref = Some l -> get_frontier_item s (ql_frontier_item_ref l) = Some i ->
  let l' := finish l QL_EXPIRED None None (Some reason) in
  expire_lease ref reason s =
    (Ok (expired_item i reason, l'), put_item (expired_item i reason) (put_lease l' s)).
Proof. intros Hl Hi. unfold expire_lease, bind, gets. rewrite Hl. simpl. by rewrite Hi. Qed.

Lemma heartbeat_run ref tok hb s l :
  require_active_lease ref tok s = (Ok l, s) ->
  exists l1 l2, heartbeat_lease ref tok hb s = (Ok l2, put_lease l2 (put_lease l1 s)) /\
    ql_id l1 = ql_id l /\
    l2 = ql_copy l QL_ACTIVE (Some hb) (ql_completed_at_ref l) (ql_released_at_ref l)
           (ql_expiry_reason_ref l) (ql_replaced_by_lease_ref l).
Proof. intros Hr. unfold heartbeat_lease, bind at 1. rewrite Hr. by eexists _, _. Qed.

Lemma enqueue_run item run src prio maxa pol now s :
  (exists i, enqueue_frontier_item item run src prio maxa pol now s = (Ok i, put_item i s) /\
     fi_id i = item /\ fi_status i = FI_QUEUED /\ fi_attempt_count i = 0 /\ 1 <= fi_max_attempts i) \/
  (exists e, enqueue_frontier_item item run src prio maxa pol now s = (Raise e, s)).
Proof.
  unfold enqueue_frontier_item, bind, lift, validate_frontier_item. cbn.
  destruct (Z.ltb_spec maxa 1); cbn; [right; by eexists|]. left. eexists. split_and!; done.
Qed.

(** ** The protocol as a step relation

    Callers are assumed to (1) enqueue fresh item ids, (2) complete or release
    the item that the lease names, (3) expire only active leases; the operations
    themselves check none of the three. [releases] says whether voluntary
    releases occur. *)

Inductive sched_step (releases : bool) : Store -> Store -> Prop :=
  | step_enqueue item run src prio maxa pol now s r s' :
      get_frontier_item s item = None ->
      enqueue_frontier_item item run src prio maxa pol now s = (r, s') ->
      sched_step releases s s'
  | step_lease run holder exp now s r s' :
      lease_next_frontier_item run holder exp now s = (r, s') ->
      sched_step releases s s'
  | step_heartbeat ref tok hb s r s' :
      heartbeat_lease ref tok hb s = (r, s') ->
      sched_step releases s s'
  | step_complete item ref tok results s r s' :
      (forall l, get_queue_lease s ref = Some l -> ql_frontier_item_ref l = item) ->
      complete_frontier_item item ref tok results s = (r, s') ->
      sched_step releases s s'
  | step_release item ref tok s r s' :
      releases = true ->
      (forall l, get_queue_lease s ref = Some l -> ql_frontier_item_ref l = item) ->
      release_frontier_item item ref tok s = (r, s') ->
      sched_step releases s s'
  | step_expire ref reason s r s' :
      (forall l, get_queue_lease s ref = Some l -> ql_status l = QL_ACTIVE) ->
      expire_lease ref reason s = (r, s') ->
      sched_step releases s s'.

(** Keys are ids, and every lease belongs to an attempt of an existing item. *)
Record sched_wf (s : Store) : Prop := {
  wf_dict : dict_wf (frontier_items s);
  wf_items : forall k i, get_frontier_item s k = Some i -> fi_id i = k;
  wf_leases : forall k l, get_queue_lease s k = Some l ->
    ql_id l = k /\
    exists i n, get_frontier_item s (ql_frontier_item_ref l) = Some i /\
      k = lease_id (ql_frontier_item_ref l) n /\ 1 <= n <= fi_attempt_count i;
  wf_attempts : forall k i, get_frontier_item s k = Some i -> 0 <= fi_attempt_count i }.

(** A leased item points to its one active lease; no other item has one. *)
Record exclusive (s : Store) : Prop := {
  ex_active : forall k l, get_queue_lease s k = Some l -> ql_status l = QL_ACTIVE ->
    exists i, get_frontier_item s (ql_frontier_item_ref l) = Some i /\
      fi_status i = FI_LEASED /\ fi_lease_ref i = Some k;
  ex_leased : forall k i, get_frontier_item s k = Some i -> fi_status i = FI_LEASED ->
    exists ref l, fi_lease_ref i = Some ref /\ get_queue_lease s ref = Some l /\
      ql_status l = QL_ACTIVE /\ ql_frontier_item_ref l = k }.

Lemma list_frontier_items_get s run i :
  sched_wf s -> i ∈ list_frontier_items s (Some run) ->
  get_frontier_item s (fi_id i) = Some i /\ fi_run_ref i = run.
Proof.
  intros Hwf [Hr Hv]%list_elem_of_filter.
  apply elem_of_dict_values in Hv as [k Hk]; [|apply Hwf].
  split; [|done]. by rewrite (wf_items _ Hwf _ _ Hk).
Qed.

Lemma lease_id_inj a1 a2 n1 n2 : lease_id a1 n1 = lease_id a2 n2 -> a1 = a2 /\ n1 = n2.
Proof. apply numbered_ref_inj. Qed.

(** [store_simpl] reduces lookups in an updated store, splitting on keys. *)
Ltac store_simpl :=
  repeat (autorewrite with store in *; case_decide); simplify_eq/=.

Lemma note_invalid_inv r s :
  sched_wf s /\ exclusive s -> sched_wf (note_invalid r s) /\ exclusive (note_invalid r s).
Proof. by intros [[] []]. Qed.

(** Closing an active lease together with its item. *)
Lemma close_wf s k l i l' i' :
  sched_wf s -> get_queue_lease s k = Some l ->
  get_frontier_item s (ql_frontier_item_ref l) = Some i ->
  ql_id l' = ql_id l -> ql_frontier_item_ref l' = ql_frontier_item_ref l ->
  fi_id i' = fi_id i -> fi_attempt_count i' = fi_attempt_count i ->
  sched_wf (put_item i' (put_lease l' s)).
Proof.
  intros Hwf Hl Hi Hid Href Hfid Hatt.
  destruct (wf_leases _ Hwf _ _ Hl) as (Hk & i0 & n & Hi0 & Hkn & Hn).
  pose proof (wf_items _ Hwf _ _ Hi) as Hfi. simplify_eq.
  split.
  - apply dict_set_wf. apply (wf_dict _ Hwf).
  - intros k' j. autorewrite with store. case_decide; [naive_solver|]. apply (wf_items _ Hwf).
  - intros k' j. autorewrite with store. case_decide as Hc.
    + intros [= <-]. split; [congruence|].
      exists i', n.
      rewrite Href, decide_True, Hatt by congruence. split_and!; [done|congruence|lia..].
    + intros Hj. destruct (wf_leases _ Hwf _ _ Hj) as (? & i1 & n1 & Hi1 & ? & ?).
      split; [done|]. destruct (decide (ql_frontier_item_ref j = fi_id i')) as [He|].
      * exists i', n1. split_and!; [done|done| |]; rewrite ?Hatt; [lia|].
        assert (i1 = i) as -> by congruence. lia.
      * exists i1, n1. auto.
  - intros k' j. autorewrite with store. case_decide.
    + intros [= <-]. rewrite Hatt. by apply (wf_attempts _ Hwf _ _ Hi).
    + apply (wf_attempts _ Hwf).
Qed.

Lemma close_exclusive s k l i l' i' :
  sched_wf s -> exclusive s -> get_queue_lease s k = Some l -> ql_status l = QL_ACTIVE ->
  get_frontier_item s (ql_frontier_item_ref l) = Some i ->
  ql_id l' = ql_id l -> ql_status l' <> QL_ACTIVE ->
  fi_id i' = fi_id i -> fi_status i' <> FI_LEASED ->
  exclusive (put_item i' (put_lease l' s)).
Proof.
  intros Hwf Hex Hl Hact Hi Hid Hact' Hfid Hst.
  destruct (wf_leases _ Hwf _ _ Hl) as (Hk & _).
  pose proof (wf_items _ Hwf _ _ Hi) as Hfi.
  destruct (ex_active _ Hex _ _ Hl Hact) as (i0 & Hi0 & _ & Hlr). simplify_eq.
  split.
  - intros k' j. autorewrite with store. case_decide; [naive_solver|]. intros Hj Hja.
    destruct (ex_active _ Hex _ _ Hj Hja) as (i1 & Hi1 & Hs1 & Hr1).
    exists i1. rewrite decide_False; [done|]. intros He.
    assert (i1 = i) as -> by congruence. congruence.
  - intros k' j. autorewrite with store. case_decide; [naive_solver|]. intros Hj Hjl.
    destruct (ex_leased _ Hex _ _ Hj Hjl) as (ref & l1 & Hr1 & Hl1 & Ha1 & Hf1).
    exists ref, l1. split; [done|]. autorewrite with store. rewrite decide_False; [done|].
    intros ->. assert (l1 = l) as -> by congruence. congruence.
Qed.

Lemma close_inv s k l i l' i' :
  sched_wf s /\ exclusive s -> get_queue_lease s k = Some l -> ql_status l = QL_ACTIVE ->
  get_frontier_item s (ql_frontier_item_ref l) = Some i ->
  ql_id l' = ql_id l -> ql_frontier_item_ref l' = ql_frontier_item_ref l ->
  ql_status l' <> QL_ACTIVE ->
  fi_id i' = fi_id i -> fi_attempt_count i' = fi_attempt_count i -> fi_status i' <> FI_LEASED ->
  sched_wf (put_item i' (put_lease l' s)) /\ exclusive (put_item i' (put_lease l' s)).
Proof. intros [] **. split; [by eapply close_wf|by eapply close_exclusive]. Qed.


Lemma lease_inv s run holder exp now i :
  sched_wf s /\ exclusive s -> served_first s run i ->
  let s' := put_item (leased i) (put_lease (new_lease i run holder exp now) s) in
  sched_wf s' /\ exclusive s'.
Proof.
  intros [Hwf Hex] (Hin & Hel & _). apply list_frontier_items_get in Hin as [Hi Hr]; [|done].
  assert (fi_status i <> FI_LEASED) as Hnl.
  { unfold eligible in Hel. apply bool_decide_eq_true in Hel. intros E. rewrite E in Hel. naive_solver. }
  assert (forall l, get_queue_lease s (lease_id (fi_id i) (fi_attempt_count i + 1)) = Some l -> False)
    as Hfresh.
  { intros l Hl. destruct (wf_leases _ Hwf _ _ Hl) as (_ & i0 & n & Hi0 & Hk & Hn).
    apply lease_id_inj in Hk as [He ?]. rewrite <-He in Hi0. simplify_eq. lia. }
  pose proof (wf_attempts _ Hwf _ _ Hi) as Hatt. simpl. split; split.
  - apply dict_set_wf. apply (wf_dict _ Hwf).
  - intros k j. autorewrite with store. case_decide; [naive_solver|]. apply (wf_items _ Hwf).
  - intros k j. autorewrite with store. case_decide as Hc.
    + intros [= <-]. split; [done|]. exists (leased i), (fi_attempt_count i + 1). simpl.
      rewrite decide_True by done. split_and!; [done|done|lia..].
    + intros Hj. destruct (wf_leases _ Hwf _ _ Hj) as (? & i1 & n1 & Hi1 & ? & ?).
      split; [done|]. simpl. destruct (decide (ql_frontier_item_ref j = fi_id i)) as [He|].
      * exists (leased i), n1. assert (i1 = i) as -> by congruence.
        split_and!; [done|done|simpl; lia..].
      * exists i1, n1. auto.
  - intros k j. autorewrite with store. case_decide; [intros [= <-]; simpl; lia|].
    apply (wf_attempts _ Hwf).
  - intros k j. autorewrite with store. case_decide as Hc.
    + intros [= <-] _. exists (leased i). simpl in *. rewrite decide_True by done.
      split_and!; [done|done|congruence].
    + intros Hj Hact. destruct (ex_active _ Hex _ _ Hj Hact) as (i1 & Hi1 & Hs1 & Hr1).
      exists i1. rewrite decide_False; [done|]. simpl. intros He.
      assert (i1 = i) as -> by congruence. congruence.
  - intros k j. autorewrite with store. case_decide as Hc.
    + intros [= <-] _. exists (lease_id (fi_id i) (fi_attempt_count i + 1)), (new_lease i run holder exp now).
      autorewrite with store. rewrite decide_True by done. done.
    + intros Hj Hjl. destruct (ex_leased _ Hex _ _ Hj Hjl) as (ref & l1 & Hr1 & Hl1 & Ha1 & Hf1).
      exists ref, l1. split; [done|]. autorewrite with store. rewrite decide_False; [done|].
      simpl. intros ->. by destruct (Hfresh _ Hl1).
Qed.

(** Rewriting a lease without changing its item, id or status. *)
Lemma relabel_inv s k l l' :
  sched_wf s /\ exclusive s -> get_queue_lease s k = Some l ->
  ql_id l' = ql_id l -> ql_frontier_item_ref l' = ql_frontier_item_ref l ->
  ql_status l' = ql_status l ->
  sched_wf (put_lease l' s) /\ exclusive (put_lease l' s).
Proof.
  intros [Hwf Hex] Hl Hid Href Hst. destruct (wf_leases _ Hwf _ _ Hl) as (Hk & Hw).
  split; split.
  - apply (wf_dict _ Hwf).
  - apply (wf_items _ Hwf).
  - intros k' j. autorewrite with store. case_decide; [|apply (wf_leases _ Hwf)].
    intros [= <-]. split; [congruence|]. rewrite Href. simplify_eq. by rewrite Hid.
  - apply (wf_attempts _ Hwf).
  - intros k' j. autorewrite with store. case_decide; [|apply (ex_active _ Hex)].
    intros [= <-] Ha. rewrite Href. apply (ex_active _ Hex); congruence.
  - intros k' j. autorewrite with store. intros Hj Hjl.
    destruct (ex_leased _ Hex _ _ Hj Hjl) as (ref & l1 & Hr1 & Hl1 & Ha1 & Hf1).
    exists ref. destruct (decide (ref = ql_id l')) as [->|].
    + exists l'. autorewrite with store. rewrite decide_True by done.
      assert (l1 = l) as -> by congruence. split_and!; congruence.
    + exists l1. autorewrite with store. rewrite decide_False by done. done.
Qed.

Lemma put_lease_twice l1 l2 s :
  ql_id l1 = ql_id l2 -> put_lease l2 (put_lease l1 s) = put_lease l2 s.
Proof. intros H. unfold put_lease, set_leases. simpl. by rewrite H, dict_set_set. Qed.

Lemma enqueue_inv s i :
  sched_wf s /\ exclusive s -> get_frontier_item s (fi_id i) = None ->
  fi_status i = FI_QUEUED -> fi_attempt_count i = 0 ->
  sched_wf (put_item i s) /\ exclusive (put_item i s).
Proof.
  intros [Hwf Hex] Hnew Hst Hatt. split; split.
  - apply dict_set_wf. apply (wf_dict _ Hwf).
  - intros k j. autorewrite with store. case_decide; [naive_solver|]. apply (wf_items _ Hwf).
  - intros k j Hj. destruct (wf_leases _ Hwf _ _ Hj) as (? & i1 & n1 & Hi1 & ? & ?).
    split; [done|]. exists i1, n1. autorewrite with store. rewrite decide_False by congruence. auto.
  - intros k j. autorewrite with store. case_decide; [intros [= <-]; lia|]. apply (wf_attempts _ Hwf).
  - intros k j Hj Hact. destruct (ex_active _ Hex _ _ Hj Hact) as (i1 & Hi1 & Hs1 & Hr1).
    exists i1. autorewrite with store. by rewrite decide_False by congruence.
  - intros k j. autorewrite with store. case_decide; [intros; simplify_eq; congruence|].
    apply (ex_leased _ Hex).
Qed.

(** Each step is one of five changes; the state invariants and the retry bound
    are proved by cases on it. *)
Inductive change (releases : bool) (s : Store) : Store -> Prop :=
  | ch_none : change releases s s
  | ch_note r : change releases s (note_invalid r s)
  | ch_enqueue i : get_frontier_item s (fi_id i) = None -> fi_status i = FI_QUEUED ->
      fi_attempt_count i = 0 -> 1 <= fi_max_attempts i -> change releases s (put_item i s)
  | ch_lease run holder exp now i : served_first s run i ->
      change releases s (put_item (leased i) (put_lease (new_lease i run holder exp now) s))
  | ch_relabel k l l' : get_queue_lease s k = Some l -> ql_id l' = ql_id l ->
      ql_frontier_item_ref l' = ql_frontier_item_ref l -> ql_status l' = ql_status l ->
      change releases s (put_lease l' s)
  | ch_close k l l' i i' : get_queue_lease s k = Some l -> ql_status l = QL_ACTIVE ->
      get_frontier_item s (ql_frontier_item_ref l) = Some i ->
      ql_id l' = ql_id l -> ql_frontier_item_ref l' = ql_frontier_item_ref l ->
      ql_status l' <> QL_ACTIVE -> fi_id i' = fi_id i ->
      fi_attempt_count i' = fi_attempt_count i -> fi_max_attempts i' = fi_max_attempts i ->
      fi_status i' <> FI_LEASED ->
      (releases = false -> eligible i' = true -> fi_attempt_count i < fi_max_attempts i) ->
      change releases s (put_item i' (put_lease l' s)).

Lemma sched_step_change b s s' : sched_wf s -> sched_step b s s' -> change b s s'.
Proof.
  intros Hwf Hs. destruct Hs as [item run src prio maxa pol now s r s' Hnew Hr
    |run holder exp now s r s' Hr|ref tok hb s r s' Hr|item ref tok results s r s' Hit Hr
    |item ref tok s r s' Hb Hit Hr|ref reason s r s' Hact Hr].
  - destruct (enqueue_run item run src prio maxa pol now s) as [(i & E & Hid & ? & ? & ?)|[e E]];
      rewrite E in Hr; simplify_eq; [|constructor]. by apply ch_enqueue.
  - destruct (lease_next_spec run holder exp now s) as [[E _]|(i & Hi & E)];
      rewrite E in Hr; simplify_eq; [constructor|by apply ch_lease].
  - destruct (require_active_lease_spec ref tok s) as [(l & Hl & _ & Ha & E)|(tag & msg & E & _)].
    + destruct (heartbeat_run _ _ hb _ _ E) as (l1 & l2 & E2 & H1 & H2).
      rewrite E2 in Hr. simplify_eq. rewrite put_lease_twice by done.
      by eapply ch_relabel.
    + unfold heartbeat_lease, bind in Hr. rewrite E in Hr. simplify_eq. constructor.
  - destruct (require_active_lease_spec ref tok s) as [(l & Hl & _ & Ha & E)|(tag & msg & E & _)].
    + pose proof (wf_leases _ Hwf _ _ Hl) as (_ & i & n & Hi & _). specialize (Hit _ Hl). subst item.
      rewrite (complete_run _ _ _ results _ _ _ E Hi) in Hr. simplify_eq.
      by eapply ch_close.
    + unfold complete_frontier_item, bind in Hr. rewrite E in Hr. simplify_eq. constructor.
  - destruct (require_active_lease_spec ref tok s) as [(l & Hl & _ & Ha & E)|(tag & msg & E & _)].
    + pose proof (wf_leases _ Hwf _ _ Hl) as (_ & i & n & Hi & _). specialize (Hit _ Hl). subst item b.
      rewrite (release_run _ _ _ _ _ _ E Hi) in Hr. simplify_eq.
      by eapply ch_close.
    + unfold release_frontier_item, bind in Hr. rewrite E in Hr. simplify_eq. constructor.
  - destruct (get_queue_lease s ref) as [l|] eqn:Hl.
    + pose proof (wf_leases _ Hwf _ _ Hl) as (_ & i & n & Hi & _).
      rewrite (expire_run _ reason _ _ _ Hl Hi) in Hr. simplify_eq.
      eapply ch_close; [done|by eauto|done..| |]; unfold expired_item; simpl;
        destruct (Z.ltb_spec (fi_attempt_count i) (fi_max_attempts i)); done.
    + unfold expire_lease, bind, gets, raise in Hr. rewrite Hl in Hr. simplify_eq. constructor.
Qed.

Lemma sched_step_inv b : preserved (sched_step b) (fun s => sched_wf s /\ exclusive s).
Proof.
  intros s s' Hs H. apply sched_step_change in Hs; [|apply H].
  destruct Hs; [done|by apply note_invalid_inv|by apply enqueue_inv|by apply lease_inv
    |by eapply relabel_inv|by eapply close_inv].
Qed.

Lemma empty_inv : sched_wf empty_backing /\ exclusive empty_backing.
Proof. split; split; try done. apply dict_empty_wf. Qed.

Lemma reach_inv b s : rtc (sched_step b) empty_backing s -> sched_wf s /\ exclusive s.
Proof.
  intros Hr. exact (rtc_preserved _ _ _ _ (sched_step_inv b) Hr empty_inv).
Qed.

(** An item never has more attempts than allowed, and waits for another lease
    only while it has one left. *)
Definition retry_bounded (s : Store) : Prop := forall k i, get_frontier_item s k = Some i ->
  fi_attempt_count i <= fi_max_attempts i /\
  (eligible i = true -> fi_attempt_count i < fi_max_attempts i).

Lemma change_retry_bounded s s' :
  sched_wf s -> change false s s' -> retry_bounded s -> retry_bounded s'.
Proof.
  intros Hwf Hc HI. destruct Hc as [|r|i Hn Hq Ha Hm|run holder exp now i Hi|
      k l l' Hl|k l l' i i' Hl Hla Hi Hid Href Hst Hfid Hatt Hmax Hfst Hel];
    intros k0 j; autorewrite with store; try apply HI.
  - case_decide; [intros [= <-]; lia|apply HI].
  - destruct Hi as (Hin & Hel & _). apply list_frontier_items_get in Hin as [Hi _]; [|done].
    case_decide; [intros [= <-]|apply HI]. destruct (HI _ _ Hi) as [_ Hb]. specialize (Hb Hel).
    simpl. split; [lia|done].
  - case_decide; [intros [= <-]|apply HI]. destruct (HI _ _ Hi) as [Hb _].
    rewrite Hatt, Hmax. split; [done|by apply Hel].
Qed.

(** [lease_next_frontier_item] never raises. It returns [None] and changes
    nothing exactly when the run has no queued or retrying item; otherwise it
    leases an item of maximal priority, least id among those, under a new
    active lease whose id and token carry the attempt number. *)
Theorem lease_next_serves_by_priority run holder exp now s :
  sched_wf s ->
  match lease_next_frontier_item run holder exp now s with
  | (Ok None, s') => s' = s /\ forall k j, get_frontier_item s k = Some j ->
      fi_run_ref j = run -> eligible j = false
  | (Ok (Some (i', l)), s') => exists i, served_first s run i /\
      i' = leased i /\ l = new_lease i run holder exp now /\
      get_frontier_item s' (fi_id i) = Some i' /\ get_queue_lease s' (ql_id l) = Some l /\
      forall k, k <> fi_id i -> get_frontier_item s' k = get_frontier_item s k
  | (Raise _, _) => False
  end.
Proof.
  intros Hwf. destruct (lease_next_spec run holder exp now s) as [[-> Hn]|(i & Hi & ->)].
  - split; [done|]. intros k j Hj Hr. apply Hn, list_elem_of_filter. split; [done|].
    apply elem_of_dict_values; [apply Hwf|by exists k].
  - exists i. autorewrite with store. rewrite !decide_True by done. split_and!; [done..|].
    intros k Hk. autorewrite with store. by rewrite decide_False.
Qed.

(** Fencing. A heartbeat, completion or release under an unknown lease, a
    wrong token or a lease that is no longer active raises [LeaseTokenError]
    and only records one invalid reference. *)
Theorem stale_lease_changes_nothing ref tok s :
  (forall l, get_queue_lease s ref = Some l ->
     ql_lease_token_ref l <> tok \/ ql_status l <> QL_ACTIVE) ->
  exists r msg, (forall hb, heartbeat_lease ref tok hb s =
      (Raise (LeaseTokenError msg), note_invalid r s)) /\
    (forall item results, complete_frontier_item item ref tok results s =
      (Raise (LeaseTokenError msg), note_invalid r s)) /\
    (forall item, release_frontier_item item ref tok s =
      (Raise (LeaseTokenError msg), note_invalid r s)).
Proof.
  intros Hbad. destruct (require_active_lease_spec ref tok s) as [(l & Hl & ? & ? & _)|(tag & msg & E & _)].
  - destruct (Hbad _ Hl); done.
  - eexists _, msg. unfold heartbeat_lease, complete_frontier_item, release_frontier_item, bind.
    rewrite E. done.
Qed.

(** C4: Mutual exclusion, for callers that keep to the protocol. In every state
    that calls of the scheduler's operations reach from an empty store, one at a
    time, two active leases of one item are the same lease, and an item is
    [leased] exactly when it has an active lease; provided that an item is
    enqueued under an id that is not yet taken, a lease completes or releases the
    item it is for, and only active leases are expired. The operations check none
    of the three; without them the property fails
    ([complete_accepts_another_items_lease], [expire_reopens_completed_item]). *)
Theorem one_active_lease_per_item b s :
  rtc (sched_step b) empty_backing s ->
  (forall r1 r2 l1 l2, get_queue_lease s r1 = Some l1 -> get_queue_lease s r2 = Some l2 ->
     ql_status l1 = QL_ACTIVE -> ql_status l2 = QL_ACTIVE ->
     ql_frontier_item_ref l1 = ql_frontier_item_ref l2 -> r1 = r2) /\
  (forall k i, get_frontier_item s k = Some i -> (fi_status i = FI_LEASED <->
     exists r l, get_queue_lease s r = Some l /\ ql_status l = QL_ACTIVE /\
                 ql_frontier_item_ref l = k)).
Proof.
  intros Hr. destruct (reach_inv _ _ Hr) as [_ Hex].
  split.
  - intros r1 r2 l1 l2 H1 H2 Ha1 Ha2 He.
    destruct (ex_active _ Hex _ _ H1 Ha1) as (i1 & Hi1 & _ & Hf1).
    destruct (ex_active _ Hex _ _ H2 Ha2) as (i2 & Hi2 & _ & Hf2). congruence.
  - intros k i Hi. split.
    + intros Hs. destruct (ex_leased _ Hex _ _ Hi Hs) as (r & l & _ & ?). by exists r, l.
    + intros (r & l & Hl & Ha & <-). destruct (ex_active _ Hex _ _ Hl Ha) as (i' & Hi' & Hs & _).
      congruence.
Qed.

(** Retry bound. Without voluntary releases an item is leased at most
    [max_attempts] times, whatever the order of enqueues, leases, heartbeats,
    completions and expiries. *)
Theorem attempts_bounded_without_release s :
  rtc (sched_step false) empty_backing s ->
  forall k i, get_frontier_item s k = Some i -> 0 <= fi_attempt_count i <= fi_max_attempts i.
Proof.
  intros Hr. assert ((sched_wf s /\ exclusive s) /\ retry_bounded s) as [[Hwf _] Hb].
  { eapply (rtc_preserved _ (fun s => (sched_wf s /\ exclusive s) /\ retry_bounded s));
      [|done|split; [apply empty_inv|done]].
    apply preserved_and; [apply sched_step_inv|]. intros s0 s1 Hs [Hwf _].
    eapply change_retry_bounded; [done|by apply sched_step_change]. }
  intros k i Hi. split; [by apply (wf_attempts _ Hwf k)|by apply (Hb k)].
Qed.

Lemma run_item_iff s run (P : FrontierItem -> Prop) :
  sched_wf s ->
  (forall i, i ∈ list_frontier_items s (Some run) -> P i) <->
  (forall k i, get_frontier_item s k = Some i -> fi_run_ref i = run -> P i).
Proof.
  intros Hwf. split.
  - intros H k i Hi Hr. apply H, list_elem_of_filter. split; [done|].
    apply elem_of_dict_values; [apply Hwf|by exists k].
  - intros H i Hi. apply list_frontier_items_get in Hi as [Hi Hr]; [|done]. by eapply H.
Qed.

(** The recovery report never raises on a well-formed store, and it passes
    exactly when no lease of the run is expired, none of its items waits for a
    retry or is dead-lettered, and no invalid lease was ever recorded (in any
    run); any recorded invalid lease makes it fail. *)
Theorem recovery_report_classifies s run id now :
  sched_wf s ->
  exists r, scheduler_recovery_report s run id now = Ok r /\
    (sr_completeness_result r = PASS <->
       invalid_lease_refs s = [] /\
       (forall l, l ∈ list_queue_leases s (Some run) -> ql_status l <> QL_EXPIRED) /\
       (forall k i, get_frontier_item s k = Some i -> fi_run_ref i = run ->
          fi_status i <> FI_RETRYING /\ fi_status i <> FI_DEAD_LETTERED)) /\
    (invalid_lease_refs s <> [] -> sr_completeness_result r = FAIL) /\
    sr_expired_lease_refs r = ql_id <$> filter (fun l => ql_status l = QL_EXPIRED)
                                             (list_queue_leases s (Some run)).
Proof.
  intros Hwf. unfold scheduler_recovery_report, list_invalid_lease_refs.
  pose proof (comprehension_nil ql_id (fun l => ql_status l = QL_EXPIRED)
                (list_queue_leases s (Some run))) as E1.
  pose proof (comprehension_nil fi_id (fun i => fi_status i = FI_RETRYING)
                (list_frontier_items s (Some run))) as E2.
  pose proof (comprehension_nil fi_id (fun i => fi_status i = FI_DEAD_LETTERED)
                (list_frontier_items s (Some run))) as E3.
  rewrite run_item_iff in E2, E3 by done. revert E1 E2 E3.
  destruct (invalid_lease_refs s), (ql_id <$> _),
    (fi_id <$> filter (fun i => fi_status i = FI_RETRYING) _),
    (fi_id <$> filter (fun i => fi_status i = FI_DEAD_LETTERED) _); csimpl;
    intros E1 E2 E3; (eexists; split; [done|]; csimpl; naive_solver).
Qed.

(** ** Witnesses: one item enqueued, leased, then completed *)

Definition w_enqueue := enqueue_frontier_item "item-a" "run" "src" 5 2 None 0.
Definition w_lease := lease_next_frontier_item "run" "worker" "exp" 1.
Definition w_complete :=
  complete_frontier_item "item-a" "lease:item-a:1" "lease-token:item-a:1" ["result"].
Definition w_queued : Store := snd (w_enqueue empty_backing).
Definition w_leased : Store := snd (w_lease w_queued).
Definition w_completed : Store := snd (w_complete w_leased).

Lemma w_reach b : rtc (sched_step b) empty_backing w_completed.
Proof.
  eapply (rtc_l _ _ w_queued); [|eapply (rtc_l _ _ w_leased); [|apply rtc_once]].
  - eapply step_enqueue; [|apply surjective_pairing]. done.
  - eapply step_lease. apply surjective_pairing.
  - eapply (step_complete _ "item-a" "lease:item-a:1" "lease-token:item-a:1" ["result"]);
      [|apply surjective_pairing].
    intros l Hl. vm_compute in Hl. by simplify_eq.
Qed.

Lemma w_queued_wf : sched_wf w_queued.
Proof.
  eapply (reach_inv false). apply rtc_once.
  eapply step_enqueue; [|apply surjective_pairing]. done.
Qed.

Lemma lease_next_serves_by_priority_witness :
  exists i s', lease_next_frontier_item "run" "worker" "exp" 1 w_queued =
    (Ok (Some (leased i, new_lease i "run" "worker" "exp" 1)), s') /\ served_first w_queued "run" i.
Proof.
  pose proof (lease_next_serves_by_priority "run" "worker" "exp" 1 w_queued w_queued_wf) as H.
  destruct (lease_next_frontier_item "run" "worker" "exp" 1 w_queued) as [[[[i' l]|]|e] s'] eqn:E.
  - destruct H as (i & Hi & -> & -> & _). by exists i, s'.
  - vm_compute in E. discriminate E.
  - destruct H.
Defined.

Lemma stale_lease_changes_nothing_witness :
  exists r msg, complete_frontier_item "item-a" "lease:item-a:1" "lease-token:item-a:1" [] w_completed
    = (Raise (LeaseTokenError msg), note_invalid r w_completed).
Proof.
  destruct (stale_lease_changes_nothing "lease:item-a:1" "lease-token:item-a:1" w_completed)
    as (r & msg & _ & H & _).
  - intros l Hl. vm_compute in Hl. simplify_eq. by right.
  - exists r, msg. apply H.
Defined.

Lemma one_active_lease_per_item_witness :
  exists i, get_frontier_item w_completed "item-a" = Some i /\
    ~ exists r l, get_queue_lease w_completed r = Some l /\ ql_status l = QL_ACTIVE /\
                  ql_frontier_item_ref l = "item-a".
Proof.
  destruct (one_active_lease_per_item true w_completed (w_reach true)) as [_ H].
  eexists. split; [vm_compute; reflexivity|]. rewrite <-(H "item-a"); [|vm_compute; reflexivity].
  discriminate.
Defined.

Lemma attempts_bounded_without_release_witness :
  exists i, get_frontier_item w_completed "item-a" = Some i /\
            0 <= fi_attempt_count i <= fi_max_attempts i.
Proof.
  eexists. split; [vm_compute; reflexivity|].
  apply (attempts_bounded_without_release w_completed (w_reach false) "item-a").
  vm_compute. reflexivity.
Defined.

Lemma recovery_report_classifies_witness :
  exists r, scheduler_recovery_report w_queued "run" "report" 9 = Ok r.
Proof.
  destruct (recovery_report_classifies w_queued "run" "report" 9 w_queued_wf) as (r & H & _).
  exists r. exact H.
Defined.

(** ** What the operations do not check *)

(** [expire_lease] does not look at the lease's status: expiring the lease of a
    completed item puts the item back in the queue. *)
Example expire_reopens_completed_item :
  fi_status <$> get_frontier_item w_completed "item-a" = Some FI_COMPLETED /\
  fi_status <$> get_frontier_item (snd (expire_lease "lease:item-a:1" "late" w_completed)) "item-a"
    = Some FI_RETRYING.
Proof. split; reflexivity. Qed.

(** [complete_frontier_item] does not check that the lease is the item's. *)
Example complete_accepts_another_items_lease :
  let s := snd (enqueue_frontier_item "item-b" "run" "src" 1 2 None 2 w_leased) in
  fi_status <$> get_frontier_item
    (snd (complete_frontier_item "item-b" "lease:item-a:1" "lease-token:item-a:1" ["r"] s)) "item-b"
    = Some FI_COMPLETED.
Proof. reflexivity. Qed.

(** A release gives the attempt back to the queue but keeps its count, so
    releases and leases alone take [attempt_count] beyond [max_attempts]. *)
Example releases_exceed_max_attempts :
  let cycle n s := snd (release_frontier_item "item-a" (lease_id "item-a" n)
                          (lease_token "item-a" n) (snd (w_lease s))) in
  (fun i => (fi_attempt_count i, fi_max_attempts i)) <$>
    get_frontier_item (cycle 3 (cycle 2 (cycle 1 w_queued))) "item-a" = Some (3, 2).
Proof. reflexivity. Qed.
