(* ===== verification/UrlLib.v ===== *)
(** * What [url.py] uses of the standard library

    [urllib.parse] ([urlsplit] and the attributes of its result,
    [urlunsplit], [parse_qsl], [unquote]) and [ipaddress.ip_address] on
    ASCII text, as in CPython 3.11-3.12. Two things come from the environment
    and are fields of [NetEnv]: name resolution, and the classification of
    IPv6 literals. *)
From Stdlib Require Import Ascii.
From S2P Require Import Prelude PyList PyStr.
Local Open Scope Z_scope.

(** The outcome of [socket.gethostbyname]: an address, [OSError], or the
    [UnicodeError] (a [ValueError]) of a host the idna codec rejects. *)
Inductive dns_result :=
  | Resolved (address : string)
  | DnsOSError
  | DnsValueError.

Record NetEnv := {
  gethostbyname : string -> dns_result;
  (** [Some b]: an IPv6 literal, [b] if any of its [is_private], [is_loopback],
      [is_link_local], [is_reserved], [is_multicast] holds. *)
  ipv6_address : string -> option bool }.

(** An environment without name resolution and without IPv6, for examples. *)
Definition offline : NetEnv := {| gethostbyname _ := DnsOSError; ipv6_address _ := None |}.

(** ** [ipaddress]: IPv4 *)

Definition parse_octet (s : string) : option Z :=
  if negb (isdigit s) then None
  else if (3 <? String.length s)%nat then None
  else if negb (bool_decide (s = "0")) && startswith "0" s then None
  else let n := int_of_digits s in if 255 <? n then None else Some n.

Definition ipv4_address (s : string) : option Z :=
  match mapM parse_octet (split_on "." s) with
  | Some [a; b; c; d] => Some (((a * 256 + b) * 256 + c) * 256 + d)
  | _ => None
  end.

(** A network [a.b.c.d/len] and membership. *)
Definition net (a b c d len : Z) : Z * Z := (((a * 256 + b) * 256 + c) * 256 + d, len).
Definition in_net (ip : Z) (n : Z * Z) : bool :=
  Z.shiftr ip (32 - n.2) =? Z.shiftr n.1 (32 - n.2).

Definition ipv4_private_networks : list (Z * Z) :=
  [net 0 0 0 0 8; net 10 0 0 0 8; net 127 0 0 0 8; net 169 254 0 0 16; net 172 16 0 0 12;
   net 192 0 0 0 24; net 192 0 0 170 31; net 192 0 2 0 24; net 192 168 0 0 16;
   net 198 18 0 0 15; net 198 51 100 0 24; net 203 0 113 0 24; net 240 0 0 0 4;
   net 255 255 255 255 32].

Definition ipv4_is_private (ip : Z) : bool :=
  existsb (in_net ip) ipv4_private_networks
  && forallb (fun n => negb (in_net ip n)) [net 192 0 0 9 32; net 192 0 0 10 32].
Definition ipv4_is_loopback (ip : Z) : bool := in_net ip (net 127 0 0 0 8).
Definition ipv4_is_link_local (ip : Z) : bool := in_net ip (net 169 254 0 0 16).
Definition ipv4_is_reserved (ip : Z) : bool := in_net ip (net 240 0 0 0 4).
Definition ipv4_is_multicast (ip : Z) : bool := in_net ip (net 224 0 0 0 4).

(** ** [urllib.parse.urlsplit] *)

Record SplitResult := {
  sr_scheme : string;
  sr_netloc : string;
  sr_path : string;
  sr_query : string;
  sr_fragment : string }.

Definition is_alpha (c : ascii) : bool :=
  let n := N_of_ascii c in ((65 <=? n) && (n <=? 90) || (97 <=? n) && (n <=? 122))%N.
Definition scheme_char (c : ascii) : bool :=
  is_alpha c || is_digit c || bool_decide (c = "+"%char \/ c = "-"%char \/ c = "."%char).
Definition c0_or_space (c : ascii) : bool := (N_of_ascii c <=? 32)%N.
Definition unsafe_byte (c : ascii) : bool :=
  let n := N_of_ascii c in ((n =? 9) || (n =? 10) || (n =? 13))%N.
Definition is_hex (c : ascii) : bool :=
  let n := N_of_ascii c in
  is_digit c || ((65 <=? n) && (n <=? 70) || (97 <=? n) && (n <=? 102))%N.

Definition split_scheme (url : string) : string * string :=
  match partition ":" url with
  | (String c s as pre, true, rest) =>
      if is_alpha c && str_forall scheme_char pre then (lower pre, rest) else ("", url)
  | _ => ("", url)
  end.

Definition netloc_char (c : ascii) : bool :=
  negb (bool_decide (c = "/"%char \/ c = "?"%char \/ c = "#"%char)).

(** [_check_bracketed_host]: an IPvFuture or an IPv6 literal. *)
Definition check_bracketed_host (env : NetEnv) (host : string) : bool :=
  if startswith "v" host then
    match host with
    | String _ h => let '(version, rest) := span is_hex h in
                    truthy_str version &&
                    match rest with
                    | String "." (String c r) => negb (str_in_char "010" (String c r))
                    | _ => false
                    end
    | EmptyString => false
    end
  else if ipv4_address host is Some _ then false
  else if ipv6_address env host is Some _ then true else false.

Definition check_bracketed_netloc (env : NetEnv) (netloc : string) : bool :=
  let '(_, _, hostname_and_port) := rpartition "@" netloc in
  match partition "[" hostname_and_port with
  | (before_bracket, true, bracketed) =>
      let '(hostname, _, port) := partition "]" bracketed in
      negb (truthy_str before_bracket)
      && (negb (truthy_str port) || startswith ":" port)
      && check_bracketed_host env hostname
  | (_, false, _) =>
      let '(hostname, _, _) := partition ":" hostname_and_port in
      check_bracketed_host env hostname
  end.

Definition invalid_ipv6_url : exn := ValueError "Invalid IPv6 URL".

(** [url[2:]] when [url[:2] == "//"]. *)
Definition after_slashes (url : string) : option string :=
  match url with
  | String a (String b rest) => if decide (a = "/"%char /\ b = "/"%char) then Some rest else None
  | _ => None
  end.

Definition urlsplit (env : NetEnv) (url : string) : res SplitResult :=
  let url := str_filter (fun c => negb (unsafe_byte c)) (str_lstrip c0_or_space url) in
  let '(scheme, url) := split_scheme url in
  let '(netloc, url) :=
    match after_slashes url with
    | Some rest => span netloc_char rest
    | None => ("", url)
    end in
  let opens := str_in_char "[" netloc in
  let closes := str_in_char "]" netloc in
  do? guard (Bool.eqb opens closes && (negb opens || check_bracketed_netloc env netloc))
        invalid_ipv6_url in
  let '(url, _, fragment) := partition "#" url in
  let '(url, _, query) := partition "?" url in
  Ok {| sr_scheme := scheme; sr_netloc := netloc; sr_path := url; sr_query := query;
        sr_fragment := fragment |}.

(** *** Attributes of the result *)

Definition hostinfo (netloc : string) : string * option string :=
  let '(_, _, info) := rpartition "@" netloc in
  let '(hostname, port) :=
    match partition "[" info with
    | (_, true, bracketed) =>
        let '(hostname, _, port) := partition "]" bracketed in
        (hostname, (partition ":" port).2)
    | (_, false, _) => let '(hostname, _, port) := partition ":" info in (hostname, port)
    end in
  (hostname, if truthy_str port then Some port else None).

Definition hostname (p : SplitResult) : option string :=
  let '(host, _) := hostinfo (sr_netloc p) in
  if truthy_str host then
    let '(host, percent, zone) := partition "%" host in
    Some (lower host +:+ (if percent then "%" else "") +:+ zone)
  else None.

Definition port (p : SplitResult) : res (option Z) :=
  match (hostinfo (sr_netloc p)).2 with
  | None => Ok None
  | Some port =>
      do? guard (isdigit port) (ValueError "Port could not be cast to integer value") in
      let n := int_of_digits port in
      do? guard ((0 <=? n) && (n <=? 65535)) (ValueError "Port out of range 0-65535") in
      Ok (Some n)
  end.

Definition userinfo (netloc : string) : option string * option string :=
  match rpartition "@" netloc with
  | (info, true, _) =>
      match partition ":" info with
      | (username, true, password) => (Some username, Some password)
      | (username, false, _) => (Some username, None)
      end
  | (_, false, _) => (None, None)
  end.

(** ** [urlunsplit] (with an empty fragment) and [parse_qsl] *)

Definition uses_netloc : list string :=
  [""; "ftp"; "http"; "gopher"; "nntp"; "telnet"; "imap"; "wais"; "file"; "mms"; "https"; "shttp";
   "snews"; "prospero"; "rtsp"; "rtspu"; "rsync"; "svn"; "svn+ssh"; "sftp"; "nfs"; "git"; "git+ssh";
   "ws"; "wss"].

Definition urlunsplit (scheme netloc url query : string) : string :=
  let url :=
    if truthy_str netloc || (truthy_str scheme && bool_decide (scheme ∈ uses_netloc)
                             && negb (startswith "//" url))
    then "//" +:+ netloc +:+ (if truthy_str url && negb (startswith "/" url) then "/" +:+ url else url)
    else url in
  let url := if truthy_str scheme then scheme +:+ ":" +:+ url else url in
  if truthy_str query then url +:+ "?" +:+ query else url.

Definition hex_value (c : ascii) : Z :=
  let n := Z.of_N (N_of_ascii c) in
  if n <=? 57 then n - 48 else if n <=? 70 then n - 55 else n - 87.

Fixpoint unquote_to_bytes (s : string) : string :=
  match s with
  | EmptyString => ""
  | String "%" ((String a (String b rest)) as s') =>
      if is_hex a && is_hex b
      then String (ascii_of_N (Z.to_N (16 * hex_value a + hex_value b))) (unquote_to_bytes rest)
      else String "%" (unquote_to_bytes s')
  | String c s' => String c (unquote_to_bytes s')
  end.

(** [bytes.decode("utf-8", "replace")], as the bytes of the decoded text: each
    maximal ill-formed prefix of a sequence becomes U+FFFD. [need] holds the
    ranges of the continuation bytes still expected after [seen]. *)
Definition utf8_replacement : string := String "239" (String "191" (String "189" "")).

Definition utf8_start (b : N) : option (list (N * N)) :=
  (if b <? 128 then Some []
   else if (194 <=? b) && (b <=? 223) then Some [(128, 191)]
   else if b =? 224 then Some [(160, 191); (128, 191)]
   else if b =? 237 then Some [(128, 159); (128, 191)]
   else if (225 <=? b) && (b <=? 239) then Some [(128, 191); (128, 191)]
   else if b =? 240 then Some [(144, 191); (128, 191); (128, 191)]
   else if b =? 244 then Some [(128, 143); (128, 191); (128, 191)]
   else if (241 <=? b) && (b <=? 243) then Some [(128, 191); (128, 191); (128, 191)]
   else None)%N.

Fixpoint utf8_decode_replace (need : list (N * N)) (seen : string) (s : string) : string :=
  match s with
  | EmptyString => match need with [] => "" | _ => utf8_replacement end
  | String c s =>
      let start (out : string) :=
        match utf8_start (N_of_ascii c) with
        | None => out +:+ utf8_replacement +:+ utf8_decode_replace [] "" s
        | Some [] => out +:+ String c (utf8_decode_replace [] "" s)
        | Some need => out +:+ utf8_decode_replace need (String c "") s
        end in
      match need with
      | [] => start ""
      | (lo, hi) :: need =>
          if ((lo <=? N_of_ascii c) && (N_of_ascii c <=? hi))%N then
            let seen := seen +:+ String c "" in
            match need with
            | [] => seen +:+ utf8_decode_replace [] "" s
            | _ => utf8_decode_replace need seen s
            end
          else start utf8_replacement
      end
  end.

Definition unquote (s : string) : string :=
  if str_in_char "%" s then utf8_decode_replace [] "" (unquote_to_bytes s) else s.

(** [parse_qsl(qs, keep_blank_values=True)] *)
Definition decode_field (s : string) : string :=
  unquote (str_map (fun c => if decide (c = "+"%char) then " "%char else c) s).

Definition parse_field (name_value : string) : option (string * string) :=
  if truthy_str name_value then
    let '(name, _, value) := partition "=" name_value in Some (decode_field name, decode_field value)
  else None.

Definition parse_qsl (qs : string) : list (string * string) :=
  omap parse_field (if truthy_str qs then split_on "&" qs else []).

(** ** Lemmas *)

Definition visible (c : ascii) : bool := ((33 <=? N_of_ascii c) && (N_of_ascii c <=? 126))%N.
Definition not_char (x c : ascii) : bool := negb (bool_decide (x = c)).

Lemma visible_clean s : str_forall visible s = true ->
  str_filter (fun c => negb (unsafe_byte c)) (str_lstrip c0_or_space s) = s /\ strip s = s.
Proof.
  intros Hv. split.
  - rewrite str_lstrip_id; [apply str_filter_id|]; (eapply str_forall_impl; [|exact Hv]);
      intros [[] [] [] [] [] [] [] []]; done.
  - apply strip_id. eapply str_forall_impl; [|exact Hv]. intros [[] [] [] [] [] [] [] []]; done.
Qed.

Lemma split_scheme_spec url scheme rest :
  split_scheme url = (scheme, rest) ->
  str_forall is_lower scheme = true /\
  forall p, str_forall p url = true -> str_forall p rest = true.
Proof.
  unfold split_scheme. destruct (partition ":" url) as [[pre []] post] eqn:E;
    [|by destruct pre; intros [= <- <-]].
  destruct pre as [|c s]; [by intros [= <- <-]|]. case_match; [|by intros [= <- <-]].
  intros [= <- <-]. split; [apply lower_is_lower|]. intros p.
  apply partition_spec in E as [-> _]. rewrite str_forall_app. simpl.
  rewrite !andb_true_iff. tauto.
Qed.

Lemma urlsplit_spec env url p :
  str_forall visible url = true -> urlsplit env url = Ok p ->
  str_forall is_lower (sr_scheme p) = true /\
  str_forall visible (sr_netloc p) = true /\ str_forall netloc_char (sr_netloc p) = true /\
  str_forall visible (sr_path p) = true /\ str_in_char "#" (sr_path p) = false /\
  str_in_char "?" (sr_path p) = false /\
  (sr_netloc p = "" \/ sr_path p = "" \/ exists r, sr_path p = String "/" r) /\
  str_forall visible (sr_query p) = true /\ str_in_char "#" (sr_query p) = false.
Proof.
  intros Hv. unfold urlsplit. rewrite (proj1 (visible_clean _ Hv)).
  destruct (split_scheme url) as [scheme rest] eqn:Es.
  destruct (split_scheme_spec _ _ _ Es) as [Hl Hrest]. specialize (Hrest _ Hv).
  set (m := match after_slashes rest with Some r => span netloc_char r | None => ("", rest) end).
  assert (str_forall visible m.1 = true /\ str_forall netloc_char m.1 = true /\
          str_forall visible m.2 = true /\
          (m.1 = "" \/ match m.2 with EmptyString => True | String c _ => netloc_char c = false end)) as Hm.
  { subst m. destruct (after_slashes rest) as [r|] eqn:Er; [|by auto].
    assert (str_forall visible r = true) as Hr.
    { unfold after_slashes in Er. destruct rest as [|a [|b r']]; [done..|]. case_decide; [|done].
      injection Er as ->. simpl in Hrest. by apply andb_true_iff in Hrest as [_ [_ ?]%andb_true_iff]. }
    destruct (span netloc_char r) as [a b] eqn:E. apply span_spec in E as (-> & ? & ?).
    rewrite str_forall_app in Hr. apply andb_true_iff in Hr as [? ?]. simpl. auto. }
  destruct m as [netloc rest2]. simpl in Hm. destruct Hm as (Hn1 & Hn2 & Hr2 & Hr3).
  intros H. apply rbind_ok in H as (_ & _ & H).
  destruct (partition "#" rest2) as [[rest3 f3] frag] eqn:E3.
  destruct (partition "?" rest3) as [[path f4] query] eqn:E4. injection H as <-. simpl.
  assert (str_forall visible rest3 = true /\ str_in_char "#" rest3 = false /\
          (netloc = "" \/ match rest3 with EmptyString => True | String c _ => netloc_char c = false end))
    as (Hv3 & Hh3 & Hp3).
  { destruct f3.
    - apply partition_spec in E3 as [-> Hh]. rewrite str_forall_app in Hr2.
      apply andb_true_iff in Hr2 as [? _]. split_and!; [done..|]. destruct Hr3 as [?|?]; [by left|right].
      by destruct rest3.
    - apply partition_none in E3 as (? & -> & _). done. }
  destruct f4.
  - apply partition_spec in E4 as [-> Hq]. rewrite str_forall_app in Hv3. rewrite str_in_char_app in Hh3.
    simpl in Hv3, Hh3. apply andb_true_iff in Hv3 as [? ?]. apply orb_false_iff in Hh3 as [Hh4 ?].
    split_and!; try done. destruct Hp3 as [?|Hp3]; [by left|right]. destruct path as [|c path]; [by left|right].
    simpl in Hp3, Hq, Hh4. unfold netloc_char in Hp3.
    apply negb_false_iff, bool_decide_eq_true in Hp3. apply orb_false_iff in Hq as [Hq _], Hh4 as [Hh4 _].
    apply bool_decide_eq_false in Hq, Hh4. destruct Hp3 as [->|[->| ->]]; [by eexists|done..].
  - apply partition_none in E4 as (Hq & -> & ->). split_and!; try done.
    destruct Hp3 as [?|Hp3]; [by left|right]. destruct rest3 as [|c path]; [by left|right].
    simpl in Hp3, Hq, Hh3. unfold netloc_char in Hp3.
    apply negb_false_iff, bool_decide_eq_true in Hp3. apply orb_false_iff in Hq as [Hq _], Hh3 as [Hh4 _].
    apply bool_decide_eq_false in Hq, Hh4. destruct Hp3 as [->|[->| ->]]; [by eexists|done..].
Qed.

(** Splitting an assembled URL gives its parts back. *)
Lemma urlsplit_parts env scheme netloc path query :
  scheme = "http" \/ scheme = "https" ->
  str_forall visible netloc = true -> str_forall netloc_char netloc = true ->
  str_in_char "[" netloc = false -> str_in_char "]" netloc = false ->
  str_forall visible path = true -> str_in_char "#" path = false -> str_in_char "?" path = false ->
  str_forall visible query = true -> str_in_char "#" query = false ->
  let c := scheme +:+ "://" +:+ netloc +:+
           String "/" (path +:+ (if truthy_str query then "?" +:+ query else "")) in
  str_forall visible c = true /\
  urlsplit env c = Ok {| sr_scheme := scheme; sr_netloc := netloc; sr_path := String "/" path;
                         sr_query := query; sr_fragment := "" |}.
Proof.
  intros Hs Hv Hn Ho Hc Hpv Hph Hpq Hqv Hqh. cbv zeta.
  set (tail := path +:+ (if truthy_str query then "?" +:+ query else "")).
  assert (str_forall visible (scheme +:+ "://" +:+ netloc +:+ String "/" tail) = true) as Hall.
  { rewrite !str_forall_app. simpl. unfold tail. rewrite str_forall_app, Hv, Hpv.
    destruct Hs as [->| ->]; simpl; case_match; simpl; done. }
  split; [exact Hall|]. unfold urlsplit. rewrite (proj1 (visible_clean _ Hall)).
  assert (split_scheme (scheme +:+ "://" +:+ netloc +:+ String "/" tail) =
          (scheme, "//" +:+ netloc +:+ String "/" tail)) as ->
    by (destruct Hs as [->| ->]; reflexivity).
  assert (after_slashes ("//" +:+ netloc +:+ String "/" tail) = Some (netloc +:+ String "/" tail)) as ->
    by reflexivity.
  rewrite span_app by done. rewrite Ho, Hc. simpl guard. cbn [rbind].
  assert (partition "#" (String "/" tail) = (String "/" tail, false, "")) as ->.
  { apply partition_none. split; [|done]. unfold tail. simpl. rewrite str_in_char_app, Hph.
    case_match; simpl; done. }
  unfold tail. destruct (truthy_str query) eqn:Eq.
  - assert (partition "?" (String "/" (path +:+ "?" +:+ query)) = (String "/" path, true, query)) as ->; [|done].
    apply partition_spec. split; [done|]. simpl. by rewrite Hpq.
  - rewrite append_nil_r.
    assert (partition "?" (String "/" path) = (String "/" path, false, "")) as ->.
    { apply partition_none. split; [|done]. simpl. by rewrite Hpq. }
    unfold truthy_str in Eq. apply negb_false_iff, bool_decide_eq_true in Eq. by subst.
Qed.

Lemma truthy_str_spec s : truthy_str s = true <-> s <> "".
Proof. unfold truthy_str. by rewrite negb_true_iff, bool_decide_eq_false. Qed.

(** What [hostinfo] returns on a netloc without brackets. *)
Lemma hostinfo_spec netloc h port :
  str_in_char "[" netloc = false -> hostinfo netloc = (h, port) ->
  str_in_char "@" h = false /\ str_in_char ":" h = false /\
  (forall p, str_forall p netloc = true -> str_forall p h = true).
Proof.
  intros Ho. unfold hostinfo.
  assert (exists b x info, rpartition "@" netloc = (x, b, info) /\ str_in_char "@" info = false /\
    str_in_char "[" info = false /\ forall p, str_forall p netloc = true -> str_forall p info = true)
    as (b & x & info & -> & Hat & Hbr & Hall).
  { destruct (rpartition_cases "@" netloc) as [[? ->]|(a & info & -> & ? & ->)]; [by eexists _, _, _|].
    eexists _, _, _. split; [done|]. split; [done|]. rewrite str_in_char_app in Ho. simpl in Ho.
    apply orb_false_iff in Ho as [_ ?]. split; [done|]. intros p. rewrite str_forall_app. simpl.
    rewrite !andb_true_iff. tauto. }
  assert (partition "[" info = (info, false, "")) as -> by (by apply partition_none).
  destruct (partition ":" info) as [[h' f] pt] eqn:E. intros [= -> _].
  destruct f.
  - apply partition_spec in E as [-> Hh]. rewrite str_in_char_app in Hat.
    apply orb_false_iff in Hat as [? _]. split_and!; [done..|]. intros p Hp%Hall.
    rewrite str_forall_app in Hp. by apply andb_true_iff in Hp as [? _].
  - apply partition_none in E as (? & -> & _). by split_and!.
Qed.

Lemma hostname_spec p h :
  str_in_char "[" (sr_netloc p) = false -> hostname p = Some h ->
  str_in_char "@" (lower h) = false /\ str_in_char ":" (lower h) = false /\
  (forall q, (forall c, q c = true -> q (lower_char c) = true) ->
     str_forall q (sr_netloc p) = true -> str_forall q (lower h) = true).
Proof.
  intros Ho. unfold hostname. destruct (hostinfo (sr_netloc p)) as [h0 port] eqn:E.
  destruct (hostinfo_spec _ _ _ Ho E) as (Hat & Hco & Hall).
  case_match eqn:Ht; [|done]. destruct (partition "%" h0) as [[a f] b] eqn:Ep. intros [= <-].
  assert (forall q, (forall c, q c = true -> q (lower_char c) = true) -> str_forall q h0 = true ->
    str_forall q (lower (lower a +:+ (if f then "%" else "") +:+ b)) = true) as Hq.
  { intros q Hl Hh. apply str_forall_lower; [done|]. destruct f.
    - apply partition_spec in Ep as [-> _]. rewrite str_forall_app in Hh. simpl in Hh.
      rewrite !str_forall_app. simpl. apply andb_true_iff in Hh as [? [? ?]%andb_true_iff].
      rewrite (str_forall_lower q a) by done. simpl. repeat (apply andb_true_iff; split); done.
    - apply partition_none in Ep as (_ & -> & ->). rewrite append_nil_l, append_nil_r.
      by apply str_forall_lower. }
  split_and!.
  - apply str_in_char_forall, Hq; [|by apply str_in_char_forall]. intros [[] [] [] [] [] [] [] []]; done.
  - apply str_in_char_forall, Hq; [|by apply str_in_char_forall]. intros [[] [] [] [] [] [] [] []]; done.
  - intros q Hl Hn. apply Hq; [done|]. by apply Hall.
Qed.

(** A lower-case host without separators is its own [hostname]. *)
Lemma hostname_of_lower p h pt :
  hostinfo (sr_netloc p) = (h, pt) -> h <> "" -> str_forall is_lower h = true -> hostname p = Some h.
Proof.
  intros E Hh Hl. unfold hostname. rewrite E, (proj2 (truthy_str_spec _)) by done.
  destruct (partition "%" h) as [[a f] b] eqn:Ep. destruct f.
  - apply partition_spec in Ep as [-> _]. rewrite str_forall_app in Hl. simpl in Hl.
    apply andb_true_iff in Hl as [Ha _]. by rewrite lower_id.
  - apply partition_none in Ep as (_ & -> & ->). rewrite lower_id by done. by rewrite append_nil_l, append_nil_r.
Qed.

Lemma userinfo_spec netloc user pw :
  userinfo netloc = (user, pw) ->
  (forall u, user = Some u -> str_in_char ":" u = false) /\
  (forall p, str_forall p netloc = true ->
     (forall u, user = Some u -> str_forall p u = true) /\ (forall w, pw = Some w -> str_forall p w = true)).
Proof.
  unfold userinfo. destruct (rpartition_cases "@" netloc) as [[_ ->]|(a & b & -> & _ & ->)];
    [by intros [= <- <-]|].
  destruct (partition ":" a) as [[u f] w] eqn:E. destruct f; intros [= <- <-].
  - apply partition_spec in E as [-> Hu]. split; [by intros ? [= <-]|].
    intros p. rewrite !str_forall_app. simpl. rewrite !andb_true_iff. naive_solver.
  - apply partition_none in E as (Hu & -> & _). split; [by intros ? [= <-]|].
    intros p. rewrite !str_forall_app. rewrite !andb_true_iff. naive_solver.
Qed.

(** [parse_qsl] on text without escapes splits and nothing else. *)
Definition plain_query (q : string) : bool := negb (str_in_char "%" q) && negb (str_in_char "+" q).
Definition field_ok (kv : string * string) : Prop :=
  plain_query kv.1 = true /\ plain_query kv.2 = true /\ str_in_char "=" kv.1 = false /\
  str_in_char "&" kv.1 = false /\ str_in_char "&" kv.2 = false.
Definition show_field (kv : string * string) : string := kv.1 +:+ "=" +:+ kv.2.

Lemma decode_plain s : plain_query s = true -> decode_field s = s.
Proof.
  unfold decode_field.
  intros [Hp%negb_true_iff Hq%negb_true_iff]%andb_true_iff.
  assert (str_map (fun c => if decide (c = "+"%char) then " "%char else c) s = s) as ->.
  { clear Hp. induction s as [|c s IH]; simpl in *; [done|]. apply orb_false_iff in Hq as [Hc Hq].
    apply bool_decide_eq_false in Hc. rewrite decide_False by congruence. by rewrite IH. }
  unfold unquote. by rewrite Hp.
Qed.

Lemma parse_field_show kv : field_ok kv -> parse_field (show_field kv) = Some kv.
Proof.
  destruct kv as [k v]. intros (Hk & Hv & He & _ & _). unfold parse_field, show_field. simpl fst. simpl snd.
  change (k +:+ "=" +:+ v) with (k +:+ String "=" v).
  rewrite (proj2 (truthy_str_spec _)) by (by destruct k).
  rewrite (proj2 (partition_spec "=" _ k v) (conj eq_refl He)).
  by rewrite !decode_plain.
Qed.

Lemma parse_qsl_show l :
  Forall field_ok l -> l <> [] -> parse_qsl (join "&" (show_field <$> l)) = l.
Proof.
  intros Hl Hne. unfold parse_qsl. rewrite (proj2 (truthy_str_spec _)).
  - rewrite (split_on_join "&"); [|by destruct l|].
    + clear Hne. induction Hl as [|kv l Hkv _ IH]; [done|]. csimpl. rewrite parse_field_show by done.
      by rewrite IH.
    + apply Forall_fmap. eapply Forall_impl; [exact Hl|]. intros [k v] (_ & _ & _ & Ha & Hb). simpl in *.
      unfold show_field. rewrite !str_in_char_app. simpl. by rewrite Ha, Hb.
  - destruct l as [|[k v] [|kv l]]; [done|..]; csimpl; unfold show_field; simpl; by destruct k.
Qed.

Lemma plain_query_part q t :
  plain_query q = true -> (forall p, str_forall p q = true -> str_forall p t = true) -> plain_query t = true.
Proof.
  unfold plain_query. intros [H1%negb_true_iff H2%negb_true_iff]%andb_true_iff Hp.
  by rewrite !(proj2 (str_in_char_forall _ _)) by (by apply Hp, str_in_char_forall).
Qed.

Lemma parse_field_spec t kv :
  plain_query t = true -> str_in_char "&" t = false -> parse_field t = Some kv ->
  field_ok kv /\ forall p, str_forall p t = true -> str_forall p kv.1 = true /\ str_forall p kv.2 = true.
Proof.
  intros Hpl Ha. unfold parse_field. case_match; [|done].
  destruct (partition "=" t) as [[k f] v] eqn:E.
  assert ((str_in_char "=" k = false /\ str_in_char "&" k = false /\ str_in_char "&" v = false) /\
          forall p, str_forall p t = true -> str_forall p k = true /\ str_forall p v = true) as [Hc Hkv].
  { destruct f.
    - apply partition_spec in E as [-> He]. rewrite str_in_char_app in Ha.
      apply orb_false_iff in Ha as [? Ha2]. simpl in Ha2. split; [done|].
      intros p. rewrite str_forall_app. simpl. rewrite !andb_true_iff. tauto.
    - apply partition_none in E as (? & -> & ->). by split. }
  assert (plain_query k = true /\ plain_query v = true) as [Hk Hv]
    by (split; eapply plain_query_part; try exact Hpl; intros p Hp; by apply Hkv).
  rewrite !decode_plain by done. intros [= <-]. split; [|done]. by destruct Hc as (? & ? & ?).
Qed.

Lemma parse_qsl_fields q :
  plain_query q = true ->
  Forall field_ok (parse_qsl q) /\
  forall p, str_forall p q = true ->
    Forall (fun kv => str_forall p kv.1 = true /\ str_forall p kv.2 = true) (parse_qsl q).
Proof.
  intros Hq. unfold parse_qsl. case_match; [|split; [constructor|by constructor]].
  assert (forall t kv, t ∈ split_on "&" q -> parse_field t = Some kv ->
    field_ok kv /\ forall p, str_forall p q = true -> str_forall p kv.1 = true /\ str_forall p kv.2 = true) as Hf.
  { intros t kv Ht E.
    assert (forall p, str_forall p q = true -> str_forall p t = true) as Hp
      by (intros p Hp; revert t Ht E; intros t Ht _; by eapply split_on_forall).
    destruct (parse_field_spec t kv) as [? Hk]; [by eapply plain_query_part|by eapply split_on_no_sep|done|].
    split; [done|]. intros p Hpq. by apply Hk, Hp. }
  split; [|intros p Hp]; apply Forall_forall; intros kv (t & Ht & E)%list_elem_of_omap; destruct (Hf _ _ Ht E); auto.
Qed.
