(* ===== verification/UrlJoin.v ===== *)
(** * urlparse, urlunparse, quote and urljoin

    The rest of [urllib.parse] that the network adapters use, on ASCII text, as
    in CPython 3.11-3.12. *)
From Stdlib Require Import Ascii.
From S2P Require Import Prelude PyStr UrlLib.
Local Open Scope Z_scope.

(** ** [urlparse], [urlunparse] *)

Definition uses_relative : list string :=
  [""; "ftp"; "http"; "gopher"; "nntp"; "imap"; "wais"; "file"; "https"; "shttp"; "mms"; "prospero"; "rtsp"; "rtspu";
   "sftp"; "svn"; "svn+ssh"; "ws"; "wss"].
Definition uses_params : list string :=
  [""; "ftp"; "hdl"; "prospero"; "http"; "imap"; "https"; "shttp"; "rtsp"; "rtspu"; "sip"; "sips"; "mms"; "sftp";
   "tel"].

(** [_splitparams]: at the first semicolon of the last segment. *)
Definition split_params (url : string) : string * string :=
  match rpartition "/" url with
  | (pre, true, segment) =>
      let '(segment, found, params) := partition ";" segment in
      if found : bool then (pre +:+ "/" +:+ segment, params) else (url, "")
  | (_, false, path) => let '(path, _, params) := partition ";" path in (path, params)
  end.

Record ParseResult := {
  pr_scheme : string;
  pr_netloc : string;
  pr_path : string;
  pr_params : string;
  pr_query : string;
  pr_fragment : string }.

(** [urlparse(url, scheme)]: [scheme] when the URL has none. *)
Definition urlparse (env : NetEnv) (url default_scheme : string) : res ParseResult :=
  let? parts := urlsplit env url in
  let scheme := if truthy_str (sr_scheme parts) then sr_scheme parts else default_scheme in
  let '(path, params) :=
    if bool_decide (scheme ∈ uses_params) && str_in_char ";" (sr_path parts) then split_params (sr_path parts)
    else (sr_path parts, "") in
  Ok {| pr_scheme := scheme; pr_netloc := sr_netloc parts; pr_path := path; pr_params := params;
        pr_query := sr_query parts; pr_fragment := sr_fragment parts |}.

Definition urlunparse (p : ParseResult) : string :=
  let path := if truthy_str (pr_params p) then pr_path p +:+ ";" +:+ pr_params p else pr_path p in
  let url := urlunsplit (pr_scheme p) (pr_netloc p) path (pr_query p) in
  if truthy_str (pr_fragment p) then url +:+ "#" +:+ pr_fragment p else url.

(** ** [quote] *)

Definition always_safe (c : ascii) : bool :=
  is_alpha c || is_digit c || bool_decide (c = "_"%char \/ c = "."%char \/ c = "-"%char \/ c = "~"%char).
Definition upper_hex (n : N) : ascii := ascii_of_N (if (n <? 10)%N then n + 48 else n + 55).
Fixpoint quote (s : string) : string :=
  match s with
  | EmptyString => ""
  | String c s =>
      if always_safe c || bool_decide (c = "/"%char) then String c (quote s)
      else let n := N_of_ascii c in
           String "%" (String (upper_hex (N.div n 16)) (String (upper_hex (N.modulo n 16)) (quote s)))
  end.

(** ** [urljoin] *)

(** [segments[1:-1] = filter(None, segments[1:-1])]. *)
Fixpoint drop_empty_inner (segments : list string) : list string :=
  match segments with
  | [] => []
  | [last] => [last]
  | s :: rest => if truthy_str s then s :: drop_empty_inner rest else drop_empty_inner rest
  end.
Definition squeeze (segments : list string) : list string :=
  match segments with
  | [] => []
  | first :: rest => first :: drop_empty_inner rest
  end.

(** The loop over the segments, on the reversed [resolved_path]. *)
Fixpoint resolve_segments (resolved : list string) (segments : list string) : list string :=
  match segments with
  | [] => rev resolved
  | s :: rest =>
      if bool_decide (s = "..") then resolve_segments (tl resolved) rest
      else if bool_decide (s = ".") then resolve_segments resolved rest
      else resolve_segments (s :: resolved) rest
  end.

Definition resolve_path (base_path path : string) : string :=
  let base_parts := split_on "/" base_path in
  let base_parts := if bool_decide (List.last base_parts "" = "") then base_parts else removelast base_parts in
  let segments := if startswith "/" path then split_on "/" path else squeeze (base_parts ++ split_on "/" path) in
  let resolved := resolve_segments [] segments in
  let resolved := if bool_decide (List.last segments "" ∈ ["."; ".."]) then resolved ++ [""] else resolved in
  let joined := join "/" resolved in
  if truthy_str joined then joined else "/".

(** The attribute [hostname] of the result of [urlparse]. *)
Definition pr_hostname (p : ParseResult) : option string :=
  hostname {| sr_scheme := pr_scheme p; sr_netloc := pr_netloc p; sr_path := pr_path p; sr_query := pr_query p; sr_fragment := pr_fragment p |}.

Definition urljoin (env : NetEnv) (base url : string) : res string :=
  if negb (truthy_str base) then Ok url
  else if negb (truthy_str url) then Ok base
  else
    let? b := urlparse env base "" in
    let? u := urlparse env url (pr_scheme b) in
    if negb (bool_decide (pr_scheme u = pr_scheme b)) || negb (bool_decide (pr_scheme u ∈ uses_relative)) then Ok url
    else if bool_decide (pr_scheme u ∈ uses_netloc) && truthy_str (pr_netloc u) then Ok (urlunparse u)
    else
      let netloc := if bool_decide (pr_scheme u ∈ uses_netloc) then pr_netloc b else pr_netloc u in
      if negb (truthy_str (pr_path u)) && negb (truthy_str (pr_params u)) then
        Ok (urlunparse {| pr_scheme := pr_scheme u; pr_netloc := netloc; pr_path := pr_path b; pr_params := pr_params b;
                          pr_query := if truthy_str (pr_query u) then pr_query u else pr_query b; pr_fragment := pr_fragment u |})
      else
        Ok (urlunparse {| pr_scheme := pr_scheme u; pr_netloc := netloc; pr_path := resolve_path (pr_path b) (pr_path u);
                          pr_params := pr_params u; pr_query := pr_query u; pr_fragment := pr_fragment u |}).

(** The examples of RFC 3986, section 5.4, as [urljoin] resolves them. *)
Lemma urljoin_rfc3986 :
  map (urljoin offline "http://a/b/c/d;p?q") ["g:h"; "g"; "./g"; "g/"; "/g"; "//g"; "?y"; "g?y"; "#s"; ";x"; "g;x"; ""; "."; "./";
    ".."; "../"; "../g"; "../.."; "../../g"; "../../../g"; "/../g"; "g."; "g;x=1/../y"; "http:g"] =
  map Ok ["g:h"; "http://a/b/c/g"; "http://a/b/c/g"; "http://a/b/c/g/"; "http://a/g"; "http://g"; "http://a/b/c/d;p?y";
    "http://a/b/c/g?y"; "http://a/b/c/d;p?q#s"; "http://a/b/c/;x"; "http://a/b/c/g;x"; "http://a/b/c/d;p?q"; "http://a/b/c/";
    "http://a/b/c/"; "http://a/b/"; "http://a/b/"; "http://a/b/g"; "http://a/"; "http://a/g"; "http://a/g"; "http://a/g";
    "http://a/b/c/g."; "http://a/b/c/y"; "http://a/b/c/g"].
Proof. vm_compute. reflexivity. Qed.
