(* ===== verification/RobotParser.v ===== *)
(** * urllib.robotparser

    The parser the robots adapter delegates to, on ASCII text, as in CPython
    3.11-3.12: [RobotFileParser.parse], [can_fetch], [crawl_delay] and
    [request_rate]. Parsing can raise: [urlparse] on a path that opens a bracket
    after two slashes, [int] on more than 4300 digits. *)
From Stdlib Require Import Ascii.
From S2P Require Import Prelude PyStr UrlLib UrlJoin.
Local Open Scope Z_scope.

(** ** [str.splitlines] *)

Definition line_break (c : ascii) : bool :=
  let n := N_of_ascii c in ((10 <=? n) && (n <=? 13) || (28 <=? n) && (n <=? 30))%N.
Fixpoint splitlines (s : string) : list string :=
  match s with
  | EmptyString => []
  | String c s =>
      if line_break c then
        "" :: match s with
              | String c' s' => if bool_decide (c = "013"%char /\ c' = "010"%char) then splitlines s' else splitlines s
              | EmptyString => []
              end
      else match splitlines s with
           | [] => [String c ""]
           | line :: lines => String c line :: lines
           end
  end.

(** ** Rules and entries *)

Record RuleLine := { rl_path : string; rl_allowance : bool }.
Record Entry := {
  en_useragents : list string;
  en_rulelines : list RuleLine;
  en_delay : option Z;
  en_req_rate : option (Z * Z) }.
Record RobotFileParser := { rp_entries : list Entry; rp_default_entry : option Entry }.

Definition new_entry : Entry := {| en_useragents := []; en_rulelines := []; en_delay := None; en_req_rate := None |}.
Definition new_parser : RobotFileParser := {| rp_entries := []; rp_default_entry := None |}.

Definition new_rule_line (env : NetEnv) (path : string) (allowance : bool) : res RuleLine :=
  let? parsed := urlparse env path "" in
  Ok {| rl_path := quote (urlunparse parsed); rl_allowance := allowance || bool_decide (path = "") |}.

Definition rule_applies (r : RuleLine) (filename : string) : bool :=
  bool_decide (rl_path r = "*") || startswith (rl_path r) filename.

Definition entry_applies (en : Entry) (useragent : string) : bool :=
  let '(product, _, _) := partition "/" useragent in
  let useragent := lower product in
  existsb (fun agent => bool_decide (agent = "*") || str_contains (lower agent) useragent) (en_useragents en).

Definition entry_allowance (en : Entry) (filename : string) : bool :=
  match List.find (fun r => rule_applies r filename) (en_rulelines en) with
  | Some r => rl_allowance r
  | None => true
  end.

(** ** [parse] *)

Definition _add_entry (en : Entry) (p : RobotFileParser) : RobotFileParser :=
  if bool_decide ("*" ∈ en_useragents en) then
    {| rp_entries := rp_entries p; rp_default_entry := if rp_default_entry p is None then Some en else rp_default_entry p |}
  else {| rp_entries := rp_entries p ++ [en]; rp_default_entry := rp_default_entry p |}.

(** [int(s)], [s] digits and whitespace. *)
Definition int_of (s : string) : res Z :=
  match py_int s with Some n => Ok n | None => Raise (ValueError "Exceeds the limit for integer string conversion") end.

Definition add_agent (en : Entry) (agent : string) : Entry :=
  {| en_useragents := en_useragents en ++ [agent]; en_rulelines := en_rulelines en; en_delay := en_delay en; en_req_rate := en_req_rate en |}.
Definition add_rule (en : Entry) (r : RuleLine) : Entry :=
  {| en_useragents := en_useragents en; en_rulelines := en_rulelines en ++ [r]; en_delay := en_delay en; en_req_rate := en_req_rate en |}.
Definition set_delay (en : Entry) (delay : Z) : Entry :=
  {| en_useragents := en_useragents en; en_rulelines := en_rulelines en; en_delay := Some delay; en_req_rate := en_req_rate en |}.
Definition set_req_rate (en : Entry) (rate : Z * Z) : Entry :=
  {| en_useragents := en_useragents en; en_rulelines := en_rulelines en; en_delay := en_delay en; en_req_rate := Some rate |}.

(** The locals of the loop: the parser's entries, the open entry, the state
    (0: start, 1: saw a user-agent line, 2: saw a rule). *)
Definition locals : Type := RobotFileParser * Entry * Z.

(** A line with both sides of its colon, the value unquoted. *)
Definition parse_field_line (env : NetEnv) (field value : string) (l : locals) : res locals :=
  let '(p, en, state) := l in
  if bool_decide (field = "user-agent") then
    let '(p, en) := if state =? 2 then (_add_entry en p, new_entry) else (p, en) in
    Ok (p, add_agent en value, 1)
  else if bool_decide (field = "disallow") then
    if state =? 0 then Ok l else let? r := new_rule_line env value false in Ok (p, add_rule en r, 2)
  else if bool_decide (field = "allow") then
    if state =? 0 then Ok l else let? r := new_rule_line env value true in Ok (p, add_rule en r, 2)
  else if bool_decide (field = "crawl-delay") then
    if state =? 0 then Ok l
    else if isdigit (strip value) then let? n := int_of value in Ok (p, set_delay en n, 2)
    else Ok (p, en, 2)
  else if bool_decide (field = "request-rate") then
    if state =? 0 then Ok l
    else match split_on "/" value with
         | [a; b] =>
             if isdigit (strip a) && isdigit (strip b) then
               let? requests := int_of a in
               let? seconds := int_of b in
               Ok (p, set_req_rate en (requests, seconds), 2)
             else Ok (p, en, 2)
         | _ => Ok (p, en, 2)
         end
  else Ok l.

Definition parse_line (env : NetEnv) (line : string) (l : locals) : res locals :=
  let '(p, en, state) := l in
  let l := if bool_decide (line = "") then
             if state =? 1 then (p, new_entry, 0) else if state =? 2 then (_add_entry en p, new_entry, 0) else l
           else l in
  let '(line, _, _) := partition "#" line in
  let line := strip line in
  match partition ":" line with
  | (field, true, value) => parse_field_line env (lower (strip field)) (unquote (strip value)) l
  | (_, false, _) => Ok l
  end.

Fixpoint parse_lines (env : NetEnv) (lines : list string) (l : locals) : res locals :=
  match lines with
  | [] => Ok l
  | line :: lines => let? l := parse_line env line l in parse_lines env lines l
  end.

Definition robots_parse (env : NetEnv) (lines : list string) : res RobotFileParser :=
  let? l := parse_lines env lines (new_parser, new_entry, 0) in
  let '(p, en, state) := l in
  Ok (if state =? 2 then _add_entry en p else p).

(** ** The queries *)

Definition matching_entry (p : RobotFileParser) (useragent : string) : option Entry :=
  match List.find (fun en => entry_applies en useragent) (rp_entries p) with
  | Some en => Some en
  | None => rp_default_entry p
  end.

(** The text the rules are matched with. *)
Definition robots_path (env : NetEnv) (url : string) : res string :=
  let? parsed := urlparse env (unquote url) "" in
  let path := quote (urlunparse {| pr_scheme := ""; pr_netloc := ""; pr_path := pr_path parsed; pr_params := pr_params parsed;
                                   pr_query := pr_query parsed; pr_fragment := pr_fragment parsed |}) in
  Ok (if truthy_str path then path else "/").

Definition can_fetch (env : NetEnv) (p : RobotFileParser) (useragent url : string) : res bool :=
  let? path := robots_path env url in
  Ok (match matching_entry p useragent with
      | Some en => entry_allowance en path
      | None => true
      end).

Definition crawl_delay (p : RobotFileParser) (useragent : string) : option Z :=
  match matching_entry p useragent with Some en => en_delay en | None => None end.
Definition request_rate (p : RobotFileParser) (useragent : string) : option (Z * Z) :=
  match matching_entry p useragent with Some en => en_req_rate en | None => None end.
