(* ===== verification/Url.v ===== *)
(** * URL canonicalisation and admission

    [external_crawl/url.py]. Inputs are ASCII text; the texts of the error
    messages leave out the [repr] of the URL. Theorems: the canonical form is a
    fixed point of [canonicalize_url] for plain URLs (and not for all), the
    decision table of [classify_url], and that literal private addresses are
    never admitted. *)
From Stdlib Require Import Ascii.
From S2P Require Import Prelude PyList PyStr UrlLib.
Local Open Scope Z_scope.

Definition default_port (scheme : string) : option Z :=
  if bool_decide (scheme = "http") then Some 80
  else if bool_decide (scheme = "https") then Some 443 else None.
Definition supported_scheme (scheme : string) : bool :=
  bool_decide (scheme = "http" \/ scheme = "https").

Inductive DomainFilterReason :=
  | OUTSIDE_ALLOWED_DOMAIN
  | DENIED_DOMAIN
  | UNSUPPORTED_SCHEME
  | PRIVATE_NETWORK_DENIED.

Record DomainFilterDecision := {
  df_admit : bool;
  df_reason : option DomainFilterReason;
  df_canonical_url : option string }.

(** The order of [sorted(pairs)]: tuples of strings, lexicographically. *)
Definition pair_leb (p q : string * string) : bool :=
  if decide (p.1 = q.1) then String.leb p.2 q.2 else String.leb p.1 q.1.

Definition canonical_query (query : string) : string :=
  if truthy_str query
  then join "&" ((fun kv => kv.1 +:+ "=" +:+ kv.2) <$> py_sorted pair_leb (parse_qsl query))
  else "".

Definition canonical_netloc (scheme host : string) (port : option Z)
    (user : option string * option string) : string :=
  let netloc := match port with
                | Some n => if bool_decide (Some n = default_port scheme) then host
                            else host +:+ ":" +:+ pretty n
                | None => host
                end in
  match user with
  | (Some username, password) =>
      if truthy_str username then
        (match password with
         | Some password => if truthy_str password then username +:+ ":" +:+ password else username
         | None => username
         end) +:+ "@" +:+ netloc
      else netloc
  | (None, _) => netloc
  end.

Definition canonicalize_url (env : NetEnv) (url : string) : res string :=
  do? guard (truthy_str url && truthy_str (strip url)) (ValueError "url must be non-empty") in
  let? parsed := urlsplit env (strip url) in
  do? guard (truthy_str (sr_scheme parsed)) (ValueError "url missing scheme") in
  let scheme := lower (sr_scheme parsed) in
  let host := lower (default "" (hostname parsed)) in
  do? guard (truthy_str host || negb (supported_scheme scheme)) (ValueError "url missing hostname") in
  let? port := port parsed in
  let netloc := canonical_netloc scheme host port (userinfo (sr_netloc parsed)) in
  let path := if truthy_str (sr_path parsed) then sr_path parsed else "/" in
  Ok (urlunsplit scheme netloc path (canonical_query (sr_query parsed))).

(** [ipaddress.ip_address(host)] and the five predicates, as [None] when the
    host is not a literal address. *)
Definition ip_literal (env : NetEnv) (host : string) : option bool :=
  match ipv4_address host with
  | Some ip => Some (ipv4_is_private ip || ipv4_is_loopback ip || ipv4_is_link_local ip
                     || ipv4_is_reserved ip || ipv4_is_multicast ip)
  | None => ipv6_address env host
  end.

Definition is_private_network (env : NetEnv) (host : string) : res bool :=
  if bool_decide (host = "localhost") then Ok true
  else match ip_literal env host with
       | Some b => Ok b
       | None =>
           match gethostbyname env host with
           | DnsOSError => Ok false
           | DnsValueError => Raise (ValueError "encoding with 'idna' codec failed")
           | Resolved resolved => Ok (default false (ip_literal env resolved))
           end
       end.

Definition host_matches (host : string) (domains : gset string) : bool :=
  existsb (fun d => bool_decide (host = d) || endswith ("." +:+ d) host) (elements domains).

Definition reject (reason : DomainFilterReason) (canonical : option string) : DomainFilterDecision :=
  {| df_admit := false; df_reason := Some reason; df_canonical_url := canonical |}.

Definition classify_url (env : NetEnv) (url : string) (allowed_domains denied_domains : gset string)
    (allow_loopback : bool) : res DomainFilterDecision :=
  match urlsplit env (strip url) with
  | Raise (ValueError _) => Ok (reject UNSUPPORTED_SCHEME None)
  | Raise e => Raise e
  | Ok parsed =>
      let scheme := lower (sr_scheme parsed) in
      if negb (supported_scheme scheme) then Ok (reject UNSUPPORTED_SCHEME None)
      else
        let host := lower (default "" (hostname parsed)) in
        if negb (truthy_str host) then Ok (reject UNSUPPORTED_SCHEME None)
        else
          let? canonical := canonicalize_url env url in
          if host_matches host denied_domains then Ok (reject DENIED_DOMAIN (Some canonical))
          else if negb (host_matches host allowed_domains)
          then Ok (reject OUTSIDE_ALLOWED_DOMAIN (Some canonical))
          else
            let? private := if allow_loopback then Ok false else is_private_network env host in
            if private then Ok (reject PRIVATE_NETWORK_DENIED (Some canonical))
            else Ok {| df_admit := true; df_reason := None; df_canonical_url := Some canonical |}
  end.

(** ** The canonical query *)

Lemma pair_leb_total p q : pair_leb p q = false -> pair_leb q p = true.
Proof.
  unfold pair_leb. intros H. case_decide as Hd; [rewrite decide_True by done|rewrite decide_False by congruence];
    by apply string_leb_total.
Qed.

Lemma pair_leb_trans p q r : pair_leb p q = true -> pair_leb q r = true -> pair_leb p r = true.
Proof.
  unfold pair_leb. intros H1 H2. repeat case_decide; try congruence; try by eapply string_leb_trans.
  exfalso. assert (q.1 = r.1); [|congruence].
  apply string_leb_antisym; [done|]. replace r.1 with p.1 by congruence. done.
Qed.

Lemma canonical_query_cases q :
  plain_query q = true ->
  exists l, Forall field_ok l /\ py_sorted pair_leb l = l /\
    canonical_query q = join "&" (show_field <$> l) /\
    forall p, p "&"%char = true -> p "="%char = true -> str_forall p q = true ->
              str_forall p (join "&" (show_field <$> l)) = true.
Proof.
  intros Hq. destruct (parse_qsl_fields q Hq) as [Hf Hp].
  unfold canonical_query. case_match; [|exists []; by split_and!].
  exists (py_sorted pair_leb (parse_qsl q)).
  split_and!.
  - by rewrite py_sorted_perm.
  - apply py_sorted_id, py_sorted_sorted; [apply pair_leb_total|apply pair_leb_trans].
  - done.
  - intros p Hamp Heq Hall. specialize (Hp _ Hall). rewrite <-(py_sorted_perm pair_leb) in Hp.
    induction Hp as [|[k v] l [Hk Hv] _ IH]; [done|]. rewrite fmap_cons.
    assert (str_forall p (show_field (k, v)) = true) as Hs.
    { unfold show_field. rewrite !str_forall_app. simpl in *. by rewrite Hk, Hv, Heq. }
    destruct l as [|kv l]; [done|]. rewrite fmap_cons, join_cons, <-fmap_cons.
    rewrite !str_forall_app, Hs, IH. simpl. by rewrite Hamp.
Qed.

Lemma canonical_query_idempotent q :
  plain_query q = true -> canonical_query (canonical_query q) = canonical_query q.
Proof.
  intros Hq. destruct (canonical_query_cases q Hq) as (l & Hf & Hs & -> & _).
  destruct (decide (l = [])) as [->|Hne]; [done|].
  unfold canonical_query. rewrite parse_qsl_show, Hs by done. by case_match eqn:E;
    [|unfold truthy_str in E; apply negb_false_iff, bool_decide_eq_true in E].
Qed.

(** ** The canonical netloc *)

Definition user_prefix (user : option string * option string) : string :=
  match user with
  | (Some username, password) =>
      if truthy_str username then
        (match password with
         | Some password => if truthy_str password then username +:+ ":" +:+ password else username
         | None => username
         end) +:+ "@"
      else ""
  | (None, _) => ""
  end.

Definition port_suffix (scheme : string) (port : option Z) : string :=
  match port with
  | Some n => if bool_decide (Some n = default_port scheme) then "" else ":" +:+ pretty n
  | None => ""
  end.

Lemma canonical_netloc_parts scheme host port user :
  canonical_netloc scheme host port user = user_prefix user +:+ host +:+ port_suffix scheme port.
Proof.
  unfold canonical_netloc, user_prefix, port_suffix.
  assert ((match port with Some n => if bool_decide (Some n = default_port scheme) then host
             else host +:+ ":" +:+ pretty n | None => host end) =
          host +:+ match port with Some n => if bool_decide (Some n = default_port scheme) then ""
             else ":" +:+ pretty n | None => "" end) as ->.
  { destruct port as [n|]; [case_bool_decide|]; by rewrite ?append_nil_r. }
  destruct user as [[u|] [w|]]; try done; case_match; try done; repeat case_match; by autorewrite with str.
Qed.

Lemma port_digits n : (0 <= n)%Z -> forall p, (forall c, is_digit c = true -> p c = true) ->
  str_forall p (pretty n) = true.
Proof.
  intros Hn p Hp. pose proof (pretty_isdigit n Hn) as H. unfold isdigit in H.
  apply andb_true_iff in H as [_ H]. by eapply str_forall_impl.
Qed.

Lemma port_suffix_forall scheme port p :
  (forall n, port = Some n -> 0 <= n) -> p ":"%char = true -> (forall c, is_digit c = true -> p c = true) ->
  str_forall p (port_suffix scheme port) = true.
Proof.
  intros Hn Hc Hp. unfold port_suffix. destruct port as [n|]; [case_match|]; try done.
  rewrite str_forall_app. simpl. rewrite Hc. by apply port_digits; [apply Hn|].
Qed.

(** The port a canonical netloc still shows. *)
Definition shown_port (scheme : string) (port : option Z) : option Z :=
  match port with
  | Some n => if bool_decide (Some n = default_port scheme) then None else Some n
  | None => None
  end.

Lemma hostinfo_canonical scheme host port user :
  str_in_char "@" host = false -> str_in_char ":" host = false -> str_in_char "[" host = false ->
  (forall n, port = Some n -> 0 <= n) ->
  hostinfo (canonical_netloc scheme host port user) = (host, pretty <$> shown_port scheme port).
Proof.
  intros Hat Hco Hbr Hn. rewrite canonical_netloc_parts. unfold hostinfo.
  set (info := host +:+ port_suffix scheme port).
  assert (forall x, x = "@"%char \/ x = "["%char -> str_in_char x info = false) as Hinfo.
  { intros x Hx. unfold info. rewrite str_in_char_app.
    assert (str_in_char x (port_suffix scheme port) = false) as ->.
    { apply str_in_char_forall, port_suffix_forall; [done|by destruct Hx as [->| ->]|].
      intros [[] [] [] [] [] [] [] []]; by destruct Hx as [->| ->]. }
    destruct Hx as [->| ->]; by rewrite ?Hat, ?Hbr. }
  assert (exists x b, rpartition "@" (user_prefix user +:+ info) = (x, b, info)) as (x & b & ->).
  { unfold user_prefix. destruct user as [[u|] w];
      [|rewrite append_nil_l, rpartition_none by auto; by eexists _, _].
    case_match; [|rewrite append_nil_l, rpartition_none by auto; by eexists _, _].
    rewrite append_assoc. change ("@" +:+ info) with (String "@" info).
    rewrite rpartition_some by auto. by eexists _, _. }
  assert (partition "[" info = (info, false, "")) as -> by (apply partition_none; auto).
  unfold info, port_suffix, shown_port.
  assert (partition ":" host = (host, false, "")) as Hnone by (by apply partition_none).
  destruct port as [n|]; [case_bool_decide|].
  - rewrite append_nil_r. by rewrite Hnone.
  - assert (partition ":" (host +:+ ":" +:+ pretty n) = (host, true, pretty n)) as ->
      by (apply partition_spec; done).
    pose proof (pretty_isdigit n (Hn _ eq_refl)) as Hd. unfold isdigit in Hd.
    by apply andb_true_iff in Hd as [-> _].
  - rewrite append_nil_r. by rewrite Hnone.
Qed.

(** Re-reading the user info of a canonical netloc gives the same prefix. *)
Lemma userinfo_canonical scheme host port user :
  str_in_char "@" host = false -> (forall n, port = Some n -> 0 <= n) ->
  (forall u, user.1 = Some u -> str_in_char ":" u = false) ->
  user_prefix (userinfo (canonical_netloc scheme host port user)) = user_prefix user.
Proof.
  intros Hat Hn Hu. rewrite canonical_netloc_parts. unfold userinfo.
  set (info := host +:+ port_suffix scheme port).
  assert (str_in_char "@" info = false) as Hinfo.
  { unfold info. rewrite str_in_char_app, Hat.
    apply str_in_char_forall, port_suffix_forall; [done..|]. intros [[] [] [] [] [] [] [] []]; done. }
  unfold user_prefix. destruct user as [[u|] w];
    [|rewrite append_nil_l, rpartition_none by done; done].
  simpl in Hu. specialize (Hu _ eq_refl).
  destruct (truthy_str u) eqn:Et; [|rewrite append_nil_l, rpartition_none by done; done].
  rewrite append_assoc. change ("@" +:+ info) with (String "@" info). rewrite rpartition_some by done.
  assert (partition ":" u = (u, false, "")) as Hnone by (by apply partition_none).
  destruct w as [w|]; [destruct (truthy_str w) eqn:Ew|].
  - assert (partition ":" (u +:+ ":" +:+ w) = (u, true, w)) as -> by (by apply partition_spec).
    simpl. by rewrite Et, Ew.
  - rewrite Hnone. simpl. by rewrite Et.
  - rewrite Hnone. simpl. by rewrite Et.
Qed.

Lemma canonical_netloc_forall scheme host port user p :
  (forall n, port = Some n -> 0 <= n) -> p ":"%char = true -> p "@"%char = true ->
  (forall c, is_digit c = true -> p c = true) -> str_forall p host = true ->
  (forall u, user.1 = Some u -> str_forall p u = true) -> (forall w, user.2 = Some w -> str_forall p w = true) ->
  str_forall p (canonical_netloc scheme host port user) = true.
Proof.
  intros Hn Hc Hat Hd Hh Hu Hw. rewrite canonical_netloc_parts, !str_forall_app, Hh.
  rewrite port_suffix_forall by done. rewrite !andb_true_r.
  unfold user_prefix. destruct user as [[u|] w]; [|done]. case_match; [|done]. simpl in *.
  rewrite str_forall_app. simpl. rewrite Hat. rewrite andb_true_r.
  destruct w as [w|]; [case_match|]; rewrite ?str_forall_app; simpl; rewrite ?Hc, ?(Hu u), ?(Hw w); done.
Qed.

Lemma urlunsplit_http scheme netloc path query :
  scheme = "http" \/ scheme = "https" -> netloc <> "" ->
  urlunsplit scheme netloc (String "/" path) query =
    scheme +:+ "://" +:+ netloc +:+ String "/" (path +:+ (if truthy_str query then "?" +:+ query else "")).
Proof.
  intros Hs Hn. unfold urlunsplit. rewrite (proj2 (truthy_str_spec netloc)) by done. simpl orb. cbv iota.
  assert (startswith "/" (String "/" path) = true) as -> by (by destruct path).
  assert (truthy_str scheme = true) as -> by (by destruct Hs as [->| ->]).
  rewrite andb_false_r. destruct (truthy_str query); autorewrite with str; done.
Qed.

Lemma supported_scheme_spec s : supported_scheme s = true <-> s = "http" \/ s = "https".
Proof. unfold supported_scheme. by rewrite bool_decide_eq_true. Qed.

Lemma port_range p n : port p = Ok (Some n) -> 0 <= n <= 65535.
Proof.
  unfold port. destruct (hostinfo _).2; [|done]. intros H. run_m H.
  apply guard_ok, andb_true_iff in Hr0 as [?%Z.leb_le ?%Z.leb_le]. lia.
Qed.

Lemma port_pretty p h scheme (o : option Z) :
  (forall n, o = Some n -> 0 <= n <= 65535) ->
  hostinfo (sr_netloc p) = (h, pretty <$> shown_port scheme o) ->
  port p = Ok (shown_port scheme o).
Proof.
  intros Ho E. unfold port. rewrite E. simpl. destruct (shown_port scheme o) as [n|] eqn:En; [|done].
  assert (0 <= n <= 65535) as Hn.
  { apply Ho. unfold shown_port in En. destruct o as [m|]; [|done]. by case_bool_decide. }
  simpl. rewrite pretty_isdigit by lia. simpl. rewrite int_of_pretty by lia.
  rewrite (proj2 (Z.leb_le _ _)) by lia. by rewrite (proj2 (Z.leb_le _ _)) by lia.
Qed.

(** The canonical form in parts. *)
Lemma canonicalize_parts env url p c :
  urlsplit env (strip url) = Ok p -> canonicalize_url env url = Ok c -> supported_scheme (sr_scheme p) = true ->
  str_forall is_lower (sr_scheme p) = true ->
  exists h po, hostname p = Some h /\ lower h <> "" /\ port p = Ok po /\
    c = urlunsplit (sr_scheme p) (canonical_netloc (sr_scheme p) (lower h) po (userinfo (sr_netloc p)))
          (if truthy_str (sr_path p) then sr_path p else "/") (canonical_query (sr_query p)).
Proof.
  intros Hp Hc Hs Hl. unfold canonicalize_url in Hc. run_m Hc.
  rewrite Hp in Hr0. simplify_eq. rewrite (lower_id (sr_scheme _)) in * by done.
  apply guard_ok in Hr2. rewrite Hs, orb_false_r, truthy_str_spec in Hr2.
  destruct (hostname _) as [h|] eqn:Eh; [|done]. simpl in Hr2. by exists h, a3.
Qed.

(** The components of a canonical URL, and what makes it a fixed point. *)
Record canonical_parts (scheme host : string) (po : option Z) (user : option string * option string)
    (path query : string) : Prop := {
  cp_scheme : scheme = "http" \/ scheme = "https";
  cp_lower : str_forall is_lower scheme = true /\ str_forall is_lower host = true;
  cp_host : host <> "" /\ str_in_char "@" host = false /\ str_in_char ":" host = false /\
            str_in_char "[" host = false;
  cp_port : forall n, po = Some n -> 0 <= n <= 65535;
  cp_user : forall u, user.1 = Some u -> str_in_char ":" u = false;
  cp_netloc : let netloc := canonical_netloc scheme host po user in
    str_forall visible netloc = true /\ str_forall netloc_char netloc = true /\
    str_in_char "[" netloc = false /\ str_in_char "]" netloc = false;
  cp_path : str_forall visible path = true /\ str_in_char "#" path = false /\ str_in_char "?" path = false;
  cp_query : str_forall visible query = true /\ str_in_char "#" query = false /\
             canonical_query query = query }.

Definition assemble (scheme host : string) (po : option Z) (user : option string * option string)
    (path query : string) : string :=
  urlunsplit scheme (canonical_netloc scheme host po user) (String "/" path) query.

Lemma canonical_netloc_ne scheme host po user : host <> "" -> canonical_netloc scheme host po user <> "".
Proof. rewrite canonical_netloc_parts. intros Hh E. by destruct (user_prefix user), host. Qed.

Lemma urlsplit_assembled env scheme host po user path query :
  canonical_parts scheme host po user path query ->
  let c := assemble scheme host po user path query in
  exists p, urlsplit env c = Ok p /\ strip c = c /\ c <> "" /\
    sr_scheme p = scheme /\ sr_path p = String "/" path /\ sr_query p = query /\
    sr_netloc p = canonical_netloc scheme host po user /\
    hostname p = Some host /\ port p = Ok (shown_port scheme po).
Proof.
  intros [Hs [Hl Hhl] (Hne & Hat & Hco & Hhb) Hrange Huc (Nv & Nn & No & Nc) (Pv & Ph & Pq) (Qv & Qh & Qq)].
  cbv zeta. unfold assemble. rewrite urlunsplit_http by (done || by apply canonical_netloc_ne).
  pose proof (hostinfo_canonical scheme host po user Hat Hco Hhb (fun n Hn => proj1 (Hrange n Hn))) as Hinfo.
  destruct (urlsplit_parts env scheme _ path query Hs Nv Nn No Nc Pv Ph Pq Qv Qh) as [Cv Cp].
  destruct (visible_clean _ Cv) as [_ Cst]. eexists. split; [exact Cp|]. split; [exact Cst|].
  split; [by destruct Hs as [-> | ->]|]. split_and!; try done.
  - by eapply hostname_of_lower.
  - by eapply port_pretty.
Qed.

Lemma canonicalize_assembled env scheme host po user path query :
  canonical_parts scheme host po user path query ->
  canonicalize_url env (assemble scheme host po user path query) =
    Ok (assemble scheme host po user path query).
Proof.
  intros Hcp. destruct (urlsplit_assembled env _ _ _ _ _ _ Hcp)
    as (p & Hp & Hst & Hne & Es & Ep & Eq & En & Eh & Epo).
  destruct Hcp as [Hs [Hl Hhl] (Hhne & Hat & _) Hrange Huc _ _ (_ & _ & Qq)].
  unfold canonicalize_url. rewrite Hst, Hp, (proj2 (truthy_str_spec _) Hne). cbn [andb guard rbind].
  rewrite Es, Eh, Epo, Ep, Eq, En. simpl default. rewrite (lower_id scheme), (lower_id host) by done.
  assert (truthy_str scheme = true) as -> by (by destruct Hs as [-> | ->]).
  rewrite (proj2 (truthy_str_spec host)) by done. cbn [orb guard rbind].
  rewrite Qq. assert (truthy_str (String "/" path) = true) as -> by done.
  unfold assemble. f_equal. f_equal. rewrite !canonical_netloc_parts. f_equal; [|f_equal].
  - rewrite <-canonical_netloc_parts. apply userinfo_canonical; [done|intros n Hn; by apply Hrange|done].
  - unfold port_suffix, shown_port. destruct po as [n|]; [|done]. by repeat case_bool_decide.
Qed.

(** Characters of a canonical netloc come from the original one. *)
Lemma canonical_netloc_chars p h po q :
  str_in_char "[" (sr_netloc p) = false -> hostname p = Some h -> (forall n, po = Some n -> 0 <= n) ->
  q ":"%char = true -> q "@"%char = true -> (forall c, is_digit c = true -> q c = true) ->
  (forall c, q c = true -> q (lower_char c) = true) -> str_forall q (sr_netloc p) = true ->
  str_forall q (canonical_netloc (sr_scheme p) (lower h) po (userinfo (sr_netloc p))) = true.
Proof.
  intros Hob Hh Hn H1 H2 H3 H4 H5. destruct (hostname_spec p h Hob Hh) as (_ & _ & Hhp).
  destruct (userinfo (sr_netloc p)) as [u w] eqn:Eu. destruct (userinfo_spec _ _ _ Eu) as [_ Hup].
  destruct (Hup q H5) as [??]. apply canonical_netloc_forall; try done. by apply Hhp.
Qed.

(** Reading a plain URL produces such components. *)
Lemma canonicalize_parts_ok env url p c :
  str_forall visible url = true -> urlsplit env url = Ok p ->
  supported_scheme (sr_scheme p) = true ->
  str_in_char "[" (sr_netloc p) = false -> str_in_char "]" (sr_netloc p) = false ->
  plain_query (sr_query p) = true ->
  canonicalize_url env url = Ok c ->
  exists host po path, canonical_parts (sr_scheme p) host po (userinfo (sr_netloc p)) path (canonical_query (sr_query p)) /\
    c = assemble (sr_scheme p) host po (userinfo (sr_netloc p)) path (canonical_query (sr_query p)) /\
    lower (default "" (hostname p)) = host.
Proof.
  intros Hv Hp Hs Hob Hcb Hq Hc.
  destruct (urlsplit_spec env url p Hv Hp) as (Hl & Hnv & Hnn & Hpv & Hph & Hpq & Hp0 & Hqv & Hqh).
  destruct (visible_clean _ Hv) as [_ Hst].
  destruct (canonicalize_parts env url p c) as (h & po & Hh & Hhne & Hpo & ->); [by rewrite Hst|done..|].
  destruct (hostname_spec p h Hob Hh) as (Hat & Hco & Hhp).
  assert (forall n, po = Some n -> 0 <= n <= 65535) as Hrange by (intros n ->; by eapply port_range).
  assert (exists path, (if truthy_str (sr_path p) then sr_path p else "/") = String "/" path /\
    str_forall visible path = true /\ str_in_char "#" path = false /\ str_in_char "?" path = false)
    as (path & Epath & Hpath).
  { destruct (truthy_str (sr_path p)) eqn:Et; [|by exists ""]. apply truthy_str_spec in Et.
    destruct Hp0 as [Hn0|[?|[r Hr]]]; [|done|].
    - unfold hostname in Hh. by rewrite Hn0 in Hh.
    - exists r. rewrite Hr in Hpv, Hph, Hpq. simpl in Hpv, Hph, Hpq. done. }
  exists (lower h), po, path. rewrite Epath, Hh. split; [|done].
  split; try done.
  - by apply supported_scheme_spec.
  - split; [done|apply lower_is_lower].
  - split_and!; try done. apply str_in_char_forall, Hhp; [|by apply str_in_char_forall].
    intros [[] [] [] [] [] [] [] []]; done.
  - destruct (userinfo (sr_netloc p)) as [u w] eqn:Eu. by destruct (userinfo_spec _ _ _ Eu).
  - cbv zeta. rewrite !str_in_char_forall in * |- *. split_and!; apply canonical_netloc_chars; try done;
      try (rewrite str_in_char_forall; done); try (intros n Hn; by apply Hrange);
      intros [[] [] [] [] [] [] [] []]; done.
  - destruct (canonical_query_cases _ Hq) as (l & _ & _ & El & Hlp). rewrite El at 1 2.
    rewrite str_in_char_forall in *. split_and!; [by apply Hlp..|by apply canonical_query_idempotent].
Qed.

(** C27: [canonicalize_url] is idempotent, as its docstring promises, on every
    http(s) URL of visible ASCII characters whose authority has no brackets
    and whose query has no percent escape and no plus sign. *)
Theorem canonicalize_idempotent env url p c :
  str_forall visible url = true -> urlsplit env url = Ok p ->
  supported_scheme (sr_scheme p) = true ->
  str_in_char "[" (sr_netloc p) = false -> str_in_char "]" (sr_netloc p) = false ->
  plain_query (sr_query p) = true ->
  canonicalize_url env url = Ok c -> canonicalize_url env c = Ok c.
Proof.
  intros Hv Hp Hs Hob Hcb Hq Hc.
  destruct (canonicalize_parts_ok _ _ _ _ Hv Hp Hs Hob Hcb Hq Hc) as (host & po & path & Hcp & -> & _).
  by apply canonicalize_assembled.
Qed.

(** A resolver for the examples: no DNS, and one IPv6 literal. *)
Definition no_dns : NetEnv :=
  {| gethostbyname _ := DnsOSError; ipv6_address s := if decide (s = "::1") then Some true else None |}.

Lemma canonicalize_idempotent_witness :
  let c := "http://user:pw@example.com:8080/a%20b?a=1&a=2&b=" in
  canonicalize_url no_dns "HTTP://user:pw@Example.COM:08080/a%20b?b&a=2&a=1#top" = Ok c /\
  canonicalize_url no_dns c = Ok c.
Proof.
  intros c. split; [vm_compute; reflexivity|].
  destruct (urlsplit no_dns "HTTP://user:pw@Example.COM:08080/a%20b?b&a=2&a=1#top") as [p|e] eqn:E;
    [|vm_compute in E; discriminate E].
  apply (canonicalize_idempotent no_dns "HTTP://user:pw@Example.COM:08080/a%20b?b&a=2&a=1#top" p);
    try exact E; vm_compute in E; injection E as <-; vm_compute; reflexivity.
Defined.

(** The conditions matter: the docstring's unconditional claim fails for a
    query with an escaped percent sign, and for an IPv6 host, whose brackets
    are lost so that the result is not even accepted again. *)
Example canonicalize_not_idempotent :
  canonicalize_url no_dns "http://h/?a=%2525" = Ok "http://h/?a=%25" /\
  canonicalize_url no_dns "http://h/?a=%25" = Ok "http://h/?a=%" /\
  canonicalize_url no_dns "http://[::1]:8080/" = Ok "http://::1:8080/" /\
  canonicalize_url no_dns "http://::1:8080/" = Raise (ValueError "url missing hostname").
Proof. split_and!; vm_compute; reflexivity. Qed.

(** Two different resources collapse: an escaped separator in a query value is
    decoded and not encoded again. *)
Example canonicalize_merges_distinct_queries :
  canonicalize_url no_dns "http://h/?a=1%26b=2" = canonicalize_url no_dns "http://h/?a=1&b=2".
Proof. vm_compute. reflexivity. Qed.

(** ** Admission *)

Definition raises_only_value_error {A} (r : res A) : Prop :=
  match r with Ok _ => True | Raise e => exists m, e = ValueError m end.

Lemma rbind_value_error {A B} (m : res A) (k : A -> res B) :
  raises_only_value_error m -> (forall a, m = Ok a -> raises_only_value_error (k a)) ->
  raises_only_value_error (rbind m k).
Proof. destruct m; simpl; auto. Qed.

Lemma guard_value_error b m : raises_only_value_error (guard b (ValueError m)).
Proof. destruct b; simpl; eauto. Qed.
#[export] Hint Resolve guard_value_error : py.

Lemma urlsplit_value_error env url : raises_only_value_error (urlsplit env url).
Proof.
  unfold urlsplit. repeat case_match;
    (apply rbind_value_error; [apply guard_value_error|intros _ _; by repeat case_match]).
Qed.

Lemma port_value_error p : raises_only_value_error (port p).
Proof.
  unfold port. case_match; [|done].
  apply rbind_value_error; [auto with py|intros _ _].
  apply rbind_value_error; [auto with py|done].
Qed.

Lemma canonicalize_value_error env url : raises_only_value_error (canonicalize_url env url).
Proof.
  unfold canonicalize_url. apply rbind_value_error; [auto with py|intros _ _].
  apply rbind_value_error; [apply urlsplit_value_error|intros p _].
  apply rbind_value_error; [auto with py|intros _ _].
  apply rbind_value_error; [auto with py|intros _ _].
  apply rbind_value_error; [apply port_value_error|done].
Qed.

Lemma classify_value_error env url allowed denied loopback :
  raises_only_value_error (classify_url env url allowed denied loopback).
Proof.
  unfold classify_url. pose proof (urlsplit_value_error env (strip url)) as Hu.
  destruct (urlsplit env (strip url)) as [p|e]; [|by destruct Hu as [m ->]].
  case_match; [done|]. case_match; [done|].
  apply rbind_value_error; [apply canonicalize_value_error|intros c _].
  case_match; [done|]. case_match; [done|].
  apply rbind_value_error; [|by intros []]. case_match; [done|].
  unfold is_private_network. repeat case_match; simpl; eauto.
Qed.

(** The host [classify_url] decides on. *)
Definition host_of (p : SplitResult) : string := lower (default "" (hostname p)).

(** [classify_url] admits a URL exactly when it is http(s), has a host that
    is allowed and not denied, and (unless loopback is allowed) that host is
    not private; the denied list wins over the allowed one, and the decision
    carries the URL's canonical form. *)
Theorem classify_admits_iff env url allowed denied loopback c :
  classify_url env url allowed denied loopback =
      Ok {| df_admit := true; df_reason := None; df_canonical_url := Some c |} <->
  exists p, urlsplit env (strip url) = Ok p /\ supported_scheme (lower (sr_scheme p)) = true /\
    host_of p <> "" /\ canonicalize_url env url = Ok c /\
    host_matches (host_of p) denied = false /\ host_matches (host_of p) allowed = true /\
    (loopback = true \/ is_private_network env (host_of p) = Ok false).
Proof.
  unfold classify_url. split.
  - destruct (urlsplit env (strip url)) as [p|[]] eqn:Ep; try done.
    destruct (supported_scheme _) eqn:Es; simpl; [|done]. fold (host_of p).
    destruct (truthy_str (host_of p)) eqn:Eh; simpl; [|done].
    destruct (canonicalize_url env url) as [c'|]; simpl; [|done].
    destruct (host_matches _ denied) eqn:Ed; simpl; [done|].
    destruct (host_matches _ allowed) eqn:Ea; simpl; [|done].
    intros H. exists p. apply truthy_str_spec in Eh.
    destruct loopback; [|destruct (is_private_network env (host_of p)) as [[]|] eqn:E];
      simpl in H; simplify_eq; split_and!; auto.
  - intros (p & -> & -> & Hh & -> & Hd & Ha & Hl). fold (host_of p).
    rewrite (proj2 (truthy_str_spec _)) by done. simpl. rewrite Hd, Ha. simpl.
    destruct Hl as [->|Hl]; [done|]. destruct loopback; [done|]. by rewrite Hl.
Qed.

Definition ipv4 (a b c d : Z) : Z := ((a * 256 + b) * 256 + c) * 256 + d.

Lemma in_net_intro ip a b c d len q r :
  0 <= len <= 32 -> ipv4 a b c d / 2 ^ (32 - len) = q -> ip = 2 ^ (32 - len) * q + r ->
  0 <= r < 2 ^ (32 - len) -> in_net ip (net a b c d len) = true.
Proof.
  intros Hl Hq Hip Hr. unfold in_net, net. simpl. rewrite Z.eqb_eq, !Z.shiftr_div_pow2 by lia.
  change (((a * 256 + b) * 256 + c) * 256 + d) with (ipv4 a b c d). rewrite Hq. symmetry.
  apply (Z.div_unique _ _ _ r); [by left|done].
Qed.

(** The private ranges of RFC 1918, loopback and link-local. *)
Definition rfc1918_or_local (a b : Z) : Prop :=
  a = 10 \/ a = 127 \/ (a = 172 /\ 16 <= b <= 31) \/ (a = 192 /\ b = 168) \/ (a = 169 /\ b = 254).

Lemma ipv4_special a b c d :
  0 <= b < 256 -> 0 <= c < 256 -> 0 <= d < 256 -> rfc1918_or_local a b ->
  ipv4_is_private (ipv4 a b c d) = true.
Proof.
  intros Hb Hc Hd H. unfold ipv4_is_private. apply andb_true_iff. split.
  - apply existsb_exists.
    destruct H as [->|[->|[[-> ?]|[[-> ->]|[-> ->]]]]].
    + exists (net 10 0 0 0 8). split; [simpl; tauto|].
      eapply (in_net_intro _ _ _ _ _ _ 10 (ipv4 0 b c d)); [lia|reflexivity|unfold ipv4; simpl Z.pow; lia..].
    + exists (net 127 0 0 0 8). split; [simpl; tauto|].
      eapply (in_net_intro _ _ _ _ _ _ 127 (ipv4 0 b c d)); [lia|reflexivity|unfold ipv4; simpl Z.pow; lia..].
    + exists (net 172 16 0 0 12). split; [simpl; tauto|].
      eapply (in_net_intro _ _ _ _ _ _ (172 * 16 + 1) (ipv4 0 (b - 16) c d)); [lia|reflexivity|unfold ipv4; simpl Z.pow; lia..].
    + exists (net 192 168 0 0 16). split; [simpl; tauto|].
      eapply (in_net_intro _ _ _ _ _ _ (192 * 256 + 168) (ipv4 0 0 c d)); [lia|reflexivity|unfold ipv4; simpl Z.pow; lia..].
    + exists (net 169 254 0 0 16). split; [simpl; tauto|].
      eapply (in_net_intro _ _ _ _ _ _ (169 * 256 + 254) (ipv4 0 0 c d)); [lia|reflexivity|unfold ipv4; simpl Z.pow; lia..].
  - unfold in_net, net, ipv4, rfc1918_or_local in *. simpl. rewrite !Z.shiftr_0_r, andb_true_r.
    apply andb_true_iff. rewrite !negb_true_iff, !Z.eqb_neq. lia.
Qed.

(** C28: Unless loopback is allowed, a URL whose host is a literal IPv4 address
    in the RFC 1918, loopback or link-local ranges, or is [localhost], is never
    admitted, whatever the domain lists say. *)
Theorem private_hosts_never_admitted env url allowed denied p :
  urlsplit env (strip url) = Ok p ->
  (host_of p = "localhost" \/
   exists a b c d, ipv4_address (host_of p) = Some (ipv4 a b c d) /\ 0 <= b < 256 /\
     0 <= c < 256 /\ 0 <= d < 256 /\ rfc1918_or_local a b) ->
  forall decision, classify_url env url allowed denied false = Ok decision -> df_admit decision = false.
Proof.
  intros Hp Hpriv [adm reason canonical] Hc. destruct adm; [|done].
  assert (is_private_network env (host_of p) = Ok true) as Hpv.
  { unfold is_private_network. destruct Hpriv as [->|(a & b & c & d & Hip & ? & ? & ? & ?)]; [done|].
    case_bool_decide; [done|]. unfold ip_literal. rewrite Hip. by rewrite ipv4_special. }
  unfold classify_url in Hc. rewrite Hp in Hc. fold (host_of p) in Hc.
  destruct (negb (supported_scheme _)); [done|]. destruct (negb (truthy_str _)); [done|].
  destruct (canonicalize_url env url); [|done]. cbn [rbind] in Hc.
  destruct (host_matches (host_of p) denied); [done|]. destruct (negb _); [done|].
  by rewrite Hpv in Hc.
Qed.

(** The admission decision is a property of the canonical form: for a plain
    URL, classifying the canonical form again gives the same decision. *)
Theorem classify_canonical_stable env url p c allowed denied loopback :
  str_forall visible url = true -> urlsplit env url = Ok p ->
  supported_scheme (sr_scheme p) = true ->
  str_in_char "[" (sr_netloc p) = false -> str_in_char "]" (sr_netloc p) = false ->
  plain_query (sr_query p) = true ->
  canonicalize_url env url = Ok c ->
  classify_url env c allowed denied loopback = classify_url env url allowed denied loopback.
Proof.
  intros Hv Hp Hs Hob Hcb Hq Hc.
  destruct (canonicalize_parts_ok _ _ _ _ Hv Hp Hs Hob Hcb Hq Hc) as (host & po & path & Hcp & Ec & Hh).
  destruct (urlsplit_assembled env _ _ _ _ _ _ Hcp) as (p' & Hp' & Hst & _ & Es & _ & _ & _ & Eh & _).
  rewrite <-Ec in Hp', Hst. destruct (visible_clean _ Hv) as [_ Hst0].
  unfold classify_url. rewrite Hst, Hst0, Hp, Hp', Es, Eh, Hc, Ec, (canonicalize_assembled _ _ _ _ _ _ _ Hcp).
  simpl default. rewrite (lower_id host) by apply Hcp. by rewrite Hh.
Qed.

Lemma classify_admits_iff_witness :
  classify_url no_dns "https://docs.example.com/x" {["example.com"]} ∅ false =
    Ok {| df_admit := true; df_reason := None; df_canonical_url := Some "https://docs.example.com/x" |}.
Proof.
  destruct (urlsplit no_dns (strip "https://docs.example.com/x")) as [p|e] eqn:E;
    [|vm_compute in E; discriminate E].
  apply classify_admits_iff. exists p. split; [reflexivity || exact E|].
  vm_compute in E. injection E as <-.
  split_and!; try (vm_compute; reflexivity); [vm_compute; discriminate|right; vm_compute; reflexivity].
Defined.

Lemma private_hosts_never_admitted_witness :
  exists d, classify_url no_dns "http://192.168.1.7/" {["192.168.1.7"]} ∅ false = Ok d /\ df_admit d = false.
Proof.
  destruct (classify_url no_dns "http://192.168.1.7/" {["192.168.1.7"]} ∅ false) as [d|e] eqn:E;
    [|vm_compute in E; discriminate E].
  exists d. split; [reflexivity|].
  destruct (urlsplit no_dns (strip "http://192.168.1.7/")) as [p|e] eqn:Ep;
    [|vm_compute in Ep; discriminate Ep].
  apply (private_hosts_never_admitted no_dns "http://192.168.1.7/" {["192.168.1.7"]} ∅ p Ep); [|exact E].
  right. exists 192, 168, 1, 7. vm_compute in Ep. injection Ep as <-.
  split; [vm_compute; reflexivity|]. unfold rfc1918_or_local. lia.
Defined.

Lemma classify_canonical_stable_witness :
  classify_url no_dns "http://example.com/a?a=1&b=" {["example.com"]} ∅ false =
  classify_url no_dns "HTTP://Example.com:80/a?b&a=1" {["example.com"]} ∅ false.
Proof.
  destruct (urlsplit no_dns "HTTP://Example.com:80/a?b&a=1") as [p|e] eqn:E;
    [|vm_compute in E; discriminate E].
  apply (classify_canonical_stable no_dns "HTTP://Example.com:80/a?b&a=1" p); try exact E;
    vm_compute in E; injection E as <-; vm_compute; reflexivity.
Defined.
