(* ===== verification/Origin.v ===== *)
(** * Web origins

    The text [scheme://host[:port]] that the cookie jar and the credential
    policy compare, and what equal texts say of scheme, host and port. A host
    that contains a colon (an IPv6 literal without its brackets) can be
    confused with a host and a port. *)
From Stdlib Require Import Ascii.
From S2P Require Import Prelude PyStr UrlLib.
Local Open Scope Z_scope.

(** [f"{scheme}://{host}[:{port}]"] *)
Definition show_origin (scheme host : string) (port : option Z) : string :=
  match port with
  | None => scheme +:+ "://" +:+ host
  | Some n => scheme +:+ "://" +:+ host +:+ ":" +:+ pretty n
  end.

Definition effective_port (scheme : string) (port : option Z) : Z :=
  default (if decide (scheme = "http") then 80 else 443) port.

(** The port as it is kept in the origin. *)
Definition kept_port (scheme : string) (port : option Z) : option Z :=
  match port with
  | None => None
  | Some n => if decide (n = effective_port scheme None) then None else Some n
  end.

(** What a URL's origin is read from. *)
Record url_origin (env : NetEnv) (url scheme host : string) (p : option Z) (parts : SplitResult) : Prop := {
  uo_split : urlsplit env url = Ok parts;
  uo_scheme : sr_scheme parts = scheme;
  uo_supported : scheme = "http" \/ scheme = "https";
  uo_host : hostname parts = Some host;
  uo_host_nonempty : host <> "";
  uo_port : port parts = Ok p }.

Lemma show_origin_inj s1 h1 p1 s2 h2 p2 :
  s1 = "http" \/ s1 = "https" -> s2 = "http" \/ s2 = "https" ->
  str_in_char ":" h1 = false -> str_in_char ":" h2 = false ->
  show_origin s1 h1 p1 = show_origin s2 h2 p2 -> s1 = s2 /\ h1 = h2 /\ p1 = p2.
Proof.
  intros Hs1 Hs2 H1 H2 Heq.
  assert (s1 = s2 /\
    h1 +:+ (if p1 is Some n then ":" +:+ pretty n else "") = h2 +:+ (if p2 is Some n then ":" +:+ pretty n else ""))
    as [-> Ht].
  { unfold show_origin in Heq. destruct p1, p2, Hs1 as [-> | ->], Hs2 as [-> | ->];
      rewrite ?append_nil_r; split; try done; try (injection Heq; done); discriminate Heq. }
  split; [done|]. clear Heq. destruct p1 as [n1|], p2 as [n2|]; rewrite ?append_nil_r in Ht.
  - destruct (sep_inj ":" h1 h2 (pretty n1) (pretty n2) Ht) as [-> Hn]; [apply pretty_Z_no_colon..|].
    apply (inj pretty) in Hn. by rewrite Hn.
  - exfalso. rewrite <-Ht, str_in_char_app in H2. simpl in H2. by rewrite orb_true_r in H2.
  - exfalso. rewrite Ht, str_in_char_app in H1. simpl in H1. by rewrite orb_true_r in H1.
  - done.
Qed.

Lemma kept_port_inj scheme p1 p2 :
  kept_port scheme p1 = kept_port scheme p2 <-> effective_port scheme p1 = effective_port scheme p2.
Proof.
  unfold kept_port. destruct p1 as [n1|], p2 as [n2|]; simpl; repeat case_decide; simpl; naive_solver.
Qed.

(** The origin of a URL: scheme, host and port, with the port that is implied
    where none is written. [None] for a URL that is not http(s) or whose host or
    port cannot be read. *)
Definition web_origin (env : NetEnv) (url : string) : option (string * string * Z) :=
  match urlsplit env url with
  | Raise _ => None
  | Ok parts =>
      match hostname parts, port parts with
      | Some host, Ok p =>
          if decide (sr_scheme parts = "http" \/ sr_scheme parts = "https")
          then Some (sr_scheme parts, lower host, effective_port (sr_scheme parts) p) else None
      | _, _ => None
      end
  end.

Lemma web_origin_spec env url scheme host n :
  web_origin env url = Some (scheme, host, n) <->
  exists parts h p, urlsplit env url = Ok parts /\ sr_scheme parts = scheme /\ (scheme = "http" \/ scheme = "https") /\
    hostname parts = Some h /\ lower h = host /\ port parts = Ok p /\ effective_port scheme p = n.
Proof.
  unfold web_origin. split.
  - destruct (urlsplit env url) as [parts|]; [|done]. destruct (hostname parts) as [h|] eqn:Hh; [|done].
    destruct (port parts) as [p|] eqn:Hp; [|done]. case_decide; [|done]. intros [= <- <- <-]. exists parts, h, p. by split_and!.
  - intros (parts & h & p & -> & <- & Hs & -> & <- & -> & <-). by rewrite decide_True.
Qed.
