(* ===== verification/Robots.v ===== *)
(** * Robots

    [adapters/network/urllib_robots.py] and the advice of [ports/robots.py]:
    the cache in front of [RobotFileParser], its disk copy, and the fetcher with
    its egress policy. The fetcher, the clocks, the disk and the logger are
    ports on a world of any type; the object's entries are the first component
    of the state. A call of [evaluate] holds the lock of its key, so calls for
    one key are atomic. A metadata file is its four fields, or the exception
    that reading it raises: its JSON text is not modelled. Theorems: unknown
    rules disallow, the cache fetches a key once per time-to-live, a fresh
    process reads from disk what was fetched, and the fetcher requests only what
    its policy admits. *)
From Stdlib Require Import Ascii Floats.
From S2P Require Import Prelude PyDict PyStr PyFloat UrlLib UrlJoin Url RobotParser.
Local Open Scope Z_scope.

(** ** RobotsAdvice (ports/robots.py) *)

Record RobotsAdvice := {
  ra_is_allowed : bool;
  ra_crawl_delay : option float;
  ra_request_rate : option (Z * Z);
  ra_disallow_reason : option string }.

(** [NoopRobotsPort.evaluate] *)
Definition noop_evaluate (url user_agent : string) : RobotsAdvice :=
  {| ra_is_allowed := true; ra_crawl_delay := None; ra_request_rate := None; ra_disallow_reason := None |}.

(** ** Fetch results and entries *)

Record RobotsFetchResult := { rf_status : Z; rf_body : string }.

Record CachedEntry := {
  ce_parser : RobotFileParser;
  ce_fetched_at : float;
  ce_fetched_at_wallclock : float;
  ce_status : Z;
  ce_robots_url : string;
  ce_body : option string }.

(** The metadata sidecar. *)
Record MetaFile := {
  mf_status : Z;
  mf_fetched_at_wallclock : float;
  mf_robots_url : string;
  mf_cache_key : string }.

Definition _FETCH_FAILURE_STATUS : Z := -1.
Definition _META_SUFFIX : string := ".meta.json".
Definition _BODY_SUFFIX : string := ".robots.txt".

(** ** Helpers *)

Section Helpers.
Context (env : NetEnv) (sha256_hexdigest : string -> string).

Definition _host_key (url : string) : res string :=
  let? parts := urlsplit env url in
  Ok (lower (sr_scheme parts +:+ "://" +:+ sr_netloc parts)).

Definition _cache_key (url user_agent : string) : res string :=
  let? host := _host_key url in Ok (host +:+ "|ua=" +:+ user_agent).

Definition _robots_url_for (url : string) : res string :=
  let? parts := urlsplit env url in
  Ok (urlunsplit (sr_scheme parts) (sr_netloc parts) "/robots.txt" "").

Definition _safe_filename (cache_key : string) : string := sha256_hexdigest cache_key.

Definition disallow_all_lines : list string := ["User-agent: *"; "Disallow: /"].

Definition _build_parser (status : Z) (body : string) : res RobotFileParser :=
  if status =? _FETCH_FAILURE_STATUS then robots_parse env disallow_all_lines
  else if status =? 404 then robots_parse env []
  else if status =? 200 then robots_parse env (splitlines body)
  else robots_parse env disallow_all_lines.

Definition _advice_from_parser (parser : RobotFileParser) (url user_agent : string) (status : Z) : res RobotsAdvice :=
  let? is_allowed := can_fetch env parser user_agent url in
  let? delay := match crawl_delay parser user_agent with
                | None => Ok None
                | Some n => let? f := float_of_int n in Ok (Some f)
                end in
  Ok {| ra_is_allowed := is_allowed; ra_crawl_delay := delay; ra_request_rate := request_rate parser user_agent;
        ra_disallow_reason := if is_allowed then None
          else Some ("robots.txt status=" +:+ pretty status +:+ "; user-agent=" +:+ user_agent +:+ " disallowed") |}.

Definition unavailable_advice : RobotsAdvice :=
  {| ra_is_allowed := false; ra_crawl_delay := None; ra_request_rate := None;
     ra_disallow_reason := Some "robots.txt unavailable; cooperative crawler defaults to disallow" |}.
End Helpers.

(** ** UrllibRobotsParser *)

Record RobotsPorts (E : Type) := {
  rb_fetcher : string -> string -> M E RobotsFetchResult;
  rb_clock : M E float;
  rb_wallclock : M E float;
  (** [None] when the file does not exist. *)
  rb_read_meta : string -> M E (option MetaFile);
  rb_read_body : string -> M E (option string);
  (** Writing a file atomically, and removing one; they raise [OSError]. *)
  rb_replace_meta : string -> MetaFile -> M E unit;
  rb_replace_body : string -> string -> M E unit;
  rb_unlink_body : string -> M E unit;
  rb_warn : string -> string -> M E unit }.
Arguments rb_fetcher {E} _ _ _.
Arguments rb_clock {E} _.
Arguments rb_wallclock {E} _.
Arguments rb_read_meta {E} _ _.
Arguments rb_read_body {E} _ _.
Arguments rb_replace_meta {E} _ _ _.
Arguments rb_replace_body {E} _ _ _.
Arguments rb_unlink_body {E} _ _.
Arguments rb_warn {E} _ _ _.

Record RobotsConfig := {
  rc_ttl : float;
  rc_failure_ttl : float;
  (** [cache_dir is not None] *)
  rc_on_disk : bool }.

(** [__init__] *)
Definition new_robots_config (ttl_seconds failure_ttl_seconds : float) (on_disk : bool) : res RobotsConfig :=
  do? guard (negb (PrimFloat.leb ttl_seconds 0)) (ValueError "ttl_seconds must be positive") in
  do? guard (negb (PrimFloat.leb failure_ttl_seconds 0)) (ValueError "failure_ttl_seconds must be positive") in
  Ok {| rc_ttl := ttl_seconds; rc_failure_ttl := failure_ttl_seconds; rc_on_disk := on_disk |}.

Section Adapter.
Context (env : NetEnv) (sha256_hexdigest : string -> string) {E : Type} (P : RobotsPorts E) (cfg : RobotsConfig).
#[local] Abbreviation Cache := (dict string CachedEntry).
#[local] Abbreviation Mr := (M (Cache * E)).

Definition ttl_of (status : Z) : float := if status =? _FETCH_FAILURE_STATUS then rc_failure_ttl cfg else rc_ttl cfg.

Definition _is_expired (entry : CachedEntry) (now : float) : bool :=
  PrimFloat.leb (ttl_of (ce_status entry)) (PrimFloat.sub now (ce_fetched_at entry)).

Definition _disk_paths (cache_key : string) : option (string * string) :=
  if rc_on_disk cfg then
    let safe := _safe_filename sha256_hexdigest cache_key in Some (safe +:+ _BODY_SUFFIX, safe +:+ _META_SUFFIX)
  else None.

Definition _fetch_with_fallback (url user_agent : string) : M E CachedEntry :=
  let* robots_url := lift (_robots_url_for env url) in
  let* fetched := attempt (rb_fetcher P robots_url user_agent) in
  match fetched with
  | Raise _ =>
      do* rb_warn P "robots.txt fetch failed; fail-closed" robots_url in
      let* parser := lift (_build_parser env _FETCH_FAILURE_STATUS "") in
      let* fetched_at := rb_clock P in
      let* fetched_at_wallclock := rb_wallclock P in
      ret {| ce_parser := parser; ce_fetched_at := fetched_at; ce_fetched_at_wallclock := fetched_at_wallclock;
             ce_status := _FETCH_FAILURE_STATUS; ce_robots_url := robots_url; ce_body := None |}
  | Ok result =>
      let* parser := lift (_build_parser env (rf_status result) (rf_body result)) in
      let* fetched_at := rb_clock P in
      let* fetched_at_wallclock := rb_wallclock P in
      ret {| ce_parser := parser; ce_fetched_at := fetched_at; ce_fetched_at_wallclock := fetched_at_wallclock;
             ce_status := rf_status result; ce_robots_url := robots_url;
             ce_body := if (200 <=? rf_status result) && (rf_status result <? 300) then Some (rf_body result) else None |}
  end.

(** [except (OSError, ValueError, KeyError)] around the metadata. *)
Definition caught_by_meta (e : exn) : bool :=
  match e with KeyError _ => true | _ => subclass_os_error e || subclass_value_error e end.

Definition _read_disk_cache (cache_key : string) (now : float) : M E (option CachedEntry) :=
  match _disk_paths cache_key with
  | None => ret None
  | Some (body_path, meta_path) =>
      let* read := attempt (rb_read_meta P meta_path) in
      match read with
      | Raise e => if caught_by_meta e then ret None else raise e
      | Ok None => ret None
      | Ok (Some meta) =>
          if negb (bool_decide (mf_cache_key meta = cache_key)) then ret None
          else
            let* wall_now := rb_wallclock P in
            let elapsed_wall := PrimFloat.sub wall_now (mf_fetched_at_wallclock meta) in
            if PrimFloat.ltb elapsed_wall 0 || PrimFloat.leb (ttl_of (mf_status meta)) elapsed_wall then ret None
            else
              let* body := attempt (rb_read_body P body_path) in
              match body with
              | Raise e => if subclass_os_error e then ret None else raise e
              | Ok body =>
                  let* parser := lift (_build_parser env (mf_status meta) (default "" body)) in
                  ret (Some {| ce_parser := parser; ce_fetched_at := PrimFloat.sub now elapsed_wall;
                               ce_fetched_at_wallclock := mf_fetched_at_wallclock meta; ce_status := mf_status meta;
                               ce_robots_url := mf_robots_url meta; ce_body := body |})
              end
      end
  end.

Definition _write_disk_cache (cache_key : string) (entry : CachedEntry) : M E unit :=
  match _disk_paths cache_key with
  | None => ret tt
  | Some (body_path, meta_path) =>
      let* written := attempt (
        do* match ce_body entry with
            | Some body => rb_replace_body P body_path body
            | None => rb_unlink_body P body_path
            end in
        rb_replace_meta P meta_path {| mf_status := ce_status entry; mf_fetched_at_wallclock := ce_fetched_at_wallclock entry;
                                       mf_robots_url := ce_robots_url entry; mf_cache_key := cache_key |}) in
      match written with
      | Ok _ => ret tt
      | Raise e => if subclass_os_error e then rb_warn P "robots.txt on-disk cache write failed" cache_key else raise e
      end
  end.

Definition store_entry (cache_key : string) (entry : CachedEntry) : Mr unit :=
  modify (fun p => (dict_set p.1 cache_key entry, p.2)).

(** The disk, then the network. *)
Definition load_entry (cache_key url user_agent : string) (now : float) : Mr CachedEntry :=
  let* disk_entry := on_world (_read_disk_cache cache_key now) in
  match disk_entry with
  | Some entry => do* store_entry cache_key entry in ret entry
  | None =>
      let* entry := on_world (_fetch_with_fallback url user_agent) in
      do* store_entry cache_key entry in
      do* on_world (_write_disk_cache cache_key entry) in
      ret entry
  end.

Definition _get_or_fetch (cache_key url user_agent : string) : Mr CachedEntry :=
  let* now := on_world (rb_clock P) in
  let* cached := gets (fun p => dict_get p.1 cache_key) in
  match cached with
  | Some entry => if negb (_is_expired entry now) then ret entry else load_entry cache_key url user_agent now
  | None => load_entry cache_key url user_agent now
  end.

Definition evaluate (url user_agent : string) : Mr RobotsAdvice :=
  let* cache_key := lift (_cache_key env url user_agent) in
  let* entry := _get_or_fetch cache_key url user_agent in
  if ce_status entry =? _FETCH_FAILURE_STATUS then ret unavailable_advice
  else lift (_advice_from_parser env (ce_parser entry) url user_agent (ce_status entry)).
End Adapter.

(** ** make_httpx_robots_fetcher *)

Record FetcherConfig := {
  fc_max_redirects : nat;
  (** lower-cased origins *)
  fc_allowlist : list string;
  fc_allow_private_network : bool }.

(** A response: status, [location] header, text. *)
Record RobotsResponse := { rr_status : Z; rr_location : option string; rr_text : string }.

Record FetcherPorts (E : Type) := {
  (** [client.get(url)] of a client with this user agent *)
  ft_get : string -> string -> M E RobotsResponse;
  ft_resolver : string -> M E (list string) }.
Arguments ft_get {E} _ _ _.
Arguments ft_resolver {E} _ _.

Section Fetcher.
Context (env : NetEnv) (ipv6_internal : string -> option bool) {E : Type} (P : FetcherPorts E) (cfg : FetcherConfig).

(** [ip_address] and the five predicates, as [None] when it raises;
    [ipv6_internal] is that of IPv6 literals. *)
Definition internal_address (addr : string) : option bool :=
  match ipv4_address addr with
  | Some ip => Some (ipv4_is_private ip || ipv4_is_loopback ip || ipv4_is_link_local ip || ipv4_is_multicast ip || (ip =? 0))
  | None => ipv6_internal addr
  end.

Definition _is_private_host (host : string) : bool :=
  bool_decide (host = "localhost") || default false (internal_address host).

Definition _host_resolves_to_private (host : string) : M E bool :=
  let* resolved := attempt (ft_resolver P host) in
  ret (match resolved with
       | Raise _ | Ok [] => true
       | Ok addrs => existsb (fun addr => default true (internal_address addr)) addrs
       end).

Definition _check_policy (url : string) : M E unit :=
  let* parsed := lift (urlsplit env url) in
  do* lift (guard (bool_decide (sr_scheme parsed ∈ ["http"; "https"]) && truthy_str (sr_netloc parsed))
              (RobotsFetchPolicyError "unsupported robots URL scheme")) in
  match hostname parsed with
  | None => raise (RobotsFetchPolicyError "robots.txt URL missing host")
  | Some host =>
      let* private := (if fc_allow_private_network cfg then ret false
                       else if _is_private_host host then ret true
                       else _host_resolves_to_private host) in
      if private : bool then raise (RobotsFetchPolicyError "robots.txt host resolves to a private / loopback network")
      else lift (guard (negb (truthy_list (fc_allowlist cfg))
                        || bool_decide (lower (sr_scheme parsed +:+ "://" +:+ sr_netloc parsed) ∈ fc_allowlist cfg))
                       (RobotsFetchPolicyError "robots.txt origin not in egress allowlist"))
  end.

(** The loop over the hops still allowed. *)
Fixpoint fetch_hops (user_agent : string) (hops : nat) (current_url : string) : M E RobotsFetchResult :=
  match hops with
  | O => ret {| rf_status := 302; rf_body := "" |}
  | S hops =>
      do* _check_policy current_url in
      let* response := ft_get P user_agent current_url in
      let status := rr_status response in
      let result := {| rf_status := status; rf_body := rr_text response |} in
      if negb ((300 <=? status) && (status <? 400)) then ret result
      else match rr_location response with
           | Some location =>
               if truthy_str location then
                 let* next_url := lift (urljoin env current_url location) in
                 fetch_hops user_agent hops next_url
               else ret result
           | None => ret result
           end
  end.

Definition fetch_robots (robots_url user_agent : string) : M E RobotsFetchResult :=
  fetch_hops user_agent (S (fc_max_redirects cfg)) robots_url.
End Fetcher.

(** ** Rules that are not known disallow *)

Section Rules.
Context (env : NetEnv).

(** The text of a URL whose path has a root begins with it. *)
Definition rooted (url : string) : Prop :=
  exists parsed, urlparse env (unquote url) "" = Ok parsed /\ startswith "/" (pr_path parsed) = true.

Lemma startswith_slash s : startswith "/" s = true <-> exists r, s = String "/" r.
Proof.
  rewrite startswith_spec. simpl. split; [intros [r ->]; by exists r|intros [r ->]; by exists r].
Qed.

Lemma robots_path_rooted url : rooted url -> exists path, robots_path env url = Ok path /\ startswith "/" path = true.
Proof.
  intros (parsed & Hp & (r & Hr)%startswith_slash). unfold robots_path. rewrite Hp. simpl.
  unfold urlunparse. simpl. rewrite Hr. unfold urlunsplit. simpl.
  set (path := if truthy_str _ then _ else _). assert (exists r', path = String "/" r') as [r' ->].
  { unfold path. repeat case_match; simpl; by eexists. }
  simpl. eexists. split; [done|]. apply startswith_slash. by eexists.
Qed.

Lemma build_parser_closed status body : status <> 404 -> status <> 200 ->
  _build_parser env status body = robots_parse env disallow_all_lines.
Proof.
  intros H1 H2. unfold _build_parser. destruct (Z.eqb_spec status _FETCH_FAILURE_STATUS); [done|].
  destruct (Z.eqb_spec status 404); [done|]. by destruct (Z.eqb_spec status 200).
Qed.

Lemma disallow_all_disallows p ua url : robots_parse env disallow_all_lines = Ok p -> rooted url -> can_fetch env p ua url = Ok false.
Proof.
  intros Hp (path & Hpath & (r & ->)%startswith_slash)%robots_path_rooted. vm_compute in Hp. injection Hp as <-.
  unfold can_fetch. rewrite Hpath.
  assert (rule_applies {| rl_path := "/"; rl_allowance := false |} (String "/" r) = true) as Hr.
  { unfold rule_applies. apply orb_true_iff. right. apply startswith_slash. by exists r. }
  cbn. unfold entry_allowance. cbn [List.find en_rulelines]. by rewrite Hr.
Qed.

(** Status and rules of an entry agree. *)
Definition built (entry : CachedEntry) : Prop :=
  exists body, _build_parser env (ce_status entry) body = Ok (ce_parser entry) /\
    (ce_status entry = 200 -> body = default "" (ce_body entry)).
Definition all_built (cache : dict string CachedEntry) : Prop := forall key entry, dict_get cache key = Some entry -> built entry.
End Rules.

Section Evaluate.
Context (env : NetEnv) (sha256_hexdigest : string -> string) {E : Type} (P : RobotsPorts E) (cfg : RobotsConfig).
#[local] Abbreviation Cache := (dict string CachedEntry).
#[local] Abbreviation get_or_fetch := (_get_or_fetch env sha256_hexdigest P cfg).
#[local] Abbreviation evaluate := (evaluate env sha256_hexdigest P cfg).

Lemma fetch_built url ua e entry e' : _fetch_with_fallback env P url ua e = (Ok entry, e') -> built env entry.
Proof.
  unfold _fetch_with_fallback. intros (robots_url & e1 & _ & H)%bind_ok. apply bind_ok in H as (fetched & e2 & _ & H).
  destruct fetched as [result|x].
  - run_m H. apply lift_ok in Hm as [Hm ->]. exists (rf_body result). simpl. split; [done|]. intros Hs. by rewrite Hs.
  - run_m H. apply lift_ok in Hm0 as [Hm0 ->]. exists "". simpl. split; [done|]. unfold _FETCH_FAILURE_STATUS. lia.
Qed.

Lemma read_built key now e entry e' : _read_disk_cache env sha256_hexdigest P cfg key now e = (Ok (Some entry), e') -> built env entry.
Proof.
  unfold _read_disk_cache. destruct (_disk_paths _ cfg key) as [[bp mp]|]; [|done].
  intros (read & e1 & _ & H)%bind_ok. destruct read as [[meta|]|x]; [|done|by destruct (caught_by_meta x)].
  destruct (negb _); [done|]. apply bind_ok in H as (wall & e2 & _ & H). destruct (_ || _); [done|].
  apply bind_ok in H as (body & e3 & _ & H). destruct body as [body|[]]; try done. run_m H. apply lift_ok in Hm as [Hm ->]. by exists (default "" body).
Qed.

Lemma load_entry_spec key url ua now p entry p' : load_entry env sha256_hexdigest P cfg key url ua now p = (Ok entry, p') ->
  dict_get p'.1 key = Some entry /\ built env entry /\ (forall k, k <> key -> dict_get p'.1 k = dict_get p.1 k).
Proof.
  unfold load_entry. intros (disk & p1 & [Hd Hp1]%on_world_ok & H)%bind_ok. destruct disk as [de|].
  - apply bind_ok in H as (u & p2 & [= _ <-] & [= <- <-]). simpl. rewrite Hp1. split; [apply dict_get_set_eq|]. split; [by eapply read_built|]. intros k Hk. by apply dict_get_set_ne.
  - apply bind_ok in H as (fe & p2 & [Hf Hp2]%on_world_ok & H). apply bind_ok in H as (u & p3 & [= _ <-] & H).
    apply bind_ok in H as (u' & p4 & [_ Hp4]%on_world_ok & [= <- <-]). rewrite Hp4. simpl. rewrite Hp2, Hp1.
    split; [apply dict_get_set_eq|]. split; [by eapply fetch_built|]. intros k Hk. by apply dict_get_set_ne.
Qed.

Lemma get_or_fetch_spec key url ua p entry p' : get_or_fetch key url ua p = (Ok entry, p') -> all_built env p.1 ->
  dict_get p'.1 key = Some entry /\ built env entry /\ (forall k, k <> key -> dict_get p'.1 k = dict_get p.1 k).
Proof.
  unfold _get_or_fetch. intros (now & p1 & [_ Hp1]%on_world_ok & H)%bind_ok Hb. apply bind_ok in H as (cached & p2 & [= <- <-] & H).
  rewrite <-Hp1 in Hb |- *. destruct (dict_get p1.1 key) as [c|] eqn:Hc; [|by eapply load_entry_spec].
  destruct (_is_expired cfg c now); simpl in H; [by eapply load_entry_spec|]. injection H as <- <-. by split_and!; [|eapply Hb|].
Qed.

(** Rules that are not known disallow: if a URL with a rooted path is
    allowed, the entry the call used has the status 404, or the status 200 and
    rules that allow the URL; a fetch that failed, a redirect that was not
    resolved, and every other status disallow. *)
Theorem unknown_rules_disallow url ua p advice p' :
  evaluate url ua p = (Ok advice, p') -> all_built env p.1 -> rooted env url ->
  all_built env p'.1 /\
  (ra_is_allowed advice = true ->
   exists key entry, _cache_key env url ua = Ok key /\ dict_get p'.1 key = Some entry /\
     (ce_status entry = 404 \/
      ce_status entry = 200 /\ can_fetch env (ce_parser entry) ua url = Ok true /\
        robots_parse env (splitlines (default "" (ce_body entry))) = Ok (ce_parser entry))).
Proof.
  unfold Robots.evaluate. intros (key & p1 & [= Hk ->] & H)%bind_ok Hb Hroot.
  apply bind_ok in H as (entry & p2 & (Hin & (body & Hparse & Hbody) & Hother)%get_or_fetch_spec & H); [|done].
  assert (p' = p2) as -> by (destruct (ce_status entry =? _FETCH_FAILURE_STATUS); by injection H).
  split. { intros k en Hget. destruct (decide (k = key)) as [->|Hne]; [|eapply Hb; by rewrite <-Hother].
    rewrite Hin in Hget. injection Hget as <-. by exists body. }
  intros Hallowed. exists key, entry. split; [done|]. split; [done|].
  destruct (ce_status entry =? _FETCH_FAILURE_STATUS); [by injection H as <-|]. unfold lift in H. injection H as H.
  unfold _advice_from_parser in H. apply rbind_ok in H as (is_allowed & Hcan & H). apply rbind_ok in H as (d & _ & [= <-]).
  simpl in Hallowed. subst is_allowed.
  destruct (decide (ce_status entry = 404)) as [|H404]; [by left|]. right.
  destruct (decide (ce_status entry = 200)) as [H200|H200].
  - split_and!; [done..|]. rewrite <-(Hbody H200). by rewrite H200 in Hparse.
  - rewrite build_parser_closed in Hparse by done. rewrite (disallow_all_disallows env _ ua url Hparse Hroot) in Hcan. done.
Qed.
End Evaluate.

(** ** One fetch per key and time-to-live *)

(** [fetched e]: the calls of the fetcher so far; nothing else adds any. *)
Class RobotsLaws {E : Type} (P : RobotsPorts E) := {
  fetched : E -> list (string * string);
  fetcher_fetched : forall url ua e, fetched (rb_fetcher P url ua e).2 = fetched e ++ [(url, ua)];
  clock_fetched : forall e, fetched (rb_clock P e).2 = fetched e;
  wallclock_fetched : forall e, fetched (rb_wallclock P e).2 = fetched e;
  read_meta_fetched : forall f e, fetched (rb_read_meta P f e).2 = fetched e;
  read_body_fetched : forall f e, fetched (rb_read_body P f e).2 = fetched e;
  replace_meta_fetched : forall f m e, fetched (rb_replace_meta P f m e).2 = fetched e;
  replace_body_fetched : forall f b e, fetched (rb_replace_body P f b e).2 = fetched e;
  unlink_body_fetched : forall f e, fetched (rb_unlink_body P f e).2 = fetched e;
  warn_fetched : forall m x e, fetched (rb_warn P m x e).2 = fetched e }.

Section FetchOnce.
Context (env : NetEnv) (sha256_hexdigest : string -> string) {E : Type} (P : RobotsPorts E) (cfg : RobotsConfig) `{L : !RobotsLaws P}.
#[local] Abbreviation Cache := (dict string CachedEntry).
#[local] Abbreviation get_or_fetch := (_get_or_fetch env sha256_hexdigest P cfg).
#[local] Abbreviation evaluate := (evaluate env sha256_hexdigest P cfg).

Definition idle {A} (m : M E A) : Prop := forall e, fetched (m e).2 = fetched e.

Lemma idle_bind {A B} (m : M E A) (k : A -> M E B) : idle m -> (forall x, idle (k x)) -> idle (bind m k).
Proof. intros Hm Hk e. unfold bind. specialize (Hm e). destruct (m e) as [[x|x] e1]; simpl in *; [|done]. by rewrite (Hk x e1). Qed.
Lemma idle_attempt {A} (m : M E A) : idle m -> idle (attempt m).
Proof. intros Hm e. unfold attempt. specialize (Hm e). by destruct (m e). Qed.

Ltac idle_step :=
  first
  [ done
  | intros ?; first [ apply clock_fetched | apply wallclock_fetched | apply read_meta_fetched | apply read_body_fetched
      | apply replace_meta_fetched | apply replace_body_fetched | apply unlink_body_fetched | apply warn_fetched ]
  | apply idle_attempt | apply idle_bind; [|intros ?]
  | match goal with
    | |- idle (match ?x with _ => _ end) => destruct x
    | |- idle (if ?x then _ else _) => destruct x
    end ].
Ltac idle_solve := repeat idle_step.

Lemma read_idle key now : idle (_read_disk_cache env sha256_hexdigest P cfg key now).
Proof. unfold _read_disk_cache. idle_solve. Qed.
Lemma write_idle key entry : idle (_write_disk_cache sha256_hexdigest P cfg key entry).
Proof. unfold _write_disk_cache. idle_solve. Qed.

(** *** A window shorter than the time-to-live *)

(** Clock readings no two of which are a time-to-live apart. *)
Variable W : float -> Prop.
Hypothesis W_short : forall a b status, W a -> W b -> PrimFloat.leb (ttl_of cfg status) (PrimFloat.sub b a) = false.
Hypothesis clock_in_window : forall e, exists t e', rb_clock P e = (Ok t, e') /\ W t.
Hypothesis wallclock_returns : forall e, is_ok (rb_wallclock P e).1 = true.
Hypothesis warn_returns : forall m x e, is_ok (rb_warn P m x e).1 = true.
(** What is fetched can be parsed. *)
Hypothesis bodies_parse : forall url ua e result e', rb_fetcher P url ua e = (Ok result, e') ->
  is_ok (_build_parser env (rf_status result) (rf_body result)) = true.

Lemma fetch_in_window url ua e : match _robots_url_for env url with
  | Raise x => _fetch_with_fallback env P url ua e = (Raise x, e)
  | Ok robots_url => exists entry e', _fetch_with_fallback env P url ua e = (Ok entry, e') /\ W (ce_fetched_at entry) /\
      fetched e' = fetched e ++ [(robots_url, ua)]
  end.
Proof.
  unfold _fetch_with_fallback, bind at 1. destruct (_robots_url_for env url) as [robots_url|x]; [|done]. simpl.
  unfold bind at 1, attempt. pose proof (fetcher_fetched robots_url ua e) as Hf.
  destruct (rb_fetcher P robots_url ua e) as [[result|x] e1] eqn:Er; simpl in Hf.
  - unfold lift, bind. pose proof (bodies_parse _ _ _ _ _ Er) as Hp. destruct (_build_parser _ _ _) as [parser|]; [|done].
    destruct (clock_in_window e1) as (t & e2 & Ht & Hw). pose proof (clock_fetched e1) as Hc. rewrite Ht in Hc |- *. simpl in Hc.
    pose proof (wallclock_returns e2) as Hwr. pose proof (wallclock_fetched e2) as Hwf. destruct (rb_wallclock P e2) as [[w|] e3]; [|done].
    simpl in Hwf. eexists _, e3. split; [reflexivity|]. split; [done|]. congruence.
  - unfold bind at 1. pose proof (warn_returns "robots.txt fetch failed; fail-closed" robots_url e1) as Hwn.
    pose proof (warn_fetched "robots.txt fetch failed; fail-closed" robots_url e1) as Hwnf.
    destruct (rb_warn P _ robots_url e1) as [[u|] e1']; [|done]. simpl in Hwnf.
    unfold lift, bind. destruct (_build_parser env _FETCH_FAILURE_STATUS "") as [parser|] eqn:Ebp; [|by vm_compute in Ebp].
    destruct (clock_in_window e1') as (t & e2 & Ht & Hw). pose proof (clock_fetched e1') as Hc. rewrite Ht in Hc |- *. simpl in Hc.
    pose proof (wallclock_returns e2) as Hwr. pose proof (wallclock_fetched e2) as Hwf. destruct (rb_wallclock P e2) as [[w|] e3]; [|done].
    simpl in Hwf. eexists _, e3. split; [reflexivity|]. split; [done|]. congruence.
Qed.

(** The entry of a key was fetched in the window. *)
Definition held (cache : Cache) (key : string) : Prop := exists entry, dict_get cache key = Some entry /\ W (ce_fetched_at entry).

(** What a call does to the fetcher and to the entries. *)
Definition fetch_step (key url ua : string) (p p' : Cache * E) : Prop :=
  (forall k, held p.1 k -> held p'.1 k) /\
  (fetched p'.2 = fetched p.2 \/
   ~ held p.1 key /\ held p'.1 key /\ exists robots_url, _robots_url_for env url = Ok robots_url /\
     fetched p'.2 = fetched p.2 ++ [(robots_url, ua)]).

Lemma held_set cache key entry k : held cache k -> (k = key -> W (ce_fetched_at entry)) -> held (dict_set cache key entry) k.
Proof.
  intros (en & Hen & Hw) Hk. unfold held. rewrite dict_get_set. case_decide as Heq; [|eauto]. eauto.
Qed.

Lemma load_entry_step key url ua now p : ~ held p.1 key ->
  fetch_step key url ua p (load_entry env sha256_hexdigest P cfg key url ua now p).2.
Proof.
  intros Hno. unfold load_entry, bind at 1. rewrite on_world_run. pose proof (read_idle key now p.2) as Hr.
  destruct (_read_disk_cache _ _ _ _ key now p.2) as [[disk|x] e1]; simpl in Hr |- *; [|by split; [|left]].
  destruct disk as [entry|].
  - split; [|by left]. intros k Hk. simpl. apply held_set; [done|]. by intros ->.
  - unfold bind at 1. rewrite on_world_run. simpl. pose proof (fetch_in_window url ua e1) as Hf.
    destruct (_robots_url_for env url) as [robots_url|x] eqn:Eu; [|rewrite Hf; simpl; by split; [|left]].
    destruct Hf as (entry & e2 & -> & Hw & Hfe). simpl. unfold bind, store_entry, modify. simpl. rewrite on_world_run. simpl.
    pose proof (write_idle key entry e2) as Hwr. destruct (_write_disk_cache _ _ _ key entry e2) as [[u|x] e3]; simpl in Hwr |- *;
      (split; [intros k Hk; apply held_set; [done|by intros ->]|]); right; (split; [done|]);
      (split; [exists entry; split; [apply dict_get_set_eq|done]|]); exists robots_url; (split; [done|simpl; by rewrite Hwr, Hfe, Hr]).
Qed.

Lemma get_or_fetch_step key url ua p : fetch_step key url ua p (get_or_fetch key url ua p).2.
Proof.
  unfold _get_or_fetch, bind at 1. rewrite on_world_run. destruct (clock_in_window p.2) as (now & e1 & Hc & Hw).
  pose proof (clock_fetched p.2) as Hf. rewrite Hc in Hf |- *. simpl in Hf |- *. unfold bind, gets. simpl.
  assert (forall p', fetch_step key url ua (p.1, e1) p' -> fetch_step key url ua p p') as Hsame.
  { intros p' [H1 H2]. simpl in H1, H2. rewrite Hf in H2. by split. }
  apply Hsame. destruct (dict_get p.1 key) as [entry|] eqn:Eg.
  - destruct (_is_expired cfg entry now) eqn:Ex; simpl; [|by split; [|left]].
    apply load_entry_step. intros (en & Hen & HW). simpl in Hen. rewrite Eg in Hen. injection Hen as <-.
    unfold _is_expired in Ex. by rewrite W_short in Ex.
  - apply load_entry_step. intros (en & Hen & _). simpl in Hen. congruence.
Qed.

Lemma evaluate_step url ua p : match _cache_key env url ua with
  | Raise x => evaluate url ua p = (Raise x, p)
  | Ok key => fetch_step key url ua p (evaluate url ua p).2
  end.
Proof.
  unfold Robots.evaluate, bind at 1. destruct (_cache_key env url ua) as [key|x]; [|done]. simpl.
  pose proof (get_or_fetch_step key url ua p) as H. unfold bind. destruct (get_or_fetch key url ua p) as [[entry|x] p1]; [|done].
  destruct (_ =? _); done.
Qed.

(** Calls in a row, whatever they raise. *)
Fixpoint evaluate_all (calls : list (string * string)) : M (Cache * E) unit :=
  match calls with
  | [] => ret tt
  | (url, ua) :: calls => let* _ := attempt (evaluate url ua) in evaluate_all calls
  end.

Definition call_key (call : string * string) : option string :=
  match _cache_key env call.1 call.2 with Ok key => Some key | Raise _ => None end.
Definition call_fetch (call : string * string) : option (string * string) :=
  match _robots_url_for env call.1 with Ok url => Some (url, call.2) | Raise _ => None end.

(** Fetch once per host, user agent and time-to-live: over any calls whose
    clock readings are less than a time-to-live apart, on any cache and disk,
    with a fetcher that may fail, the calls that reached the fetcher all have
    different cache keys. *)
Theorem fetched_once_per_window calls p :
  let p' := (evaluate_all calls p).2 in
  exists fetching, fetching `sublist_of` calls /\ fetched p'.2 = fetched p.2 ++ omap call_fetch fetching /\
    NoDup (omap call_key fetching) /\ length (omap call_key fetching) = length fetching /\
    length (omap call_fetch fetching) = length fetching.
Proof.
  cbv zeta. cut (exists fetching, fetching `sublist_of` calls /\ fetched (evaluate_all calls p).2.2 = fetched p.2 ++ omap call_fetch fetching /\
    NoDup (omap call_key fetching) /\ length (omap call_key fetching) = length fetching /\
    length (omap call_fetch fetching) = length fetching /\ forall key, key ∈ omap call_key fetching -> ~ held p.1 key).
  { intros (fetching & ? & ? & ? & ? & ? & _). by exists fetching. }
  revert p. induction calls as [|[url ua] calls IH]; intros p.
  { exists []. simpl. rewrite app_nil_r. split_and!; try done; [constructor|]. by intros k ?%elem_of_nil. }
  cbn [evaluate_all]. pose proof (evaluate_step url ua p) as Hstep. unfold bind, attempt.
  destruct (evaluate url ua p) as [r p1]. destruct (IH p1) as (fetching & Hsub & Hf & Hnd & Hlk & Hlf & Hnew).
  assert (forall p2 : Cache * E, (forall k, held p2.1 k -> held p1.1 k) -> fetched p1.2 = fetched p2.2 ->
    exists fetching0, fetching0 `sublist_of` (url, ua) :: calls /\ fetched (evaluate_all calls p1).2.2 = fetched p2.2 ++ omap call_fetch fetching0 /\
      NoDup (omap call_key fetching0) /\ length (omap call_key fetching0) = length fetching0 /\
      length (omap call_fetch fetching0) = length fetching0 /\ forall key, key ∈ omap call_key fetching0 -> ~ held p2.1 key) as Hskip.
  { intros p2 Hmono Hsame. exists fetching. split; [by apply sublist_cons|]. rewrite Hf, Hsame. split_and!; try done.
    intros key Hin Hheld. by apply (Hnew key Hin), Hmono. }
  destruct (_cache_key env url ua) as [key|x] eqn:Ek; [|injection Hstep as _ ->; by apply Hskip].
  simpl in Hstep. destruct Hstep as [Hmono [Hsame|(Hno & Hheld & robots_url & Eu & Hfe)]]; [by apply Hskip|].
  exists ((url, ua) :: fetching). assert (call_key (url, ua) = Some key) as Hk by (unfold call_key; simpl; by rewrite Ek).
  assert (call_fetch (url, ua) = Some (robots_url, ua)) as Hcf by (unfold call_fetch; simpl; by rewrite Eu).
  simpl omap. rewrite Hk, Hcf. split; [by apply sublist_skip|]. rewrite Hf, Hfe, <-app_assoc. split; [done|].
  split. { apply NoDup_cons. split; [|done]. intros Hin. by apply (Hnew key Hin). }
  simpl. split; [by f_equal|]. split; [by f_equal|]. intros k [->|Hin]%elem_of_cons; [done|]. intros Hh. by apply (Hnew k Hin), Hmono.
Qed.
End FetchOnce.

(** ** A fresh process reads what was fetched *)

(** [meta_at e f], [body_at e f]: the files of a disk that works. *)
Class DiskLaws {E : Type} (P : RobotsPorts E) := {
  meta_at : E -> string -> option MetaFile;
  body_at : E -> string -> option string;
  read_meta_at : forall f e, rb_read_meta P f e = (Ok (meta_at e f), e);
  read_body_at : forall f e, rb_read_body P f e = (Ok (body_at e f), e);
  replace_meta_at : forall f m e, exists e', rb_replace_meta P f m e = (Ok tt, e') /\
    meta_at e' f = Some m /\ forall f', body_at e' f' = body_at e f';
  replace_body_at : forall f b e, exists e', rb_replace_body P f b e = (Ok tt, e') /\ body_at e' f = Some b;
  unlink_body_at : forall f e, exists e', rb_unlink_body P f e = (Ok tt, e') /\ body_at e' f = None;
  wallclock_files : forall e f, body_at (rb_wallclock P e).2 f = body_at e f }.

Section RoundTrip.
Context (env : NetEnv) (sha256_hexdigest : string -> string) {E : Type} (P : RobotsPorts E) (cfg : RobotsConfig) `{D : !DiskLaws P}.

Lemma build_parser_body status body1 body2 : status <> 200 -> _build_parser env status body1 = _build_parser env status body2.
Proof. intros H. unfold _build_parser. repeat case_match; try done. by apply Z.eqb_eq in H2. Qed.

Lemma fetch_entry url ua e entry e' : _fetch_with_fallback env P url ua e = (Ok entry, e') ->
  _build_parser env (ce_status entry) (default "" (ce_body entry)) = Ok (ce_parser entry).
Proof.
  intros (body & Hb & H200)%fetch_built. destruct (decide (ce_status entry = 200)) as [Hs|Hs]; [by rewrite <-H200|].
  by rewrite (build_parser_body _ _ body).
Qed.

(** What was fetched is what a fresh process reads: after an entry was
    fetched and written, any process that finds its files, with a wall clock
    within the time-to-live, gets from disk an entry with the same rules, status
    and body, and the same age. *)
Theorem disk_round_trip url ua key now e e1 e2 e3 e4 entry wall :
  rc_on_disk cfg = true ->
  _fetch_with_fallback env P url ua e = (Ok entry, e1) ->
  _write_disk_cache sha256_hexdigest P cfg key entry e1 = (Ok tt, e2) ->
  (forall f, meta_at e3 f = meta_at e2 f /\ body_at e3 f = body_at e2 f) ->
  rb_wallclock P e3 = (Ok wall, e4) ->
  let age := PrimFloat.sub wall (ce_fetched_at_wallclock entry) in
  PrimFloat.ltb age 0 = false -> PrimFloat.leb (ttl_of cfg (ce_status entry)) age = false ->
  _read_disk_cache env sha256_hexdigest P cfg key now e3 =
    (Ok (Some {| ce_parser := ce_parser entry; ce_fetched_at := PrimFloat.sub now age;
                 ce_fetched_at_wallclock := ce_fetched_at_wallclock entry; ce_status := ce_status entry;
                 ce_robots_url := ce_robots_url entry; ce_body := ce_body entry |}), e4).
Proof.
  intros Hdisk Hfetch Hwrite Hfiles Hwall age H0 Httl. unfold _write_disk_cache, _read_disk_cache, _disk_paths in *. rewrite Hdisk in *.
  set (fb := _ +:+ _BODY_SUFFIX) in *. set (fm := _ +:+ _META_SUFFIX) in *.
  assert (body_at e2 fb = ce_body entry /\ exists m, meta_at e2 fm = Some m /\ mf_status m = ce_status entry /\
    mf_fetched_at_wallclock m = ce_fetched_at_wallclock entry /\ mf_robots_url m = ce_robots_url entry /\ mf_cache_key m = key)
    as (Hbody & m & Hm & Hs & Hw & Hu & Hk).
  { unfold bind, attempt in Hwrite.
    assert (exists e5, (match ce_body entry with Some body => rb_replace_body P fb body | None => rb_unlink_body P fb end) e1 = (Ok tt, e5) /\
      body_at e5 fb = ce_body entry) as (e5 & Hbw & Hb5).
    { destruct (ce_body entry) as [b|]; [apply replace_body_at|apply unlink_body_at]. }
    rewrite Hbw in Hwrite. destruct (replace_meta_at fm {| mf_status := ce_status entry; mf_fetched_at_wallclock := ce_fetched_at_wallclock entry;
      mf_robots_url := ce_robots_url entry; mf_cache_key := key |} e5) as (e6 & Hmw & Hm6 & Hb6). rewrite Hmw in Hwrite.
    injection Hwrite as <-. rewrite Hb6, Hb5. split; [done|]. eexists. split; [exact Hm6|]. done. }
  destruct (Hfiles fm) as [Hm3 _]. destruct (Hfiles fb) as [_ Hb3].
  rewrite (bind_eq _ _ _ _ _ (attempt_eq _ _ _ _ (read_meta_at fm e3))), Hm3, Hm.
  rewrite bool_decide_eq_true_2 by done. change (negb true) with false. cbv iota. rewrite (bind_eq _ _ _ _ _ Hwall), Hw, Hs. cbv zeta. fold age.
  rewrite H0, Httl. change (false || false) with false. cbv iota. pose proof (wallclock_files e3 fb) as Hwf. rewrite Hwall in Hwf. simpl in Hwf.
  rewrite (bind_eq _ _ _ _ _ (attempt_eq _ _ _ _ (read_body_at fb e4))), Hwf, Hb3, Hbody.
  unfold bind, lift. rewrite (fetch_entry _ _ _ _ _ Hfetch). by rewrite Hu.
Qed.
End RoundTrip.

(** ** The fetcher requests what its policy admits *)

(** [requested e]: the requests sent so far, with their user agents. *)
Class FetcherLaws {E : Type} (P : FetcherPorts E) := {
  requested : E -> list (string * string);
  get_requested : forall ua url e, requested (ft_get P ua url e).2 = requested e ++ [(ua, url)];
  resolver_requested : forall host e, requested (ft_resolver P host e).2 = requested e }.

Section Policy.
Context (env : NetEnv) (ipv6_internal : string -> option bool) {E : Type} (P : FetcherPorts E) (cfg : FetcherConfig) `{L : !FetcherLaws P}.

(** An http(s) URL with a host; unless private networks are allowed, neither
    the host nor any of the addresses it resolved to is internal; unless the
    allowlist is empty, its origin is on it. *)
Definition permitted (url : string) : Prop :=
  exists parsed host, urlsplit env url = Ok parsed /\ sr_scheme parsed ∈ ["http"; "https"] /\ hostname parsed = Some host /\
    (fc_allow_private_network cfg = false -> _is_private_host ipv6_internal host = false /\
      exists e addrs, (ft_resolver P host e).1 = Ok addrs /\ addrs <> [] /\
        forall addr, addr ∈ addrs -> internal_address ipv6_internal addr = Some false) /\
    (fc_allowlist cfg <> [] -> lower (sr_scheme parsed +:+ "://" +:+ sr_netloc parsed) ∈ fc_allowlist cfg).

Lemma resolves_to_public host e e' : _host_resolves_to_private ipv6_internal P host e = (Ok false, e') ->
  exists addrs, (ft_resolver P host e).1 = Ok addrs /\ addrs <> [] /\ forall addr, addr ∈ addrs -> internal_address ipv6_internal addr = Some false.
Proof.
  unfold _host_resolves_to_private. intros (r & e1 & Hr & [= Hf _])%bind_ok. unfold attempt in Hr.
  destruct (ft_resolver P host e) as [[addrs|x] e2]; injection Hr as <- <-; [|done]. exists addrs. destruct addrs as [|a addrs]; [done|].
  split_and!; [done..|]. intros addr Hin. assert (default true (internal_address ipv6_internal addr) = false) as Hd.
  { destruct (default true (internal_address ipv6_internal addr)) eqn:Hd; [|done]. rewrite <-Hf. symmetry. apply existsb_exists.
    exists addr. by rewrite <-list_elem_of_In. }
  by destruct (internal_address ipv6_internal addr) as [[]|].
Qed.

Lemma check_policy_ok url e u e' : _check_policy env ipv6_internal P cfg url e = (Ok u, e') -> permitted url.
Proof.
  unfold _check_policy. intros (parsed & e1 & [Hp ->]%lift_ok & H)%bind_ok.
  apply bind_ok in H as (u1 & e2 & [Hg%guard_ok ->]%lift_ok & H). apply andb_true_iff in Hg as [Hs%bool_decide_eq_true _].
  destruct (hostname parsed) as [host|] eqn:Eh; [|done]. apply bind_ok in H as (private & e3 & Hpriv & H).
  destruct private; [done|]. apply lift_ok in H as [Hg%guard_ok ->]. exists parsed, host. split_and!; try done.
  - intros Hno. rewrite Hno in Hpriv. destruct (_is_private_host ipv6_internal host); [done|]. split; [done|]. exists e.
    by eapply resolves_to_public.
  - intros Hne. destruct (fc_allowlist cfg); [done|]. simpl truthy_list in Hg. by apply bool_decide_eq_true in Hg.
Qed.

Lemma check_policy_requested url e : requested (_check_policy env ipv6_internal P cfg url e).2 = requested e.
Proof.
  unfold _check_policy, bind at 1, lift. destruct (urlsplit env url) as [parsed|x]; [|done]. unfold bind at 1. destruct (guard _ _); [|done].
  destruct (hostname parsed) as [host|]; [|done]. unfold bind.
  assert (requested (_host_resolves_to_private ipv6_internal P host e).2 = requested e) as Hres.
  { unfold _host_resolves_to_private, bind, attempt. pose proof (resolver_requested host e) as Hr. by destruct (ft_resolver P host e). }
  assert (requested ((if fc_allow_private_network cfg then ret false else if _is_private_host ipv6_internal host then ret true
    else _host_resolves_to_private ipv6_internal P host) e).2 = requested e) as Hif by (by repeat case_match).
  destruct (_ e) as [[[]|x] e1]; done.
Qed.

Lemma fetch_hops_policy ua hops url e r e' : fetch_hops env ipv6_internal P cfg ua hops url e = (r, e') ->
  exists urls, requested e' = requested e ++ map (pair ua) urls /\ (length urls <= hops)%nat /\ Forall permitted urls /\
    (urls = [] \/ exists rest, urls = url :: rest).
Proof.
  revert url e. induction hops as [|hops IH]; intros url e; cbn [fetch_hops].
  { intros [= _ <-]. exists []. rewrite app_nil_r. split_and!; [done|simpl; lia|constructor|by left]. }
  unfold bind at 1. pose proof (check_policy_requested url e) as Hcq.
  destruct (_check_policy env ipv6_internal P cfg url e) as [[u|x] e1] eqn:Ec; simpl in Hcq.
  2:{ intros [= _ <-]. exists []. rewrite app_nil_r. split_and!; [done|simpl; lia|constructor|by left]. }
  apply check_policy_ok in Ec. unfold bind at 1. pose proof (get_requested ua url e1) as Hg.
  destruct (ft_get P ua url e1) as [g e2]. simpl in Hg. rewrite Hcq in Hg.
  assert (forall r', (r', e2) = (r, e') -> exists urls, requested e' = requested e ++ map (pair ua) urls /\ (length urls <= S hops)%nat /\
    Forall permitted urls /\ (urls = [] \/ exists rest, urls = url :: rest)) as Hone.
  { intros r' [= _ <-]. exists [url]. split_and!; [done|simpl; lia|by constructor|]. right. by exists []. }
  destruct g as [response|x]; [|apply Hone]. destruct (negb _); [apply Hone|]. destruct (rr_location response) as [location|]; [|apply Hone].
  destruct (truthy_str location); [|apply Hone]. unfold bind, lift. destruct (urljoin env url location) as [next|x]; [|apply Hone].
  intros (urls & Hr & Hl & Hf & _)%IH. exists (url :: urls). rewrite Hr, Hg, <-app_assoc.
  split_and!; [done|simpl; lia|by constructor|]. right. by exists urls.
Qed.

(** Robots discovery does not leave the egress policy: every request the
    fetcher sends, the first and every redirect target, was admitted by the
    policy before it was sent, with the caller's user agent, and there are at
    most [max_redirects + 1]. *)
Theorem fetcher_stays_in_policy robots_url ua e r e' :
  fetch_robots env ipv6_internal P cfg robots_url ua e = (r, e') ->
  exists urls, requested e' = requested e ++ map (pair ua) urls /\ (length urls <= S (fc_max_redirects cfg))%nat /\
    Forall permitted urls /\ (urls = [] \/ exists rest, urls = robots_url :: rest).
Proof. apply fetch_hops_policy. Qed.
End Policy.

(** ** An instance: scripted answers, and files in dictionaries *)

Module RobotsDemo.
Record World := {
  w_fetched : list (string * string);
  w_metas : dict string MetaFile;
  w_bodies : gmap string string }.
Definition set_fetched f w := {| w_fetched := f (w_fetched w); w_metas := w_metas w; w_bodies := w_bodies w |}.
Definition set_metas f w := {| w_fetched := w_fetched w; w_metas := f (w_metas w); w_bodies := w_bodies w |}.
Definition set_bodies f w := {| w_fetched := w_fetched w; w_metas := w_metas w; w_bodies := f (w_bodies w) |}.
Definition ports (answers : string -> res RobotsFetchResult) (clock wall : float) : RobotsPorts World :=
  {| rb_fetcher url ua := fun w => (answers url, set_fetched (fun l => l ++ [(url, ua)]) w);
     rb_clock := ret clock;
     rb_wallclock := ret wall;
     rb_read_meta f := gets (fun w => dict_get (w_metas w) f);
     rb_read_body f := gets (fun w => w_bodies w !! f);
     rb_replace_meta f m := modify (set_metas (fun d => dict_set d f m));
     rb_replace_body f b := modify (set_bodies <[f := b]>);
     rb_unlink_body f := modify (set_bodies (delete f));
     rb_warn _ _ := ret tt |}.
#[export] Instance ports_laws answers clock wall : RobotsLaws (ports answers clock wall).
Proof. by apply (Build_RobotsLaws World (ports answers clock wall) w_fetched). Defined.
#[export] Instance ports_disk answers clock wall : DiskLaws (ports answers clock wall).
Proof.
  apply (Build_DiskLaws World (ports answers clock wall) (fun w f => dict_get (w_metas w) f) (fun w f => w_bodies w !! f)); try done.
  - intros f m e. eexists. split; [reflexivity|]. simpl. split; [apply dict_get_set_eq|done].
  - intros f b e. eexists. split; [reflexivity|]. simpl. apply lookup_insert_eq.
  - intros f e. eexists. split; [reflexivity|]. simpl. apply lookup_delete_eq.
Defined.

Definition nl : string := String "010" "".
Definition shop : RobotsFetchResult :=
  {| rf_status := 200; rf_body := "User-agent: *" +:+ nl +:+ "Disallow: /cart" +:+ nl +:+ "Crawl-delay: 3" |}.
Definition answers (url : string) : res RobotsFetchResult :=
  if startswith "https://shop.example" url then Ok shop
  else if startswith "https://new.example" url then Ok {| rf_status := 404; rf_body := "not found" |}
  else if startswith "https://busy.example" url then Ok {| rf_status := 503; rf_body := "" |}
  else Raise (ForeignError "ConnectTimeout").
Definition empty : World := {| w_fetched := []; w_metas := []; w_bodies := ∅ |}.
Definition cfg : RobotsConfig := {| rc_ttl := 3600; rc_failure_ttl := 60; rc_on_disk := true |}.
Definition sha (s : string) : string := "sha:" +:+ s.
Definition ua : string := "Crawler/1.0".
Definition ask answers (url : string) (p : dict string CachedEntry * World) :=
  evaluate offline sha (ports answers 100 5000) cfg url ua p.
Definition answer_allows (r : res RobotsAdvice) : option bool := if r is Ok a then Some (ra_is_allowed a) else None.
End RobotsDemo.
Import RobotsDemo.

Lemma unknown_rules_disallow_witness :
  map (fun url => answer_allows (ask answers url ([], empty)).1) ["https://shop.example/p/1"; "https://shop.example/cart/2"; "https://new.example/";
    "https://busy.example/"; "https://down.example/"] = [Some true; Some false; Some true; Some false; Some false] /\
  let advice := {| ra_is_allowed := true; ra_crawl_delay := Some 3%float; ra_request_rate := None; ra_disallow_reason := None |} in
  let p' := (ask answers "https://shop.example/p/1" ([], empty)).2 in
  all_built offline p'.1 /\
  (ra_is_allowed advice = true ->
   exists key entry, _cache_key offline "https://shop.example/p/1" ua = Ok key /\ dict_get p'.1 key = Some entry /\
     (ce_status entry = 404 \/
      ce_status entry = 200 /\ can_fetch offline (ce_parser entry) ua "https://shop.example/p/1" = Ok true /\
        robots_parse offline (splitlines (default "" (ce_body entry))) = Ok (ce_parser entry))).
Proof.
  split; [by vm_compute|]. intros advice p'.
  apply (unknown_rules_disallow offline sha (ports answers 100 5000) cfg "https://shop.example/p/1" ua ([], empty) advice p').
  - reflexivity.
  - by intros k en.
  - eexists. split; [reflexivity|]. by vm_compute.
Defined.

Lemma fetched_once_per_window_witness :
  let calls := [("https://shop.example/p/1", ua); ("https://SHOP.example/cart", ua); ("https://busy.example/", ua);
    ("https://down.example/x", ua); ("https://down.example/y", ua); ("https://shop.example/p/1", "Other/2")] in
  let p' := (evaluate_all offline sha (ports answers 100 5000) cfg calls ([], empty)).2 in
  length (w_fetched p'.2) = 4%nat /\
  exists fetching, fetching `sublist_of` calls /\ w_fetched p'.2 = [] ++ omap (call_fetch offline) fetching /\
    NoDup (omap (call_key offline) fetching) /\ length (omap (call_key offline) fetching) = length fetching /\
    length (omap (call_fetch offline) fetching) = length fetching.
Proof.
  intros calls p'. split; [by vm_compute|]. unfold p'. clear p'. revert calls. intros calls.
  change w_fetched with (fetched (P := ports answers 100 5000)).
  refine (fetched_once_per_window offline sha (ports answers 100 5000) cfg (fun t => t = 100%float) _ _ _ _ _ calls ([], empty)).
  - intros a b status -> ->. unfold ttl_of. by case_match.
  - intros e. by exists 100%float, e.
  - done.
  - done.
  - intros url u e result e' [= H _]. unfold answers in H. repeat case_match; simplify_eq; by vm_compute.
Defined.

Lemma disk_round_trip_witness :
  let P := ports answers 100 5000 in
  let fetched := _fetch_with_fallback offline P "https://shop.example/p/1" ua empty in
  exists entry, fetched.1 = Ok entry /\ ce_body entry = Some (rf_body shop) /\
    let e2 := (_write_disk_cache sha P cfg "k" entry fetched.2).2 in
    let age := PrimFloat.sub 5000 (ce_fetched_at_wallclock entry) in
    _read_disk_cache offline sha P cfg "k" 20 e2 =
      (Ok (Some {| ce_parser := ce_parser entry; ce_fetched_at := PrimFloat.sub 20 age;
                   ce_fetched_at_wallclock := ce_fetched_at_wallclock entry; ce_status := ce_status entry;
                   ce_robots_url := ce_robots_url entry; ce_body := ce_body entry |}), e2).
Proof.
  intros P fetched. eexists. split; [reflexivity|]. split; [reflexivity|]. intros e2 age.
  exact (disk_round_trip offline sha P cfg "https://shop.example/p/1" ua "k" 20 empty fetched.2 e2 e2 e2 _ 5000 eq_refl eq_refl eq_refl
    (fun _ => conj eq_refl eq_refl) eq_refl eq_refl eq_refl).
Defined.

Module FetcherDemo.
(** [www] redirects to the bare host, which redirects to a loopback address. *)
Definition World : Type := list (string * string).
Definition responses (url : string) : RobotsResponse :=
  if startswith "https://www." url then {| rr_status := 301; rr_location := Some "https://shop.example/robots.txt"; rr_text := "" |}
  else if startswith "https://shop.example" url then {| rr_status := 302; rr_location := Some "http://127.0.0.1/robots.txt"; rr_text := "" |}
  else {| rr_status := 200; rr_location := None; rr_text := "internal" |}.
Definition ports : FetcherPorts World :=
  {| ft_get u url := fun w => (Ok (responses url), w ++ [(u, url)]); ft_resolver _ := ret ["93.184.216.34"] |}.
#[export] Instance ports_laws : FetcherLaws ports.
Proof. by apply (Build_FetcherLaws World ports (fun w => w)). Defined.
Definition cfg : FetcherConfig := {| fc_max_redirects := 5; fc_allowlist := []; fc_allow_private_network := false |}.
Definition fetch := fetch_robots offline (fun _ => None) ports cfg "https://www.shop.example/robots.txt" ua [].
End FetcherDemo.

Lemma fetcher_stays_in_policy_witness :
  FetcherDemo.fetch.2 = [(ua, "https://www.shop.example/robots.txt"); (ua, "https://shop.example/robots.txt")] /\
  is_ok FetcherDemo.fetch.1 = false /\
  exists urls, FetcherDemo.fetch.2 = [] ++ map (pair ua) urls /\ (length urls <= 6)%nat /\
    Forall (permitted offline (fun _ => None) FetcherDemo.ports FetcherDemo.cfg) urls /\
    (urls = [] \/ exists rest, urls = "https://www.shop.example/robots.txt" :: rest).
Proof.
  split; [by vm_compute|]. split; [by vm_compute|].
  exact (fetcher_stays_in_policy offline (fun _ => None) FetcherDemo.ports FetcherDemo.cfg (L := FetcherDemo.ports_laws) "https://www.shop.example/robots.txt" ua []
    FetcherDemo.fetch.1 FetcherDemo.fetch.2 (surjective_pairing _)).
Defined.

(** ** What the model shows of the code *)

(** The synthesised rules disallow paths that begin with a slash. A URL without
    a path and with a query is matched as [%3F...], so a host whose rules are
    unknown allows it. *)
Lemma query_without_path_allowed :
  answer_allows (ask answers "https://busy.example?q=1" ([], empty)).1 = Some true /\
  answer_allows (ask answers "https://busy.example/?q=1" ([], empty)).1 = Some false.
Proof. by vm_compute. Qed.

(** A rule that [urlparse] refuses makes every call raise: nothing is cached,
    and the next call fetches again. *)
Lemma broken_rule_raises :
  let odd := fun url : string => Ok {| rf_status := 200; rf_body := "User-agent: *" +:+ nl +:+ "Disallow: //[" |} in
  let first := ask odd "https://odd.example/" ([], empty) in
  let second := ask odd "https://odd.example/" first.2 in
  first.1 = Raise (ValueError "Invalid IPv6 URL") /\ second.1 = first.1 /\ length (w_fetched second.2.2) = 2%nat.
Proof. by vm_compute. Qed.

(** A delay that no float holds makes every call raise too. *)
Lemma huge_delay_raises :
  let digits := String.concat "" (repeat "9999999999" 31) in
  let slow := fun url : string => Ok {| rf_status := 200; rf_body := "User-agent: *" +:+ nl +:+ "Crawl-delay: " +:+ digits |} in
  (ask slow "https://slow.example/" ([], empty)).1 = Raise OverflowError.
Proof. by vm_compute. Qed.

(** A metadata file of status 200 whose body file is missing is read as an
    empty file of rules: everything is allowed, and nothing is fetched. *)
Lemma missing_body_allows :
  let key := "https://shop.example|ua=" +:+ ua in
  let w := {| w_fetched := []; w_bodies := ∅;
              w_metas := [(sha key +:+ _META_SUFFIX, {| mf_status := 200; mf_fetched_at_wallclock := 4990;
                mf_robots_url := "https://shop.example/robots.txt"; mf_cache_key := key |})] |} in
  let asked := ask answers "https://shop.example/cart" ([], w) in
  answer_allows asked.1 = Some true /\ w_fetched asked.2.2 = [].
Proof. by vm_compute. Qed.
