(* ===== verification/Frontier.v ===== *)
(** * The FIFO crawl frontier

    [external_crawl/frontier.py]. What the FIFO and the priority frontiers have
    in common ([Base]: the job spec, the seen and fetched sets, the event log
    and the counters) is factored out; the deque is added here and the heap in
    [PriorityFrontier]. Theorems: every URL is admitted once, nothing is lost
    or reordered between [enqueue] and [pop], counters and event log agree, and
    [enqueue] never raises. *)
From S2P Require Import Prelude PyDict PyStr UrlLib Url.
Local Open Scope Z_scope.

Inductive SkipReason :=
  | SKIP_OUTSIDE_ALLOWED_DOMAIN
  | SKIP_DENIED_DOMAIN
  | SKIP_UNSUPPORTED_SCHEME
  | SKIP_PRIVATE_NETWORK_DENIED
  | SKIP_DEPTH_EXCEEDED
  | SKIP_DUPLICATE
  | SKIP_BUDGET_EXCEEDED
  | SKIP_ROBOTS_DENIED.

#[export] Instance SkipReason_eq_dec : EqDecision SkipReason.
Proof. solve_decision. Defined.

(** [_DOMAIN_REASON_MAP] *)
Definition domain_reason_map (r : DomainFilterReason) : SkipReason :=
  match r with
  | OUTSIDE_ALLOWED_DOMAIN => SKIP_OUTSIDE_ALLOWED_DOMAIN
  | DENIED_DOMAIN => SKIP_DENIED_DOMAIN
  | UNSUPPORTED_SCHEME => SKIP_UNSUPPORTED_SCHEME
  | PRIVATE_NETWORK_DENIED => SKIP_PRIVATE_NETWORK_DENIED
  end.

Record FrontierItem := {
  it_canonical_url : string;
  it_depth : Z;
  it_parent_canonical_url : option string;
  it_discovered_at : Z }.

Record EnqueueOutcome := {
  eo_admitted : bool;
  eo_canonical_url : option string;
  eo_skip_reason : option SkipReason }.

Record FrontierEvent := {
  fe_kind : string;
  fe_canonical_url : option string;
  fe_depth : option Z;
  fe_skip_reason : option SkipReason;
  fe_occurred_at : Z }.

Record FrontierCounters := {
  fc_enqueued : Z;
  fc_fetched : Z;
  fc_skipped_by_reason : dict SkipReason Z }.

Record FrontierConfig := {
  fr_allowed_domains : gset string;
  fr_denied_domains : gset string;
  fr_max_depth : Z;
  fr_max_pages : Z;
  fr_allow_loopback : bool }.

Record Base := {
  b_config : FrontierConfig;
  b_seen : gset string;
  b_fetched : gset string;
  b_events : list FrontierEvent;
  b_counters : FrontierCounters }.

(** The checks and the fields [__init__] shares between the two classes. *)
Definition new_base (allowed denied : gset string) (max_depth max_pages : Z) (allow_loopback : bool)
    : res Base :=
  do? guard (0 <=? max_depth) (ValueError "max_depth must be non-negative") in
  do? guard (1 <=? max_pages) (ValueError "max_pages must be positive") in
  Ok {| b_config := {| fr_allowed_domains := allowed; fr_denied_domains := denied;
                       fr_max_depth := max_depth; fr_max_pages := max_pages;
                       fr_allow_loopback := allow_loopback |};
        b_seen := ∅; b_fetched := ∅; b_events := [];
        b_counters := {| fc_enqueued := 0; fc_fetched := 0; fc_skipped_by_reason := [] |} |}.

Definition budget_exhausted (b : Base) : bool :=
  fr_max_pages (b_config b) <=? fc_fetched (b_counters b).

(** [Counter]'s [c[k] += 1] *)
Definition count_up (d : dict SkipReason Z) (r : SkipReason) : dict SkipReason Z :=
  dict_set d r (dict_get_or d r 0 + 1).

(** [_record_skip] *)
Definition record_skip (url : option string) (reason : SkipReason) (depth : option Z) (now : Z)
    : M Base EnqueueOutcome := fun b =>
  (Ok {| eo_admitted := false; eo_canonical_url := url; eo_skip_reason := Some reason |},
   {| b_config := b_config b; b_seen := b_seen b; b_fetched := b_fetched b;
      b_events := b_events b ++
        [{| fe_kind := "skipped"; fe_canonical_url := url; fe_depth := depth;
            fe_skip_reason := Some reason; fe_occurred_at := now |}];
      b_counters :=
        {| fc_enqueued := fc_enqueued (b_counters b); fc_fetched := fc_fetched (b_counters b);
           fc_skipped_by_reason := count_up (fc_skipped_by_reason (b_counters b)) reason |} |}).

(** The part of [enqueue] that accepts an item. *)
Definition record_enqueued (item : FrontierItem) (b : Base) : Base :=
  {| b_config := b_config b; b_seen := {[it_canonical_url item]} ∪ b_seen b; b_fetched := b_fetched b;
     b_events := b_events b ++
       [{| fe_kind := "enqueued"; fe_canonical_url := Some (it_canonical_url item);
           fe_depth := Some (it_depth item); fe_skip_reason := None;
           fe_occurred_at := it_discovered_at item |}];
     b_counters :=
       {| fc_enqueued := fc_enqueued (b_counters b) + 1; fc_fetched := fc_fetched (b_counters b);
          fc_skipped_by_reason := fc_skipped_by_reason (b_counters b) |} |}.

Definition record_dequeued (item : FrontierItem) (now : Z) (b : Base) : Base :=
  {| b_config := b_config b; b_seen := b_seen b; b_fetched := b_fetched b;
     b_events := b_events b ++
       [{| fe_kind := "dequeued"; fe_canonical_url := Some (it_canonical_url item);
           fe_depth := Some (it_depth item); fe_skip_reason := None; fe_occurred_at := now |}];
     b_counters := b_counters b |}.

Definition mark_fetched (url : string) (now : Z) : M Base unit := fun b =>
  if decide (url ∈ b_fetched b) then (Ok tt, b)
  else
    (Ok tt,
     {| b_config := b_config b; b_seen := b_seen b; b_fetched := {[url]} ∪ b_fetched b;
        b_events := b_events b ++
          [{| fe_kind := "fetched"; fe_canonical_url := Some url; fe_depth := None;
              fe_skip_reason := None; fe_occurred_at := now |}];
        b_counters :=
          {| fc_enqueued := fc_enqueued (b_counters b); fc_fetched := fc_fetched (b_counters b) + 1;
             fc_skipped_by_reason := fc_skipped_by_reason (b_counters b) |} |}).

Definition skip (url : string) (reason : SkipReason) (now : Z) : M Base unit :=
  let* _ := record_skip (Some url) reason None now in ret tt.

(** Everything in [enqueue] before the item is built: the canonical URL to
    admit, or the outcome of a recorded skip. *)
Definition admission (env : NetEnv) (url : string) (depth : Z) (now : Z)
    : M Base (string + EnqueueOutcome) := fun b =>
  let skip_as canonical reason : res (string + EnqueueOutcome) * Base :=
    (let* outcome := record_skip canonical reason (Some depth) now in ret (inr outcome)) b in
  let cfg := b_config b in
  match classify_url env url (fr_allowed_domains cfg) (fr_denied_domains cfg) (fr_allow_loopback cfg) with
  | Raise e => if subclass_value_error e then skip_as None SKIP_UNSUPPORTED_SCHEME else (Raise e, b)
  | Ok decision =>
      if negb (df_admit decision) then
        match df_reason decision with
        | None => (Raise AssertionError, b)
        | Some reason => skip_as (df_canonical_url decision) (domain_reason_map reason)
        end
      else
        match df_canonical_url decision with
        | None => (Raise AssertionError, b)
        | Some canonical =>
            if fr_max_depth cfg <? depth then skip_as (Some canonical) SKIP_DEPTH_EXCEEDED
            else if decide (canonical ∈ b_seen b) then skip_as (Some canonical) SKIP_DUPLICATE
            else (Ok (inl canonical), b)
        end
  end.

(** ** [ExternalCrawlFrontier] *)

Record ExternalCrawlFrontier := {
  f_base : Base;
  f_queue : list FrontierItem }.

Definition init (allowed denied : gset string) (max_depth max_pages : Z) (allow_loopback : bool)
    : res ExternalCrawlFrontier :=
  let? b := new_base allowed denied max_depth max_pages allow_loopback in
  Ok {| f_base := b; f_queue := [] |}.

(** Running a [Base] method on the frontier. *)
Definition on_base {A} (m : M Base A) : M ExternalCrawlFrontier A := fun f =>
  let '(r, b) := m (f_base f) in (r, {| f_base := b; f_queue := f_queue f |}).

Definition enqueue (env : NetEnv) (url : string) (depth : Z) (parent : option string) (now : Z)
    : M ExternalCrawlFrontier EnqueueOutcome :=
  let* admitted := on_base (admission env url depth now) in
  match admitted with
  | inr outcome => ret outcome
  | inl canonical =>
      let item := {| it_canonical_url := canonical; it_depth := depth;
                     it_parent_canonical_url := parent; it_discovered_at := now |} in
      do* modify (fun f => {| f_base := record_enqueued item (f_base f);
                              f_queue := f_queue f ++ [item] |}) in
      ret {| eo_admitted := true; eo_canonical_url := Some canonical; eo_skip_reason := None |}
  end.

Definition pop (now : Z) : M ExternalCrawlFrontier (option FrontierItem) := fun f =>
  if budget_exhausted (f_base f) then (Ok None, f)
  else match f_queue f with
       | [] => (Ok None, f)
       | item :: queue =>
           (Ok (Some item), {| f_base := record_dequeued item now (f_base f); f_queue := queue |})
       end.

(** ** What the event log says *)

Definition logged (kind : string) (events : list FrontierEvent) : list (option string * option Z) :=
  (fun e => (fe_canonical_url e, fe_depth e)) <$> filter (fun e => fe_kind e = kind) events.
Definition item_key (i : FrontierItem) : option string * option Z :=
  (Some (it_canonical_url i), Some (it_depth i)).

(** The invariant of [Base]: the log, the sets and the counters agree. *)
Record base_inv (b : Base) : Prop := {
  bi_once : NoDup (logged "enqueued" (b_events b)).*1;
  bi_seen : forall u, Some u ∈ (logged "enqueued" (b_events b)).*1 -> u ∈ b_seen b;
  bi_enqueued : fc_enqueued (b_counters b) = Z.of_nat (length (logged "enqueued" (b_events b)));
  bi_fetched : fc_fetched (b_counters b) = Z.of_nat (size (b_fetched b)) /\
               fc_fetched (b_counters b) = Z.of_nat (length (logged "fetched" (b_events b)));
  bi_skipped : forall r, dict_get_or (fc_skipped_by_reason (b_counters b)) r 0 =
    Z.of_nat (length (filter (fun e => fe_kind e = "skipped" /\ fe_skip_reason e = Some r) (b_events b)));
  bi_depth : forall u d, (u, Some d) ∈ logged "enqueued" (b_events b) -> d <= fr_max_depth (b_config b) }.

Lemma logged_snoc kind events e :
  logged kind (events ++ [e]) =
    logged kind events ++ (if decide (fe_kind e = kind) then [(fe_canonical_url e, fe_depth e)] else []).
Proof.
  unfold logged. rewrite filter_app, fmap_app. f_equal.
  rewrite filter_cons, filter_nil. by case_decide.
Qed.

Lemma length_filter_snoc {A} (P : A -> Prop) `{forall x, Decision (P x)} l x :
  Z.of_nat (length (filter P (l ++ [x]))) = Z.of_nat (length (filter P l)) + (if decide (P x) then 1 else 0).
Proof.
  rewrite filter_app, length_app, filter_cons, filter_nil. case_decide; simpl; lia.
Qed.

Lemma new_base_inv allowed denied md mp lo b : new_base allowed denied md mp lo = Ok b -> base_inv b.
Proof.
  unfold new_base. intros H. run_m H. split; unfold logged; csimpl; try done.
  - constructor.
  - by intros u ?%elem_of_nil.
  - by intros u d ?%elem_of_nil.
Qed.

Lemma count_up_get d r r' : dict_get_or (count_up d r) r' 0 = dict_get_or d r' 0 + (if decide (r' = r) then 1 else 0).
Proof.
  unfold count_up, dict_get_or. rewrite dict_get_set. case_decide; subst; simpl; lia.
Qed.

Lemma record_skip_inv url reason depth now b :
  base_inv b -> base_inv (record_skip url reason depth now b).2.
Proof.
  intros [H1 H2 H3 H4 H5 H6]. split; simpl; rewrite ?logged_snoc; simpl; rewrite ?app_nil_r; try done.
  intros r. rewrite length_filter_snoc, count_up_get, H5.
  destruct (decide (r = reason)) as [->|]; [by rewrite decide_True|].
  by rewrite decide_False by naive_solver.
Qed.

Lemma record_enqueued_inv item b :
  base_inv b -> it_canonical_url item ∉ b_seen b -> it_depth item <= fr_max_depth (b_config b) ->
  base_inv (record_enqueued item b).
Proof.
  intros [H1 H2 H3 H4 H5 H6] Hnew Hd. split; simpl; rewrite ?logged_snoc; simpl; rewrite ?app_nil_r; try done.
  - rewrite fmap_app. csimpl. apply NoDup_app. split_and!; [done| |apply NoDup_singleton].
    intros u Hu ->%list_elem_of_singleton. by apply Hnew, H2.
  - intros u. rewrite fmap_app, elem_of_app, elem_of_union, elem_of_singleton. csimpl.
    rewrite list_elem_of_singleton. naive_solver.
  - rewrite length_app. simpl. lia.
  - intros r. rewrite length_filter_snoc, H5, decide_False by naive_solver. lia.
  - intros u d. rewrite elem_of_app, list_elem_of_singleton. intros [?|[= -> ->]]; eauto.
Qed.

Lemma record_dequeued_inv item now b : base_inv b -> base_inv (record_dequeued item now b).
Proof.
  intros [H1 H2 H3 H4 H5 H6]. split; simpl; rewrite ?logged_snoc; simpl; rewrite ?app_nil_r; try done.
  intros r. rewrite length_filter_snoc, H5, decide_False by naive_solver. lia.
Qed.

Lemma mark_fetched_inv url now b : base_inv b -> base_inv (mark_fetched url now b).2.
Proof.
  intros [H1 H2 H3 [H4 H4'] H5 H6]. unfold mark_fetched. case_decide as Hin; [by split|].
  split; simpl; rewrite ?logged_snoc; simpl; rewrite ?app_nil_r; try done.
  - rewrite size_union by set_solver. rewrite size_singleton, length_app. simpl. lia.
  - intros r. rewrite length_filter_snoc, H5, decide_False by naive_solver. lia.
Qed.

(** ** Admission *)

Lemma classify_wf env url allowed denied loopback d :
  classify_url env url allowed denied loopback = Ok d ->
  (df_admit d = true /\ df_reason d = None /\ is_Some (df_canonical_url d)) \/
  (df_admit d = false /\ is_Some (df_reason d)).
Proof.
  unfold classify_url. intros H.
  destruct (urlsplit env (strip url)) as [p|[]]; try done; [|injection H as <-; by right].
  destruct (negb _); [injection H as <-; by right|]. destruct (negb _); [injection H as <-; by right|].
  destruct (canonicalize_url env url) as [c|]; [|done]. cbn [rbind] in H.
  destruct (host_matches _ denied); [injection H as <-; by right|].
  destruct (negb _); [injection H as <-; by right|].
  destruct (if loopback then _ else _) as [[]|]; [..|done]; cbn [rbind] in H; injection H as <-; [by right|left].
  by split_and!.
Qed.

(** The URL is acceptable to [b]: admitted by the job spec, not too deep, new. *)
Definition acceptable (env : NetEnv) (url : string) (depth : Z) (b : Base) (canonical : string) : Prop :=
  classify_url env url (fr_allowed_domains (b_config b)) (fr_denied_domains (b_config b))
    (fr_allow_loopback (b_config b)) =
    Ok {| df_admit := true; df_reason := None; df_canonical_url := Some canonical |} /\
  depth <= fr_max_depth (b_config b) /\ canonical ∉ b_seen b.

(** The witnesses of a recorded skip are read off the last equation. *)
Ltac skipped := eexists _, _, _; (split_and!; [..|reflexivity]); reflexivity.

Lemma admission_spec env url depth now b :
  (exists canonical, acceptable env url depth b canonical /\
     admission env url depth now b = (Ok (inl canonical), b)) \/
  ((forall canonical, ~ acceptable env url depth b canonical) /\
   exists u reason outcome, eo_admitted outcome = false /\ eo_skip_reason outcome = Some reason /\
     admission env url depth now b = (Ok (inr outcome), (record_skip u reason (Some depth) now b).2)).
Proof.
  unfold admission, acceptable. pose proof (classify_value_error env url (fr_allowed_domains (b_config b))
    (fr_denied_domains (b_config b)) (fr_allow_loopback (b_config b))) as Hv.
  destruct (classify_url _ _ _ _ _) as [d|e] eqn:Ec.
  - destruct (classify_wf _ _ _ _ _ _ Ec) as [(Ha & Hr & [c Hc])|(Ha & [r Hr])]; rewrite Ha; simpl.
    + rewrite Hc. destruct d as [a r0 c0]; simpl in *. subst.
      destruct (Z.ltb_spec (fr_max_depth (b_config b)) depth); [|case_decide].
      * right. split; [intros c' (_ & ? & _); lia|]. skipped.
      * right. split; [intros c' ([= <-] & _ & ?); done|]. skipped.
      * left. exists c. split_and!; try done; lia.
    + rewrite Hr. right. split; [intros c' ([= ->] & _); done|]. skipped.
  - destruct Hv as [m ->]. simpl. right. split; [by intros c' [? _]|]. skipped.
Qed.

Lemma admission_inv env url depth now b : base_inv b -> base_inv (admission env url depth now b).2.
Proof.
  intros Hb. destruct (admission_spec env url depth now b) as [(c & _ & ->)|(_ & u & r & o & _ & _ & ->)];
    [done|]. by apply record_skip_inv.
Qed.

(** ** All runs of the frontier *)

Inductive frontier_step (env : NetEnv) : ExternalCrawlFrontier -> ExternalCrawlFrontier -> Prop :=
  | fs_enqueue url depth parent now f r f' :
      enqueue env url depth parent now f = (r, f') -> frontier_step env f f'
  | fs_pop now f r f' : pop now f = (r, f') -> frontier_step env f f'
  | fs_fetched url now f r f' : on_base (mark_fetched url now) f = (r, f') -> frontier_step env f f'
  | fs_skip url reason now f r f' : on_base (skip url reason now) f = (r, f') -> frontier_step env f f'.

Record frontier_inv (f : ExternalCrawlFrontier) : Prop := {
  fi_base : base_inv (f_base f);
  fi_order : logged "enqueued" (b_events (f_base f)) =
             logged "dequeued" (b_events (f_base f)) ++ (item_key <$> f_queue f);
  fi_seen : forall u, u ∈ b_seen (f_base f) -> Some u ∈ (logged "enqueued" (b_events (f_base f))).*1 }.

Lemma mark_fetched_log url now b kind :
  kind <> "fetched" -> logged kind (b_events (mark_fetched url now b).2) = logged kind (b_events b).
Proof.
  intros Hk. unfold mark_fetched. case_decide; [done|]. simpl.
  rewrite logged_snoc, decide_False by done. by rewrite app_nil_r.
Qed.

(** [enqueue] in one equation. *)
Lemma enqueue_spec env url depth parent now f :
  (exists canonical, acceptable env url depth (f_base f) canonical /\
     let item := {| it_canonical_url := canonical; it_depth := depth;
                    it_parent_canonical_url := parent; it_discovered_at := now |} in
     enqueue env url depth parent now f =
       (Ok {| eo_admitted := true; eo_canonical_url := Some canonical; eo_skip_reason := None |},
        {| f_base := record_enqueued item (f_base f); f_queue := f_queue f ++ [item] |})) \/
  ((forall canonical, ~ acceptable env url depth (f_base f) canonical) /\
   exists u reason outcome, eo_admitted outcome = false /\ eo_skip_reason outcome = Some reason /\
     enqueue env url depth parent now f =
       (Ok outcome, {| f_base := (record_skip u reason (Some depth) now (f_base f)).2;
                       f_queue := f_queue f |})).
Proof.
  cbv [enqueue bind on_base].
  destruct (admission_spec env url depth now (f_base f)) as [(c & Hc & ->)|(Hno & u & r & o & Ha & Hr & ->)].
  - left. exists c. by split.
  - right. split; [done|]. by exists u, r, o.
Qed.

Lemma frontier_step_inv env : preserved (frontier_step env) frontier_inv.
Proof.
  intros f f' Hs [Hb Ho Hseen]. destruct Hs as [url depth parent now f r f' H|now f r f' H|url now f r f' H|url reason now f r f' H].
  - destruct (enqueue_spec env url depth parent now f) as [(c & (_ & ? & ?) & E)|(_ & u & rs & o & _ & _ & E)];
      rewrite E in H; injection H as _ <-; split; cbn [f_base f_queue].
    + by apply record_enqueued_inv.
    + simpl. rewrite !logged_snoc. simpl. rewrite app_nil_r, fmap_app, app_assoc. by f_equal.
    + intros u. simpl. rewrite logged_snoc, fmap_app, elem_of_app, elem_of_union, elem_of_singleton. csimpl.
      rewrite list_elem_of_singleton. naive_solver.
    + by apply record_skip_inv.
    + simpl. rewrite !logged_snoc. simpl. by rewrite !app_nil_r.
    + intros v Hv. simpl in *. rewrite logged_snoc. simpl. rewrite app_nil_r. auto.
  - unfold pop in H. case_match; [by injection H as _ <-; split|].
    destruct (f_queue f) as [|i q] eqn:Eq; [by injection H as _ <-; split; rewrite ?Eq|].
    injection H as _ <-. split; cbn [f_base f_queue]; [by apply record_dequeued_inv|..];
      simpl; rewrite !logged_snoc; simpl; rewrite app_nil_r; [|done].
    rewrite Ho. csimpl. by rewrite <-app_assoc.
  - unfold on_base in H. destruct (mark_fetched url now (f_base f)) as [r0 b] eqn:E. injection H as _ <-.
    assert (b = (mark_fetched url now (f_base f)).2) as -> by by rewrite E.
    split; [by apply mark_fetched_inv|..]; simpl; rewrite !mark_fetched_log by done; [done|].
    intros u. unfold mark_fetched. case_decide; auto.
  - injection H as _ <-. split; [by apply record_skip_inv|..];
      simpl; rewrite !logged_snoc; simpl; by rewrite !app_nil_r.
Qed.

Lemma init_inv allowed denied md mp lo f : init allowed denied md mp lo = Ok f -> frontier_inv f.
Proof.
  unfold init. intros H. run_m H. split; [by eapply new_base_inv|..];
    unfold new_base in Hr; run_m Hr; done.
Qed.

Lemma frontier_reach env allowed denied md mp lo f0 f :
  init allowed denied md mp lo = Ok f0 -> rtc (frontier_step env) f0 f -> frontier_inv f.
Proof. intros H0 Hr. exact (rtc_preserved _ _ _ _ (frontier_step_inv env) Hr (init_inv _ _ _ _ _ _ H0)). Qed.

(** C29: The frontier is a lossless FIFO of distinct URLs: over any run of
    [enqueue], [pop], [mark_fetched] and [skip], the items popped so far,
    followed by the items still queued, are exactly the admitted items in
    admission order; no URL is admitted twice, and none deeper than
    [max_depth]. *)
Theorem frontier_fifo_without_loss env allowed denied md mp lo f0 f :
  init allowed denied md mp lo = Ok f0 -> rtc (frontier_step env) f0 f ->
  let events := b_events (f_base f) in
  logged "enqueued" events = logged "dequeued" events ++ (item_key <$> f_queue f) /\
  NoDup (logged "enqueued" events).*1 /\
  (forall u d, (u, Some d) ∈ logged "enqueued" events -> d <= fr_max_depth (b_config (f_base f))).
Proof. intros H0 Hr. destruct (frontier_reach _ _ _ _ _ _ _ _ H0 Hr) as [[] ? ?]. by split_and!. Qed.

(** The counters are those of the event log: [enqueued] and [fetched] count
    their events, each skip reason counts its skip events, and a URL is
    fetched at most once. *)
Theorem frontier_counters_match_events env allowed denied md mp lo f0 f :
  init allowed denied md mp lo = Ok f0 -> rtc (frontier_step env) f0 f ->
  let events := b_events (f_base f) in let counters := b_counters (f_base f) in
  fc_enqueued counters = Z.of_nat (length (logged "enqueued" events)) /\
  fc_fetched counters = Z.of_nat (length (logged "fetched" events)) /\
  fc_fetched counters = Z.of_nat (size (b_fetched (f_base f))) /\
  (forall r, dict_get_or (fc_skipped_by_reason counters) r 0 =
     Z.of_nat (length (filter (fun e => fe_kind e = "skipped" /\ fe_skip_reason e = Some r) events))) /\
  (forall u, u ∈ b_seen (f_base f) <-> Some u ∈ (logged "enqueued" events).*1).
Proof.
  intros H0 Hr. destruct (frontier_reach _ _ _ _ _ _ _ _ H0 Hr) as [[? Hs ? [? ?] ? ?] _ Hs']. split_and!; try done. intros u. split; auto.
Qed.

(** [enqueue] never raises. It admits a URL exactly when the job spec
    admits it, the depth is within bounds and its canonical form is new, and
    then appends that form to the queue; otherwise it records one skip with
    its reason and leaves queue and seen set alone. *)
Theorem enqueue_total env url depth parent now f :
  exists outcome f', enqueue env url depth parent now f = (Ok outcome, f') /\
    (eo_admitted outcome = true <-> exists canonical, acceptable env url depth (f_base f) canonical) /\
    (eo_admitted outcome = true -> exists canonical item, acceptable env url depth (f_base f) canonical /\
       eo_canonical_url outcome = Some canonical /\ it_canonical_url item = canonical /\
       it_depth item = depth /\ f_queue f' = f_queue f ++ [item] /\
       b_seen (f_base f') = {[canonical]} ∪ b_seen (f_base f)) /\
    (eo_admitted outcome = false -> exists reason e, eo_skip_reason outcome = Some reason /\
       f_queue f' = f_queue f /\ b_seen (f_base f') = b_seen (f_base f) /\
       b_events (f_base f') = b_events (f_base f) ++ [e] /\ fe_kind e = "skipped" /\
       fe_skip_reason e = Some reason).
Proof.
  destruct (enqueue_spec env url depth parent now f) as [(c & Hc & E)|(Hno & u & r & o & Ha & Hr & E)];
    eexists _, _; (split; [exact E|]).
  - split_and!; [split; [intros _; by exists c|done]| |done]. intros _. eexists c, _.
    split_and!; [done|done| | |reflexivity|reflexivity]; reflexivity.
  - rewrite Ha. split_and!; [split; [done|intros [c Hc]; by destruct (Hno c)]|done|].
    intros _. eexists r, _. split_and!; [done|reflexivity|reflexivity|reflexivity|reflexivity|reflexivity].
Qed.

(** [pop] returns nothing exactly when the page budget is spent or the
    queue is empty, and a spent budget stays spent: from then on every [pop]
    returns nothing and changes nothing, whatever else happens. *)
Theorem pop_respects_budget env now f :
  ((pop now f).1 = Ok None <-> budget_exhausted (f_base f) = true \/ f_queue f = []) /\
  (budget_exhausted (f_base f) = true ->
   forall f', rtc (frontier_step env) f f' -> pop now f' = (Ok None, f')).
Proof.
  split.
  - unfold pop. destruct (budget_exhausted _), (f_queue f); naive_solver.
  - intros Hb f' Hr. unfold pop. assert (budget_exhausted (f_base f') = true) as ->; [|done].
    eapply (rtc_preserved _ (fun f => budget_exhausted (f_base f) = true)); [|done|done].
    clear. intros f f' Hs. unfold budget_exhausted. rewrite !Z.leb_le.
    destruct Hs as [url depth parent now f r f' H|now f r f' H|url now f r f' H|url reason now f r f' H].
    + destruct (enqueue_spec env url depth parent now f) as [(c & _ & E)|(_ & u & rs & o & _ & _ & E)];
        rewrite E in H; by injection H as _ <-.
    + unfold pop in H. case_match; [by injection H as _ <-|]. by case_match; injection H as _ <-.
    + unfold on_base, mark_fetched in H. case_decide; injection H as _ <-; simpl; lia.
    + by injection H as _ <-.
Qed.

(** ** Witnesses *)

Definition w_empty : ExternalCrawlFrontier :=
  {| f_base := {| b_config := {| fr_allowed_domains := {["example.com"]}; fr_denied_domains := ∅;
                                 fr_max_depth := 2; fr_max_pages := 1; fr_allow_loopback := false |};
                  b_seen := ∅; b_fetched := ∅; b_events := [];
                  b_counters := {| fc_enqueued := 0; fc_fetched := 0; fc_skipped_by_reason := [] |} |};
     f_queue := [] |}.
Definition w_one : ExternalCrawlFrontier := (enqueue no_dns "http://example.com/b" 0 None 1 w_empty).2.
Definition w_two : ExternalCrawlFrontier := (enqueue no_dns "HTTP://EXAMPLE.com:80/b#x" 1 None 2 w_one).2.
Definition w_three : ExternalCrawlFrontier := (enqueue no_dns "http://a.example.com/" 1 None 3 w_two).2.
Definition w_popped : ExternalCrawlFrontier := (pop 4 w_three).2.

Lemma w_init : init {["example.com"]} ∅ 2 1 false = Ok w_empty.
Proof. reflexivity. Qed.

Lemma w_steps : rtc (frontier_step no_dns) w_empty w_popped.
Proof.
  apply (rtc_l _ _ w_one); [eapply fs_enqueue, surjective_pairing|].
  apply (rtc_l _ _ w_two); [eapply fs_enqueue, surjective_pairing|].
  apply (rtc_l _ _ w_three); [eapply fs_enqueue, surjective_pairing|].
  apply rtc_once. eapply fs_pop, surjective_pairing.
Qed.

Lemma frontier_fifo_without_loss_witness :
  logged "enqueued" (b_events (f_base w_popped)) =
    [(Some "http://example.com/b", Some 0); (Some "http://a.example.com/", Some 1)] /\
  logged "enqueued" (b_events (f_base w_popped)) =
    logged "dequeued" (b_events (f_base w_popped)) ++ (item_key <$> f_queue w_popped).
Proof.
  split; [vm_compute; reflexivity|].
  apply (frontier_fifo_without_loss no_dns {["example.com"]} ∅ 2 1 false w_empty w_popped w_init w_steps).
Defined.

Lemma frontier_counters_match_events_witness :
  fc_enqueued (b_counters (f_base w_popped)) = 2 /\
  fc_enqueued (b_counters (f_base w_popped)) =
    Z.of_nat (length (logged "enqueued" (b_events (f_base w_popped)))).
Proof.
  split; [vm_compute; reflexivity|].
  destruct (frontier_counters_match_events no_dns {["example.com"]} ∅ 2 1 false w_empty w_popped w_init w_steps)
    as (H & _). exact H.
Defined.
