(* ===== verification/Heap.v ===== *)
(** * [heapq]

    The standard library's binary heap on a list ([Lib/heapq.py]; the C
    version is the same algorithm), for any comparison [lt]. The comparison
    need only be a total order on [good] elements (a float key is not one on
    NaN). Contract: [heappush], [heappop] and [heapify] permute the elements
    and keep the heap order, and [heappop] removes a least element. *)
From S2P Require Import Prelude.
From Stdlib Require Import Lia.
Local Open Scope nat_scope.

Section Heap.
Context {A : Type} (lt : A -> A -> bool).

(** [while pos > startpos: ...; heap[pos] = newitem] *)
Fixpoint siftdown_loop (fuel : nat) (heap : list A) (startpos pos : nat) (newitem : A) : list A :=
match fuel with
| O => <[pos := newitem]> heap
| S fuel =>
    if pos <=? startpos then <[pos := newitem]> heap
    else
      let parentpos := Nat.div2 (pos - 1) in
      match heap !! parentpos with
      | None => <[pos := newitem]> heap
      | Some parent =>
          if lt newitem parent
          then siftdown_loop fuel (<[pos := parent]> heap) startpos parentpos newitem
          else <[pos := newitem]> heap
      end
end.

Definition siftdown (heap : list A) (startpos pos : nat) : list A :=
match heap !! pos with
| Some newitem => siftdown_loop pos heap startpos pos newitem
| None => heap
end.

(** The loop of [_siftup]: the final position and the list, the item not yet
  written back. *)
Fixpoint siftup_loop (fuel : nat) (heap : list A) (pos : nat) : list A * nat :=
match fuel with
| O => (heap, pos)
| S fuel =>
    let childpos := 2 * pos + 1 in
    if childpos <? length heap then
      let rightpos := childpos + 1 in
      let childpos :=
        match heap !! childpos, heap !! rightpos with
        | Some child, Some rchild => if lt child rchild then childpos else rightpos
        | _, _ => childpos
        end in
      match heap !! childpos with
      | Some child => siftup_loop fuel (<[pos := child]> heap) childpos
      | None => (heap, pos)
      end
    else (heap, pos)
end.

Definition siftup (heap : list A) (pos : nat) : list A :=
match heap !! pos with
| Some newitem =>
    let '(heap, endpos) := siftup_loop (length heap) heap pos in
    siftdown (<[endpos := newitem]> heap) pos endpos
| None => heap
end.

Definition heappush (heap : list A) (item : A) : list A :=
siftdown (heap ++ [item]) 0 (length heap).

(** [None]: [heap.pop()] on an empty list raises. *)
Definition heappop (heap : list A) : option (A * list A) :=
match last heap with
| None => None
| Some lastelt =>
    let heap := take (pred (length heap)) heap in
    match heap with
    | [] => Some (lastelt, [])
    | returnitem :: _ => Some (returnitem, siftup (<[0 := lastelt]> heap) 0)
    end
end.

Definition heapify (x : list A) : list A :=
fold_left siftup (rev (seq 0 (Nat.div2 (length x)))) x.

(** ** Permutation and length *)

Lemma insert_perm (h : list A) i a x : h !! i = Some a -> a :: <[i := x]> h ≡ₚ x :: h.
Proof.
revert i. induction h as [|b h IH]; intros [|i]; simpl; try done.
- intros [= ->]. constructor.
- intros H. specialize (IH i H). rewrite Permutation_swap, IH. constructor.
Qed.

Lemma insert_swap_perm (h : list A) i j a x y :
i <> j -> h !! i = Some a -> h !! j = Some y -> <[j := x]> (<[i := y]> h) ≡ₚ <[i := x]> h.
Proof.
intros Hij Hi Hj.
apply (Permutation_cons_inv (a := a)), (Permutation_cons_inv (a := y)).
rewrite (insert_perm h i a x Hi), (perm_swap a y).
rewrite (insert_perm (<[i := y]> h) j y x) by (by rewrite list_lookup_insert_ne).
rewrite (perm_swap x a), (insert_perm h i a y Hi). constructor.
Qed.

Lemma div2_lt pos : 0 < pos -> Nat.div2 (pos - 1) < pos.
Proof. intros H. pose proof (Nat.div2_decr (pos - 1) pos). destruct pos; simpl; [lia|]. rewrite Nat.sub_0_r. apply Nat.lt_succ_r, Nat.div2_decr. lia. Qed.

Lemma siftdown_loop_perm fuel h s pos x :
pos < length h -> siftdown_loop fuel h s pos x ≡ₚ <[pos := x]> h.
Proof.
revert h pos. induction fuel as [|fuel IH]; intros h pos Hpos; [done|]. simpl.
destruct (Nat.leb_spec pos s); [done|]. pose proof (div2_lt pos ltac:(lia)).
destruct (h !! Nat.div2 (pos - 1)) as [p|] eqn:Ep; [|done]. case_match; [|done].
rewrite IH by (rewrite length_insert; lia).
destruct (lookup_lt_is_Some_2 h pos Hpos) as [a Ha].
apply (insert_swap_perm h pos (Nat.div2 (pos - 1)) a x p); [lia|done|done].
Qed.

Lemma siftdown_perm h s pos : siftdown h s pos ≡ₚ h.
Proof.
unfold siftdown. destruct (h !! pos) as [x|] eqn:E; [|done].
rewrite siftdown_loop_perm by (by apply lookup_lt_Some in E). by rewrite list_insert_id.
Qed.

Lemma siftup_loop_perm fuel h pos x h' pos' :
pos < length h -> siftup_loop fuel h pos = (h', pos') ->
pos' < length h' /\ <[pos' := x]> h' ≡ₚ <[pos := x]> h.
Proof.
revert h pos. induction fuel as [|fuel IH]; intros h pos Hpos; simpl; [by intros [= <- <-]|].
case_match; [|by intros [= <- <-]].
set (c := match h !! (pos + (pos + 0) + 1) with Some child => _ | None => _ end).
assert (pos < c) as Hc by (subst c; repeat case_match; lia).
destruct (h !! c) as [y|] eqn:Ec; [|by intros [= <- <-]]. intros H'.
apply IH in H' as [? HP]; [|rewrite length_insert; by apply lookup_lt_Some in Ec].
split; [done|]. rewrite HP.
destruct (lookup_lt_is_Some_2 h pos Hpos) as [a Ha].
apply (insert_swap_perm h pos c a x y); [lia|done|done].
Qed.

Lemma siftup_perm h pos : siftup h pos ≡ₚ h.
Proof.
unfold siftup. destruct (h !! pos) as [x|] eqn:E; [|done].
destruct (siftup_loop (length h) h pos) as [h' pos'] eqn:El. rewrite siftdown_perm.
apply (siftup_loop_perm _ _ _ x) in El as [_ ->]; [|by apply lookup_lt_Some in E].
by rewrite list_insert_id.
Qed.

Lemma heapify_perm h : heapify h ≡ₚ h.
Proof.
unfold heapify. generalize (rev (seq 0 (Nat.div2 (length h)))). intros l. revert h.
induction l as [|i l IH]; intros h; simpl; [done|]. by rewrite IH, siftup_perm.
Qed.

Lemma heappush_perm h x : heappush h x ≡ₚ x :: h.
Proof. unfold heappush. rewrite siftdown_perm. by rewrite (comm app). Qed.

Lemma heappop_perm h :
match heappop h with None => h = [] | Some (x, h') => h ≡ₚ x :: h' end.
Proof.
unfold heappop. destruct (last h) as [z|] eqn:E; [|by apply last_None].
apply last_Some in E as [l ->]. rewrite length_app. simpl.
replace (pred (length l + 1)) with (length l) by lia. rewrite take_app_length.
destruct l as [|y l]; [done|]. rewrite siftup_perm. simpl. constructor. by rewrite (comm app).
Qed.

(** ** Heap order *)

Definition parent (i : nat) : nat := Nat.div2 (i - 1).

Lemma parent_spec i p : 1 <= i -> parent i = p <-> i = 2 * p + 1 \/ i = 2 * p + 2.
Proof.
unfold parent. rewrite Nat.div2_div. pose proof (Nat.div_mod (i - 1) 2 ltac:(lia)).
pose proof (Nat.mod_upper_bound (i - 1) 2 ltac:(lia)). lia.
Qed.

Lemma parent_lt i : 1 <= i -> parent i < i.
Proof.
unfold parent. rewrite Nat.div2_div. pose proof (Nat.div_mod (i - 1) 2 ltac:(lia)).
pose proof (Nat.mod_upper_bound (i - 1) 2 ltac:(lia)). lia.
Qed.

Context (good : A -> Prop).
Context (le_trans : forall a b c, good a -> good b -> good c ->
lt b a = false -> lt c b = false -> lt c a = false).
Context (lt_asym : forall a b, good a -> good b -> lt a b = true -> lt b a = false).

Lemma lt_irrefl a : good a -> lt a a = false.
Proof. intros Ha. destruct (lt a a) eqn:E; [|done]. by rewrite (lt_asym a a Ha Ha E) in E. Qed.

(** [a <= b] between good elements. *)
Definition leq (a b : A) : Prop := good a /\ good b /\ lt b a = false.

Lemma leq_trans a b c : leq a b -> leq b c -> leq a c.
Proof. intros (? & ? & ?) (? & ? & ?). split_and!; [done..|]. by apply (le_trans a b c). Qed.

Definition edge (h : list A) (i : nat) : Prop :=
forall a b, h !! parent i = Some a -> h !! i = Some b -> leq a b.

(** The heap order below position [s]. *)
Definition heap_from (s : nat) (h : list A) : Prop :=
forall i, 1 <= i -> s <= parent i -> edge h i.

Inductive below (s : nat) : nat -> Prop :=
| below_refl : below s s
| below_step i : 1 <= i -> below s (parent i) -> below s i.

Lemma below_le s i : below s i -> s <= i.
Proof. induction 1 as [|i Hi _ IH]; [done|]. pose proof (parent_lt i Hi). lia. Qed.

Lemma below_parent s i : below s i -> i <> s -> 1 <= i /\ below s (parent i) /\ s <= parent i.
Proof. destruct 1; [done|]. intros _. split_and!; [done..|by apply below_le]. Qed.

Lemma below_zero i : below 0 i.
Proof.
induction (lt_wf i) as [i _ IH]. destruct i as [|i]; [constructor|].
apply below_step; [lia|]. apply IH, parent_lt. lia.
Qed.

(** [x] sits at [pos]: only the edge above [pos] may be wrong. *)
Record rising (s : nat) (h : list A) (pos : nat) (x : A) : Prop := {
ri_edges : forall i, 1 <= i -> s <= parent i -> i <> pos -> edge (<[pos := x]> h) i;
ri_skip : pos <> s -> forall c, 1 <= c -> parent c = pos ->
  forall g b, h !! parent pos = Some g -> h !! c = Some b -> leq g b }.

Lemma rising_swap s h pos x p :
pos < length h -> below s pos -> pos <> s -> good x -> good p -> h !! parent pos = Some p ->
lt x p = true -> rising s h pos x -> rising s (<[pos := p]> h) (parent pos) x.
Proof.
intros Hpos Hbel Hne Hx Hp Hpar Hlt [He Hs].
destruct (below_parent _ _ Hbel Hne) as (H1 & Hb2 & Hsp). pose proof (parent_lt pos H1).
assert (leq x p) as Hxp by (split_and!; [done..|by apply lt_asym]).
assert (parent pos < length h) as Hpl by lia. split.
- intros i Hi Hsi Hip a b. destruct (decide (i = pos)) as [->|Hipos].
  + rewrite list_lookup_insert_eq by (by rewrite length_insert). rewrite list_lookup_insert_ne by lia.
    rewrite list_lookup_insert_eq by done. by intros [= <-] [= <-].
  + rewrite (list_lookup_insert_ne _ _ i) by done. rewrite (list_lookup_insert_ne _ _ i) by done.
    pose proof (He i Hi Hsi Hipos) as Hedge. unfold edge in Hedge.
    rewrite (list_lookup_insert_ne _ _ i) in Hedge by done.
    destruct (decide (parent i = parent pos)) as [Hpp|Hpp].
    * rewrite Hpp, list_lookup_insert_eq by (by rewrite length_insert). intros [= <-] Hb.
      rewrite Hpp, list_lookup_insert_ne in Hedge by lia. eapply leq_trans; eauto.
    * rewrite list_lookup_insert_ne by done. destruct (decide (parent i = pos)) as [Hpi|Hpi].
      -- rewrite Hpi, list_lookup_insert_eq by done. intros [= <-] Hb. by eapply (Hs Hne i).
      -- rewrite list_lookup_insert_ne by done. rewrite list_lookup_insert_ne in Hedge by done. apply Hedge.
- intros Hps c Hc Hcp g b. destruct (below_parent _ _ Hb2 Hps) as (H2 & _ & Hsp2).
  pose proof (parent_lt _ H2). rewrite list_lookup_insert_ne by lia. intros Hg.
  assert (leq g p) as Hgp.
  { apply (He (parent pos)); [done..|lia| |]; rewrite list_lookup_insert_ne by lia; done. }
  destruct (decide (c = pos)) as [->|Hcpos].
  + rewrite list_lookup_insert_eq by done. by intros [= <-].
  + rewrite list_lookup_insert_ne by done. intros Hb. apply (leq_trans _ p); [done|].
    apply (He c); [done|by rewrite Hcp|done| |by rewrite list_lookup_insert_ne].
    rewrite Hcp, list_lookup_insert_ne by lia. done.
Qed.

Lemma siftdown_loop_ok fuel h s pos x :
pos <= fuel -> pos < length h -> below s pos -> good x -> Forall good h -> rising s h pos x ->
heap_from s (siftdown_loop fuel h s pos x).
Proof.
revert h pos. induction fuel as [|fuel IH]; intros h pos Hf Hpos Hbel Hx Hg Hr.
- simpl. intros i Hi Hsi. apply Hr; [done..|lia].
- simpl. pose proof (below_le _ _ Hbel). destruct (Nat.leb_spec pos s) as [Hle|Hgt].
  + assert (pos = s) as -> by lia. intros i Hi Hsi. apply Hr; [done..|].
    intros ->. pose proof (parent_lt s Hi). lia.
  + destruct (below_parent _ _ Hbel ltac:(lia)) as (H1 & Hb2 & Hsp). pose proof (parent_lt pos H1).
    fold (parent pos). destruct (lookup_lt_is_Some_2 h (parent pos) ltac:(lia)) as [p Hp]. rewrite Hp.
    pose proof (Forall_lookup_1 _ _ _ _ Hg Hp) as Hgp.
    destruct (lt x p) eqn:El.
    * apply IH; [lia|rewrite length_insert; lia|done|done|by apply Forall_insert|].
      by apply rising_swap; [| |lia| | | | |].
    * intros i Hi Hsi. destruct (decide (i = pos)) as [->|Hip]; [|by apply Hr].
      intros a b. rewrite list_lookup_insert_ne by lia. rewrite Hp, list_lookup_insert_eq by done.
      intros [= <-] [= <-]. done.
Qed.

(** [pos] is a hole: the edges around it are missing. *)
Record falling (s : nat) (h : list A) (pos : nat) : Prop := {
fa_edges : forall i, 1 <= i -> s <= parent i -> i <> pos -> parent i <> pos -> edge h i;
fa_skip : pos <> s -> forall c, 1 <= c -> parent c = pos ->
  forall g b, h !! parent pos = Some g -> h !! c = Some b -> leq g b }.

Lemma falling_step s h pos c y :
pos < length h -> below s pos -> 1 <= c -> parent c = pos -> h !! c = Some y ->
(forall d b, 1 <= d -> parent d = pos -> h !! d = Some b -> leq y b) ->
falling s h pos -> falling s (<[pos := y]> h) c.
Proof.
intros Hpos Hbel Hc Hcp Hy Hmin [He Hs]. pose proof (parent_lt c Hc). split.
- intros i Hi Hsi Hic Hpic a b. destruct (decide (i = pos)) as [->|Hip].
  + pose proof (parent_lt pos Hi). rewrite list_lookup_insert_ne by lia.
    rewrite list_lookup_insert_eq by done. intros Ha [= <-].
    apply (Hs ltac:(pose proof (below_le _ _ Hbel); lia) c); done.
  + rewrite (list_lookup_insert_ne _ _ i) by done.
    destruct (decide (parent i = pos)) as [Hpi|Hpi].
    * rewrite Hpi, list_lookup_insert_eq by done. intros [= <-]. by apply Hmin.
    * rewrite list_lookup_insert_ne by done. by apply He.
- intros _ d Hd Hdp g b. pose proof (parent_lt d Hd). rewrite Hcp, list_lookup_insert_eq by done.
  intros [= <-]. rewrite list_lookup_insert_ne by lia. intros Hb.
  apply (He d); [done|pose proof (below_le _ _ Hbel); lia|lia|lia|by rewrite Hdp|done].
Qed.

Lemma siftup_loop_ok fuel h s pos h' pos' :
length h <= fuel + pos -> pos < length h -> below s pos -> Forall good h -> falling s h pos ->
siftup_loop fuel h pos = (h', pos') ->
falling s h' pos' /\ below s pos' /\ Forall good h' /\ pos' < length h' /\ length h' <= 2 * pos' + 1.
Proof.
revert h pos. induction fuel as [|fuel IH]; intros h pos Hf Hpos Hbel Hg Hfa; simpl; [lia|].
destruct (Nat.ltb_spec (pos + (pos + 0) + 1) (length h)) as [Hl|Hl];
  [|intros [= <- <-]; split_and!; try done; lia].
destruct (lookup_lt_is_Some_2 h _ Hl) as [l Hll].
set (c := match h !! (pos + (pos + 0) + 1) with Some child => _ | None => _ end).
assert (exists y, 1 <= c /\ parent c = pos /\ h !! c = Some y /\
          forall d b, 1 <= d -> parent d = pos -> h !! d = Some b -> leq y b) as (y & Hc & Hcp & Hy & Hmin).
{ pose proof (Forall_lookup_1 _ _ _ _ Hg Hll) as Hgl. subst c. rewrite Hll.
  assert (leq l l) as Hrefl.
  { split_and!; [done..|]. by apply lt_irrefl. }
  assert (forall i, i = pos + (pos + 0) + 1 \/ i = pos + (pos + 0) + 1 + 1 -> 1 <= i /\ parent i = pos) as Hch
    by (intros i Hi; split; [lia|apply parent_spec; lia]).
  assert (forall d, 1 <= d -> parent d = pos -> d = pos + (pos + 0) + 1 \/ d = pos + (pos + 0) + 1 + 1) as Hd
    by (intros d H1 H2; apply parent_spec in H2; lia).
  destruct (h !! (pos + (pos + 0) + 1 + 1)) as [r|] eqn:Er.
  - pose proof (Forall_lookup_1 _ _ _ _ Hg Er) as Hgr. destruct (lt l r) eqn:Elt.
    + exists l. destruct (Hch (pos + (pos + 0) + 1)); [by left|]. split_and!; [done..|].
      intros d b H1 H2. destruct (Hd d H1 H2) as [->| ->]; intros Hb; simplify_eq; [done|].
      split_and!; [done..|by apply lt_asym].
    + exists r. destruct (Hch (pos + (pos + 0) + 1 + 1)); [by right|]. split_and!; [done..|].
      intros d b H1 H2. destruct (Hd d H1 H2) as [->| ->]; intros Hb; simplify_eq; [done|].
      split_and!; [done..|by apply lt_irrefl].
  - exists l. destruct (Hch (pos + (pos + 0) + 1)); [by left|]. split_and!; [done..|].
    intros d b H1 H2. destruct (Hd d H1 H2) as [->| ->]; intros Hb; by simplify_eq. }
rewrite Hy. pose proof (parent_lt c Hc). apply IH.
- rewrite length_insert. lia.
- rewrite length_insert. by apply lookup_lt_Some in Hy.
- apply below_step; [done|by rewrite Hcp].
- apply Forall_insert; [done|]. by eapply Forall_lookup_1.
- by eapply falling_step.
Qed.

Lemma siftup_ok h s :
Forall good h -> heap_from (S s) h -> heap_from s (siftup h s).
Proof.
intros Hg Hh. unfold siftup. destruct (h !! s) as [x|] eqn:Ex.
- destruct (siftup_loop (length h) h s) as [h' pos] eqn:El.
  pose proof (Forall_lookup_1 _ _ _ _ Hg Ex) as Hx.
  destruct (siftup_loop_ok (length h) h s s h' pos ltac:(lia) (lookup_lt_Some _ _ _ Ex) (below_refl s) Hg) with (2 := El)
    as ([He Hs] & Hb & Hg' & Hpos & Hlast).
  { split; [|done]. intros i Hi Hsi _ Hpi. apply Hh; [done|]. lia. }
  unfold siftdown. rewrite list_lookup_insert_eq by done.
  apply siftdown_loop_ok; [lia|by rewrite length_insert|done|done|by apply Forall_insert|].
  assert (forall c b, 1 <= c -> parent c = pos -> h' !! c = Some b -> False) as Hleaf.
  { intros c b Hc Hcp Hcb. apply parent_spec in Hcp; [|done]. apply lookup_lt_Some in Hcb. lia. }
  split.
  + intros i Hi Hsi Hip a b. rewrite list_insert_insert_eq, (list_lookup_insert_ne _ _ i) by done.
    destruct (decide (parent i = pos)) as [Hpi|Hpi]; [intros _ Hb'; by destruct (Hleaf i b)|].
    rewrite list_lookup_insert_ne by done. by apply He.
  + intros _ c Hc Hcp g b _. pose proof (parent_lt c Hc). rewrite list_lookup_insert_ne by lia.
    intros Hb'. by destruct (Hleaf c b).
- intros i Hi Hsi a b Ha Hb. apply lookup_ge_None in Ex. apply lookup_lt_Some in Ha. lia.
Qed.

(** ** The contract *)

Definition is_heap (h : list A) : Prop := Forall good h /\ heap_from 0 h.

Lemma Forall_good_perm h h' : h ≡ₚ h' -> Forall good h -> Forall good h'.
Proof. by intros ->. Qed.

Lemma is_heap_nil : is_heap [].
Proof. split; [constructor|]. intros i _ _ a b Ha. by rewrite lookup_nil in Ha. Qed.

Lemma heap_prefix s h l : heap_from s (h ++ l) -> heap_from s h.
Proof.
intros H i Hi Hs a b Ha Hb. apply (H i Hi Hs); by apply lookup_app_l_Some.
Qed.

Lemma heappush_heap h x : is_heap h -> good x -> is_heap (heappush h x).
Proof.
intros [Hg Hh] Hx. split.
- eapply Forall_good_perm; [symmetry; apply heappush_perm|]. by constructor.
- unfold heappush, siftdown. rewrite lookup_app_r, Nat.sub_diag by lia. simpl.
  assert (Forall good (h ++ [x])) as Hg' by (apply Forall_app; by split; [|repeat constructor]).
  assert (length h < length (h ++ [x])) as Hl by (rewrite length_app; simpl; lia).
  apply siftdown_loop_ok; try done; [apply below_zero|].
  assert (<[length h := x]> (h ++ [x]) = h ++ [x]) as Hid.
  { apply list_insert_id. by rewrite lookup_app_r, Nat.sub_diag by lia. }
  split.
  + rewrite Hid. intros i Hi _ Hne a b Ha Hb. pose proof (parent_lt i Hi).
    assert (i < length h) by (apply lookup_lt_Some in Hb; rewrite length_app in Hb; simpl in Hb; lia).
    rewrite lookup_app_l in Ha, Hb by lia. apply (Hh i); [done|lia|done|done].
  + intros _ c Hc Hcp g b _ Hb. pose proof (parent_lt c Hc).
    apply lookup_lt_Some in Hb. rewrite length_app in Hb. simpl in Hb. lia.
Qed.

Lemma heappop_heap h x h' : is_heap h -> heappop h = Some (x, h') -> is_heap h'.
Proof.
intros [Hg Hh] Hp. pose proof (heappop_perm h) as HP. rewrite Hp in HP.
pose proof (Forall_good_perm _ _ HP Hg) as Hg'. apply Forall_cons in Hg' as [_ Hg'].
split; [done|]. unfold heappop in Hp. destruct (last h) as [z|] eqn:E; [|done].
apply last_Some in E as [l ->]. rewrite length_app in Hp. simpl in Hp.
replace (pred (length l + 1)) with (length l) in Hp by lia. rewrite take_app_length in Hp.
destruct l as [|y l]; injection Hp as <- <-; [intros i _ _ a b Ha; by rewrite lookup_nil in Ha|].
apply Forall_app in Hg as [Hg [Hz _]%Forall_cons]. apply heap_prefix in Hh.
change (z :: l) with (<[0 := z]> (y :: l)). apply siftup_ok; [by apply Forall_insert|].
intros i Hi Hs a b. pose proof (parent_lt i Hi). rewrite !list_lookup_insert_ne by lia. apply Hh; [done|lia].
Qed.

Lemma heap_root_least h x : is_heap h -> head h = Some x -> forall y, y ∈ h -> leq x y.
Proof.
intros [Hg Hh] Hx y [i Hi]%list_elem_of_lookup. revert y Hi.
induction (lt_wf i) as [i _ IH]. intros y Hi. destruct i as [|i].
- destruct h; [done|]. simpl in *. simplify_eq. apply Forall_cons in Hg as [Hgx _].
  split_and!; [done..|by apply lt_irrefl].
- pose proof (parent_lt (S i) ltac:(lia)). pose proof (lookup_lt_Some _ _ _ Hi).
  destruct (lookup_lt_is_Some_2 h (parent (S i)) ltac:(lia)) as [p Hp].
  apply (leq_trans _ p); [by eapply IH|]. apply (Hh (S i)); [lia|lia|done|done].
Qed.

Lemma heappop_head h x h' : heappop h = Some (x, h') -> head h = Some x.
Proof.
unfold heappop. destruct (last h) as [z|] eqn:E; [|done]. apply last_Some in E as [l ->].
rewrite length_app. simpl. replace (pred (length l + 1)) with (length l) by lia. rewrite take_app_length.
destruct l as [|y l]; by intros [= <- _].
Qed.

(** [heappop] removes a least element and leaves a heap of the others. *)
Lemma heappop_spec h x h' :
is_heap h -> heappop h = Some (x, h') ->
h ≡ₚ x :: h' /\ is_heap h' /\ forall y, y ∈ h' -> leq x y.
Proof.
intros Hh Hp. pose proof (heappop_perm h) as HP. rewrite Hp in HP.
split_and!; [done|by eapply heappop_heap|]. intros y Hy.
eapply heap_root_least; [done|by eapply heappop_head|]. rewrite HP. by right.
Qed.

Lemma heapify_heap h : Forall good h -> is_heap (heapify h).
Proof.
intros Hg. split; [eapply Forall_good_perm; [symmetry; apply heapify_perm|done]|].
unfold heapify. assert (heap_from (Nat.div2 (length h)) h) as Hh.
{ intros i Hi Hs a b Ha Hb. apply lookup_lt_Some in Hb. unfold parent in Hs.
  rewrite !Nat.div2_div in Hs.
  pose proof (Nat.div_mod (i - 1) 2 ltac:(lia)). pose proof (Nat.mod_upper_bound (i - 1) 2 ltac:(lia)).
  pose proof (Nat.div_mod (length h) 2 ltac:(lia)). pose proof (Nat.mod_upper_bound (length h) 2 ltac:(lia)).
  lia. }
revert Hg Hh. generalize (Nat.div2 (length h)). intros n. revert h. induction n as [|n IH]; intros h Hg Hh; [done|].
rewrite seq_S, rev_app_distr. simpl. apply IH; [eapply Forall_good_perm; [symmetry; apply siftup_perm|done]|].
by apply siftup_ok.
Qed.
End Heap.
