(* ===== verification/PriorityFrontier.v ===== *)
(** * The priority crawl frontier

    [external_crawl/priority_frontier.py] and [FrontierPriorityHint] of
    [contracts/crawl_planner.py]. The admission rules, event log and counters
    are [Frontier.Base]; the queue is a [heapq] list of [(-priority, seq,
    item)]. Theorems: priorities are clamped whatever the hints, [pop] serves
    the item of highest priority under the hints added so far (oldest first
    among equals), and nothing is lost or admitted twice. *)
From Stdlib Require Import Floats Ascii.
From S2P Require Import Prelude PyDict PyStr PyFloat Heap UrlLib Url Frontier.
Local Open Scope Z_scope.

(** ** Hints *)

Inductive FrontierMatchKind := URL_PREFIX | HOST_GLOB | CONTENT_TYPE_PREFIX.

Record FrontierPriorityHint := {
  ph_match_kind : FrontierMatchKind;
  ph_match_value : string;
  ph_priority_delta : float;
  ph_rationale_ref : string }.

Definition is_alnum (c : ascii) : bool := is_alpha c || is_digit c.

(** [^[class]+$] with [re.match]: [$] also matches before a final newline. *)
Definition all_of (p : ascii -> bool) (s : string) : bool :=
  let '(a, b) := span p s in truthy_str a && bool_decide (b = "" \/ b = String "010" "").

Definition host_glob_char (c : ascii) : bool :=
  is_alnum c || str_in_char c "._*-".
Definition mime_type_char (c : ascii) : bool := is_alnum c || str_in_char c "!#$&^_.+-".
Definition mime_subtype_char (c : ascii) : bool := is_alnum c || str_in_char c "!#$&^_.+*-".
Definition mime_prefix (s : string) : bool :=
  let '(t, rest) := span mime_type_char s in
  truthy_str t && match rest with
                  | String "/" rest => let '(_, b) := span mime_subtype_char rest in
                                       bool_decide (b = "" \/ b = String "010" "")
                  | _ => false
                  end.

(** [_is_http_url]; [urlparse] raises the [ValueError] of [urlsplit]. *)
Definition is_http_url (env : NetEnv) (value : string) : res bool :=
  let? p := urlsplit env value in
  Ok (bool_decide (sr_scheme p = "http" \/ sr_scheme p = "https") && truthy_str (sr_netloc p)).

Definition validate_hint (env : NetEnv) (h : FrontierPriorityHint) : res FrontierPriorityHint :=
  do? guard (PrimFloat.leb (-1)%float (ph_priority_delta h) && PrimFloat.leb (ph_priority_delta h) 1%float)
        (ValidationError "priority_delta must be in [-1.0, 1.0]") in
  do? guard (truthy_str (strip (ph_match_value h))) (ValidationError "match_value must be non-blank") in
  do? match ph_match_kind h with
      | URL_PREFIX =>
          match is_http_url env (ph_match_value h) with
          | Ok b => guard b (ValidationError "match_value must be http(s) URL")
          | Raise (ValueError m) => Raise (ValidationError m)
          | Raise e => Raise e
          end
      | HOST_GLOB => guard (all_of host_glob_char (ph_match_value h))
                       (ValidationError "match_value must be host glob")
      | CONTENT_TYPE_PREFIX => guard (mime_prefix (ph_match_value h))
                                 (ValidationError "match_value must be type/subtype")
      end in
  do? guard (truthy_str (strip (ph_rationale_ref h))) (ValidationError "rationale_ref must be non-blank") in
  Ok h.

(** [fnmatch.fnmatch] for patterns without brackets (the host-glob contract
    excludes them). *)
Fixpoint fnmatch (name pat : string) : bool :=
  match pat with
  | EmptyString => bool_decide (name = "")
  | String p pat' =>
      if decide (p = "*"%char) then
        (fix star (name : string) : bool :=
           fnmatch name pat' || match name with EmptyString => false | String _ name => star name end) name
      else match name with
           | EmptyString => false
           | String c name' => bool_decide (p = "?"%char \/ p = c) && fnmatch name' pat'
           end
  end.

(** ** Priorities *)

Definition PRIORITY_CLAMP_MAX : float := 2%float.
Definition PRIORITY_CLAMP_MIN : float := (-2)%float.

Definition hint_matches (canonical_url hostname : string) (h : FrontierPriorityHint) : bool :=
  match ph_match_kind h with
  | URL_PREFIX => startswith (ph_match_value h) canonical_url
  | HOST_GLOB => truthy_str hostname && fnmatch hostname (ph_match_value h)
  | CONTENT_TYPE_PREFIX => false
  end.

Definition compute_item_priority (env : NetEnv) (canonical_url : string) (depth : Z)
    (hints : list FrontierPriorityHint) : res float :=
  let? d := float_of_int depth in
  let? base := float_div 1%float (PrimFloat.add 1%float d) in
  let? p := urlsplit env canonical_url in
  let hostname := default "" (hostname p) in
  let score := fold_left (fun score h => if hint_matches canonical_url hostname h
                                         then PrimFloat.add score (ph_priority_delta h) else score)
                         hints base in
  Ok (py_max PRIORITY_CLAMP_MIN (py_min PRIORITY_CLAMP_MAX score)).

(** ** [PriorityCrawlFrontier] *)

Abbreviation entry := (float * Z * FrontierItem)%type.

(** Tuple comparison: by [-priority], then by [enqueue_seq]; the sequence
    numbers are distinct, so items are never compared. *)
Definition entry_lt (a b : entry) : bool :=
  if PrimFloat.eqb a.1.1 b.1.1 then a.1.2 <? b.1.2 else PrimFloat.ltb a.1.1 b.1.1.

Record PriorityCrawlFrontier := {
  p_base : Base;
  p_heap : list entry;
  p_enqueue_seq : Z;
  p_hints : list FrontierPriorityHint }.

Definition init (allowed denied : gset string) (max_depth max_pages : Z) (allow_loopback : bool)
    : res PriorityCrawlFrontier :=
  let? b := new_base allowed denied max_depth max_pages allow_loopback in
  Ok {| p_base := b; p_heap := []; p_enqueue_seq := 0; p_hints := [] |}.

Definition on_base {A} (m : M Base A) : M PriorityCrawlFrontier A := fun f =>
  let '(r, b) := m (p_base f) in
  (r, {| p_base := b; p_heap := p_heap f; p_enqueue_seq := p_enqueue_seq f; p_hints := p_hints f |}).

Definition mark_seen (url : string) (b : Base) : Base :=
  {| b_config := b_config b; b_seen := {[url]} ∪ b_seen b; b_fetched := b_fetched b;
     b_events := b_events b; b_counters := b_counters b |}.

(** [self._seen.add] comes before the priority is computed, so an exception in
    between leaves the URL seen. *)
Definition enqueue (env : NetEnv) (url : string) (depth : Z) (parent : option string) (now : Z)
    : M PriorityCrawlFrontier EnqueueOutcome :=
  let* admitted := on_base (admission env url depth now) in
  match admitted with
  | inr outcome => ret outcome
  | inl canonical => fun f =>
      let item := {| it_canonical_url := canonical; it_depth := depth;
                     it_parent_canonical_url := parent; it_discovered_at := now |} in
      match compute_item_priority env canonical depth (p_hints f) with
      | Raise e => (Raise e, {| p_base := mark_seen canonical (p_base f); p_heap := p_heap f;
                                p_enqueue_seq := p_enqueue_seq f; p_hints := p_hints f |})
      | Ok priority =>
          (Ok {| eo_admitted := true; eo_canonical_url := Some canonical; eo_skip_reason := None |},
           {| p_base := record_enqueued item (p_base f);
              p_heap := heappush entry_lt (p_heap f) (PrimFloat.opp priority, p_enqueue_seq f, item);
              p_enqueue_seq := p_enqueue_seq f + 1; p_hints := p_hints f |})
      end
  end.

Definition pop (now : Z) : M PriorityCrawlFrontier (option FrontierItem) := fun f =>
  if budget_exhausted (p_base f) then (Ok None, f)
  else match heappop entry_lt (p_heap f) with
       | None => (Ok None, f)
       | Some ((_, _, item), heap) =>
           (Ok (Some item),
            {| p_base := record_dequeued item now (p_base f); p_heap := heap;
               p_enqueue_seq := p_enqueue_seq f; p_hints := p_hints f |})
       end.

(** The loop of [add_hints] over the heap entries. *)
Fixpoint rebuild (env : NetEnv) (hints : list FrontierPriorityHint) (heap : list entry) : res (list entry) :=
  match heap with
  | [] => Ok []
  | (_, seq, item) :: heap =>
      let? priority := compute_item_priority env (it_canonical_url item) (it_depth item) hints in
      let? rebuilt := rebuild env hints heap in
      Ok ((PrimFloat.opp priority, seq, item) :: rebuilt)
  end.

Definition add_hints (env : NetEnv) (new_hints : list FrontierPriorityHint) : M PriorityCrawlFrontier unit := fun f =>
  match new_hints with
  | [] => (Ok tt, f)
  | _ =>
      let hints := p_hints f ++ new_hints in
      let with_heap heap := {| p_base := p_base f; p_heap := heap; p_enqueue_seq := p_enqueue_seq f;
                               p_hints := hints |} in
      match rebuild env hints (p_heap f) with
      | Raise e => (Raise e, with_heap (p_heap f))
      | Ok rebuilt => (Ok tt, with_heap (heapify entry_lt rebuilt))
      end
  end.

(** ** The order of heap entries *)

Definition good (e : entry) : Prop := not_nan e.1.1.

(** Lexicographic on [(-priority, seq)]. *)
Definition entry_before (a b : entry) : Prop :=
  lex_lt (fkey a.1.1) (fkey b.1.1) \/ (fkey a.1.1 = fkey b.1.1 /\ a.1.2 < b.1.2).

Lemma entry_lt_spec a b : good a -> good b -> entry_lt a b = true <-> entry_before a b.
Proof.
  intros Ha Hb. unfold entry_lt, entry_before. pose proof (eqb_key _ _ Ha Hb) as He.
  destruct (PrimFloat.eqb a.1.1 b.1.1).
  - rewrite (proj1 He eq_refl), Z.ltb_lt. destruct (fkey b.1.1) as [[? ?] ?]. simpl. split; [tauto|lia].
  - rewrite (ltb_key _ _ Ha Hb). split; [tauto|]. intros [?|[Hk _]]; [done|]. by apply He in Hk.
Qed.

Lemma entry_lt_false a b : good a -> good b -> entry_lt a b = false <-> ~ entry_before a b.
Proof. intros Ha Hb. rewrite <-(entry_lt_spec a b) by done. by destruct (entry_lt a b). Qed.

(** Lets [lia] decide goals about [entry_before]. *)
Ltac entry_lia :=
  repeat match goal with H : good _ |- _ => clear H end;
  unfold entry_before in *;
  repeat match goal with |- context [fkey ?x] => destruct (fkey x) as [[? ?] ?]
                       | H : context [fkey ?x] |- _ => destruct (fkey x) as [[? ?] ?] end;
  cbn [lex_lt] in *; rewrite ?pair_equal_spec in *; lia.

Lemma entry_le_trans a b c : good a -> good b -> good c ->
  entry_lt b a = false -> entry_lt c b = false -> entry_lt c a = false.
Proof. intros Ha Hb Hc. rewrite !entry_lt_false by done. intros H1 H2. entry_lia. Qed.

Lemma entry_lt_asym a b : good a -> good b -> entry_lt a b = true -> entry_lt b a = false.
Proof. intros Ha Hb. rewrite entry_lt_false, entry_lt_spec by done. intros H1. entry_lia. Qed.

Definition entry_heap : list entry -> Prop := is_heap entry_lt good.

(** Whatever the hints (even with infinite or NaN deltas), the priority of
    an item is a number in [[-2, 2]]. *)
Theorem priority_clamped env url depth hints p :
  compute_item_priority env url depth hints = Ok p ->
  not_nan p /\ PrimFloat.leb PRIORITY_CLAMP_MIN p = true /\ PrimFloat.leb p PRIORITY_CLAMP_MAX = true.
Proof.
  unfold compute_item_priority. intros H. run_m H. by apply clamp_bounds.
Qed.

Lemma priority_number env url depth hints p :
  compute_item_priority env url depth hints = Ok p -> not_nan p.
Proof. unfold compute_item_priority. intros H. run_m H. by apply clamp_bounds. Qed.

Lemma priority_not_nan env url depth hints p :
  compute_item_priority env url depth hints = Ok p -> not_nan (PrimFloat.opp p).
Proof. intros H. by eapply opp_not_nan, priority_number. Qed.

(** ** The invariant *)

(** [seq] is the position of the item's admission in the log, and the stored
    key is the current priority. *)
Definition entry_ok (env : NetEnv) (f : PriorityCrawlFrontier) (e : entry) : Prop :=
  0 <= e.1.2 /\
  logged "enqueued" (b_events (p_base f)) !! Z.to_nat e.1.2 = Some (item_key e.2) /\
  exists p, compute_item_priority env (it_canonical_url e.2) (it_depth e.2) (p_hints f) = Ok p /\
            e.1.1 = PrimFloat.opp p.

Record priority_inv (env : NetEnv) (f : PriorityCrawlFrontier) : Prop := {
  pi_base : base_inv (p_base f);
  pi_heap : entry_heap (p_heap f);
  pi_entries : Forall (entry_ok env f) (p_heap f);
  pi_seq : p_enqueue_seq f = Z.of_nat (length (logged "enqueued" (b_events (p_base f))));
  pi_lossless : logged "enqueued" (b_events (p_base f)) ≡ₚ
    logged "dequeued" (b_events (p_base f)) ++ ((fun e => item_key e.2) <$> p_heap f) }.

(** An exception raised while re-prioritising leaves the old keys next to the
    new hints; the invariant is stated for the runs in which it does not. *)
Inductive priority_step (env : NetEnv) : PriorityCrawlFrontier -> PriorityCrawlFrontier -> Prop :=
  | ps_enqueue url depth parent now f r f' :
      enqueue env url depth parent now f = (r, f') -> priority_step env f f'
  | ps_pop now f r f' : pop now f = (r, f') -> priority_step env f f'
  | ps_fetched url now f r f' : on_base (mark_fetched url now) f = (r, f') -> priority_step env f f'
  | ps_skip url reason now f r f' : on_base (skip url reason now) f = (r, f') -> priority_step env f f'
  | ps_hints hints f f' : add_hints env hints f = (Ok tt, f') -> priority_step env f f'.

(** The four parts of the state are independent: changing the base without
    touching the admission log keeps the rest. *)
Lemma priority_inv_base env f b :
  priority_inv env f -> base_inv b ->
  logged "enqueued" (b_events b) = logged "enqueued" (b_events (p_base f)) ->
  logged "dequeued" (b_events b) = logged "dequeued" (b_events (p_base f)) ->
  priority_inv env {| p_base := b; p_heap := p_heap f; p_enqueue_seq := p_enqueue_seq f; p_hints := p_hints f |}.
Proof.
  intros [Hb Hh He Hq Hl] Hb' E1 E2. split; simpl; rewrite ?E1, ?E2; try done.
  eapply Forall_impl; [exact He|]. intros e (? & Hlog & ?). split_and!; simpl; [done|by rewrite E1|done].
Qed.

Lemma record_skip_logs url reason depth now b kind :
  kind <> "skipped" ->
  logged kind (b_events (record_skip url reason depth now b).2) = logged kind (b_events b).
Proof. intros Hk. simpl. rewrite logged_snoc, decide_False by done. by rewrite app_nil_r. Qed.

Lemma mark_seen_inv url b : base_inv b -> base_inv (mark_seen url b).
Proof. intros [H1 H2 H3 H4 H5 H6]. split; simpl; try done. intros u Hu. apply elem_of_union. right. by apply H2. Qed.

Lemma priority_enqueue_inv env url depth parent now f r f' :
  priority_inv env f -> enqueue env url depth parent now f = (r, f') -> priority_inv env f'.
Proof.
  intros Hinv H. pose proof Hinv as [Hb Hh He Hq Hl]. cbv [enqueue bind on_base] in H.
  destruct (admission_spec env url depth now (p_base f)) as [(c & (_ & Hd & Hc) & E)|(_ & u & rs & o & _ & _ & E)];
    rewrite E in H; cbv beta iota in H.
  - destruct (compute_item_priority env c depth (p_hints f)) as [p|e] eqn:Ep; simpl in H; rewrite Ep in H;
      injection H as _ <-.
    + set (item := {| it_canonical_url := c |}).
      assert (logged "enqueued" (b_events (record_enqueued item (p_base f))) =
              logged "enqueued" (b_events (p_base f)) ++ [item_key item]) as Elog
        by (simpl; by rewrite logged_snoc).
      split; cbn [p_base p_heap p_enqueue_seq p_hints]; rewrite ?Elog.
      * by apply record_enqueued_inv.
      * apply heappush_heap; [apply entry_le_trans|apply entry_lt_asym|done|by eapply priority_not_nan].
      * eapply Forall_good_perm; [symmetry; apply heappush_perm|]. constructor.
        -- split_and!; simpl; [lia| |by exists p].
           rewrite logged_snoc, lookup_app_r, Hq, Nat2Z.id, Nat.sub_diag by lia. done.
        -- eapply Forall_impl; [exact He|]. intros e (? & Hlog & ?).
           split_and!; simpl; [done| |done]. rewrite logged_snoc. by apply lookup_app_l_Some.
      * rewrite length_app. simpl. lia.
      * rewrite (heappush_perm entry_lt). csimpl. rewrite logged_snoc. simpl. rewrite app_nil_r.
        rewrite Hl, (Permutation_app_comm _ [item_key item]). simpl. apply Permutation_middle.
    + apply priority_inv_base; [done|by apply mark_seen_inv|done..].
  - injection H as _ <-. apply priority_inv_base; [done|by apply record_skip_inv|by apply record_skip_logs..].
Qed.

Lemma pop_inv env now f r f' :
  priority_inv env f -> pop now f = (r, f') -> priority_inv env f'.
Proof.
  intros [Hb Hh He Hq Hl] H. unfold pop in H. case_match; [by injection H as _ <-; split|].
  destruct (heappop entry_lt (p_heap f)) as [[[[np seq] item] heap]|] eqn:Ep;
    [|by injection H as _ <-; split].
  injection H as _ <-.
  destruct (heappop_spec entry_lt good entry_le_trans entry_lt_asym _ _ _ Hh Ep) as (HP & Hh' & _).
  assert (logged "enqueued" (b_events (record_dequeued item now (p_base f))) =
          logged "enqueued" (b_events (p_base f))) as Elog by (simpl; rewrite logged_snoc; simpl; by rewrite app_nil_r).
  rewrite HP in He. apply Forall_cons in He as [_ He].
  split; cbn [p_base p_heap p_enqueue_seq p_hints]; rewrite ?Elog; try done.
  - by apply record_dequeued_inv.
  - eapply Forall_impl; [exact He|]. intros e (? & Hlog & ?).
    split_and!; cbn [p_base p_hints]; [done|by rewrite Elog|done].
  - rewrite Hl, HP. csimpl. rewrite logged_snoc. simpl. by rewrite <-app_assoc.
Qed.

Lemma rebuild_spec env hints heap rebuilt :
  rebuild env hints heap = Ok rebuilt ->
  ((fun e => (e.1.2, e.2)) <$> rebuilt) = ((fun e => (e.1.2, e.2)) <$> heap) /\
  Forall (fun e => good e /\ exists p, compute_item_priority env (it_canonical_url e.2) (it_depth e.2) hints = Ok p /\
                                     e.1.1 = PrimFloat.opp p) rebuilt.
Proof.
  revert rebuilt. induction heap as [|[[np seq] item] heap IH]; intros rebuilt; simpl.
  - intros [= <-]. split; [done|constructor].
  - intros H. run_m H. destruct (IH _ Hr0) as [IH1 IH2]. csimpl. split; [by rewrite IH1|].
    constructor; [|done]. simpl. split; [by eapply priority_not_nan|by eexists].
Qed.

Lemma add_hints_inv env hints f f' :
  priority_inv env f -> add_hints env hints f = (Ok tt, f') -> priority_inv env f'.
Proof.
  intros Hinv H. unfold add_hints in H. destruct hints as [|h hints]; [by injection H as <-|].
  destruct (rebuild env (p_hints f ++ h :: hints) (p_heap f)) as [rebuilt|e] eqn:Er; [|done].
  injection H as <-. destruct Hinv as [Hb Hh He Hq Hl].
  destruct (rebuild_spec _ _ _ _ Er) as [Esame Hnew].
  assert ((fun e : entry => item_key e.2) <$> rebuilt = (fun e : entry => item_key e.2) <$> p_heap f) as Ekeys.
  { pose proof (f_equal (fmap (fun x : Z * FrontierItem => item_key x.2)) Esame) as E.
    by rewrite <-!list_fmap_compose in E. }
  split; cbn [p_base p_heap p_enqueue_seq p_hints]; try done.
  - apply heapify_heap; [apply entry_le_trans|apply entry_lt_asym|].
    eapply Forall_impl; [exact Hnew|]. by intros e [? _].
  - eapply Forall_good_perm; [symmetry; apply heapify_perm|]. apply Forall_forall. intros e Hin.
    rewrite Forall_forall in Hnew. destruct (Hnew e Hin) as [_ Hp].
    assert ((e.1.2, e.2) ∈ (fun e : entry => (e.1.2, e.2)) <$> p_heap f) as Hold
      by (rewrite <-Esame; by apply (list_elem_of_fmap_2 (fun e : entry => (e.1.2, e.2)))).
    apply list_elem_of_fmap in Hold as (e0 & [= E1 E2] & Hin0).
    rewrite Forall_forall in He. destruct (He e0 Hin0) as (H1 & H2 & _).
    split_and!; cbn [p_base p_hints]; rewrite ?E1, ?E2; try done. by rewrite <-E2.
  - rewrite (heapify_perm entry_lt). by rewrite Ekeys.
Qed.

Lemma priority_step_inv env : preserved (priority_step env) (priority_inv env).
Proof.
  intros f f' Hs Hinv. destruct Hs as [url depth parent now f r f' H|now f r f' H|url now f r f' H
    |url reason now f r f' H|hints f f' H].
  - by eapply priority_enqueue_inv.
  - by eapply pop_inv.
  - unfold on_base in H. destruct (mark_fetched url now (p_base f)) as [r0 b] eqn:E. injection H as _ <-.
    assert (b = (mark_fetched url now (p_base f)).2) as -> by by rewrite E.
    apply priority_inv_base; [done|apply mark_fetched_inv, Hinv|by apply mark_fetched_log..].
  - injection H as _ <-.
    apply (priority_inv_base env f (record_skip (Some url) reason None now (p_base f)).2);
      [done|apply record_skip_inv, Hinv|by apply record_skip_logs..].
  - by eapply add_hints_inv.
Qed.

Lemma init_priority_inv env allowed denied md mp lo f :
  init allowed denied md mp lo = Ok f -> priority_inv env f.
Proof.
  unfold init. intros H. run_m H. pose proof (new_base_inv _ _ _ _ _ _ Hr) as Hb.
  unfold new_base in Hr. run_m Hr. split; by simpl.
Qed.

Lemma priority_reach env allowed denied md mp lo f0 f :
  init allowed denied md mp lo = Ok f0 -> rtc (priority_step env) f0 f -> priority_inv env f.
Proof.
  intros H0 Hr. exact (rtc_preserved _ _ _ _ (priority_step_inv env) Hr (init_priority_inv _ _ _ _ _ _ _ H0)).
Qed.

(** [a] is served before [b]: a higher priority, or the same and admitted no
    later; both computed from the hints known to [f]. *)
Definition served_before (env : NetEnv) (f : PriorityCrawlFrontier) (a b : FrontierItem) : Prop :=
  exists pa pb i j,
    compute_item_priority env (it_canonical_url a) (it_depth a) (p_hints f) = Ok pa /\
    compute_item_priority env (it_canonical_url b) (it_depth b) (p_hints f) = Ok pb /\
    logged "enqueued" (b_events (p_base f)) !! i = Some (item_key a) /\
    logged "enqueued" (b_events (p_base f)) !! j = Some (item_key b) /\
    (PrimFloat.ltb pb pa = true \/ (PrimFloat.eqb pb pa = true /\ (i <= j)%nat)).

Lemma entry_served env f a b :
  entry_ok env f a -> entry_ok env f b -> leq entry_lt good a b -> served_before env f a.2 b.2.
Proof.
  intros (Ha0 & Ha & pa & Hpa & Ea) (Hb0 & Hb & pb & Hpb & Eb) (Hga & Hgb & Hlt).
  exists pa, pb, (Z.to_nat a.1.2), (Z.to_nat b.1.2). split_and!; [done..|].
  rewrite entry_lt_false in Hlt by done.
  pose proof (priority_number _ _ _ _ _ Hpa) as Hna. pose proof (priority_number _ _ _ _ _ Hpb) as Hnb.
  rewrite ltb_key, eqb_key by done. unfold entry_before in Hlt. rewrite Ea, Eb, !opp_key in Hlt by done.
  destruct (fkey pa) as [[? ?] ?], (fkey pb) as [[? ?] ?]. simpl in *. rewrite !pair_equal_spec in *. lia.
Qed.

(** C30: The planner's hints bind: in every state reached by [enqueue], [pop],
    [mark_fetched], [skip] and [add_hints], a [pop] that serves an item serves
    one whose priority under all hints added so far is maximal among the
    queued items, and the earliest admitted of those. *)
Theorem pop_serves_highest_priority env allowed denied md mp lo f0 f now item f' :
  init allowed denied md mp lo = Ok f0 -> rtc (priority_step env) f0 f ->
  pop now f = (Ok (Some item), f') ->
  item ∈ (snd <$> p_heap f) /\ (snd <$> p_heap f) ≡ₚ item :: (snd <$> p_heap f') /\
  forall other, other ∈ (snd <$> p_heap f') -> served_before env f item other.
Proof.
  intros H0 Hr Hp. destruct (priority_reach _ _ _ _ _ _ _ _ H0 Hr) as [_ Hh He _ _].
  unfold pop in Hp. case_match; [done|].
  destruct (heappop entry_lt (p_heap f)) as [[[[np seq] it] heap]|] eqn:Ep; [|done].
  injection Hp as -> <-.
  destruct (heappop_spec entry_lt good entry_le_trans entry_lt_asym _ _ _ Hh Ep) as (HP & _ & Hle).
  simpl p_heap. assert ((snd <$> p_heap f) ≡ₚ item :: (snd <$> heap)) as HP' by (by rewrite HP).
  split_and!; [rewrite HP'; left|done|]. intros other ([e it2] & -> & Hin)%list_elem_of_fmap.
  rewrite HP in He. apply Forall_cons in He as [Hi He]. rewrite Forall_forall in He.
  exact (entry_served env f (np, seq, item) (e, it2) Hi (He _ Hin) (Hle _ Hin)).
Qed.

(** The heap loses nothing: the admitted items are, up to order, the popped
    and the queued ones, no URL is admitted twice, and none below
    [max_depth]. *)
Theorem priority_frontier_lossless env allowed denied md mp lo f0 f :
  init allowed denied md mp lo = Ok f0 -> rtc (priority_step env) f0 f ->
  let events := b_events (p_base f) in
  logged "enqueued" events ≡ₚ logged "dequeued" events ++ (item_key <$> (snd <$> p_heap f)) /\
  NoDup (logged "enqueued" events).*1 /\
  (forall u d, (u, Some d) ∈ logged "enqueued" events -> d <= fr_max_depth (b_config (p_base f))).
Proof.
  intros H0 Hr. destruct (priority_reach _ _ _ _ _ _ _ _ H0 Hr) as [[] _ _ _ Hl].
  cbv zeta. split_and!; [|done..]. by rewrite <-list_fmap_compose.
Qed.

(** ** Witnesses *)

Definition w_start : PriorityCrawlFrontier :=
  {| p_base := f_base w_empty; p_heap := []; p_enqueue_seq := 0; p_hints := [] |}.
Definition w_hint : FrontierPriorityHint :=
  {| ph_match_kind := HOST_GLOB; ph_match_value := "docs.*"; ph_priority_delta := 0.5%float;
     ph_rationale_ref := "why" |}.
Definition w_p1 := (enqueue no_dns "http://example.com/a" 0 None 1 w_start).2.
Definition w_p2 := (enqueue no_dns "http://example.com/b" 1 None 2 w_p1).2.
Definition w_p3 := (enqueue no_dns "http://docs.example.com/" 1 None 3 w_p2).2.
Definition w_p4 := (add_hints no_dns [w_hint; w_hint] w_p3).2.

Lemma w_priority_init : init {["example.com"]} ∅ 2 1 false = Ok w_start.
Proof. reflexivity. Qed.

Lemma w_priority_steps : rtc (priority_step no_dns) w_start w_p4.
Proof.
  apply (rtc_l _ _ w_p1); [eapply ps_enqueue, surjective_pairing|].
  apply (rtc_l _ _ w_p2); [eapply ps_enqueue, surjective_pairing|].
  apply (rtc_l _ _ w_p3); [eapply ps_enqueue, surjective_pairing|].
  apply rtc_once. apply (ps_hints no_dns [w_hint; w_hint]).
  rewrite (surjective_pairing (add_hints _ _ _)). reflexivity.
Qed.

Lemma priority_clamped_witness :
  exists p, compute_item_priority no_dns "http://docs.example.com/" 1 [w_hint; w_hint; w_hint; w_hint] = Ok p /\
    PrimFloat.leb p 2%float = true.
Proof.
  destruct (compute_item_priority no_dns "http://docs.example.com/" 1 [w_hint; w_hint; w_hint; w_hint])
    as [p|e] eqn:E; [|vm_compute in E; discriminate E].
  exists p. split; [reflexivity|]. apply (priority_clamped _ _ _ _ _ E).
Defined.

(** The hinted item overtakes the two admitted before it. *)
Lemma pop_serves_highest_priority_witness :
  exists item f', pop 5 w_p4 = (Ok (Some item), f') /\ it_canonical_url item = "http://docs.example.com/" /\
    forall other, other ∈ (snd <$> p_heap f') -> served_before no_dns w_p4 item other.
Proof.
  destruct (pop 5 w_p4) as [[[item|]|e] f'] eqn:E; try (vm_compute in E; discriminate E).
  exists item, f'. split; [reflexivity|]. split; [vm_compute in E; by injection E as <- _|].
  apply (pop_serves_highest_priority no_dns {["example.com"]} ∅ 2 1 false w_start w_p4 5 item f'
    w_priority_init w_priority_steps E).
Defined.

Lemma priority_frontier_lossless_witness :
  NoDup (logged "enqueued" (b_events (p_base w_p4))).*1 /\
  length (logged "enqueued" (b_events (p_base w_p4))) = 3%nat.
Proof.
  split; [|vm_compute; reflexivity].
  destruct (priority_frontier_lossless no_dns {["example.com"]} ∅ 2 1 false w_start w_p4
    w_priority_init w_priority_steps) as (_ & H & _). exact H.
Defined.

(** A negative depth divides by zero, and the URL stays marked as seen without
    having been queued. *)
Example negative_depth_loses_url :
  let '(r, f) := enqueue no_dns "http://example.com/a" (-1) None 1 w_start in
  r = Raise ZeroDivisionError /\ p_heap f = [] /\ "http://example.com/a" ∈ b_seen (p_base f).
Proof. vm_compute. split_and!; [reflexivity..|]. by apply (bool_decide_unpack _). Qed.
