(* ===== verification/CondCache.v ===== *)
(** * The conditional-fetch cache

    [ports/conditional_cache.py] and [adapters/network/in_memory_conditional_cache.py]:
    the entry and its validation, the port as the class [ConditionalCachePort],
    its no-op implementation, and the bounded LRU implementation over an
    [OrderedDict]. A cache is specified as a lossy map ([LossyCache]): what
    [get] returns is the last entry accepted for the same run and normalised
    URL since that run was cleared. Both implementations satisfy it; the LRU
    one is bounded, keeps the entry just put, and evicts the shortest possible
    prefix of the recency order. *)
From Stdlib Require Import Strings.Byte.
From S2P Require Import Prelude PyDict PyStr UrlLib.
Local Open Scope Z_scope.

(** ** [ports/conditional_cache.py] *)

Record CachedConditional := {
  cc_etag : option string;
  cc_last_modified : option string;
  cc_body_bytes : list byte;
  cc_body_artifact_ref : string;
  cc_content_type : string;
  cc_status_code : Z }.

(** [x is not None and bool(x.strip())] *)
Definition useable (x : option string) : bool :=
  if x is Some s then truthy_str (strip s) else false.

(** [CachedConditional.__post_init__] *)
Definition validate_cached (e : CachedConditional) : res unit :=
  do? guard (useable (cc_etag e) || useable (cc_last_modified e))
        (ValueError "CachedConditional requires at least one non-empty etag / last_modified") in
  do? guard (truthy_str (cc_body_artifact_ref e) && truthy_str (strip (cc_body_artifact_ref e)))
        (ValueError "CachedConditional.body_artifact_ref must be non-empty + non-whitespace") in
  do? guard (truthy_str (cc_content_type e) && truthy_str (strip (cc_content_type e)))
        (ValueError "CachedConditional.content_type must be non-empty + non-whitespace") in
  guard ((200 <=? cc_status_code e) && (cc_status_code e <? 300))
        (ValueError ("CachedConditional.status_code must be 2xx, got " +:+ pretty (cc_status_code e))).

(** A cache key: the run and the normalised URL. *)
Abbreviation cc_key := (string * string)%type.

(** The operations of the port, on an implementation whose state is [C]. *)
Class ConditionalCachePort (C : Type) := {
  cc_get : string -> string -> M C (option CachedConditional);
  cc_put : string -> string -> CachedConditional -> M C unit;
  cc_clear_run : string -> M C unit }.

(** [NoopConditionalCache] *)
#[export] Instance NoopConditionalCache : ConditionalCachePort unit := {|
  cc_get _ _ := ret None;
  cc_put _ _ _ := ret tt;
  cc_clear_run _ := ret tt |}.

(** ** [InMemoryConditionalCache] *)

Definition DEFAULT_MAX_ENTRIES : Z := 4096.
Definition DEFAULT_MAX_ENTRY_BYTES : Z := 1 * 1024 * 1024.
Definition DEFAULT_MAX_TOTAL_BYTES : Z := 64 * 1024 * 1024.

Record CacheConfig := {
  max_entries : Z;
  max_entry_bytes : Z;
  max_total_bytes : Z }.

Record CondCache := {
  ca_entries : dict cc_key CachedConditional;
  ca_total_bytes : Z }.

(** [__init__] *)
Definition new_cond_cache (cfg : CacheConfig) : res CondCache :=
  do? guard (0 <? max_entries cfg) (ValueError "max_entries must be positive") in
  do? guard (0 <? max_entry_bytes cfg) (ValueError "max_entry_bytes must be positive") in
  do? guard (0 <? max_total_bytes cfg) (ValueError "max_total_bytes must be positive") in
  do? guard (max_entry_bytes cfg <=? max_total_bytes cfg)
        (ValueError "max_entry_bytes must be <= max_total_bytes") in
  Ok {| ca_entries := []; ca_total_bytes := 0 |}.

Definition body_len (e : CachedConditional) : Z := Z.of_nat (length (cc_body_bytes e)).

Section Cache.
Context (env : NetEnv) (cfg : CacheConfig).
Implicit Types (c : CondCache) (e : CachedConditional) (d : dict cc_key CachedConditional).

(** [_normalize_url] *)
Definition normalize_url (url : string) : res string :=
  let? parts := urlsplit env url in
  Ok (urlunsplit (lower (sr_scheme parts)) (lower (sr_netloc parts)) (sr_path parts) (sr_query parts)).

Definition get (run_ref url : string) : M CondCache (option CachedConditional) :=
  let* normalized := lift (normalize_url url) in
  let key := (run_ref, normalized) in
  let* entry := gets (fun c => dict_get (ca_entries c) key) in
  do* (if entry is Some _
       then modify (fun c => {| ca_entries := dict_move_to_end (ca_entries c) key;
                                ca_total_bytes := ca_total_bytes c |})
       else ret tt) in
  ret entry.

(** The loop condition of [put]. *)
Definition over_caps d (total : Z) : bool :=
  (max_entries cfg <? Z.of_nat (length d)) || (max_total_bytes cfg <? total).

(** [while ...: popitem(last=False)]; [popitem] of an empty dict raises. *)
Fixpoint evict d (total : Z) : res unit * CondCache :=
  if over_caps d total then
    match d with
    | [] => (Raise (KeyError "dictionary is empty"), {| ca_entries := d; ca_total_bytes := total |})
    | (_, e) :: d => evict d (total - body_len e)
    end
  else (Ok tt, {| ca_entries := d; ca_total_bytes := total |}).

(** [if self._total_bytes < 0: self._total_bytes = 0] *)
Definition snap_to_zero c : CondCache :=
  {| ca_entries := ca_entries c;
     ca_total_bytes := if ca_total_bytes c <? 0 then 0 else ca_total_bytes c |}.

Definition put (run_ref url : string) (entry : CachedConditional) : M CondCache unit :=
  if max_entry_bytes cfg <? body_len entry then ret tt else
  let* normalized := lift (normalize_url url) in
  let key := (run_ref, normalized) in
  do* modify (fun c =>
    let total := if dict_get (ca_entries c) key is Some existing
                 then ca_total_bytes c - body_len existing else ca_total_bytes c in
    {| ca_entries := dict_move_to_end (dict_set (ca_entries c) key entry) key;
       ca_total_bytes := total + body_len entry |}) in
  do* (fun c => evict (ca_entries c) (ca_total_bytes c)) in
  modify snap_to_zero.

(** One turn of the loop of [clear_run]. *)
Definition drop_key c (k : cc_key) : res CondCache :=
  match dict_get (ca_entries c) k with
  | Some e => Ok {| ca_entries := dict_del (ca_entries c) k;
                    ca_total_bytes := ca_total_bytes c - body_len e |}
  | None => Raise (KeyError k.2)
  end.

Fixpoint drop_keys (ks : list cc_key) : M CondCache unit :=
  match ks with
  | [] => ret tt
  | k :: ks => do* (fun c => match drop_key c k with Ok c' => (Ok tt, c') | Raise x => (Raise x, c) end) in
               drop_keys ks
  end.

Definition clear_run (run_ref : string) : M CondCache unit :=
  let* keys_to_drop := gets (fun c => filter (fun k => k.1 = run_ref) (dict_keys (ca_entries c))) in
  do* drop_keys keys_to_drop in
  modify snap_to_zero.

(** [__len__] *)
Definition cache_len c : Z := Z.of_nat (length (ca_entries c)).
End Cache.

#[export] Instance InMemoryConditionalCache (env : NetEnv) (cfg : CacheConfig) : ConditionalCachePort CondCache := {|
  cc_get := get env;
  cc_put := put env cfg;
  cc_clear_run := clear_run |}.

(** ** The specification: a lossy map

    [stores] says under which key a [put] is accepted. The ghost map forgets
    nothing but cleared runs; an implementation may forget any entry. *)

Abbreviation ghost := (gmap cc_key CachedConditional).

Definition ghost_clear (run_ref : string) (m : ghost) : ghost :=
  filter (fun kv => kv.1.1 <> run_ref) m.

Class LossyCache (C : Type) `{ConditionalCachePort C}
    (key_of : string -> string -> option cc_key) (stores : CachedConditional -> bool) := {
  lossy : C -> ghost -> Prop;
  lossy_get run url c m r c' : lossy c m -> cc_get run url c = (r, c') ->
    lossy c' m /\
    (forall e, r = Ok (Some e) -> exists k, key_of run url = Some k /\ m !! k = Some e);
  lossy_put run url e c m r c' : lossy c m -> cc_put run url e c = (r, c') ->
    lossy c' (if key_of run url is Some k then if stores e then <[k := e]> m else m else m);
  lossy_clear run c m r c' : lossy c m -> cc_clear_run run c = (r, c') ->
    r = Ok tt /\ lossy c' (ghost_clear run m) }.

(** ** The representation invariant *)

Definition sum_bytes (d : dict cc_key CachedConditional) : Z := foldr Z.add 0 (body_len <$> dict_values d).

Record cache_ok (cfg : CacheConfig) (c : CondCache) : Prop := {
  ok_wf : dict_wf (ca_entries c);
  ok_total : ca_total_bytes c = sum_bytes (ca_entries c);
  ok_entries : Z.of_nat (length (ca_entries c)) <= max_entries cfg;
  ok_bytes : ca_total_bytes c <= max_total_bytes cfg;
  ok_each : Forall (fun e => body_len e <= max_entry_bytes cfg) (dict_values (ca_entries c)) }.

Definition config_ok (cfg : CacheConfig) : Prop :=
  0 < max_entries cfg /\ 0 < max_entry_bytes cfg /\ max_entry_bytes cfg <= max_total_bytes cfg.

Lemma body_len_nonneg e : 0 <= body_len e.
Proof. unfold body_len. lia. Qed.

Lemma sum_bytes_nonneg d : 0 <= sum_bytes d.
Proof.
  unfold sum_bytes, dict_values.
  induction d as [|[k e] d IH]; csimpl; [done|]. pose proof (body_len_nonneg e). lia.
Qed.

Lemma sum_bytes_cons k e d : sum_bytes ((k, e) :: d) = body_len e + sum_bytes d.
Proof. done. Qed.

Lemma sum_bytes_app d d' : sum_bytes (d ++ d') = sum_bytes d + sum_bytes d'.
Proof.
  induction d as [|[k e] d IH]; [done|]. simpl app. rewrite !sum_bytes_cons, IH. lia.
Qed.

Lemma sum_bytes_perm d d' : d ≡ₚ d' -> sum_bytes d = sum_bytes d'.
Proof.
  induction 1 as [|[k e] d d' _ IH|[k1 e1] [k2 e2] d|]; rewrite ?sum_bytes_cons; lia.
Qed.

Lemma sum_bytes_del d k :
  sum_bytes (dict_del d k) = sum_bytes d - (if dict_get d k is Some e then body_len e else 0).
Proof.
  destruct (dict_get d k) as [e|] eqn:E.
  - rewrite <-(sum_bytes_perm _ _ (dict_del_perm d k e E)), sum_bytes_cons. lia.
  - rewrite dict_del_None by done. lia.
Qed.

(** ** Eviction *)

(** The suffix of [d] the loop stops at, and what it removed. *)
Lemma evict_spec cfg d total :
  total = sum_bytes d ->
  0 <= max_entries cfg -> 0 <= max_total_bytes cfg ->
  exists gone d',
    d = gone ++ d' /\
    evict cfg d total = (Ok tt, {| ca_entries := d'; ca_total_bytes := sum_bytes d' |}) /\
    over_caps cfg d' (sum_bytes d') = false /\
    (forall g1 g2, gone = g1 ++ g2 -> g2 <> [] -> over_caps cfg (g2 ++ d') (sum_bytes (g2 ++ d')) = true).
Proof.
  intros Ht He Hb. revert total Ht. induction d as [|[k e] d IH]; intros total ->; simpl.
  - exists [], []. unfold over_caps, sum_bytes. simpl.
    rewrite !(proj2 (Z.ltb_ge _ _)) by lia. split_and!; try done.
    intros g1 g2 [-> ->]%eq_sym%app_eq_nil. done.
  - destruct (over_caps cfg ((k, e) :: d) (sum_bytes ((k, e) :: d))) eqn:E.
    + destruct (IH (sum_bytes d) eq_refl) as (gone & d' & -> & Hev & Hok & Hmin).
      exists ((k, e) :: gone), d'. rewrite sum_bytes_cons.
      replace (body_len e + sum_bytes (gone ++ d') - body_len e) with (sum_bytes (gone ++ d')) by lia.
      split_and!; try done. intros [|x g1] g2 Hg Hne; simpl in Hg.
      * subst g2. done.
      * injection Hg as _ Hg. by apply (Hmin g1).
    + exists [], ((k, e) :: d). split_and!; try done.
      intros g1 g2 [-> ->]%eq_sym%app_eq_nil. done.
Qed.

Lemma over_caps_false cfg d t :
  over_caps cfg d t = false <-> Z.of_nat (length d) <= max_entries cfg /\ t <= max_total_bytes cfg.
Proof. unfold over_caps. rewrite orb_false_iff, !Z.ltb_ge. done. Qed.

Lemma snap_to_zero_id c : 0 <= ca_total_bytes c -> snap_to_zero c = c.
Proof.
  intros H. unfold snap_to_zero. destruct c as [d t]. cbn [ca_total_bytes ca_entries] in *.
  by rewrite (proj2 (Z.ltb_ge _ _) H).
Qed.

(** ** What each operation does on a well-formed cache *)

Lemma sum_bytes_put d k e :
  (if dict_get d k is Some x then sum_bytes d - body_len x else sum_bytes d) + body_len e =
  sum_bytes (dict_del d k ++ [(k, e)]).
Proof.
  rewrite sum_bytes_app, sum_bytes_del, sum_bytes_cons. change (sum_bytes []) with 0.
  destruct (dict_get d k); lia.
Qed.

Lemma put_spec env cfg c run url n e :
  config_ok cfg -> cache_ok cfg c -> normalize_url env url = Ok n ->
  body_len e <= max_entry_bytes cfg ->
  exists gone kept,
    dict_del (ca_entries c) (run, n) ++ [((run, n), e)] = gone ++ kept ++ [((run, n), e)] /\
    put env cfg run url e c =
      (Ok tt, {| ca_entries := kept ++ [((run, n), e)];
                 ca_total_bytes := sum_bytes (kept ++ [((run, n), e)]) |}) /\
    over_caps cfg (kept ++ [((run, n), e)]) (sum_bytes (kept ++ [((run, n), e)])) = false /\
    (forall g1 g2, gone = g1 ++ g2 -> g2 <> [] ->
       let d := g2 ++ kept ++ [((run, n), e)] in over_caps cfg d (sum_bytes d) = true).
Proof.
  intros (He & Hm & Ht) Hok Hn Hlen. set (k := (run, n)). set (d := dict_del (ca_entries c) k ++ [(k, e)]).
  assert (put env cfg run url e c =
    (do* (fun c => evict cfg (ca_entries c) (ca_total_bytes c)) in modify snap_to_zero)
      {| ca_entries := d; ca_total_bytes := sum_bytes d |}) as Hput.
  { unfold put. rewrite (proj2 (Z.ltb_ge _ _)) by lia. unfold bind at 1, lift. rewrite Hn.
    unfold bind at 1, modify at 1. rewrite (ok_total _ _ Hok), sum_bytes_put, dict_set_move_to_end. done. }
  destruct (evict_spec cfg d (sum_bytes d) eq_refl) as (gone & d' & Hd & Hev & Hcaps & Hmin); [lia..|].
  assert (d' <> []) as Hne.
  { intros ->. rewrite app_nil_r in Hd. specialize (Hmin (dict_del (ca_entries c) k) [(k, e)]).
    rewrite <-Hd in Hmin. specialize (Hmin eq_refl ltac:(done)). rewrite app_nil_r in Hmin.
    apply not_false_iff_true in Hmin. apply Hmin, over_caps_false.
    unfold sum_bytes. simpl. lia. }
  destruct (exists_last Hne) as (kept & x & ->).
  assert (x = (k, e)) as ->.
  { unfold d in Hd. rewrite app_assoc in Hd. by apply app_inj_tail in Hd as [_ ->]. }
  exists gone, kept. split_and!; [done| |done|done].
  rewrite Hput. unfold bind. cbn [ca_entries ca_total_bytes]. rewrite Hev.
  unfold modify. by rewrite snap_to_zero_id by apply sum_bytes_nonneg.
Qed.

Lemma put_oversize env cfg c run url e :
  max_entry_bytes cfg < body_len e -> put env cfg run url e c = (Ok tt, c).
Proof. intros H. unfold put. by rewrite (proj2 (Z.ltb_lt _ _)). Qed.

Lemma put_bad_url env cfg c run url e x :
  body_len e <= max_entry_bytes cfg -> normalize_url env url = Raise x ->
  put env cfg run url e c = (Raise x, c).
Proof.
  intros H Hn. unfold put. rewrite (proj2 (Z.ltb_ge _ _)) by lia. unfold bind, lift. by rewrite Hn.
Qed.

Lemma get_spec env c run url n :
  normalize_url env url = Ok n ->
  get env run url c =
    (Ok (dict_get (ca_entries c) (run, n)),
     {| ca_entries := dict_move_to_end (ca_entries c) (run, n); ca_total_bytes := ca_total_bytes c |}).
Proof.
  intros Hn. unfold get, bind, lift, gets. rewrite Hn. unfold dict_move_to_end.
  destruct (dict_get (ca_entries c) (run, n)) eqn:E; unfold modify, ret; [by rewrite E|]. by destruct c.
Qed.

Lemma get_bad_url env c run url x :
  normalize_url env url = Raise x -> get env run url c = (Raise x, c).
Proof. intros Hn. unfold get, bind, lift. by rewrite Hn. Qed.

(** *** [clear_run] *)

Definition of_run (run : string) (kv : cc_key * CachedConditional) : Prop := kv.1.1 = run.
#[export] Instance of_run_dec run kv : Decision (of_run run kv).
Proof. unfold of_run. apply _. Defined.

(** Deleting, one by one, the keys selected by a predicate. *)
Lemma drop_keys_spec ks : forall c,
  dict_wf (ca_entries c) -> ca_total_bytes c = sum_bytes (ca_entries c) ->
  NoDup ks -> (forall k, k ∈ ks -> k ∈ dict_keys (ca_entries c)) ->
  exists d, drop_keys ks c = (Ok tt, {| ca_entries := d; ca_total_bytes := sum_bytes d |}) /\
    d = filter (fun kv => kv.1 ∉ ks) (ca_entries c).
Proof.
  induction ks as [|k ks IH]; intros c Hwf Ht Hnd Hin.
  - exists (ca_entries c). split.
    + simpl. unfold ret. rewrite <-Ht. by destruct c.
    + symmetry. apply filter_all. intros kv _. apply not_elem_of_nil.
  - apply NoDup_cons in Hnd as [Hk Hnd]. simpl. unfold bind, drop_key.
    assert (is_Some (dict_get (ca_entries c) k)) as [e He] by (apply elem_of_dict_keys, Hin; left).
    rewrite He. set (c' := {| ca_entries := dict_del (ca_entries c) k; ca_total_bytes := _ |}).
    destruct (IH c') as (d & Hd & Hdeq).
    + by apply dict_del_wf.
    + unfold c'. cbn [ca_entries ca_total_bytes]. rewrite sum_bytes_del, He. lia.
    + done.
    + intros k' Hk'. unfold c'. cbn [ca_entries]. apply elem_of_dict_keys.
      rewrite dict_get_del_ne by (intros ->; done). apply elem_of_dict_keys, Hin. by right.
    + exists d. split; [done|]. rewrite Hdeq. unfold c'. cbn [ca_entries]. clear -Hwf.
      induction (ca_entries c) as [|[k' e'] l IHl]; [done|]. cbn [dict_del].
      apply dict_wf_cons in Hwf as [Hk' Hwf]. case_decide as Hkk.
      * subst k'. rewrite (filter_cons_False _ (k, e')) by (simpl; rewrite not_elem_of_cons; naive_solver).
        apply filter_ext_in. intros [k2 e2] H2. simpl.
        rewrite not_elem_of_cons. split; [|tauto]. intros; split; [|done]. intros ->. apply Hk'.
        apply list_elem_of_fmap. by exists (k, e2).
      * destruct (decide (k' ∈ ks)) as [Hx|Hx].
        -- rewrite 2!(filter_cons_False _ (k', e')) by (simpl; rewrite ?not_elem_of_cons; tauto). by apply IHl.
        -- rewrite 2!(filter_cons_True _ (k', e')) by (simpl; rewrite ?not_elem_of_cons; split; [congruence|done] || done).
           f_equal. by apply IHl.
Qed.

Lemma clear_run_spec cfg c run :
  cache_ok cfg c ->
  let d := filter (fun kv => ~ of_run run kv) (ca_entries c) in
  clear_run run c = (Ok tt, {| ca_entries := d; ca_total_bytes := sum_bytes d |}).
Proof.
  intros Hok d. unfold clear_run, bind, gets.
  destruct (drop_keys_spec (filter (fun k => k.1 = run) (dict_keys (ca_entries c))) c)
    as (d' & Hd' & Heq).
  - apply Hok.
  - apply Hok.
  - apply NoDup_filter, Hok.
  - intros k [_ Hk]%list_elem_of_filter. done.
  - rewrite Hd'. unfold modify. rewrite snap_to_zero_id by apply sum_bytes_nonneg.
    assert (d' = d) as ->; [|done]. subst d' d. apply filter_ext_in.
    intros [k e] Hin. unfold of_run. simpl. rewrite list_elem_of_filter.
    assert (k ∈ dict_keys (ca_entries c)) by (apply list_elem_of_fmap; by exists (k, e)). tauto.
Qed.

(** *** Every operation preserves the invariant *)

Lemma dict_values_filter_Forall (P : CachedConditional -> Prop)
  (Q : cc_key * CachedConditional -> Prop) `{forall x, Decision (Q x)} d :
  Forall P (dict_values d) -> Forall P (dict_values (filter Q d)).
Proof.
  unfold dict_values. rewrite !Forall_fmap, !Forall_forall. intros HP x [_ Hx]%list_elem_of_filter. auto.
Qed.

Lemma cache_ok_sub cfg c d :
  cache_ok cfg c -> d `sublist_of` ca_entries c ->
  cache_ok cfg {| ca_entries := d; ca_total_bytes := sum_bytes d |}.
Proof.
  intros [Hwf Ht He Hb Hall] Hsub.
  assert (0 <= sum_bytes (ca_entries c) - sum_bytes d /\ (length d <= length (ca_entries c))%nat) as [Hs Hl].
  { clear -Hsub. induction Hsub as [|[k e] l1 l2 _ IH|[k e] l1 l2 _ IH]; simpl.
    - lia.
    - rewrite !sum_bytes_cons. lia.
    - rewrite sum_bytes_cons. pose proof (body_len_nonneg e). lia. }
  split; cbn [ca_entries ca_total_bytes]; [|done|lia|lia|].
  - unfold dict_wf, dict_keys in *. eapply sublist_NoDup; [done|]. by apply fmap_sublist.
  - unfold dict_values in *. rewrite Forall_fmap, Forall_forall in *. intros x Hx. apply Hall.
    by eapply elem_of_sublist.
Qed.

Lemma get_ok env cfg c run url : cache_ok cfg c -> cache_ok cfg (get env run url c).2.
Proof.
  intros Hok. destruct (normalize_url env url) as [n|x] eqn:Hn.
  - rewrite (get_spec _ _ _ _ _ Hn). cbn [snd].
    pose proof (dict_move_to_end_perm (ca_entries c) (run, n)) as HP.
    destruct Hok as [Hwf Ht He Hb Hall]. split; cbn [ca_entries ca_total_bytes]; [| |by rewrite HP|done|].
    + by eapply dict_wf_perm.
    + by rewrite (sum_bytes_perm _ _ HP).
    + unfold dict_values in *. by rewrite HP.
  - by rewrite (get_bad_url _ _ _ _ _ Hn).
Qed.

Lemma cache_ok_del_app cfg c k e gone kept :
  cache_ok cfg c -> body_len e <= max_entry_bytes cfg ->
  dict_del (ca_entries c) k ++ [(k, e)] = gone ++ kept ->
  over_caps cfg kept (sum_bytes kept) = false ->
  cache_ok cfg {| ca_entries := kept; ca_total_bytes := sum_bytes kept |}.
Proof.
  intros [Hwf Ht He Hb Hall] Hlen Heq [Hc1 Hc2]%over_caps_false.
  assert (dict_wf (dict_del (ca_entries c) k ++ [(k, e)])) as Hwf'.
  { rewrite <-dict_set_move_to_end. eapply dict_wf_perm; [symmetry; apply dict_move_to_end_perm|].
    by apply dict_set_wf. }
  assert (Forall (fun e => body_len e <= max_entry_bytes cfg)
            (dict_values (dict_del (ca_entries c) k ++ [(k, e)]))) as Hall'.
  { unfold dict_values. rewrite fmap_app. apply Forall_app. split; [|by repeat constructor].
    destruct (dict_get (ca_entries c) k) as [x|] eqn:E; [|by rewrite dict_del_None].
    unfold dict_values in Hall. rewrite <-(dict_del_perm _ _ _ E) in Hall.
    by apply Forall_cons in Hall as [_ Hall]. }
  rewrite Heq in Hwf', Hall'. split; cbn [ca_entries ca_total_bytes]; try done.
  - unfold dict_wf, dict_keys in Hwf'. rewrite fmap_app in Hwf'. by apply NoDup_app in Hwf' as (_ & _ & ?).
  - unfold dict_values in *. rewrite fmap_app in Hall'. by apply Forall_app in Hall' as [_ ?].
Qed.

Lemma put_ok env cfg c run url e :
  config_ok cfg -> cache_ok cfg c -> cache_ok cfg (put env cfg run url e c).2.
Proof.
  intros Hcfg Hok. destruct (Z.lt_ge_cases (max_entry_bytes cfg) (body_len e)) as [Hbig|Hlen].
  { by rewrite put_oversize. }
  destruct (normalize_url env url) as [n|x] eqn:Hn; [|by erewrite put_bad_url].
  destruct (put_spec env cfg c run url n e Hcfg Hok Hn Hlen) as (gone & kept & Hd & -> & Hcaps & _).
  by eapply cache_ok_del_app.
Qed.

Lemma clear_run_ok cfg c run : cache_ok cfg c -> cache_ok cfg (clear_run run c).2.
Proof.
  intros Hok. rewrite (clear_run_spec cfg c run Hok). apply (cache_ok_sub cfg c); [done|]. apply sublist_filter.
Qed.

(** ** The implementations are lossy maps *)

Definition in_memory_key (env : NetEnv) (run url : string) : option cc_key :=
  if normalize_url env url is Ok n then Some (run, n) else None.

Definition fits (cfg : CacheConfig) (e : CachedConditional) : bool := body_len e <=? max_entry_bytes cfg.

Definition lossy_rel (cfg : CacheConfig) (c : CondCache) (m : ghost) : Prop :=
  config_ok cfg /\ cache_ok cfg c /\ forall k e, dict_get (ca_entries c) k = Some e -> m !! k = Some e.

Lemma in_memory_get env cfg run url c m r c' :
  lossy_rel cfg c m -> get env run url c = (r, c') ->
  lossy_rel cfg c' m /\
  (forall e, r = Ok (Some e) -> exists k, in_memory_key env run url = Some k /\ m !! k = Some e).
Proof.
  intros (Hcfg & Hok & Hm) Hget. pose proof (get_ok env cfg c run url Hok) as Hok'.
  rewrite Hget in Hok'. cbn [snd] in Hok'. unfold in_memory_key.
  destruct (normalize_url env url) as [n|x] eqn:Hn.
  - rewrite (get_spec _ _ _ _ _ Hn) in Hget. injection Hget as <- <-. split.
    + split_and!; [done|done|]. cbn [ca_entries]. intros k e Hk. apply Hm.
      rewrite <-Hk. symmetry. apply dict_perm_get; [apply Hok|]. symmetry. apply dict_move_to_end_perm.
    + intros e [= He]. eauto.
  - rewrite (get_bad_url _ _ _ _ _ Hn) in Hget. by injection Hget as <- <-.
Qed.

Lemma in_memory_put env cfg run url e c m r c' :
  lossy_rel cfg c m -> put env cfg run url e c = (r, c') ->
  lossy_rel cfg c' (if in_memory_key env run url is Some k then if fits cfg e then <[k := e]> m else m else m).
Proof.
  intros (Hcfg & Hok & Hm) Hput. pose proof (put_ok env cfg c run url e Hcfg Hok) as Hok'.
  rewrite Hput in Hok'. cbn [snd] in Hok'. split_and!; [done|done|]. unfold in_memory_key, fits.
  destruct (Z.leb_spec (body_len e) (max_entry_bytes cfg)) as [Hlen|Hbig].
  - destruct (normalize_url env url) as [n|x] eqn:Hn; [|rewrite (put_bad_url _ _ c _ _ _ x Hlen Hn) in Hput; by simplify_eq].
    destruct (put_spec env cfg c run url n e Hcfg Hok Hn Hlen) as (gone & kept & Hd & Hput' & _).
    rewrite Hput in Hput'. injection Hput' as -> ->. cbn [ca_entries] in *.
    intros k e' Hk. apply dict_get_Some_in in Hk.
    assert ((k, e') ∈ dict_del (ca_entries c) (run, n) ++ [(run, n, e)]) as Hin
      by (rewrite Hd; apply elem_of_app; by right).
    apply elem_of_app in Hin as [Hin|[= -> ->]%list_elem_of_singleton]; [|apply lookup_insert_eq].
    pose proof (dict_get_in _ _ _ (dict_del_wf _ (run, n) (ok_wf _ _ Hok)) Hin) as Hg.
    destruct (decide (k = (run, n))) as [->|Hne].
    + rewrite dict_get_del_eq in Hg by apply Hok. done.
    + rewrite dict_get_del_ne in Hg by done. rewrite lookup_insert_ne by done. by apply Hm.
  - rewrite put_oversize in Hput by done. simplify_eq. by case_match.
Qed.

Lemma in_memory_clear cfg run c m r c' :
  lossy_rel cfg c m -> clear_run run c = (r, c') -> r = Ok tt /\ lossy_rel cfg c' (ghost_clear run m).
Proof.
  intros (Hcfg & Hok & Hm) Hcl. pose proof (clear_run_ok cfg c run Hok) as Hok'.
  rewrite Hcl in Hok'. rewrite (clear_run_spec cfg) in Hcl by done. simplify_eq. split; [done|].
  split_and!; [done|done|]. cbn [ca_entries]. intros k e Hk%dict_get_Some_in.
  apply list_elem_of_filter in Hk as [Hrun Hin]. unfold ghost_clear. apply map_lookup_filter_Some. split.
  - apply Hm. apply dict_get_in; [apply Hok|done].
  - done.
Qed.

#[export] Instance in_memory_lossy env cfg :
  @LossyCache CondCache (InMemoryConditionalCache env cfg) (in_memory_key env) (fits cfg).
Proof.
  refine {| lossy := lossy_rel cfg |}.
  - intros run url c m r c'. apply in_memory_get.
  - intros run url e c m r c'. apply in_memory_put.
  - intros run c m r c'. apply in_memory_clear.
Defined.

#[export] Instance noop_lossy key_of stores : @LossyCache unit NoopConditionalCache key_of stores.
Proof.
  refine {| lossy := fun _ _ => True |}.
  - intros run url c m r c' _ [= <- <-]. done.
  - done.
  - intros run c m r c' _ [= <- <-]. done.
Defined.

(** ** Traces of calls *)

Inductive cache_op :=
  | OpGet (run_ref url : string)
  | OpPut (run_ref url : string) (entry : CachedConditional)
  | OpClear (run_ref : string).

Section Trace.
Context {C : Type} `{HC : ConditionalCachePort C}.

(** The cache after a call, whether it returned or raised. *)
Definition cache_step (c : C) (op : cache_op) : C :=
  match op with
  | OpGet run url => (cc_get run url c).2
  | OpPut run url e => (cc_put run url e c).2
  | OpClear run => (cc_clear_run run c).2
  end.

(** What the calls stored, forgetting nothing but cleared runs. *)
Definition ghost_step (key_of : string -> string -> option cc_key) (stores : CachedConditional -> bool)
    (m : ghost) (op : cache_op) : ghost :=
  match op with
  | OpGet _ _ => m
  | OpPut run url e => if key_of run url is Some k then if stores e then <[k := e]> m else m else m
  | OpClear run => ghost_clear run m
  end.

Context {key_of : string -> string -> option cc_key} {stores : CachedConditional -> bool}.
Context `{!LossyCache C key_of stores}.

Lemma lossy_trace ops : forall c m,
  lossy c m -> lossy (foldl cache_step c ops) (foldl (ghost_step key_of stores) m ops).
Proof.
  induction ops as [|op ops IH]; intros c m Hl; [done|]. simpl. apply IH. destruct op; simpl.
  - destruct (cc_get _ _ c) as [r c'] eqn:E. by apply (lossy_get _ _ _ _ _ _ Hl E).
  - destruct (cc_put _ _ _ c) as [r c'] eqn:E. by apply (lossy_put _ _ _ _ _ _ _ Hl E).
  - destruct (cc_clear_run _ c) as [r c'] eqn:E. by apply (lossy_clear _ _ _ _ _ Hl E).
Qed.

Lemma lossy_hit ops c run url e c' :
  lossy c ∅ -> cc_get run url (foldl cache_step c ops) = (Ok (Some e), c') ->
  exists k, key_of run url = Some k /\ foldl (ghost_step key_of stores) ∅ ops !! k = Some e.
Proof. intros Hl Hget. by apply (lossy_get _ _ _ _ _ _ (lossy_trace ops _ _ Hl) Hget). Qed.
End Trace.

Lemma new_cond_cache_ok cfg c : new_cond_cache cfg = Ok c -> config_ok cfg /\ cache_ok cfg c.
Proof.
  unfold new_cond_cache. intros H. run_m H.
  repeat match goal with H : guard _ _ = Ok _ |- _ => apply guard_ok in H end. unfold config_ok.
  split; [lia|]. split; cbn [ca_entries ca_total_bytes]; [apply dict_empty_wf|done|simpl; lia|lia|constructor].
Qed.

Definition run_cache (env : NetEnv) (cfg : CacheConfig) (c : CondCache) (ops : list cache_op) : CondCache :=
  foldl (cache_step (HC := InMemoryConditionalCache env cfg)) c ops.

Lemma run_cache_ok env cfg ops c :
  config_ok cfg -> cache_ok cfg c ->
  cache_ok cfg (run_cache env cfg c ops).
Proof.
  intros Hcfg. unfold run_cache. revert c.
  induction ops as [|[] ops IH]; intros c Hok; [done|..]; simpl; apply IH.
  - by apply get_ok.
  - by apply put_ok.
  - by apply clear_run_ok.
Qed.

(** After any calls on a new cache, the stored total is the sum of the
    body sizes (so the snap to zero never acts), both caps hold, no body is
    over the per-entry cap and no key occurs twice. *)
Theorem cond_cache_bounded env cfg c ops :
  new_cond_cache cfg = Ok c ->
  let c' := run_cache env cfg c ops in
  ca_total_bytes c' = sum_bytes (ca_entries c') /\ 0 <= ca_total_bytes c' <= max_total_bytes cfg /\
  cache_len c' <= max_entries cfg /\
  (forall k e, dict_get (ca_entries c') k = Some e -> body_len e <= max_entry_bytes cfg) /\
  NoDup (dict_keys (ca_entries c')).
Proof.
  intros Hnew c'. destruct (new_cond_cache_ok _ _ Hnew) as [Hcfg Hok].
  destruct (run_cache_ok env cfg ops c Hcfg Hok : cache_ok cfg c') as [Hwf Ht He Hb Hall].
  split; [done|]. split; [|split_and!; [done| |done]].
  - rewrite Ht at 1. split; [apply sum_bytes_nonneg|done].
  - by apply dict_values_forall.
Qed.

(** What [get] returns is the entry of the last accepted [put] for the
    same run and normalised URL since that run was last cleared: an entry is
    never stale, and never crosses runs. *)
Theorem cached_entry_is_last_stored env cfg c ops run url e c' :
  new_cond_cache cfg = Ok c ->
  get env run url (run_cache env cfg c ops) = (Ok (Some e), c') ->
  exists n, normalize_url env url = Ok n /\
    foldl (ghost_step (in_memory_key env) (fits cfg)) ∅ ops !! (run, n) = Some e.
Proof.
  intros Hnew Hget. destruct (new_cond_cache_ok _ _ Hnew) as [Hcfg Hok].
  destruct (lossy_hit (HC := InMemoryConditionalCache env cfg) ops c run url e c') as (k & Hk & He).
  - split_and!; [done|done|]. unfold new_cond_cache in Hnew. run_m Hnew. done.
  - done.
  - unfold in_memory_key in Hk. destruct (normalize_url env url) as [n|x]; [|done].
    simplify_eq. by exists n.
Qed.

(** A [put] that is not over the entry cap and whose URL parses
    terminates without an exception; it moves the key to the most recent end,
    drops the shortest prefix of least recently used entries that restores
    both caps, and the next [get] of any URL with the same normal form returns
    the entry just stored. *)
Theorem put_evicts_least_recently_used env cfg c0 ops run url n e :
  new_cond_cache cfg = Ok c0 -> normalize_url env url = Ok n -> body_len e <= max_entry_bytes cfg ->
  let c := run_cache env cfg c0 ops in
  exists gone kept c',
    put env cfg run url e c = (Ok tt, c') /\
    dict_del (ca_entries c) (run, n) ++ [((run, n), e)] = gone ++ ca_entries c' /\
    ca_entries c' = kept ++ [((run, n), e)] /\
    (forall g1 g2, gone = g1 ++ g2 -> g2 <> [] ->
       over_caps cfg (g2 ++ ca_entries c') (sum_bytes (g2 ++ ca_entries c')) = true) /\
    (forall url', normalize_url env url' = Ok n -> (get env run url' c').1 = Ok (Some e)).
Proof.
  intros Hnew Hn Hlen c. destruct (new_cond_cache_ok _ _ Hnew) as [Hcfg Hok0].
  assert (cache_ok cfg c) as Hok by (by apply run_cache_ok).
  destruct (put_spec env cfg c run url n e Hcfg Hok Hn Hlen) as (gone & kept & Hd & Hput & _ & Hmin).
  eexists gone, kept, _. split; [exact Hput|]. cbn [ca_entries].
  split_and!; [done|done|done|]. intros url' Hn'. rewrite (get_spec _ _ _ _ _ Hn'). cbn [fst ca_entries].
  f_equal. apply dict_get_in; [|apply elem_of_app; right; left].
  pose proof (put_ok env cfg c run url e Hcfg Hok) as Hok'. rewrite Hput in Hok'. apply Hok'.
Qed.

(** [get] serves from the recency list: a hit becomes the most recent entry. *)
Lemma get_touches env c run url n e :
  normalize_url env url = Ok n -> dict_get (ca_entries c) (run, n) = Some e ->
  get env run url c = (Ok (Some e),
    {| ca_entries := dict_del (ca_entries c) (run, n) ++ [((run, n), e)];
       ca_total_bytes := ca_total_bytes c |}).
Proof. intros Hn He. rewrite (get_spec _ _ _ _ _ Hn). unfold dict_move_to_end. by rewrite He. Qed.

(** ** Concrete runs *)


Definition page (etag body : string) : CachedConditional := {|
  cc_etag := Some etag; cc_last_modified := None; cc_body_bytes := String.list_byte_of_string body;
  cc_body_artifact_ref := "artifact:1"; cc_content_type := "text/html"; cc_status_code := 200 |}.

Definition small : CacheConfig := {| max_entries := 2; max_entry_bytes := 4; max_total_bytes := 6 |}.
Definition empty_cache : CondCache := {| ca_entries := []; ca_total_bytes := 0 |}.

(** Three pages in a cache of two: the page read last survives. *)
Definition visit : list cache_op :=
  [OpPut "run:1" "http://a.test/" (page "e1" "aa"); OpPut "run:1" "http://b.test/" (page "e2" "bb");
   OpGet "run:1" "HTTP://A.test/#top"; OpPut "run:1" "http://c.test/" (page "e3" "cc")].

Lemma cond_cache_bounded_witness :
  new_cond_cache small = Ok empty_cache /\
  dict_keys (ca_entries (run_cache offline small empty_cache visit)) =
    [("run:1", "http://a.test/"); ("run:1", "http://c.test/")] /\
  ca_total_bytes (run_cache offline small empty_cache visit) <= 6.
Proof.
  split; [reflexivity|]. split; [vm_compute; reflexivity|].
  destruct (cond_cache_bounded offline small empty_cache visit eq_refl) as (_ & [_ H] & _). exact H.
Defined.

Lemma cached_entry_is_last_stored_witness :
  exists n, normalize_url offline "http://A.test/" = Ok n /\
    foldl (ghost_step (in_memory_key offline) (fits small)) ∅ visit !! ("run:1", n) = Some (page "e1" "aa").
Proof.
  eapply (cached_entry_is_last_stored offline small empty_cache visit "run:1" "http://A.test/" (page "e1" "aa"));
    [reflexivity|vm_compute; reflexivity].
Defined.

Lemma put_evicts_least_recently_used_witness :
  let c := run_cache offline small empty_cache visit in
  exists c', put offline small "run:1" "http://d.test/" (page "e4" "dddd") c = (Ok tt, c') /\
    dict_keys (put offline small "run:1" "http://d.test/" (page "e4" "dddd") c).2.(ca_entries) =
      [("run:1", "http://c.test/"); ("run:1", "http://d.test/")] /\
    (get offline "run:1" "http://D.test/#x" c').1 = Ok (Some (page "e4" "dddd")).
Proof.
  intros c. destruct (put_evicts_least_recently_used offline small empty_cache visit "run:1" "http://d.test/"
    "http://d.test/" (page "e4" "dddd")) as (gone & kept & c' & Hput & _ & _ & _ & Hget);
    [reflexivity|vm_compute; reflexivity|vm_compute; discriminate|].
  exists c'. split; [exact Hput|]. split; [vm_compute; reflexivity|].
  apply Hget. vm_compute. reflexivity.
Defined.

(** An oversized page does not touch the entry an earlier, smaller version of
    the page left under the same key: the next fetch is still conditional. *)
Example oversize_put_keeps_old_entry :
  let c := run_cache offline small empty_cache
             [OpPut "run:1" "http://a.test/" (page "e1" "aa"); OpPut "run:1" "http://a.test/" (page "e2" "aaaaa")] in
  (get offline "run:1" "http://a.test/" c).1 = Ok (Some (page "e1" "aa")).
Proof. vm_compute. reflexivity. Qed.
