(* ===== verification/CookieJar.v ===== *)
(** * The cookie jar

    [ports/cookie_jar.py] and [adapters/network/in_memory_cookie_jar.py]. The
    parser of a [Set-Cookie] value ([http.cookies.SimpleCookie]) and of an
    [Expires] date ([email.utils]) are the parameters of [CookieEnv]; clock
    readings are arguments. Theorems: a cookie is only sent to the run and the
    origin that set it, unexpired, on a matching path, [Secure] only over
    https; the buckets stay bounded, with one cookie per name and path; what is
    set is sent back; path matching is RFC 6265's; two hosts share an origin
    exactly when scheme, host and effective port agree. *)
From Stdlib Require Import Ascii Floats.
From S2P Require Import Prelude PyDict PyStr PyFloat UrlLib Origin.
Local Open Scope Z_scope.

(** ** [ports/cookie_jar.py] *)

Record CookieRecord := {
  ck_name : string;
  ck_value : string;
  ck_origin : string;
  ck_path : string;
  ck_expires_epoch : option float;
  ck_secure : bool;
  ck_http_only : bool }.

(** [CookieRecord.__post_init__] *)
Definition new_cookie_record (c : CookieRecord) : res CookieRecord :=
  do? guard (truthy_str (ck_origin c)) (ValueError "CookieRecord.origin must be non-empty") in Ok c.

Record CookieJarSnapshot := { sn_cookies : list CookieRecord }.

Definition redact (c : CookieRecord) : CookieRecord := {|
  ck_name := ck_name c; ck_value := "<redacted>"; ck_origin := ck_origin c; ck_path := ck_path c;
  ck_expires_epoch := ck_expires_epoch c; ck_secure := ck_secure c; ck_http_only := ck_http_only c |}.

(** [CookieJarSnapshot.redacted]: each record is constructed anew. *)
Fixpoint redacted_cookies (l : list CookieRecord) : res (list CookieRecord) :=
  match l with
  | [] => Ok []
  | c :: l => let? r := new_cookie_record (redact c) in
              let? rs := redacted_cookies l in Ok (r :: rs)
  end.
Definition redacted (s : CookieJarSnapshot) : res CookieJarSnapshot :=
  let? l := redacted_cookies (sn_cookies s) in Ok {| sn_cookies := l |}.

(** ** URLs, origins and paths *)

Section Paths.
Context (env : NetEnv).

Definition origin_for (url : string) : option string :=
  match urlsplit env url with
  | Raise _ => None
  | Ok parts =>
      if negb (bool_decide (sr_scheme parts ∈ ["http"; "https"])
               && truthy_opt (hostname parts)) then None else
      let host := lower (default "" (hostname parts)) in
      match port parts with
      | Raise _ => None
      | Ok None => Some (show_origin (lower (sr_scheme parts)) host None)
      | Ok (Some n) =>
          if (bool_decide (sr_scheme parts = "http") && (n =? 80))
             || (bool_decide (sr_scheme parts = "https") && (n =? 443))
          then Some (show_origin (lower (sr_scheme parts)) host None)
          else Some (show_origin (lower (sr_scheme parts)) host (Some n))
      end
  end.

Definition path_for (url : string) : res string :=
  let? parts := urlsplit env url in
  Ok (if truthy_str (sr_path parts) then sr_path parts else "/").

(** [path[:path.rfind("/")]], or ["/"] when the last slash is the first character. *)
Definition directory (path : string) : string :=
  if negb (startswith "/" path) then "/" else
  let '(before, _, _) := rpartition "/" path in
  if bool_decide (before = "") then "/" else before.

Definition default_cookie_path (request_url : string) : res string :=
  let? parts := urlsplit env request_url in Ok (directory (sr_path parts)).

Definition normalize_cookie_path (path_attr : option string) (request_url : string) : res string :=
  match path_attr with
  | Some p => if truthy_str p && startswith "/" p then Ok p else default_cookie_path request_url
  | None => default_cookie_path request_url
  end.
End Paths.

(** [_path_matches_cookie_path] *)
Definition path_matches_cookie_path (request_path cookie_path : string) : bool :=
  bool_decide (cookie_path = request_path) ||
  bool_decide (cookie_path = "/") ||
  startswith cookie_path request_path &&
  (endswith "/" cookie_path ||
   Nat.ltb (String.length cookie_path) (String.length request_path) &&
   bool_decide (String.get (String.length cookie_path) request_path = Some "/"%char)).

(** ** Parsed [Set-Cookie] values *)

(** An attribute of a morsel: a flag is [True] when it has no value. *)
Inductive morsel_attr :=
  | AttrTrue
  | AttrStr (s : string).
Definition attr_bool (a : morsel_attr) : bool :=
  match a with AttrTrue => true | AttrStr s => truthy_str s end.

Record Morsel := {
  mo_value : string;
  mo_path : string;
  mo_max_age : string;
  mo_expires : string;
  mo_secure : morsel_attr;
  mo_httponly : morsel_attr }.

(** [simple_cookie v]: the items of [SimpleCookie().load(v)], [None] for its
    [CookieError]. [parse_date s]: [parsedate_to_datetime(s)] and then the
    [timestamp()] of its result. *)
Record CookieEnv := {
  simple_cookie : string -> option (dict string Morsel);
  parse_date : string -> res (res float) }.

(** [x or None] *)
Definition or_none (s : string) : option string := if truthy_str s then Some s else None.

Definition subclass_type_or_value_error (e : exn) : bool :=
  match e with TypeError _ => true | _ => subclass_value_error e end.

Definition resolve_expiry (cenv : CookieEnv) (morsel_max_age morsel_expires : option string)
    (now_epoch : float) : res (option float) :=
  if truthy_opt morsel_max_age then
    match py_int (default "" morsel_max_age) with
    | None => Ok None
    | Some seconds =>
        if seconds <=? 0 then Ok (Some (PrimFloat.sub now_epoch 1%float))
        else let? f := float_of_int seconds in Ok (Some (PrimFloat.add now_epoch f))
    end
  else if truthy_opt morsel_expires then
    match parse_date cenv (default "" morsel_expires) with
    | Raise e => if subclass_type_or_value_error e then Ok None else Raise e
    | Ok timestamp => let? t := timestamp in Ok (Some t)
    end
  else Ok None.

(** ** [InMemoryCookieJar] *)

Definition DEFAULT_MAX_COOKIES_PER_BUCKET : Z := 64.
Definition DEFAULT_MAX_COOKIE_VALUE_BYTES : Z := 8 * 1024.

Record JarConfig := {
  max_cookies_per_bucket : Z;
  max_cookie_value_bytes : Z }.

(** A bucket: the run and the origin. *)
Abbreviation bucket := (string * string)%type.
Definition Jar : Type := dict bucket (list CookieRecord).

(** [__init__] *)
Definition new_jar (cfg : JarConfig) : res Jar :=
  do? guard (0 <? max_cookies_per_bucket cfg) (ValueError "max_cookies_per_bucket must be positive") in
  do? guard (0 <? max_cookie_value_bytes cfg) (ValueError "max_cookie_value_bytes must be positive") in
  Ok [].

(** [cookie.expires_epoch is not None and cookie.expires_epoch <= now] *)
Definition expired (now : float) (c : CookieRecord) : bool :=
  if ck_expires_epoch c is Some e then PrimFloat.leb e now else false.

(** One turn of the loop of [cookies_for]. *)
Definition scan (now : float) (request_path : string) (request_secure : bool)
    (acc : list CookieRecord * dict string string) (c : CookieRecord) :
    list CookieRecord * dict string string :=
  let '(kept, out) := acc in
  if expired now c then (kept, out) else
  let kept := kept ++ [c] in
  if ck_secure c && negb request_secure then (kept, out) else
  if negb (path_matches_cookie_path request_path (ck_path c)) then (kept, out) else
  (kept, dict_set out (ck_name c) (ck_value c)).

Definition cookies_for (env : NetEnv) (run_ref url : string) (now : float) : M Jar (dict string string) :=
  match origin_for env url with
  | None => ret []
  | Some origin =>
      let* request_path := lift (path_for env url) in
      let request_secure := startswith "https://" origin in
      let* cookies := gets (fun jar => dict_get_or jar (run_ref, origin) []) in
      let '(kept, out) := foldl (scan now request_path request_secure) ([], []) cookies in
      do* (if bool_decide (length kept <> length cookies)
           then modify (fun jar => dict_set jar (run_ref, origin) kept) else ret tt) in
      ret out
  end.

(** The body of the loop over [morsels.items()]: [None] is [continue]. *)
Definition cookie_of_morsel (env : NetEnv) (cenv : CookieEnv) (cfg : JarConfig) (url origin : string)
    (now : float) (name : string) (morsel : Morsel) : res (option CookieRecord) :=
  let value := mo_value morsel in
  let? path := normalize_cookie_path env (or_none (mo_path morsel)) url in
  let secure := attr_bool (mo_secure morsel) in
  if secure && negb (startswith "https://" origin) then Ok None else
  if max_cookie_value_bytes cfg <? Z.of_nat (String.length value) then Ok None else
  let http_only := attr_bool (mo_httponly morsel) in
  let? expires := resolve_expiry cenv (or_none (mo_max_age morsel)) (or_none (mo_expires morsel)) now in
  let? c := new_cookie_record {|
    ck_name := name; ck_value := value; ck_origin := origin; ck_path := path;
    ck_expires_epoch := expires; ck_secure := secure; ck_http_only := http_only |} in
  Ok (Some c).

Fixpoint collect_cookies (env : NetEnv) (cenv : CookieEnv) (cfg : JarConfig) (url origin : string)
    (now : float) (items : dict string Morsel) : res (list CookieRecord) :=
  match items with
  | [] => Ok []
  | (name, morsel) :: items =>
      let? c := cookie_of_morsel env cenv cfg url origin now name morsel in
      let? cs := collect_cookies env cenv cfg url origin now items in
      Ok (if c is Some c then c :: cs else cs)
  end.

Definition cookie_key (c : CookieRecord) : string * string := (ck_name c, ck_path c).

(** The new content of a bucket: replacement, expiry and the cap. *)
Definition merge_cookies (cfg : JarConfig) (now : float) (existing new_cookies : list CookieRecord) :
    list CookieRecord :=
  let new_keys := cookie_key <$> new_cookies in
  let replaced :=
    filter (fun c => cookie_key c ∉ new_keys /\ expired now c = false) existing ++
    filter (fun c => expired now c = false) new_cookies in
  if max_cookies_per_bucket cfg <? Z.of_nat (length replaced)
  then drop (length replaced - Z.to_nat (max_cookies_per_bucket cfg)) replaced else replaced.

Definition accept_set_cookie (env : NetEnv) (cenv : CookieEnv) (cfg : JarConfig)
    (run_ref url set_cookie_value : string) (now : float) : M Jar unit :=
  match origin_for env url with
  | None => ret tt
  | Some origin =>
      match simple_cookie cenv set_cookie_value with
      | None => ret tt
      | Some morsels =>
          let* new_cookies := lift (collect_cookies env cenv cfg url origin now morsels) in
          if negb (truthy_list new_cookies) then ret tt else
          modify (fun jar => dict_set jar (run_ref, origin)
            (merge_cookies cfg now (dict_get_or jar (run_ref, origin) []) new_cookies))
      end
  end.

(** The cookies of a run in insertion order, redacted unless asked otherwise. *)
Definition cookies_in_jar (run_ref : string) (include_values : bool) (jar : Jar) : res CookieJarSnapshot :=
  let cookies := foldl (fun acc '(b, records) => if bool_decide (b.1 = run_ref) then acc ++ records else acc)
                       [] jar in
  let snapshot := {| sn_cookies := cookies |} in
  if include_values then Ok snapshot else redacted snapshot.

Definition clear_run (run_ref : string) (jar : Jar) : Jar :=
  let keys_to_drop := filter (fun k => k.1 = run_ref) (dict_keys jar) in
  foldl dict_del jar keys_to_drop.

(** ** Paths *)

(** Path-match, RFC 6265 section 5.1.4. *)
Definition rfc6265_path_match (request_path cookie_path : string) : Prop :=
  cookie_path = request_path \/
  exists rest, request_path = cookie_path +:+ rest /\
    ((exists d, cookie_path = d +:+ "/") \/ exists r, rest = String "/" r).

(** The last disjunct of the code: the character after the prefix is a slash. *)
Lemma next_char_slash cp rest :
  Nat.ltb (String.length cp) (String.length (cp +:+ rest)) &&
    bool_decide (String.get (String.length cp) (cp +:+ rest) = Some "/"%char) = true <->
  exists r, rest = String "/" r.
Proof.
  pose proof (String.append_correct2 cp rest 0) as Hg. simpl in Hg. rewrite <-Hg.
  rewrite str_length_app. destruct rest as [|c r]; cbn [String.length String.get].
  - rewrite (bool_decide_false (None = _)) by done. rewrite andb_false_r. naive_solver.
  - rewrite (proj2 (Nat.ltb_lt _ _)) by lia. rewrite andb_true_l, bool_decide_eq_true. naive_solver.
Qed.

Lemma path_matches_spec rp cp :
  path_matches_cookie_path rp cp = true <->
  cp = "/" \/ rfc6265_path_match rp cp.
Proof.
  unfold path_matches_cookie_path, rfc6265_path_match.
  rewrite !orb_true_iff, andb_true_iff, orb_true_iff, !bool_decide_eq_true, startswith_spec.
  split.
  - intros [[->| ->]|[[rest ->] [[d Hd]%endswith_spec|Hn]]]; [auto|auto|..]; right; right; exists rest.
    + eauto.
    + split; [done|right]. by apply (next_char_slash cp).
  - intros [->|[->|(rest & -> & Hor)]]; [auto|auto|]. right. split; [eauto|].
    destruct Hor as [[d ->]|Hr]; [left; apply endswith_spec; eauto|right]. by apply next_char_slash.
Qed.

Lemma directory_matches path rp :
  rp = (if truthy_str path then path else "/") -> path_matches_cookie_path rp (directory path) = true.
Proof.
  intros ->. apply path_matches_spec. unfold directory.
  destruct (startswith "/" path) eqn:Hs; simpl; [|by left].
  destruct (rpartition_cases "/" path) as [[Hno _]|(a & b & Hab & Hb & ->)].
  { apply startswith_spec in Hs as [r ->]. done. }
  case_bool_decide as Ha; [by left|right]. unfold rfc6265_path_match. right.
  exists (String "/" b). rewrite (proj2 (truthy_str_spec path)).
  - split; [done|]. right. by exists b.
  - rewrite Hab. by destruct a.
Qed.

Lemma default_path_matches env url rp cp :
  path_for env url = Ok rp -> default_cookie_path env url = Ok cp ->
  path_matches_cookie_path rp cp = true.
Proof.
  unfold path_for, default_cookie_path. destruct (urlsplit env url) as [parts|e]; simpl; [|done].
  intros [= <-] [= <-]. by apply directory_matches.
Qed.

(** ** Origins *)

Lemma origin_for_spec env url o :
  origin_for env url = Some o <->
  exists scheme host p parts, url_origin env url scheme host p parts /\
    o = show_origin scheme (lower host) (kept_port scheme p).
Proof.
  unfold origin_for. split.
  - destruct (urlsplit env url) as [parts|] eqn:Es; [|done].
    case_bool_decide as Hsch; simpl; [|done]. destruct (hostname parts) as [host|] eqn:Eh; simpl; [|done].
    destruct (truthy_str host) eqn:Et; simpl; [|done]. apply truthy_str_spec in Et.
    destruct (port parts) as [p|] eqn:Ep; [|done]. intros Ho.
    exists (sr_scheme parts), host, p, parts. split; [constructor; auto; set_solver|].
    assert (sr_scheme parts = "http" \/ sr_scheme parts = "https") as Hs by set_solver.
    assert (lower (sr_scheme parts) = sr_scheme parts) as Hl by (by destruct Hs as [-> | ->]).
    rewrite Hl in Ho. destruct p as [n|]; [|by injection Ho]. unfold kept_port, effective_port.
    destruct Hs as [Hs|Hs]; rewrite Hs in *; simpl in *; case_decide; subst; simpl in *; try congruence;
      destruct (Z.eqb_spec n 80), (Z.eqb_spec n 443); simpl in *; congruence.
  - intros (scheme & host & p & parts & [-> <- Hs -> Hne ->] & ->).
    rewrite bool_decide_true by (destruct Hs as [-> | ->]; set_solver). simpl.
    rewrite (proj2 (truthy_str_spec host)) by done. simpl.
    assert (lower (sr_scheme parts) = sr_scheme parts) as -> by (by destruct Hs as [-> | ->]).
    destruct p as [n|]; [|done]. unfold kept_port, effective_port.
    destruct Hs as [-> | ->]; simpl; case_decide; subst; simpl; try done;
      destruct (Z.eqb_spec n 80), (Z.eqb_spec n 443); simpl; try done; congruence.
Qed.

Lemma origin_nonempty env url o : origin_for env url = Some o -> o <> "".
Proof.
  intros (s & h & p & parts & Hu & ->)%origin_for_spec. unfold show_origin.
  destruct (uo_supported _ _ _ _ _ _ Hu) as [-> | ->]; by destruct (kept_port _ p).
Qed.

(** ** What the loops compute *)

Definition sendable (now : float) (request_path : string) (request_secure : bool) (c : CookieRecord) : Prop :=
  expired now c = false /\ (ck_secure c = true -> request_secure = true) /\
  path_matches_cookie_path request_path (ck_path c) = true.
#[export] Instance sendable_dec now rp sec c : Decision (sendable now rp sec c).
Proof. unfold sendable. apply _. Defined.

(** The [Cookie] header's dict: later cookies win. *)
Definition send_all (out : dict string string) (l : list CookieRecord) : dict string string :=
  foldl (fun out c => dict_set out (ck_name c) (ck_value c)) out l.

Lemma scan_spec now rp sec cookies : forall kept out,
  foldl (scan now rp sec) (kept, out) cookies =
    (kept ++ filter (fun c => expired now c = false) cookies,
     send_all out (filter (sendable now rp sec) cookies)).
Proof.
  induction cookies as [|c cookies IH]; intros kept out; [by rewrite app_nil_r|].
  cbn [foldl]. unfold scan at 2. destruct (expired now c) eqn:He.
  - rewrite IH, filter_cons_False, filter_cons_False; [done|unfold sendable; naive_solver congruence|congruence].
  - rewrite (filter_cons_True (fun c => expired now c = false)) by done.
    destruct (ck_secure c && negb sec) eqn:Hs; [|destruct (path_matches_cookie_path rp (ck_path c)) eqn:Hp];
      cbn [negb]; rewrite IH, <-app_assoc.
    + rewrite (filter_cons_False (sendable now rp sec)); [done|]. intros (_ & H & _).
      apply andb_true_iff in Hs as [H1 H2%negb_true_iff]. rewrite H in H2 by done. done.
    + rewrite (filter_cons_True (sendable now rp sec)); [done|]. unfold sendable. split_and!; try done.
      intros H. rewrite H in Hs. by destruct sec.
    + rewrite (filter_cons_False (sendable now rp sec)); [done|]. unfold sendable. naive_solver congruence.
Qed.

Lemma send_all_in l : forall out name v,
  dict_get (send_all out l) name = Some v ->
  dict_get out name = Some v \/ exists c, c ∈ l /\ ck_name c = name /\ ck_value c = v.
Proof.
  induction l as [|c l IH]; intros out name v H; [by left|]. simpl in H.
  apply IH in H as [H|(c' & Hin & ? & ?)].
  - dict_simpl; [right; exists c; split; [left|done]|by left].
  - right. exists c'. split; [by right|done].
Qed.

Lemma send_all_last out l c : dict_get (send_all out (l ++ [c])) (ck_name c) = Some (ck_value c).
Proof. unfold send_all. rewrite foldl_app. simpl. apply dict_get_set_eq. Qed.

(** The bucket of a request. *)
Definition cookies_of (jar : Jar) (b : bucket) : list CookieRecord := dict_get_or jar b [].

Lemma cookies_for_spec env run url now jar o :
  origin_for env url = Some o ->
  exists rp jar',
    path_for env url = Ok rp /\
    cookies_for env run url now jar =
      (Ok (send_all [] (filter (sendable now rp (startswith "https://" o)) (cookies_of jar (run, o)))), jar') /\
    (jar' = jar \/
     jar' = dict_set jar (run, o) (filter (fun c => expired now c = false) (cookies_of jar (run, o)))).
Proof.
  intros Ho. unfold cookies_for. rewrite Ho.
  assert (exists rp, path_for env url = Ok rp) as [rp Hrp].
  { apply origin_for_spec in Ho as (? & ? & ? & parts & Hu & _). unfold path_for.
    rewrite (uo_split _ _ _ _ _ _ Hu). simpl. eauto. }
  exists rp. unfold bind, lift, gets. rewrite Hrp. fold (cookies_of jar (run, o)).
  rewrite scan_spec. simpl app. case_bool_decide; unfold modify, ret; eexists; eauto.
Qed.

(** ** The representation invariant *)

Record bucket_ok (cfg : JarConfig) (o : string) (l : list CookieRecord) : Prop := {
  bo_cap : Z.of_nat (length l) <= max_cookies_per_bucket cfg;
  bo_keys : NoDup (cookie_key <$> l);
  bo_each : Forall (fun c => ck_origin c = o /\
              Z.of_nat (String.length (ck_value c)) <= max_cookie_value_bytes cfg /\
              (ck_secure c = true -> startswith "https://" o = true)) l }.

Definition jar_ok (cfg : JarConfig) (jar : Jar) : Prop :=
  dict_wf jar /\ forall run o, bucket_ok cfg o (cookies_of jar (run, o)).

(** The items of a [SimpleCookie] have distinct names: it is a dict. *)
Definition names_unique (cenv : CookieEnv) : Prop :=
  forall v ms, simple_cookie cenv v = Some ms -> dict_wf ms.

Lemma bucket_ok_sublist cfg o l l' : l' `sublist_of` l -> bucket_ok cfg o l -> bucket_ok cfg o l'.
Proof.
  intros Hs [Hc Hk He]. split.
  - apply sublist_length in Hs. lia.
  - eapply sublist_NoDup; [exact Hk|]. by apply fmap_sublist.
  - rewrite Forall_forall in *. intros c Hin. apply He. by eapply elem_of_sublist.
Qed.

Lemma cookie_of_morsel_spec env cenv cfg url o now name m c :
  cookie_of_morsel env cenv cfg url o now name m = Ok (Some c) ->
  ck_name c = name /\ ck_value c = mo_value m /\ ck_origin c = o /\
  normalize_cookie_path env (or_none (mo_path m)) url = Ok (ck_path c) /\
  ck_secure c = attr_bool (mo_secure m) /\
  (ck_secure c = true -> startswith "https://" o = true) /\
  Z.of_nat (String.length (ck_value c)) <= max_cookie_value_bytes cfg /\
  resolve_expiry cenv (or_none (mo_max_age m)) (or_none (mo_expires m)) now = Ok (ck_expires_epoch c).
Proof.
  unfold cookie_of_morsel. intros H. run_m H.
  destruct (attr_bool (mo_secure m) && negb (startswith "https://" o)) eqn:Hs; [done|].
  destruct (Z.ltb_spec (max_cookie_value_bytes cfg) (Z.of_nat (String.length (mo_value m)))); [done|].
  run_m H. match goal with H : new_cookie_record _ = Ok _ |- _ => unfold new_cookie_record in H; run_m H end.
  simpl. split_and!; try done. intros Hsec. rewrite Hsec in Hs. by destruct (startswith _ _).
Qed.

Lemma collect_in env cenv cfg url o now items : forall cs,
  collect_cookies env cenv cfg url o now items = Ok cs ->
  (ck_name <$> cs) `sublist_of` dict_keys items /\
  (forall c, c ∈ cs -> exists m, (ck_name c, m) ∈ items /\
     cookie_of_morsel env cenv cfg url o now (ck_name c) m = Ok (Some c)).
Proof.
  induction items as [|[name m] items IH]; intros cs H; simpl in H.
  - injection H as <-. split; [constructor|]. by intros c ?%elem_of_nil.
  - run_m H. destruct (IH _ Hr0) as (Hsub & Hin). split.
    + destruct a as [c|]; unfold dict_keys in *; csimpl.
      * apply cookie_of_morsel_spec in Hr as (-> & _). by constructor.
      * by constructor.
    + intros c Hc. destruct a as [c'|].
      * apply elem_of_cons in Hc as [->|Hc].
        -- pose proof (cookie_of_morsel_spec _ _ _ _ _ _ _ _ _ Hr) as (Hn & _).
           rewrite Hn. exists m. split; [left|done].
        -- destruct (Hin c Hc) as (m' & ? & ?). exists m'. split; [by right|done].
      * destruct (Hin c Hc) as (m' & ? & ?). exists m'. split; [by right|done].
Qed.

(** What replacement leaves before the cap: the live cookies, old ones first. *)
Definition replaced (now : float) (existing news : list CookieRecord) : list CookieRecord :=
  filter (fun c => cookie_key c ∉ cookie_key <$> news /\ expired now c = false) existing ++
  filter (fun c => expired now c = false) news.

Lemma merge_spec cfg now existing news :
  0 < max_cookies_per_bucket cfg ->
  let r := replaced now existing news in
  merge_cookies cfg now existing news = drop (length r - Z.to_nat (max_cookies_per_bucket cfg)) r /\
  Z.of_nat (length (merge_cookies cfg now existing news)) <= max_cookies_per_bucket cfg.
Proof.
  intros Hcap r. unfold merge_cookies. fold (replaced now existing news). fold r.
  destruct (Z.ltb_spec (max_cookies_per_bucket cfg) (Z.of_nat (length r))).
  - split; [done|]. rewrite length_drop. lia.
  - replace (length r - _)%nat with 0%nat by lia. done.
Qed.

Lemma merge_in cfg now existing news c :
  0 < max_cookies_per_bucket cfg ->
  c ∈ merge_cookies cfg now existing news -> c ∈ existing \/ c ∈ news.
Proof.
  intros Hcap Hc. destruct (merge_spec cfg now existing news Hcap) as [Heq _]. rewrite Heq in Hc.
  assert (c ∈ replaced now existing news) as Hin by (eapply elem_of_sublist; [exact Hc|apply sublist_drop]).
  unfold replaced in Hin. apply elem_of_app in Hin as [[_ ?]%list_elem_of_filter|[_ ?]%list_elem_of_filter]; auto.
Qed.

Lemma merge_ok cfg now o existing news :
  0 < max_cookies_per_bucket cfg ->
  bucket_ok cfg o existing ->
  NoDup (cookie_key <$> news) ->
  (forall c, c ∈ news -> ck_origin c = o /\
     Z.of_nat (String.length (ck_value c)) <= max_cookie_value_bytes cfg /\
     (ck_secure c = true -> startswith "https://" o = true)) ->
  bucket_ok cfg o (merge_cookies cfg now existing news).
Proof.
  intros Hcap [Hlen Hk He] Hnk Hne. destruct (merge_spec cfg now existing news Hcap) as [Heq Hl].
  split; [done| |].
  - rewrite Heq. eapply sublist_NoDup; [|apply fmap_sublist, sublist_drop].
    unfold replaced. rewrite fmap_app. apply NoDup_app. split_and!.
    + eapply sublist_NoDup; [exact Hk|]. apply fmap_sublist, sublist_filter.
    + intros k (c & -> & [[Hno _] _]%list_elem_of_filter)%list_elem_of_fmap (c' & Heq' & [_ Hin]%list_elem_of_filter)%list_elem_of_fmap.
      apply Hno, list_elem_of_fmap. by exists c'.
    + eapply sublist_NoDup; [exact Hnk|]. apply fmap_sublist, sublist_filter.
  - apply Forall_forall. intros c Hc. apply merge_in in Hc as [Hc|Hc]; [|by apply Hne|done].
    rewrite Forall_forall in He. by apply He.
Qed.

Lemma collect_facts env cenv cfg url o now ms cs :
  dict_wf ms -> collect_cookies env cenv cfg url o now ms = Ok cs ->
  NoDup (cookie_key <$> cs) /\
  forall c, c ∈ cs -> ck_origin c = o /\
     Z.of_nat (String.length (ck_value c)) <= max_cookie_value_bytes cfg /\
     (ck_secure c = true -> startswith "https://" o = true).
Proof.
  intros Hwf Hc. destruct (collect_in _ _ _ _ _ _ _ _ Hc) as [Hsub Hin]. split.
  - apply (NoDup_fmap_1 fst). rewrite <-list_fmap_compose. eapply sublist_NoDup; [exact Hwf|exact Hsub].
  - intros c Hcin. destruct (Hin c Hcin) as (m & _ & Hm).
    by apply cookie_of_morsel_spec in Hm as (_ & _ & ? & _ & _ & ? & ? & _).
Qed.

(** *** Operations on buckets *)

Lemma cookies_of_set (jar : Jar) (b : bucket) l b' :
  cookies_of (dict_set jar b l) b' = if decide (b' = b) then l else cookies_of jar b'.
Proof. unfold cookies_of, dict_get_or. rewrite dict_get_set. by case_decide. Qed.

Lemma accept_spec env cenv cfg run url v now jar :
  (exists r, accept_set_cookie env cenv cfg run url v now jar = (r, jar)) \/
  (exists o ms cs,
     origin_for env url = Some o /\ simple_cookie cenv v = Some ms /\
     collect_cookies env cenv cfg url o now ms = Ok cs /\
     accept_set_cookie env cenv cfg run url v now jar =
       (Ok tt, dict_set jar (run, o) (merge_cookies cfg now (cookies_of jar (run, o)) cs))).
Proof.
  unfold accept_set_cookie. destruct (origin_for env url) as [o|] eqn:Ho; [|left; by eexists].
  destruct (simple_cookie cenv v) as [ms|] eqn:Hv; [|left; by eexists].
  unfold bind, lift. destruct (collect_cookies _ _ _ _ _ _ ms) as [cs|e] eqn:Hc; [|left; by eexists].
  destruct (truthy_list cs) eqn:Ht; [|left; by eexists]. right. by exists o, ms, cs.
Qed.

Lemma foldl_dict_del_get (ks : list bucket) : forall (jar : Jar) (b : bucket),
  dict_wf jar -> dict_wf (foldl dict_del jar ks) /\
  dict_get (foldl dict_del jar ks) b = if decide (b ∈ ks) then None else dict_get jar b.
Proof.
  induction ks as [|k ks IH]; intros jar b Hwf; [done|]. simpl.
  destruct (IH (dict_del jar k) b (dict_del_wf _ _ Hwf)) as [Hw ->]. split; [done|].
  destruct (decide (b ∈ ks)) as [Hin|Hin].
  - by rewrite decide_True by (by right).
  - destruct (decide (b = k)) as [->|Hne].
    + rewrite decide_True by left. by apply dict_get_del_eq.
    + rewrite decide_False by (rewrite elem_of_cons; tauto). by apply dict_get_del_ne.
Qed.

Lemma jar_clear_run_spec run jar : dict_wf jar ->
  dict_wf (clear_run run jar) /\
  forall b, cookies_of (clear_run run jar) b = if decide (b.1 = run) then [] else cookies_of jar b.
Proof.
  intros Hwf. unfold clear_run. split; [by apply (foldl_dict_del_get _ jar ("", ""))|].
  intros b. unfold cookies_of, dict_get_or.
  rewrite (proj2 (foldl_dict_del_get _ jar b Hwf)).
  destruct (decide (b ∈ _)) as [[Hr _]%list_elem_of_filter|Hn]; [by rewrite decide_True|].
  case_decide as Hr; [|done]. destruct (dict_get jar b) eqn:E; [|done].
  exfalso. apply Hn, list_elem_of_filter. split; [done|]. apply elem_of_dict_keys. by eexists.
Qed.

Lemma cookies_for_sub env run url now jar :
  dict_wf jar ->
  dict_wf (cookies_for env run url now jar).2 /\
  forall b, cookies_of (cookies_for env run url now jar).2 b `sublist_of` cookies_of jar b.
Proof.
  intros Hwf. destruct (origin_for env url) as [o|] eqn:Ho.
  - destruct (cookies_for_spec env run url now jar o Ho) as (rp & jar' & _ & -> & [->| ->]);
      [by split|]. cbn [snd]. split; [by apply dict_set_wf|]. intros b. rewrite cookies_of_set.
    case_decide; subst; [apply sublist_filter|done].
  - unfold cookies_for. rewrite Ho. by split.
Qed.

(** ** Traces of calls *)

Inductive jar_op :=
  | JarAccept (run_ref url header : string) (now : float)
  | JarSend (run_ref url : string) (now : float)
  | JarClear (run_ref : string).

Section Trace.
Context (env : NetEnv) (cenv : CookieEnv) (cfg : JarConfig).

Definition jar_step (jar : Jar) (op : jar_op) : Jar :=
  match op with
  | JarAccept run url header now => (accept_set_cookie env cenv cfg run url header now jar).2
  | JarSend run url now => (cookies_for env run url now jar).2
  | JarClear run => clear_run run jar
  end.

Definition run_jar (ops : list jar_op) : Jar := foldl jar_step [] ops.

(** The calls after the last [clear_run] of [run]. *)
Definition since_clear (run : string) (ops : list jar_op) : list jar_op :=
  foldl (fun acc op => if op is JarClear r then if decide (r = run) then [] else acc ++ [op] else acc ++ [op])
        [] ops.

(** [c] is what [accept_set_cookie] made of one morsel of one header that [run]
    received from origin [o]. *)
Definition set_by (ops : list jar_op) (run o : string) (c : CookieRecord) : Prop :=
  exists url header now ms m,
    JarAccept run url header now ∈ ops /\ origin_for env url = Some o /\
    simple_cookie cenv header = Some ms /\ (ck_name c, m) ∈ ms /\
    cookie_of_morsel env cenv cfg url o now (ck_name c) m = Ok (Some c).

Lemma set_by_mono ops ops' run o c : ops ⊆ ops' -> set_by ops run o c -> set_by ops' run o c.
Proof. intros Hs (url & h & now & ms & m & Hin & H). exists url, h, now, ms, m. split; [by apply Hs|done]. Qed.

Lemma since_clear_snoc run ops op :
  since_clear run (ops ++ [op]) =
    if op is JarClear r then if decide (r = run) then [] else since_clear run ops ++ [op]
    else since_clear run ops ++ [op].
Proof. unfold since_clear. by rewrite foldl_app. Qed.

Definition provenance (ops : list jar_op) (jar : Jar) : Prop :=
  forall run o c, c ∈ cookies_of jar (run, o) -> set_by (since_clear run ops) run o c.

Context (Hcap : 0 < max_cookies_per_bucket cfg).

Lemma run_jar_provenance ops : dict_wf (run_jar ops) /\ provenance ops (run_jar ops).
Proof.
  induction ops as [|op ops [Hwf HP]] using rev_ind.
  { split; [apply dict_empty_wf|]. intros run o c ?%elem_of_nil. done. }
  unfold run_jar in *. rewrite foldl_app. cbn [foldl]. set (jar := foldl jar_step [] ops) in *.
  destruct op as [run url header now|run url now|run]; cbn [jar_step].
  - destruct (accept_spec env cenv cfg run url header now jar) as [[r ->]|(o & ms & cs & Ho & Hms & Hcs & ->)];
      cbn [snd]; (split; [auto with py|]); intros run' o' c Hc; rewrite since_clear_snoc.
    + eapply set_by_mono; [|by apply HP]. set_solver.
    + rewrite cookies_of_set in Hc. case_decide as Hb; [|eapply set_by_mono; [|by apply HP]; set_solver].
      injection Hb as -> ->. apply merge_in in Hc as [Hc|Hc]; [| |done].
      * eapply set_by_mono; [|by apply HP]. set_solver.
      * destruct (collect_in _ _ _ _ _ _ _ _ Hcs) as [_ Hin]. destruct (Hin c Hc) as (m & Hm & Hmo).
        exists url, header, now, ms, m. split_and!; try done. set_solver.
  - destruct (cookies_for_sub env run url now jar Hwf) as [Hwf' Hsub]. split; [done|].
    intros run' o' c Hc. rewrite since_clear_snoc. eapply set_by_mono; [|apply HP]; [set_solver|].
    by eapply elem_of_sublist.
  - destruct (jar_clear_run_spec run jar Hwf) as [Hwf' Hcl]. split; [done|].
    intros run' o' c Hc. rewrite Hcl in Hc. cbn [fst] in Hc. rewrite since_clear_snoc.
    case_decide as Hr; [by apply elem_of_nil in Hc|]. rewrite decide_False by congruence.
    eapply set_by_mono; [|by apply HP]. set_solver.
Qed.

Context (Hnames : names_unique cenv).

Lemma jar_step_ok jar op : jar_ok cfg jar -> jar_ok cfg (jar_step jar op).
Proof.
  intros [Hwf Hb]. destruct op as [run url header now|run url now|run]; cbn [jar_step].
  - destruct (accept_spec env cenv cfg run url header now jar) as [[r ->]|(o & ms & cs & Ho & Hms & Hcs & ->)];
      [done|]. cbn [snd]. split; [by apply dict_set_wf|]. intros run' o'. rewrite cookies_of_set.
    case_decide as Heq; [|done]. injection Heq as -> ->.
    destruct (collect_facts _ _ _ _ _ _ _ _ (Hnames _ _ Hms) Hcs) as [Hnd Hin]. by apply merge_ok.
  - destruct (cookies_for_sub env run url now jar Hwf) as [Hwf' Hsub]. split; [done|].
    intros run' o'. eapply bucket_ok_sublist; [apply Hsub|done].
  - destruct (jar_clear_run_spec run jar Hwf) as [Hwf' Hcl]. split; [done|].
    intros run' o'. rewrite Hcl. case_decide; [|done]. destruct (Hb run' o').
    split; [simpl; lia|constructor|constructor].
Qed.

Lemma run_jar_ok ops : jar_ok cfg (run_jar ops).
Proof.
  unfold run_jar. induction ops as [|op ops IH] using rev_ind.
  - split; [apply dict_empty_wf|]. intros run o. split; [simpl; lia|constructor|constructor].
  - rewrite foldl_app. by apply jar_step_ok.
Qed.
End Trace.

Lemma new_jar_ok cfg jar : new_jar cfg = Ok jar -> jar = [] /\ 0 < max_cookies_per_bucket cfg.
Proof.
  unfold new_jar. intros H. run_m H.
  repeat match goal with H : guard _ _ = Ok _ |- _ => apply guard_ok in H end. split; [done|lia].
Qed.

(** The text of the origin of a URL, against its scheme, host and port. *)
Lemma origin_for_web env url o : origin_for env url = Some o ->
  exists scheme host port, web_origin env url = Some (scheme, host, port) /\ (scheme = "http" \/ scheme = "https") /\
    exists p, o = show_origin scheme host (kept_port scheme p) /\ effective_port scheme p = port.
Proof.
  intros (scheme & host & p & parts & [Hu Hs Hsup Hh Hne Hp] & ->)%origin_for_spec.
  exists scheme, (lower host), (effective_port scheme p). split; [|split; [done|by exists p]].
  apply web_origin_spec. by exists parts, host, p.
Qed.
Lemma origin_for_same env url1 url2 o s1 h1 p1 s2 h2 p2 : origin_for env url1 = Some o -> origin_for env url2 = Some o ->
  web_origin env url1 = Some (s1, h1, p1) -> web_origin env url2 = Some (s2, h2, p2) ->
  str_in_char ":" h1 = false -> str_in_char ":" h2 = false -> s1 = s2 /\ h1 = h2 /\ p1 = p2.
Proof.
  intros (s1' & h1' & n1 & Hw1 & Hs1 & q1 & Ho1 & Hq1)%origin_for_web (s2' & h2' & n2 & Hw2 & Hs2 & q2 & Ho2 & Hq2)%origin_for_web.
  rewrite Hw1, Hw2. intros [= -> -> ->] [= -> -> ->] H1 H2. rewrite Ho1 in Ho2.
  apply show_origin_inj in Ho2 as (-> & -> & Hk%kept_port_inj); [|done..]. split_and!; congruence.
Qed.
Lemma https_origin env url o scheme host n : origin_for env url = Some o -> web_origin env url = Some (scheme, host, n) ->
  startswith "https://" o = true -> scheme = "https".
Proof.
  intros (s & h & p & Hw & Hs & q & -> & _)%origin_for_web. rewrite Hw. intros [= -> -> ->].
  destruct Hs as [->| ->]; [|done]. unfold show_origin. by destruct (kept_port "http" q).
Qed.

(** C25: A cookie sent with a request is a name and a value that a [Set-Cookie]
    header gave, which the same run received, after its last [clear_run], from a
    URL of the same origin: of the same scheme, host (in lower case) and port,
    the implied one if none is written, unless one of the two hosts contains a
    colon ([ipv6_origins_collide]). The expiry that the header led to has not
    passed, its path, or the default one, is the root or matches the path of the
    request in the sense of RFC 6265, and one marked [Secure] goes to https only.
    [cookies_for] never raises. *)
Theorem cookies_never_leak env cenv cfg jar0 ops run url now :
  new_jar cfg = Ok jar0 ->
  exists out, (cookies_for env run url now (run_jar env cenv cfg ops)).1 = Ok out /\
  forall name value, dict_get out name = Some value ->
    exists url0 header at_ morsels m scheme0 host0 port0 scheme host port parts path expires,
      JarAccept run url0 header at_ ∈ since_clear run ops /\
      simple_cookie cenv header = Some morsels /\ (name, m) ∈ morsels /\ mo_value m = value /\
      web_origin env url0 = Some (scheme0, host0, port0) /\ web_origin env url = Some (scheme, host, port) /\
      (str_in_char ":" host0 = false -> str_in_char ":" host = false ->
         scheme0 = scheme /\ host0 = host /\ port0 = port) /\
      resolve_expiry cenv (or_none (mo_max_age m)) (or_none (mo_expires m)) at_ = Ok expires /\
      (forall e, expires = Some e -> PrimFloat.leb e now = false) /\
      normalize_cookie_path env (or_none (mo_path m)) url0 = Ok path /\ urlsplit env url = Ok parts /\
      (path = "/" \/ rfc6265_path_match (if truthy_str (sr_path parts) then sr_path parts else "/") path) /\
      (attr_bool (mo_secure m) = true -> scheme = "https").
Proof.
  intros [-> Hcap]%new_jar_ok. set (jar := run_jar env cenv cfg ops).
  destruct (origin_for env url) as [o|] eqn:Ho; [|unfold cookies_for; rewrite Ho; by exists []].
  destruct (cookies_for_spec env run url now jar o Ho) as (rp & jar' & Hrp & Hc & _).
  eexists. rewrite Hc. split; [done|]. intros name value Hget.
  destruct (send_all_in _ _ _ _ Hget) as [?|(c & [Hs Hin]%list_elem_of_filter & Hn & Hv)]; [done|].
  destruct (run_jar_provenance env cenv cfg Hcap ops) as [_ HP].
  destruct (HP run o c Hin) as (url0 & header & at_ & ms & m & Hop & Ho0 & Hms & Hm & Hck).
  destruct Hs as (Hex & Hsec & Hpath). apply cookie_of_morsel_spec in Hck as (_ & Hval & _ & Hnp & Hsecure & _ & _ & Hexp).
  destruct (origin_for_web _ _ _ Ho0) as (s0 & h0 & n0 & Hw0 & _). destruct (origin_for_web _ _ _ Ho) as (s & h & n & Hw & _).
  unfold path_for in Hrp. apply rbind_ok in Hrp as (parts & Hu & [= Hrp]).
  exists url0, header, at_, ms, m, s0, h0, n0, s, h, n, parts, (ck_path c), (ck_expires_epoch c). split_and!; try done.
  - by rewrite <-Hn.
  - by rewrite <-Hval.
  - by apply (origin_for_same env url0 url o).
  - intros e He. unfold expired in Hex. by rewrite He in Hex.
  - rewrite Hrp. by apply path_matches_spec.
  - intros Hsc. eapply https_origin; [exact Ho|exact Hw|]. apply Hsec. by rewrite Hsecure.
Qed.

(** In every reachable jar each bucket holds at most the configured number
    of cookies, at most one per name and path, each within the value cap, each
    stamped with its bucket's origin, and [Secure] ones in https buckets only. *)
Theorem jar_buckets_bounded env cenv cfg jar0 ops run o :
  new_jar cfg = Ok jar0 -> names_unique cenv ->
  bucket_ok cfg o (dict_get_or (run_jar env cenv cfg ops) (run, o) []).
Proof. intros [-> Hcap]%new_jar_ok Hn. by apply run_jar_ok. Qed.

(** A cookie accepted from one URL is sent, with the value just set, to
    every URL of that origin under its path for as long as it has not expired,
    whatever was in the jar and even if the bucket was full. *)
Theorem set_then_sent env cenv cfg jar0 jar run url url' header name m o rp path expires now now' :
  new_jar cfg = Ok jar0 ->
  origin_for env url = Some o -> origin_for env url' = Some o ->
  simple_cookie cenv header = Some [(name, m)] ->
  normalize_cookie_path env (or_none (mo_path m)) url = Ok path ->
  path_for env url' = Ok rp -> path_matches_cookie_path rp path = true ->
  resolve_expiry cenv (or_none (mo_max_age m)) (or_none (mo_expires m)) now = Ok expires ->
  (forall e, expires = Some e -> PrimFloat.leb e now = false /\ PrimFloat.leb e now' = false) ->
  Z.of_nat (String.length (mo_value m)) <= max_cookie_value_bytes cfg ->
  (attr_bool (mo_secure m) = true -> startswith "https://" o = true) ->
  exists jar' out,
    accept_set_cookie env cenv cfg run url header now jar = (Ok tt, jar') /\
    (cookies_for env run url' now' jar').1 = Ok out /\
    dict_get out name = Some (mo_value m).
Proof.
  intros [-> Hcap]%new_jar_ok Ho Ho' Hms Hpath Hrp Hmatch Hex Hlive Hlen Hsec.
  set (c := {| ck_name := name; ck_value := mo_value m; ck_origin := o; ck_path := path;
               ck_expires_epoch := expires; ck_secure := attr_bool (mo_secure m);
               ck_http_only := attr_bool (mo_httponly m) |}).
  pose proof (origin_nonempty _ _ _ Ho) as Hone.
  assert (cookie_of_morsel env cenv cfg url o now name m = Ok (Some c)) as Hc.
  { unfold cookie_of_morsel. rewrite Hpath, Hex. cbn [rbind].
    assert (attr_bool (mo_secure m) && negb (startswith "https://" o) = false) as ->
      by (destruct (attr_bool (mo_secure m)); [by rewrite Hsec|done]).
    rewrite (proj2 (Z.ltb_ge _ _) Hlen). unfold new_cookie_record. cbn [ck_origin].
    by rewrite (proj2 (truthy_str_spec o) Hone). }
  assert (expired now c = false /\ expired now' c = false) as [Hl Hl'].
  { unfold expired. cbn [c ck_expires_epoch]. destruct expires as [e|]; [by apply Hlive|done]. }
  set (jar' := dict_set jar (run, o) (merge_cookies cfg now (dict_get_or jar (run, o) []) [c])).
  assert (accept_set_cookie env cenv cfg run url header now jar = (Ok tt, jar')) as Hacc.
  { unfold accept_set_cookie. rewrite Ho, Hms. unfold bind, lift. simpl collect_cookies. by rewrite Hc. }
  destruct (cookies_for_spec env run url' now' jar' o Ho') as (rp' & jar2 & Hrp' & Hcf & _).
  exists jar'. eexists. split; [exact Hacc|]. rewrite Hcf. split; [done|].
  rewrite Hrp in Hrp'. injection Hrp' as <-. unfold jar'. rewrite cookies_of_set, decide_True by done.
  destruct (merge_spec cfg now (dict_get_or jar (run, o) []) [c] Hcap) as [-> _].
  unfold replaced. rewrite (filter_cons_True _ c []) by done. rewrite filter_nil.
  rewrite drop_app_le by (rewrite length_app; simpl; lia).
  rewrite filter_app, (filter_cons_True _ c []), filter_nil by (split_and!; [done|by cbn [c ck_secure]|done]).
  exact (send_all_last [] _ c).
Qed.

(** Path matching is RFC 6265's for every request path that starts with a
    slash, and a cookie without a usable [Path] attribute always matches the
    request it was set by. *)
Theorem path_matching_is_rfc6265 env request_path cookie_path url attr rp cp :
  startswith "/" request_path = true ->
  path_for env url = Ok rp -> normalize_cookie_path env attr url = Ok cp ->
  (path_matches_cookie_path request_path cookie_path = true <-> rfc6265_path_match request_path cookie_path) /\
  (path_matches_cookie_path rp cp = true \/ exists p, attr = Some p /\ cp = p /\ startswith "/" p = true).
Proof.
  intros Hs Hrp Hcp. split.
  - rewrite path_matches_spec. split; [|tauto]. intros [->|H]; [|done].
    apply startswith_spec in Hs as [r ->]. right. exists r. split; [done|left]. by exists "".
  - unfold normalize_cookie_path in Hcp. destruct attr as [p|]; [|left; by eapply default_path_matches].
    destruct (truthy_str p && startswith "/" p) eqn:E; [|left; by eapply default_path_matches].
    right. injection Hcp as <-. apply andb_true_iff in E as [_ E]. eauto.
Qed.

(** Two http(s) URLs share an origin exactly when scheme, host and
    effective port agree (default ports and letter case do not matter), for
    hosts without a colon. *)
Theorem same_origin_iff env url1 url2 s1 s2 h1 h2 p1 p2 parts1 parts2 :
  url_origin env url1 s1 h1 p1 parts1 -> url_origin env url2 s2 h2 p2 parts2 ->
  str_in_char ":" (lower h1) = false -> str_in_char ":" (lower h2) = false ->
  origin_for env url1 = origin_for env url2 <->
  s1 = s2 /\ lower h1 = lower h2 /\ effective_port s1 p1 = effective_port s2 p2.
Proof.
  intros Hu1 Hu2 H1 H2.
  rewrite (proj2 (origin_for_spec env url1 _)) by (by exists s1, h1, p1, parts1).
  rewrite (proj2 (origin_for_spec env url2 _)) by (by exists s2, h2, p2, parts2).
  split.
  - intros [= H]. apply show_origin_inj in H as (-> & -> & Hp);
      [|apply Hu1|apply Hu2|done|done]. split_and!; [done|done|]. by apply kept_port_inj.
  - intros (-> & -> & Hp). by rewrite (proj2 (kept_port_inj s2 p1 p2) Hp).
Qed.

(** *** Snapshots *)

Lemma redacted_cookies_ok l :
  (forall c, c ∈ l -> ck_origin c <> "") -> redacted_cookies l = Ok (redact <$> l).
Proof.
  induction l as [|c l IH]; intros Ho; [done|]. cbn [redacted_cookies fmap list_fmap].
  unfold new_cookie_record. cbn [redact ck_origin].
  rewrite (proj2 (truthy_str_spec (ck_origin c))) by (apply Ho; left). cbn [rbind guard].
  rewrite IH by (intros c' Hc'; apply Ho; by right). done.
Qed.

Lemma bucket_records (run : string) (jar : Jar) : forall acc c,
  c ∈ foldl (fun acc '(b, records) => if bool_decide (b.1 = run) then acc ++ records else acc) acc jar <->
  c ∈ acc \/ exists o l, ((run, o), l) ∈ jar /\ c ∈ l.
Proof.
  induction jar as [|[[r o] l] jar IH]; intros acc c; simpl.
  - split; [by left|]. intros [?|(o & l & ?%elem_of_nil & _)]; done.
  - rewrite IH. case_bool_decide as Hr; simpl in Hr.
    + subst. rewrite elem_of_app. split.
      * intros [[?|?]|(o' & l' & ? & ?)]; [by left|right; exists o, l; split; [left|done]|].
        right. exists o', l'. split; [by right|done].
      * intros [?|(o' & l' & [Heq|?]%elem_of_cons & ?)]; [by left; left| |right; eauto].
        injection Heq as -> ->. by left; right.
    + split; (intros [?|(o' & l' & Hin & ?)]; [by left|right; exists o', l'; split; [|done]]).
      * by right.
      * apply elem_of_cons in Hin as [Heq|?]; [|done]. injection Heq as -> _ _. done.
Qed.

(** The default snapshot of a run succeeds, lists exactly the cookies of
    that run's buckets, and carries none of their values. *)
Theorem snapshot_redacts env cenv cfg jar0 ops run :
  new_jar cfg = Ok jar0 ->
  let jar := run_jar env cenv cfg ops in
  exists raw, cookies_in_jar run true jar = Ok {| sn_cookies := raw |} /\
    cookies_in_jar run false jar = Ok {| sn_cookies := redact <$> raw |} /\
    Forall (fun c => ck_value c = "<redacted>") (redact <$> raw) /\
    forall c, c ∈ raw <-> exists o, c ∈ dict_get_or jar (run, o) [].
Proof.
  intros [-> Hcap]%new_jar_ok jar. destruct (run_jar_provenance env cenv cfg Hcap ops) as [Hwf HP].
  fold jar in Hwf, HP. eexists. split; [reflexivity|].
  assert (forall c, c ∈ foldl (fun acc '(b, records) => if bool_decide (b.1 = run) then acc ++ records else acc) [] jar
    <-> exists o, c ∈ dict_get_or jar (run, o) []) as Hin.
  { intros c. rewrite bucket_records. split.
    - intros [?%elem_of_nil|(o & l & Hl & Hc)]; [done|]. exists o. unfold dict_get_or.
      by rewrite (dict_get_in _ _ _ Hwf Hl).
    - intros [o Hc]. right. unfold dict_get_or in Hc. destruct (dict_get jar (run, o)) as [l|] eqn:E.
      + exists o, l. split; [by apply dict_get_Some_in|done].
      + by apply elem_of_nil in Hc. }
  split_and!; [| |exact Hin].
  - unfold cookies_in_jar, redacted. cbn [sn_cookies]. rewrite redacted_cookies_ok; [done|].
    intros c [o Hc]%Hin. destruct (HP run o c Hc) as (? & ? & ? & ? & m & _ & Ho & _ & _ & Hm).
    apply cookie_of_morsel_spec in Hm as (_ & _ & -> & _). by eapply origin_nonempty.
  - apply Forall_fmap, Forall_forall. done.
Qed.

(** ** Concrete runs *)

(** A morsel without attributes. *)
Definition plain_morsel (value : string) : Morsel := {|
  mo_value := value; mo_path := ""; mo_max_age := ""; mo_expires := "";
  mo_secure := AttrStr ""; mo_httponly := AttrStr "" |}.

(** A parser that knows three headers. *)
Definition test_cookies : CookieEnv := {|
  simple_cookie h :=
    if decide (h = "sid=abc") then Some [("sid", plain_morsel "abc")]
    else if decide (h = "sid=top; Path=/") then Some [("sid",
      {| mo_value := "top"; mo_path := "/"; mo_max_age := "60"; mo_expires := "";
         mo_secure := AttrTrue; mo_httponly := AttrTrue |})]
    else if decide (h = "sid=abc; Max-Age=(400 nines)") then Some [("sid",
      {| mo_value := "abc"; mo_path := ""; mo_max_age := Nat.iter 400 (String "9") ""; mo_expires := "";
         mo_secure := AttrStr ""; mo_httponly := AttrStr "" |})]
    else None;
  parse_date _ := Raise (ValueError "Invalid date value or format") |}.

Definition jar_defaults : JarConfig := {|
  max_cookies_per_bucket := DEFAULT_MAX_COOKIES_PER_BUCKET;
  max_cookie_value_bytes := DEFAULT_MAX_COOKIE_VALUE_BYTES |}.

Definition session : list jar_op :=
  [JarAccept "run:1" "https://Shop.test:443/cart/add" "sid=abc" 1000%float;
   JarAccept "run:2" "https://shop.test/cart/add" "sid=top; Path=/" 1000%float].

Lemma cookies_never_leak_witness :
  exists out,
    (cookies_for offline "run:1" "https://shop.test/cart/view" 1001%float
       (run_jar offline test_cookies jar_defaults session)).1 = Ok out /\ out = [("sid", "abc")] /\
    exists url0 header at_ scheme0 host0 port0, JarAccept "run:1" url0 header at_ ∈ session /\
      web_origin offline url0 = Some (scheme0, host0, port0) /\
      web_origin offline "https://shop.test/cart/view" = Some ("https", "shop.test", 443) /\
      (str_in_char ":" host0 = false -> host0 = "shop.test" /\ port0 = 443).
Proof.
  destruct (cookies_never_leak offline test_cookies jar_defaults [] session "run:1"
    "https://shop.test/cart/view" 1001%float eq_refl) as (out & Hout & Hall).
  exists out. split; [exact Hout|]. vm_compute in Hout. injection Hout as <-. split; [reflexivity|].
  destruct (Hall "sid" "abc" eq_refl) as (url0 & header & at_ & ms & m & s0 & h0 & n0 & s & h & n & parts & path & e &
    H1 & _ & _ & _ & H2 & H3 & H4 & _). vm_compute in H3. injection H3 as <- <- <-.
  exists url0, header, at_, s0, h0, n0. split; [exact H1|]. split; [exact H2|]. split; [vm_compute; reflexivity|].
  intros Hh. destruct (H4 Hh eq_refl) as (_ & H5 & H6). split; [exact H5|exact H6].
Defined.

Lemma jar_buckets_bounded_witness :
  names_unique test_cookies /\
  bucket_ok jar_defaults "https://shop.test"
    (dict_get_or (run_jar offline test_cookies jar_defaults session) ("run:1", "https://shop.test") []).
Proof.
  assert (names_unique test_cookies) as Hn.
  { intros v ms. cbn [simple_cookie test_cookies]. unfold dict_wf.
    repeat (case_decide; [intros [= <-]; apply NoDup_singleton|]). done. }
  split; [exact Hn|]. exact (jar_buckets_bounded offline test_cookies jar_defaults [] session _ _ eq_refl Hn).
Defined.

Lemma set_then_sent_witness :
  exists jar' out,
    accept_set_cookie offline test_cookies jar_defaults "run:1" "https://shop.test/cart/add" "sid=top; Path=/"
      1000%float [] = (Ok tt, jar') /\
    (cookies_for offline "run:1" "https://shop.test/other" 1059%float jar').1 = Ok out /\
    dict_get out "sid" = Some "top".
Proof.
  apply (set_then_sent offline test_cookies jar_defaults [] [] "run:1" "https://shop.test/cart/add"
    "https://shop.test/other" "sid=top; Path=/" "sid"
    {| mo_value := "top"; mo_path := "/"; mo_max_age := "60"; mo_expires := "";
       mo_secure := AttrTrue; mo_httponly := AttrTrue |}
    "https://shop.test" "/other" "/" (Some 1060%float) 1000%float 1059%float);
    try (vm_compute; reflexivity).
  - intros e [= <-]. split; vm_compute; reflexivity.
  - vm_compute. discriminate.
Defined.

Lemma path_matching_is_rfc6265_witness :
  (path_matches_cookie_path "/cart/add" "/cart" = true <-> rfc6265_path_match "/cart/add" "/cart") /\
  path_matches_cookie_path "/cart/add" "/cart" = true /\ path_matches_cookie_path "/carton" "/cart" = false.
Proof.
  destruct (path_matching_is_rfc6265 offline "/cart/add" "/cart" "http://a.test/cart/add" None "/cart/add" "/cart")
    as [H _]; [vm_compute; reflexivity..|].
  split; [exact H|]. split; vm_compute; reflexivity.
Defined.

Lemma same_origin_iff_witness :
  origin_for offline "HTTPS://Shop.test/a" = origin_for offline "https://shop.test:443/b" <->
  "https" = "https" /\ "shop.test" = "shop.test" /\ effective_port "https" None = effective_port "https" (Some 443).
Proof.
  apply (same_origin_iff offline "HTTPS://Shop.test/a" "https://shop.test:443/b" "https" "https"
    "shop.test" "shop.test" None (Some 443)
    {| sr_scheme := "https"; sr_netloc := "Shop.test"; sr_path := "/a"; sr_query := ""; sr_fragment := "" |}
    {| sr_scheme := "https"; sr_netloc := "shop.test:443"; sr_path := "/b"; sr_query := ""; sr_fragment := "" |});
    first [vm_compute; reflexivity | constructor; first [by right | vm_compute; reflexivity | done]].
Defined.

Lemma snapshot_redacts_witness :
  exists raw, cookies_in_jar "run:1" false (run_jar offline test_cookies jar_defaults session) =
      Ok {| sn_cookies := redact <$> raw |} /\ length raw = 1%nat.
Proof.
  destruct (snapshot_redacts offline test_cookies jar_defaults [] session "run:1" eq_refl)
    as (raw & Hraw & Hred & _).
  exists raw. split; [exact Hred|]. vm_compute in Hraw. by injection Hraw as <-.
Defined.

(** A [Max-Age] of four hundred digits is not dropped: converting it to a float
    raises, and the exception reaches the fetcher. *)
Example huge_max_age_raises :
  (accept_set_cookie offline test_cookies jar_defaults "run:1" "http://a.test/" "sid=abc; Max-Age=(400 nines)"
     1000%float []).1 = Raise OverflowError.
Proof. vm_compute. reflexivity. Qed.

(** IPv6 hosts lose their brackets: port 8080 of [::1] and the default port of
    [::1:8080] are one origin, and share cookies. *)
Example ipv6_origins_collide :
  let env := {| gethostbyname _ := DnsOSError; ipv6_address _ := Some true |} in
  origin_for env "http://[::1]:8080/" = Some "http://::1:8080" /\
  origin_for env "http://[::1:8080]/" = Some "http://::1:8080".
Proof. split; vm_compute; reflexivity. Qed.

(** Two cookies of one name on different paths: only the one stored last is
    sent, here the less specific one. *)
Example longer_path_is_shadowed :
  let jar := run_jar offline test_cookies jar_defaults
    [JarAccept "run:1" "https://shop.test/cart/add" "sid=abc" 1000%float;
     JarAccept "run:1" "https://shop.test/cart/add" "sid=top; Path=/" 1000%float] in
  (cookies_for offline "run:1" "https://shop.test/cart/view" 1001%float jar).1 = Ok [("sid", "top")].
Proof. vm_compute. reflexivity. Qed.
