(* ===== verification/CostGate.v ===== *)
(** * The composable cost gate

    [agents/recovery/in_memory_cost_gate.py] and the contract of
    [ports/cost_gate.py]: per-run, per-objective and per-host totals, their
    caps, and the repeated-failure counter. Theorems: totals and counters are
    exactly what the log of accepted calls adds up to (a charge that trips a
    cap is still recorded), a breached cap stays breached, and the failure
    hard-stop fires exactly from the threshold-th recurrence on. *)
From Stdlib Require Import Floats.
From S2P Require Import Prelude PyDict PyStr PyFloat FloatArith.
Local Open Scope Z_scope.

Record CostGateConfig := {
  cg_per_run_cost_cap : option float;
  cg_per_objective_cost_cap : option float;
  cg_per_host_cost_cap : option float;
  cg_repeated_failure_threshold : Z }.

Record CostGate := {
  cg_run_costs : dict string float;
  cg_objective_costs : dict string float;
  cg_host_costs : dict string float;
  cg_failure_counters : dict (string * string) Z }.

Definition REPEATED_FAILURE_HARD_STOP_THRESHOLD : Z := 2.

(** [value is finite and non-negative], as the constructor and [charge] ask. *)
Definition check_amount (name : string) (x : float) : res unit :=
  do? guard (isfinite x) (ValueError (name +:+ " must be a finite number")) in
  guard (negb (PrimFloat.ltb x 0)) (ValueError (name +:+ " must be non-negative")).

Definition check_cap (name : string) (cap : option float) : res unit :=
  if cap is Some x then check_amount name x else Ok tt.

(** [InMemoryCostGate.__init__] *)
Definition new_cost_gate (c : CostGateConfig) : res CostGate :=
  do? guard (negb (match cg_per_run_cost_cap c, cg_per_objective_cost_cap c, cg_per_host_cost_cap c with
                   | None, None, None => true | _, _, _ => false end))
        (ValueError "InMemoryCostGate requires at least one cost cap") in
  do? check_cap "per_run_cost_cap" (cg_per_run_cost_cap c) in
  do? check_cap "per_objective_cost_cap" (cg_per_objective_cost_cap c) in
  do? check_cap "per_host_cost_cap" (cg_per_host_cost_cap c) in
  do? guard (2 <=? cg_repeated_failure_threshold c) (ValueError "repeated_failure_threshold must be >= 2") in
  Ok {| cg_run_costs := []; cg_objective_costs := []; cg_host_costs := []; cg_failure_counters := [] |}.

(** [_validate_inputs] *)
Definition validate_inputs (run_ref objective_ref origin : string) : res unit :=
  do? guard (non_blank run_ref) (ValueError "run_ref must be non-blank") in
  do? guard (non_blank objective_ref) (ValueError "objective_ref must be non-blank") in
  guard (non_blank origin) (ValueError "origin must be non-blank").

(** [d.get(k, 0.0)] *)
Definition cost_of (d : dict string float) (k : string) : float := dict_get_or d k 0%float.

Definition exceeds (cost : float) (cap : option float) : bool :=
  if cap is Some c then PrimFloat.ltb c cost else false.

Section Gate.
Context (cfg : CostGateConfig).

(** [_refuse_if_breaches_cap] *)
Definition refuse_if_breaches_cap (run_ref objective_ref origin : string) (g : CostGate) : res unit :=
  do? guard (negb (exceeds (cost_of (cg_run_costs g) run_ref) (cg_per_run_cost_cap cfg)))
        (CostGateExceeded "per_run_cost_cap" run_ref) in
  do? guard (negb (exceeds (cost_of (cg_objective_costs g) objective_ref) (cg_per_objective_cost_cap cfg)))
        (CostGateExceeded "per_objective_cost_cap" run_ref) in
  guard (negb (exceeds (cost_of (cg_host_costs g) origin) (cg_per_host_cost_cap cfg)))
        (CostGateExceeded "per_host_cost_cap" run_ref).

Definition check (run_ref objective_ref origin : string) (failure_signature : option string) : M CostGate unit :=
  do* lift (validate_inputs run_ref objective_ref origin) in
  do* (fun g => (refuse_if_breaches_cap run_ref objective_ref origin g, g)) in
  match failure_signature with
  | None => ret tt
  | Some signature =>
      do* lift (guard (truthy_str (strip signature)) (ValueError "failure_signature must be non-blank when present")) in
      let key := (objective_ref, signature) in
      let* count := gets (fun g => dict_get_or (cg_failure_counters g) key 0 + 1) in
      do* modify (fun g => {| cg_run_costs := cg_run_costs g; cg_objective_costs := cg_objective_costs g;
                              cg_host_costs := cg_host_costs g;
                              cg_failure_counters := dict_set (cg_failure_counters g) key count |}) in
      if cg_repeated_failure_threshold cfg <=? count
      then raise (RepeatedFailureSignatureExceeded signature objective_ref count) else ret tt
  end.

(** [d[k] = d.get(k, 0.0) + cost] *)
Definition add_cost (d : dict string float) (k : string) (cost : float) : dict string float :=
  dict_set d k (cost_of d k + cost)%float.

Definition charge (cost_usd : float) (run_ref objective_ref origin : string) : M CostGate unit :=
  do* lift (validate_inputs run_ref objective_ref origin) in
  do* lift (check_amount "cost_usd" cost_usd) in
  do* modify (fun g => {| cg_run_costs := add_cost (cg_run_costs g) run_ref cost_usd;
                          cg_objective_costs := add_cost (cg_objective_costs g) objective_ref cost_usd;
                          cg_host_costs := add_cost (cg_host_costs g) origin cost_usd;
                          cg_failure_counters := cg_failure_counters g |}) in
  fun g => (refuse_if_breaches_cap run_ref objective_ref origin g, g).

(** ** Calls and their log *)

Inductive gate_op :=
  | GateCheck (run_ref objective_ref origin : string) (failure_signature : option string)
  | GateCharge (cost_usd : float) (run_ref objective_ref origin : string).

Definition gate_call (op : gate_op) : M CostGate unit :=
  match op with
  | GateCheck r o h s => check r o h s
  | GateCharge c r o h => charge c r o h
  end.

Definition run_gate (ops : list gate_op) (g : CostGate) : CostGate := foldl (fun g op => (gate_call op g).2) g ops.

(** The charges that pass validation, whether or not they trip a cap. *)
Definition accepted_charge (op : gate_op) : option (float * (string * string * string)) :=
  match op with
  | GateCharge c r o h =>
      if is_ok (validate_inputs r o h) && is_ok (check_amount "cost_usd" c) then Some (c, (r, o, h)) else None
  | GateCheck _ _ _ _ => None
  end.

(** The amounts charged under a key, in order, and their sum from left to right. *)
Definition amounts (proj : string * string * string -> string) (k : string) (ops : list gate_op) : list float :=
  omap (fun op => if accepted_charge op is Some (c, x) then if decide (proj x = k) then Some c else None else None) ops.
Definition float_sum (l : list float) : float := foldl PrimFloat.add 0%float l.

(** ** Lemmas *)

Lemma accepted_charge_eq c r o h :
  (accepted_charge (GateCharge c r o h) = Some (c, (r, o, h)) /\
   validate_inputs r o h = Ok tt /\ check_amount "cost_usd" c = Ok tt) \/
  (accepted_charge (GateCharge c r o h) = None /\
   exists e, forall g, gate_call (GateCharge c r o h) g = (Raise e, g)).
Proof.
  simpl. unfold charge, bind, lift. destruct (validate_inputs r o h) as [[]|e]; simpl; [|right; eauto].
  destruct (check_amount "cost_usd" c) as [[]|e]; simpl; [by left|right; eauto].
Qed.

Lemma charge_accepted c r o h g :
  validate_inputs r o h = Ok tt -> check_amount "cost_usd" c = Ok tt ->
  let g' := {| cg_run_costs := add_cost (cg_run_costs g) r c; cg_objective_costs := add_cost (cg_objective_costs g) o c;
               cg_host_costs := add_cost (cg_host_costs g) h c; cg_failure_counters := cg_failure_counters g |} in
  charge c r o h g = (refuse_if_breaches_cap r o h g', g').
Proof. intros Hv Hc. unfold charge, bind, lift. by rewrite Hv, Hc. Qed.

Lemma check_costs r o h s g :
  let g' := (gate_call (GateCheck r o h s) g).2 in
  cg_run_costs g' = cg_run_costs g /\ cg_objective_costs g' = cg_objective_costs g /\ cg_host_costs g' = cg_host_costs g.
Proof.
  simpl. unfold check, bind, lift, gets, modify. destruct (validate_inputs r o h) as [[]|e]; simpl; [|done].
  destruct (refuse_if_breaches_cap r o h g) as [[]|e]; simpl; [|done]. destruct s as [sig|]; [|done].
  destruct (guard _ _) as [[]|e]; simpl; [|done]. by destruct (_ <=? _).
Qed.

Lemma cost_add d k c k' : cost_of (add_cost d k c) k' = if decide (k' = k) then (cost_of d k + c)%float else cost_of d k'.
Proof. unfold cost_of, add_cost, dict_get_or. rewrite dict_get_set. by case_decide. Qed.

(** Any one of the three totals: [get] reads it and [proj] selects its key. *)
Lemma totals_run (get : CostGate -> dict string float) (proj : string * string * string -> string) ops k :
  (forall g op, get (gate_call op g).2 =
     if accepted_charge op is Some (c, x) then add_cost (get g) (proj x) c else get g) ->
  forall g, cost_of (get (run_gate ops g)) k = foldl PrimFloat.add (cost_of (get g) k) (amounts proj k ops).
Proof.
  intros Hstep. induction ops as [|op ops IH]; intros g; [done|].
  cbn [run_gate foldl]. change (foldl _ ?x ops) with (run_gate ops x). rewrite IH, Hstep.
  unfold amounts. cbn [omap list_omap]. destruct (accepted_charge op) as [[c x]|]; [|done].
  rewrite cost_add. destruct (decide (k = proj x)) as [->|Hne].
  - by rewrite decide_True.
  - by rewrite decide_False by congruence.
Qed.

Ltac step_costs op :=
  let r := fresh in let o := fresh in let h := fresh in let c := fresh in
  destruct op as [r o h ?|c r o h]; [by apply check_costs|];
  destruct (accepted_charge_eq c r o h) as [(-> & Hv & Hc)|(-> & e & He)];
  [by unfold gate_call; rewrite charge_accepted by done|by rewrite He].

Lemma step_run_costs g op : cg_run_costs (gate_call op g).2 =
  if accepted_charge op is Some (c, x) then add_cost (cg_run_costs g) x.1.1 c else cg_run_costs g.
Proof. step_costs op. Qed.
Lemma step_objective_costs g op : cg_objective_costs (gate_call op g).2 =
  if accepted_charge op is Some (c, x) then add_cost (cg_objective_costs g) x.1.2 c else cg_objective_costs g.
Proof. step_costs op. Qed.
Lemma step_host_costs g op : cg_host_costs (gate_call op g).2 =
  if accepted_charge op is Some (c, x) then add_cost (cg_host_costs g) x.2 c else cg_host_costs g.
Proof. step_costs op. Qed.

(** Adding non-negative amounts never lowers a float. *)
Lemma foldl_add_ge l : forall x,
  PrimFloat.leb 0 x = true -> Forall (fun c => PrimFloat.leb 0 c = true) l ->
  PrimFloat.leb x (foldl PrimFloat.add x l) = true.
Proof.
  induction l as [|c l IH]; intros x Hx Hl; simpl; [apply leb_refl; by apply leb_not_nan in Hx as [_ ?]|].
  apply Forall_cons in Hl as [Hc Hl]. eapply leb_trans; [by apply (leb_add_r x c)|].
  apply IH; [by apply nonneg_add|done].
Qed.

Lemma check_amount_nonneg name x : is_ok (check_amount name x) = true -> PrimFloat.leb 0 x = true.
Proof.
  unfold check_amount. destruct (isfinite x) eqn:Hf; [|done]. simpl.
  destruct (PrimFloat.ltb x 0) eqn:Hx; [done|]. intros _. apply not_ltb_leb; [by apply isfinite_finite|done].
Qed.

Lemma amounts_nonneg proj k ops : Forall (fun c => PrimFloat.leb 0 c = true) (amounts proj k ops).
Proof.
  apply Forall_forall. intros c (op & _ & Hop)%list_elem_of_omap. unfold accepted_charge in Hop.
  destruct op as [?|c' r o h]; [done|]. destruct (is_ok (validate_inputs r o h)); [|done].
  destruct (is_ok (check_amount "cost_usd" c')) eqn:Hc; [|done]. cbn in Hop. case_decide; [|done].
  injection Hop as <-. by eapply check_amount_nonneg.
Qed.

Lemma exceeds_mono x y cap : exceeds x cap = true -> PrimFloat.leb x y = true -> exceeds y cap = true.
Proof. destruct cap as [c|]; [|done]. apply ltb_leb_trans. Qed.

(** [g'] has totals at least those of [g], key by key; the totals of [g] are
    not negative. *)
Definition grows (g g' : CostGate) : Prop :=
  forall get, get = cg_run_costs \/ get = cg_objective_costs \/ get = cg_host_costs ->
  forall k, PrimFloat.leb 0 (cost_of (get g) k) = true /\ PrimFloat.leb (cost_of (get g) k) (cost_of (get g') k) = true.

Lemma run_app ops ops' g : run_gate (ops ++ ops') g = run_gate ops' (run_gate ops g).
Proof. unfold run_gate. by rewrite foldl_app. Qed.

Lemma foldl_add_nonneg l x : PrimFloat.leb 0 x = true -> Forall (fun c => PrimFloat.leb 0 c = true) l ->
  PrimFloat.leb 0 (foldl PrimFloat.add x l) = true.
Proof. intros Hx Hl. eapply leb_trans; [exact Hx|by apply foldl_add_ge]. Qed.

Lemma totals_grow (get : CostGate -> dict string float) proj ops ops' g k :
  (forall g op, get (gate_call op g).2 =
     if accepted_charge op is Some (c, x) then add_cost (get g) (proj x) c else get g) ->
  cost_of (get g) k = 0%float ->
  PrimFloat.leb 0 (cost_of (get (run_gate ops g)) k) = true /\
  PrimFloat.leb (cost_of (get (run_gate ops g)) k) (cost_of (get (run_gate (ops ++ ops') g)) k) = true.
Proof.
  intros Hstep Hg.
  assert (PrimFloat.leb 0 (cost_of (get (run_gate ops g)) k) = true) as H0.
  { rewrite (totals_run get proj) by done. rewrite Hg. apply foldl_add_nonneg; [done|apply amounts_nonneg]. }
  split; [done|]. rewrite run_app, (totals_run get proj ops') by done. apply foldl_add_ge; [done|apply amounts_nonneg].
Qed.

Lemma new_cost_gate_empty g : new_cost_gate cfg = Ok g ->
  g = {| cg_run_costs := []; cg_objective_costs := []; cg_host_costs := []; cg_failure_counters := [] |}.
Proof. unfold new_cost_gate. intros H. run_m H. done. Qed.

Lemma run_grows g ops ops' : new_cost_gate cfg = Ok g -> grows (run_gate ops g) (run_gate (ops ++ ops') g).
Proof.
  intros ->%new_cost_gate_empty get [-> |[-> | ->]] k.
  - by apply (totals_grow _ (fun x => x.1.1)); [apply step_run_costs|].
  - by apply (totals_grow _ (fun x => x.1.2)); [apply step_objective_costs|].
  - by apply (totals_grow _ (fun x => x.2)); [apply step_host_costs|].
Qed.

Definition breached (r o h : string) (g : CostGate) : Prop :=
  exists cap, refuse_if_breaches_cap r o h g = Raise (CostGateExceeded cap r).

Lemma refuse_cases r o h g : refuse_if_breaches_cap r o h g = Ok tt \/ breached r o h g.
Proof.
  unfold breached, refuse_if_breaches_cap. destruct (exceeds _ (cg_per_run_cost_cap cfg)); simpl; [right; eauto|].
  destruct (exceeds _ (cg_per_objective_cost_cap cfg)); simpl; [right; eauto|].
  destruct (exceeds _ (cg_per_host_cost_cap cfg)); simpl; [right; eauto|by left].
Qed.

Lemma refuse_ok r o h g : refuse_if_breaches_cap r o h g = Ok tt <->
  exceeds (cost_of (cg_run_costs g) r) (cg_per_run_cost_cap cfg) = false /\
  exceeds (cost_of (cg_objective_costs g) o) (cg_per_objective_cost_cap cfg) = false /\
  exceeds (cost_of (cg_host_costs g) h) (cg_per_host_cost_cap cfg) = false.
Proof.
  unfold refuse_if_breaches_cap. destruct (exceeds _ (cg_per_run_cost_cap cfg)); simpl; [intuition congruence|].
  destruct (exceeds _ (cg_per_objective_cost_cap cfg)); simpl; [intuition congruence|].
  destruct (exceeds _ (cg_per_host_cost_cap cfg)); simpl; intuition congruence.
Qed.

Lemma not_exceeds_mono x y cap : exceeds y cap = false -> PrimFloat.leb x y = true -> exceeds x cap = false.
Proof.
  intros Hy Hle. destruct (exceeds x cap) eqn:E; [|done]. rewrite (exceeds_mono _ _ _ E Hle) in Hy. done.
Qed.

Lemma breached_grows r o h g g' : grows g g' -> breached r o h g -> breached r o h g'.
Proof.
  intros Hg [cap Hb]. destruct (refuse_cases r o h g') as [Hok|?]; [|done].
  assert (refuse_if_breaches_cap r o h g = Ok tt) as Hc; [|by rewrite Hc in Hb].
  apply refuse_ok in Hok as (H1 & H2 & H3). apply refuse_ok.
  split_and!; (eapply not_exceeds_mono; [eassumption|]); apply Hg; tauto.
Qed.

(** The scope of a call: the run, the objective and the origin it names. *)
Definition op_scope (op : gate_op) : string * string * string :=
  match op with GateCheck r o h _ => (r, o, h) | GateCharge _ r o h => (r, o, h) end.

(** The calls whose arguments pass validation. *)
Definition valid_op (op : gate_op) : bool :=
  match op with
  | GateCheck r o h _ => is_ok (validate_inputs r o h)
  | GateCharge c r o h => is_ok (validate_inputs r o h) && is_ok (check_amount "cost_usd" c)
  end.

Lemma is_ok_unit (m : res unit) : is_ok m = true -> m = Ok tt.
Proof. by destruct m as [[]|]. Qed.

Lemma valid_check r o h s g : validate_inputs r o h = Ok tt -> breached r o h g ->
  exists cap, check r o h s g = (Raise (CostGateExceeded cap r), g).
Proof. intros Hv [cap Hb]. exists cap. unfold check, bind, lift. by rewrite Hv, Hb. Qed.

(** A call of the scope made when a cap of that scope is breached raises. *)
Lemma breached_call ops g op : new_cost_gate cfg = Ok g -> valid_op op = true ->
  let '(r, o, h) := op_scope op in breached r o h (run_gate ops g) ->
  exists cap, (gate_call op (run_gate ops g)).1 = Raise (CostGateExceeded cap r).
Proof.
  intros Hnew Hv. destruct op as [r o h s|c r o h]; simpl in Hv |- *; intros Hb.
  - apply is_ok_unit in Hv. destruct (valid_check r o h s _ Hv Hb) as [cap E]. exists cap. by rewrite E.
  - apply andb_true_iff in Hv as [Hv%is_ok_unit Hc%is_ok_unit].
    pose proof (run_grows g ops [GateCharge c r o h] Hnew) as Hg.
    rewrite run_app in Hg. cbn [run_gate foldl gate_call] in Hg.
    change (foldl _ g ops) with (run_gate ops g) in Hg. rewrite charge_accepted in Hg by done.
    apply (breached_grows _ _ _ _ _ Hg) in Hb as [cap Hb]. exists cap. by rewrite charge_accepted.
Qed.

Lemma validate_inputs_error r o h e : validate_inputs r o h = Raise e -> exists m, e = ValueError m.
Proof.
  unfold validate_inputs. destruct (non_blank r); simpl; [|intros [= <-]; eauto].
  destruct (non_blank o); simpl; [|intros [= <-]; eauto]. destruct (non_blank h); simpl; [done|intros [= <-]; eauto].
Qed.

Lemma check_amount_error n x e : check_amount n x = Raise e -> exists m, e = ValueError m.
Proof.
  unfold check_amount. destruct (isfinite x); simpl; [|intros [= <-]; eauto].
  destruct (negb _); simpl; [done|intros [= <-]; eauto].
Qed.

(** A call that raises [CostGateExceeded] leaves a breached gate behind. *)
Lemma raised_breached op g cap r' : (gate_call op g).1 = Raise (CostGateExceeded cap r') ->
  let '(r, o, h) := op_scope op in breached r o h (gate_call op g).2.
Proof.
  destruct op as [r o h s|c r o h]; simpl.
  - unfold check, bind, lift, gets, modify. destruct (validate_inputs r o h) as [[]|e] eqn:Ev; simpl.
    + destruct (refuse_cases r o h g) as [Hr|[cap' Hr]]; rewrite Hr; simpl; [|intros _; by exists cap'].
      destruct s as [s|]; [|done]. destruct (truthy_str _); simpl; [|done]. by destruct (_ <=? _).
    + intros [= ->]. by apply validate_inputs_error in Ev as [? ?].
  - unfold charge, bind, lift, modify. destruct (validate_inputs r o h) as [[]|e] eqn:Ev; simpl.
    + destruct (check_amount "cost_usd" c) as [[]|e] eqn:Ec; simpl.
      * match goal with |- refuse_if_breaches_cap _ _ _ ?g' = _ -> _ => destruct (refuse_cases r o h g') as [Hr|Hr] end;
          [by rewrite Hr|done].
      * intros [= ->]. by apply check_amount_error in Ec as [? ?].
    + intros [= ->]. by apply validate_inputs_error in Ev as [? ?].
Qed.

(** ** The repeated-failure counter *)

(** The checks that count: valid, in scope of no breached cap, with a
    non-blank signature. *)
Definition counted_check (op : gate_op) (g : CostGate) : option (string * string) :=
  if op is GateCheck r o h (Some s) then
    if is_ok (validate_inputs r o h) && is_ok (refuse_if_breaches_cap r o h g) && truthy_str (strip s)
    then Some (o, s) else None
  else None.

(** How many of the calls count for [key]. *)
Fixpoint recurrences (key : string * string) (ops : list gate_op) (g : CostGate) : Z :=
  match ops with
  | [] => 0
  | op :: ops' => (if decide (counted_check op g = Some key) then 1 else 0) + recurrences key ops' (gate_call op g).2
  end.

Definition failures_of (g : CostGate) (key : string * string) : Z := dict_get_or (cg_failure_counters g) key 0.

Lemma check_counted r o h s g :
  validate_inputs r o h = Ok tt -> refuse_if_breaches_cap r o h g = Ok tt -> truthy_str (strip s) = true ->
  let n := failures_of g (o, s) + 1 in
  check r o h (Some s) g =
    (if cg_repeated_failure_threshold cfg <=? n then Raise (RepeatedFailureSignatureExceeded s o n) else Ok tt,
     {| cg_run_costs := cg_run_costs g; cg_objective_costs := cg_objective_costs g;
        cg_host_costs := cg_host_costs g; cg_failure_counters := dict_set (cg_failure_counters g) (o, s) n |}).
Proof.
  intros Hv Hr Hs. unfold check, bind, lift, gets, modify. rewrite Hv, Hr, Hs. simpl.
  unfold failures_of. by destruct (_ <=? _).
Qed.

Lemma check_uncounted r o h s g : counted_check (GateCheck r o h s) g = None -> (check r o h s g).2 = g.
Proof.
  simpl. unfold check, bind, lift, gets, modify. destruct (validate_inputs r o h) as [[]|e]; simpl; [|done].
  destruct (refuse_if_breaches_cap r o h g) as [[]|e]; simpl; [|done]. destruct s as [s|]; [|done].
  by destruct (truthy_str _).
Qed.

Lemma step_failures op g key :
  failures_of (gate_call op g).2 key = (if decide (counted_check op g = Some key) then 1 else 0) + failures_of g key.
Proof.
  destruct op as [r o h s|c r o h].
  - destruct (counted_check (GateCheck r o h s) g) as [k|] eqn:E.
    + simpl in E. destruct s as [s|]; [|done].
      destruct (validate_inputs r o h) as [[]|e] eqn:Hv; simpl in E; [|done].
      destruct (refuse_if_breaches_cap r o h g) as [[]|e] eqn:Hr; simpl in E; [|done].
      destruct (truthy_str (strip s)) eqn:Hs; simplify_eq/=. rewrite check_counted by done.
      unfold failures_of, dict_get_or. simpl. rewrite dict_get_set.
      destruct (decide (key = (o, s))) as [->|Hne]; [rewrite !decide_True by done; simpl; lia|].
      by rewrite !decide_False by congruence.
    + simpl. by rewrite check_uncounted.
  - simpl. destruct (accepted_charge_eq c r o h) as [(_ & Hv & Hc)|(_ & e & He)].
    + by rewrite charge_accepted.
    + simpl in He. by rewrite He.
Qed.

Lemma run_failures key ops : forall g, failures_of (run_gate ops g) key = recurrences key ops g + failures_of g key.
Proof.
  induction ops as [|op ops IH]; intros g; [done|]. cbn [run_gate foldl recurrences].
  change (foldl _ ?x ops) with (run_gate ops x). rewrite IH, step_failures. lia.
Qed.

(** The totals of each run, objective and host are the sums, from left to
    right, of every accepted charge, those that tripped a cap included: a
    charge is recorded before the caps are tested. *)
Theorem cost_totals_exact ops g k : new_cost_gate cfg = Ok g ->
  cost_of (cg_run_costs (run_gate ops g)) k = float_sum (amounts (fun x => x.1.1) k ops) /\
  cost_of (cg_objective_costs (run_gate ops g)) k = float_sum (amounts (fun x => x.1.2) k ops) /\
  cost_of (cg_host_costs (run_gate ops g)) k = float_sum (amounts (fun x => x.2) k ops).
Proof.
  intros ->%new_cost_gate_empty. split_and!.
  - by rewrite (totals_run _ (fun x => x.1.1)) by apply step_run_costs.
  - by rewrite (totals_run _ (fun x => x.1.2)) by apply step_objective_costs.
  - by rewrite (totals_run _ (fun x => x.2)) by apply step_host_costs.
Qed.

(** The circuit stays open: once a check or a charge raised
    [CostGateExceeded], after any further calls every valid check or charge
    for the same run, objective and origin raises it too. *)
Theorem breach_is_final ops ops' g op op' cap r' : new_cost_gate cfg = Ok g ->
  (gate_call op (run_gate ops g)).1 = Raise (CostGateExceeded cap r') ->
  op_scope op' = op_scope op -> valid_op op' = true ->
  exists cap', (gate_call op' (run_gate (ops ++ op :: ops') g)).1 = Raise (CostGateExceeded cap' (op_scope op').1.1).
Proof.
  intros Hnew Hraise Hscope Hv. apply raised_breached in Hraise.
  pose proof (run_grows g (ops ++ [op]) ops' Hnew) as Hg. rewrite <-(assoc_L (++)) in Hg. simpl in Hg.
  rewrite (run_app ops [op]) in Hg. change (run_gate [op] ?x) with (gate_call op x).2 in Hg.
  pose proof (breached_call (ops ++ op :: ops') g op' Hnew Hv) as Hc. rewrite Hscope in *.
  destruct (op_scope op) as [[r o] h]. apply Hc. by eapply breached_grows.
Qed.

(** The failure hard-stop: a valid check with a failure signature, no cap of
    its scope being breached, raises exactly when this recurrence of the
    signature for the objective reaches the threshold, and reports the number
    of recurrences. *)
Theorem failure_hard_stop ops g r o h s : new_cost_gate cfg = Ok g ->
  validate_inputs r o h = Ok tt -> refuse_if_breaches_cap r o h (run_gate ops g) = Ok tt ->
  truthy_str (strip s) = true ->
  let n := recurrences (o, s) ops g + 1 in
  (check r o h (Some s) (run_gate ops g)).1 =
    if cg_repeated_failure_threshold cfg <=? n then Raise (RepeatedFailureSignatureExceeded s o n) else Ok tt.
Proof.
  intros Hnew Hv Hr Hs. rewrite check_counted by done. simpl. rewrite run_failures.
  apply new_cost_gate_empty in Hnew as ->. unfold failures_of at 1 2. simpl. by rewrite Z.add_0_r.
Qed.
End Gate.

(** ** Witnesses *)

Definition demo_cfg : CostGateConfig :=
  {| cg_per_run_cost_cap := Some 1%float; cg_per_objective_cost_cap := Some 0.5%float;
     cg_per_host_cost_cap := None; cg_repeated_failure_threshold := 2 |}.
Definition demo_gate : CostGate :=
  {| cg_run_costs := []; cg_objective_costs := []; cg_host_costs := []; cg_failure_counters := [] |}.
Definition demo_ops : list gate_op :=
  [GateCharge 0.25 "run" "obj" "https://h"; GateCheck "run" "obj" "https://h" (Some "timeout")].

Lemma cost_totals_exact_witness :
  new_cost_gate demo_cfg = Ok demo_gate /\
  cost_of (cg_run_costs (run_gate demo_cfg demo_ops demo_gate)) "run" = 0.25%float.
Proof.
  split; [by vm_compute|].
  destruct (cost_totals_exact demo_cfg demo_ops demo_gate "run") as (H & _); [by vm_compute|].
  rewrite H. by vm_compute.
Defined.

Lemma breach_is_final_witness :
  exists cap, (gate_call demo_cfg (GateCheck "run" "obj" "https://h" None)
    (run_gate demo_cfg (demo_ops ++ GateCharge 0.5 "run" "obj" "https://h" :: demo_ops) demo_gate)).1 =
    Raise (CostGateExceeded cap "run").
Proof.
  apply (breach_is_final demo_cfg demo_ops demo_ops demo_gate (GateCharge 0.5 "run" "obj" "https://h")
    (GateCheck "run" "obj" "https://h" None) "per_objective_cost_cap" "run"); by vm_compute.
Defined.

Lemma failure_hard_stop_witness :
  (check demo_cfg "run" "obj" "https://h" (Some "timeout") (run_gate demo_cfg demo_ops demo_gate)).1 =
  Raise (RepeatedFailureSignatureExceeded "timeout" "obj" 2).
Proof. apply (failure_hard_stop demo_cfg demo_ops demo_gate "run" "obj" "https://h" "timeout"); by vm_compute. Defined.

(** The cap reported is the first in the order run, objective, host; here the
    objective's cap is the tighter one. *)
Example first_cap_reported :
  (gate_call demo_cfg (GateCharge 2 "run" "obj" "https://h") demo_gate).1 = Raise (CostGateExceeded "per_run_cost_cap" "run").
Proof. by vm_compute. Qed.
