(* ===== verification/Budget.v ===== *)
(** * The durable token budget

    [adapters/budget/outbox_backed_budget.py], with the contracts of
    [contracts/token_budget.py] and the token records of [contracts/agent.py].
    A charge persists a [TokenUsageEvent], appends an outbox record, and only
    then updates the totals and tests the caps; threads interleave between the
    append and the locked update. The event persister and the outbox repository
    are the caller's: the first is a parameter, the second an interface that
    [DurableStore] implements. Theorems: every exit of [charge], totals as sums
    over the durable records, breaches that stay, estimates that hold. *)
From Stdlib Require Import Floats.
From S2P Require Import Prelude PyDict PyStr PyFloat FloatArith Contracts DurableStore.
Local Open Scope Z_scope.

(** ** Token records *)

Record TokenUsage := {
  tu_prompt_tokens : Z;
  tu_completion_tokens : Z;
  tu_total_tokens : Z;
  tu_cached_input_tokens : Z;
  tu_reasoning_tokens : Z }.

Definition validate_token_usage (u : TokenUsage) : res TokenUsage :=
  do? for_each (fun '(name, value) => guard (0 <=? value) (ValidationError (name +:+ " must be non-negative")))
        [("prompt_tokens", tu_prompt_tokens u); ("completion_tokens", tu_completion_tokens u);
         ("total_tokens", tu_total_tokens u); ("cached_input_tokens", tu_cached_input_tokens u);
         ("reasoning_tokens", tu_reasoning_tokens u)] in
  do? guard (tu_total_tokens u =? tu_prompt_tokens u + tu_completion_tokens u)
        (ValidationError "total_tokens must equal prompt_tokens + completion_tokens") in
  do? guard (tu_cached_input_tokens u <=? tu_prompt_tokens u)
        (ValidationError "cached_input_tokens cannot exceed prompt_tokens") in
  do? guard (tu_reasoning_tokens u <=? tu_completion_tokens u)
        (ValidationError "reasoning_tokens cannot exceed completion_tokens") in
  Ok u.

Record TokenBudget := {
  tb_id : string;
  tb_run_ref : Ref;
  tb_max_input_tokens : option Z;
  tb_max_output_tokens : option Z;
  tb_max_total_tokens : option Z;
  tb_max_cost_usd : option float;
  tb_created_at : Z }.

Definition validate_budget (b : TokenBudget) : res TokenBudget :=
  let token_caps := [("max_input_tokens", tb_max_input_tokens b); ("max_output_tokens", tb_max_output_tokens b);
                     ("max_total_tokens", tb_max_total_tokens b)] in
  do? guard (negb (forallb (fun '(_, v) => if v is None then true else false) token_caps &&
                   (if tb_max_cost_usd b is None then true else false)))
        (ValidationError "token budget requires at least one cap (input / output / total / cost)") in
  do? for_each (fun '(name, v) =>
        guard (if v is Some v then 0 <=? v else true) (ValidationError (name +:+ " must be non-negative when set")))
        token_caps in
  do? guard (if tb_max_cost_usd b is Some v then negb (PrimFloat.ltb v 0) else true)
        (ValidationError "max_cost_usd must be non-negative when set") in
  do? guard (if tb_max_cost_usd b is Some v then isfinite v else true)
        (ValidationError "max_cost_usd must be a finite number") in
  Ok b.

(** [_ensure_non_blank], [_ensure_non_blank_identifier]: [err] is the class
    that reaches the caller, [ValidationError] inside a pydantic validator. *)
Definition ensure_non_blank (err : string -> exn) (name value : string) : res unit :=
  guard (non_blank value) (err (name +:+ " must be a non-blank identifier")).

Record TokenUsageEvent := {
  te_id : string;
  te_run_ref : Ref;
  te_request_ref : Ref;
  te_model_name : string;
  te_usage : TokenUsage;
  te_cost_usd : float;
  te_price_table_version : string;
  te_created_at : Z }.

Definition validate_event (e : TokenUsageEvent) : res TokenUsageEvent :=
  do? ensure_non_blank ValidationError "token usage event id" (te_id e) in
  do? ensure_non_blank ValidationError "run_ref" (te_run_ref e) in
  do? ensure_non_blank ValidationError "request_ref" (te_request_ref e) in
  do? ensure_non_blank ValidationError "model_name" (te_model_name e) in
  do? ensure_non_blank ValidationError "price_table_version" (te_price_table_version e) in
  do? guard (isfinite (te_cost_usd e)) (ValidationError "cost_usd must be a finite number") in
  do? guard (negb (PrimFloat.ltb (te_cost_usd e) 0)) (ValidationError "cost_usd must be non-negative") in
  Ok e.

Record TokenUsageEstimate := {
  es_request_ref : Ref;
  es_model_name : string;
  es_prompt_tokens_estimate : Z;
  es_completion_tokens_estimate : Z;
  es_cost_usd_estimate : float }.

Definition validate_estimate (e : TokenUsageEstimate) : res TokenUsageEstimate :=
  do? ensure_non_blank ValidationError "token usage estimate request_ref" (es_request_ref e) in
  do? ensure_non_blank ValidationError "token usage estimate model_name" (es_model_name e) in
  do? for_each (fun '(name, value) => guard (0 <=? value) (ValidationError (name +:+ " must be non-negative")))
        [("prompt_tokens_estimate", es_prompt_tokens_estimate e);
         ("completion_tokens_estimate", es_completion_tokens_estimate e)] in
  do? guard (isfinite (es_cost_usd_estimate e)) (ValidationError "cost_usd_estimate must be a finite number") in
  do? guard (negb (PrimFloat.ltb (es_cost_usd_estimate e) 0))
        (ValidationError "cost_usd_estimate must be non-negative") in
  Ok e.

(** The fields of a [ProviderRequest] the budget reads. A [str] is its UTF-8
    bytes, so [len(content.encode(utf-8))] is its length. *)
Record ProviderRequest := {
  pr_id : string;
  pr_model_name : string;
  pr_message_contents : list string;
  pr_max_output_tokens : Z }.

(** ** Prices *)

(** A value of the JSON price table. [bool] is one of the others. *)
Inductive price_value :=
  | PvFloat (x : float)
  | PvInt (n : Z)
  | PvOther.

Record ProviderPriceTable := {
  pt_version : string;
  pt_prices : dict string (dict string price_value) }.

(** [math.isfinite(value)]: an [int] is converted first. *)
Definition price_isfinite (v : price_value) : res bool :=
  match v with
  | PvFloat x => Ok (isfinite x)
  | PvInt n => let? x := float_of_int n in Ok (isfinite x)
  | PvOther => Raise (TypeError "must be real number")
  end.
Definition price_negative (v : price_value) : bool :=
  match v with PvFloat x => PrimFloat.ltb x 0 | PvInt n => n <? 0 | PvOther => false end.

Definition check_price (entry : dict string price_value) (key : string) : res unit :=
  match dict_get entry key with
  | None => Raise (ValueError "price table entry is missing a key")
  | Some value =>
      do? guard (if value is PvOther then false else true) (ValueError "price table entry must be a number") in
      let? finite := price_isfinite value in
      do? guard finite (ValueError "price table entry must be finite") in
      guard (negb (price_negative value)) (ValueError "price table entry must be non-negative")
  end.

Definition check_entry (me : string * dict string price_value) : res unit :=
  do? ensure_non_blank ValueError "price table model_name" me.1 in
  for_each (check_price me.2) ["input_per_1k"; "output_per_1k"].

(** [ProviderPriceTable.__init__] *)
Definition new_price_table (version : string) (prices : dict string (dict string price_value)) : res ProviderPriceTable :=
  do? ensure_non_blank ValueError "price table version" version in
  do? for_each check_entry prices in
  Ok {| pt_version := version; pt_prices := prices |}.

(** [tokens * entry[key] / 1000.0] *)
Definition price_of (tokens : Z) (entry : dict string price_value) (key : string) : res float :=
  match dict_get entry key with
  | None => Raise (KeyError key)
  | Some (PvFloat price) => let? t := float_of_int tokens in Ok (t * price / 1000)%float
  | Some (PvInt price) => let? t := float_of_int (tokens * price) in Ok (t / 1000)%float
  | Some PvOther => Raise (TypeError "unsupported operand")
  end.

Definition cost_for (t : ProviderPriceTable) (model_name : string) (prompt_tokens completion_tokens : Z) : res float :=
  match dict_get (pt_prices t) model_name with
  | None => Raise (ValueError "no price entry for model")
  | Some entry =>
      let? input := price_of prompt_tokens entry "input_per_1k" in
      let? output := price_of completion_tokens entry "output_per_1k" in
      Ok (input + output)%float
  end.

(** [DefaultUsageEstimator.estimate] *)
Definition estimate (request : ProviderRequest) : Z * Z :=
  let prompt_bytes := foldr (fun content n => Z.of_nat (String.length content) + n) 0 (pr_message_contents request) in
  (Z.max 1 ((prompt_bytes + 3) / 4), Z.min (pr_max_output_tokens request) 256).

(** ** The outbox repository, as the budget sees it

    [append_outbox] files a record under its id, or raises and files nothing. *)
Class OutboxRepo (O : Type) := {
  repo_append : OutboxRecord -> M O Ref;
  repo_view : O -> dict Ref OutboxRecord;
  repo_append_ok : forall r s a s', repo_append r s = (Ok a, s') ->
    dict_equiv (repo_view s') (dict_set (repo_view s) (ob_id r) r);
  repo_append_raise : forall r s e s', repo_append r s = (Raise e, s') ->
    dict_equiv (repo_view s') (repo_view s) }.

#[export] Instance durable_store_outbox : OutboxRepo Store.
Proof.
  refine {| repo_append := append_outbox; repo_view := outbox_records |}.
  - intros r s a s' [= <- <-]. reflexivity.
  - intros r s e s' [=].
Defined.

(** ** The budget *)

Record BudgetConfig := {
  bc_budget : TokenBudget;
  bc_price_table : ProviderPriceTable;
  bc_run_ref : Ref;
  bc_command_result_ref : Ref;
  bc_event_ref : Ref;
  bc_production : bool }.

Record BudgetTotals := {
  bt_prompt : Z;
  bt_completion : Z;
  bt_cost_usd : float;
  bt_charged_count : Z }.

(** [OutboxBackedBudget.__init__]; [bc_production] is the resolved mode. *)
Definition new_budget (c : BudgetConfig) : res BudgetTotals :=
  do? guard (negb (bc_production c))
        (ProductionRuntimeNotImplemented "outbox_backed_budget" "phase_4_step_4_5_production_persist") in
  do? ensure_non_blank ValueError "run_ref" (bc_run_ref c) in
  do? ensure_non_blank ValueError "command_result_ref" (bc_command_result_ref c) in
  do? ensure_non_blank ValueError "event_ref" (bc_event_ref c) in
  do? guard (bool_decide (tb_run_ref (bc_budget c) = bc_run_ref c))
        (ValueError "budget.run_ref must equal the budget's bound run_ref") in
  Ok {| bt_prompt := 0; bt_completion := 0; bt_cost_usd := 0; bt_charged_count := 0 |}.

(** What the code draws from outside in one charge: a uuid and two readings of
    the wall clock, one per record built. *)
Record Draw := { dr_uuid_hex : string; dr_event_at : Z; dr_outbox_at : Z }.

Section Budget.
Context {P O : Type} `{Repo : OutboxRepo O} (persist : TokenUsageEvent -> M P Ref) (cfg : BudgetConfig).

Record World := { wd_totals : BudgetTotals; wd_persister : P; wd_outbox : O }.

Definition over (x : Z) (cap : option Z) : bool := if cap is Some c then c <? x else false.
Definition over_cost (x : float) (cap : option float) : bool := if cap is Some c then PrimFloat.ltb c x else false.

(** [_refuse_if_breaches_cap] *)
Definition refuse_if_breaches_cap (prompt completion : Z) (cost : float) : res unit :=
  let b := bc_budget cfg in
  do? guard (negb (over prompt (tb_max_input_tokens b))) TokenBudgetExceeded in
  do? guard (negb (over completion (tb_max_output_tokens b))) TokenBudgetExceeded in
  do? guard (negb (over (prompt + completion) (tb_max_total_tokens b))) TokenBudgetExceeded in
  guard (negb (over_cost cost (tb_max_cost_usd b))) TokenBudgetExceeded.

Definition refuse_totals (t : BudgetTotals) : res unit :=
  refuse_if_breaches_cap (bt_prompt t) (bt_completion t) (bt_cost_usd t).

Definition estimate_charge (request : ProviderRequest) (t : BudgetTotals) : res TokenUsageEstimate :=
  let '(prompt_estimate, completion_estimate) := estimate request in
  let? cost_estimate := cost_for (bc_price_table cfg) (pr_model_name request) prompt_estimate completion_estimate in
  do? refuse_if_breaches_cap (bt_prompt t + prompt_estimate) (bt_completion t + completion_estimate)
        (bt_cost_usd t + cost_estimate)%float in
  validate_estimate
    {| es_request_ref := pr_id request; es_model_name := pr_model_name request;
       es_prompt_tokens_estimate := prompt_estimate; es_completion_tokens_estimate := completion_estimate;
       es_cost_usd_estimate := cost_estimate |}.

(** [_infer_model_name_for_request] *)
Definition infer_model_name (request_ref : Ref) : res string :=
  match dict_keys (pt_prices (bc_price_table cfg)) with
  | [model] => Ok model
  | models =>
      match head (filter (fun candidate => str_contains candidate request_ref = true) models) with
      | Some candidate => Ok candidate
      | None => Raise (ValueError "could not infer model_name from request_ref")
      end
  end.

(** [_build_outbox_record] *)
Definition build_outbox_record (event : TokenUsageEvent) (payload_ref : Ref) (now : Z) : OutboxRecord :=
  {| ob_id := "outbox:" +:+ te_id event; ob_run_ref := bc_run_ref cfg;
     ob_command_result_ref := bc_command_result_ref cfg; ob_event_ref := bc_event_ref cfg;
     ob_dispatch_topic := "token-usage"; ob_payload_ref := payload_ref; ob_idempotency_key := te_id event;
     ob_status := OB_PENDING; ob_attempt_count := 0; ob_dispatched_at_ref := None; ob_last_error_ref := None;
     ob_created_at := now |}.

Definition on_persister {A} (m : M P A) : M World A := fun w =>
  let '(r, p) := m (wd_persister w) in
  (r, {| wd_totals := wd_totals w; wd_persister := p; wd_outbox := wd_outbox w |}).
Definition on_outbox {A} (m : M O A) : M World A := fun w =>
  let '(r, o) := m (wd_outbox w) in
  (r, {| wd_totals := wd_totals w; wd_persister := wd_persister w; wd_outbox := o |}).
Definition set_totals (f : BudgetTotals -> BudgetTotals) (w : World) : World :=
  {| wd_totals := f (wd_totals w); wd_persister := wd_persister w; wd_outbox := wd_outbox w |}.

(** The event a charge builds, before anything is written. *)
Definition charge_event (usage : TokenUsage) (request_ref : Ref) (d : Draw) : res TokenUsageEvent :=
  do? ensure_non_blank ValueError "request_ref" request_ref in
  let? model_name := infer_model_name request_ref in
  let? cost_usd := cost_for (bc_price_table cfg) model_name (tu_prompt_tokens usage) (tu_completion_tokens usage) in
  validate_event
    {| te_id := "token-usage:" +:+ dr_uuid_hex d; te_run_ref := bc_run_ref cfg; te_request_ref := request_ref;
       te_model_name := model_name; te_usage := usage; te_cost_usd := cost_usd;
       te_price_table_version := pt_version (bc_price_table cfg); te_created_at := dr_event_at d |}.

(** [charge] up to its lock: the durable part. *)
Definition charge_record (usage : TokenUsage) (request_ref : Ref) (d : Draw) : M World TokenUsageEvent :=
  let* event := lift (charge_event usage request_ref d) in
  let* payload_ref := on_persister (persist event) in
  let* record := lift (validate_outbox (build_outbox_record event payload_ref (dr_outbox_at d))) in
  do* on_outbox (repo_append record) in
  ret event.

(** [charge] under its lock: the totals, then the caps. *)
Definition add_usage (event : TokenUsageEvent) (t : BudgetTotals) : BudgetTotals :=
  {| bt_prompt := bt_prompt t + tu_prompt_tokens (te_usage event);
     bt_completion := bt_completion t + tu_completion_tokens (te_usage event);
     bt_cost_usd := (bt_cost_usd t + te_cost_usd event)%float;
     bt_charged_count := bt_charged_count t + 1 |}.

Definition settle (event : TokenUsageEvent) : M World unit :=
  do* modify (set_totals (add_usage event)) in
  fun w => (refuse_totals (wd_totals w), w).

Definition charge (usage : TokenUsage) (request_ref : Ref) (d : Draw) : M World unit :=
  let* event := charge_record usage request_ref d in settle event.

(** ** Threads

    Any number of threads charge: each records durably, then takes the lock.
    [cf_pending] holds the events recorded and not settled yet, [cf_settled]
    the settled ones in order. *)
Record Conf := { cf_world : World; cf_pending : list TokenUsageEvent; cf_settled : list TokenUsageEvent }.

Definition recorded (c : Conf) : list TokenUsageEvent := cf_settled c ++ cf_pending c.

Inductive budget_step : Conf -> Conf -> Prop :=
  | StepRecord c usage request_ref d event w' :
      validate_token_usage usage = Ok usage ->
      (forall e, e ∈ recorded c -> te_id e <> "token-usage:" +:+ dr_uuid_hex d) ->
      charge_record usage request_ref d (cf_world c) = (Ok event, w') ->
      budget_step c {| cf_world := w'; cf_pending := cf_pending c ++ [event]; cf_settled := cf_settled c |}
  | StepRecordRaises c usage request_ref d e w' :
      charge_record usage request_ref d (cf_world c) = (Raise e, w') ->
      budget_step c {| cf_world := w'; cf_pending := cf_pending c; cf_settled := cf_settled c |}
  | StepSettle c event before after r w' :
      cf_pending c = before ++ event :: after ->
      settle event (cf_world c) = (r, w') ->
      budget_step c {| cf_world := w'; cf_pending := before ++ after; cf_settled := cf_settled c ++ [event] |}.

Definition initial (c : Conf) : Prop :=
  new_budget cfg = Ok (wd_totals (cf_world c)) /\ cf_pending c = [] /\ cf_settled c = [].

(** The sums of a list of events: exact ones of the tokens, and the cost added
    in order, in the code's floats. *)
Definition sum_over (f : TokenUsageEvent -> Z) (events : list TokenUsageEvent) : Z := foldr Z.add 0 (f <$> events).
Definition cost_over (events : list TokenUsageEvent) : float := foldl PrimFloat.add 0%float (te_cost_usd <$> events).
Definition ledger (events : list TokenUsageEvent) : BudgetTotals :=
  {| bt_prompt := sum_over (fun e => tu_prompt_tokens (te_usage e)) events;
     bt_completion := sum_over (fun e => tu_completion_tokens (te_usage e)) events;
     bt_cost_usd := cost_over events;
     bt_charged_count := Z.of_nat (length events) |}.

Definition outbox_id (e : TokenUsageEvent) : Ref := "outbox:" +:+ te_id e.

(** The reference is the one a call of the persister returned for the event. *)
Definition persisted_as (e : TokenUsageEvent) (payload : Ref) : Prop := exists p p', persist e p = (Ok payload, p').

(** ** Lemmas: prices *)

Lemma price_of_nonneg tokens entry key x :
  0 <= tokens -> check_price entry key = Ok tt -> price_of tokens entry key = Ok x -> PrimFloat.leb 0 x = true.
Proof.
  unfold check_price, price_of. intros Ht. destruct (dict_get entry key) as [[p|n|]|]; [..|done|done]; intros Hc Hp.
  - run_m Hc. run_m Hp. apply guard_ok, negb_true_iff in Hc.
    match goal with Hf : guard (isfinite _) _ = _ |- _ => apply guard_ok, isfinite_finite in Hf end.
    match goal with Hf : float_of_int _ = _ |- _ => apply float_of_int_nonneg in Hf as [Hf Hfin]; [|done] end.
    apply nonneg_div; [|done|done]. apply nonneg_mul; [done| |done|done]. by apply not_ltb_leb.
  - run_m Hc. run_m Hp. apply guard_ok, negb_true_iff, Z.ltb_ge in Hc.
    match goal with Hf : float_of_int (_ * _) = _ |- _ => apply float_of_int_nonneg in Hf as [Hf Hfin]; [|lia] end.
    by apply nonneg_div.
Qed.

Lemma cost_for_nonneg version prices t model p c x :
  new_price_table version prices = Ok t -> 0 <= p -> 0 <= c -> cost_for t model p c = Ok x -> PrimFloat.leb 0 x = true.
Proof.
  unfold new_price_table, cost_for. intros Ht Hp Hc. run_m Ht. simpl. destruct (dict_get prices model) as [entry|] eqn:E; [|done].
  intros Hx. run_m Hx.
  assert (check_entry (model, entry) = Ok tt) as Hentry.
  { destruct a0. eapply (proj1 (for_each_ok _ _)); [done|]. by apply dict_get_Some_in. }
  unfold check_entry in Hentry. apply rbind_ok in Hentry as (? & _ & Hentry).
  pose proof (proj1 (for_each_ok _ _) Hentry) as Hprice.
  apply nonneg_add; (eapply price_of_nonneg; [| |eassumption]; [done|]); apply Hprice; simpl; set_solver.
Qed.

(** ** Lemmas: one charge *)

Lemma charge_event_ok u ref d e : charge_event u ref d = Ok e ->
  validate_event e = Ok e /\ te_id e = "token-usage:" +:+ dr_uuid_hex d /\ te_usage e = u /\ te_run_ref e = bc_run_ref cfg /\
  PrimFloat.leb 0 (te_cost_usd e) = true.
Proof.
  unfold charge_event. intros H. run_m H.
  assert (e = {| te_id := "token-usage:" +:+ dr_uuid_hex d; te_run_ref := bc_run_ref cfg; te_request_ref := ref;
    te_model_name := a0; te_usage := u; te_cost_usd := a1;
    te_price_table_version := pt_version (bc_price_table cfg); te_created_at := dr_event_at d |}) as ->
    by (clear -H; unfold validate_event in H; run_m H; done).
  split_and!; try done. unfold validate_event in H. run_m H. simpl in *.
  match goal with Hf : guard (isfinite _) _ = _ |- _ => apply guard_ok, isfinite_finite in Hf end.
  match goal with Hf : guard (negb _) _ = _ |- _ => apply guard_ok, negb_true_iff in Hf end.
  by apply not_ltb_leb.
Qed.

Lemma build_outbox_valid e payload now :
  validate_outbox (build_outbox_record e payload now) = Ok (build_outbox_record e payload now).
Proof. done. Qed.

Lemma charge_record_ok u ref d (w : World) e w' : charge_record u ref d w = (Ok e, w') ->
  charge_event u ref d = Ok e /\ wd_totals w' = wd_totals w /\
  exists payload, persisted_as e payload /\ dict_equiv (repo_view (wd_outbox w'))
    (dict_set (repo_view (wd_outbox w)) (outbox_id e) (build_outbox_record e payload (dr_outbox_at d))).
Proof.
  unfold charge_record, lift, on_persister, on_outbox. intros Hrun. run_m Hrun.
  destruct (persist _ _) as [[payload|] p'] eqn:Hp; simplify_eq/=.
  destruct (repo_append _ _) as [[r|] o'] eqn:Ho; simplify_eq/=. split; [done|]. split; [done|].
  rewrite build_outbox_valid in *. simplify_eq. eexists. split; [by eexists _, _|exact (repo_append_ok _ _ _ _ Ho)].
Qed.

Lemma charge_record_raise u ref d (w : World) err w' : charge_record u ref d w = (Raise err, w') ->
  wd_totals w' = wd_totals w /\ dict_equiv (repo_view (wd_outbox w')) (repo_view (wd_outbox w)).
Proof.
  unfold charge_record, bind, lift, on_persister, on_outbox.
  destruct (charge_event u ref d) as [e|]; [|intros [= <- <-]; done].
  destruct (persist e (wd_persister w)) as [[payload|] p']; simpl; [|intros [= <- <-]; done].
  destruct (repo_append _ (wd_outbox w)) as [[r|] o'] eqn:Ho; simpl; [done|intros [= <- <-]; simpl].
  split; [done|]. by eapply repo_append_raise.
Qed.

Lemma budget_refuse_cases p c x :
  refuse_if_breaches_cap p c x = Ok tt \/ refuse_if_breaches_cap p c x = Raise TokenBudgetExceeded.
Proof.
  unfold refuse_if_breaches_cap. destruct (negb (over p _)); simpl; [|by right].
  destruct (negb (over c _)); simpl; [|by right]. destruct (negb (over (p + c) _)); simpl; [|by right].
  destruct (negb _); [by left|by right].
Qed.

Lemma over_mono x y cap : over y cap = false -> x <= y -> over x cap = false.
Proof. destruct cap as [c|]; simpl; [|done]. rewrite !Z.ltb_ge. lia. Qed.

Lemma over_cost_mono x y cap : over_cost y cap = false -> PrimFloat.leb x y = true -> over_cost x cap = false.
Proof.
  destruct cap as [c|]; simpl; [|done]. intros Hy Hle. destruct (PrimFloat.ltb c x) eqn:E; [|done].
  by rewrite (ltb_leb_trans _ _ _ E Hle) in Hy.
Qed.

Lemma budget_refuse_ok p c x : refuse_if_breaches_cap p c x = Ok tt <->
  over p (tb_max_input_tokens (bc_budget cfg)) = false /\ over c (tb_max_output_tokens (bc_budget cfg)) = false /\
  over (p + c) (tb_max_total_tokens (bc_budget cfg)) = false /\ over_cost x (tb_max_cost_usd (bc_budget cfg)) = false.
Proof.
  unfold refuse_if_breaches_cap. destruct (over p _); simpl; [intuition congruence|].
  destruct (over c _); simpl; [intuition congruence|]. destruct (over (p + c) _); simpl; [intuition congruence|].
  destruct (over_cost x _); simpl; intuition congruence.
Qed.

Lemma refuse_mono p c x p' c' x' : p <= p' -> c <= c' -> PrimFloat.leb x x' = true ->
  refuse_if_breaches_cap p' c' x' = Ok tt -> refuse_if_breaches_cap p c x = Ok tt.
Proof.
  intros Hp Hc Hx. rewrite !budget_refuse_ok. intros (H1 & H2 & H3 & H4). split_and!.
  - by apply (over_mono _ p').
  - by apply (over_mono _ c').
  - apply (over_mono _ (p' + c')); [done|lia].
  - by apply (over_cost_mono _ x').
Qed.

(** ** Lemmas: the ledger of interleaved charges *)

Definition typed_event (e : TokenUsageEvent) : Prop :=
  validate_event e = Ok e /\ validate_token_usage (te_usage e) = Ok (te_usage e) /\ te_run_ref e = bc_run_ref cfg /\
  PrimFloat.leb 0 (te_cost_usd e) = true.

Definition typed_totals (t : BudgetTotals) : Prop :=
  0 <= bt_prompt t /\ 0 <= bt_completion t /\ PrimFloat.leb 0 (bt_cost_usd t) = true.

Lemma typed_usage u : validate_token_usage u = Ok u -> 0 <= tu_prompt_tokens u /\ 0 <= tu_completion_tokens u.
Proof.
  unfold validate_token_usage. simpl for_each. destruct (0 <=? tu_prompt_tokens u) eqn:Hp; [|done].
  destruct (0 <=? tu_completion_tokens u) eqn:Hc; [|done]. lia.
Qed.

Definition totals_le (t t' : BudgetTotals) : Prop :=
  bt_prompt t <= bt_prompt t' /\ bt_completion t <= bt_completion t' /\
  PrimFloat.leb (bt_cost_usd t) (bt_cost_usd t') = true.

Lemma add_usage_grows e t : typed_event e -> typed_totals t -> typed_totals (add_usage e t) /\ totals_le t (add_usage e t).
Proof.
  intros (_ & [Hp Hc]%typed_usage & _ & He) (Htp & Htc & Ht). unfold typed_totals, totals_le. simpl.
  split_and!; try lia; [by apply nonneg_add|by apply leb_add_r].
Qed.

Lemma sum_over_snoc f es e : sum_over f (es ++ [e]) = sum_over f es + f e.
Proof. unfold sum_over. rewrite fmap_app, foldr_app. simpl. induction (f <$> es); simpl; lia. Qed.

Lemma ledger_snoc es e : ledger (es ++ [e]) = add_usage e (ledger es).
Proof.
  unfold ledger, add_usage. rewrite !sum_over_snoc. unfold cost_over. rewrite fmap_app, foldl_app, length_app.
  simpl. f_equal. lia.
Qed.

Lemma ledger_typed es : Forall typed_event es -> typed_totals (ledger es).
Proof.
  induction es as [|e es IH] using rev_ind; [done|]. intros [Hes [He _]%Forall_cons]%Forall_app.
  rewrite ledger_snoc. by destruct (add_usage_grows e (ledger es) He (IH Hes)).
Qed.

(** What holds of every configuration, [v0] being the outbox at the start. *)
Record ledger_inv (v0 : dict Ref OutboxRecord) (c : Conf) : Prop := {
  li_totals : wd_totals (cf_world c) = ledger (cf_settled c);
  li_typed : Forall typed_event (recorded c);
  li_ids : NoDup (te_id <$> recorded c);
  li_outbox : forall e, e ∈ recorded c -> exists payload now, persisted_as e payload /\
    dict_get (repo_view (wd_outbox (cf_world c))) (outbox_id e) = Some (build_outbox_record e payload now);
  li_rest : forall k, k ∉ outbox_id <$> recorded c -> dict_get (repo_view (wd_outbox (cf_world c))) k = dict_get v0 k }.

Lemma recorded_perm (before after settled : list TokenUsageEvent) event :
  (settled ++ [event]) ++ before ++ after ≡ₚ settled ++ before ++ event :: after.
Proof. rewrite <-app_assoc. simpl. by rewrite Permutation_middle. Qed.

Lemma ledger_step v0 : preserved budget_step (ledger_inv v0).
Proof.
  intros c c' Hstep [Ht Hty Hids Hout Hrest]. destruct Hstep as [c u ref d e w' Hu Hfresh Hrun|c u ref d err w' Hrun|c e b a r w' Hp Hrun].
  - apply charge_record_ok in Hrun as (He & Htot & payload & Hpay & Hview).
    apply charge_event_ok in He as (Hev & Hid & Hus & Hrr & Hcost).
    assert (te_id e ∉ te_id <$> recorded c) as Hnew.
    { intros (e' & Hid' & Hin)%list_elem_of_fmap. apply (Hfresh _ Hin). congruence. }
    assert (forall e', e' ∈ recorded c -> outbox_id e <> outbox_id e') as Hne.
    { intros e' Hin Heq. apply Hnew, list_elem_of_fmap. exists e'. split; [|done].
      unfold outbox_id in Heq. by apply (inj (String.append "outbox:")) in Heq. }
    split; unfold recorded in *; simpl; rewrite ?app_assoc.
    + by rewrite Htot.
    + apply Forall_app. split; [done|]. apply Forall_singleton. unfold typed_event. by rewrite Hus.
    + rewrite (fmap_app _ (_ ++ _)). apply NoDup_app. split_and!; [done| |apply NoDup_singleton].
      intros x Hx ->%list_elem_of_singleton. done.
    + intros e' [Hin| ->%list_elem_of_singleton]%elem_of_app.
      * rewrite Hview, dict_get_set, decide_False by (intros Heq; by apply (Hne e')). by apply Hout.
      * eexists _, _. split; [exact Hpay|]. by rewrite Hview, dict_get_set_eq.
    + intros k Hk. rewrite (fmap_app _ (_ ++ _)), not_elem_of_app in Hk. destruct Hk as [Hk Hk'].
      rewrite Hview, dict_get_set, decide_False; [by apply Hrest|]. intros ->. apply Hk'. by left.
  - apply charge_record_raise in Hrun as [Htot Hview].
    split; unfold recorded in *; simpl; [by rewrite Htot|done|done| |].
    + intros e Hin. rewrite Hview. by apply Hout.
    + intros k Hk. rewrite Hview. by apply Hrest.
  - unfold settle, bind, modify in Hrun. simplify_eq. pose proof (recorded_perm b a (cf_settled c) e) as HP.
    split; unfold recorded in *; rewrite ?Hp in *; simpl.
    + by rewrite ledger_snoc, Ht.
    + by rewrite HP.
    + by rewrite HP.
    + intros e' Hin. apply Hout. by rewrite <-HP.
    + intros k Hk. apply Hrest. by rewrite <-HP.
Qed.

Lemma initial_inv c : initial c -> ledger_inv (repo_view (wd_outbox (cf_world c))) c.
Proof.
  intros (Hnew & Hp & Hs). split; unfold recorded; rewrite ?Hp, ?Hs; simpl; [|constructor|constructor| |done].
  - unfold new_budget in Hnew. run_m Hnew. done.
  - by intros e ?%elem_of_nil.
Qed.

Lemma reachable_inv c0 c : initial c0 -> rtc budget_step c0 c ->
  ledger_inv (repo_view (wd_outbox (cf_world c0))) c.
Proof. intros Hi Hr. eapply rtc_preserved; [apply ledger_step|exact Hr|by apply initial_inv]. Qed.

Lemma reachable_grows v0 c c' : rtc budget_step c c' -> ledger_inv v0 c ->
  totals_le (wd_totals (cf_world c)) (wd_totals (cf_world c')).
Proof.
  intros Hr. induction Hr as [c|c c1 c' Hs Hr IH]; intros Hi.
  - pose proof (ledger_typed (cf_settled c)) as Ht. destruct Hi as [Htot Hty _ _ _].
    apply Forall_app in Hty as [Hty _]. specialize (Ht Hty). rewrite Htot. destruct Ht as (_ & _ & Ht).
    split_and!; try lia. apply leb_refl. by apply leb_not_nan in Ht as [_ ?].
  - pose proof (ledger_step v0 _ _ Hs Hi) as Hi1. specialize (IH Hi1).
    assert (wd_totals (cf_world c) = wd_totals (cf_world c1) \/ totals_le (wd_totals (cf_world c)) (wd_totals (cf_world c1))) as [->|(H1 & H2 & H3)]; [|done|].
    { destruct Hi as [Htot Hty _ _ _]. destruct Hs as [c u ref d e w' Hu Hfresh Hrun|c u ref d err w' Hrun|c e b a r w' Hp Hrun].
      - left. apply charge_record_ok in Hrun as (_ & Ht & _). by rewrite <-Ht.
      - left. apply charge_record_raise in Hrun as [Ht _]. by rewrite <-Ht.
      - right. unfold settle, bind, modify in Hrun. simplify_eq/=. apply Forall_app in Hty as [Hts Hty].
        rewrite Hp in Hty. apply Forall_app in Hty as [_ [He _]%Forall_cons].
        apply add_usage_grows; [done|]. rewrite Htot. by apply ledger_typed. }
    destruct IH as (J1 & J2 & J3). split_and!; try lia. eapply leb_trans; [exact H3|exact J3].
Qed.

(** ** Theorems *)

(** Every exit of [charge]: either it raised with the outbox and the totals as
    they were, or exactly one outbox record, that of the charge's event, was
    filed and the usage was added to the totals; in the second case it returns
    if the new totals are within the caps and raises [TokenBudgetExceeded] if
    they are not. A breach is never raised without its durable record. *)
Theorem charge_durable_first usage ref d (w : World) r w' : charge usage ref d w = (r, w') ->
  (exists e, r = Raise e /\ wd_totals w' = wd_totals w /\
     dict_equiv (repo_view (wd_outbox w')) (repo_view (wd_outbox w))) \/
  (exists event payload, charge_event usage ref d = Ok event /\
     dict_equiv (repo_view (wd_outbox w'))
       (dict_set (repo_view (wd_outbox w)) (outbox_id event) (build_outbox_record event payload (dr_outbox_at d))) /\
     wd_totals w' = add_usage event (wd_totals w) /\
     r = refuse_totals (wd_totals w')).
Proof.
  unfold charge, bind at 1. destruct (charge_record usage ref d w) as [[event|e] w1] eqn:Hrun.
  - apply charge_record_ok in Hrun as (He & Ht & payload & _ & Hv). intros Hs. right. exists event, payload.
    unfold settle, bind, modify in Hs. injection Hs as <- <-. simpl. by rewrite Ht.
  - apply charge_record_raise in Hrun as [Ht Hv]. intros [= <- <-]. left. by exists e.
Qed.

(** C31: Under any interleaving of charges with fresh uuids, the totals are the
    sums over the settled events: of their prompt tokens, of their completion
    tokens, of their costs (added as floats in order of settlement), and their
    number. Every recorded event, settled or in flight, has an outbox record
    under its own id, whose payload is the reference the persister returned for
    that event, and the ids are distinct; no other record of the outbox has
    changed. So once no charge is in flight, the totals are those of the events
    the outbox records stand for. *)
Theorem totals_match_durable_record c0 c : initial c0 -> rtc budget_step c0 c ->
  (bt_prompt (wd_totals (cf_world c)) = foldr Z.add 0 ((fun e => tu_prompt_tokens (te_usage e)) <$> cf_settled c) /\
   bt_completion (wd_totals (cf_world c)) = foldr Z.add 0 ((fun e => tu_completion_tokens (te_usage e)) <$> cf_settled c) /\
   bt_cost_usd (wd_totals (cf_world c)) = foldl PrimFloat.add 0%float (te_cost_usd <$> cf_settled c) /\
   bt_charged_count (wd_totals (cf_world c)) = Z.of_nat (length (cf_settled c))) /\
  NoDup (te_id <$> recorded c) /\
  (forall e, e ∈ recorded c -> exists payload now, persisted_as e payload /\
    dict_get (repo_view (wd_outbox (cf_world c))) (outbox_id e) = Some (build_outbox_record e payload now)) /\
  (forall k, k ∉ outbox_id <$> recorded c ->
    dict_get (repo_view (wd_outbox (cf_world c))) k = dict_get (repo_view (wd_outbox (cf_world c0))) k).
Proof. intros Hi Hr. destruct (reachable_inv c0 c Hi Hr) as [-> ? ? ? ?]. done. Qed.

(** C32: Whatever the interleaving, every event that reaches the durable record is
    well-formed: its usage satisfies the token invariants, its cost is a finite
    non-negative number, it names the budget's run; and the totals are
    non-negative numbers. *)
Theorem recorded_events_typed c0 c : initial c0 -> rtc budget_step c0 c ->
  (forall e, e ∈ recorded c -> validate_event e = Ok e /\
     validate_token_usage (te_usage e) = Ok (te_usage e) /\ te_run_ref e = bc_run_ref cfg) /\
  0 <= bt_prompt (wd_totals (cf_world c)) /\ 0 <= bt_completion (wd_totals (cf_world c)) /\
  PrimFloat.leb 0 (bt_cost_usd (wd_totals (cf_world c))) = true.
Proof.
  intros Hi Hr. destruct (reachable_inv c0 c Hi Hr) as [Ht Hty _ _ _]. split.
  - intros e He. rewrite Forall_forall in Hty. destruct (Hty e He) as (? & ? & ? & _). done.
  - rewrite Ht. apply ledger_typed. by apply Forall_app in Hty as [? _].
Qed.

(** A breach stays: once the totals exceed a cap, at any later time every
    charge that settles raises [TokenBudgetExceeded], and so does every
    estimate that can be priced. *)
Theorem budget_breach_stays version prices c0 c c' :
  new_price_table version prices = Ok (bc_price_table cfg) ->
  initial c0 -> rtc budget_step c0 c -> refuse_totals (wd_totals (cf_world c)) <> Ok tt -> rtc budget_step c c' ->
  (forall e, e ∈ cf_pending c' -> (settle e (cf_world c')).1 = Raise TokenBudgetExceeded) /\
  (forall request cost, 0 < pr_max_output_tokens request ->
     cost_for (bc_price_table cfg) (pr_model_name request) (estimate request).1 (estimate request).2 = Ok cost ->
     estimate_charge request (wd_totals (cf_world c')) = Raise TokenBudgetExceeded).
Proof.
  intros Htab Hi Hr Hb Hr'. pose proof (reachable_inv c0 c Hi Hr) as Hinv.
  pose proof (reachable_grows _ c c' Hr' Hinv) as (G1 & G2 & G3).
  assert (rtc budget_step c0 c') as Hr0 by (etrans; eassumption).
  destruct (reachable_inv c0 c' Hi Hr0) as [Ht' Hty' _ _ _].
  assert (typed_totals (wd_totals (cf_world c'))) as Hty.
  { rewrite Ht'. apply ledger_typed. by apply Forall_app in Hty' as [? _]. }
  assert (forall p q x, bt_prompt (wd_totals (cf_world c')) <= p -> bt_completion (wd_totals (cf_world c')) <= q ->
    PrimFloat.leb (bt_cost_usd (wd_totals (cf_world c'))) x = true ->
    refuse_if_breaches_cap p q x = Raise TokenBudgetExceeded) as Hall.
  { intros p q x Hp Hq Hx. destruct (budget_refuse_cases p q x) as [Hok|?]; [|done]. destruct Hb.
    apply (refuse_mono _ _ _ p q x); [lia|lia| |done]. eapply leb_trans; [exact G3|exact Hx]. }
  split.
  - intros e He. assert (typed_event e) as Hte.
    { rewrite Forall_forall in Hty'. apply Hty', elem_of_app. by right. }
    destruct (add_usage_grows e _ Hte Hty) as [_ (? & ? & ?)]. unfold settle, bind, modify. simpl. by apply Hall.
  - intros request cost Hmax Hcost. unfold estimate_charge.
    destruct (estimate request) as [pe ce] eqn:Hest. unfold estimate in Hest. injection Hest as Hpe Hce.
    simpl in Hcost. rewrite Hcost. simpl. rewrite Hall; [done|lia|lia|].
    apply leb_add_r; [apply Hty|]. eapply cost_for_nonneg; [exact Htab| | |exact Hcost]; lia.
Qed.

(** An estimate holds: if [estimate_charge] accepted a request and the usage
    then charged, under the same model and with no charge in between, is the
    estimated one, the charge does not exceed the budget. *)
Theorem estimate_holds request est usage d (w : World) r w' :
  estimate_charge request (wd_totals w) = Ok est ->
  infer_model_name (pr_id request) = Ok (pr_model_name request) ->
  tu_prompt_tokens usage = es_prompt_tokens_estimate est ->
  tu_completion_tokens usage = es_completion_tokens_estimate est ->
  charge usage (pr_id request) d w = (r, w') ->
  r = Ok tt \/ wd_totals w' = wd_totals w.
Proof.
  unfold estimate_charge. destruct (estimate request) as [pe ce]. intros Hest Hinf Hp Hc.
  apply rbind_ok in Hest as (cost & Hcost & Hest). apply rbind_ok in Hest as ([] & Hcap & Hest).
  assert (est = {| es_request_ref := pr_id request; es_model_name := pr_model_name request;
    es_prompt_tokens_estimate := pe; es_completion_tokens_estimate := ce; es_cost_usd_estimate := cost |}) as ->
    by (clear -Hest; unfold validate_estimate in Hest; run_m Hest; done).
  simpl in Hp, Hc. unfold charge, bind at 1.
  destruct (charge_record usage (pr_id request) d w) as [[event|e] w1] eqn:Hrun; intros H;
    [left|right; injection H as <- <-; by apply charge_record_raise in Hrun as [? _]].
  apply charge_record_ok in Hrun as (He & Ht & _).
  assert (te_usage event = usage /\ te_cost_usd event = cost) as [Hu Hcc].
  { unfold charge_event in He. rewrite Hinf, Hp, Hc in He. apply rbind_ok in He as (_ & _ & He). simpl in He.
    rewrite Hcost in He. simpl in He. clear -He. unfold validate_event in He. run_m He. done. }
  unfold settle, bind, modify in H. simpl in H. injection H as <- <-. unfold refuse_totals. simpl.
  by rewrite Hu, Hcc, Hp, Hc, Ht.
Qed.
End Budget.
Arguments World P O : clear implicits.
Arguments Conf P O : clear implicits.

(** ** Witnesses *)

Definition demo_persist (e : TokenUsageEvent) : M (dict Ref TokenUsageEvent) Ref := fun p =>
  (Ok ("payload:" +:+ te_id e), dict_set p ("payload:" +:+ te_id e) e).
Definition demo_prices : dict string (dict string price_value) :=
  [("gpt", [("input_per_1k", PvInt 1); ("output_per_1k", PvFloat 2)])].
Definition demo_budget_cfg : BudgetConfig :=
  {| bc_budget := {| tb_id := "b"; tb_run_ref := "run"; tb_max_input_tokens := None; tb_max_output_tokens := None;
                     tb_max_total_tokens := Some 2000; tb_max_cost_usd := Some 1%float; tb_created_at := 0 |};
     bc_price_table := {| pt_version := "v1"; pt_prices := demo_prices |};
     bc_run_ref := "run"; bc_command_result_ref := "cr"; bc_event_ref := "ev"; bc_production := false |}.
Definition demo_usage (prompt completion : Z) : TokenUsage :=
  {| tu_prompt_tokens := prompt; tu_completion_tokens := completion; tu_total_tokens := prompt + completion;
     tu_cached_input_tokens := 0; tu_reasoning_tokens := 0 |}.
Definition demo_draw (hex : string) : Draw := {| dr_uuid_hex := hex; dr_event_at := 1; dr_outbox_at := 2 |}.
Definition demo_world : World (dict Ref TokenUsageEvent) Store :=
  {| wd_totals := ledger []; wd_persister := []; wd_outbox := empty_backing |}.
Definition demo_conf : Conf (dict Ref TokenUsageEvent) Store :=
  {| cf_world := demo_world; cf_pending := []; cf_settled := [] |}.
Definition demo_event (hex : string) (prompt completion : Z) (cost : float) : TokenUsageEvent :=
  {| te_id := "token-usage:" +:+ hex; te_run_ref := "run"; te_request_ref := "req"; te_model_name := "gpt";
     te_usage := demo_usage prompt completion; te_cost_usd := cost; te_price_table_version := "v1"; te_created_at := 1 |}.

Abbreviation demo_charge := (charge demo_persist demo_budget_cfg).
Abbreviation demo_record := (charge_record demo_persist demo_budget_cfg).
Abbreviation demo_step := (budget_step demo_persist demo_budget_cfg).

Definition demo_conf1 : Conf (dict Ref TokenUsageEvent) Store :=
  {| cf_world := (demo_record (demo_usage 500 500) "req" (demo_draw "a") demo_world).2;
     cf_pending := [demo_event "a" 500 500 1.5]; cf_settled := [] |}.
Definition demo_conf2 : Conf (dict Ref TokenUsageEvent) Store :=
  {| cf_world := (settle demo_budget_cfg (demo_event "a" 500 500 1.5) (cf_world demo_conf1)).2;
     cf_pending := []; cf_settled := [demo_event "a" 500 500 1.5] |}.
Definition demo_conf3 : Conf (dict Ref TokenUsageEvent) Store :=
  {| cf_world := (demo_record (demo_usage 1 1) "req" (demo_draw "b") (cf_world demo_conf2)).2;
     cf_pending := [demo_event "b" 1 1 0.003]; cf_settled := [demo_event "a" 500 500 1.5] |}.

Lemma demo_initial : initial demo_budget_cfg demo_conf.
Proof. by vm_compute. Qed.

Lemma demo_step1 : demo_step demo_conf demo_conf1.
Proof.
  apply (StepRecord demo_persist demo_budget_cfg demo_conf (demo_usage 500 500) "req" (demo_draw "a")); [done| |by vm_compute].
  by intros e ?%elem_of_nil.
Qed.
Lemma demo_step2 : demo_step demo_conf1 demo_conf2.
Proof.
  apply (StepSettle demo_persist demo_budget_cfg demo_conf1 (demo_event "a" 500 500 1.5) [] []
    (Raise TokenBudgetExceeded)); [done|by vm_compute].
Qed.
Lemma demo_step3 : demo_step demo_conf2 demo_conf3.
Proof.
  apply (StepRecord demo_persist demo_budget_cfg demo_conf2 (demo_usage 1 1) "req" (demo_draw "b")); [done| |by vm_compute].
  intros e ->%list_elem_of_singleton. by vm_compute.
Qed.
(** Two charges whose settlements come in the other order. *)
Definition demo_other : TokenUsageEvent := demo_event "b" 201 100 0.401.
Definition demo_first : TokenUsageEvent := demo_event "a" 500 200 0.9.
Definition demo_one : Conf (dict Ref TokenUsageEvent) Store :=
  {| cf_world := (demo_record (demo_usage 500 200) "req" (demo_draw "a") demo_world).2;
     cf_pending := [demo_first]; cf_settled := [] |}.
Definition demo_both : Conf (dict Ref TokenUsageEvent) Store :=
  {| cf_world := (demo_record (demo_usage 201 100) "req" (demo_draw "b") (cf_world demo_one)).2;
     cf_pending := [demo_first; demo_other]; cf_settled := [] |}.
Definition demo_conf4 : Conf (dict Ref TokenUsageEvent) Store :=
  let w3 := (settle demo_budget_cfg demo_other (cf_world demo_both)).2 in
  {| cf_world := (settle demo_budget_cfg demo_first w3).2; cf_pending := []; cf_settled := [demo_other; demo_first] |}.

Definition demo_half : Conf (dict Ref TokenUsageEvent) Store :=
  {| cf_world := (settle demo_budget_cfg demo_other (cf_world demo_both)).2; cf_pending := [demo_first]; cf_settled := [demo_other] |}.
Lemma demo_steps4 : rtc demo_step demo_conf demo_conf4.
Proof.
  apply (rtc_l _ _ demo_one).
  { apply (StepRecord demo_persist demo_budget_cfg demo_conf (demo_usage 500 200) "req" (demo_draw "a") demo_first (cf_world demo_one));
      [done| |by vm_compute]. by intros e ?%elem_of_nil. }
  apply (rtc_l _ _ demo_both).
  { apply (StepRecord demo_persist demo_budget_cfg demo_one (demo_usage 201 100) "req" (demo_draw "b") demo_other (cf_world demo_both));
      [done| |by vm_compute]. intros e ->%list_elem_of_singleton. by vm_compute. }
  apply (rtc_l _ _ demo_half).
  { by apply (StepSettle demo_persist demo_budget_cfg demo_both demo_other [demo_first] [] (Ok tt)). }
  apply rtc_once. by apply (StepSettle demo_persist demo_budget_cfg demo_half demo_first [] [] (Raise TokenBudgetExceeded)).
Qed.

Lemma demo_steps : rtc demo_step demo_conf demo_conf2.
Proof. eapply rtc_l; [apply demo_step1|]. apply rtc_once, demo_step2. Qed.

Lemma charge_durable_first_witness :
  let w' := (demo_charge (demo_usage 500 500) "req" (demo_draw "a") demo_world).2 in
  exists event payload, dict_equiv (repo_view (wd_outbox w'))
    (dict_set [] (outbox_id event) (build_outbox_record demo_budget_cfg event payload 2)) /\
    wd_totals w' = add_usage event (ledger []) /\ refuse_totals demo_budget_cfg (wd_totals w') = Raise TokenBudgetExceeded.
Proof.
  intros w'. destruct (charge_durable_first demo_persist demo_budget_cfg (demo_usage 500 500) "req" (demo_draw "a")
    demo_world (Raise TokenBudgetExceeded) w') as [(e & _ & Ht & _)|(event & payload & _ & Hv & Ht & Hr)].
  - by vm_compute.
  - by vm_compute in Ht.
  - exists event, payload. split; [exact Hv|split; [exact Ht|by rewrite <-Hr]].
Defined.

Lemma totals_match_durable_record_witness :
  bt_completion (wd_totals (cf_world demo_conf4)) = 300 /\ bt_prompt (wd_totals (cf_world demo_conf4)) = 701.
Proof.
  destruct (totals_match_durable_record demo_persist demo_budget_cfg demo_conf demo_conf4) as [(Hp & Hc & _) _];
    [apply demo_initial|apply demo_steps4|]. by rewrite Hp, Hc.
Defined.

Lemma recorded_events_typed_witness : PrimFloat.leb 0 (bt_cost_usd (wd_totals (cf_world demo_conf2))) = true.
Proof. apply (recorded_events_typed demo_persist demo_budget_cfg demo_conf demo_conf2); [apply demo_initial|apply demo_steps]. Defined.

Lemma budget_breach_stays_witness :
  (settle demo_budget_cfg (demo_event "b" 1 1 0.003) (cf_world demo_conf3)).1 = Raise TokenBudgetExceeded.
Proof.
  apply (budget_breach_stays demo_persist demo_budget_cfg "v1" demo_prices demo_conf demo_conf2 demo_conf3).
  - by vm_compute.
  - apply demo_initial.
  - apply demo_steps.
  - by vm_compute.
  - apply rtc_once, demo_step3.
  - by left.
Defined.

Lemma estimate_holds_witness :
  let request := {| pr_id := "req"; pr_model_name := "gpt"; pr_message_contents := ["hello"]; pr_max_output_tokens := 10 |} in
  let rw := demo_charge (demo_usage 2 10) "req" (demo_draw "a") demo_world in
  rw.1 = Ok tt \/ wd_totals rw.2 = ledger [].
Proof.
  intros request rw.
  apply (estimate_holds demo_persist demo_budget_cfg request
    {| es_request_ref := "req"; es_model_name := "gpt"; es_prompt_tokens_estimate := 2;
       es_completion_tokens_estimate := 10; es_cost_usd_estimate := 0.022 |} (demo_usage 2 10) (demo_draw "a") demo_world);
    by vm_compute.
Defined.

(** The model a charge is priced under is the first of the table whose name
    occurs in the request id: a model whose name extends another's is priced as
    the other when that one comes first. *)
Example prefix_model_mispriced :
  let prices := [("gpt-4o", [("input_per_1k", PvInt 5); ("output_per_1k", PvInt 5)]);
                 ("gpt-4o-mini", [("input_per_1k", PvInt 1); ("output_per_1k", PvInt 1)])] in
  infer_model_name
    {| bc_budget := bc_budget demo_budget_cfg; bc_price_table := {| pt_version := "v1"; pt_prices := prices |};
       bc_run_ref := "run"; bc_command_result_ref := "cr"; bc_event_ref := "ev"; bc_production := false |}
    "provider-request:gpt-4o-mini:1" = Ok "gpt-4o".
Proof. by vm_compute. Qed.
