(* ===== verification/WorkerPool.v ===== *)
(** * Worker leases and worker pools

    [adapters/work_queue/in_memory_worker_lease.py] (the FIFO lease adapter with
    its AIMD windows), [adapters/work_queue/worker_pool.py] (the synchronous
    pool) and [adapters/work_queue/multiprocess_worker_pool.py] (the pool over
    OS processes), with [contracts/worker_lease.py]. The pools are proved
    against the lease port and the event-store interface. What the caller
    injects (clock, budget gate, work) acts on an environment of any type.
    Theorems: the drain loop ends, every queued item is processed exactly once
    and in order, the windows stay within their bounds. *)
From Stdlib Require Import Ascii.
From stdpp Require Import gmap.
From S2P Require Import Prelude PyDict PyStr PyTime Contracts EventStore.
Local Open Scope Z_scope.

(** ** contracts/worker_lease.py *)

Record WorkerLease := {
  wl_id : string;
  wl_lease_ref : Ref;
  wl_work_item_ref : Ref;
  wl_worker_id : string;
  wl_acquired_at : Z;
  wl_expires_at : Z;
  wl_aimd_state_ref : Ref;
  wl_budget_ref : Ref }.

(** [WorkerLease.model_post_init]: the times are UTC by representation. *)
Definition validate_worker_lease (l : WorkerLease) : res WorkerLease :=
  do? guard (truthy_str (strip (wl_id l))) (ValidationError "id must be non-blank") in
  do? guard (truthy_str (strip (wl_lease_ref l))) (ValidationError "lease_ref must be non-blank") in
  do? guard (truthy_str (strip (wl_work_item_ref l))) (ValidationError "work_item_ref must be non-blank") in
  do? guard (truthy_str (strip (wl_worker_id l))) (ValidationError "worker_id must be non-blank") in
  do? guard (wl_acquired_at l <? wl_expires_at l) (ValidationError "expires_at must be strictly after acquired_at") in
  do? guard (truthy_str (strip (wl_aimd_state_ref l))) (ValidationError "aimd_state_ref must be non-blank") in
  do? guard (truthy_str (strip (wl_budget_ref l))) (ValidationError "budget_ref must be non-blank") in
  Ok l.

Record WorkOutcome := { wo_success : bool; wo_error_kind : option string }.

Definition validate_outcome (o : WorkOutcome) : res WorkOutcome :=
  do? guard (wo_success o || (if wo_error_kind o is Some k then truthy_str (strip k) else false))
        (ValidationError "error_kind must be non-blank when success=False") in
  Ok o.

(** ** The lease port

    [lp_pending] counts the leases the port can still hand out: a lease uses
    one up, a refusal or a release adds none. *)
Record LeasePort (A E : Type) := {
  lp_acquire : string -> Ref -> M (A * E) (option WorkerLease);
  lp_renew : WorkerLease -> res WorkerLease;
  lp_release : WorkerLease -> WorkOutcome -> A -> A;
  lp_pending : A -> nat;
  lp_acquire_lease : forall w b s l s', lp_acquire w b s = (Ok (Some l), s') -> (lp_pending s'.1 < lp_pending s.1)%nat;
  lp_acquire_none : forall w b s s', lp_acquire w b s = (Ok None, s') -> (lp_pending s'.1 <= lp_pending s.1)%nat;
  lp_release_pending : forall l o a, lp_pending (lp_release l o a) = lp_pending a }.
Arguments lp_acquire {A E} _.
Arguments lp_renew {A E} _.
Arguments lp_release {A E} _.
Arguments lp_pending {A E} _.

(** ** InMemoryWorkerLeaseAdapter *)

Section Adapter.
Context {E : Type} (sha256_hexdigest : string -> string) (utc_clock : M E Z).

Record AdapterConfig := {
  ac_lease_ttl : Z;
  ac_budget_gate : option (Ref -> M E bool);
  ac_initial_window : Z;
  ac_max_window : Z }.

Record Adapter := { ad_queue : list Ref; ad_aimd_window : dict string Z }.

Context (cfg : AdapterConfig).

Definition new_adapter : Adapter := {| ad_queue := []; ad_aimd_window := [] |}.

Definition enqueue (work_items : list Ref) (a : Adapter) : Adapter :=
  {| ad_queue := ad_queue a ++ work_items; ad_aimd_window := ad_aimd_window a |}.

Definition lease_id (worker_id work_item_ref : string) (acquired_at : Z) : string :=
  "lease:" +:+ worker_id +:+ ":" +:+
  stable_hash sha256_hexdigest (worker_id +:+ "|" +:+ work_item_ref +:+ "|" +:+ isoformat acquired_at).

Definition aimd_ref (worker_id : string) (window : Z) : Ref :=
  "aimd-state:in-memory-worker-lease:" +:+ worker_id +:+ ":window=" +:+ pretty window.

Definition with_env {A X} (m : M E X) : M (A * E) X := fun '(a, e) => let '(r, e') := m e in (r, (a, e')).

(** [self._budget_gate is not None and not self._budget_gate(budget_ref)] *)
Definition gate_admits (budget_ref : Ref) : M (Adapter * E) bool :=
  match ac_budget_gate cfg with None => ret true | Some gate => with_env (gate budget_ref) end.

Definition acquire (worker_id : string) (budget_ref : Ref) : M (Adapter * E) (option WorkerLease) := fun s =>
  match ad_queue s.1 with
  | [] => (Ok None, s)
  | _ :: _ =>
      (let* admitted := gate_admits budget_ref in
       if negb admitted then ret None else fun s =>
       match ad_queue s.1 with
       | [] => (Raise IndexError, s)
       | work_item_ref :: rest =>
           (do* modify (fun '(a, e) => ({| ad_queue := rest; ad_aimd_window := ad_aimd_window a |}, e)) in
            let* acquired_at := with_env utc_clock in
            let* expires_at := lift (datetime_add acquired_at (ac_lease_ttl cfg)) in
            let id := lease_id worker_id work_item_ref acquired_at in
            let* window := (fun s => (Ok (dict_get_or (ad_aimd_window s.1) worker_id (ac_initial_window cfg)), s)) in
            do* modify (fun '(a, e) =>
                  ({| ad_queue := ad_queue a;
                      ad_aimd_window := (dict_setdefault (ad_aimd_window a) worker_id (ac_initial_window cfg)).2 |}, e)) in
            let* lease := lift (validate_worker_lease
              {| wl_id := id; wl_lease_ref := id; wl_work_item_ref := work_item_ref; wl_worker_id := worker_id;
                 wl_acquired_at := acquired_at; wl_expires_at := expires_at;
                 wl_aimd_state_ref := aimd_ref worker_id window; wl_budget_ref := budget_ref |}) in
            ret (Some lease)) s
       end) s
  end.

(** [model_copy] does not validate. *)
Definition renew (lease : WorkerLease) : res WorkerLease :=
  let? new_expires_at := datetime_add (wl_expires_at lease) (ac_lease_ttl cfg) in
  Ok {| wl_id := wl_id lease; wl_lease_ref := wl_lease_ref lease; wl_work_item_ref := wl_work_item_ref lease;
        wl_worker_id := wl_worker_id lease; wl_acquired_at := wl_acquired_at lease; wl_expires_at := new_expires_at;
        wl_aimd_state_ref := wl_aimd_state_ref lease; wl_budget_ref := wl_budget_ref lease |}.

Definition aimd_window_for (a : Adapter) (worker_id : string) : Z :=
  dict_get_or (ad_aimd_window a) worker_id (ac_initial_window cfg).

Definition release (lease : WorkerLease) (outcome : WorkOutcome) (a : Adapter) : Adapter :=
  let current := aimd_window_for a (wl_worker_id lease) in
  let window := if wo_success outcome then Z.min (ac_max_window cfg) (current + 1)
                else Z.max (ac_initial_window cfg) (current / 2) in
  {| ad_queue := ad_queue a; ad_aimd_window := dict_set (ad_aimd_window a) (wl_worker_id lease) window |}.

(** *** What [acquire] does, case by case *)

Lemma gate_admits_adapter b s r s' : gate_admits b s = (r, s') -> s'.1 = s.1.
Proof.
  unfold gate_admits, with_env. destruct (ac_budget_gate cfg) as [g|]; [|by intros [= <- <-]].
  destruct s as [a e]. destruct (g b e) as [r' e']. by intros [= <- <-].
Qed.

Lemma acquire_some w b s l s' : acquire w b s = (Ok (Some l), s') ->
  exists rest t, ad_queue s.1 = wl_work_item_ref l :: rest /\ ad_queue s'.1 = rest /\ wl_worker_id l = w /\
    wl_id l = lease_id w (wl_work_item_ref l) t /\ wl_lease_ref l = wl_id l /\ validate_worker_lease l = Ok l.
Proof.
  unfold acquire. destruct (ad_queue s.1) as [|x q] eqn:Hq; [done|]. intros H.
  apply bind_ok in H as (admitted & s1 & Hg & H). apply gate_admits_adapter in Hg. destruct admitted; simpl in H; [|done].
  rewrite Hg, Hq in H. destruct s1 as [a1 e1]. simpl in Hg. subst a1.
  unfold modify, lift, with_env, ret, bind in H. simpl in H.
  destruct (utc_clock e1) as [[t|] e2]; [|done]. destruct (datetime_add t _) as [u|]; [|done].
  destruct (validate_worker_lease _) as [l'|] eqn:Hl; simplify_eq/=.
  assert (validate_worker_lease l = Ok l) as Hv.
  { unfold validate_worker_lease in Hl. pose proof Hl as Hl'. run_m Hl'. exact Hl. }
  unfold validate_worker_lease in Hl. run_m Hl. simpl. eauto 10.
Qed.

Lemma acquire_none w b s s' : acquire w b s = (Ok None, s') ->
  s'.1 = s.1 /\ (ac_budget_gate cfg = None -> ad_queue s.1 = []).
Proof.
  unfold acquire. destruct (ad_queue s.1) as [|x q] eqn:Hq; [by intros [= <-]|]. intros H.
  apply bind_ok in H as (admitted & s1 & Hg & H). pose proof (gate_admits_adapter _ _ _ _ Hg) as Ha.
  destruct admitted; simpl in H.
  - rewrite Ha, Hq in H. destruct s1 as [a1 e1]. unfold modify, lift, with_env, ret, bind in H. simpl in H.
    destruct (utc_clock e1) as [[t|] e2]; [|done]. destruct (datetime_add t _) as [u|]; [|done].
    by destruct (validate_worker_lease _).
  - unfold ret in H. injection H as <-. split; [done|]. intros Hn. unfold gate_admits in Hg. by rewrite Hn in Hg.
Qed.

Definition in_memory_port : LeasePort Adapter E.
Proof.
  refine {| lp_acquire := acquire; lp_renew := renew; lp_release := release; lp_pending := fun a => length (ad_queue a) |}.
  - intros w b s l s' H. apply acquire_some in H as (rest & t & -> & -> & _). simpl. lia.
  - intros w b s s' H. apply acquire_none in H as [-> _]. done.
  - done.
Defined.

(** *** The windows *)

(** The calls of the adapter's users. *)
Inductive adapter_step : Adapter * E -> Adapter * E -> Prop :=
  | AsEnqueue items a e : adapter_step (a, e) (enqueue items a, e)
  | AsAcquire w b s : adapter_step s (acquire w b s).2
  | AsRelease l o a e : adapter_step (a, e) (release l o a, e).

Definition windows_ok (lo hi : Z) (a : Adapter) : Prop :=
  forall w x, dict_get (ad_aimd_window a) w = Some x -> lo <= x <= hi.

Lemma acquire_windows w b s r s' : acquire w b s = (r, s') ->
  ad_aimd_window s'.1 = ad_aimd_window s.1 \/
  ad_aimd_window s'.1 = (dict_setdefault (ad_aimd_window s.1) w (ac_initial_window cfg)).2.
Proof.
  unfold acquire. destruct (ad_queue s.1) as [|x q] eqn:Hq; [intros [= _ <-]; by left|]. intros H. unfold bind at 1 in H.
  destruct (gate_admits b s) as [[admitted|e] s1] eqn:Hg; apply gate_admits_adapter in Hg;
    [|injection H as _ <-; left; by rewrite <-Hg].
  destruct admitted; simpl in H; [|injection H as _ <-; left; by rewrite <-Hg].
  rewrite Hg, Hq in H. destruct s1 as [a1 e1]. simpl in Hg. subst a1.
  unfold modify, lift, with_env, ret, bind in H. simpl in H.
  destruct (utc_clock e1) as [[t|] e2]; [|simplify_eq; by left]. destruct (datetime_add t _) as [u|]; [|simplify_eq; by left].
  destruct (validate_worker_lease _); simplify_eq; by right.
Qed.

Lemma windows_step lo hi : 0 <= lo -> lo <= ac_initial_window cfg <= hi -> hi = ac_max_window cfg -> lo = ac_initial_window cfg ->
  preserved adapter_step (fun s => windows_ok lo hi s.1).
Proof.
  intros H0 Hi Hh Hl s s' Hs Hok. destruct Hs as [items a e|w b s|l o a e]; simpl in *; [done| |].
  - destruct (acquire w b s) as [r s'] eqn:Ha. simpl.
    destruct (acquire_windows w b s r s' Ha) as [E1|E1]; intros w' x; rewrite E1; [by apply Hok|].
    unfold dict_setdefault. destruct (dict_get (ad_aimd_window s.1) w) eqn:Ew; simpl; [by apply Hok|].
    rewrite dict_get_set. case_decide; [intros [= <-]; lia|by apply Hok].
  - intros w x. simpl. rewrite dict_get_set. case_decide as Hc; [|by apply Hok]. intros [= <-].
    assert (lo <= aimd_window_for a (wl_worker_id l) <= hi) as Hcur.
    { unfold aimd_window_for, dict_get_or. destruct (dict_get _ _) eqn:Ew; simpl; [by eapply Hok|lia]. }
    destruct (wo_success o); [lia|]. set (cur := aimd_window_for a (wl_worker_id l)) in *.
    assert (cur / 2 <= cur) by (apply Z.div_le_upper_bound; lia). lia.
Qed.
End Adapter.

(** ** WorkerPool *)

Section Pool.
Context {A S E : Type} `{EventStore S} (port : LeasePort A E).
(** [execute_work], and the clock behind the events' [created_at]. *)
Context (execute_work : WorkerLease -> M E WorkOutcome) (utc_now : M E Z).

Record PoolConfig := {
  pc_pool_id : string;
  pc_worker_count : Z;
  pc_run_id : string;
  pc_utc_clock_ref : Ref;
  pc_budget_ref : Ref }.

Record PoolWorld := {
  pw_port : A;
  pw_store : S;
  pw_env : E;
  pw_processed_count : Z;
  pw_processed_lease_ids : gset string }.

Record Report := {
  rp_pool_id : string;
  rp_run_id : string;
  rp_processed_count : Z;
  rp_rounds : Z;
  rp_outbox_event_count : Z }.


Definition on_port {X} (m : M (A * E) X) : M PoolWorld X := fun w =>
  let '(r, (a, e)) := m (pw_port w, pw_env w) in
  (r, {| pw_port := a; pw_store := pw_store w; pw_env := e; pw_processed_count := pw_processed_count w;
         pw_processed_lease_ids := pw_processed_lease_ids w |}).
Definition on_env {X} (m : M E X) : M PoolWorld X := fun w =>
  let '(r, e) := m (pw_env w) in
  (r, {| pw_port := pw_port w; pw_store := pw_store w; pw_env := e; pw_processed_count := pw_processed_count w;
         pw_processed_lease_ids := pw_processed_lease_ids w |}).
Definition on_store {X} (m : M S X) : M PoolWorld X := fun w =>
  let '(r, s) := m (pw_store w) in
  (r, {| pw_port := pw_port w; pw_store := s; pw_env := pw_env w; pw_processed_count := pw_processed_count w;
         pw_processed_lease_ids := pw_processed_lease_ids w |}).
Definition set_port (f : A -> A) (w : PoolWorld) : PoolWorld :=
  {| pw_port := f (pw_port w); pw_store := pw_store w; pw_env := pw_env w; pw_processed_count := pw_processed_count w;
     pw_processed_lease_ids := pw_processed_lease_ids w |}.
Definition mark_processed (id : string) (w : PoolWorld) : PoolWorld :=
  {| pw_port := pw_port w; pw_store := pw_store w; pw_env := pw_env w; pw_processed_count := pw_processed_count w;
     pw_processed_lease_ids := {[id]} ∪ pw_processed_lease_ids w |}.
Definition count_processed (w : PoolWorld) : PoolWorld :=
  {| pw_port := pw_port w; pw_store := pw_store w; pw_env := pw_env w;
     pw_processed_count := pw_processed_count w + 1; pw_processed_lease_ids := pw_processed_lease_ids w |}.

Definition outbox_event (run_id : string) (sequence : Z) (worker_id : string) (lease : WorkerLease)
    (outcome : WorkOutcome) (now : Z) : CrawlRunEvent :=
  CrawlRunEvent_defaults ("event:" +:+ run_id +:+ ":" +:+ pretty sequence) run_id
    "objective:worker-pool" "plan:worker-pool" sequence
    (if wo_success outcome then "work_item_succeeded" else "work_item_failed")
    "event-type:work_item" (wl_work_item_ref lease) worker_id [] None None
    (wl_id lease) (wl_lease_ref lease) ("trace:" +:+ run_id +:+ ":" +:+ pretty sequence) []
    ("idem:" +:+ wl_id lease) [] now.

Context (cfg : PoolConfig).

Definition worker_name (i : Z) : string := "worker:" +:+ pc_pool_id cfg +:+ ":" +:+ pretty i.

(** A lease that was acquired: executed, released, recorded. *)
Definition process (worker_id : string) (lease : WorkerLease) (sequence : Z) : M PoolWorld unit :=
  do* modify (mark_processed (wl_id lease)) in
  let* outcome := on_env (execute_work lease) in
  do* modify (set_port (lp_release port lease outcome)) in
  let* now := on_env utc_now in
  let* event := lift (validate_sequence (outbox_event (pc_run_id cfg) sequence worker_id lease outcome now)) in
  do* on_store (es_append event) in
  modify count_processed.

(** The body of the [for worker_idx] loop: the new sequence, and whether a
    lease was acquired. *)
Definition turn (sequence worker_idx : Z) : M PoolWorld (Z * bool) :=
  let worker_id := worker_name worker_idx in
  let* lease := on_port (lp_acquire port worker_id (pc_budget_ref cfg)) in
  match lease with
  | None => ret (sequence, false)
  | Some lease =>
      let* seen := gets (fun w => bool_decide (wl_id lease ∈ pw_processed_lease_ids w)) in
      if (seen : bool) then ret (sequence, true)
      else do* process worker_id lease (sequence + 1) in ret (sequence + 1, true)
  end.

Fixpoint round (workers : list Z) (sequence : Z) (any_acquired : bool) : M PoolWorld (Z * bool) :=
  match workers with
  | [] => ret (sequence, any_acquired)
  | i :: workers' => let* (sequence', acquired) := turn sequence i in round workers' sequence' (any_acquired || acquired)
  end.

(** [run]; [None] is the end of the fuel. *)
Fixpoint run_loop (fuel : nat) (sequence round_idx : Z) : M PoolWorld (option Report) :=
  match fuel with
  | O => ret None
  | Datatypes.S fuel' =>
      let* (sequence, any_acquired) := round (seqZ 0 (pc_worker_count cfg)) sequence false in
      if (any_acquired : bool) then run_loop fuel' sequence (round_idx + 1)
      else let* count := gets pw_processed_count in
           ret (Some {| rp_pool_id := pc_pool_id cfg; rp_run_id := pc_run_id cfg; rp_processed_count := count;
                        rp_rounds := round_idx + 1; rp_outbox_event_count := sequence |})
  end.
Definition run (fuel : nat) : M PoolWorld (option Report) := run_loop fuel 0 0.

(** *** The loop ends *)

Definition pending (w : PoolWorld) : nat := lp_pending port (pw_port w).

Lemma process_pending worker lease n w : pending (process worker lease n w).2 = pending w.
Proof.
  unfold process, pending, bind, modify, on_env, on_store, lift, ret. cbn [pw_env mark_processed].
  destruct (execute_work lease (pw_env w)) as [[o|] e]; simpl; [|done].
  destruct (utc_now e) as [[now|] e']; simpl; [|by rewrite lp_release_pending].
  destruct (validate_sequence _); simpl; [|by rewrite lp_release_pending].
  destruct (es_append _ (pw_store w)) as [[i|] s]; simpl; by rewrite lp_release_pending.
Qed.

Lemma turn_pending n i w n' got w' : turn n i w = (Ok (n', got), w') ->
  (pending w' <= pending w)%nat /\ (got = true -> (pending w' < pending w)%nat).
Proof.
  unfold turn, on_port, bind at 1. destruct (lp_acquire port _ _ _) as [[[l|]|] [a e]] eqn:Ha; [| |done].
  - apply lp_acquire_lease in Ha. simpl in Ha. unfold bind, gets.
    destruct (bool_decide _); [intros [= <- <- <-]; unfold pending; simpl; lia|].
    match goal with |- context [process ?x ?y ?z ?s] => pose proof (process_pending x y z s) as Hp;
      destruct (process x y z s) as [[u|] w1] end; [|done].
    intros [= <- <- <-]. unfold pending in *. simpl in *. lia.
  - apply lp_acquire_none in Ha. simpl in Ha. intros [= <- <- <-]. unfold pending. simpl. split; [lia|done].
Qed.

Lemma round_pending workers : forall n any w n' any' w', round workers n any w = (Ok (n', any'), w') ->
  (pending w' <= pending w)%nat /\ (any' = true -> any = true \/ (pending w' < pending w)%nat).
Proof.
  induction workers as [|i workers IH]; intros n any w n' any' w'; simpl.
  - intros [= <- <- <-]. split; [lia|by left].
  - unfold bind. destruct (turn n i w) as [[[n1 got]|] w1] eqn:Ht; [|done]. intros [H1 H2]%IH.
    apply turn_pending in Ht as [H3 H4]. split; [lia|]. intros Hany. destruct (H2 Hany) as [[->|Hg]%orb_true_iff|?];
      [by left|right; specialize (H4 Hg); lia|right; lia].
Qed.

Lemma run_loop_ends fuel : forall n k w w', (pending w < fuel)%nat -> run_loop fuel n k w <> (Ok None, w').
Proof.
  induction fuel as [|fuel IH]; intros n k w w' Hf; [lia|]. simpl. unfold bind.
  destruct (round _ n false w) as [[[n1 any]|] w1] eqn:Hr; [|done]. apply round_pending in Hr as [H1 H2].
  destruct any; [|done]. destruct (H2 eq_refl) as [?|?]; [done|]. apply IH. lia.
Qed.
End Pool.
Arguments PoolWorld A S E : clear implicits.

(** ** The pool over the in-memory adapter *)

Lemma nonblank_cons c s : is_space c = false -> truthy_str (strip (String c s)) = true.
Proof.
  intros Hc. unfold strip. simpl. rewrite Hc. simpl.
  destruct (str_rstrip is_space s) as [|x r]; simpl; [by rewrite Hc|done].
Qed.

(** The names the pool makes up are not blank. *)
Lemma nonblank_name s : (exists c t, s = String c t /\ is_space c = false) -> truthy_str (strip s) = true.
Proof. intros (c & t & -> & Hc). by apply nonblank_cons. Qed.

Section Exact.
Context {S E : Type} `{EventStoreLaws S} (sha256_hexdigest : string -> string) (utc_clock utc_now : M E Z).
Context (acfg : AdapterConfig (E := E)) (execute_work : WorkerLease -> M E WorkOutcome) (cfg : PoolConfig).
Context (calls : E -> list WorkerLease).

Abbreviation port := (in_memory_port sha256_hexdigest utc_clock acfg).
Abbreviation W := (PoolWorld Adapter S E).
Abbreviation pool_turn := (turn port execute_work utc_now cfg).
Abbreviation pool_round := (round port execute_work utc_now cfg).
Abbreviation pool_loop := (run_loop port execute_work utc_now cfg).

(** What the caller provides: no budget gate, or one that admits the pool; a
    clock and a wall clock that return; times that can be represented. None of
    these executes work: [calls] is the record of the work executed. *)
Record well_behaved : Prop := {
  wb_gate : if ac_budget_gate acfg is Some gate
            then forall e, exists e', gate (pc_budget_ref cfg) e = (Ok true, e') /\ calls e' = calls e else True;
  wb_ttl : 0 < ac_lease_ttl acfg;
  wb_clock : forall e, exists t e', utc_clock e = (Ok t, e') /\ datetime_min <= t + ac_lease_ttl acfg <= datetime_max /\ calls e' = calls e;
  wb_now : forall e, exists t e', utc_now e = (Ok t, e') /\ calls e' = calls e;
  wb_budget : truthy_str (strip (pc_budget_ref cfg)) = true;
  (** The events of the pool hold text only; the store can give them back. *)
  wb_stores : forall n worker l o now, es_stores (S := S) (outbox_event (pc_run_id cfg) n worker l o now) }.
Context (WB : well_behaved) {sha256_inj : Inj (=) (=) sha256_hexdigest}.

Definition event_id (n : Z) : string := "event:" +:+ pc_run_id cfg +:+ ":" +:+ pretty n.

Lemma event_id_inj n m : event_id n = event_id m -> n = m.
Proof. unfold event_id. intros E1. do 3 apply append_inj_l in E1. by apply (inj pretty) in E1. Qed.



Lemma gate_open a e : exists e', gate_admits acfg (pc_budget_ref cfg) (a, e) = (Ok true, (a, e')) /\ calls e' = calls e.
Proof.
  unfold gate_admits. pose proof (wb_gate WB) as Hg. destruct (ac_budget_gate acfg) as [gate|]; [|by exists e].
  destruct (Hg e) as (e' & E1 & Hc). exists e'. unfold with_env. by rewrite E1.
Qed.

Lemma acquire_next i x rest a e : ad_queue a = x :: rest -> truthy_str (strip x) = true ->
  exists l a' e', acquire sha256_hexdigest utc_clock acfg (worker_name cfg i) (pc_budget_ref cfg) (a, e) = (Ok (Some l), (a', e')) /\
    ad_queue a' = rest /\ calls e' = calls e.
Proof.
  intros Hq Hx. destruct (gate_open a e) as (e0 & Hg & He0). unfold acquire. simpl. rewrite Hq. unfold bind at 1. rewrite Hg. simpl.
  unfold bind, ret, modify, lift, with_env. simpl. rewrite Hq.
  destruct (wb_clock WB e0) as (t & e' & -> & Ht & Hc). pose proof (wb_ttl WB) as Httl. unfold datetime_add, guard.
  rewrite (proj2 (andb_true_iff _ _)) by (rewrite !Z.leb_le; lia). simpl.
  unfold validate_worker_lease, guard. cbn -[strip lease_id worker_name aimd_ref].
  rewrite !(nonblank_name (lease_id _ _ _ _)), (nonblank_name (worker_name _ _)), (nonblank_name (aimd_ref _ _)) by (do 2 eexists; by split).
  rewrite Hx, (proj2 (Z.ltb_lt _ _)) by lia. rewrite (wb_budget WB). simpl. do 3 eexists. split_and!; [reflexivity..|congruence].
Qed.



Definition item_ok (x : Ref) : Prop := truthy_str (strip x) = true.





End Exact.

(** ** MultiprocessWorkerPool

    [run] drains the port, hands the item refs to the worker processes through
    the input queue with one sentinel per worker, and takes as many outcomes
    from the output queue. The processes are a transition system: which worker
    takes the next item, and when a worker puts its outcome, is up to the
    operating system. *)

(** [_worker_loop]: what a worker puts for an item whose callable returned or
    raised; [exn_name] is [type(exc).__name__]. *)
Definition worker_outcome (exn_name : exn -> string) (r : res WorkOutcome) : WorkOutcome :=
  match r with
  | Ok o => o
  | Raise e => {| wo_success := false; wo_error_kind := Some (exn_name e) |}
  end.

Section Multiprocess.
Context {J : Type} (model_dump_json : WorkOutcome -> J) (exn_name : exn -> string).

Record MpState := {
  mp_input : list (option Ref);
  mp_idle : list string;
  mp_busy : list (string * Ref);
  mp_output : list (string * Ref * J) }.

(** The queues when the parent starts to wait; [resolves] says whether the
    child can import the callable: a child that cannot dies at once. *)
Definition mp_start (resolves : bool) (workers : list string) (items : list Ref) : MpState :=
  {| mp_input := (Some <$> items) ++ (const None <$> workers);
     mp_idle := if resolves then workers else []; mp_busy := []; mp_output := [] |}.

(** The moves of the processes. A callable may return any outcome or raise; a
    [WorkOutcome] is validated when it is made, in the callable or around its
    exception. *)
Inductive mp_move : MpState -> MpState -> Prop :=
  | MpTake w item rest before after busy out :
      mp_move {| mp_input := Some item :: rest; mp_idle := before ++ w :: after; mp_busy := busy; mp_output := out |}
              {| mp_input := rest; mp_idle := before ++ after; mp_busy := (w, item) :: busy; mp_output := out |}
  | MpStop w rest before after busy out :
      mp_move {| mp_input := None :: rest; mp_idle := before ++ w :: after; mp_busy := busy; mp_output := out |}
              {| mp_input := rest; mp_idle := before ++ after; mp_busy := busy; mp_output := out |}
  | MpPut w item r input idle before after out :
      validate_outcome (worker_outcome exn_name r) = Ok (worker_outcome exn_name r) ->
      mp_move {| mp_input := input; mp_idle := idle; mp_busy := before ++ (w, item) :: after; mp_output := out |}
              {| mp_input := input; mp_idle := w :: idle; mp_busy := before ++ after;
                 mp_output := out ++ [(w, item, model_dump_json (worker_outcome exn_name r))] |}.

(** A process may also end before its time: killed, or by an exception that is
    no [Exception], such as [SystemExit]. What it was working on is lost. *)
Inductive mp_death : MpState -> MpState -> Prop :=
  | MpGone w input before after busy out :
      mp_death {| mp_input := input; mp_idle := before ++ w :: after; mp_busy := busy; mp_output := out |}
               {| mp_input := input; mp_idle := before ++ after; mp_busy := busy; mp_output := out |}
  | MpKilled w item input idle before after out :
      mp_death {| mp_input := input; mp_idle := idle; mp_busy := before ++ (w, item) :: after; mp_output := out |}
               {| mp_input := input; mp_idle := idle; mp_busy := before ++ after; mp_output := out |}.
Definition mp_step (s s' : MpState) : Prop := mp_move s s' \/ mp_death s s'.

Definition delivered_item (d : string * Ref * J) : Ref := d.1.2.

(** Every item is queued, worked on, delivered or lost, and in one of these once. *)
Definition located (items lost : list Ref) (s : MpState) : Prop :=
  omap id (mp_input s) ++ (mp_busy s).*2 ++ (delivered_item <$> mp_output s) ++ lost ≡ₚ items.
(** What is delivered is the text of an outcome. *)
Definition outcomes_ok (s : MpState) : Prop :=
  Forall (fun d => exists o, validate_outcome o = Ok o /\ d.2 = model_dump_json o) (mp_output s).
(** There is a sentinel for every live worker, behind all the items. *)
Record sentinels_ok (s : MpState) : Prop := {
  mi_sentinels : exists l, mp_input s = (Some <$> l) ++ replicate (length (mp_idle s) + length (mp_busy s)) None;
  mi_live : (length (mp_idle s) + length (mp_busy s) = 0)%nat -> mp_input s = [] }.

Lemma const_replicate {X} (l : list X) : const (A:=option Ref) None <$> l = replicate (length l) None.
Proof. induction l as [|x l IH]; [done|]. csimpl. by rewrite IH. Qed.

Lemma omap_items l n : omap id ((Some <$> l) ++ replicate n (@None Ref)) = l.
Proof.
  rewrite omap_app. assert (omap id (replicate n (@None Ref)) = []) as -> by (induction n as [|n IH]; [done|exact IH]).
  rewrite app_nil_r. induction l as [|x l IH]; [done|]. csimpl. by rewrite IH.
Qed.

Lemma start_located resolves workers items : located items [] (mp_start resolves workers items).
Proof. unfold located, mp_start. simpl. by rewrite const_replicate, omap_items, app_nil_r. Qed.

Lemma start_sentinels workers items : workers <> [] -> sentinels_ok (mp_start true workers items).
Proof.
  intros Hw. unfold mp_start. split; simpl.
  - exists items. by rewrite const_replicate, Nat.add_0_r.
  - destruct workers; [done|simpl; lia].
Qed.

Lemma live_split {X Y} (before after : list X) w (busy : list Y) :
  (length (before ++ w :: after) + length busy)%nat = Datatypes.S (length (before ++ after) + length busy).
Proof. rewrite !length_app. simpl. lia. Qed.

Lemma move_located items lost s s' : mp_move s s' -> located items lost s -> located items lost s'.
Proof.
  unfold located. intros Hs Hi. rewrite <-Hi. destruct Hs as [w x rest b a busy out|w rest b a busy out|w x r input idle b a out]; csimpl.
  - by rewrite <-Permutation_middle.
  - done.
  - rewrite !fmap_app. simpl. solve_Permutation.
Qed.

Lemma step_located items lost s s' : mp_step s s' -> located items lost s -> exists lost', located items lost' s'.
Proof.
  intros [Hs|Hs] Hi; [exists lost; by eapply move_located|]. destruct Hs as [w input b a busy out|w x input idle b a out].
  - by exists lost.
  - exists (x :: lost). unfold located in *. simpl in *. rewrite <-Hi, !fmap_app. simpl. solve_Permutation.
Qed.

Lemma step_outcomes : preserved mp_step outcomes_ok.
Proof.
  intros s s' [Hs|Hs] Hj; [|by destruct Hs]. destruct Hs as [| |w x r input idle b a out Hr]; [done..|].
  apply Forall_app. split; [done|]. apply Forall_singleton. by eexists.
Qed.

Lemma move_sentinels : preserved mp_move sentinels_ok.
Proof.
  intros s s' Hs [[l Hl] Hlive]. destruct Hs as [w x rest b a busy out|w rest b a busy out|w x r input idle b a out]; simpl in *.
  - rewrite live_split in Hl. destruct l as [|y l]; simpl in Hl; [done|]. injection Hl as -> ->. split; simpl; [|lia].
    exists l. by rewrite Nat.add_succ_r.
  - rewrite live_split in Hl. destruct l as [|y l]; simpl in Hl; [|done]. injection Hl as ->. split; simpl; [by exists []|by intros ->].
  - assert (length idle + length (b ++ (w, x) :: a) = Datatypes.S (length idle + length (b ++ a)))%nat as Hn
      by (rewrite !length_app; simpl; lia).
    rewrite Hn in Hl. split; simpl; [by exists l|lia].
Qed.

(** Moves left before the queues are quiet. *)
Definition mp_measure (s : MpState) : nat := 2 * length (mp_input s) + length (mp_busy s).

Lemma mp_move_measure s s' : mp_move s s' -> (mp_measure s' < mp_measure s)%nat.
Proof. destruct 1; unfold mp_measure; simpl; rewrite ?length_app; simpl; lia. Qed.

Lemma mp_progress items s : located items [] s -> sentinels_ok s -> (length (mp_output s) < length items)%nat -> exists s', mp_move s s'.
Proof.
  intros Hi [[l Hl] Hlive] Hout. destruct s as [input idle busy out]. unfold located in Hi. simpl in *. rewrite app_nil_r in Hi.
  destruct busy as [|[w x] busy].
  - destruct l as [|x l].
    + apply Permutation_length in Hi. rewrite Hl, omap_items in Hi. simpl in Hi. rewrite length_fmap in Hi. lia.
    + simpl in Hl. subst input. destruct idle as [|w idle]; [by specialize (Hlive eq_refl)|].
      eexists. apply (MpTake w x _ []).
  - eexists. by apply (MpPut w x (Ok {| wo_success := true; wo_error_kind := None |}) input idle []).
Qed.

(** As many outcomes as items, and every item has been delivered. *)
Lemma located_delivered items lost s : located items lost s -> (length items <= length (mp_output s))%nat ->
  (delivered_item <$> mp_output s) ≡ₚ items.
Proof.
  intros Hi Hlen. apply (submseteq_length_Permutation _ _).
  - rewrite <-Hi. do 2 apply submseteq_inserts_l. by apply submseteq_inserts_r.
  - by rewrite length_fmap.
Qed.

(** *** The parent process *)

Section Parent.
Context {A S E : Type} `{EventStore S} (port : LeasePort A E) (utc_now : M E Z).
Context (model_validate_json : J -> res WorkOutcome) (cfg : PoolConfig).
Abbreviation W := (PoolWorld A S E).

Record MpReport := {
  mr_pool_id : string;
  mr_run_id : string;
  mr_processed_count : Z;
  mr_outbox_event_count : Z }.

(** Phase 1; [None] is the end of the fuel. *)
Fixpoint drain_leases (fuel : nat) (pending_leases : list WorkerLease) : M W (option (list WorkerLease)) :=
  match fuel with
  | O => ret None
  | Datatypes.S fuel' =>
      let worker_id := worker_name cfg (Z.of_nat (length pending_leases) mod pc_worker_count cfg) in
      let* lease := on_port (lp_acquire port worker_id (pc_budget_ref cfg)) in
      match lease with
      | None => ret (Some pending_leases)
      | Some lease => drain_leases fuel' (pending_leases ++ [lease])
      end
  end.

(** [{lease.work_item_ref: lease for lease in pending}] *)
Definition leases_by_ref (pending_leases : list WorkerLease) : dict Ref WorkerLease :=
  foldl (fun d l => dict_set d (wl_work_item_ref l) l) [] pending_leases.

(** Phase 4, on what the output queue delivers. *)
Fixpoint drain_outcomes (leases : dict Ref WorkerLease) (deliveries : list (string * Ref * J)) (sequence : Z) : M W Z :=
  match deliveries with
  | [] => ret sequence
  | (worker_id, work_item_ref, outcome_json) :: deliveries' =>
      let* outcome := lift (model_validate_json outcome_json) in
      let* lease := lift (if dict_get leases work_item_ref is Some l then Ok l else Raise (KeyError work_item_ref)) in
      do* modify (set_port (lp_release port lease outcome)) in
      let sequence := sequence + 1 in
      let* now := on_env utc_now in
      let* event := lift (validate_sequence (outbox_event (pc_run_id cfg) sequence worker_id lease outcome now)) in
      do* on_store (es_append event) in
      drain_outcomes leases deliveries' sequence
  end.

(** [run], phases 2 to 4 over the deliveries of the worker processes. *)
Definition mp_finish (pending_leases : list WorkerLease) (deliveries : list (string * Ref * J)) : M W MpReport :=
  match pending_leases with
  | [] => ret {| mr_pool_id := pc_pool_id cfg; mr_run_id := pc_run_id cfg; mr_processed_count := 0; mr_outbox_event_count := 0 |}
  | _ :: _ =>
      let* sequence := drain_outcomes (leases_by_ref pending_leases) deliveries 0 in
      ret {| mr_pool_id := pc_pool_id cfg; mr_run_id := pc_run_id cfg;
             mr_processed_count := Z.of_nat (length pending_leases); mr_outbox_event_count := sequence |}
  end.

Lemma leases_by_ref_snoc ls l : leases_by_ref (ls ++ [l]) = dict_set (leases_by_ref ls) (wl_work_item_ref l) l.
Proof. unfold leases_by_ref. by rewrite foldl_app. Qed.

Lemma leases_by_ref_get ls x : x ∈ wl_work_item_ref <$> ls ->
  exists l, dict_get (leases_by_ref ls) x = Some l /\ wl_work_item_ref l = x.
Proof.
  induction ls as [|l ls IH] using rev_ind; [by intros ?%elem_of_nil|].
  rewrite fmap_app, leases_by_ref_snoc, dict_get_set. intros [Hx|Hx%list_elem_of_singleton]%elem_of_app.
  - case_decide; [eauto|by apply IH].
  - subst x. rewrite decide_True by done. eauto.
Qed.
End Parent.

Section ParentExact.
Context {S E : Type} `{EventStoreLaws S} (sha256_hexdigest : string -> string) (utc_clock utc_now : M E Z).
Context (acfg : AdapterConfig (E := E)) (cfg : PoolConfig).
Context (WB : well_behaved (S := S) utc_clock utc_now acfg cfg (fun _ => [])).
Context (model_validate_json : J -> res WorkOutcome).
(** A valid outcome is read back. *)
Context (validate_dump : forall o, validate_outcome o = Ok o -> model_validate_json (model_dump_json o) = Ok o).
Abbreviation port := (in_memory_port sha256_hexdigest utc_clock acfg).
Abbreviation W := (PoolWorld Adapter S E).

(** Phase 1 leases every queued item, in order. *)
Lemma drain_leases_spec fuel : forall ls (w : W),
  (length (ad_queue (pw_port w)) < fuel)%nat -> Forall item_ok (ad_queue (pw_port w)) ->
  exists ls' w', drain_leases port cfg fuel ls w = (Ok (Some (ls ++ ls')), w') /\
    wl_work_item_ref <$> ls' = ad_queue (pw_port w) /\ ad_queue (pw_port w') = [] /\ pw_store w' = pw_store w.
Proof.
  induction fuel as [|fuel IH]; intros ls w Hf Hok; [lia|]. simpl. unfold bind at 1, on_port at 1.
  set (i := Z.of_nat (length ls) mod pc_worker_count cfg). destruct (ad_queue (pw_port w)) as [|x rest] eqn:Hq.
  - simpl. unfold acquire. simpl. rewrite Hq. eexists [], _. rewrite app_nil_r. split; [reflexivity|]. simpl. by rewrite Hq.
  - apply Forall_cons in Hok as [Hx Hok].
    destruct (acquire_next sha256_hexdigest utc_clock utc_now acfg cfg (fun _ => []) WB i x rest _ (pw_env w) Hq Hx)
      as (l & a' & e' & Ha & Ha' & _).
    pose proof (acquire_some _ _ _ _ _ _ _ _ Ha) as (rest' & t & Hq' & _). simpl in Hq'. rewrite Hq in Hq'.
    injection Hq' as Hlx _. cbn [lp_acquire in_memory_port]. rewrite Ha.
    match goal with |- context [drain_leases _ _ _ _ ?w1] => set (w1' := w1) end.
    destruct (IH (ls ++ [l]) w1') as (ls' & w' & Hr & Hl & He & Hs).
    { simpl. rewrite Ha'. simpl in Hf. lia. }
    { simpl. by rewrite Ha'. }
    exists (l :: ls'), w'. rewrite <-app_assoc in Hr. split; [exact Hr|]. simpl in Hl. rewrite Ha' in Hl. csimpl.
    by rewrite Hl, <-Hlx.
Qed.

Record mp_pool_inv (done : list Ref) (w : W) : Prop := {
  mpi_store : es_inv (pw_store w);
  mpi_events : ev_payload_ref <$> es_stream (pw_store w) (pc_run_id cfg) = done;
  mpi_fresh : forall n, Z.of_nat (length done) < n -> es_fresh (pw_store w) (event_id cfg n) }.

(** Phase 4 records one event per delivery, in order of delivery. *)
Lemma drain_outcomes_spec leases ds : forall done (w : W), mp_pool_inv done w ->
  Forall (fun d => exists o, validate_outcome o = Ok o /\ d.2 = model_dump_json o) ds ->
  (forall x, x ∈ delivered_item <$> ds -> exists l, dict_get leases x = Some l /\ wl_work_item_ref l = x) ->
  exists w', drain_outcomes port utc_now model_validate_json cfg leases ds (Z.of_nat (length done)) w =
      (Ok (Z.of_nat (length (done ++ (delivered_item <$> ds)))), w') /\
    mp_pool_inv (done ++ (delivered_item <$> ds)) w'.
Proof.
  induction ds as [|[[wid x] j] ds IH]; intros done w I Hj Hl; simpl.
  - exists w. by rewrite app_nil_r.
  - apply Forall_cons in Hj as [(o & Ho & Hr) Hj]. simpl in Hr. subst j.
    destruct (Hl x ltac:(left)) as (l & Hget & Hlx).
    unfold bind at 1, lift at 1. rewrite validate_dump by done. unfold bind at 1, lift at 1. rewrite Hget.
    unfold bind, modify, on_env, on_store, lift. cbn.
    destruct (wb_now _ _ _ _ _ WB (pw_env w)) as (now & e' & -> & _). cbn.
    set (ev := outbox_event _ _ _ _ _ _). set (n := Z.of_nat (length done)) in *.
    assert (validate_sequence ev = Ok ev) as ->.
    { unfold validate_sequence, ev. cbn. by rewrite (proj2 (Z.leb_le 1 (n + 1)) ltac:(lia)). }
    assert (length (es_stream (pw_store w) (pc_run_id cfg)) = length done) as Hlen
      by (by rewrite <-(mpi_events _ _ I), length_fmap).
    destruct (es_append_next (pw_store w) ev) as (s' & Hs & Hi & Hst & Hf).
    { apply I. }
    { apply (mpi_fresh _ _ I). lia. }
    { apply WB. }
    { cbn. rewrite Hlen. lia. }
    rewrite Hs. cbn.
    match goal with |- context [drain_outcomes _ _ _ _ _ _ _ ?w1] => set (w1' := w1) end.
    assert (n + 1 = Z.of_nat (length (done ++ [x]))) as -> by (rewrite length_app; simpl; lia).
    destruct (IH (done ++ [x]) w1') as (w' & Hrun & I').
    { split; cbn; [done| |].
      - rewrite Hst, decide_True by done. rewrite fmap_app, (mpi_events _ _ I). cbn. by rewrite Hlx.
      - intros m. rewrite length_app. cbn. intros Hm. apply Hf; [apply I; lia|].
        intros Heq. apply (event_id_inj cfg m (n + 1)) in Heq. lia. }
    { done. }
    { intros y Hy. apply Hl. by right. }
    rewrite <-app_assoc in *. exists w'. by rewrite Hrun.
Qed.
End ParentExact.
End Multiprocess.

(** ** Theorems *)

Arguments run {A S E _}.
Arguments run_loop {A S E _}.

(** The drain loop ends for every lease port: with more fuel than the port has
    leases to hand out, [run] returns a report or an exception escapes. *)
Theorem pool_run_ends {A S E} `{EventStore S} (port : LeasePort A E) work now cfg fuel (w : PoolWorld A S E) :
  (lp_pending port (pw_port w) < fuel)%nat ->
  (exists report w', run port work now cfg fuel w = (Ok (Some report), w')) \/
  (exists e w', run port work now cfg fuel w = (Raise e, w')).
Proof.
  intros Hf. unfold run. destruct (run_loop port work now cfg fuel 0 0 w) as [[[report|]|e] w'] eqn:Hr; [eauto| |eauto].
  by apply run_loop_ends in Hr.
Qed.

(** The AIMD windows stay between the initial and the maximal window, under
    any calls of [enqueue], [acquire] and [release] in any order. *)
Theorem aimd_windows_bounded {E} sha (clock : M E Z) cfg s w :
  0 <= ac_initial_window cfg <= ac_max_window cfg ->
  forall s0, ad_aimd_window s0.1 = [] -> rtc (adapter_step sha clock cfg) s0 s ->
  ac_initial_window cfg <= aimd_window_for cfg s.1 w <= ac_max_window cfg.
Proof.
  intros Hw s0 Hs0 Hr.
  assert (windows_ok (ac_initial_window cfg) (ac_max_window cfg) s.1) as Hok.
  { eapply (rtc_preserved _ (fun s => windows_ok _ _ s.1)); [|exact Hr|].
    - apply windows_step; lia.
    - intros x y. by rewrite Hs0. }
  unfold aimd_window_for, dict_get_or. destruct (dict_get _ w) as [x|] eqn:Ex; simpl; [by eapply Hok|lia].
Qed.

(** C35: The worker processes finish. Suppose that there is a worker, that the
    children can import the callable, that it returns or raises an [Exception]
    on every item, and that no process is killed: then the processes make only
    the moves of [mp_move], and while fewer outcomes than items have been put
    some process can move; every move brings the end nearer; and when none is
    possible every item has been delivered once, so the parent's reads of the
    output queue are all served, whatever the scheduling. *)
Theorem mp_workers_finish {J} (dump : WorkOutcome -> J) exn_name workers items s :
  workers <> [] -> rtc (mp_move dump exn_name) (mp_start true workers items) s ->
  ((length (mp_output s) < length items)%nat -> exists s', mp_move dump exn_name s s') /\
  (forall s', mp_move dump exn_name s s' -> (mp_measure s' < mp_measure s)%nat) /\
  ((forall s', ~ mp_move dump exn_name s s') -> (delivered_item <$> mp_output s) ≡ₚ items).
Proof.
  intros Hw Hr.
  assert (located items [] s) as Hi by (eapply rtc_preserved; [intros ???; by eapply move_located|exact Hr|apply start_located]).
  assert (sentinels_ok s) as Hs by (eapply rtc_preserved; [apply move_sentinels|exact Hr|by apply start_sentinels]).
  split_and!; [by eapply mp_progress|by apply mp_move_measure|]. intros Hend. eapply located_delivered; [done|].
  destruct (Nat.le_gt_cases (length items) (length (mp_output s))) as [?|Hlt]; [done|].
  destruct (mp_progress dump exn_name items s Hi Hs Hlt) as [s' Hs']. by destruct (Hend s').
Qed.

(** C34: The multiprocess pool over the in-memory adapter records every queued
    item exactly once, in the order of delivery, whatever the scheduling of the
    worker processes, whether their callables return or raise and whichever of
    them die, once as many outcomes have been delivered as items were queued
    (the parent waits for that many, and forever if a death loses one, or if no
    child can import the callable). Suppose that the items are not blank, that
    there is no budget gate or it admits the pool, that the clocks return, that
    the run's log is empty, and that the JSON text of a valid outcome reads back
    as that outcome. *)
Theorem mp_pool_records_each_item_once {J S E} `{EventStoreLaws S} (dump : WorkOutcome -> J) exn_name sha
    (utc_clock utc_now : M E Z) acfg cfg parse fuel resolves workers (w : PoolWorld Adapter S E) :
  well_behaved (S := S) utc_clock utc_now acfg cfg (fun _ => []) ->
  (forall o, validate_outcome o = Ok o -> parse (dump o) = Ok o) ->
  let queue := ad_queue (pw_port w) in
  (length queue < fuel)%nat -> Forall item_ok queue ->
  es_inv (pw_store w) -> es_stream (pw_store w) (pc_run_id cfg) = [] ->
  (forall n, es_fresh (pw_store w) (event_id cfg n)) ->
  exists leases w1,
    drain_leases (in_memory_port sha utc_clock acfg) cfg fuel [] w = (Ok (Some leases), w1) /\
    wl_work_item_ref <$> leases = queue /\
    forall s, rtc (mp_step dump exn_name) (mp_start resolves workers queue) s ->
      length (mp_output s) = length queue ->
      exists w2, mp_finish (in_memory_port sha utc_clock acfg) utc_now parse cfg leases (mp_output s) w1 =
          (Ok {| mr_pool_id := pc_pool_id cfg; mr_run_id := pc_run_id cfg;
                 mr_processed_count := Z.of_nat (length queue); mr_outbox_event_count := Z.of_nat (length queue) |}, w2) /\
        ev_payload_ref <$> es_stream (pw_store w2) (pc_run_id cfg) = (delivered_item <$> mp_output s) /\
        (delivered_item <$> mp_output s) ≡ₚ queue.
Proof.
  intros WB Hparse queue Hf Hok Hi Hst Hfr.
  destruct (drain_leases_spec sha utc_clock utc_now acfg cfg WB fuel [] w Hf Hok) as (leases & w1 & Hd & Hl & _ & Hs).
  exists leases, w1. split; [done|]. split; [done|]. intros s Hr Hlen.
  assert (exists lost, located queue lost s) as [lost Hloc].
  { eapply (rtc_preserved _ (fun s => exists lost, located queue lost s)); [|exact Hr|].
    - intros s0 s1 Hstep [l0 Hl0]. by eapply step_located.
    - exists []. apply start_located. }
  assert (outcomes_ok dump s) as Hjson by (eapply rtc_preserved; [apply step_outcomes|exact Hr|constructor]).
  assert ((delivered_item <$> mp_output s) ≡ₚ queue) as Hperm by (eapply located_delivered; [done|lia]).
  assert (length leases = length queue) as Hll by (by rewrite <-(length_fmap wl_work_item_ref leases), Hl).
  destruct leases as [|l0 leases]; unfold mp_finish.
  - destruct queue; [|done]. destruct (mp_output s); [|done]. eexists. split; [done|].
    split; [|done]. by rewrite Hs, Hst.
  - destruct (drain_outcomes_spec dump sha utc_clock utc_now acfg cfg WB parse Hparse
      (leases_by_ref (l0 :: leases)) (mp_output s) [] w1) as (w2 & Hrun & I2).
    + rewrite <-Hs in *. by split; rewrite ?Hst.
    + done.
    + intros x Hx. apply leases_by_ref_get. rewrite Hl. fold queue. by rewrite <-Hperm.
    + simpl in Hrun, I2. change (Z.of_nat 0) with 0 in Hrun. unfold bind. rewrite Hrun. exists w2. rewrite length_fmap, Hlen, Hll. split; [done|].
      split; [apply I2|done].
Qed.

(** ** Witnesses *)

(** The environment is the work executed so far. *)

Definition frozen_clock : M (list WorkerLease) Z := fun e => (Ok 0, e).
Definition succeed (l : WorkerLease) : M (list WorkerLease) WorkOutcome := fun e =>
  (Ok {| wo_success := true; wo_error_kind := None |}, e ++ [l]).
Definition demo_acfg : AdapterConfig (E := list WorkerLease) :=
  {| ac_lease_ttl := 60000000; ac_budget_gate := None; ac_initial_window := 1; ac_max_window := 16 |}.
Definition demo_pcfg : PoolConfig :=
  {| pc_pool_id := "p"; pc_worker_count := 2; pc_run_id := "run"; pc_utc_clock_ref := "clock"; pc_budget_ref := "budget" |}.
Definition demo_adapter (items : list Ref) : Adapter := enqueue items new_adapter.
Definition demo_pool (items : list Ref) : PoolWorld Adapter InMemory.InMemoryEventStore (list WorkerLease) :=
  {| pw_port := demo_adapter items; pw_store := InMemory.empty; pw_env := []; pw_processed_count := 0;
     pw_processed_lease_ids := ∅ |}.
Abbreviation demo_port := (in_memory_port id frozen_clock demo_acfg).

Lemma demo_well_behaved calls : well_behaved (S := InMemory.InMemoryEventStore) frozen_clock frozen_clock demo_acfg demo_pcfg calls.
Proof.
  split; [done|done| | |by vm_compute|done].
  - intros e. exists 0, e. by split_and!.
  - intros e. by exists 0, e.
Qed.


Lemma pool_run_ends_witness :
  (exists report w', run demo_port succeed frozen_clock demo_pcfg 4 (demo_pool ["a"; "b"; "c"]) = (Ok (Some report), w')) \/
  (exists e w', run demo_port succeed frozen_clock demo_pcfg 4 (demo_pool ["a"; "b"; "c"]) = (Raise e, w')).
Proof. apply (pool_run_ends demo_port). simpl. lia. Defined.


Lemma aimd_windows_bounded_witness :
  let s := (demo_adapter ["a"], []) in
  let s' := (acquire id frozen_clock demo_acfg "w" "budget" s).2 in
  1 <= aimd_window_for demo_acfg s'.1 "w" <= 16.
Proof.
  intros s s'. apply (aimd_windows_bounded id frozen_clock demo_acfg s' "w") with (s0 := s).
  - simpl. lia.
  - done.
  - apply rtc_once. apply (AsAcquire id frozen_clock demo_acfg "w" "budget" s).
Defined.

Definition mp_dump (o : WorkOutcome) : WorkOutcome := o.
Definition demo_exn_name (e : exn) : string := "error".
Definition demo_delivery (w : string) (x : Ref) : string * Ref * WorkOutcome :=
  (w, x, {| wo_success := true; wo_error_kind := None |}).
Definition demo_mp_end : MpState (J := WorkOutcome) :=
  {| mp_input := [None; None]; mp_idle := ["w1"; "w0"]; mp_busy := [];
     mp_output := [demo_delivery "w0" "b"; demo_delivery "w1" "a"] |}.

Lemma demo_mp_run : rtc (mp_move mp_dump demo_exn_name) (mp_start true ["w0"; "w1"] ["a"; "b"]) demo_mp_end.
Proof.
  eapply rtc_l; [apply (MpTake mp_dump demo_exn_name "w1" "a" _ ["w0"] [] [] [])|].
  eapply rtc_l; [apply (MpTake mp_dump demo_exn_name "w0" "b" _ [] [] [("w1", "a")] [])|].
  eapply rtc_l; [by apply (MpPut mp_dump demo_exn_name "w0" "b" (Ok {| wo_success := true; wo_error_kind := None |}) _ [] [] [("w1", "a")] [])|].
  eapply rtc_l; [by apply (MpPut mp_dump demo_exn_name "w1" "a" (Ok {| wo_success := true; wo_error_kind := None |}) _ ["w0"] [] [] [_])|].
  apply rtc_refl.
Qed.

Lemma mp_workers_finish_witness :
  exists s', mp_move mp_dump demo_exn_name (mp_start true ["w0"; "w1"] ["a"; "b"]) s'.
Proof.
  apply (mp_workers_finish mp_dump demo_exn_name ["w0"; "w1"] ["a"; "b"] (mp_start true ["w0"; "w1"] ["a"; "b"])).
  - done.
  - apply rtc_refl.
  - simpl. lia.
Defined.

Lemma mp_pool_records_each_item_once_witness :
  exists leases w1 w2, drain_leases demo_port demo_pcfg 3 [] (demo_pool ["a"; "b"]) = (Ok (Some leases), w1) /\
    mp_finish demo_port frozen_clock validate_outcome demo_pcfg leases (mp_output demo_mp_end) w1 =
      (Ok {| mr_pool_id := "p"; mr_run_id := "run"; mr_processed_count := 2; mr_outbox_event_count := 2 |}, w2) /\
    ev_payload_ref <$> es_stream (pw_store w2) "run" = ["b"; "a"].
Proof.
  destruct (mp_pool_records_each_item_once mp_dump demo_exn_name id frozen_clock frozen_clock demo_acfg demo_pcfg
    validate_outcome 3 true ["w0"; "w1"] (demo_pool ["a"; "b"])) as (leases & w1 & Hd & _ & Hall).
  - apply demo_well_behaved.
  - done.
  - simpl. lia.
  - repeat constructor.
  - intros r. exact (numbered_nil r).
  - done.
  - done.
  - destruct (Hall demo_mp_end) as (w2 & Hf & He & _); [eapply rtc_subrel; [|apply demo_mp_run]; intros; by left|done|].
    exists leases, w1, w2. split; [exact Hd|split; [exact Hf|exact He]].
Defined.

(** ** What the code does not guard against *)

(** One item queued twice is leased twice under one id when the same worker
    draws it at the same clock reading: the pool drops the second. *)
Example repeated_item_dropped :
  (match run demo_port succeed frozen_clock
     {| pc_pool_id := "p"; pc_worker_count := 1; pc_run_id := "run"; pc_utc_clock_ref := "clock"; pc_budget_ref := "budget" |}
     3 (demo_pool ["a"; "a"]) with
   | (Ok (Some report), w) => (rp_processed_count report, ad_queue (pw_port w))
   | _ => (0, ["?"])
   end) = (1, []).
Proof. by vm_compute. Qed.

(** A second [run] numbers its events from 1 again: the work is executed and
    the append then raises. *)
Example second_run_raises :
  let w1 := (run demo_port succeed frozen_clock demo_pcfg 4 (demo_pool ["a"])).2 in
  let w2 := set_port (enqueue ["b"]) w1 in
  (run demo_port succeed frozen_clock demo_pcfg 4 w2).1 = Raise (ReplayValidationError "event sequence gap for run: expected 2, got 1").
Proof. by vm_compute. Qed.

(** Nothing relates the initial window to the maximal one: a success can
    shrink the window. *)
Example success_shrinks_window :
  let cfg := {| ac_lease_ttl := 60000000; ac_budget_gate := (None : option (Ref -> M (list WorkerLease) bool)); ac_initial_window := 20; ac_max_window := 16 |} in
  let l := {| wl_id := "l"; wl_lease_ref := "l"; wl_work_item_ref := "a"; wl_worker_id := "w"; wl_acquired_at := 0;
              wl_expires_at := 1; wl_aimd_state_ref := "s"; wl_budget_ref := "b" |} in
  aimd_window_for cfg (release cfg l {| wo_success := true; wo_error_kind := None |} (demo_adapter [])) "w" = 16 /\
  aimd_window_for cfg (demo_adapter []) "w" = 20.
Proof. by vm_compute. Qed.

(** If the children cannot import the callable no outcome is ever put, and the
    parent waits forever for the first one. *)
Lemma unresolved_callable_hangs {J} (dump : WorkOutcome -> J) exn_name workers items s :
  ~ mp_move dump exn_name (mp_start false workers items) s.
Proof.
  unfold mp_start. intros Hs. remember {| mp_input := _; mp_idle := _; mp_busy := _; mp_output := _ |} as s0 eqn:E.
  destruct Hs as [w x rest b a busy out|w rest b a busy out|w x r input idle b a out];
    [apply (f_equal mp_idle) in E|apply (f_equal mp_idle) in E|apply (f_equal mp_busy) in E]; simpl in E; by destruct b.
Qed.

(** A process that is killed at work takes its item with it: from then on no
    move of the others brings the outcomes the parent waits for. *)
Lemma killed_worker_hangs : exists s : MpState (J := WorkOutcome),
  rtc (mp_step mp_dump demo_exn_name) (mp_start true ["w0"] ["a"]) s /\
  mp_output s = [] /\ forall s', ~ mp_step mp_dump demo_exn_name s s'.
Proof.
  exists {| mp_input := [None]; mp_idle := []; mp_busy := []; mp_output := [] |}. split; [|split; [done|]].
  - eapply rtc_l; [left; apply (MpTake mp_dump demo_exn_name "w0" "a" _ [] [] [] [])|].
    apply rtc_once. right. apply (MpKilled "w0" "a" _ _ [] []).
  - intros s' [Hs|Hs]; remember {| mp_input := _; mp_idle := _; mp_busy := _; mp_output := _ |} as s0 eqn:E;
      destruct Hs as [w x rest b a busy out|w rest b a busy out|w x r input idle b a out]
        || destruct Hs as [w input b a busy out|w x input idle b a out];
      first [apply (f_equal mp_idle) in E; simpl in E; by destruct b|apply (f_equal mp_busy) in E; simpl in E; by destruct b].
Qed.
