(* ===== verification/PersistModels.v ===== *)
(** * Contracts of the persistence adapters

    The pydantic models of [contracts/persistence.py] and the queue models of
    [contracts/scale.py] that the adapters store, with their validators, in the
    style of [Contracts]. Timestamps are UTC microseconds. *)
From S2P Require Import Prelude PyDict Contracts.
Local Open Scope Z_scope.

Inductive ScaleQueueName :=
  SQ_FRONTIER | SQ_PROCESSING | SQ_VERIFICATION_REVIEW | SQ_EXPORT_OUTBOX | SQ_PROJECTION | SQ_RECOVERY.
Inductive ScaleRetryClass :=
  RC_TRANSIENT | RC_RATE_LIMITED | RC_POLICY_BLOCKED | RC_PERMANENT_SOURCE_FAILURE | RC_ADAPTER_BUG
  | RC_WORKER_CRASH | RC_PROJECTION_MISMATCH | RC_DESTINATION_REJECTED.
Inductive ScaleQueueItemStatus := QI_QUEUED | QI_LEASED | QI_ACKED | QI_NACKED | QI_DEAD_LETTERED.
Inductive ScaleShardLeaseStatus := SL_ACTIVE | SL_EXPIRED | SL_RELEASED | SL_REVOKED.
Inductive PersistentQueueOperation := QO_ENQUEUE | QO_LEASE | QO_HEARTBEAT | QO_ACK | QO_NACK | QO_DEAD_LETTER.
Inductive PersistenceMigrationStatus := PM_APPLIED | PM_ROLLED_BACK | PM_FAILED.

#[export] Instance ScaleQueueItemStatus_eq_dec : EqDecision ScaleQueueItemStatus.
Proof. solve_decision. Defined.
#[export] Instance ScaleShardLeaseStatus_eq_dec : EqDecision ScaleShardLeaseStatus.
Proof. solve_decision. Defined.
#[export] Instance PersistentQueueOperation_eq_dec : EqDecision PersistentQueueOperation.
Proof. solve_decision. Defined.
#[export] Instance PersistenceMigrationStatus_eq_dec : EqDecision PersistenceMigrationStatus.
Proof. solve_decision. Defined.

Definition PersistentQueueOperation_value (o : PersistentQueueOperation) : string :=
  match o with
  | QO_ENQUEUE => "enqueue" | QO_LEASE => "lease" | QO_HEARTBEAT => "heartbeat"
  | QO_ACK => "ack" | QO_NACK => "nack" | QO_DEAD_LETTER => "dead_letter"
  end.

(** ** contracts/scale.py *)

Record QueueItem := {
  qi_id : string;
  qi_queue_name : ScaleQueueName;
  qi_shard_key : string;
  qi_run_id : string;
  qi_aggregate_type : string;
  qi_aggregate_id : string;
  qi_command_ref : Ref;
  qi_priority : Z;
  qi_retry_class : ScaleRetryClass;
  qi_idempotency_key : string;
  qi_expected_version_ref : Ref;
  qi_lease_token : option string;
  qi_lease_expires_at : option Z;
  qi_attempts : Z;
  qi_deadline_at : Z;
  qi_status : ScaleQueueItemStatus;
  qi_updated_at : Z;
  qi_created_at : Z }.

Definition validate_item (i : QueueItem) : res QueueItem :=
  do? guard (truthy_str (qi_shard_key i) && truthy_str (qi_command_ref i))
        (ValidationError "queue item requires shard key and command ref") in
  do? guard (negb ((qi_priority i <? 0) || (qi_attempts i <? 0)))
        (ValidationError "priority and attempts must be non-negative") in
  do? guard (truthy_str (qi_idempotency_key i) && truthy_str (qi_expected_version_ref i))
        (ValidationError "queue item requires idempotency and expected version refs") in
  do? guard (negb (bool_decide (qi_status i = QI_LEASED))
             || (truthy_opt (qi_lease_token i) && (if qi_lease_expires_at i is Some _ then true else false)))
        (ValidationError "leased queue item requires lease token and expiry") in
  do? guard (negb (bool_decide (qi_status i = QI_DEAD_LETTERED)) || (1 <=? qi_attempts i))
        (ValidationError "dead-letter queue item requires attempts") in
  Ok i.

Record ShardLease := {
  sl_id : string;
  sl_queue_name : ScaleQueueName;
  sl_shard_key : string;
  sl_worker_id : string;
  sl_lease_token : string;
  sl_acquired_at : Z;
  sl_heartbeat_at : Z;
  sl_expires_at : Z;
  sl_policy_decision_refs : list Ref;
  sl_status : ScaleShardLeaseStatus;
  sl_created_at : Z }.

Definition validate_shard_lease (l : ShardLease) : res ShardLease :=
  do? guard (sl_acquired_at l <? sl_expires_at l) (ValidationError "lease expiry must be after acquisition") in
  do? guard (sl_acquired_at l <=? sl_heartbeat_at l) (ValidationError "lease heartbeat cannot predate acquisition") in
  do? guard (negb (bool_decide (sl_status l = SL_ACTIVE)) || truthy_list (sl_policy_decision_refs l))
        (ValidationError "active shard lease requires policy refs") in
  Ok l.

Record RetryDeadLetterRecord := {
  rd_id : string;
  rd_queue_item_id : string;
  rd_run_id : string;
  rd_retry_class : ScaleRetryClass;
  rd_attempts : Z;
  rd_final_reason : string;
  rd_failure_record_id : Ref;
  rd_recovery_action_refs : list Ref;
  rd_created_at : Z }.

Definition validate_dead_letter (r : RetryDeadLetterRecord) : res RetryDeadLetterRecord :=
  do? guard (1 <=? rd_attempts r) (ValidationError "dead-letter record requires attempts") in
  do? guard (truthy_str (rd_final_reason r) && truthy_str (rd_failure_record_id r))
        (ValidationError "dead-letter record requires reason and failure record") in
  do? guard (truthy_list (rd_recovery_action_refs r)) (ValidationError "dead-letter record requires recovery action refs") in
  Ok r.

(** ** contracts/persistence.py *)

Record PersistenceTransactionRecord := {
  pt_id : string;
  pt_adapter_ref : Ref;
  pt_run_ref : Ref;
  pt_unit_of_work_ref : Ref;
  pt_status : UnitOfWorkStatus;
  pt_command_record_refs : list Ref;
  pt_event_refs : list Ref;
  pt_outbox_refs : list Ref;
  pt_artifact_refs : list Ref;
  pt_idempotency_record_refs : list Ref;
  pt_queue_operation_refs : list Ref;
  pt_policy_decision_refs : list Ref;
  pt_committed_at_ref : option Ref;
  pt_rollback_reason_refs : list Ref;
  pt_failure_refs : list Ref;
  pt_created_at : Z }.

Definition validate_transaction (t : PersistenceTransactionRecord) : res PersistenceTransactionRecord :=
  do? guard (negb (bool_decide (pt_status t = UOW_COMMITTED))
             || (truthy_list (pt_command_record_refs t) && truthy_list (pt_event_refs t)
                 && truthy_list (pt_outbox_refs t) && truthy_list (pt_artifact_refs t)
                 && truthy_list (pt_idempotency_record_refs t) && truthy_list (pt_queue_operation_refs t)
                 && truthy_list (pt_policy_decision_refs t) && truthy_opt (pt_committed_at_ref t)))
        (ValidationError "committed persistence transaction missing refs") in
  do? guard (negb (bool_decide (pt_status t = UOW_ROLLED_BACK)) || truthy_list (pt_rollback_reason_refs t))
        (ValidationError "rolled back persistence transaction requires rollback reason refs") in
  do? guard (negb (bool_decide (pt_status t = UOW_FAILED)) || truthy_list (pt_failure_refs t))
        (ValidationError "failed persistence transaction requires failure refs") in
  Ok t.

Record IdempotencyPersistenceRecord := {
  ir_id : string;
  ir_idempotency_key : string;
  ir_command_identity : string;
  ir_command_record_ref : Ref;
  ir_command_result_ref : option Ref;
  ir_event_refs : list Ref;
  ir_outbox_refs : list Ref;
  ir_duplicate_of_ref : option Ref;
  ir_status : DurableCommandRecordStatus;
  ir_created_at : Z }.

Definition validate_idempotency (r : IdempotencyPersistenceRecord) : res IdempotencyPersistenceRecord :=
  do? guard (truthy_str (ir_idempotency_key r) && truthy_str (ir_command_identity r))
        (ValidationError "idempotency record requires key and command identity") in
  do? guard (negb (bool_decide (ir_status r = DCR_COMMITTED))
             || (truthy_opt (ir_command_result_ref r) && truthy_list (ir_event_refs r) && truthy_list (ir_outbox_refs r)))
        (ValidationError "committed idempotency record requires result, event, and outbox refs") in
  do? guard (negb (bool_decide (ir_status r = DCR_DUPLICATE)) || truthy_opt (ir_duplicate_of_ref r))
        (ValidationError "duplicate idempotency record requires duplicate_of_ref") in
  Ok r.

Record PersistentQueueOperationRecord := {
  qo_id : string;
  qo_queue_name : ScaleQueueName;
  qo_operation : PersistentQueueOperation;
  qo_queue_item_ref : Ref;
  qo_lease_ref : option Ref;
  qo_lease_token_ref : option Ref;
  qo_heartbeat_ref : option Ref;
  qo_command_result_ref : option Ref;
  qo_failure_record_refs : list Ref;
  qo_recovery_action_refs : list Ref;
  qo_dead_letter_ref : option Ref;
  qo_policy_decision_refs : list Ref;
  qo_created_at : Z }.

Definition validate_operation (o : PersistentQueueOperationRecord) : res PersistentQueueOperationRecord :=
  let op := qo_operation o in
  do? guard (bool_decide (op = QO_ENQUEUE) || (truthy_opt (qo_lease_ref o) && truthy_opt (qo_lease_token_ref o)))
        (ValidationError "leased queue operation requires lease and token refs") in
  do? guard (negb (bool_decide (op = QO_HEARTBEAT)) || truthy_opt (qo_heartbeat_ref o))
        (ValidationError "heartbeat queue operation requires heartbeat ref") in
  do? guard (negb (bool_decide (op = QO_ACK)) || truthy_opt (qo_command_result_ref o))
        (ValidationError "ack queue operation requires command result ref") in
  do? guard (negb (bool_decide (op = QO_NACK) || bool_decide (op = QO_DEAD_LETTER))
             || (truthy_list (qo_failure_record_refs o) && truthy_list (qo_recovery_action_refs o)))
        (ValidationError "nack/dead-letter operation requires failure and recovery refs") in
  do? guard (negb (bool_decide (op = QO_DEAD_LETTER)) || truthy_opt (qo_dead_letter_ref o))
        (ValidationError "dead-letter operation requires dead letter ref") in
  Ok o.

Record PersistenceMigrationRecord := {
  mg_id : string;
  mg_adapter_ref : Ref;
  mg_migration_name : string;
  mg_from_version : string;
  mg_to_version : string;
  mg_status : PersistenceMigrationStatus;
  mg_applied_at_ref : option Ref;
  mg_rollback_plan_ref : option Ref;
  mg_validation_event_cursor_ref : option Ref;
  mg_failure_refs : list Ref;
  mg_created_at : Z }.

Definition validate_migration (m : PersistenceMigrationRecord) : res PersistenceMigrationRecord :=
  do? guard (truthy_str (mg_migration_name m) && negb (bool_decide (mg_from_version m = mg_to_version m)))
        (ValidationError "persistence migration requires a named version transition") in
  do? guard (negb (bool_decide (mg_status m = PM_APPLIED))
             || (truthy_opt (mg_applied_at_ref m) && truthy_opt (mg_rollback_plan_ref m)
                 && truthy_opt (mg_validation_event_cursor_ref m)))
        (ValidationError "applied persistence migration missing refs") in
  do? guard (negb (bool_decide (mg_status m = PM_ROLLED_BACK)) || truthy_opt (mg_rollback_plan_ref m))
        (ValidationError "rolled back persistence migration requires rollback plan ref") in
  do? guard (negb (bool_decide (mg_status m = PM_FAILED)) || truthy_list (mg_failure_refs m))
        (ValidationError "failed persistence migration requires failure refs") in
  Ok m.
