(* ===== verification/DocStore.v ===== *)
(** * Document stores

    The storage primitives under the persistence adapter:
    [_put_document], [_get_document] and [_list_documents] of
    [adapters/persistence/json_document.py] (the abstract mixin) and of
    [adapters/persistence/sqlite.py] (a table). The class [DocStore] states what
    an adapter may rely on: every collection is a dict of documents, read back in
    key order. The SQLite table is an instance. [Json] is the parsed JSON
    document; the key order of SQLite ([BINARY]) is that of the keys' bytes. *)
From stdpp Require Import sorting.
From S2P Require Import Prelude PyDict PyList PyStr.

Definition by_key {X} (p q : string * X) : bool := String.leb p.1 q.1.

Section DocStore.
Context {Json : Type}.

Class DocStore (D : Type) := {
  put_document : string -> string -> Json -> M D string;
  get_document : string -> string -> M D (option Json);
  list_documents : string -> M D (list Json);
  ds_inv : D -> Prop;
  (** The documents of a collection, by key. *)
  ds_docs : D -> string -> dict string Json }.

Class DocStoreLaws (D : Type) `{DocStore D} := {
  put_spec : forall c k j s, ds_inv s ->
    exists s', put_document c k j s = (Ok k, s') /\ ds_inv s' /\
      forall c', ds_docs s' c' = if decide (c' = c) then py_sorted by_key (dict_set (ds_docs s c) k j) else ds_docs s c';
  get_spec : forall c k s, ds_inv s -> get_document c k s = (Ok (dict_get (ds_docs s c) k), s);
  list_spec : forall c s, ds_inv s -> list_documents c s = (Ok (dict_values (ds_docs s c)), s);
  docs_wf : forall c s, ds_inv s -> dict_wf (ds_docs s c) }.

(** ** Dicts sorted by key *)

Lemma dict_fun {X} (d : dict string X) k x y : dict_wf d -> (k, x) ∈ d -> (k, y) ∈ d -> x = y.
Proof. intros Hwf Hx Hy. apply (dict_get_in _ _ _ Hwf) in Hx, Hy. congruence. Qed.

Lemma by_key_sorted {X} (d d' : dict string X) : dict_wf d -> d ≡ₚ d' -> py_sorted by_key d = py_sorted by_key d'.
Proof.
  intros Hnd HP. apply py_sorted_ext; [| | |done].
  - intros x y. apply string_leb_total.
  - intros x y z. apply string_leb_trans.
  - intros [k x] [k' y] Hx Hy H1 H2. unfold by_key in *. simpl in *.
    assert (k = k') as <- by (by apply string_leb_antisym). f_equal. by eapply dict_fun.
Qed.

Lemma sorted_wf {X} (d : dict string X) : dict_wf d -> dict_wf (py_sorted by_key d).
Proof. intros Hwf. eapply dict_wf_perm; [|exact Hwf]. by rewrite py_sorted_perm. Qed.

Lemma sorted_get {X} (d : dict string X) k : dict_wf d -> dict_get (py_sorted by_key d) k = dict_get d k.
Proof. intros Hwf. apply dict_perm_get; [done|]. by rewrite py_sorted_perm. Qed.

Lemma sorted_idem {X} (d : dict string X) : dict_wf d -> py_sorted by_key (py_sorted by_key d) = py_sorted by_key d.
Proof. intros Hwf. apply by_key_sorted; [by apply sorted_wf|]. apply py_sorted_perm. Qed.

(** Writing a key in a sorted dict or in the dict it was sorted from. *)
Lemma sorted_set {X} (d : dict string X) k x : dict_wf d ->
  py_sorted by_key (dict_set (py_sorted by_key d) k x) = py_sorted by_key (dict_set d k x).
Proof.
  intros Hwf. apply by_key_sorted; [by apply dict_set_wf, sorted_wf|].
  destruct (dict_get d k) as [y|] eqn:E.
  - rewrite (dict_set_perm _ _ _ y), (dict_set_perm d _ _ y) by (by rewrite ?sorted_get).
    apply Permutation_skip. apply (Permutation_cons_inv (a:=(k, y))).
    rewrite !dict_del_perm by (by rewrite ?sorted_get). apply py_sorted_perm.
  - rewrite !dict_set_new by (by rewrite ?sorted_get). by rewrite py_sorted_perm.
Qed.
End DocStore.
Arguments DocStore : clear implicits.
Arguments DocStoreLaws : clear implicits.
Arguments DocStoreLaws Json D {_}.

(** ** The SQLite table

    [documents (collection, key, document)] with its primary key: a dict from
    (collection, key) in insertion order; [INSERT ... ON CONFLICT DO UPDATE]
    is [dict_set], [SELECT ... ORDER BY key] filters and sorts. *)
Module SqliteDocs.
Section SqliteDocs.
Context {Json : Type}.

Record SqliteDb := { documents : dict (string * string) Json }.

Definition _initialize : SqliteDb := {| documents := [] |}.

Definition _put_document (collection key : string) (document : Json) : M SqliteDb string :=
  do* modify (fun db => {| documents := dict_set (documents db) (collection, key) document |}) in ret key.

Definition _get_document (collection key : string) : M SqliteDb (option Json) :=
  gets (fun db => dict_get (documents db) (collection, key)).

(** [SELECT key, document ... WHERE collection = ? ORDER BY key] *)
Fixpoint rows_of (collection : string) (rows : dict (string * string) Json) : dict string Json :=
  match rows with
  | [] => []
  | (c, k, j) :: rows' => if decide (c = collection) then (k, j) :: rows_of collection rows' else rows_of collection rows'
  end.
Definition select (collection : string) (db : SqliteDb) : dict string Json :=
  py_sorted by_key (rows_of collection (documents db)).

Definition _list_documents (collection : string) : M SqliteDb (list Json) :=
  gets (fun db => dict_values (select collection db)).

(** [SELECT key ... WHERE collection = "artifact_refs" ORDER BY key] *)
Definition list_artifact_refs (db : SqliteDb) : list string := dict_keys (select "artifact_refs" db).

Lemma rows_get rows c k : dict_get (rows_of c rows) k = dict_get rows (c, k).
Proof.
  induction rows as [|[[c' k'] j] rows IH]; [done|]. rewrite dict_get_cons. simpl rows_of.
  destruct (decide (c' = c)) as [->|Hc].
  - rewrite dict_get_cons. destruct (decide (k = k')) as [->|Hk].
    + by rewrite decide_True.
    + rewrite (decide_False (P := (c, k) = (c, k'))) by congruence. apply IH.
  - rewrite decide_False by congruence. apply IH.
Qed.

Lemma rows_set rows c k j c' :
  rows_of c' (dict_set rows (c, k) j) = if decide (c' = c) then dict_set (rows_of c rows) k j else rows_of c' rows.
Proof.
  induction rows as [|[[c0 k0] j0] rows IH].
  - simpl. destruct (decide (c' = c)) as [->|Hc]; [by rewrite decide_True|by rewrite decide_False by congruence].
  - rewrite dict_set_cons. destruct (decide ((c, k) = (c0, k0))) as [[= <- <-]|Hne]; simpl rows_of.
    + destruct (decide (c' = c)) as [->|Hc]; [|by rewrite !decide_False by congruence].
      rewrite !decide_True by done. rewrite dict_set_cons. by rewrite decide_True.
    + rewrite IH. destruct (decide (c' = c)) as [->|Hc]; [|done].
      destruct (decide (c0 = c)) as [->|Hc0]; [|done]. rewrite dict_set_cons. by rewrite decide_False by congruence.
Qed.

Lemma rows_keys rows c k : k ∈ dict_keys (rows_of c rows) -> (c, k) ∈ dict_keys rows.
Proof.
  intros Hk. destruct (decide ((c, k) ∈ dict_keys rows)) as [?|Hno]; [done|exfalso].
  apply dict_get_None in Hno. rewrite <-rows_get in Hno. apply dict_get_None in Hno. done.
Qed.

Lemma rows_wf rows c : dict_wf rows -> dict_wf (rows_of c rows).
Proof.
  induction rows as [|[[c' k] j] rows IH]; simpl; [intros _; apply dict_empty_wf|]. intros [Hk Hwf]%dict_wf_cons.
  destruct (decide (c' = c)) as [->|Hc]; [|by apply IH]. apply dict_wf_cons. split; [|by apply IH].
  intros Hin. by apply Hk, rows_keys.
Qed.
End SqliteDocs.
End SqliteDocs.

#[export] Instance sqlite_docs {Json} : DocStore Json (SqliteDocs.SqliteDb (Json := Json)) := {
  put_document := SqliteDocs._put_document;
  get_document := SqliteDocs._get_document;
  list_documents := SqliteDocs._list_documents;
  ds_inv := fun db => dict_wf (SqliteDocs.documents db);
  ds_docs := fun db c => SqliteDocs.select c db }.

#[export] Instance sqlite_docs_laws {Json} : DocStoreLaws Json (SqliteDocs.SqliteDb (Json := Json)).
Proof.
  split; cbn; unfold SqliteDocs.select.
  - intros c k j s Hwf. eexists. split; [reflexivity|]. cbn. split; [by apply dict_set_wf|]. intros c'.
    rewrite SqliteDocs.rows_set. case_decide; [|done]. symmetry. by apply sorted_set, SqliteDocs.rows_wf.
  - intros c k s Hwf. rewrite sorted_get by (by apply SqliteDocs.rows_wf). by rewrite SqliteDocs.rows_get.
  - done.
  - intros c s Hwf. by apply sorted_wf, SqliteDocs.rows_wf.
Qed.
