(* ===== verification/Persistence.v ===== *)
(** * The persistence adapter over documents

    [adapters/persistence/json_document.py]: the behaviour of the persistence
    ports over any [DocStore]. A model type passed to [_get_model] is its
    validator: [JsonModel] is pydantic's promise that loading a dumped model
    validates it again. Every clock reading of a call is an argument ([now]).
    What the adapter promises is in [PersistLaws]; the store of
    [runtime_support/persistence_store.py], whose bodies are written out again,
    is in [ReferenceStore]. *)
From S2P Require Import Prelude PyDict PyList PyStr Contracts EventStore DurableStore PersistModels DocStore.
Local Open Scope Z_scope.

(** [X.model_dump(mode="json")] and [X.model_validate(document)]. *)
Class JsonModel (Json : Type) {X : Type} (validator : X -> res X) := {
  model_dump : X -> Json;
  model_validate : Json -> res X;
  validate_dumped : forall x, model_validate (model_dump x) = validator x }.
Arguments model_dump {Json X} validator {_} _.
Arguments model_validate {Json X} validator {_} _.

(** The document [{"id": ref}] of an artifact. *)
Definition artifact_document (ref : Ref) : res Ref := Ok ref.

Section Adapter.
Context {Json D : Type} `{DS : DocStore Json D}.
Context `{JEvent : !JsonModel Json validate_sequence} `{JOutbox : !JsonModel Json validate_outbox}
        `{JCommand : !JsonModel Json validate_record} `{JResult : !JsonModel Json validate_result}
        `{JIdem : !JsonModel Json validate_idempotency} `{JTrans : !JsonModel Json validate_transaction}
        `{JMig : !JsonModel Json validate_migration} `{JOp : !JsonModel Json validate_operation}
        `{JItem : !JsonModel Json validate_item} `{JLease : !JsonModel Json validate_shard_lease}
        `{JDead : !JsonModel Json validate_dead_letter} `{JArt : !JsonModel Json artifact_document}.

(** ** Models in documents *)

Definition put_model {X} (validator : X -> res X) `{!JsonModel Json validator} (collection key : string) (model : X) : M D Ref :=
  put_document collection key (model_dump validator model).

Definition get_model {X} (validator : X -> res X) `{!JsonModel Json validator} (collection key : string) : M D (option X) :=
  let* document := get_document collection key in
  match document with
  | None => ret None
  | Some document => let* model := lift (model_validate validator document) in ret (Some model)
  end.

Fixpoint validate_all {X} (validator : X -> res X) `{!JsonModel Json validator} (documents : list Json) : res (list X) :=
  match documents with
  | [] => Ok []
  | document :: documents' =>
      let? model := model_validate validator document in
      let? models := validate_all validator documents' in Ok (model :: models)
  end.

Definition list_models {X} (validator : X -> res X) `{!JsonModel Json validator} (collection : string) : M D (list X) :=
  let* documents := list_documents collection in lift (validate_all validator documents).

Definition save_canonical_model {X} (validator : X -> res X) `{!JsonModel Json validator} (collection key : string) (model : X) : M D Ref :=
  put_model validator ("canonical_" +:+ collection) key model.
Definition load_canonical_model {X} (validator : X -> res X) `{!JsonModel Json validator} (collection key : string) : M D (option X) :=
  get_model validator ("canonical_" +:+ collection) key.

(** ** Transactions and migrations *)

Definition begin_transaction (run_ref unit_of_work_ref : Ref) (adapter_ref : option Ref) (now : nat -> Z) : M D PersistenceTransactionRecord :=
  let* transactions := list_documents "transactions" in
  let* record := lift (validate_transaction
    {| pt_id := "persistence-transaction:" +:+ run_ref +:+ ":" +:+ pretty (Z.of_nat (length transactions) + 1);
       pt_adapter_ref := default "persistence-adapter:json-document" adapter_ref; pt_run_ref := run_ref; pt_unit_of_work_ref := unit_of_work_ref;
       pt_status := UOW_OPEN; pt_command_record_refs := []; pt_event_refs := []; pt_outbox_refs := [];
       pt_artifact_refs := []; pt_idempotency_record_refs := []; pt_queue_operation_refs := [];
       pt_policy_decision_refs := []; pt_committed_at_ref := None; pt_rollback_reason_refs := [];
       pt_failure_refs := []; pt_created_at := now 0%nat |}) in
  do* put_model validate_transaction "transactions" (pt_id record) record in
  ret record.

(** [model_copy(update={"status", "committed_at_ref", "rollback_reason_refs"})] *)
Definition pt_copy (t : PersistenceTransactionRecord) (status : UnitOfWorkStatus) (committed_at : option Ref)
    (reasons : list Ref) : PersistenceTransactionRecord :=
  {| pt_id := pt_id t; pt_adapter_ref := pt_adapter_ref t; pt_run_ref := pt_run_ref t;
     pt_unit_of_work_ref := pt_unit_of_work_ref t; pt_status := status;
     pt_command_record_refs := pt_command_record_refs t; pt_event_refs := pt_event_refs t;
     pt_outbox_refs := pt_outbox_refs t; pt_artifact_refs := pt_artifact_refs t;
     pt_idempotency_record_refs := pt_idempotency_record_refs t; pt_queue_operation_refs := pt_queue_operation_refs t;
     pt_policy_decision_refs := pt_policy_decision_refs t; pt_committed_at_ref := committed_at;
     pt_rollback_reason_refs := reasons; pt_failure_refs := pt_failure_refs t; pt_created_at := pt_created_at t |}.

Definition commit_transaction (record : PersistenceTransactionRecord) : M D PersistenceTransactionRecord :=
  let updated := pt_copy record UOW_COMMITTED (Some ("clock:" +:+ pt_id record +:+ ":committed")) (pt_rollback_reason_refs record) in
  do* put_model validate_transaction "transactions" (pt_id updated) updated in ret updated.

Definition rollback_transaction (record : PersistenceTransactionRecord) (reason_ref : Ref) : M D PersistenceTransactionRecord :=
  let updated := pt_copy record UOW_ROLLED_BACK (pt_committed_at_ref record) [reason_ref] in
  do* put_model validate_transaction "transactions" (pt_id updated) updated in ret updated.

Definition save_migration_record (record : PersistenceMigrationRecord) : M D Ref :=
  put_model validate_migration "migration_records" (mg_id record) record.
Definition list_migration_records : M D (list PersistenceMigrationRecord) :=
  list_models validate_migration "migration_records".

(** ** Command metadata *)

Definition save_command_record (record : DurableCommandRecord) : M D Ref :=
  put_model validate_record "command_records" (dcr_id record) record.
Definition save_command_result (result : CommandResult) : M D Ref :=
  put_model validate_result "command_results" (cr_id result) result.
Definition get_command_result (result_ref : Ref) : M D (option CommandResult) :=
  get_model validate_result "command_results" result_ref.
Definition save_idempotency_record (record : IdempotencyPersistenceRecord) : M D Ref :=
  put_model validate_idempotency "idempotency_records" (ir_id record) record.

Definition committed_for (command_identity : string) (record : IdempotencyPersistenceRecord) : bool :=
  bool_decide (ir_command_identity record = command_identity) && bool_decide (ir_status record = DCR_COMMITTED).
Definition find_idempotency_record (command_identity : string) : M D (option IdempotencyPersistenceRecord) :=
  let* records := list_models validate_idempotency "idempotency_records" in
  ret (head (filter (fun record => committed_for command_identity record = true) records)).

(** ** Events *)

Definition stream_events (run_ref : Ref) : M D (list CrawlRunEvent) :=
  let* events := list_models validate_sequence "events" in
  ret (py_sorted by_sequence (filter (fun event => ev_run_id event = run_ref) events)).

Definition append_event (event : CrawlRunEvent) : M D Ref :=
  let* events := stream_events (ev_run_id event) in
  let expected := Z.of_nat (length events) + 1 in
  if negb (ev_sequence event =? expected) then
    raise (ValueError (gap_message (ev_run_id event) expected (ev_sequence event)))
  else put_model validate_sequence "events" (ev_id event) event.

Definition build_event_cursor (run_ref : Ref) (now : nat -> Z) : M D EventCursorRecord :=
  let* events := stream_events run_ref in lift (build_event_cursor_record run_ref events (now 0%nat)).

(** ** Outbox *)

Definition append_outbox (record : OutboxRecord) : M D Ref :=
  put_model validate_outbox "outbox_records" (ob_id record) record.

Definition list_outbox (run_ref : option Ref) : M D (list OutboxRecord) :=
  let* records := list_models validate_outbox "outbox_records" in
  ret (match run_ref with
       | None => records
       | Some run_ref => filter (fun record => ob_run_ref record = run_ref) records
       end).

Definition list_pending_outbox (run_ref : Ref) : M D (list OutboxRecord) :=
  let* records := list_outbox (Some run_ref) in
  ret (filter (fun record => ob_status record = OB_PENDING) records).

Definition known_outbox (outbox_ref : Ref) : M D OutboxRecord :=
  let* current := get_model validate_outbox "outbox_records" outbox_ref in
  lift (if current is Some current then Ok current else Raise (ValueError ("unknown outbox record: " +:+ outbox_ref))).

Definition mark_outbox_dispatched (outbox_ref dispatched_at_ref : Ref) : M D OutboxRecord :=
  let* current := known_outbox outbox_ref in
  if bool_decide (ob_status current = OB_DISPATCHED) then ret current
  else
    let updated := ob_copy current OB_DISPATCHED (Some dispatched_at_ref) (ob_last_error_ref current) (ob_attempt_count current + 1) in
    do* append_outbox updated in ret updated.

Definition mark_outbox_failed (outbox_ref error_ref : Ref) : M D OutboxRecord :=
  let* current := known_outbox outbox_ref in
  let updated := ob_copy current OB_FAILED (ob_dispatched_at_ref current) (Some error_ref) (ob_attempt_count current + 1) in
  do* append_outbox updated in ret updated.

(** ** Artifact refs *)

Definition register_artifact_ref (artifact_ref : Ref) : M D Ref :=
  do* put_document "artifact_refs" artifact_ref (model_dump artifact_document artifact_ref) in ret artifact_ref.
Definition has_artifact_ref (artifact_ref : Ref) : M D bool :=
  let* document := get_document "artifact_refs" artifact_ref in
  ret (if document is Some _ then true else false).
(** [sorted(str(document["id"]) for document in ...)] *)
Definition list_artifact_refs : M D (list Ref) :=
  let* refs := list_models artifact_document "artifact_refs" in ret (py_sorted String.leb refs).

(** ** Queue *)

Definition record_queue_operation (queue_name : ScaleQueueName) (operation : PersistentQueueOperation) (queue_item_ref : Ref)
    (lease_ref lease_token_ref heartbeat_ref command_result_ref : option Ref)
    (failure_record_refs recovery_action_refs : list Ref) (dead_letter_ref : option Ref)
    (policy_decision_refs : list Ref) (now : nat -> Z) : M D PersistentQueueOperationRecord :=
  let* operations := list_documents "queue_operations" in
  let count := Z.of_nat (length operations) + 1 in
  let* record := lift (validate_operation
    {| qo_id := "persistent-queue-operation:" +:+ queue_item_ref +:+ ":" +:+
                PersistentQueueOperation_value operation +:+ ":" +:+ pretty count;
       qo_queue_name := queue_name; qo_operation := operation; qo_queue_item_ref := queue_item_ref;
       qo_lease_ref := lease_ref; qo_lease_token_ref := lease_token_ref; qo_heartbeat_ref := heartbeat_ref;
       qo_command_result_ref := command_result_ref; qo_failure_record_refs := failure_record_refs;
       qo_recovery_action_refs := recovery_action_refs; qo_dead_letter_ref := dead_letter_ref;
       qo_policy_decision_refs := policy_decision_refs; qo_created_at := now 0%nat |}) in
  do* put_model validate_operation "queue_operations" (qo_id record) record in
  ret record.

Definition save_queue_item (item : QueueItem) : M D Ref := put_model validate_item "queue_items" (qi_id item) item.

Definition enqueue_queue_item (item : QueueItem) (now : nat -> Z) : M D PersistentQueueOperationRecord :=
  do* save_queue_item item in
  record_queue_operation (qi_queue_name item) QO_ENQUEUE (qi_id item) None None None None [] [] None [] now.

Definition acquire_queue_lease (item : QueueItem) (lease : ShardLease) (now : nat -> Z) : M D PersistentQueueOperationRecord :=
  do* save_queue_item item in
  do* put_model validate_shard_lease "shard_leases" (sl_id lease) lease in
  record_queue_operation (qi_queue_name item) QO_LEASE (qi_id item) (Some (sl_id lease)) (Some (sl_lease_token lease))
    None None [] [] None (sl_policy_decision_refs lease) now.

Definition get_shard_lease (lease_ref : Ref) : M D (option ShardLease) := get_model validate_shard_lease "shard_leases" lease_ref.

Definition heartbeat_queue_lease (lease_ref lease_token_ref heartbeat_ref : Ref) (now : nat -> Z) : M D PersistentQueueOperationRecord :=
  let* lease := get_shard_lease lease_ref in
  let* lease := lift (match lease with
    | Some lease => if bool_decide (sl_lease_token lease = lease_token_ref) then Ok lease
                    else Raise (ValueError ("invalid shard lease token for " +:+ lease_ref))
    | None => Raise (ValueError ("invalid shard lease token for " +:+ lease_ref))
    end) in
  record_queue_operation (sl_queue_name lease) QO_HEARTBEAT ("queue-item-for:" +:+ lease_ref) (Some (sl_id lease))
    (Some (sl_lease_token lease)) (Some heartbeat_ref) None [] [] None (sl_policy_decision_refs lease) now.

(** The head of [ack], [nack] and [dead_letter]: the item and the lease whose
    token the caller presents. *)
Definition leased_item (what : string) (item_ref lease_ref lease_token_ref : Ref) : M D (QueueItem * ShardLease) :=
  let* item := get_model validate_item "queue_items" item_ref in
  let* lease := get_shard_lease lease_ref in
  lift (match item, lease with
        | Some item, Some lease =>
            if bool_decide (sl_lease_token lease = lease_token_ref) then Ok (item, lease)
            else Raise (ValueError ("invalid queue " +:+ what +:+ " refs for " +:+ item_ref))
        | _, _ => Raise (ValueError ("invalid queue " +:+ what +:+ " refs for " +:+ item_ref))
        end).

(** [item.model_copy(update={"status": status})] *)
Definition qi_with_status (i : QueueItem) (status : ScaleQueueItemStatus) : QueueItem :=
  {| qi_id := qi_id i; qi_queue_name := qi_queue_name i; qi_shard_key := qi_shard_key i; qi_run_id := qi_run_id i;
     qi_aggregate_type := qi_aggregate_type i; qi_aggregate_id := qi_aggregate_id i; qi_command_ref := qi_command_ref i;
     qi_priority := qi_priority i; qi_retry_class := qi_retry_class i; qi_idempotency_key := qi_idempotency_key i;
     qi_expected_version_ref := qi_expected_version_ref i; qi_lease_token := qi_lease_token i;
     qi_lease_expires_at := qi_lease_expires_at i; qi_attempts := qi_attempts i; qi_deadline_at := qi_deadline_at i;
     qi_status := status; qi_updated_at := qi_updated_at i; qi_created_at := qi_created_at i |}.

Definition ack_queue_item (item_ref lease_ref lease_token_ref command_result_ref : Ref) (now : nat -> Z)
    : M D PersistentQueueOperationRecord :=
  let* (item, lease) := leased_item "ack" item_ref lease_ref lease_token_ref in
  do* save_queue_item (qi_with_status item QI_ACKED) in
  record_queue_operation (qi_queue_name item) QO_ACK (qi_id item) (Some (sl_id lease)) (Some (sl_lease_token lease))
    None (Some command_result_ref) [] [] None (sl_policy_decision_refs lease) now.

Definition nack_queue_item (item_ref lease_ref lease_token_ref : Ref) (failure_refs recovery_refs : list Ref) (now : nat -> Z)
    : M D PersistentQueueOperationRecord :=
  let* (item, lease) := leased_item "nack" item_ref lease_ref lease_token_ref in
  do* save_queue_item (qi_with_status item QI_NACKED) in
  record_queue_operation (qi_queue_name item) QO_NACK (qi_id item) (Some (sl_id lease)) (Some (sl_lease_token lease))
    None None failure_refs recovery_refs None (sl_policy_decision_refs lease) now.

Definition dead_letter_queue_item (item_ref lease_ref lease_token_ref : Ref) (dead_letter : RetryDeadLetterRecord) (now : nat -> Z)
    : M D PersistentQueueOperationRecord :=
  let* (item, lease) := leased_item "dead-letter" item_ref lease_ref lease_token_ref in
  do* save_queue_item (qi_with_status item QI_DEAD_LETTERED) in
  do* put_model validate_dead_letter "dead_letters" (rd_id dead_letter) dead_letter in
  record_queue_operation (qi_queue_name item) QO_DEAD_LETTER (qi_id item) (Some (sl_id lease)) (Some (sl_lease_token lease))
    None None [rd_failure_record_id dead_letter] (rd_recovery_action_refs dead_letter) (Some (rd_id dead_letter))
    (sl_policy_decision_refs lease) now.

Definition list_queue_operations : M D (list PersistentQueueOperationRecord) :=
  list_models validate_operation "queue_operations".

(** ** Commands *)

Definition envelope_identity (c : CommandEnvelope) : string :=
  command_identity (ce_command_type c) (ce_target_aggregate_type c) (ce_target_aggregate_id c) (ce_idempotency_key c).

(** The records [handle_command_once] builds. *)
Definition command_record (c : CommandEnvelope) (id : Ref) (result_ref : Ref) (event_refs outbox_refs : list Ref)
    (status : DurableCommandRecordStatus) (duplicate_of : option Ref) (created_at : Z) : DurableCommandRecord :=
  {| dcr_id := id; dcr_command_ref := ce_id c; dcr_command_type := ce_command_type c;
     dcr_target_aggregate_type := ce_target_aggregate_type c; dcr_target_aggregate_id := ce_target_aggregate_id c;
     dcr_idempotency_key := ce_idempotency_key c; dcr_command_result_ref := Some result_ref;
     dcr_event_refs := event_refs; dcr_outbox_refs := outbox_refs; dcr_status := status;
     dcr_duplicate_of_ref := duplicate_of; dcr_rejection_reason_refs := []; dcr_created_at := created_at |}.

Definition idempotency_record (c : CommandEnvelope) (id record_ref : Ref) (result_ref : option Ref)
    (event_refs outbox_refs : list Ref) (status : DurableCommandRecordStatus) (duplicate_of : option Ref)
    (created_at : Z) : IdempotencyPersistenceRecord :=
  {| ir_id := id; ir_idempotency_key := ce_idempotency_key c; ir_command_identity := envelope_identity c;
     ir_command_record_ref := record_ref; ir_command_result_ref := result_ref; ir_event_refs := event_refs;
     ir_outbox_refs := outbox_refs; ir_duplicate_of_ref := duplicate_of; ir_status := status; ir_created_at := created_at |}.

Definition command_event (c : CommandEnvelope) (run_ref objective_ref plan_ref : Ref) (event_type : string)
    (output_refs : list Ref) (sequence created_at : Z) : CrawlRunEvent :=
  CrawlRunEvent_defaults ("event:" +:+ run_ref +:+ ":" +:+ pretty sequence) run_ref objective_ref plan_ref
    sequence event_type ("event-type:" +:+ event_type) (ce_payload_ref c) "system"
    output_refs (Some [("status", PStr "accepted")]) (Some [("status", PStr "committed")])
    (ce_id c) ("corr:" +:+ run_ref) ("trace:" +:+ run_ref +:+ ":" +:+ pretty sequence) (ce_policy_decision_refs c)
    ("event:" +:+ ce_id c) [] created_at.

Definition command_result (c : CommandEnvelope) (event_ref : Ref) (output_refs : list Ref) (created_at : Z) : CommandResult :=
  {| cr_id := "command-result:" +:+ ce_id c; cr_command_id := ce_id c; cr_result := CR_COMMITTED;
     cr_emitted_event_refs := [event_ref]; cr_output_refs := output_refs; cr_rejection_reasons := [];
     cr_error := []; cr_created_at := created_at |}.

Definition command_outbox (c : CommandEnvelope) (run_ref result_ref event_ref : Ref) (event_type : string) (created_at : Z) : OutboxRecord :=
  {| ob_id := "outbox:" +:+ ce_id c; ob_run_ref := run_ref; ob_command_result_ref := result_ref;
     ob_event_ref := event_ref; ob_dispatch_topic := "topic:" +:+ event_type; ob_payload_ref := ce_payload_ref c;
     ob_idempotency_key := "outbox:" +:+ ce_id c; ob_status := OB_PENDING; ob_attempt_count := 0;
     ob_dispatched_at_ref := None; ob_last_error_ref := None; ob_created_at := created_at |}.

Definition handled : Type := DurableCommandRecord * CommandResult * OutboxRecord * IdempotencyPersistenceRecord * bool.

Definition replay_command (c : CommandEnvelope) (existing : IdempotencyPersistenceRecord)
    (result_ref : Ref) (now : nat -> Z) : M D handled :=
  let* result := get_command_result result_ref in
  let* outbox_ref := lift (if ir_outbox_refs existing is r :: _ then Ok r else Raise IndexError) in
  let* outbox := get_model validate_outbox "outbox_records" outbox_ref in
  match result, outbox with
  | Some result, Some outbox =>
      let* duplicate := lift (validate_record (command_record c ("durable-command-duplicate:" +:+ ce_id c) (cr_id result)
        (ir_event_refs existing) (ir_outbox_refs existing) DCR_DUPLICATE (Some (ir_command_record_ref existing)) (now 0%nat))) in
      do* save_command_record duplicate in
      let* idempotency := lift (validate_idempotency (idempotency_record c ("idempotency-duplicate:" +:+ ce_id c)
        (dcr_id duplicate) None [] [] DCR_DUPLICATE (Some (ir_id existing)) (now 1%nat))) in
      do* save_idempotency_record idempotency in
      ret (duplicate, result, outbox, idempotency, true)
  | _, _ => raise (ValueError "idempotency record points to missing result or outbox")
  end.

Definition apply_command (c : CommandEnvelope) (run_ref objective_ref plan_ref : Ref) (event_type : string)
    (output_refs : list Ref) (now : nat -> Z) : M D handled :=
  let* events := stream_events run_ref in
  let sequence := Z.of_nat (length events) + 1 in
  let* event := lift (validate_sequence (command_event c run_ref objective_ref plan_ref event_type output_refs sequence (now 0%nat))) in
  do* append_event event in
  let* result := lift (validate_result (command_result c (ev_id event) output_refs (now 1%nat))) in
  do* save_command_result result in
  let* outbox := lift (validate_outbox (command_outbox c run_ref (cr_id result) (ev_id event) event_type (now 2%nat))) in
  do* append_outbox outbox in
  let* record := lift (validate_record (command_record c ("durable-command:" +:+ ce_id c) (cr_id result) [ev_id event]
    [ob_id outbox] DCR_COMMITTED None (now 3%nat))) in
  do* save_command_record record in
  let* idempotency := lift (validate_idempotency (idempotency_record c ("idempotency:" +:+ ce_id c) (dcr_id record)
    (Some (cr_id result)) [ev_id event] [ob_id outbox] DCR_COMMITTED None (now 4%nat))) in
  do* save_idempotency_record idempotency in
  ret (record, result, outbox, idempotency, false).

Definition handle_command_once (c : CommandEnvelope) (run_ref objective_ref plan_ref : Ref)
    (event_type : string) (output_refs : list Ref) (now : nat -> Z) : M D handled :=
  let* existing := find_idempotency_record (envelope_identity c) in
  match existing with
  | Some ({| ir_command_result_ref := Some result_ref |} as existing) => replay_command c existing result_ref now
  | _ => apply_command c run_ref objective_ref plan_ref event_type output_refs now
  end.
End Adapter.

(** ** The calls of the ports, as data *)

Inductive pcall :=
  | PBegin (run_ref unit_of_work_ref : Ref) (adapter_ref : option Ref) (now : nat -> Z)
  | PCommit (t : PersistenceTransactionRecord)
  | PRollback (t : PersistenceTransactionRecord) (reason_ref : Ref)
  | PSaveMigration (m : PersistenceMigrationRecord)
  | PListMigrations
  | PSaveCommand (r : DurableCommandRecord)
  | PSaveResult (r : CommandResult)
  | PGetResult (ref : Ref)
  | PSaveIdempotency (r : IdempotencyPersistenceRecord)
  | PFindIdempotency (identity : string)
  | PAppendEvent (e : CrawlRunEvent)
  | PStream (run_ref : Ref)
  | PCursor (run_ref : Ref) (now : nat -> Z)
  | PAppendOutbox (o : OutboxRecord)
  | PListOutbox (run_ref : option Ref)
  | PListPending (run_ref : Ref)
  | PMarkDispatched (ref at_ref : Ref)
  | PMarkFailed (ref error_ref : Ref)
  | PRegisterArtifact (ref : Ref)
  | PHasArtifact (ref : Ref)
  | PListArtifacts
  | PEnqueue (i : QueueItem) (now : nat -> Z)
  | PAcquire (i : QueueItem) (l : ShardLease) (now : nat -> Z)
  | PHeartbeat (lease_ref token_ref heartbeat_ref : Ref) (now : nat -> Z)
  | PAck (item_ref lease_ref token_ref result_ref : Ref) (now : nat -> Z)
  | PNack (item_ref lease_ref token_ref : Ref) (failures recoveries : list Ref) (now : nat -> Z)
  | PDeadLetter (item_ref lease_ref token_ref : Ref) (d : RetryDeadLetterRecord) (now : nat -> Z)
  | PListOperations
  | PHandle (c : CommandEnvelope) (run_ref objective_ref plan_ref : Ref) (event_type : string) (output_refs : list Ref) (now : nat -> Z).

Inductive presult :=
  | RRef (r : Ref) | RRefs (l : list Ref) | RBool (b : bool) | RTransaction (t : PersistenceTransactionRecord)
  | RMigrations (l : list PersistenceMigrationRecord) | RResult (r : option CommandResult)
  | RIdempotency (r : option IdempotencyPersistenceRecord) | REvents (l : list CrawlRunEvent)
  | RCursor (c : EventCursorRecord) | ROutbox (o : OutboxRecord) | ROutboxes (l : list OutboxRecord)
  | ROperation (o : PersistentQueueOperationRecord) | ROperations (l : list PersistentQueueOperationRecord)
  | RHandled (h : handled).

Definition mmap {S X Y} (f : X -> Y) (m : M S X) : M S Y := let* x := m in ret (f x).

Section Calls.
Context {Json D : Type} `{DS : DocStore Json D}.
Context `{JEvent : !JsonModel Json validate_sequence} `{JOutbox : !JsonModel Json validate_outbox}
        `{JCommand : !JsonModel Json validate_record} `{JResult : !JsonModel Json validate_result}
        `{JIdem : !JsonModel Json validate_idempotency} `{JTrans : !JsonModel Json validate_transaction}
        `{JMig : !JsonModel Json validate_migration} `{JOp : !JsonModel Json validate_operation}
        `{JItem : !JsonModel Json validate_item} `{JLease : !JsonModel Json validate_shard_lease}
        `{JDead : !JsonModel Json validate_dead_letter} `{JArt : !JsonModel Json artifact_document}.

Definition run_pcall (c : pcall) : M D presult :=
  match c with
  | PBegin r u a now => mmap RTransaction (begin_transaction r u a now)
  | PCommit t => mmap RTransaction (commit_transaction t)
  | PRollback t r => mmap RTransaction (rollback_transaction t r)
  | PSaveMigration m => mmap RRef (save_migration_record m)
  | PListMigrations => mmap RMigrations list_migration_records
  | PSaveCommand r => mmap RRef (save_command_record r)
  | PSaveResult r => mmap RRef (save_command_result r)
  | PGetResult r => mmap RResult (get_command_result r)
  | PSaveIdempotency r => mmap RRef (save_idempotency_record r)
  | PFindIdempotency i => mmap RIdempotency (find_idempotency_record i)
  | PAppendEvent e => mmap RRef (append_event e)
  | PStream r => mmap REvents (stream_events r)
  | PCursor r now => mmap RCursor (build_event_cursor r now)
  | PAppendOutbox o => mmap RRef (append_outbox o)
  | PListOutbox r => mmap ROutboxes (list_outbox r)
  | PListPending r => mmap ROutboxes (list_pending_outbox r)
  | PMarkDispatched r d => mmap ROutbox (mark_outbox_dispatched r d)
  | PMarkFailed r e => mmap ROutbox (mark_outbox_failed r e)
  | PRegisterArtifact r => mmap RRef (register_artifact_ref r)
  | PHasArtifact r => mmap RBool (has_artifact_ref r)
  | PListArtifacts => mmap RRefs list_artifact_refs
  | PEnqueue i now => mmap ROperation (enqueue_queue_item i now)
  | PAcquire i l now => mmap ROperation (acquire_queue_lease i l now)
  | PHeartbeat l t h now => mmap ROperation (heartbeat_queue_lease l t h now)
  | PAck i l t r now => mmap ROperation (ack_queue_item i l t r now)
  | PNack i l t f r now => mmap ROperation (nack_queue_item i l t f r now)
  | PDeadLetter i l t d now => mmap ROperation (dead_letter_queue_item i l t d now)
  | PListOperations => mmap ROperations list_queue_operations
  | PHandle c r o p e out now => mmap RHandled (handle_command_once c r o p e out now)
  end.

(** A sequence of calls; an exception ends its call, not the sequence. *)
Fixpoint run_pcalls (cs : list pcall) (s : D) : list (res presult) * D :=
  match cs with
  | [] => ([], s)
  | c :: cs' => let '(r, s1) := run_pcall c s in
                let '(rs, s2) := run_pcalls cs' s1 in (r :: rs, s2)
  end.
End Calls.

(** ** A concrete document type *)

Module Concrete.
Inductive document :=
  | DEvent (x : CrawlRunEvent) | DOutbox (x : OutboxRecord) | DCommand (x : DurableCommandRecord)
  | DResult (x : CommandResult) | DIdempotency (x : IdempotencyPersistenceRecord)
  | DTransaction (x : PersistenceTransactionRecord) | DMigration (x : PersistenceMigrationRecord)
  | DOperation (x : PersistentQueueOperationRecord) | DItem (x : QueueItem) | DLease (x : ShardLease)
  | DDead (x : RetryDeadLetterRecord) | DArtifact (x : Ref).

Definition not_this {A} : res A := Raise (ValidationError "another model").

#[export] Instance event_model : JsonModel document validate_sequence :=
  {| model_dump := DEvent; model_validate d := if d is DEvent x then validate_sequence x else not_this; validate_dumped _ := eq_refl |}.
#[export] Instance outbox_model : JsonModel document validate_outbox :=
  {| model_dump := DOutbox; model_validate d := if d is DOutbox x then validate_outbox x else not_this; validate_dumped _ := eq_refl |}.
#[export] Instance command_model : JsonModel document validate_record :=
  {| model_dump := DCommand; model_validate d := if d is DCommand x then validate_record x else not_this; validate_dumped _ := eq_refl |}.
#[export] Instance result_model : JsonModel document validate_result :=
  {| model_dump := DResult; model_validate d := if d is DResult x then validate_result x else not_this; validate_dumped _ := eq_refl |}.
#[export] Instance idempotency_model : JsonModel document validate_idempotency :=
  {| model_dump := DIdempotency; model_validate d := if d is DIdempotency x then validate_idempotency x else not_this;
     validate_dumped _ := eq_refl |}.
#[export] Instance transaction_model : JsonModel document validate_transaction :=
  {| model_dump := DTransaction; model_validate d := if d is DTransaction x then validate_transaction x else not_this;
     validate_dumped _ := eq_refl |}.
#[export] Instance migration_model : JsonModel document validate_migration :=
  {| model_dump := DMigration; model_validate d := if d is DMigration x then validate_migration x else not_this;
     validate_dumped _ := eq_refl |}.
#[export] Instance operation_model : JsonModel document validate_operation :=
  {| model_dump := DOperation; model_validate d := if d is DOperation x then validate_operation x else not_this;
     validate_dumped _ := eq_refl |}.
#[export] Instance item_model : JsonModel document validate_item :=
  {| model_dump := DItem; model_validate d := if d is DItem x then validate_item x else not_this; validate_dumped _ := eq_refl |}.
#[export] Instance lease_model : JsonModel document validate_shard_lease :=
  {| model_dump := DLease; model_validate d := if d is DLease x then validate_shard_lease x else not_this; validate_dumped _ := eq_refl |}.
#[export] Instance dead_model : JsonModel document validate_dead_letter :=
  {| model_dump := DDead; model_validate d := if d is DDead x then validate_dead_letter x else not_this; validate_dumped _ := eq_refl |}.
#[export] Instance artifact_model : JsonModel document artifact_document :=
  {| model_dump := DArtifact; model_validate d := if d is DArtifact x then artifact_document x else not_this; validate_dumped _ := eq_refl |}.

Abbreviation db := (SqliteDocs.SqliteDb (Json := document)).
Definition new_db : db := SqliteDocs._initialize.

Definition envelope (id key : string) : CommandEnvelope :=
  {| ce_id := id; ce_command_type := "crawl"; ce_target_aggregate_type := "run"; ce_target_aggregate_id := "r";
     ce_expected_version := None; ce_idempotency_key := key; ce_actor_ref := "actor"; ce_precondition_refs := [];
     ce_policy_decision_refs := ["policy"]; ce_approval_decision_refs := []; ce_payload_ref := "payload";
     ce_status := CS_ACCEPTED; ce_created_at := 0 |}.
Definition clock (n : nat) : Z := Z.of_nat n.
Definition handle (id key run : string) : pcall := PHandle (envelope id key) run "objective" "plan" "crawled" ["out"] clock.

Definition item (id : string) : QueueItem :=
  {| qi_id := id; qi_queue_name := SQ_FRONTIER; qi_shard_key := "shard"; qi_run_id := "r"; qi_aggregate_type := "run";
     qi_aggregate_id := "r"; qi_command_ref := "command"; qi_priority := 0; qi_retry_class := RC_TRANSIENT;
     qi_idempotency_key := "key"; qi_expected_version_ref := "version"; qi_lease_token := None; qi_lease_expires_at := None;
     qi_attempts := 0; qi_deadline_at := 10; qi_status := QI_QUEUED; qi_updated_at := 0; qi_created_at := 0 |}.
Definition lease (id token : string) : ShardLease :=
  {| sl_id := id; sl_queue_name := SQ_FRONTIER; sl_shard_key := "shard"; sl_worker_id := "w"; sl_lease_token := token;
     sl_acquired_at := 0; sl_heartbeat_at := 0; sl_expires_at := 9; sl_policy_decision_refs := ["policy"];
     sl_status := SL_ACTIVE; sl_created_at := 0 |}.
Definition queue_calls : list pcall :=
  [PEnqueue (item "a") clock; PAcquire (item "b") (lease "lease-b" "tok") clock; PHeartbeat "lease-b" "tok" "beat" clock;
   PAck "b" "lease-b" "wrong" "result" clock; PAck "b" "lease-b" "tok" "result" clock].
End Concrete.
