(* ===== verification/PersistLaws.v ===== *)
(** * What the persistence adapters promise

    Over any [DocStore]: the two backends answer alike; a command identity is
    applied once and replayed from then on; logs of events with conventional
    ids have no gaps; the queue-operation log holds the operations returned. *)
From stdpp Require Import sorting.
From S2P Require Import Prelude PyDict PyList PyStr Contracts EventStore DurableStore PersistModels DocStore Persistence.
Local Open Scope Z_scope.

(** ** Collections of models

    [coll validator key c s xs]: the collection [c] holds exactly the models
    [xs], each under its [key], and each passes its validator again. *)
Section Collections.
Context {Json D : Type} `{DS : DocStore Json D} {L : DocStoreLaws Json D}.

Section Coll.
Context {X : Type} (validator : X -> res X) `{!JsonModel Json validator} (key : X -> string).

Definition entry (x : X) : string * Json := (key x, model_dump validator x).
Definition coll (c : string) (s : D) (xs : list X) : Prop :=
  ds_docs s c = entry <$> xs /\ Forall (fun x => validator x = Ok x) xs.

Fixpoint upsert (x : X) (xs : list X) : list X :=
  match xs with
  | [] => [x]
  | y :: ys => if decide (key x = key y) then x :: ys else y :: upsert x ys
  end.

Lemma upsert_entries x xs : entry <$> upsert x xs = dict_set (entry <$> xs) (key x) (model_dump validator x).
Proof.
  induction xs as [|y ys IH]; [done|]. rewrite (fmap_cons entry). simpl upsert.
  unfold entry at 2. rewrite dict_set_cons. case_decide; [done|]. by rewrite fmap_cons, IH.
Qed.

Lemma upsert_perm x xs : NoDup (key <$> xs) -> upsert x xs ≡ₚ x :: filter (fun y => key y <> key x) xs.
Proof.
  induction xs as [|y ys IH]; csimpl; [done|]. intros [Hy Hnd]%NoDup_cons. rewrite filter_cons.
  destruct (decide (key x = key y)) as [E|Hne].
  - rewrite decide_False by (intros Hn; by apply Hn). rewrite filter_all; [done|].
    intros z Hz Hzx. apply Hy. rewrite <-E, <-Hzx. by apply list_elem_of_fmap_2.
  - rewrite decide_True by congruence. rewrite IH by done. constructor.
Qed.

Lemma coll_keys c s xs : ds_inv s -> coll c s xs -> NoDup (key <$> xs).
Proof.
  intros Hi [Hd _]. pose proof (docs_wf c s Hi) as Hwf. unfold dict_wf, dict_keys in Hwf. rewrite Hd in Hwf.
  by rewrite <-list_fmap_compose in Hwf.
Qed.

Lemma coll_list c s xs : ds_inv s -> coll c s xs -> list_models validator c s = (Ok xs, s).
Proof.
  intros Hi [Hd Hv]. unfold list_models, bind, lift. rewrite list_spec, Hd by done. f_equal.
  unfold dict_values. rewrite <-list_fmap_compose.
  induction xs as [|x xs IH]; [done|]. apply Forall_cons in Hv as [Hx Hv]. csimpl.
  rewrite validate_dumped, Hx. simpl. unfold compose in *. simpl in IH.
  assert (validate_all validator (snd <$> (entry <$> xs)) = Ok xs) as Hall.
  { rewrite <-list_fmap_compose. clear -Hv. induction Hv as [|x xs Hx Hv IH]; [done|]. csimpl.
    by rewrite validate_dumped, Hx; simpl; rewrite IH. }
  rewrite <-list_fmap_compose in Hall. unfold compose in Hall. by rewrite Hall.
Qed.

Lemma coll_get c s xs x : ds_inv s -> coll c s xs -> x ∈ xs -> get_model validator c (key x) s = (Ok (Some x), s).
Proof.
  intros Hi Hc Hx. pose proof Hc as [Hd Hv]. unfold get_model, bind, lift, ret. rewrite get_spec by done.
  assert (dict_get (ds_docs s c) (key x) = Some (model_dump validator x)) as ->.
  { apply dict_get_in; [by apply docs_wf|]. rewrite Hd. by apply (list_elem_of_fmap_2 entry). }
  rewrite validate_dumped. rewrite Forall_forall in Hv. by rewrite Hv.
Qed.

Lemma coll_put c s xs x : ds_inv s -> coll c s xs -> validator x = Ok x ->
  exists s' xs', put_model validator c (key x) x s = (Ok (key x), s') /\ ds_inv s' /\ coll c s' xs' /\
    xs' ≡ₚ x :: filter (fun y => key y <> key x) xs /\ forall c', c' <> c -> ds_docs s' c' = ds_docs s c'.
Proof.
  intros Hi Hc Hx. pose proof (coll_keys c s xs Hi Hc) as Hnd. destruct Hc as [Hd Hv].
  destruct (put_spec c (key x) (model_dump validator x) s Hi) as (s' & E & Hi' & Hdocs).
  set (le := fun y z => by_key (entry y) (entry z)). exists s', (py_sorted le (upsert x xs)).
  assert (py_sorted le (upsert x xs) ≡ₚ x :: filter (fun y => key y <> key x) xs) as HP
    by (rewrite py_sorted_perm; by apply upsert_perm).
  split; [exact E|]. split; [done|]. split.
  - split.
    + rewrite Hdocs, decide_True, Hd by done. rewrite <-upsert_entries. by rewrite py_sorted_fmap.
    + rewrite HP. apply Forall_cons. split; [done|]. apply Forall_forall. intros y [_ Hy]%list_elem_of_filter.
      rewrite Forall_forall in Hv. by apply Hv.
  - split; [exact HP|]. intros c' Hc'. by rewrite Hdocs, decide_False.
Qed.

Lemma coll_put_new c s xs x : ds_inv s -> coll c s xs -> validator x = Ok x -> key x ∉ key <$> xs ->
  exists s' xs', put_model validator c (key x) x s = (Ok (key x), s') /\ ds_inv s' /\ coll c s' xs' /\
    xs' ≡ₚ x :: xs /\ forall c', c' <> c -> ds_docs s' c' = ds_docs s c'.
Proof.
  intros Hi Hc Hx Hk. destruct (coll_put c s xs x Hi Hc Hx) as (s' & xs' & E & Hi' & Hc' & HP & Hf).
  exists s', xs'. rewrite filter_all in HP; [done|]. intros y Hy Hyx. apply Hk. rewrite <-Hyx.
  by apply list_elem_of_fmap_2.
Qed.

Lemma coll_docs c s s' xs : ds_docs s' c = ds_docs s c -> coll c s xs -> coll c s' xs.
Proof. unfold coll. by intros ->. Qed.
End Coll.

(** [frame c m]: [m] keeps the store well-formed and the collection [c] as it is. *)
Definition frame {X} (c : string) (m : M D X) : Prop :=
  forall s, ds_inv s -> ds_inv (m s).2 /\ ds_docs (m s).2 c = ds_docs s c.

Lemma frame_ret {X} c (x : X) : frame c (ret x). Proof. by intros s. Qed.
Lemma frame_lift {X} c (r : res X) : frame c (lift r). Proof. by intros s. Qed.
Lemma frame_raise {X} c e : frame c (raise (A:=X) e). Proof. by intros s. Qed.
Lemma frame_bind {X Y} c (m : M D X) (k : X -> M D Y) : frame c m -> (forall x, frame c (k x)) -> frame c (bind m k).
Proof.
  intros Hm Hk s Hi. unfold bind. destruct (Hm s Hi) as [Hi1 Hd1]. destruct (m s) as [[x|e] s1]; simpl in *; [|done].
  destruct (Hk x s1 Hi1) as [Hi2 Hd2]. split; [done|]. by rewrite Hd2.
Qed.
Lemma frame_put c c' k j : c <> c' -> frame c (put_document c' k j).
Proof.
  intros Hc s Hi. destruct (put_spec c' k j s Hi) as (s' & -> & Hi' & Hd). simpl. split; [done|]. by rewrite Hd, decide_False.
Qed.
Lemma frame_get c c' k : frame c (get_document c' k).
Proof. intros s Hi. by rewrite get_spec. Qed.
Lemma frame_list c c' : frame c (list_documents c').
Proof. intros s Hi. by rewrite list_spec. Qed.

(** A collection after a call that frames it, and a call split after its
    framed part. *)
Lemma frame_run {X} c (m : M D X) s r s' : frame c m -> ds_inv s -> m s = (r, s') -> ds_inv s' /\ ds_docs s' c = ds_docs s c.
Proof. intros Hm Hi E. destruct (Hm s Hi) as [? ?]. by rewrite E in *. Qed.
End Collections.

Ltac frame_step :=
  first
  [ apply frame_ret | apply frame_lift | apply frame_raise | apply frame_put; discriminate
  | apply frame_get | apply frame_list
  | apply frame_bind; [|intros ?]
  | match goal with
    | |- frame _ (match ?x with _ => _ end) => destruct x
    | |- frame _ (if ?x then _ else _) => destruct x
    end
  | progress cbv beta iota zeta ].
(** [frame_solve] opens the adapter's operations down to the document store. *)
Ltac frame_solve :=
  unfold begin_transaction, commit_transaction, rollback_transaction, save_migration_record, list_migration_records,
    handle_command_once, replay_command, apply_command,
    save_command_record, save_command_result, get_command_result, save_idempotency_record, find_idempotency_record,
    append_event, build_event_cursor, stream_events, mark_outbox_dispatched, mark_outbox_failed, known_outbox,
    list_pending_outbox, list_outbox, append_outbox, register_artifact_ref, has_artifact_ref,
    list_queue_operations, enqueue_queue_item, acquire_queue_lease, heartbeat_queue_lease, ack_queue_item, nack_queue_item,
    dead_letter_queue_item, leased_item, get_shard_lease, save_queue_item, record_queue_operation,
    list_models, get_model, put_model;
  repeat frame_step.

Section Promises.
Context {Json D : Type} `{DS : DocStore Json D} {L : DocStoreLaws Json D}.
Context `{JEvent : !JsonModel Json validate_sequence} `{JOutbox : !JsonModel Json validate_outbox}
        `{JCommand : !JsonModel Json validate_record} `{JResult : !JsonModel Json validate_result}
        `{JIdem : !JsonModel Json validate_idempotency} `{JTrans : !JsonModel Json validate_transaction}
        `{JMig : !JsonModel Json validate_migration} `{JOp : !JsonModel Json validate_operation}
        `{JItem : !JsonModel Json validate_item} `{JLease : !JsonModel Json validate_shard_lease}
        `{JDead : !JsonModel Json validate_dead_letter} `{JArt : !JsonModel Json artifact_document}.

(** ** The log of queue operations *)

(** The ids end in the operation's position, so no two coincide. *)
Definition operation_id (o : PersistentQueueOperationRecord) (n : Z) : Prop :=
  exists item, qo_id o = "persistent-queue-operation:" +:+ item +:+ ":" +:+ pretty n.

Definition operations_log (s : D) (ops : list PersistentQueueOperationRecord) : Prop :=
  ds_inv s /\ exists l, coll validate_operation qo_id "queue_operations" s l /\ l ≡ₚ ops /\
    Forall (fun o => exists n, operation_id o n /\ 0 <= n <= Z.of_nat (length ops)) ops.

Lemma operations_frame {X} (m : M D X) s r s' ops :
  frame "queue_operations" m -> m s = (r, s') -> operations_log s ops -> operations_log s' ops.
Proof.
  intros Hm E (Hi & l & Hc & HP & Hids). destruct (frame_run _ _ _ _ _ Hm Hi E) as [Hi' Hd].
  split; [done|]. exists l. split; [by eapply coll_docs|done].
Qed.

Lemma list_docs_coll {X} (validator : X -> res X) `{!JsonModel Json validator} key c s xs :
  ds_inv s -> coll validator key c s xs -> list_documents c s = (Ok (model_dump validator <$> xs), s).
Proof.
  intros Hi [Hd _]. rewrite list_spec, Hd by done. unfold dict_values. by rewrite <-list_fmap_compose.
Qed.

Lemma record_operation_log qn op i l t h cr fs rs dl ps now s ops :
  operations_log s ops ->
  let r := record_queue_operation qn op i l t h cr fs rs dl ps now s in
  match r.1 with
  | Ok o => operations_log r.2 (ops ++ [o])
  | Raise _ => operations_log r.2 ops
  end.
Proof.
  intros Hlog. pose proof Hlog as (Hi & xs & Hc & HP & Hids). unfold record_queue_operation, bind, lift, ret.
  rewrite (list_docs_coll validate_operation qo_id _ _ xs) by done. rewrite length_fmap.
  match goal with |- context [validate_operation ?x] => set (rec := x) end.
  destruct (validate_operation rec) as [rec'|e] eqn:Hv; [|done].
  assert (rec' = rec) as -> by (unfold validate_operation in Hv; run_m Hv; done).
  destruct (coll_put_new validate_operation qo_id "queue_operations" s xs rec) as (s' & xs' & E & Hi' & Hc' & HP' & _); try done.
  { intros (o & Ho & Hin)%list_elem_of_fmap. rewrite HP in Hin. rewrite Forall_forall in Hids.
    destruct (Hids o Hin) as (n & [item Hid] & Hn). rewrite Hid in Ho. simpl in Ho.
    assert (exists pre, "persistent-queue-operation:" +:+ i +:+ ":" +:+ PersistentQueueOperation_value op +:+ ":" +:+
      pretty (Z.of_nat (length xs) + 1) = "persistent-queue-operation:" +:+ pre +:+ ":" +:+ pretty (Z.of_nat (length xs) + 1)) as [pre Hpre].
    { exists (i +:+ ":" +:+ PersistentQueueOperation_value op). by rewrite !append_assoc. }
    rewrite Hpre in Ho. apply numbered_ref_inj in Ho as [_ Hn']. apply Permutation_length in HP. lia. }
  rewrite E. simpl. split; [done|]. exists xs'. split; [done|]. split.
  { rewrite HP', HP. by rewrite Permutation_cons_append. }
  rewrite length_app. simpl. apply Forall_app. split.
  - eapply Forall_impl; [exact Hids|]. intros o (n & ? & ?). exists n. split; [done|lia].
  - apply Forall_cons. split; [|done]. exists (Z.of_nat (length xs) + 1). split.
    + exists (i +:+ ":" +:+ PersistentQueueOperation_value op). simpl. by rewrite !append_assoc.
    + apply Permutation_length in HP. lia.
Qed.

(** [logs m]: [m] returns the operation it adds to the log, and only it. *)
Definition logs (m : M D PersistentQueueOperationRecord) : Prop :=
  forall s ops, operations_log s ops ->
    match (m s).1 with
    | Ok o => operations_log (m s).2 (ops ++ [o])
    | Raise _ => operations_log (m s).2 ops
    end.

Lemma logs_record qn op i l t h cr fs rs dl ps now : logs (record_queue_operation qn op i l t h cr fs rs dl ps now).
Proof. intros s ops H. by apply record_operation_log. Qed.

Lemma logs_bind {X} (m : M D X) k : frame "queue_operations" m -> (forall x, logs (k x)) -> logs (bind m k).
Proof.
  intros Hm Hk s ops Hlog. unfold bind. destruct (m s) as [[x|e] s1] eqn:E.
  - apply Hk. by eapply operations_frame.
  - simpl. by eapply operations_frame.
Qed.

Definition operations_of (rs : list (res presult)) : list PersistentQueueOperationRecord :=
  omap (fun r => if r is Ok (ROperation o) then Some o else None) rs.

Lemma pcall_log c s ops :
  operations_log s ops -> operations_log (run_pcall c s).2 (ops ++ operations_of [(run_pcall c s).1]).
Proof.
  intros Hlog.
  assert (forall m, logs m -> operations_log (mmap ROperation m s).2 (ops ++ operations_of [(mmap ROperation m s).1])) as Hop.
  { intros m Hm. specialize (Hm s ops Hlog). unfold mmap, bind, ret. destruct (m s) as [[o|e] s1]; simpl in *; [done|].
    by rewrite app_nil_r. }
  assert (forall X (f : X -> presult) (m : M D X), frame "queue_operations" m -> (forall x, operations_of [Ok (f x)] = []) ->
    operations_log (mmap f m s).2 (ops ++ operations_of [(mmap f m s).1])) as Hno.
  { intros X f m Hm Hf. unfold mmap, bind, ret. destruct (m s) as [[x|e] s1] eqn:E; cbn [fst snd]; rewrite ?Hf;
      rewrite app_nil_r; by eapply operations_frame. }
  destruct c; cbn [run_pcall];
    first [ apply Hop;
            unfold enqueue_queue_item, acquire_queue_lease, heartbeat_queue_lease, ack_queue_item, nack_queue_item,
              dead_letter_queue_item, leased_item, get_shard_lease, save_queue_item, get_model, put_model;
            repeat match goal with
            | |- logs (bind _ _) => apply logs_bind; [frame_solve|intros ?]
            | |- logs (match ?x with _ => _ end) => destruct x
            | |- logs _ => apply logs_record
            end
          | apply Hno; [|done]; frame_solve; fail ].
Qed.

Lemma pcalls_log cs s ops :
  operations_log s ops -> operations_log (run_pcalls cs s).2 (ops ++ operations_of (run_pcalls cs s).1).
Proof.
  revert s ops. induction cs as [|c cs IH]; intros s ops Hlog; simpl; [by rewrite app_nil_r|].
  pose proof (pcall_log c s ops Hlog) as H. destruct (run_pcall c s) as [r s1]. cbn [fst snd] in H.
  specialize (IH s1 _ H). destruct (run_pcalls cs s1) as [rs s2]. cbn [fst snd] in *.
  rewrite <-app_assoc in IH. unfold operations_of in *. by rewrite <-omap_app in IH.
Qed.

(** Whatever calls are made on a new store, whatever they raise,
    [list_queue_operations] then returns exactly the queue operations the calls
    returned, each once, up to order: no operation is lost or overwritten. *)
Theorem queue_operations_are_the_log cs (s0 : D) :
  ds_inv s0 -> ds_docs s0 "queue_operations" = [] ->
  let s := (run_pcalls cs s0).2 in
  exists l, list_queue_operations s = (Ok l, s) /\ l ≡ₚ operations_of (run_pcalls cs s0).1.
Proof.
  intros Hi Hd s. assert (operations_log s0 []) as H0 by (split; [done|]; exists []; done).
  destruct (pcalls_log cs s0 [] H0) as (Hi' & l & Hc & HP & _). exists l. split; [|done]. by apply (coll_list _ qo_id).
Qed.

(** ** The event logs

    [handle_command_once] names an event by its run and sequence; a direct
    [append_event] is conventional when it does too. *)
Definition event_ref (run : Ref) (n : Z) : Ref := "event:" +:+ run +:+ ":" +:+ pretty n.
Definition conventional_event (e : CrawlRunEvent) : Prop :=
  validate_sequence e = Ok e /\ ev_id e = event_ref (ev_run_id e) (ev_sequence e).
Definition conventional (c : pcall) : Prop :=
  match c with PAppendEvent e => conventional_event e | _ => True end.

Definition run_log (run : Ref) (es : list CrawlRunEvent) : list CrawlRunEvent :=
  py_sorted by_sequence (filter (fun e => ev_run_id e = run) es).

(** The store holds the logs [f]. *)
Definition event_logs (s : D) (f : Ref -> list CrawlRunEvent) : Prop :=
  ds_inv s /\ exists es, coll validate_sequence ev_id "events" s es /\ Forall conventional_event es /\
    forall run, run_log run es = f run /\ numbered run (f run).

Definition extends (f f' : Ref -> list CrawlRunEvent) : Prop := forall run, f run `prefix_of` f' run.

Lemma event_logs_frame {X} (m : M D X) s r s' f :
  frame "events" m -> m s = (r, s') -> event_logs s f -> event_logs s' f.
Proof.
  intros Hm E (Hi & es & Hc & Hrest). destruct (frame_run _ _ _ _ _ Hm Hi E) as [Hi' Hd].
  split; [done|]. exists es. split; [by eapply coll_docs|done].
Qed.

Lemma stream_log_of s f run : event_logs s f -> stream_events run s = (Ok (f run), s).
Proof.
  intros (Hi & es & Hc & _ & Hf). unfold stream_events, bind. rewrite (coll_list _ ev_id _ _ es) by done.
  unfold ret. by rewrite <-(proj1 (Hf run)).
Qed.

(** A log does not depend on the order of the collection. *)
Lemma run_log_perm run es l : filter (fun e => ev_run_id e = run) es ≡ₚ l -> numbered run l -> run_log run es = l.
Proof.
  intros HP Hn. rewrite <-(py_sorted_id by_sequence l) by (by eapply numbered_log_sorted).
  apply py_sorted_ext; [eauto with py|intros x y z; unfold by_sequence; apply Zleb_trans| |done].
  intros x y Hx Hy Hxy Hyx. rewrite HP in Hx, Hy. apply list_elem_of_lookup in Hx as [i Hi], Hy as [j Hj].
  destruct (Hn _ _ Hi) as [Hxs _], (Hn _ _ Hj) as [Hys _]. unfold by_sequence in *.
  assert (i = j) as -> by lia. congruence.
Qed.

Lemma append_conventional s f e : event_logs s f -> conventional_event e ->
  ev_sequence e = Z.of_nat (length (f (ev_run_id e))) + 1 ->
  exists s', append_event e s = (Ok (ev_id e), s') /\
    event_logs s' (fun run => if decide (run = ev_run_id e) then f run ++ [e] else f run).
Proof.
  intros Hlog [Hv Hid] Hseq. unfold append_event, bind. rewrite (stream_log_of s f) by done.
  rewrite (proj2 (Z.eqb_eq _ _) Hseq). simpl negb. cbv iota.
  destruct Hlog as (Hi & es & Hc & Hconv & Hf).
  destruct (coll_put_new validate_sequence ev_id "events" s es e) as (s' & es' & E & Hi' & Hc' & HP & _); try done.
  { intros (e' & He' & Hin)%list_elem_of_fmap. pose proof Hin as Hin'. rewrite Forall_forall in Hconv.
    destruct (Hconv e' Hin) as [_ Hid']. rewrite Hid, Hid' in He'. apply numbered_ref_inj in He' as [Hr Hn].
    assert (e' ∈ run_log (ev_run_id e) es) as Hl by (apply elem_of_py_sorted, list_elem_of_filter; done).
    destruct (Hf (ev_run_id e)) as [Hrl Hnum]. rewrite Hrl in Hl. apply list_elem_of_lookup in Hl as [i Hl].
    destruct (Hnum _ _ Hl) as [Hs _]. apply lookup_lt_Some in Hl. lia. }
  exists s'. split; [exact E|]. split; [done|]. exists es'. split; [done|]. split.
  { rewrite HP. by apply Forall_cons. }
  intros run. destruct (Hf run) as [Hrl Hnum].
  assert (filter (fun e0 => ev_run_id e0 = run) es ≡ₚ f run) as Hperm by (by rewrite <-Hrl; unfold run_log; rewrite py_sorted_perm).
  case_decide as Hr.
  - assert (numbered run (f run ++ [e])) by (subst run; apply numbered_snoc; [done|done|lia]). split; [|done].
    apply run_log_perm; [|done]. rewrite HP, filter_cons_True by done. rewrite Hperm. apply Permutation_cons_append.
  - split; [|done]. apply run_log_perm; [|done]. rewrite HP, filter_cons_False; [done|]. intros Heq. by apply Hr.
Qed.

Lemma append_gap s f e : event_logs s f -> ev_sequence e <> Z.of_nat (length (f (ev_run_id e))) + 1 ->
  append_event e s = (Raise (ValueError (gap_message (ev_run_id e) (Z.of_nat (length (f (ev_run_id e))) + 1) (ev_sequence e))), s).
Proof.
  intros Hlog Hseq. unfold append_event, bind. rewrite (stream_log_of s f) by done.
  by rewrite (proj2 (Z.eqb_neq _ _) Hseq).
Qed.

Lemma extends_refl f : extends f f. Proof. by intros run. Qed.
Lemma extends_snoc f e : extends f (fun run => if decide (run = ev_run_id e) then f run ++ [e] else f run).
Proof. intros run. case_decide; [by apply prefix_app_r|done]. Qed.

(** [grows m]: [m] only adds to the ends of the logs. *)
Definition grows {X} (m : M D X) : Prop :=
  forall s f, event_logs s f -> exists f', event_logs (m s).2 f' /\ extends f f'.

Lemma grows_frame {X} (m : M D X) : frame "events" m -> grows m.
Proof. intros Hm s f Hlog. exists f. destruct (m s) eqn:E. split; [by eapply event_logs_frame|apply extends_refl]. Qed.

Lemma grows_bind {X Y} (m : M D X) (k : X -> M D Y) : grows m -> (forall x, grows (k x)) -> grows (bind m k).
Proof.
  intros Hm Hk s f Hlog. destruct (Hm s f Hlog) as (f1 & Hlog1 & He1). unfold bind.
  destruct (m s) as [[x|e] s1]; simpl in *; [|by exists f1].
  destruct (Hk x s1 f1 Hlog1) as (f2 & Hlog2 & He2). exists f2. split; [done|]. intros run. etrans; [apply He1|apply He2].
Qed.

Lemma grows_lift {X Y} (r : res X) (k : X -> M D Y) : (forall x, r = Ok x -> grows (k x)) -> grows (bind (lift r) k).
Proof.
  intros Hk s f Hlog. unfold bind, lift. destruct r as [x|e]; [by apply Hk|]. exists f. split; [done|apply extends_refl].
Qed.

Lemma grows_append e : conventional_event e -> grows (append_event e).
Proof.
  intros He s f Hlog. destruct (decide (ev_sequence e = Z.of_nat (length (f (ev_run_id e))) + 1)) as [Hs|Hs].
  - destruct (append_conventional s f e) as (s' & E & H); [done..|]. rewrite E. eexists. split; [done|]. apply extends_snoc.
  - rewrite (append_gap s f) by done. exists f. split; [done|apply extends_refl].
Qed.

Lemma grows_apply c r o p e out now : grows (apply_command c r o p e out now).
Proof.
  unfold apply_command. apply grows_bind; [apply grows_frame; frame_solve|intros events].
  apply grows_lift. intros ev Hv. assert (conventional_event ev) as Hconv.
  { pose proof Hv as Hv'. unfold validate_sequence in Hv'. run_m Hv'. by split. }
  apply grows_bind; [by apply grows_append|intros _].
  apply grows_frame. frame_solve.
Qed.

Lemma grows_mmap {X Y} (f : X -> Y) (m : M D X) : grows m -> grows (mmap f m).
Proof. intros Hm. apply grows_bind; [done|intros x; apply grows_frame, frame_ret]. Qed.

Lemma grows_pcall c : conventional c -> grows (run_pcall c).
Proof.
  intros Hc. destruct c; cbn [run_pcall]; apply grows_mmap;
    try by apply grows_append.
  all: try (apply grows_frame; frame_solve; fail).
  unfold handle_command_once. apply grows_bind; [apply grows_frame; frame_solve|].
  intros [[? ? ? ? [ref|]]|]; [|apply grows_apply..]. apply grows_frame. frame_solve.
Qed.

Lemma grows_pcalls cs s f : Forall conventional cs -> event_logs s f ->
  exists f', event_logs (run_pcalls cs s).2 f' /\ extends f f'.
Proof.
  intros Hcs. revert s f. induction Hcs as [|c cs Hc Hcs IH]; intros s f Hlog; [exists f; split; [done|apply extends_refl]|].
  simpl. destruct (grows_pcall c Hc s f Hlog) as (f1 & Hlog1 & He1). destruct (run_pcall c s) as [r s1]. simpl in *.
  destruct (IH s1 f1 Hlog1) as (f2 & Hlog2 & He2). destruct (run_pcalls cs s1) as [rs s2]. simpl in *.
  exists f2. split; [done|]. intros run. etrans; [apply He1|apply He2].
Qed.

(** Whatever calls are made on a new store, if the events appended
    directly are named by their run and sequence, as [handle_command_once]
    names its own, every run's stream is numbered 1, 2, 3, ... without gaps,
    and later calls only add events at its end. *)
Theorem event_logs_append_only cs cs' (s0 : D) run :
  ds_inv s0 -> ds_docs s0 "events" = [] -> Forall conventional cs -> Forall conventional cs' ->
  let s := (run_pcalls cs s0).2 in
  let s' := (run_pcalls cs' s).2 in
  exists l l', stream_events run s = (Ok l, s) /\ stream_events run s' = (Ok (l ++ l'), s') /\ numbered run (l ++ l').
Proof.
  intros Hi Hd Hcs Hcs' s s'. assert (event_logs s0 (fun _ => [])) as H0.
  { split; [done|]. exists []. split; [done|]. split; [done|]. intros r. split; [done|apply numbered_nil]. }
  destruct (grows_pcalls cs s0 _ Hcs H0) as (f & Hlog & _). destruct (grows_pcalls cs' s f Hcs' Hlog) as (f' & Hlog' & He).
  destruct (He run) as [l' El']. exists (f run), l'. rewrite <-El'. split; [by apply stream_log_of|].
  split; [by apply stream_log_of|]. destruct Hlog' as (_ & es & _ & _ & Hf). apply Hf.
Qed.

(** ** Commands are applied once *)

Abbreviation idem_coll := (coll validate_idempotency ir_id "idempotency_records").

(** [keeps P m]: the call keeps [P]. *)
Definition keeps {X} (P : D -> Prop) (m : M D X) : Prop := forall s, P s -> P (m s).2.

Lemma keeps_bind {X Y} P (m : M D X) (k : X -> M D Y) : keeps P m -> (forall x, keeps P (k x)) -> keeps P (bind m k).
Proof.
  intros Hm Hk s Hs. unfold bind. specialize (Hm s Hs). destruct (m s) as [[x|e] s1]; [|done]. by apply Hk.
Qed.

Definition idem_ok (s : D) : Prop := ds_inv s /\ exists irs, idem_coll s irs.

Lemma idem_frame {X} (m : M D X) : frame "idempotency_records" m -> keeps idem_ok m.
Proof.
  intros Hm s (Hi & irs & Hc). destruct (Hm s Hi) as [Hi' Hd]. split; [done|]. exists irs. by eapply coll_docs.
Qed.

Lemma idem_save r : validate_idempotency r = Ok r -> keeps idem_ok (save_idempotency_record r).
Proof.
  intros Hv s (Hi & irs & Hc). destruct (coll_put validate_idempotency ir_id _ s irs r Hi Hc Hv) as (s' & irs' & E & Hi' & Hc' & _).
  unfold save_idempotency_record. rewrite E. split; [done|]. by exists irs'.
Qed.

Lemma validate_idempotency_id r r' : validate_idempotency r = Ok r' -> r' = r.
Proof. unfold validate_idempotency. intros H. run_m H. done. Qed.

(** The steps around a validated record: [lift (validate r)], then saving it. *)
Lemma keeps_lift {X Y} P (r : res X) (k : X -> M D Y) : (forall x, r = Ok x -> keeps P (k x)) -> keeps P (bind (lift r) k).
Proof. intros Hk s Hs. unfold bind, lift. destruct r as [x|e]; [by apply Hk|done]. Qed.

Definition validated (c : pcall) : Prop :=
  match c with PSaveIdempotency r => validate_idempotency r = Ok r | _ => True end.

Ltac idem_step :=
  first
  [ apply idem_frame; frame_solve; fail
  | match goal with
    | |- keeps _ (bind (lift (validate_idempotency _)) _) =>
        let r := fresh "r" in let H := fresh "H" in apply keeps_lift; intros r H;
        pose proof (validate_idempotency_id _ _ H); subst r; apply keeps_bind; [by apply idem_save|intros _]
    | |- keeps _ (bind _ _) => apply keeps_bind; [|intros ?]
    | |- keeps _ (match ?x with _ => _ end) => destruct x
    end ].

Lemma idem_handle c r o p e out now : keeps idem_ok (handle_command_once c r o p e out now).
Proof.
  unfold handle_command_once. apply keeps_bind; [idem_step|].
  intros [[? ? ? ? [ref|]]|]; unfold apply_command, replay_command; repeat idem_step.
Qed.

Lemma idem_pcall c : validated c -> keeps idem_ok (run_pcall c).
Proof.
  intros Hc. destruct c; cbn [run_pcall]; apply keeps_bind; try (intros ?; apply idem_frame, frame_ret);
    [..|apply idem_handle].
  all: try by apply idem_save.
  all: apply idem_frame; frame_solve.
Qed.

(** The committed record of an identity, with what it points to. *)
Record applied (identity : string) (result : CommandResult) (outbox : OutboxRecord) (s : D) : Prop := {
  ap_inv : ds_inv s;
  ap_record : exists irs ir oref more, idem_coll s irs /\ ir ∈ irs /\
    committed_for identity ir = true /\ (forall ir', ir' ∈ irs -> committed_for identity ir' = true -> ir' = ir) /\
    (exists id, ir_id ir = "idempotency:" +:+ id) /\ truthy_str (ir_command_record_ref ir) = true /\
    ir_command_result_ref ir = Some (cr_id result) /\ ir_outbox_refs ir = oref :: more /\
    get_model validate_outbox "outbox_records" oref s = (Ok (Some outbox), s);
  ap_result : get_command_result (cr_id result) s = (Ok (Some result), s) }.

Lemma get_model_docs {X} (validator : X -> res X) `{!JsonModel Json validator} c k s s' r :
  ds_inv s -> ds_inv s' -> ds_docs s' c = ds_docs s c ->
  get_model validator c k s = (r, s) -> get_model validator c k s' = (r, s').
Proof.
  unfold get_model, bind, lift, ret. intros Hi Hi' Hd. rewrite !get_spec, Hd by done. destruct (dict_get _ _); [|congruence].
  destruct (model_validate _ _); congruence.
Qed.

(** [frame3 m]: [m] keeps the collections [applied] reads. *)
Definition reads3 : list string := ["idempotency_records"; "command_results"; "outbox_records"].
Definition frame3 {X} (m : M D X) : Prop := forall c, c ∈ reads3 -> frame c m.

Lemma frame3_intro {X} (m : M D X) :
  frame "idempotency_records" m -> frame "command_results" m -> frame "outbox_records" m -> frame3 m.
Proof. intros H1 H2 H3 c. unfold reads3. rewrite !elem_of_cons, elem_of_nil. by intros [-> |[-> |[-> |[]]]]. Qed.

Lemma applied_frame {X} identity result outbox (m : M D X) : frame3 m -> keeps (applied identity result outbox) m.
Proof.
  intros Hm s [Hi (irs & ir & oref & more & Hc & Hin & Hcf & Huniq & Hid & Ht & Hr & Ho & Hg) Hres].
  assert (forall c, c ∈ reads3 -> ds_docs (m s).2 c = ds_docs s c) as Hd by (intros c Hc'; by destruct (Hm c Hc' s Hi)).
  assert (ds_inv (m s).2) as Hi' by (by destruct (Hm "outbox_records" ltac:(set_solver) s Hi)).
  split; [done| |].
  - exists irs, ir, oref, more. split_and!; try done.
    + eapply coll_docs; [|done]. apply Hd. set_solver.
    + eapply get_model_docs; [exact Hi|done| |done]. apply Hd. set_solver.
  - eapply get_model_docs; [exact Hi|done| |done]. apply Hd. set_solver.
Qed.

Lemma applied_find identity result outbox s : applied identity result outbox s ->
  exists ir oref more, find_idempotency_record identity s = (Ok (Some ir), s) /\
    (exists irs, idem_coll s irs /\ ir ∈ irs /\ forall ir', ir' ∈ irs -> committed_for identity ir' = true -> ir' = ir) /\
    committed_for identity ir = true /\ (exists id, ir_id ir = "idempotency:" +:+ id) /\
    truthy_str (ir_command_record_ref ir) = true /\ ir_command_result_ref ir = Some (cr_id result) /\
    ir_outbox_refs ir = oref :: more /\ get_model validate_outbox "outbox_records" oref s = (Ok (Some outbox), s).
Proof.
  intros [Hi (irs & ir & oref & more & Hc & Hin & Hcf & Huniq & Hid & Ht & Hr & Ho & Hg) Hres].
  exists ir, oref, more. split; [|split; [by exists irs|done]].
  unfold find_idempotency_record, bind. rewrite (coll_list _ ir_id _ _ irs) by done. unfold ret. do 2 f_equal.
  destruct (filter _ irs) as [|ir' l] eqn:E.
  - assert (ir ∈ filter (fun record => committed_for identity record = true) irs) as H by (by apply list_elem_of_filter).
    rewrite E in H. by apply elem_of_nil in H.
  - assert (ir' ∈ filter (fun record => committed_for identity record = true) irs) as [H1 H2]%list_elem_of_filter by (rewrite E; left).
    simpl. f_equal. by apply Huniq.
Qed.

(** Saving a record of another status keeps [applied]. *)
Lemma applied_save identity result outbox r :
  validate_idempotency r = Ok r -> committed_for identity r = false -> (forall id, ir_id r <> "idempotency:" +:+ id) ->
  keeps (applied identity result outbox) (save_idempotency_record r).
Proof.
  intros Hv Hnc Hne s [Hi (irs & ir & oref & more & Hc & Hin & Hcf & Huniq & [id Hid] & Ht & Hr & Ho & Hg) Hres].
  destruct (coll_put validate_idempotency ir_id _ s irs r Hi Hc Hv) as (s' & irs' & E & Hi' & Hc' & HP & Hd).
  unfold save_idempotency_record. rewrite E. simpl. split; [done| |].
  - exists irs', ir, oref, more. split_and!; try done.
    + rewrite HP. right. apply list_elem_of_filter. split; [|done]. rewrite Hid. intros Heq. by apply (Hne id).
    + intros ir'. rewrite HP. intros [->|[_ H]%list_elem_of_filter]%elem_of_cons; [congruence|by apply Huniq].
    + by exists id.
    + eapply get_model_docs; [exact Hi|done| |done]. by apply Hd.
  - eapply get_model_docs; [exact Hi|done| |done]. by apply Hd.
Qed.

Lemma duplicate_record_valid c id result_ref event_refs outbox_refs dup now :
  truthy_str dup = true ->
  validate_record (command_record c id result_ref event_refs outbox_refs DCR_DUPLICATE (Some dup) now) =
    Ok (command_record c id result_ref event_refs outbox_refs DCR_DUPLICATE (Some dup) now).
Proof. intros H. unfold validate_record. simpl. by rewrite H. Qed.

Lemma identity_truthy c : truthy_str (envelope_identity c) = true.
Proof. unfold truthy_str, envelope_identity, command_identity. by destruct (ce_command_type c). Qed.

Lemma duplicate_idempotency_valid c id ref dup now :
  truthy_str (ce_idempotency_key c) = true -> truthy_str dup = true ->
  validate_idempotency (idempotency_record c id ref None [] [] DCR_DUPLICATE (Some dup) now) =
    Ok (idempotency_record c id ref None [] [] DCR_DUPLICATE (Some dup) now).
Proof. intros H Hd. unfold validate_idempotency. simpl. by rewrite H, identity_truthy, Hd. Qed.

Lemma put_model_runs {X} (validator : X -> res X) `{!JsonModel Json validator} c k x s :
  ds_inv s -> exists s', put_model validator c k x s = (Ok k, s').
Proof. intros Hi. destruct (put_spec c k (model_dump validator x) s Hi) as (s' & E & _). by exists s'. Qed.

Lemma save_duplicate_runs r identity result outbox s : applied identity result outbox s ->
  exists x s', save_command_record r s = (Ok x, s') /\ applied identity result outbox s'.
Proof.
  intros Hap. assert (frame3 (save_command_record r)) as Hf by (apply frame3_intro; frame_solve).
  pose proof (applied_frame identity result outbox _ Hf s Hap) as Hap'.
  destruct (put_model_runs validate_record "command_records" (dcr_id r) r s (ap_inv _ _ _ _ Hap)) as [s' E].
  unfold save_command_record in *. rewrite E in *. by eexists _, _.
Qed.

Definition duplicate_of (c : CommandEnvelope) (ir : IdempotencyPersistenceRecord) (result_ref : Ref) (now : nat -> Z) :
    DurableCommandRecord * IdempotencyPersistenceRecord :=
  let record := command_record c ("durable-command-duplicate:" +:+ ce_id c) result_ref (ir_event_refs ir) (ir_outbox_refs ir)
    DCR_DUPLICATE (Some (ir_command_record_ref ir)) (now 0%nat) in
  (record, idempotency_record c ("idempotency-duplicate:" +:+ ce_id c) (dcr_id record) None [] [] DCR_DUPLICATE
    (Some (ir_id ir)) (now 1%nat)).

Lemma replay_command_runs c ir now result outbox oref more s id :
  applied (envelope_identity c) result outbox s -> truthy_str (ce_idempotency_key c) = true ->
  ir_id ir = "idempotency:" +:+ id -> truthy_str (ir_command_record_ref ir) = true -> ir_outbox_refs ir = oref :: more ->
  get_model validate_outbox "outbox_records" oref s = (Ok (Some outbox), s) ->
  let '(dup, idem) := duplicate_of c ir (cr_id result) now in
  exists s', replay_command c ir (cr_id result) now s = (Ok (dup, result, outbox, idem, true), s') /\
    applied (envelope_identity c) result outbox s'.
Proof.
  intros Hap Hkey Hid Ht Ho Hg. unfold duplicate_of. set (dup := command_record _ _ _ _ _ _ _ _). cbv zeta.
  set (idem := idempotency_record _ _ _ _ _ _ _ _ _).
  assert (validate_record dup = Ok dup) as Hdup by (by apply duplicate_record_valid).
  assert (validate_idempotency idem = Ok idem) as Hidem by (apply duplicate_idempotency_valid; [done|by rewrite Hid]).
  destruct (save_duplicate_runs dup _ _ _ s Hap) as (x & s1 & E1 & Hap1).
  assert (keeps (applied (envelope_identity c) result outbox) (save_idempotency_record idem)) as Hk.
  { apply applied_save; [done| |intros id'; discriminate]. unfold committed_for. simpl. by rewrite andb_false_r. }
  specialize (Hk s1 Hap1). unfold save_idempotency_record in Hk.
  destruct (put_model_runs validate_idempotency "idempotency_records" (ir_id idem) idem s1 (ap_inv _ _ _ _ Hap1)) as [s2 E2].
  rewrite E2 in Hk. exists s2. split; [|done].
  assert (lift (S:=D) (if ir_outbox_refs ir is r :: _ then Ok r else Raise IndexError) s = (Ok oref, s)) as Hl by (by rewrite Ho).
  unfold replay_command, bind. rewrite (ap_result _ _ _ _ Hap), Hl, Hg. fold dup. unfold lift. rewrite Hdup, E1.
  fold idem. rewrite Hidem. unfold save_idempotency_record. by rewrite E2.
Qed.

Lemma replay_applied c r o p e out now result outbox s :
  applied (envelope_identity c) result outbox s -> truthy_str (ce_idempotency_key c) = true ->
  exists dup idem s', handle_command_once c r o p e out now s = (Ok (dup, result, outbox, idem, true), s') /\
    dcr_status dup = DCR_DUPLICATE /\ dcr_command_result_ref dup = Some (cr_id result) /\
    applied (envelope_identity c) result outbox s' /\
    forall col, col ∈ ["events"; "command_results"; "outbox_records"] -> ds_docs s' col = ds_docs s col.
Proof.
  intros Hap Hkey. pose proof (ap_inv _ _ _ _ Hap) as Hi.
  destruct (applied_find _ _ _ _ Hap) as (ir & oref & more & Hfind & _ & _ & [id Hid] & Ht & Hr & Ho & Hg).
  pose proof (replay_command_runs c ir now result outbox oref more s id Hap Hkey Hid Ht Ho Hg) as Hrun.
  destruct (duplicate_of c ir (cr_id result) now) as [dup idem] eqn:Edup. destruct Hrun as (s' & E & Hap').
  exists dup, idem, s'. split_and!; try done; try (injection Edup as <- <-; done).
  - unfold handle_command_once, bind. rewrite Hfind. destruct ir as [? ? ? ? [ref|]]; simpl in Hr; [|done]. by injection Hr as ->.
  - assert (frame "events" (replay_command c ir (cr_id result) now) /\ frame "command_results" (replay_command c ir (cr_id result) now) /\
      frame "outbox_records" (replay_command c ir (cr_id result) now)) as (H1 & H2 & H3) by (split_and!; frame_solve).
    intros col. rewrite !elem_of_cons, elem_of_nil.
    intros [-> |[-> |[-> |[]]]]; [by apply (frame_run _ _ _ _ _ H1 Hi E)|by apply (frame_run _ _ _ _ _ H2 Hi E)|by apply (frame_run _ _ _ _ _ H3 Hi E)].
Qed.

Lemma put_model_get {X} (validator : X -> res X) `{!JsonModel Json validator} c k x s r s' :
  put_model validator c k x s = (r, s') -> ds_inv s -> validator x = Ok x ->
  ds_inv s' /\ get_model validator c k s' = (Ok (Some x), s') /\ forall c', c' <> c -> ds_docs s' c' = ds_docs s c'.
Proof.
  unfold put_model. intros E Hi Hv. destruct (put_spec c k (model_dump validator x) s Hi) as (s1 & E1 & Hi1 & Hd).
  rewrite E1 in E. injection E as <- <-. split; [done|]. split.
  - unfold get_model, bind, lift, ret. rewrite get_spec by done. rewrite Hd, decide_True by done.
    rewrite sorted_get by (by apply dict_set_wf, docs_wf). rewrite dict_get_set, decide_True by done. by rewrite validate_dumped, Hv.
  - intros c' Hc'. by rewrite Hd, decide_False.
Qed.

Lemma validate_result_id r r' : validate_result r = Ok r' -> r' = r.
Proof. unfold validate_result. intros H. run_m H. done. Qed.
Lemma validate_outbox_id r r' : validate_outbox r = Ok r' -> r' = r.
Proof. unfold validate_outbox. intros H. run_m H. done. Qed.
Lemma validate_record_id r r' : validate_record r = Ok r' -> r' = r.
Proof. unfold validate_record. intros H. run_m H. done. Qed.

(** A call that is not a replay ran [apply_command], and its identity had no
    committed record. *)
Lemma first_application c r o p e out now s irs x s1 : ds_inv s -> idem_coll s irs ->
  handle_command_once c r o p e out now s = (Ok (x, false), s1) ->
  apply_command c r o p e out now s = (Ok (x, false), s1) /\
  forall ir, ir ∈ irs -> committed_for (envelope_identity c) ir = false.
Proof.
  intros Hi Hc. unfold handle_command_once, bind, find_idempotency_record, bind. rewrite (coll_list _ ir_id _ _ irs) by done. unfold ret.
  destruct (filter _ irs) as [|ir l] eqn:E; simpl.
  - intros H. split; [done|]. intros ir Hin. apply not_true_is_false. intros Hcf.
    assert (ir ∈ filter (fun record => committed_for (envelope_identity c) record = true) irs) as Hf by (by apply list_elem_of_filter).
    rewrite E in Hf. by apply elem_of_nil in Hf.
  - assert (ir ∈ filter (fun record => committed_for (envelope_identity c) record = true) irs) as [Hcf Hin]%list_elem_of_filter
      by (rewrite E; left).
    destruct Hc as [_ Hv]. rewrite Forall_forall in Hv. specialize (Hv ir Hin).
    destruct ir as [? ? ? ? [ref|] ? ? ? st ?]; simpl.
    + intros H. exfalso. unfold replay_command in H. unfold handled in H. run_m H. repeat case_match; unfold raise in *; run_m H; done.
    + exfalso. apply andb_true_iff in Hcf as [_ Hst%bool_decide_eq_true]. simpl in Hst. subst st.
      unfold validate_idempotency in Hv. simpl in Hv. run_m Hv.
Qed.

Lemma apply_applied c r o p e out now s irs record result outbox idem flag s1 :
  ds_inv s -> idem_coll s irs -> (forall ir, ir ∈ irs -> committed_for (envelope_identity c) ir = false) ->
  apply_command c r o p e out now s = (Ok (record, result, outbox, idem, flag), s1) ->
  applied (envelope_identity c) result outbox s1 /\ truthy_str (ce_idempotency_key c) = true.
Proof.
  intros Hi Hc Hno H. unfold apply_command in H. run_m H.
  apply lift_ok in Hm0 as [_ ->], Hm2 as [Hres ->], Hm4 as [Hob ->], Hm6 as [Hrec ->], Hm8 as [Hid ->].
  pose proof (validate_result_id _ _ Hres) as Er. pose proof (validate_outbox_id _ _ Hob) as Eo.
  pose proof (validate_idempotency_id _ _ Hid) as Ei. rewrite <-Er in Hres. rewrite <-Eo in Hob. rewrite <-Ei in Hid.
  assert (truthy_str (ce_idempotency_key c) = true) as Hkey.
  { revert Hid. rewrite Ei. unfold validate_idempotency. simpl. destruct (truthy_str (ce_idempotency_key c)); done. }
  split; [|done].
  assert (forall run, frame "idempotency_records" (stream_events run)) as F1 by (intros; frame_solve).
  assert (forall ev, frame "idempotency_records" (append_event ev)) as F2 by (intros; frame_solve).
  assert (forall rec c', c' <> "command_records" -> frame c' (save_command_record rec)) as F3
    by (intros; unfold save_command_record, put_model; by apply frame_put).
  destruct (frame_run _ _ _ _ _ (F1 r) Hi Hm) as [Hi0 D0]. destruct (frame_run _ _ _ _ _ (F2 a0) Hi0 Hm1) as [Hi1 D1].
  destruct (put_model_get _ _ _ _ _ _ _ Hm3 Hi1 Hres) as (Hi2 & G2 & D2).
  destruct (put_model_get _ _ _ _ _ _ _ Hm5 Hi2 Hob) as (Hi3 & G3 & D3).
  pose proof (fun c' Hc' => frame_run c' _ _ _ _ (F3 record c' Hc') Hi3 Hm7) as D4.
  destruct (D4 "events" ltac:(done)) as [Hi4 _].
  assert (idem_coll s9 irs) as Hc9.
  { eapply coll_docs; [|exact Hc]. rewrite (proj2 (D4 "idempotency_records" ltac:(done))), D3, D2, D1, D0 by done. done. }
  destruct (coll_put validate_idempotency ir_id _ s9 irs idem Hi4 Hc9 Hid) as (s' & irs' & E & Hi' & Hc' & HP & D5).
  unfold save_idempotency_record in Hm9. rewrite E in Hm9. injection Hm9 as _ <-.
  split; [done| |].
  - exists irs', idem, (ob_id outbox), []. rewrite Ei in *. split_and!; try done.
    + rewrite HP. left.
    + unfold committed_for. simpl. by rewrite bool_decide_true by done.
    + intros ir'. rewrite HP. intros [->|[_ Hin]%list_elem_of_filter]%elem_of_cons; [done|]. by rewrite Hno.
    + by eexists.
    + by rewrite (validate_record_id _ _ Hrec).
    + eapply get_model_docs; [exact Hi3|done| |exact G3]. rewrite D5 by done. by apply D4.
  - eapply get_model_docs; [exact Hi2|done| |exact G2]. rewrite D5, (proj2 (D4 "command_results" ltac:(done))), D3 by done. done.
Qed.

(** The calls that leave the records of a command alone, and its retries. *)
Definition harmless (call : pcall) : Prop :=
  match call with
  | PSaveResult _ | PSaveIdempotency _ | PAppendOutbox _ | PMarkDispatched _ _ | PMarkFailed _ _ | PHandle _ _ _ _ _ _ _ => False
  | _ => True
  end.
Definition retry_of (c : CommandEnvelope) (call : pcall) : Prop :=
  match call with
  | PHandle c' _ _ _ _ _ _ => envelope_identity c' = envelope_identity c /\ truthy_str (ce_idempotency_key c') = true
  | _ => False
  end.

Lemma keeps_mmap {X Y} P (f : X -> Y) (m : M D X) : keeps P m -> keeps P (mmap f m).
Proof. intros Hm. apply keeps_bind; [done|]. by intros x s. Qed.

Lemma keeps_pcalls P cs : Forall (fun call => keeps P (run_pcall call)) cs -> forall s, P s -> P (run_pcalls cs s).2.
Proof.
  induction 1 as [|call cs Hcall Hcs IH]; intros s Hs; [done|]. simpl. specialize (Hcall s Hs).
  destruct (run_pcall call s) as [x s1]. specialize (IH s1 Hcall). by destruct (run_pcalls cs s1).
Qed.

Lemma harmless_applied call identity result outbox : harmless call -> keeps (applied identity result outbox) (run_pcall call).
Proof.
  intros Hh. destruct call; try done; cbn [run_pcall]; apply keeps_mmap, applied_frame, frame3_intro; frame_solve.
Qed.

Lemma retry_applied c call result outbox :
  retry_of c call -> keeps (applied (envelope_identity c) result outbox) (run_pcall call).
Proof.
  destruct call; try done. intros [<- Hkey]. cbn [run_pcall]. apply keeps_mmap. intros s Hap.
  destruct (replay_applied c0 run_ref objective_ref plan_ref event_type output_refs now result outbox s Hap Hkey)
    as (? & ? & s' & E & _ & _ & Hap' & _). by rewrite E.
Qed.

(** A command is applied once. On a store reached by any calls, when
    [handle_command_once] first applies a command, then after any further calls
    that do not rewrite results, idempotency records or outbox records, retries
    of the same identity included, every retry returns that first result and
    outbox record with a duplicate record naming them, and changes no event, no
    result and no outbox record. *)
Theorem command_applied_once cs c r o p e out now cs' c' r' o' p' e' out' now' (s0 s1 : D) record result outbox idem :
  ds_inv s0 -> ds_docs s0 "idempotency_records" = [] -> Forall validated cs ->
  handle_command_once c r o p e out now (run_pcalls cs s0).2 = (Ok (record, result, outbox, idem, false), s1) ->
  Forall (fun call => harmless call \/ retry_of c call) cs' ->
  envelope_identity c' = envelope_identity c -> truthy_str (ce_idempotency_key c') = true ->
  let s2 := (run_pcalls cs' s1).2 in
  exists dup idem' s3, handle_command_once c' r' o' p' e' out' now' s2 = (Ok (dup, result, outbox, idem', true), s3) /\
    dcr_status dup = DCR_DUPLICATE /\ dcr_command_result_ref dup = Some (cr_id result) /\
    forall col, col ∈ ["events"; "command_results"; "outbox_records"] -> ds_docs s3 col = ds_docs s2 col.
Proof.
  intros Hi Hd Hcs H1 Hcs' Hid Hkey s2.
  assert (idem_ok (run_pcalls cs s0).2) as (Hi0 & irs & Hc).
  { apply keeps_pcalls; [|split; [done|by exists []]]. eapply Forall_impl; [exact Hcs|]. intros call. apply idem_pcall. }
  destruct (first_application _ _ _ _ _ _ _ _ _ _ _ Hi0 Hc H1) as [Happ Hno].
  destruct (apply_applied _ _ _ _ _ _ _ _ _ _ _ _ _ _ _ Hi0 Hc Hno Happ) as [Hap _].
  assert (applied (envelope_identity c) result outbox s2) as Hap2.
  { apply keeps_pcalls; [|done]. eapply Forall_impl; [exact Hcs'|].
    intros call [Hh|Hr]; [by apply harmless_applied|by apply retry_applied]. }
  rewrite <-Hid in Hap2.
  destruct (replay_applied c' r' o' p' e' out' now' result outbox s2 Hap2 Hkey) as (dup & idem' & s3 & E & ? & ? & _ & ?).
  by exists dup, idem', s3.
Qed.

End Promises.

Import Concrete.

Lemma queue_operations_are_the_log_witness :
  let s := (run_pcalls queue_calls new_db).2 in
  (exists l, list_queue_operations s = (Ok l, s) /\ l ≡ₚ operations_of (run_pcalls queue_calls new_db).1) /\
  qo_id <$> operations_of (run_pcalls queue_calls new_db).1 =
    ["persistent-queue-operation:a:enqueue:1"; "persistent-queue-operation:b:lease:2";
     "persistent-queue-operation:queue-item-for:lease-b:heartbeat:3"; "persistent-queue-operation:b:ack:4"].
Proof.
  split; [|by vm_compute]. apply (queue_operations_are_the_log queue_calls new_db); [apply dict_empty_wf|reflexivity].
Defined.

Lemma event_logs_append_only_witness :
  let s := (run_pcalls [handle "c1" "k1" "r"; handle "c2" "k2" "q"] new_db).2 in
  let s' := (run_pcalls [handle "c3" "k3" "r"] s).2 in
  exists l l', stream_events "r" s = (Ok l, s) /\ stream_events "r" s' = (Ok (l ++ l'), s') /\ numbered "r" (l ++ l').
Proof.
  apply (event_logs_append_only [handle "c1" "k1" "r"; handle "c2" "k2" "q"] [handle "c3" "k3" "r"] new_db "r");
    [apply dict_empty_wf|reflexivity|repeat constructor|repeat constructor].
Defined.

(** The outcome of a first application, for the witness below. *)
Definition applied_first : res handled * db :=
  Eval vm_compute in handle_command_once (envelope "c1" "k") "r" "objective" "plan" "crawled" ["out"] clock new_db.

Lemma command_applied_once_witness :
  exists record result outbox idem s1, applied_first = (Ok (record, result, outbox, idem, false), s1) /\
    cr_id result = "command-result:c1" /\
    let s2 := (run_pcalls (queue_calls ++ [handle "c2" "k" "r"]) s1).2 in
    exists dup idem' s3, handle_command_once (envelope "c3" "k") "r" "objective" "plan" "crawled" ["out"] clock s2 =
        (Ok (dup, result, outbox, idem', true), s3) /\
      dcr_status dup = DCR_DUPLICATE /\ dcr_command_result_ref dup = Some (cr_id result) /\
      forall col, col ∈ ["events"; "command_results"; "outbox_records"] -> ds_docs s3 col = ds_docs s2 col.
Proof.
  do 5 eexists. split; [reflexivity|]. split; [reflexivity|]. cbv zeta.
  eapply (command_applied_once [] (envelope "c1" "k") "r" "objective" "plan" "crawled" ["out"] clock
    (queue_calls ++ [handle "c2" "k" "r"]) (envelope "c3" "k") "r" "objective" "plan" "crawled" ["out"] clock new_db);
    [apply dict_empty_wf|reflexivity|constructor|vm_compute; reflexivity| |reflexivity|reflexivity].
  apply Forall_app. split; [repeat (apply Forall_cons; split; [by left|]); by apply Forall_nil|].
  apply Forall_cons. split; [by right|by apply Forall_nil].
Defined.

(** ** What the model shows of the code *)

(** [model_copy] does not validate: [commit_transaction] stores a committed
    transaction without the refs its model requires, and reading it back raises. *)
Lemma committed_transaction_unreadable :
  let r := (let* t := begin_transaction "run" "uow" (Some "adapter") clock in
            do* commit_transaction t in
            get_model validate_transaction "transactions" (pt_id t)) new_db in
  r.1 = Raise (ValidationError "committed persistence transaction missing refs").
Proof. by vm_compute. Qed.

(** Events are stored by id: an event that repeats an id replaces the first one
    and the log of the run then starts at 2. *)
Lemma repeated_event_id_makes_gap :
  let e n := command_event (envelope "c" "k") "r" "objective" "plan" "crawled" ["out"] n 0 in
  let again := CrawlRunEvent_defaults (ev_id (e 1)) "r" "objective" "plan" 2 "crawled" "event-type:crawled" "payload" "system"
    [] None None "cause" "corr" "trace" [] "idem" [] 0 in
  let r := run_pcalls [PAppendEvent (e 1); PAppendEvent again; PStream "r"] new_db in
  r.1 = [Ok (RRef "event:r:1"); Ok (RRef "event:r:1"); Ok (REvents [again])].
Proof. by vm_compute. Qed.

(** The lease presented to [ack_queue_item] need not be the item's: the lease of
    item [b] acknowledges the item [a], which nobody leased. *)
Lemma ack_with_another_lease :
  let r := run_pcalls [PEnqueue (item "a") clock; PAcquire (item "b") (lease "lease-b" "tok") clock;
                            PAck "a" "lease-b" "tok" "result" clock] new_db in
  map is_ok r.1 = [true; true; true] /\
  (get_model validate_item "queue_items" "a" r.2).1 = Ok (Some (qi_with_status (item "a") QI_ACKED)).
Proof. by vm_compute. Qed.

(** The writes of [handle_command_once] are not one transaction: when the
    process stops after the event, the retry appends a second event. *)
Lemma interrupted_command_repeats_event :
  let e := command_event (envelope "c1" "k") "r" "objective" "plan" "crawled" ["out"] 1 0 in
  let r := run_pcalls [PAppendEvent e; handle "c1" "k" "r"; PStream "r"] new_db in
  (if last r.1 is Some (Ok (REvents l)) then (fun e => (ev_idempotency_key e, ev_sequence e)) <$> l else []) =
    [("event:c1", 1); ("event:c1", 2)].
Proof. by vm_compute. Qed.
