(* ===== verification/ReferenceStore.v ===== *)
(** * The reference persistence store

    [runtime_support/persistence_store.py]: the persistence ports over one JSON
    file per collection, in its own text, which repeats that of
    [adapters/persistence/json_document.py] ([Persistence]) with the differences
    that the file has: its default adapter ref, no migration records, duplicate
    command records that are not saved. Theorem: as far as both have the calls,
    the two answer alike. *)
From S2P Require Import Prelude PyDict PyList PyStr Contracts EventStore DurableStore PersistModels DocStore Persistence.
Local Open Scope Z_scope.

(** ** The JSON files

    One file per collection. [_write_mapping] writes the keys in order and
    replaces the file; [_load_mapping] reads it back in file order. *)
Module JsonFiles.
Section JsonFiles.
Context {Json : Type}.

Record Files := { files : dict string (dict string Json) }.

Definition new_files : Files := {| files := [] |}.

Definition _load_mapping (name : string) (s : Files) : dict string Json := dict_get_or (files s) name [].

Definition _write_mapping (name : string) (data : dict string Json) (s : Files) : Files :=
  {| files := dict_set (files s) name (py_sorted by_key data) |}.

Definition inv (s : Files) : Prop := forall name, dict_wf (_load_mapping name s).

Lemma load_write name data s name' :
  _load_mapping name' (_write_mapping name data s) = if decide (name' = name) then py_sorted by_key data else _load_mapping name' s.
Proof. unfold _load_mapping, _write_mapping, dict_get_or. cbn. rewrite dict_get_set. by case_decide. Qed.
End JsonFiles.
Arguments Files : clear implicits.
End JsonFiles.
Import JsonFiles.

(** ** ReferencePersistenceStore *)

Module Reference.
Section Reference.
Context {Json : Type}.
Context `{JEvent : !JsonModel Json validate_sequence} `{JOutbox : !JsonModel Json validate_outbox}
        `{JCommand : !JsonModel Json validate_record} `{JResult : !JsonModel Json validate_result}
        `{JIdem : !JsonModel Json validate_idempotency} `{JTrans : !JsonModel Json validate_transaction}
        `{JOp : !JsonModel Json validate_operation}
        `{JItem : !JsonModel Json validate_item} `{JLease : !JsonModel Json validate_shard_lease}
        `{JDead : !JsonModel Json validate_dead_letter} `{JArt : !JsonModel Json artifact_document}.
Abbreviation F := (Files Json).

Definition _put_model {X} (validator : X -> res X) `{!JsonModel Json validator} (name key : string) (model : X) : M F Ref :=
  let* data := gets (_load_mapping name) in
  do* modify (_write_mapping name (dict_set data key (model_dump validator model))) in ret key.

Definition _get_model {X} (validator : X -> res X) `{!JsonModel Json validator} (name key : string) : M F (option X) :=
  let* data := gets (fun s => dict_get (_load_mapping name s) key) in
  match data with
  | None => ret None
  | Some data => let* model := lift (model_validate validator data) in ret (Some model)
  end.

Fixpoint _validate_values {X} (validator : X -> res X) `{!JsonModel Json validator} (values : list Json) : res (list X) :=
  match values with
  | [] => Ok []
  | value :: values => let? model := model_validate validator value in let? models := _validate_values validator values in Ok (model :: models)
  end.
Definition _list_models {X} (validator : X -> res X) `{!JsonModel Json validator} (name : string) : M F (list X) :=
  let* data := gets (_load_mapping name) in lift (_validate_values validator (dict_values data)).

Definition save_canonical_model {X} (validator : X -> res X) `{!JsonModel Json validator} (collection key : string) (model : X) : M F Ref :=
  _put_model validator ("canonical_" +:+ collection) key model.
Definition load_canonical_model {X} (validator : X -> res X) `{!JsonModel Json validator} (collection key : string) : M F (option X) :=
  _get_model validator ("canonical_" +:+ collection) key.

(** *** Transactions *)

Definition begin_transaction (run_ref unit_of_work_ref : Ref) (adapter_ref : option Ref) (now : nat -> Z) : M F PersistenceTransactionRecord :=
  let* data := gets (_load_mapping "transactions") in
  let* record := lift (validate_transaction
    {| pt_id := "persistence-transaction:" +:+ run_ref +:+ ":" +:+ pretty (Z.of_nat (length data) + 1);
       pt_adapter_ref := default "persistence-adapter:reference-filesystem" adapter_ref; pt_run_ref := run_ref;
       pt_unit_of_work_ref := unit_of_work_ref; pt_status := UOW_OPEN; pt_command_record_refs := []; pt_event_refs := [];
       pt_outbox_refs := []; pt_artifact_refs := []; pt_idempotency_record_refs := []; pt_queue_operation_refs := [];
       pt_policy_decision_refs := []; pt_committed_at_ref := None; pt_rollback_reason_refs := [];
       pt_failure_refs := []; pt_created_at := now 0%nat |}) in
  do* _put_model validate_transaction "transactions" (pt_id record) record in ret record.

Definition commit_transaction (record : PersistenceTransactionRecord) : M F PersistenceTransactionRecord :=
  let updated :=
    {| pt_id := pt_id record; pt_adapter_ref := pt_adapter_ref record; pt_run_ref := pt_run_ref record;
       pt_unit_of_work_ref := pt_unit_of_work_ref record; pt_status := UOW_COMMITTED;
       pt_command_record_refs := pt_command_record_refs record; pt_event_refs := pt_event_refs record;
       pt_outbox_refs := pt_outbox_refs record; pt_artifact_refs := pt_artifact_refs record;
       pt_idempotency_record_refs := pt_idempotency_record_refs record; pt_queue_operation_refs := pt_queue_operation_refs record;
       pt_policy_decision_refs := pt_policy_decision_refs record;
       pt_committed_at_ref := Some ("clock:" +:+ pt_id record +:+ ":committed");
       pt_rollback_reason_refs := pt_rollback_reason_refs record; pt_failure_refs := pt_failure_refs record;
       pt_created_at := pt_created_at record |} in
  do* _put_model validate_transaction "transactions" (pt_id updated) updated in ret updated.

Definition rollback_transaction (record : PersistenceTransactionRecord) (reason_ref : Ref) : M F PersistenceTransactionRecord :=
  let updated :=
    {| pt_id := pt_id record; pt_adapter_ref := pt_adapter_ref record; pt_run_ref := pt_run_ref record;
       pt_unit_of_work_ref := pt_unit_of_work_ref record; pt_status := UOW_ROLLED_BACK;
       pt_command_record_refs := pt_command_record_refs record; pt_event_refs := pt_event_refs record;
       pt_outbox_refs := pt_outbox_refs record; pt_artifact_refs := pt_artifact_refs record;
       pt_idempotency_record_refs := pt_idempotency_record_refs record; pt_queue_operation_refs := pt_queue_operation_refs record;
       pt_policy_decision_refs := pt_policy_decision_refs record; pt_committed_at_ref := pt_committed_at_ref record;
       pt_rollback_reason_refs := [reason_ref]; pt_failure_refs := pt_failure_refs record;
       pt_created_at := pt_created_at record |} in
  do* _put_model validate_transaction "transactions" (pt_id updated) updated in ret updated.

(** *** Command metadata *)

Definition save_command_record (record : DurableCommandRecord) : M F Ref := _put_model validate_record "command_records" (dcr_id record) record.
Definition save_command_result (result : CommandResult) : M F Ref := _put_model validate_result "command_results" (cr_id result) result.
Definition get_command_result (result_ref : Ref) : M F (option CommandResult) := _get_model validate_result "command_results" result_ref.
Definition save_idempotency_record (record : IdempotencyPersistenceRecord) : M F Ref :=
  _put_model validate_idempotency "idempotency_records" (ir_id record) record.

(** The loop that returns the first committed record of the identity. *)
Fixpoint first_committed (command_identity : string) (records : list IdempotencyPersistenceRecord) : option IdempotencyPersistenceRecord :=
  match records with
  | [] => None
  | record :: records =>
      if bool_decide (ir_command_identity record = command_identity) && bool_decide (ir_status record = DCR_COMMITTED)
      then Some record else first_committed command_identity records
  end.
Definition find_idempotency_record (command_identity : string) : M F (option IdempotencyPersistenceRecord) :=
  let* records := _list_models validate_idempotency "idempotency_records" in ret (first_committed command_identity records).

(** *** Events *)

Definition stream_events (run_ref : Ref) : M F (list CrawlRunEvent) :=
  let* events := _list_models validate_sequence "events" in
  ret (py_sorted by_sequence (filter (fun event => ev_run_id event = run_ref) events)).

Definition append_event (event : CrawlRunEvent) : M F Ref :=
  let* events := stream_events (ev_run_id event) in
  let expected := Z.of_nat (length events) + 1 in
  if bool_decide (ev_sequence event = expected) then _put_model validate_sequence "events" (ev_id event) event
  else raise (ValueError (gap_message (ev_run_id event) expected (ev_sequence event))).

Definition force_append_event_for_fixture (event : CrawlRunEvent) : M F Ref := _put_model validate_sequence "events" (ev_id event) event.

Definition build_event_cursor (run_ref : Ref) (now : nat -> Z) : M F EventCursorRecord :=
  let* events := stream_events run_ref in lift (build_event_cursor_record run_ref events (now 0%nat)).

(** *** Outbox *)

Definition append_outbox (record : OutboxRecord) : M F Ref := _put_model validate_outbox "outbox_records" (ob_id record) record.

Definition list_outbox (run_ref : option Ref) : M F (list OutboxRecord) :=
  let* records := _list_models validate_outbox "outbox_records" in
  match run_ref with
  | None => ret records
  | Some run_ref => ret (filter (fun record => ob_run_ref record = run_ref) records)
  end.

Definition list_pending_outbox (run_ref : Ref) : M F (list OutboxRecord) :=
  let* records := list_outbox (Some run_ref) in ret (filter (fun record => ob_status record = OB_PENDING) records).

Definition mark_outbox_dispatched (outbox_ref dispatched_at_ref : Ref) : M F OutboxRecord :=
  let* current := _get_model validate_outbox "outbox_records" outbox_ref in
  match current with
  | None => raise (ValueError ("unknown outbox record: " +:+ outbox_ref))
  | Some current =>
      if bool_decide (ob_status current = OB_DISPATCHED) then ret current else
      let updated :=
        {| ob_id := ob_id current; ob_run_ref := ob_run_ref current; ob_command_result_ref := ob_command_result_ref current;
           ob_event_ref := ob_event_ref current; ob_dispatch_topic := ob_dispatch_topic current;
           ob_payload_ref := ob_payload_ref current; ob_idempotency_key := ob_idempotency_key current;
           ob_status := OB_DISPATCHED; ob_attempt_count := ob_attempt_count current + 1;
           ob_dispatched_at_ref := Some dispatched_at_ref; ob_last_error_ref := ob_last_error_ref current;
           ob_created_at := ob_created_at current |} in
      do* append_outbox updated in ret updated
  end.

Definition mark_outbox_failed (outbox_ref error_ref : Ref) : M F OutboxRecord :=
  let* current := _get_model validate_outbox "outbox_records" outbox_ref in
  match current with
  | None => raise (ValueError ("unknown outbox record: " +:+ outbox_ref))
  | Some current =>
      let updated :=
        {| ob_id := ob_id current; ob_run_ref := ob_run_ref current; ob_command_result_ref := ob_command_result_ref current;
           ob_event_ref := ob_event_ref current; ob_dispatch_topic := ob_dispatch_topic current;
           ob_payload_ref := ob_payload_ref current; ob_idempotency_key := ob_idempotency_key current;
           ob_status := OB_FAILED; ob_attempt_count := ob_attempt_count current + 1;
           ob_dispatched_at_ref := ob_dispatched_at_ref current; ob_last_error_ref := Some error_ref;
           ob_created_at := ob_created_at current |} in
      do* append_outbox updated in ret updated
  end.

(** *** Artifact refs *)

Definition register_artifact_ref (artifact_ref : Ref) : M F Ref :=
  let* data := gets (_load_mapping "artifact_refs") in
  do* modify (_write_mapping "artifact_refs" (dict_set data artifact_ref (model_dump artifact_document artifact_ref))) in
  ret artifact_ref.
Definition remove_artifact_ref_for_fixture (artifact_ref : Ref) : M F unit :=
  let* data := gets (_load_mapping "artifact_refs") in
  modify (_write_mapping "artifact_refs" (dict_del data artifact_ref)).
Definition has_artifact_ref (artifact_ref : Ref) : M F bool :=
  gets (fun s => bool_decide (artifact_ref ∈ dict_keys (_load_mapping "artifact_refs" s))).
Definition list_artifact_refs : M F (list Ref) :=
  gets (fun s => py_sorted String.leb (dict_keys (_load_mapping "artifact_refs" s))).

(** *** Queue *)

Definition _record_queue_operation (queue_name : ScaleQueueName) (operation : PersistentQueueOperation) (queue_item_ref : Ref)
    (lease_ref lease_token_ref heartbeat_ref command_result_ref : option Ref)
    (failure_record_refs recovery_action_refs : list Ref) (dead_letter_ref : option Ref)
    (policy_decision_refs : list Ref) (now : nat -> Z) : M F PersistentQueueOperationRecord :=
  let* data := gets (_load_mapping "queue_operations") in
  let count := Z.of_nat (length data) + 1 in
  let* record := lift (validate_operation
    {| qo_id := "persistent-queue-operation:" +:+ queue_item_ref +:+ ":" +:+
                PersistentQueueOperation_value operation +:+ ":" +:+ pretty count;
       qo_queue_name := queue_name; qo_operation := operation; qo_queue_item_ref := queue_item_ref;
       qo_lease_ref := lease_ref; qo_lease_token_ref := lease_token_ref; qo_heartbeat_ref := heartbeat_ref;
       qo_command_result_ref := command_result_ref; qo_failure_record_refs := failure_record_refs;
       qo_recovery_action_refs := recovery_action_refs; qo_dead_letter_ref := dead_letter_ref;
       qo_policy_decision_refs := policy_decision_refs; qo_created_at := now 0%nat |}) in
  do* _put_model validate_operation "queue_operations" (qo_id record) record in ret record.

Definition enqueue_queue_item (item : QueueItem) (now : nat -> Z) : M F PersistentQueueOperationRecord :=
  do* _put_model validate_item "queue_items" (qi_id item) item in
  _record_queue_operation (qi_queue_name item) QO_ENQUEUE (qi_id item) None None None None [] [] None [] now.

Definition acquire_queue_lease (item : QueueItem) (lease : ShardLease) (now : nat -> Z) : M F PersistentQueueOperationRecord :=
  do* _put_model validate_item "queue_items" (qi_id item) item in
  do* _put_model validate_shard_lease "shard_leases" (sl_id lease) lease in
  _record_queue_operation (qi_queue_name item) QO_LEASE (qi_id item) (Some (sl_id lease)) (Some (sl_lease_token lease))
    None None [] [] None (sl_policy_decision_refs lease) now.

Definition heartbeat_queue_lease (lease_ref lease_token_ref heartbeat_ref : Ref) (now : nat -> Z) : M F PersistentQueueOperationRecord :=
  let* lease := _get_model validate_shard_lease "shard_leases" lease_ref in
  match lease with
  | None => raise (ValueError ("invalid shard lease token for " +:+ lease_ref))
  | Some lease =>
      if negb (bool_decide (sl_lease_token lease = lease_token_ref)) then
        raise (ValueError ("invalid shard lease token for " +:+ lease_ref))
      else
        _record_queue_operation (sl_queue_name lease) QO_HEARTBEAT ("queue-item-for:" +:+ lease_ref) (Some (sl_id lease))
          (Some (sl_lease_token lease)) (Some heartbeat_ref) None [] [] None (sl_policy_decision_refs lease) now
  end.

(** [item.model_copy(update={"status": ...})] *)
Definition with_status (item : QueueItem) (status : ScaleQueueItemStatus) : QueueItem :=
  {| qi_id := qi_id item; qi_queue_name := qi_queue_name item; qi_shard_key := qi_shard_key item; qi_run_id := qi_run_id item;
     qi_aggregate_type := qi_aggregate_type item; qi_aggregate_id := qi_aggregate_id item; qi_command_ref := qi_command_ref item;
     qi_priority := qi_priority item; qi_retry_class := qi_retry_class item; qi_idempotency_key := qi_idempotency_key item;
     qi_expected_version_ref := qi_expected_version_ref item; qi_lease_token := qi_lease_token item;
     qi_lease_expires_at := qi_lease_expires_at item; qi_attempts := qi_attempts item; qi_deadline_at := qi_deadline_at item;
     qi_status := status; qi_updated_at := qi_updated_at item; qi_created_at := qi_created_at item |}.

Definition ack_queue_item (item_ref lease_ref lease_token_ref command_result_ref : Ref) (now : nat -> Z)
    : M F PersistentQueueOperationRecord :=
  let* item := _get_model validate_item "queue_items" item_ref in
  let* lease := _get_model validate_shard_lease "shard_leases" lease_ref in
  match item, lease with
  | Some item, Some lease =>
      if negb (bool_decide (sl_lease_token lease = lease_token_ref)) then raise (ValueError ("invalid queue ack refs for " +:+ item_ref))
      else
        do* _put_model validate_item "queue_items" (qi_id item) (with_status item QI_ACKED) in
        _record_queue_operation (qi_queue_name item) QO_ACK (qi_id item) (Some (sl_id lease)) (Some (sl_lease_token lease))
          None (Some command_result_ref) [] [] None (sl_policy_decision_refs lease) now
  | _, _ => raise (ValueError ("invalid queue ack refs for " +:+ item_ref))
  end.

Definition nack_queue_item (item_ref lease_ref lease_token_ref : Ref) (failure_refs recovery_refs : list Ref) (now : nat -> Z)
    : M F PersistentQueueOperationRecord :=
  let* item := _get_model validate_item "queue_items" item_ref in
  let* lease := _get_model validate_shard_lease "shard_leases" lease_ref in
  match item, lease with
  | Some item, Some lease =>
      if negb (bool_decide (sl_lease_token lease = lease_token_ref)) then raise (ValueError ("invalid queue nack refs for " +:+ item_ref))
      else
        do* _put_model validate_item "queue_items" (qi_id item) (with_status item QI_NACKED) in
        _record_queue_operation (qi_queue_name item) QO_NACK (qi_id item) (Some (sl_id lease)) (Some (sl_lease_token lease))
          None None failure_refs recovery_refs None (sl_policy_decision_refs lease) now
  | _, _ => raise (ValueError ("invalid queue nack refs for " +:+ item_ref))
  end.

Definition dead_letter_queue_item (item_ref lease_ref lease_token_ref : Ref) (dead_letter : RetryDeadLetterRecord) (now : nat -> Z)
    : M F PersistentQueueOperationRecord :=
  let* item := _get_model validate_item "queue_items" item_ref in
  let* lease := _get_model validate_shard_lease "shard_leases" lease_ref in
  match item, lease with
  | Some item, Some lease =>
      if negb (bool_decide (sl_lease_token lease = lease_token_ref)) then
        raise (ValueError ("invalid queue dead-letter refs for " +:+ item_ref))
      else
        do* _put_model validate_item "queue_items" (qi_id item) (with_status item QI_DEAD_LETTERED) in
        do* _put_model validate_dead_letter "dead_letters" (rd_id dead_letter) dead_letter in
        _record_queue_operation (qi_queue_name item) QO_DEAD_LETTER (qi_id item) (Some (sl_id lease)) (Some (sl_lease_token lease))
          None None [rd_failure_record_id dead_letter] (rd_recovery_action_refs dead_letter) (Some (rd_id dead_letter))
          (sl_policy_decision_refs lease) now
  | _, _ => raise (ValueError ("invalid queue dead-letter refs for " +:+ item_ref))
  end.

Definition list_queue_operations : M F (list PersistentQueueOperationRecord) := _list_models validate_operation "queue_operations".

(** *** Commands *)

(** The branch of [handle_command_once] of a committed identity. *)
Definition replay_once (command : CommandEnvelope) (identity : string) (existing : IdempotencyPersistenceRecord)
    (result_ref : Ref) (now : nat -> Z) : M F handled :=
  let* result := get_command_result result_ref in
  let* outbox_ref := lift (if ir_outbox_refs existing is r :: _ then Ok r else Raise IndexError) in
  let* outbox := _get_model validate_outbox "outbox_records" outbox_ref in
  match result, outbox with
  | Some result, Some outbox =>
      let* duplicate_command := lift (validate_record
        {| dcr_id := "durable-command-duplicate:" +:+ ce_id command; dcr_command_ref := ce_id command;
           dcr_command_type := ce_command_type command; dcr_target_aggregate_type := ce_target_aggregate_type command;
           dcr_target_aggregate_id := ce_target_aggregate_id command; dcr_idempotency_key := ce_idempotency_key command;
           dcr_command_result_ref := Some (cr_id result); dcr_event_refs := ir_event_refs existing;
           dcr_outbox_refs := ir_outbox_refs existing; dcr_status := DCR_DUPLICATE;
           dcr_duplicate_of_ref := Some (ir_command_record_ref existing); dcr_rejection_reason_refs := [];
           dcr_created_at := now 0%nat |}) in
      let* duplicate_idempotency := lift (validate_idempotency
        {| ir_id := "idempotency-duplicate:" +:+ ce_id command; ir_idempotency_key := ce_idempotency_key command;
           ir_command_identity := identity; ir_command_record_ref := dcr_id duplicate_command; ir_command_result_ref := None;
           ir_event_refs := []; ir_outbox_refs := []; ir_duplicate_of_ref := Some (ir_id existing); ir_status := DCR_DUPLICATE;
           ir_created_at := now 1%nat |}) in
      do* save_idempotency_record duplicate_idempotency in
      ret (duplicate_command, result, outbox, duplicate_idempotency, true)
  | _, _ => raise (ValueError "idempotency record points to missing result or outbox")
  end.

Definition handle_command_once (command : CommandEnvelope) (run_ref objective_ref plan_ref : Ref) (event_type : string)
    (output_refs : list Ref) (now : nat -> Z) : M F handled :=
  let identity := ce_command_type command +:+ "|" +:+ ce_target_aggregate_type command +:+ "|" +:+
    ce_target_aggregate_id command +:+ "|" +:+ ce_idempotency_key command in
  let* existing := find_idempotency_record identity in
  let replayed := match existing with
    | Some existing => if ir_command_result_ref existing is Some result_ref then Some (existing, result_ref) else None
    | None => None
    end in
  match replayed with
  | Some (existing, result_ref) => replay_once command identity existing result_ref now
  | None =>
      let* events := stream_events run_ref in
      let sequence := Z.of_nat (length events) + 1 in
      let* event := lift (validate_sequence
        (CrawlRunEvent_defaults ("event:" +:+ run_ref +:+ ":" +:+ pretty sequence) run_ref objective_ref plan_ref
          sequence event_type ("event-type:" +:+ event_type) (ce_payload_ref command) "system"
          output_refs (Some [("status", PStr "accepted")]) (Some [("status", PStr "committed")])
          (ce_id command) ("corr:" +:+ run_ref) ("trace:" +:+ run_ref +:+ ":" +:+ pretty sequence)
          (ce_policy_decision_refs command) ("event:" +:+ ce_id command) [] (now 0%nat))) in
      do* append_event event in
      let* result := lift (validate_result
        {| cr_id := "command-result:" +:+ ce_id command; cr_command_id := ce_id command; cr_result := CR_COMMITTED;
           cr_emitted_event_refs := [ev_id event]; cr_output_refs := output_refs; cr_rejection_reasons := [];
           cr_error := []; cr_created_at := now 1%nat |}) in
      do* save_command_result result in
      let* outbox := lift (validate_outbox
        {| ob_id := "outbox:" +:+ ce_id command; ob_run_ref := run_ref; ob_command_result_ref := cr_id result;
           ob_event_ref := ev_id event; ob_dispatch_topic := "topic:" +:+ event_type; ob_payload_ref := ce_payload_ref command;
           ob_idempotency_key := "outbox:" +:+ ce_id command; ob_status := OB_PENDING; ob_attempt_count := 0;
           ob_dispatched_at_ref := None; ob_last_error_ref := None; ob_created_at := now 2%nat |}) in
      do* append_outbox outbox in
      let* record := lift (validate_record
        {| dcr_id := "durable-command:" +:+ ce_id command; dcr_command_ref := ce_id command;
           dcr_command_type := ce_command_type command; dcr_target_aggregate_type := ce_target_aggregate_type command;
           dcr_target_aggregate_id := ce_target_aggregate_id command; dcr_idempotency_key := ce_idempotency_key command;
           dcr_command_result_ref := Some (cr_id result); dcr_event_refs := [ev_id event]; dcr_outbox_refs := [ob_id outbox];
           dcr_status := DCR_COMMITTED; dcr_duplicate_of_ref := None; dcr_rejection_reason_refs := [];
           dcr_created_at := now 3%nat |}) in
      do* save_command_record record in
      let* idempotency := lift (validate_idempotency
        {| ir_id := "idempotency:" +:+ ce_id command; ir_idempotency_key := ce_idempotency_key command;
           ir_command_identity := identity; ir_command_record_ref := dcr_id record;
           ir_command_result_ref := Some (cr_id result); ir_event_refs := [ev_id event]; ir_outbox_refs := [ob_id outbox];
           ir_duplicate_of_ref := None; ir_status := DCR_COMMITTED; ir_created_at := now 4%nat |}) in
      do* save_idempotency_record idempotency in
      ret (record, result, outbox, idempotency, false)
  end.

(** A call of the ports; [None]: the store has no such method. *)
Definition run_call (c : pcall) : option (M F presult) :=
  match c with
  | PSaveMigration _ | PListMigrations => None
  | PBegin r u a now => Some (mmap RTransaction (begin_transaction r u a now))
  | PCommit t => Some (mmap RTransaction (commit_transaction t))
  | PRollback t r => Some (mmap RTransaction (rollback_transaction t r))
  | PSaveCommand r => Some (mmap RRef (save_command_record r))
  | PSaveResult r => Some (mmap RRef (save_command_result r))
  | PGetResult r => Some (mmap RResult (get_command_result r))
  | PSaveIdempotency r => Some (mmap RRef (save_idempotency_record r))
  | PFindIdempotency i => Some (mmap RIdempotency (find_idempotency_record i))
  | PAppendEvent e => Some (mmap RRef (append_event e))
  | PStream r => Some (mmap REvents (stream_events r))
  | PCursor r now => Some (mmap RCursor (build_event_cursor r now))
  | PAppendOutbox o => Some (mmap RRef (append_outbox o))
  | PListOutbox r => Some (mmap ROutboxes (list_outbox r))
  | PListPending r => Some (mmap ROutboxes (list_pending_outbox r))
  | PMarkDispatched r d => Some (mmap ROutbox (mark_outbox_dispatched r d))
  | PMarkFailed r e => Some (mmap ROutbox (mark_outbox_failed r e))
  | PRegisterArtifact r => Some (mmap RRef (register_artifact_ref r))
  | PHasArtifact r => Some (mmap RBool (has_artifact_ref r))
  | PListArtifacts => Some (mmap RRefs list_artifact_refs)
  | PEnqueue i now => Some (mmap ROperation (enqueue_queue_item i now))
  | PAcquire i l now => Some (mmap ROperation (acquire_queue_lease i l now))
  | PHeartbeat l t h now => Some (mmap ROperation (heartbeat_queue_lease l t h now))
  | PAck i l t r now => Some (mmap ROperation (ack_queue_item i l t r now))
  | PNack i l t f r now => Some (mmap ROperation (nack_queue_item i l t f r now))
  | PDeadLetter i l t d now => Some (mmap ROperation (dead_letter_queue_item i l t d now))
  | PListOperations => Some (mmap ROperations list_queue_operations)
  | PHandle c r o p e out now => Some (mmap RHandled (handle_command_once c r o p e out now))
  end.
Definition run_or_raise (c : pcall) : M F presult := default (raise (ForeignError "AttributeError")) (run_call c).

Fixpoint run_calls (cs : list pcall) (s : F) : list (res presult) * F :=
  match cs with
  | [] => ([], s)
  | c :: cs' => let '(r, s1) := run_or_raise c s in let '(rs, s2) := run_calls cs' s1 in (r :: rs, s2)
  end.
End Reference.
End Reference.

(** ** The two texts agree *)

(** The calls that both have, with the default that differs given. *)
Definition served (c : pcall) : bool :=
  match c with PSaveMigration _ | PListMigrations => false | PBegin _ _ adapter_ref _ => bool_decide (is_Some adapter_ref) | _ => true end.

Section Agree.
Context {Json D : Type} `{DS : DocStore Json D} `{Laws : !DocStoreLaws Json D}.
Context `{JEvent : !JsonModel Json validate_sequence} `{JOutbox : !JsonModel Json validate_outbox}
        `{JCommand : !JsonModel Json validate_record} `{JResult : !JsonModel Json validate_result}
        `{JIdem : !JsonModel Json validate_idempotency} `{JTrans : !JsonModel Json validate_transaction}
        `{JMig : !JsonModel Json validate_migration} `{JOp : !JsonModel Json validate_operation}
        `{JItem : !JsonModel Json validate_item} `{JLease : !JsonModel Json validate_shard_lease}
        `{JDead : !JsonModel Json validate_dead_letter} `{JArt : !JsonModel Json artifact_document}.
#[local] Abbreviation F := (Files Json).

(** No call reads the command records. *)
Definition unread (c : string) : Prop := c = "command_records".

(** The same documents in the collections that are read, and an artifact's
    document names it. *)
Record same_docs (f : F) (s : D) : Prop := {
  sd_files : JsonFiles.inv f;
  sd_inv : ds_inv s;
  sd_docs : forall c, ~ unread c -> _load_mapping c f = ds_docs s c;
  sd_artifacts : forall k j, (k, j) ∈ _load_mapping "artifact_refs" f -> j = model_dump artifact_document k }.

Definition sim {X} (m1 : M F X) (m2 : M D X) : Prop :=
  forall f s, same_docs f s -> (m1 f).1 = (m2 s).1 /\ same_docs (m1 f).2 (m2 s).2.

Lemma sim_ret {X} (x : X) : sim (ret x) (ret x).
Proof. done. Qed.
Lemma sim_lift {X} (r : res X) : sim (lift r) (lift r).
Proof. done. Qed.
Lemma sim_raise {X} e : sim (raise (A:=X) e) (raise e).
Proof. done. Qed.
Lemma sim_raise_lift {X} e : sim (raise (A:=X) e) (lift (Raise e)).
Proof. done. Qed.
Lemma sim_bind {X Y} (m1 : M F X) m2 (k1 : X -> M F Y) k2 :
  sim m1 m2 -> (forall x, sim (k1 x) (k2 x)) -> sim (bind m1 k1) (bind m2 k2).
Proof.
  intros Hm Hk f s H. unfold bind. destruct (Hm f s H) as [Hr Hs].
  destruct (m1 f) as [[x|e] f'], (m2 s) as [r2 s']; simpl in *; subst r2; [by apply Hk|done].
Qed.
Lemma sim_assoc {X Y Z} (m1 : M F Z) (m2 : M D X) (k : X -> M D Y) (h : Y -> M D Z) :
  sim m1 (bind m2 (fun x => bind (k x) h)) -> sim m1 (bind (bind m2 k) h).
Proof.
  intros H f s Hs. destruct (H f s Hs) as [Hr Hd]. unfold bind in *. by destruct (m2 s) as [[x|e] s'].
Qed.

(** Writing a document on both sides. *)
Lemma same_put c k j f s s' : same_docs f s -> (c = "artifact_refs" -> j = model_dump artifact_document k) ->
  put_document c k j s = (Ok k, s') -> same_docs (_write_mapping c (dict_set (_load_mapping c f) k j) f) s'.
Proof.
  intros [Hf Hi Hd Ha] Hj Hput. destruct (put_spec c k j s Hi) as (s1 & E & I1 & V). rewrite E in Hput. injection Hput as <-. split.
  - intros name. rewrite load_write. case_decide; [apply sorted_wf, dict_set_wf|]; apply Hf.
  - done.
  - intros c' Hc'. rewrite load_write, V. case_decide as Hcc; [subst c'; by rewrite Hd|by apply Hd].
  - intros k' j'. rewrite load_write. case_decide as Hcc; [|apply Ha]. rewrite elem_of_py_sorted. intros [[= -> ->]|Hin]%dict_set_in; [by apply Hj|].
    apply Ha. by rewrite Hcc.
Qed.
Lemma sim_put {X} (validator : X -> res X) `{!JsonModel Json validator} c k x : c <> "artifact_refs" ->
  sim (Reference._put_model validator c k x) (put_model validator c k x).
Proof.
  intros Hc f s Hs. unfold put_model. destruct (put_spec c k (model_dump validator x) s (sd_inv _ _ Hs)) as (s' & E & _). rewrite E.
  split; [done|]. by eapply same_put; [exact Hs| |exact E].
Qed.
Lemma sim_get {X} (validator : X -> res X) `{!JsonModel Json validator} c k : ~ unread c ->
  sim (Reference._get_model validator c k) (get_model validator c k).
Proof.
  intros Hc f s Hs. unfold Reference._get_model, get_model, bind, gets. rewrite get_spec by apply Hs. rewrite (sd_docs _ _ Hs) by done.
  destruct (dict_get (ds_docs s c) k) as [j|]; [|done]. unfold lift. by destruct (model_validate validator j).
Qed.
Lemma values_agree {X} (validator : X -> res X) `{!JsonModel Json validator} js : Reference._validate_values validator js = validate_all validator js.
Proof. induction js as [|j js IH]; [done|]. simpl. by rewrite IH. Qed.
Lemma sim_list {X} (validator : X -> res X) `{!JsonModel Json validator} c : ~ unread c ->
  sim (Reference._list_models validator c) (list_models validator c).
Proof.
  intros Hc f s Hs. unfold Reference._list_models, list_models, bind, gets. rewrite list_spec by apply Hs.
  by rewrite values_agree, (sd_docs _ _ Hs).
Qed.
(** Counting the documents of a collection. *)
Lemma sim_count {Y} c (k1 : dict string Json -> M F Y) (k2 : list Json -> M D Y) : ~ unread c ->
  (forall data docs, length data = length docs -> sim (k1 data) (k2 docs)) ->
  sim (bind (gets (_load_mapping c)) k1) (bind (list_documents c) k2).
Proof.
  intros Hc Hk f s Hs. unfold bind, gets. rewrite list_spec by apply Hs. rewrite (sd_docs _ _ Hs) by done.
  apply Hk; [|done]. unfold dict_values. by rewrite length_fmap.
Qed.
(** Saving a command record on the second side only. *)
Lemma sim_saved {Y} r (m1 : M F Y) (k2 : Ref -> M D Y) : (forall x, sim m1 (k2 x)) -> sim m1 (bind (save_command_record r) k2).
Proof.
  intros Hk f s Hs. unfold bind, save_command_record, put_model.
  destruct (put_spec "command_records" (dcr_id r) (model_dump validate_record r) s (sd_inv _ _ Hs)) as (s' & E & I & V). rewrite E.
  apply Hk. destruct Hs as [Hf Hi Hd Ha]. split; [done|done| |done]. intros c Hc. rewrite V, decide_False by done. by apply Hd.
Qed.

(** One step of a simulation: both sides run the same primitive, or branch on
    the same value. *)
Ltac sim_step :=
  first
  [ apply sim_ret | apply sim_lift | apply sim_raise | apply sim_raise_lift | apply sim_put; discriminate
  | apply sim_get; discriminate | apply sim_list; discriminate
  | apply sim_bind; [|intros ?]
  | match goal with
    | |- sim (match ?x with _ => _ end) _ => destruct x
    | |- sim (if ?x then _ else _) _ => destruct x
    end
  | progress cbn [negb lift] ].
Ltac sim_solve := repeat sim_step.

Lemma sim_stream run : sim (Reference.stream_events run) (stream_events run).
Proof. unfold Reference.stream_events, stream_events. sim_solve. Qed.
Lemma sim_append e : sim (Reference.append_event e) (append_event e).
Proof.
  unfold Reference.append_event, append_event. apply sim_bind; [apply sim_stream|intros events].
  destruct (Z.eqb_spec (ev_sequence e) (Z.of_nat (length events) + 1)) as [He|He]; [rewrite bool_decide_true by done|rewrite bool_decide_false by done];
    cbn [negb]; sim_solve.
Qed.

Lemma sim_operation qn op i l t h cr fs rs dl ps now :
  sim (Reference._record_queue_operation qn op i l t h cr fs rs dl ps now) (record_queue_operation qn op i l t h cr fs rs dl ps now).
Proof.
  unfold Reference._record_queue_operation, record_queue_operation.
  apply sim_count; [discriminate|]. intros data docs Hl. cbv zeta. rewrite Hl. sim_solve.
Qed.
Lemma sim_begin r u a now : is_Some a -> sim (Reference.begin_transaction r u a now) (begin_transaction r u a now).
Proof.
  intros [a' ->]. unfold Reference.begin_transaction, begin_transaction.
  apply sim_count; [discriminate|]. intros data docs Hl. rewrite Hl. sim_solve.
Qed.

Lemma first_committed_head identity records :
  Reference.first_committed identity records = head (filter (fun record => committed_for identity record = true) records).
Proof.
  induction records as [|record records IH]; [done|]. rewrite filter_cons. cbn [Reference.first_committed].
  change (bool_decide _ && bool_decide _) with (committed_for identity record).
  destruct (decide (committed_for identity record = true)) as [E|E]; [by rewrite E|]. apply not_true_is_false in E. by rewrite E.
Qed.
Lemma sim_find identity : sim (Reference.find_idempotency_record identity) (find_idempotency_record identity).
Proof.
  unfold Reference.find_idempotency_record, find_idempotency_record. apply sim_bind; [by apply sim_list|intros records].
  rewrite first_committed_head. apply sim_ret.
Qed.

(** The item and the lease of a call of the queue. *)
Lemma sim_leased {Y} what item_ref lease_ref token (k : QueueItem -> ShardLease -> M F Y) (k' : QueueItem * ShardLease -> M D Y) :
  (forall item lease, sim (k item lease) (k' (item, lease))) ->
  sim (let* item := Reference._get_model validate_item "queue_items" item_ref in
       let* lease := Reference._get_model validate_shard_lease "shard_leases" lease_ref in
       match item, lease with
       | Some item, Some lease =>
           if negb (bool_decide (sl_lease_token lease = token)) then raise (ValueError ("invalid queue " +:+ what +:+ " refs for " +:+ item_ref))
           else k item lease
       | _, _ => raise (ValueError ("invalid queue " +:+ what +:+ " refs for " +:+ item_ref))
       end)
      (bind (leased_item what item_ref lease_ref token) k').
Proof.
  intros Hk. unfold leased_item. apply sim_assoc. apply sim_bind; [by apply sim_get|intros item]. apply sim_assoc.
  apply sim_bind; [by apply sim_get|intros lease].
  destruct item as [item|]; [|done]. destruct lease as [lease|]; [|done]. destruct (bool_decide _); [apply Hk|done].
Qed.

Lemma sim_replay c existing ref now : sim (Reference.replay_once c (envelope_identity c) existing ref now) (replay_command c existing ref now).
Proof.
  unfold Reference.replay_once, replay_command. apply sim_bind; [by apply sim_get|intros result].
  apply sim_bind; [apply sim_lift|intros outbox_ref]. apply sim_bind; [by apply sim_get|intros outbox].
  destruct result as [result|]; [|apply sim_raise]. destruct outbox as [outbox|]; [|apply sim_raise].
  apply sim_bind; [apply sim_lift|intros duplicate]. apply sim_saved. intros _. sim_solve.
Qed.
Lemma sim_handle c r o p e out now : sim (Reference.handle_command_once c r o p e out now) (handle_command_once c r o p e out now).
Proof.
  unfold Reference.handle_command_once, handle_command_once. cbv zeta. apply sim_bind; [apply sim_find|intros existing].
  destruct existing as [existing|]; [destruct (ir_command_result_ref existing) as [ref|] eqn:Er|]; cbn iota.
  { destruct existing. cbn in Er. subst. apply sim_replay. }
  1: replace (match existing with {| ir_command_result_ref := Some ref |} as existing => replay_command c existing ref now
      | _ => apply_command c r o p e out now end) with (apply_command c r o p e out now) by (destruct existing; cbn in Er; by subst).
  all: unfold apply_command; (apply sim_bind; [apply sim_stream|intros events]); (apply sim_bind; [apply sim_lift|intros event]);
    (apply sim_bind; [apply sim_append|intros _]);
    unfold Reference.save_command_result, save_command_result, Reference.append_outbox, append_outbox, Reference.save_command_record,
      save_command_record, Reference.save_idempotency_record, save_idempotency_record; sim_solve.
Qed.

(** Artifacts are the keys of their collection. *)
Lemma artifact_keys f s : same_docs f s -> validate_all artifact_document (dict_values (_load_mapping "artifact_refs" f)) = Ok (dict_keys (_load_mapping "artifact_refs" f)).
Proof.
  intros Hs. pose proof (sd_artifacts _ _ Hs) as Ha. revert Ha. generalize (_load_mapping "artifact_refs" f). intros d Ha.
  induction d as [|[k j] d IH]; [done|]. cbn. rewrite (Ha k j) by left. rewrite validate_dumped. cbn [artifact_document rbind].
  unfold dict_values, dict_keys in IH. rewrite IH; [done|]. intros k' j' Hin. apply Ha. by right.
Qed.
Lemma sim_artifacts : sim Reference.list_artifact_refs list_artifact_refs.
Proof.
  intros f s Hs. unfold list_artifact_refs, list_models, bind. rewrite list_spec by apply Hs. rewrite <-(sd_docs _ _ Hs) by discriminate.
  unfold lift. by rewrite (artifact_keys f s Hs).
Qed.
Lemma sim_register ref : sim (Reference.register_artifact_ref ref) (register_artifact_ref ref).
Proof.
  intros f s Hs. unfold register_artifact_ref, bind.
  destruct (put_spec "artifact_refs" ref (model_dump artifact_document ref) s (sd_inv _ _ Hs)) as (s' & E & _). rewrite E. split; [done|].
  by eapply same_put; [exact Hs| |exact E].
Qed.
Lemma sim_has ref : sim (Reference.has_artifact_ref ref) (has_artifact_ref ref).
Proof.
  intros f s Hs. unfold has_artifact_ref, bind. rewrite get_spec by apply Hs. rewrite <-(sd_docs _ _ Hs) by discriminate. split; [|done].
  cbn. f_equal. destruct (dict_get _ ref) as [j|] eqn:E; [apply bool_decide_true|apply bool_decide_false].
  - apply elem_of_dict_keys. by exists j.
  - intros [j Hj]%elem_of_dict_keys. congruence.
Qed.

Lemma sim_call c m : served c = true -> Reference.run_call c = Some m -> sim m (run_pcall c).
Proof.
  intros Hc Hm. destruct c; simpl in Hm; try done; injection Hm as <-; simpl; unfold mmap; (apply sim_bind; [|intros ?; apply sim_ret]);
    try apply sim_handle; try apply sim_stream; try apply sim_append; try apply sim_find; try apply sim_artifacts; try apply sim_register; try apply sim_has.
  - apply sim_begin. by apply bool_decide_eq_true in Hc.
  - unfold Reference.commit_transaction, commit_transaction. sim_solve.
  - unfold Reference.rollback_transaction, rollback_transaction. sim_solve.
  - unfold Reference.save_command_record, save_command_record. sim_solve.
  - unfold Reference.save_command_result, save_command_result. sim_solve.
  - unfold Reference.get_command_result, get_command_result. sim_solve.
  - unfold Reference.save_idempotency_record, save_idempotency_record. sim_solve.
  - unfold Reference.build_event_cursor, build_event_cursor. apply sim_bind; [apply sim_stream|intros ?; apply sim_lift].
  - unfold Reference.append_outbox, append_outbox. sim_solve.
  - unfold Reference.list_outbox, list_outbox. apply sim_bind; [by apply sim_list|intros ?]. destruct run_ref; apply sim_ret.
  - unfold Reference.list_pending_outbox, list_pending_outbox, Reference.list_outbox, list_outbox. sim_solve.
  - unfold Reference.mark_outbox_dispatched, mark_outbox_dispatched, known_outbox. apply sim_assoc. apply sim_bind; [by apply sim_get|intros [current|]]; [|done].
    change (sim (if bool_decide (ob_status current = OB_DISPATCHED) then ret current else
      do* Reference.append_outbox (ob_copy current OB_DISPATCHED (Some at_ref) (ob_last_error_ref current) (ob_attempt_count current + 1)) in
      ret (ob_copy current OB_DISPATCHED (Some at_ref) (ob_last_error_ref current) (ob_attempt_count current + 1)))
     (if bool_decide (ob_status current = OB_DISPATCHED) then ret current else
      do* append_outbox (ob_copy current OB_DISPATCHED (Some at_ref) (ob_last_error_ref current) (ob_attempt_count current + 1)) in
      ret (ob_copy current OB_DISPATCHED (Some at_ref) (ob_last_error_ref current) (ob_attempt_count current + 1)))).
    unfold Reference.append_outbox, append_outbox. sim_solve.
  - unfold Reference.mark_outbox_failed, mark_outbox_failed, known_outbox. apply sim_assoc. apply sim_bind; [by apply sim_get|intros [current|]]; [|done].
    change (sim (do* Reference.append_outbox (ob_copy current OB_FAILED (ob_dispatched_at_ref current) (Some error_ref) (ob_attempt_count current + 1)) in
      ret (ob_copy current OB_FAILED (ob_dispatched_at_ref current) (Some error_ref) (ob_attempt_count current + 1)))
     (do* append_outbox (ob_copy current OB_FAILED (ob_dispatched_at_ref current) (Some error_ref) (ob_attempt_count current + 1)) in
      ret (ob_copy current OB_FAILED (ob_dispatched_at_ref current) (Some error_ref) (ob_attempt_count current + 1)))).
    unfold Reference.append_outbox, append_outbox. sim_solve.
  - unfold Reference.enqueue_queue_item, enqueue_queue_item, save_queue_item. apply sim_bind; [by apply sim_put|intros _; apply sim_operation].
  - unfold Reference.acquire_queue_lease, acquire_queue_lease, save_queue_item. apply sim_bind; [by apply sim_put|intros _].
    apply sim_bind; [by apply sim_put|intros _; apply sim_operation].
  - unfold Reference.heartbeat_queue_lease, heartbeat_queue_lease, get_shard_lease. apply sim_bind; [by apply sim_get|intros [lease|]]; [|done].
    destruct (bool_decide (sl_lease_token lease = token_ref)); [|done]. apply sim_operation.
  - unfold ack_queue_item. apply (sim_leased "ack"). intros item lease. apply sim_bind; [by apply sim_put|intros _; apply sim_operation].
  - unfold nack_queue_item. apply (sim_leased "nack"). intros item lease. apply sim_bind; [by apply sim_put|intros _; apply sim_operation].
  - unfold dead_letter_queue_item. apply (sim_leased "dead-letter"). intros item lease. apply sim_bind; [by apply sim_put|intros _].
    apply sim_bind; [by apply sim_put|intros _; apply sim_operation].
  - unfold Reference.list_queue_operations, list_queue_operations. sim_solve.
Qed.
End Agree.

(** ** Theorems *)

Section Claims.
Context {Json D : Type} `{DS : DocStore Json D} `{Laws : !DocStoreLaws Json D}.
Context `{JEvent : !JsonModel Json validate_sequence} `{JOutbox : !JsonModel Json validate_outbox}
        `{JCommand : !JsonModel Json validate_record} `{JResult : !JsonModel Json validate_result}
        `{JIdem : !JsonModel Json validate_idempotency} `{JTrans : !JsonModel Json validate_transaction}
        `{JMig : !JsonModel Json validate_migration} `{JOp : !JsonModel Json validate_operation}
        `{JItem : !JsonModel Json validate_item} `{JLease : !JsonModel Json validate_shard_lease}
        `{JDead : !JsonModel Json validate_dead_letter} `{JArt : !JsonModel Json artifact_document}.

Lemma calls_agree cs : Forall (fun c => served c = true) cs -> forall f (s : D), same_docs f s ->
  (Reference.run_calls cs f).1 = (run_pcalls cs s).1 /\ same_docs (Reference.run_calls cs f).2 (run_pcalls cs s).2.
Proof.
  intros Hcs. induction Hcs as [|c cs Hc Hcs IH]; intros f s Hs; [done|]. cbn [Reference.run_calls run_pcalls].
  destruct (Reference.run_call c) as [m|] eqn:Em; [|by destruct c]. assert (Reference.run_or_raise c = m) as -> by (unfold Reference.run_or_raise; by rewrite Em).
  destruct (sim_call c m Hc Em f s Hs) as [Hr Hs']. destruct (m f) as [r f'], (run_pcall c s) as [r' s']. cbn [fst snd] in *. subst r'.
  destruct (IH f' s' Hs') as [Hrs Hss]. destruct (Reference.run_calls cs f') as [rs f''], (run_pcalls cs s') as [rs' s'']. simpl in *. by subst rs'.
Qed.

(** C36: The two separately written texts of the persistence ports agree. From
    new stores, the JSON-file store of [persistence_store.py] and the mixin of
    [json_document.py], over any document store that keeps its documents by key
    (the SQLite table is one), answer every sequence of calls alike: the same
    results, and the same exceptions in the same places. This is of the calls
    that both have, with the adapter ref of [begin_transaction] given: the
    migration records are the mixin's only, and the default adapter refs differ
    ([texts_differ]). *)
Theorem adapters_agree cs (s : D) : ds_inv s -> (forall c, ds_docs s c = []) -> Forall (fun c => served c = true) cs ->
  (Reference.run_calls cs (new_files : Files Json)).1 = (run_pcalls cs s).1.
Proof.
  intros Hi Hd Hcs. apply (calls_agree cs Hcs). split; [intros name; apply dict_empty_wf|done|intros c _; by rewrite Hd|].
  intros k j Hin. by apply elem_of_nil in Hin.
Qed.
End Claims.

(** ** Concrete stores *)

Import Concrete.

Definition both_calls : list pcall :=
  PBegin "r" "uow" (Some "adapter") clock :: handle "c1" "k" "r" :: handle "c2" "k" "r" :: PRegisterArtifact "artifact:1" :: PListArtifacts ::
  queue_calls.

(** What the two texts do not share: the default adapter ref, the migration
    records; and the record of a duplicate command, which the reference store
    returns, and to which its idempotency record refers, without saving it. *)
Example texts_differ :
  (match (Reference.begin_transaction "r" "uow" None clock (new_files : Files document)).1, (begin_transaction "r" "uow" None clock new_db).1 with
   | Ok t, Ok t' => (pt_adapter_ref t, pt_adapter_ref t') = ("persistence-adapter:reference-filesystem", "persistence-adapter:json-document")
   | _, _ => False
   end) /\
  (Reference.run_calls [PListMigrations] (new_files : Files document)).1 = [Raise (ForeignError "AttributeError")] /\
  (run_pcalls [PListMigrations] new_db).1 = [Ok (RMigrations [])] /\
  let cs := [handle "c1" "k" "r"; handle "c2" "k" "r"] in
  dict_keys (_load_mapping "command_records" (Reference.run_calls cs (new_files : Files document)).2) = ["durable-command:c1"] /\
  dict_keys (ds_docs (run_pcalls cs new_db).2 "command_records") = ["durable-command-duplicate:c2"; "durable-command:c1"].
Proof. vm_compute. by split_and!. Qed.

Lemma adapters_agree_witness :
  (Reference.run_calls both_calls (new_files : Files document)).1 = (run_pcalls both_calls new_db).1 /\
  map is_ok (Reference.run_calls both_calls (new_files : Files document)).1 = [true; true; true; true; true; true; true; true; false; true].
Proof.
  split; [|by vm_compute]. apply (adapters_agree both_calls new_db); [apply dict_empty_wf|by intros c|].
  repeat constructor.
Defined.
