(* ===== verification/Trace.v ===== *)
(** * Runs that leave a trace

    A calculus for methods [m : M (L * E) A] of an object with attributes [L] in
    a world [E] that records the calls of its ports: what a method adds to the
    trace, together with its result and the attributes it leaves. [emits] is the
    general judgement, with a rule for each construct of the monad; [still] is
    that of the methods that record nothing and only relate the attributes
    before to those after. *)
From S2P Require Import Prelude.

Section Emits.
Context {L E Ev : Type} {trace : E -> list Ev}.
#[local] Abbreviation Mt := (M (L * E)).
#[local] Abbreviation Post A := (list Ev -> res A -> L -> Prop).

(** From the attributes [s] and any world, [m] adds to the trace what, with its
    result and the attributes it leaves, satisfies [Q]. *)
Definition emits {A} (m : Mt A) (s : L) (Q : Post A) : Prop :=
  forall e, exists t, trace (m (s, e)).2.2 = trace e ++ t /\ Q t (m (s, e)).1 (m (s, e)).2.1.

Lemma emits_mono {A} (m : Mt A) s (Q Q' : Post A) : emits m s Q -> (forall t r s', Q t r s' -> Q' t r s') -> emits m s Q'.
Proof. intros H HQ e. destruct (H e) as (t & ? & ?). eauto. Qed.

Lemma emits_ret {A} (x : A) s (Q : Post A) : Q [] (Ok x) s -> emits (ret x) s Q.
Proof. intros HQ e. exists []. by rewrite app_nil_r. Qed.
Lemma emits_raise {A} x s (Q : Post A) : Q [] (Raise x) s -> emits (raise x) s Q.
Proof. intros HQ e. exists []. by rewrite app_nil_r. Qed.
Lemma emits_lift {A} (r : res A) s (Q : Post A) : Q [] r s -> emits (lift r) s Q.
Proof. intros HQ e. exists []. by rewrite app_nil_r. Qed.
Lemma emits_object f s (Q : Post unit) : Q [] (Ok tt) (f s) -> emits (on_object f) s Q.
Proof. intros HQ e. exists []. by rewrite app_nil_r. Qed.
Lemma emits_gets {A} (f : L * E -> A) s (Q : Post A) : (forall e, Q [] (Ok (f (s, e))) s) -> emits (gets f) s Q.
Proof. intros HQ e. exists []. rewrite app_nil_r. simpl. auto. Qed.

Lemma emits_bind {A B} (m : Mt A) (k : A -> Mt B) s (Q : Post B) :
  emits m s (fun t r s' => match r with
    | Ok x => emits (k x) s' (fun t' => Q (t ++ t'))
    | Raise x => Q t (Raise x) s'
    end) -> emits (bind m k) s Q.
Proof.
  intros H e. destruct (H e) as (t & Ht & HQ). unfold bind. destruct (m (s, e)) as [[x|x] [s' e']]; simpl in *; [|by exists t].
  destruct (HQ e') as (t' & Ht' & HQ'). exists (t ++ t'). by rewrite Ht', Ht, app_assoc.
Qed.

Lemma emits_attempt {A} (m : Mt A) s (Q : Post (res A)) : emits m s (fun t r s' => Q t (Ok r) s') -> emits (attempt m) s Q.
Proof. intros H e. destruct (H e) as (t & Ht & HQ). exists t. unfold attempt. by destruct (m (s, e)) as [r [s' e']]. Qed.

(** A call of a port, with what it records: some events, one, or none. *)
Lemma emits_world {A} (m : M E A) (ev : res A -> list Ev) s (Q : Post A) :
  (forall e, trace (m e).2 = trace e ++ ev (m e).1) -> (forall e, Q (ev (m e).1) (m e).1 s) -> emits (on_world m) s Q.
Proof. intros Hm HQ e. exists (ev (m e).1). rewrite on_world_run. simpl. auto. Qed.
Lemma emits_call {A} (m : M E A) (ev : res A -> list Ev) s (Q : Post A) :
  (forall e, trace (m e).2 = trace e ++ ev (m e).1) -> (forall r, Q (ev r) r s) -> emits (on_world m) s Q.
Proof. intros Hm HQ. by apply (emits_world m ev). Qed.
Lemma emits_event {A} (m : M E A) (ev : res A -> Ev) s (Q : Post A) :
  (forall e, trace (m e).2 = trace e ++ [ev (m e).1]) -> (forall e, Q [ev (m e).1] (m e).1 s) -> emits (on_world m) s Q.
Proof. apply (emits_world m (fun r => [ev r])). Qed.
Lemma emits_silent {A} (m : M E A) s (Q : Post A) : (forall e, trace (m e).2 = trace e) -> (forall e, Q [] (m e).1 s) -> emits (on_world m) s Q.
Proof. intros Hm. apply (emits_world m (fun _ => [])). intros e. by rewrite app_nil_r. Qed.

(** ** Methods that record nothing *)

(** [m] records nothing, and when it returns, [R] holds of the attributes before
    and after. *)
Definition still {A} (R : L -> L -> Prop) (m : Mt A) : Prop :=
  forall s, emits m s (fun t r s' => t = [] /\ match r with Ok _ => R s s' | Raise _ => True end).

Lemma emits_kept {A B} (R : L -> L -> Prop) (m : Mt A) (k : A -> Mt B) s (Q : Post B) :
  still R m -> (forall x s', Q [] (Raise x) s') -> (forall x s', R s s' -> emits (k x) s' Q) -> emits (bind m k) s Q.
Proof.
  intros Hm Hx Hk. apply emits_bind. eapply emits_mono; [apply Hm|]. intros t r s' [-> Hr]. destruct r; [by apply Hk|apply Hx].
Qed.

Lemma still_then {A B} (R R' : L -> L -> Prop) (m : Mt A) (k : A -> Mt B) :
  (forall s1 s2 s3, R s1 s2 -> R' s2 s3 -> R' s1 s3) -> still R m -> (forall x, still R' (k x)) -> still R' (bind m k).
Proof.
  intros HR Hm Hk s. apply emits_bind. eapply emits_mono; [apply Hm|]. intros t r s' [-> Hr]. destruct r as [x|x]; [|done].
  eapply emits_mono; [apply Hk|]. intros t' r' s'' [-> Hr']. split; [done|]. destruct r'; [by eapply HR|done].
Qed.

Lemma still_object (R : L -> L -> Prop) f : (forall s, R s (f s)) -> still R (on_object f).
Proof. intros Hf s. by apply emits_object. Qed.
Lemma still_raise {A} R x : still R (raise (A := A) x).
Proof. intros s. by apply emits_raise. Qed.

Context (R : L -> L -> Prop) `{!PreOrder R}.

Lemma still_bind {A B} (m : Mt A) (k : A -> Mt B) : still R m -> (forall x, still R (k x)) -> still R (bind m k).
Proof. apply still_then. intros s1 s2 s3. apply transitivity. Qed.
Lemma still_ret {A} (x : A) : still R (ret x).
Proof. intros s. apply emits_ret. by split. Qed.
Lemma still_lift {A} (r : res A) : still R (lift r).
Proof. intros s. apply emits_lift. split; [done|by destruct r]. Qed.
Lemma still_gets {A} (f : L * E -> A) : still R (gets f).
Proof. intros s. apply emits_gets. by split. Qed.
Lemma still_world {A} (m : M E A) : (forall e, trace (m e).2 = trace e) -> still R (on_world m).
Proof. intros Hm s. apply emits_silent; [done|]. intros e. split; [done|by destruct (m e).1]. Qed.
End Emits.
Arguments emits {L E Ev} trace {A} m s Q.
Arguments still {L E Ev} trace {A} R m.

(** Decomposes a method that records nothing into its calls. *)
Ltac still_goal := lazymatch goal with |- PreOrder _ => typeclasses eauto | |- forall _, _ => intros | _ => idtac end.
Ltac still_step :=
  first [ apply still_ret; still_goal | apply still_raise | apply still_lift; still_goal | apply still_gets; still_goal
        | apply still_bind; still_goal
        | match goal with |- still _ _ (if ?b then _ else _) => destruct b end
        | match goal with |- still _ _ (match ?o with Some _ => _ | None => _ end) => destruct o end ].
