(* ===== verification/Wp.v ===== *)
(** * Weakest preconditions

    [wp m Q s]: whatever the run of [m] from [s] gives, a result or an
    exception, satisfies [Q] together with the state it leaves. The components
    that work on a store outside the process (the queue broker on Redis, the
    evidence store on the file system) are specified one call at a time by
    [wp] lemmas, and the methods made of those calls by the rules below. *)
From S2P Require Import Prelude.

Section Wp.
Context {S : Type}.
Implicit Types s : S.

Definition wp {A} (m : M S A) (Q : res A -> S -> Prop) (s : S) : Prop := Q (m s).1 (m s).2.

Lemma wp_run {A} (m : M S A) Q s r s' : wp m Q s -> m s = (r, s') -> Q r s'.
Proof. unfold wp. by intros H E; rewrite E in H. Qed.

Lemma wp_mono {A} (m : M S A) (Q Q' : res A -> S -> Prop) s : wp m Q s -> (forall r s', Q r s' -> Q' r s') -> wp m Q' s.
Proof. unfold wp. eauto. Qed.

Lemma wp_ret {A} (a : A) Q s : Q (Ok a) s -> wp (ret a) Q s.
Proof. done. Qed.
Lemma wp_raise {A} e (Q : res A -> S -> Prop) s : Q (Raise e) s -> wp (raise e) Q s.
Proof. done. Qed.
Lemma wp_lift {A} (r : res A) Q s : Q r s -> wp (lift r) Q s.
Proof. done. Qed.
Lemma wp_gets {A} (f : S -> A) Q s : Q (Ok (f s)) s -> wp (gets f) Q s.
Proof. done. Qed.
Lemma wp_modify f Q s : Q (Ok tt) (f s) -> wp (modify f) Q s.
Proof. done. Qed.

Lemma wp_bind {A B} (m : M S A) (k : A -> M S B) (Q : res B -> S -> Prop) s :
  wp m (fun r s' => match r with Ok a => wp (k a) Q s' | Raise e => Q (Raise e) s' end) s -> wp (bind m k) Q s.
Proof. unfold wp, bind. by destruct (m s) as [[a|e] s']. Qed.

Lemma wp_attempt {A} (m : M S A) (Q : res (res A) -> S -> Prop) s : wp m (fun r s' => Q (Ok r) s') s -> wp (attempt m) Q s.
Proof. unfold wp, attempt. by destruct (m s) as [r s']. Qed.
End Wp.

(** [wp_step] applies the rule of the construct at the head of the method. *)
Ltac wp_step :=
  match goal with
  | |- wp (bind _ _) _ _ => apply wp_bind
  | |- wp (ret _) _ _ => apply wp_ret
  | |- wp (raise _) _ _ => apply wp_raise
  | |- wp (lift _) _ _ => apply wp_lift
  | |- wp (gets _) _ _ => apply wp_gets
  | |- wp (modify _) _ _ => apply wp_modify
  | |- wp (attempt _) _ _ => apply wp_attempt
  | |- wp (match ?x with _ => _ end) _ _ => destruct x eqn:?
  end.
