(* ===== verification/RedisClient.v ===== *)
(** * The Redis client

    The commands [adapters/queue_brokers/redis.py] sends, as an interface: the
    [redis] package and the server are not part of the repository. [RedisClient]
    declares the commands, [RedisLaws] what the Redis documentation says of them
    on keys of the right type (an absent key counts as an empty list or as the
    number 0), in terms of the keys and values on the server, [redis_view].
    [Keyspace] is a server that keeps the laws. *)
From S2P Require Import Prelude PyStr Wp.

(** What a key holds: a string value, a list, or a string that [INCR] counts in. *)
Inductive RedisValue (V : Type) :=
  | RString (v : V)
  | RList (l : list V)
  | RCount (n : Z).
Arguments RString {V} v.
Arguments RList {V} l.
Arguments RCount {V} n.

Abbreviation keyspace V := (gmap string (RedisValue V)).

(** [V] is what the client returns for a stored value, [r_text] the value of a
    [str] and [r_str] Python's [str] on what is returned. *)
Class RedisClient (V R : Type) := {
  r_text : string -> V;
  r_str : V -> string;
  r_set : string -> V -> M R unit;
  (** [bool(set(key, value, nx=True))] *)
  r_set_nx : string -> V -> M R bool;
  r_get : string -> M R (option V);
  r_rpush : string -> V -> M R Z;
  r_lpop : string -> M R (option V);
  r_llen : string -> M R Z;
  r_incr : string -> M R Z;
  (** [scan_iter(match=prefix + "*")], for a prefix without glob characters. *)
  r_scan_prefix : string -> M R (list string);
  r_delete : list string -> M R unit;
  redis_view : R -> keyspace V }.

Section Values.
Context {V : Type}.
Implicit Types m : keyspace V.

(** The list a key holds, when it does not hold another type, and the other way
    round: Redis removes a list when its last element goes. *)
Definition as_list (o : option (RedisValue V)) : option (list V) :=
  match o with None => Some [] | Some (RList l) => Some l | Some _ => None end.
Definition of_list (l : list V) : option (RedisValue V) := if l is [] then None else Some (RList l).
Definition as_count (o : option (RedisValue V)) : option Z :=
  match o with None => Some 0%Z | Some (RCount n) => Some n | Some _ => None end.

Definition list_at m k : option (list V) := as_list (m !! k).
Definition count_at m k : option Z := as_count (m !! k).
Definition put_list m k (l : list V) : keyspace V := if l is [] then delete k m else <[k := RList l]> m.

Lemma as_of_list l : as_list (of_list l) = Some l.
Proof. by destruct l. Qed.
Lemma put_list_lookup m k k' l : put_list m k l !! k' = if decide (k' = k) then of_list l else m !! k'.
Proof.
  unfold put_list. destruct (decide (k' = k)) as [->|Hk].
  - destruct l; [by rewrite lookup_delete_eq|by rewrite lookup_insert_eq].
  - destruct l; [by rewrite lookup_delete_ne|by rewrite lookup_insert_ne].
Qed.
End Values.

Class RedisLaws (V R : Type) `{RedisClient V R} := {
  text_str : forall x, r_str (r_text x) = x;
  set_law : forall k v s, exists s', r_set k v s = (Ok tt, s') /\ redis_view s' = <[k := RString v]> (redis_view s);
  set_nx_law : forall k v s, exists s', r_set_nx k v s = (Ok (bool_decide (redis_view s !! k = None)), s') /\
    redis_view s' = match redis_view s !! k with None => <[k := RString v]> (redis_view s) | Some _ => redis_view s end;
  get_law : forall k s o, (redis_view s !! k = None /\ o = None \/ exists v, redis_view s !! k = Some (RString v) /\ o = Some v) ->
    exists s', r_get k s = (Ok o, s') /\ redis_view s' = redis_view s;
  rpush_law : forall k v s l, list_at (redis_view s) k = Some l ->
    exists s', r_rpush k v s = (Ok (Z.of_nat (length (l ++ [v]))), s') /\ redis_view s' = put_list (redis_view s) k (l ++ [v]);
  lpop_law : forall k s l, list_at (redis_view s) k = Some l ->
    exists s', r_lpop k s = (Ok (head l), s') /\ redis_view s' = put_list (redis_view s) k (tail l);
  llen_law : forall k s l, list_at (redis_view s) k = Some l ->
    exists s', r_llen k s = (Ok (Z.of_nat (length l)), s') /\ redis_view s' = redis_view s;
  incr_law : forall k s n, count_at (redis_view s) k = Some n ->
    exists s', r_incr k s = (Ok (n + 1)%Z, s') /\ redis_view s' = <[k := RCount (n + 1)%Z]> (redis_view s);
  scan_law : forall p s, exists ks s', r_scan_prefix p s = (Ok ks, s') /\ redis_view s' = redis_view s /\
    forall k, k ∈ ks <-> is_Some (redis_view s !! k) /\ startswith p k = true;
  delete_law : forall ks s, exists s', r_delete ks s = (Ok tt, s') /\
    forall k, redis_view s' !! k = if decide (k ∈ ks) then None else redis_view s !! k }.

(** ** The laws as weakest preconditions *)

Section Rules.
Context {V R : Type} `{RL : RedisLaws V R}.
Implicit Types (s : R) (k : string).

Lemma wp_set k v Q s : (forall s', redis_view s' = <[k := RString v]> (redis_view s) -> Q (Ok tt) s') -> wp (r_set k v) Q s.
Proof. intros HQ. destruct (set_law k v s) as (s' & E & Hv). unfold wp. rewrite E. by apply HQ. Qed.

Lemma wp_set_nx k v Q s :
  (forall s', redis_view s !! k = None -> redis_view s' = <[k := RString v]> (redis_view s) -> Q (Ok true) s') ->
  (forall s', is_Some (redis_view s !! k) -> redis_view s' = redis_view s -> Q (Ok false) s') -> wp (r_set_nx k v) Q s.
Proof.
  intros Hnew Hold. destruct (set_nx_law k v s) as (s' & E & Hv). unfold wp. rewrite E. simpl.
  destruct (redis_view s !! k) as [x|] eqn:Hk; [rewrite bool_decide_eq_false_2 by done; by apply Hold|].
  rewrite bool_decide_eq_true_2 by done. by apply Hnew.
Qed.

Lemma wp_get_some k v Q s : redis_view s !! k = Some (RString v) ->
  (forall s', redis_view s' = redis_view s -> Q (Ok (Some v)) s') -> wp (r_get k) Q s.
Proof. intros Hk HQ. destruct (get_law k s (Some v)) as (s' & E & Hv); [eauto|]. unfold wp. rewrite E. by apply HQ. Qed.

Lemma wp_get_none k Q s : redis_view s !! k = None ->
  (forall s', redis_view s' = redis_view s -> Q (Ok None) s') -> wp (r_get k) Q s.
Proof. intros Hk HQ. destruct (get_law k s None) as (s' & E & Hv); [eauto|]. unfold wp. rewrite E. by apply HQ. Qed.

Lemma wp_rpush k v l Q s : list_at (redis_view s) k = Some l ->
  (forall n s', redis_view s' = put_list (redis_view s) k (l ++ [v]) -> Q (Ok n) s') -> wp (r_rpush k v) Q s.
Proof. intros Hk HQ. destruct (rpush_law k v s l Hk) as (s' & E & Hv). unfold wp. rewrite E. by apply HQ. Qed.

Lemma wp_lpop k l Q s : list_at (redis_view s) k = Some l ->
  (forall s', redis_view s' = put_list (redis_view s) k (tail l) -> Q (Ok (head l)) s') -> wp (r_lpop k) Q s.
Proof. intros Hk HQ. destruct (lpop_law k s l Hk) as (s' & E & Hv). unfold wp. rewrite E. by apply HQ. Qed.

Lemma wp_llen k l Q s : list_at (redis_view s) k = Some l ->
  (forall s', redis_view s' = redis_view s -> Q (Ok (Z.of_nat (length l))) s') -> wp (r_llen k) Q s.
Proof. intros Hk HQ. destruct (llen_law k s l Hk) as (s' & E & Hv). unfold wp. rewrite E. by apply HQ. Qed.

Lemma wp_incr k n Q s : count_at (redis_view s) k = Some n ->
  (forall s', redis_view s' = <[k := RCount (n + 1)%Z]> (redis_view s) -> Q (Ok (n + 1)%Z) s') -> wp (r_incr k) Q s.
Proof. intros Hk HQ. destruct (incr_law k s n Hk) as (s' & E & Hv). unfold wp. rewrite E. by apply HQ. Qed.
End Rules.

(** ** A server *)

Module Keyspace.
Section Keyspace.
Context {V : Type} (text : string -> V) (str : V -> string).

(** Redis answers a command on a key of another type with an error. *)
Definition wrong_type {A} : M (keyspace V) A := raise (ForeignError "redis.exceptions.ResponseError").

Definition on_list {A} (k : string) (f : list V -> M (keyspace V) A) : M (keyspace V) A :=
  let* m := gets id in if list_at m k is Some l then f l else wrong_type.

#[global] Instance server : RedisClient V (keyspace V) :=
  {| r_text := text; r_str := str;
     r_set k v := modify <[k := RString v]>;
     r_set_nx k v := let* m := gets id in
       match m !! k with None => do* modify <[k := RString v]> in ret true | Some _ => ret false end;
     r_get k := let* m := gets id in
       match m !! k with None => ret None | Some (RString v) => ret (Some v) | Some _ => wrong_type end;
     r_rpush k v := on_list k (fun l =>
       do* modify (fun m => put_list m k (l ++ [v])) in ret (Z.of_nat (length (l ++ [v]))));
     r_lpop k := on_list k (fun l => do* modify (fun m => put_list m k (tail l)) in ret (head l));
     r_llen k := on_list k (fun l => ret (Z.of_nat (length l)));
     r_incr k := let* m := gets id in
       if count_at m k is Some n then do* modify <[k := RCount (n + 1)%Z]> in ret (n + 1)%Z else wrong_type;
     r_scan_prefix p := gets (fun m => filter (fun k => startswith p k = true) (map_to_list m).*1);
     r_delete ks := modify (fun m => foldr delete m ks);
     redis_view := id |}.

Lemma foldr_delete_lookup (m : keyspace V) ks k : foldr delete m ks !! k = if decide (k ∈ ks) then None else m !! k.
Proof.
  induction ks as [|k0 ks IH]; cbn [foldr]; [by rewrite decide_False by apply not_elem_of_nil|].
  destruct (decide (k = k0)) as [->|Hk]; [rewrite lookup_delete_eq; by rewrite decide_True by left|].
  rewrite lookup_delete_ne, IH by done. destruct (decide (k ∈ ks)) as [Hin|Hout]; [by rewrite decide_True by (by right)|].
  rewrite decide_False; [done|]. by intros [?|?]%elem_of_cons.
Qed.

Lemma on_list_eq {A} k (f : list V -> M (keyspace V) A) s l : list_at s k = Some l -> on_list k f s = f l s.
Proof. intros E. unfold on_list, bind, gets, id. by rewrite E. Qed.

Lemma server_laws : (forall x, str (text x) = x) -> RedisLaws V (keyspace V).
Proof.
  intros Htext. split; simpl; [done| | | | | | | | |].
  - intros k v s. by eexists.
  - intros k v s. unfold bind, gets, id. destruct (s !! k); by eexists.
  - intros k s o [[E ->]|(v & E & ->)]; unfold bind, gets, id; rewrite E; by eexists.
  - intros k v s l E. rewrite (on_list_eq _ _ _ l) by done. by eexists.
  - intros k s l E. rewrite (on_list_eq _ _ _ l) by done. by eexists.
  - intros k s l E. rewrite (on_list_eq _ _ _ l) by done. by eexists.
  - intros k s n E. unfold bind, gets, id. rewrite E. by eexists.
  - intros p s. do 2 eexists. split; [done|]. split; [done|]. intros k. rewrite list_elem_of_filter, list_elem_of_fmap. split.
    + intros [Hp ([k' v] & -> & Hin%elem_of_map_to_list)]. by simpl; rewrite Hin.
    + intros [[v Hk] Hp]. split; [done|]. exists (k, v). split; [done|]. by apply elem_of_map_to_list.
  - intros ks s. eexists. split; [done|]. apply foldr_delete_lookup.
Qed.
End Keyspace.
End Keyspace.
