(* ===== verification/QueueBroker.v ===== *)
(** * The Redis queue broker

    [adapters/queue_brokers/redis.py] over a [RedisClient], with the operation
    record of [contracts/scale.py] it files. The methods are those of
    [RedisQueueBrokerAdapter]; its attributes are the namespace and the client,
    the section's parameters. The clock readings of a call are [now 0], [now 1],
    in the order of the code, and its uuids [hex 0], [hex 1]. What the broker
    keeps is in [BrokerLaws]. *)
From stdpp Require Import strings.
From S2P Require Import Prelude PyDict PyStr PyTime Contracts PersistModels Persistence Wp RedisClient.
Local Open Scope Z_scope.

(** ** Contracts *)

Inductive QueueBrokerAdapterKind := QB_REDIS | QB_REDIS_CONTRACT | QB_EXTERNAL_BROKER.
Inductive QueueBrokerCapability :=
  | QC_ENQUEUE | QC_LEASE | QC_HEARTBEAT | QC_ACK | QC_NACK | QC_DEAD_LETTER | QC_FENCING_TOKEN | QC_VISIBILITY_TIMEOUT
  | QC_IDEMPOTENCY | QC_FAIRNESS | QC_BACKPRESSURE.
Inductive QueueBrokerOperation := BO_ENQUEUE | BO_DUPLICATE_ENQUEUE | BO_LEASE | BO_HEARTBEAT | BO_ACK | BO_NACK | BO_DEAD_LETTER.
#[export] Instance QueueBrokerAdapterKind_eq_dec : EqDecision QueueBrokerAdapterKind.
Proof. solve_decision. Defined.
#[export] Instance QueueBrokerCapability_eq_dec : EqDecision QueueBrokerCapability.
Proof. solve_decision. Defined.
#[export] Instance QueueBrokerOperation_eq_dec : EqDecision QueueBrokerOperation.
Proof. solve_decision. Defined.
#[export] Instance ScaleQueueName_eq_dec : EqDecision ScaleQueueName.
Proof. solve_decision. Defined.

Definition QueueBrokerOperation_value (o : QueueBrokerOperation) : string :=
  match o with
  | BO_ENQUEUE => "enqueue" | BO_DUPLICATE_ENQUEUE => "duplicate_enqueue" | BO_LEASE => "lease"
  | BO_HEARTBEAT => "heartbeat" | BO_ACK => "ack" | BO_NACK => "nack" | BO_DEAD_LETTER => "dead_letter"
  end.
Definition ScaleQueueName_value (q : ScaleQueueName) : string :=
  match q with
  | SQ_FRONTIER => "frontier" | SQ_PROCESSING => "processing" | SQ_VERIFICATION_REVIEW => "verification_review"
  | SQ_EXPORT_OUTBOX => "export_outbox" | SQ_PROJECTION => "projection" | SQ_RECOVERY => "recovery"
  end.
(** [list(ScaleQueueName)] and [list(QueueBrokerCapability)] *)
Definition ScaleQueueName_list : list ScaleQueueName :=
  [SQ_FRONTIER; SQ_PROCESSING; SQ_VERIFICATION_REVIEW; SQ_EXPORT_OUTBOX; SQ_PROJECTION; SQ_RECOVERY].
Definition QueueBrokerCapability_list : list QueueBrokerCapability :=
  [QC_ENQUEUE; QC_LEASE; QC_HEARTBEAT; QC_ACK; QC_NACK; QC_DEAD_LETTER; QC_FENCING_TOKEN; QC_VISIBILITY_TIMEOUT;
   QC_IDEMPOTENCY; QC_FAIRNESS; QC_BACKPRESSURE].

Record QueueBrokerOperationRecord := {
  bo_id : string;
  bo_adapter_ref : Ref;
  bo_queue_name : ScaleQueueName;
  bo_operation : QueueBrokerOperation;
  bo_queue_item_ref : Ref;
  bo_lease_ref : option Ref;
  bo_fencing_token_ref : option Ref;
  bo_visibility_timeout_ref : option Ref;
  bo_heartbeat_ref : option Ref;
  bo_retry_ref : option Ref;
  bo_failure_record_refs : list Ref;
  bo_recovery_action_refs : list Ref;
  bo_dead_letter_ref : option Ref;
  bo_duplicate_of_ref : option Ref;
  bo_fairness_scope_refs : list Ref;
  bo_backpressure_signal_refs : list Ref;
  bo_policy_decision_refs : list Ref;
  bo_created_at : Z }.

(** [operation in {LEASE, HEARTBEAT, ACK, NACK, DEAD_LETTER}] *)
Definition leased_operation (o : QueueBrokerOperation) : bool :=
  match o with BO_ENQUEUE | BO_DUPLICATE_ENQUEUE => false | _ => true end.

Definition validate_broker_operation (o : QueueBrokerOperationRecord) : res QueueBrokerOperationRecord :=
  let op := bo_operation o in
  do? guard (negb (leased_operation op)
             || (truthy_opt (bo_lease_ref o) && truthy_opt (bo_fencing_token_ref o) && truthy_opt (bo_visibility_timeout_ref o)))
        (ValidationError "leased broker operation requires lease, fencing, and visibility refs") in
  do? guard (negb (bool_decide (op = BO_HEARTBEAT)) || truthy_opt (bo_heartbeat_ref o))
        (ValidationError "broker heartbeat operation requires heartbeat ref") in
  do? guard (negb (bool_decide (op = BO_NACK))
             || (truthy_list (bo_failure_record_refs o) && truthy_list (bo_recovery_action_refs o) && truthy_opt (bo_retry_ref o)))
        (ValidationError "broker nack operation requires failure, recovery, and retry refs") in
  do? guard (negb (bool_decide (op = BO_DEAD_LETTER))
             || (truthy_opt (bo_dead_letter_ref o) && truthy_list (bo_failure_record_refs o) && truthy_list (bo_recovery_action_refs o)))
        (ValidationError "broker dead-letter operation requires dead-letter and recovery refs") in
  do? guard (negb (bool_decide (op = BO_DUPLICATE_ENQUEUE)) || truthy_opt (bo_duplicate_of_ref o))
        (ValidationError "broker duplicate enqueue requires duplicate_of_ref") in
  do? guard (truthy_list (bo_fairness_scope_refs o) && truthy_list (bo_backpressure_signal_refs o) && truthy_list (bo_policy_decision_refs o))
        (ValidationError "broker operation requires fairness, backpressure, and policy refs") in
  Ok o.

Record QueueBrokerAdapterSpec := {
  qa_id : string;
  qa_adapter_kind : QueueBrokerAdapterKind;
  qa_queue_names : list ScaleQueueName;
  qa_capability_refs : list QueueBrokerCapability;
  qa_visibility_timeout_seconds : Z;
  qa_fencing_token_supported : bool;
  qa_idempotency_supported : bool;
  qa_fairness_scope_refs : list Ref;
  qa_backpressure_signal_refs : list Ref;
  qa_policy_decision_refs : list Ref;
  qa_created_at : Z }.

(** [set(xs) == set(list(Enum))] *)
Definition covers {A} `{EqDecision A} (all xs : list A) : bool := forallb (fun x => bool_decide (x ∈ xs)) all.

Definition validate_broker_adapter (a : QueueBrokerAdapterSpec) : res QueueBrokerAdapterSpec :=
  do? guard (covers ScaleQueueName_list (qa_queue_names a))
        (ValidationError "queue broker adapter must declare every target queue") in
  do? guard (covers QueueBrokerCapability_list (qa_capability_refs a))
        (ValidationError "queue broker adapter must declare every target capability") in
  do? guard (negb (qa_visibility_timeout_seconds a <? 1))
        (ValidationError "queue broker visibility timeout must be positive") in
  do? guard (qa_fencing_token_supported a && qa_idempotency_supported a)
        (ValidationError "queue broker adapter requires fencing tokens and idempotency") in
  do? guard (truthy_list (qa_fairness_scope_refs a) && truthy_list (qa_backpressure_signal_refs a) && truthy_list (qa_policy_decision_refs a))
        (ValidationError "queue broker adapter requires fairness, backpressure, and policy refs") in
  Ok a.

Definition redis_queue_broker_adapter_spec (fixture_id : string) (policy_refs fairness_refs backpressure_refs : list Ref) (created_at : Z)
    : res QueueBrokerAdapterSpec :=
  validate_broker_adapter
    {| qa_id := "queue-broker-adapter:" +:+ fixture_id +:+ ":redis"; qa_adapter_kind := QB_REDIS;
       qa_queue_names := ScaleQueueName_list; qa_capability_refs := QueueBrokerCapability_list;
       qa_visibility_timeout_seconds := 30; qa_fencing_token_supported := true; qa_idempotency_supported := true;
       qa_fairness_scope_refs := list_or fairness_refs ["fairness-scope:" +:+ fixture_id +:+ ":site"];
       qa_backpressure_signal_refs := list_or backpressure_refs ["backpressure-signal:" +:+ fixture_id +:+ ":lag"];
       qa_policy_decision_refs := policy_refs; qa_created_at := created_at |}.

(** [item.model_copy(update={...})]: the copy is not validated. *)
Definition qi_copy (i : QueueItem) (token : option string) (expires_at : option Z) (attempts : Z)
    (status : ScaleQueueItemStatus) (updated_at : Z) : QueueItem :=
  {| qi_id := qi_id i; qi_queue_name := qi_queue_name i; qi_shard_key := qi_shard_key i; qi_run_id := qi_run_id i;
     qi_aggregate_type := qi_aggregate_type i; qi_aggregate_id := qi_aggregate_id i; qi_command_ref := qi_command_ref i;
     qi_priority := qi_priority i; qi_retry_class := qi_retry_class i; qi_idempotency_key := qi_idempotency_key i;
     qi_expected_version_ref := qi_expected_version_ref i; qi_lease_token := token; qi_lease_expires_at := expires_at;
     qi_attempts := attempts; qi_deadline_at := qi_deadline_at i; qi_status := status; qi_updated_at := updated_at;
     qi_created_at := qi_created_at i |}.
Definition sl_copy (l : ShardLease) (heartbeat_at expires_at : Z) (policy_refs : list Ref) (status : ScaleShardLeaseStatus) : ShardLease :=
  {| sl_id := sl_id l; sl_queue_name := sl_queue_name l; sl_shard_key := sl_shard_key l; sl_worker_id := sl_worker_id l;
     sl_lease_token := sl_lease_token l; sl_acquired_at := sl_acquired_at l; sl_heartbeat_at := heartbeat_at;
     sl_expires_at := expires_at; sl_policy_decision_refs := policy_refs; sl_status := status; sl_created_at := sl_created_at l |}.

(** The keyword arguments every operation passes on to its record. *)
Record BrokerRefs := { br_adapter_ref : Ref; br_fairness : list Ref; br_backpressure : list Ref; br_policy : list Ref }.

(** The record [_record_operation] builds, under the number [count]. *)
Definition operation_record (queue_name : ScaleQueueName) (operation : QueueBrokerOperation) (queue_item_ref : Ref)
    (lease_ref fencing_token_ref visibility_timeout_ref heartbeat_ref retry_ref : option Ref)
    (failure_record_refs recovery_action_refs : list Ref) (dead_letter_ref duplicate_of_ref : option Ref)
    (refs : BrokerRefs) (created_at count : Z) : QueueBrokerOperationRecord :=
  {| bo_id := "queue-broker-operation:" +:+ queue_item_ref +:+ ":" +:+ QueueBrokerOperation_value operation +:+ ":" +:+ pretty count;
     bo_adapter_ref := br_adapter_ref refs; bo_queue_name := queue_name; bo_operation := operation;
     bo_queue_item_ref := queue_item_ref; bo_lease_ref := lease_ref; bo_fencing_token_ref := fencing_token_ref;
     bo_visibility_timeout_ref := visibility_timeout_ref; bo_heartbeat_ref := heartbeat_ref; bo_retry_ref := retry_ref;
     bo_failure_record_refs := failure_record_refs; bo_recovery_action_refs := recovery_action_refs;
     bo_dead_letter_ref := dead_letter_ref; bo_duplicate_of_ref := duplicate_of_ref;
     bo_fairness_scope_refs := br_fairness refs; bo_backpressure_signal_refs := br_backpressure refs;
     bo_policy_decision_refs := br_policy refs; bo_created_at := created_at |}.

(** [_NAMESPACE_PATTERN.match(namespace)]: [$] also matches before a final newline. *)
Definition namespace_char (c : Ascii.ascii) : bool :=
  let n := Ascii.nat_of_ascii c in
  ((65 <=? n) && (n <=? 90) || (97 <=? n) && (n <=? 122) || (48 <=? n) && (n <=? 57)
   || (n =? 95) || (n =? 46) || (n =? 58) || (n =? 45))%nat.
Fixpoint namespace_tail (s : string) : bool :=
  match s with
  | "" => true
  | String c s' => namespace_char c && namespace_tail s' || bool_decide (c = Ascii.ascii_of_nat 10) && bool_decide (s' = "")
  end.
Definition namespace_matches (s : string) : bool := if s is String c s' then namespace_char c && namespace_tail s' else false.

(** ** The adapter *)

Section Broker.
Context {V R : Type} `{RC : RedisClient V R}.
Context `{JItem : !JsonModel V validate_item} `{JLease : !JsonModel V validate_shard_lease}
        `{JDead : !JsonModel V validate_dead_letter} `{JRecord : !JsonModel V validate_broker_operation}.
Context (namespace : string).

(** [__init__] with a client: the namespace is checked. *)
Definition new_broker : res string :=
  do? guard (namespace_matches namespace) (ValueError ("unsafe Redis namespace: " +:+ namespace)) in Ok namespace.

(** *** Keys *)

Definition _queue_key (q : ScaleQueueName) : string := namespace +:+ ":queue:" +:+ ScaleQueueName_value q.
Definition _dead_letter_key (q : ScaleQueueName) : string := namespace +:+ ":dead-letter:" +:+ ScaleQueueName_value q.
Definition _idempotency_key (q : ScaleQueueName) (key : string) : string :=
  namespace +:+ ":idempotency:" +:+ ScaleQueueName_value q +:+ ":" +:+ key.
Definition _item_key (ref : Ref) : string := namespace +:+ ":item:" +:+ ref.
Definition _lease_key (ref : Ref) : string := namespace +:+ ":lease:" +:+ ref.
Definition _operation_key (ref : Ref) : string := namespace +:+ ":operation:" +:+ ref.
Definition _operations_key : string := namespace +:+ ":operations".
Definition _dead_letter_record_key (ref : Ref) : string := namespace +:+ ":dead-letter-record:" +:+ ref.

(** *** Models and counters *)

Definition _put_model {X} (validator : X -> res X) `{!JsonModel V validator} (key : string) (model : X) : M R unit :=
  r_set key (model_dump validator model).
Definition _get_model {X} (validator : X -> res X) `{!JsonModel V validator} (key : string) : M R (option X) :=
  let* raw := r_get key in
  match raw with
  | None => ret None
  | Some raw => let* model := lift (model_validate validator raw) in ret (Some model)
  end.
Definition _next_count (counter : string) : M R Z := r_incr (namespace +:+ ":counter:" +:+ counter).

Definition reset_namespace : M R unit :=
  let* keys := r_scan_prefix (namespace +:+ ":") in
  if truthy_list keys then r_delete keys else ret tt.

Definition _record_operation (queue_name : ScaleQueueName) (operation : QueueBrokerOperation) (queue_item_ref : Ref)
    (lease_ref fencing_token_ref visibility_timeout_ref heartbeat_ref retry_ref : option Ref)
    (failure_record_refs recovery_action_refs : list Ref) (dead_letter_ref duplicate_of_ref : option Ref)
    (refs : BrokerRefs) (created_at : Z) : M R QueueBrokerOperationRecord :=
  let* count := _next_count "operations" in
  let* record := lift (validate_broker_operation (operation_record queue_name operation queue_item_ref lease_ref fencing_token_ref
    visibility_timeout_ref heartbeat_ref retry_ref failure_record_refs recovery_action_refs dead_letter_ref duplicate_of_ref refs
    created_at count)) in
  do* _put_model validate_broker_operation (_operation_key (bo_id record)) record in
  do* r_rpush _operations_key (r_text (bo_id record)) in
  ret record.

(** *** Operations *)

Definition enqueue (item : QueueItem) (refs : BrokerRefs) (now : nat -> Z) : M R QueueBrokerOperationRecord :=
  let key := _idempotency_key (qi_queue_name item) (qi_idempotency_key item) in
  let* created := r_set_nx key (r_text (qi_id item)) in
  if negb created then
    let* duplicate_of := r_get key in
    let duplicate_of := if duplicate_of is Some v then r_str v else "None" in
    _record_operation (qi_queue_name item) BO_DUPLICATE_ENQUEUE (qi_id item) None None None None None [] [] None
      (Some duplicate_of) refs (now 0%nat)
  else
    do* _put_model validate_item (_item_key (qi_id item)) item in
    do* r_rpush (_queue_key (qi_queue_name item)) (r_text (qi_id item)) in
    _record_operation (qi_queue_name item) BO_ENQUEUE (qi_id item) None None None None None [] [] None None refs (now 0%nat).

Definition lease (queue_name : ScaleQueueName) (worker_id : string) (visibility_timeout_seconds : Z) (refs : BrokerRefs)
    (now : nat -> Z) (hex : nat -> string) : M R (QueueItem * ShardLease * QueueBrokerOperationRecord) :=
  let* item_ref := r_lpop (_queue_key queue_name) in
  match item_ref with
  | None => raise (ValueError ("queue " +:+ ScaleQueueName_value queue_name +:+ " is empty"))
  | Some item_ref =>
      let* item := _get_model validate_item (_item_key (r_str item_ref)) in
      match item with
      | None => raise (ValueError ("queued item " +:+ r_str item_ref +:+ " is missing"))
      | Some item =>
          let* expires_at := lift (datetime_add (now 0%nat) (visibility_timeout_seconds * 1000000)) in
          let token := "fencing-token:" +:+ qi_id item +:+ ":" +:+ hex 0%nat in
          let leased_item := qi_copy item (Some token) (Some expires_at) (qi_attempts item + 1) QI_LEASED (now 0%nat) in
          let* lease := lift (validate_shard_lease
            {| sl_id := "queue-broker-lease:" +:+ qi_id item +:+ ":" +:+ hex 1%nat; sl_queue_name := queue_name;
               sl_shard_key := qi_shard_key item; sl_worker_id := worker_id; sl_lease_token := token;
               sl_acquired_at := now 0%nat; sl_heartbeat_at := now 0%nat; sl_expires_at := expires_at;
               sl_policy_decision_refs := br_policy refs; sl_status := SL_ACTIVE; sl_created_at := now 1%nat |}) in
          do* _put_model validate_item (_item_key (qi_id leased_item)) leased_item in
          do* _put_model validate_shard_lease (_lease_key (sl_id lease)) lease in
          let* operation := _record_operation queue_name BO_LEASE (qi_id leased_item) (Some (sl_id lease)) (Some token)
            (Some ("visibility-timeout:" +:+ sl_id lease +:+ ":" +:+ pretty visibility_timeout_seconds)) None None [] [] None None
            refs (now 2%nat) in
          ret (leased_item, lease, operation)
      end
  end.

Definition _validate_lease (lease : ShardLease) : M R ShardLease :=
  let* current := _get_model validate_shard_lease (_lease_key (sl_id lease)) in
  match current with
  | Some current =>
      if bool_decide (sl_lease_token current = sl_lease_token lease) then ret current
      else raise (ValueError ("invalid queue broker lease token for " +:+ sl_id lease))
  | None => raise (ValueError ("invalid queue broker lease token for " +:+ sl_id lease))
  end.

(** [item is None or item.lease_token != current_lease.lease_token] *)
Definition _held_item (what : string) (item_ref : Ref) (current_lease : ShardLease) : M R QueueItem :=
  let* item := _get_model validate_item (_item_key item_ref) in
  match item with
  | Some item =>
      if bool_decide (qi_lease_token item = Some (sl_lease_token current_lease)) then ret item
      else raise (ValueError ("invalid queue broker " +:+ what +:+ " refs for " +:+ item_ref))
  | None => raise (ValueError ("invalid queue broker " +:+ what +:+ " refs for " +:+ item_ref))
  end.

(** [current_lease.model_copy(update={"status": RELEASED})], stored. *)
Definition _release (current_lease : ShardLease) : M R unit :=
  _put_model validate_shard_lease (_lease_key (sl_id current_lease))
    (sl_copy current_lease (sl_heartbeat_at current_lease) (sl_expires_at current_lease) (sl_policy_decision_refs current_lease) SL_RELEASED).

Definition heartbeat (item_ref : Ref) (lease : ShardLease) (visibility_timeout_seconds : Z) (refs : BrokerRefs) (now : nat -> Z)
    : M R QueueBrokerOperationRecord :=
  let* current := _validate_lease lease in
  let* expires_at := lift (datetime_add (now 0%nat) (visibility_timeout_seconds * 1000000)) in
  let updated := sl_copy current (now 0%nat) expires_at (br_policy refs) (sl_status current) in
  do* _put_model validate_shard_lease (_lease_key (sl_id updated)) updated in
  let* count := _next_count "heartbeat" in
  _record_operation (sl_queue_name updated) BO_HEARTBEAT item_ref (Some (sl_id updated)) (Some (sl_lease_token updated))
    (Some ("visibility-timeout:" +:+ sl_id updated +:+ ":" +:+ pretty visibility_timeout_seconds))
    (Some ("queue-broker-heartbeat:" +:+ sl_id updated +:+ ":" +:+ pretty count)) None [] [] None None refs (now 1%nat).

Definition ack (item_ref : Ref) (lease : ShardLease) (refs : BrokerRefs) (now : nat -> Z) : M R QueueBrokerOperationRecord :=
  let* current_lease := _validate_lease lease in
  let* item := _held_item "ack" item_ref current_lease in
  do* _put_model validate_item (_item_key (qi_id item))
        (qi_copy item (qi_lease_token item) (qi_lease_expires_at item) (qi_attempts item) QI_ACKED (qi_updated_at item)) in
  do* _release current_lease in
  _record_operation (qi_queue_name item) BO_ACK (qi_id item) (Some (sl_id current_lease)) (Some (sl_lease_token current_lease))
    (Some ("visibility-timeout:" +:+ sl_id current_lease +:+ ":ack")) None None [] [] None None refs (now 0%nat).

Definition nack (item_ref : Ref) (lease : ShardLease) (failure_refs recovery_refs : list Ref) (retry_ref : Ref)
    (refs : BrokerRefs) (now : nat -> Z) : M R QueueBrokerOperationRecord :=
  let* current_lease := _validate_lease lease in
  let* item := _held_item "nack" item_ref current_lease in
  let requeued := qi_copy item None None (qi_attempts item) QI_QUEUED (now 0%nat) in
  do* _put_model validate_item (_item_key (qi_id requeued)) requeued in
  do* _release current_lease in
  do* r_rpush (_queue_key (qi_queue_name item)) (r_text (qi_id requeued)) in
  _record_operation (qi_queue_name item) BO_NACK (qi_id item) (Some (sl_id current_lease)) (Some (sl_lease_token current_lease))
    (Some ("visibility-timeout:" +:+ sl_id current_lease +:+ ":nack")) None (Some retry_ref) failure_refs recovery_refs None None
    refs (now 1%nat).

Definition dead_letter (item_ref : Ref) (lease : ShardLease) (dead_letter : RetryDeadLetterRecord) (refs : BrokerRefs)
    (now : nat -> Z) : M R QueueBrokerOperationRecord :=
  let* current_lease := _validate_lease lease in
  let* item := _held_item "dead-letter" item_ref current_lease in
  let updated_item := qi_copy item (qi_lease_token item) (qi_lease_expires_at item)
    (Z.max (qi_attempts item) (rd_attempts dead_letter)) QI_DEAD_LETTERED (now 0%nat) in
  do* _put_model validate_item (_item_key (qi_id updated_item)) updated_item in
  do* _put_model validate_dead_letter (_dead_letter_record_key (rd_id dead_letter)) dead_letter in
  do* _release current_lease in
  do* r_rpush (_dead_letter_key (qi_queue_name item)) (r_text (rd_id dead_letter)) in
  _record_operation (qi_queue_name item) BO_DEAD_LETTER (qi_id item) (Some (sl_id current_lease)) (Some (sl_lease_token current_lease))
    (Some ("visibility-timeout:" +:+ sl_id current_lease +:+ ":dead-letter")) None None [rd_failure_record_id dead_letter]
    (rd_recovery_action_refs dead_letter) (Some (rd_id dead_letter)) None refs (now 1%nat).

Definition queued_count (queue_name : ScaleQueueName) : M R Z := r_llen (_queue_key queue_name).
Definition dead_letter_count (queue_name : ScaleQueueName) : M R Z := r_llen (_dead_letter_key queue_name).
End Broker.

(** ** A server of JSON documents, for examples *)

Module RedisDemo.
Inductive stored :=
  | SText (s : string) | SItem (x : QueueItem) | SLease (x : ShardLease) | SDead (x : RetryDeadLetterRecord)
  | SOperation (x : QueueBrokerOperationRecord).
#[export] Instance item_json : JsonModel stored validate_item :=
  {| model_dump := SItem; model_validate d := if d is SItem x then validate_item x else Concrete.not_this; validate_dumped _ := eq_refl |}.
#[export] Instance lease_json : JsonModel stored validate_shard_lease :=
  {| model_dump := SLease; model_validate d := if d is SLease x then validate_shard_lease x else Concrete.not_this; validate_dumped _ := eq_refl |}.
#[export] Instance dead_json : JsonModel stored validate_dead_letter :=
  {| model_dump := SDead; model_validate d := if d is SDead x then validate_dead_letter x else Concrete.not_this; validate_dumped _ := eq_refl |}.
#[export] Instance operation_json : JsonModel stored validate_broker_operation :=
  {| model_dump := SOperation; model_validate d := if d is SOperation x then validate_broker_operation x else Concrete.not_this;
     validate_dumped _ := eq_refl |}.
Definition as_text (d : stored) : string := if d is SText s then s else "{}".
#[export] Instance client : RedisClient stored (keyspace stored) := Keyspace.server SText as_text.
#[export] Instance client_laws : RedisLaws stored (keyspace stored).
Proof. by apply Keyspace.server_laws. Qed.

Definition refs : BrokerRefs := {| br_adapter_ref := "adapter"; br_fairness := ["fair"]; br_backpressure := ["lag"]; br_policy := ["policy"] |}.
Definition clock (n : nat) : Z := Z.of_nat n.
Definition ids (call : string) (n : nat) : string := call +:+ pretty n.
Definition item (id key : string) : QueueItem :=
  {| qi_id := id; qi_queue_name := SQ_FRONTIER; qi_shard_key := "shard"; qi_run_id := "r"; qi_aggregate_type := "run";
     qi_aggregate_id := "r"; qi_command_ref := "command"; qi_priority := 0; qi_retry_class := RC_TRANSIENT;
     qi_idempotency_key := key; qi_expected_version_ref := "version"; qi_lease_token := None; qi_lease_expires_at := None;
     qi_attempts := 0; qi_deadline_at := 10; qi_status := QI_QUEUED; qi_updated_at := 0; qi_created_at := 0 |}.
End RedisDemo.
