(* ===== verification/BrokerLaws.v ===== *)
(** * What the queue broker keeps

    The keys of a namespace, one constructor of [bkey] per key function of
    [QueueBroker], never collide; a broker call is a run of elementary writes
    to them ([write]), each of which keeps [broker_inv] and the owner of a
    fenced item. Over any server that keeps [RedisLaws]. *)
From S2P Require Import Prelude PyDict PyStr PyTime Contracts PersistModels Persistence Wp RedisClient QueueBroker.
Local Open Scope Z_scope.

Inductive bkey :=
  | KQueue (q : ScaleQueueName) | KDead (q : ScaleQueueName) | KIdem (q : ScaleQueueName) (key : string) | KItem (ref : Ref)
  | KLease (ref : Ref) | KOp (ref : Ref) | KOps | KDeadRecord (ref : Ref) | KCount (counter : string).
#[export] Instance bkey_eq_dec : EqDecision bkey.
Proof. solve_decision. Defined.

Definition key (ns : string) (k : bkey) : string :=
  match k with
  | KQueue q => _queue_key ns q | KDead q => _dead_letter_key ns q | KIdem q x => _idempotency_key ns q x
  | KItem r => _item_key ns r | KLease r => _lease_key ns r | KOp r => _operation_key ns r
  | KOps => _operations_key ns | KDeadRecord r => _dead_letter_record_key ns r | KCount c => ns +:+ ":counter:" +:+ c
  end.

Lemma ScaleQueueName_value_inj q q' : ScaleQueueName_value q = ScaleQueueName_value q' -> q = q'.
Proof. by destruct q, q'. Qed.
Lemma ScaleQueueName_value_sep q q' k k' :
  ScaleQueueName_value q +:+ ":" +:+ k = ScaleQueueName_value q' +:+ ":" +:+ k' -> q = q' /\ k = k'.
Proof. destruct q, q'; cbn; intros [= ?]; by subst. Qed.

Lemma key_inj ns k k' : key ns k = key ns k' -> k = k'.
Proof.
  destruct k, k'; unfold key, _queue_key, _dead_letter_key, _idempotency_key, _item_key, _lease_key, _operation_key,
    _operations_key, _dead_letter_record_key; intros E%append_inj_l; try discriminate E; cbn in E; simplify_eq; try done.
  - f_equal. by apply ScaleQueueName_value_inj.
  - f_equal. by apply ScaleQueueName_value_inj.
  - match goal with H : _ = _ |- _ => by apply ScaleQueueName_value_sep in H as [-> ->] end.
Qed.

(** The validators return the model they are given. *)
Lemma validate_item_id i j : validate_item i = Ok j -> j = i.
Proof. unfold validate_item. intros H. by run_m H. Qed.
Lemma validate_shard_lease_id l l' : validate_shard_lease l = Ok l' -> l' = l.
Proof. unfold validate_shard_lease. intros H. by run_m H. Qed.
Lemma validate_broker_operation_id o o' : validate_broker_operation o = Ok o' -> o' = o.
Proof. unfold validate_broker_operation. intros H. by run_m H. Qed.

Section Laws.
Context {V R : Type} `{RL : RedisLaws V R}.
Context `{JItem : !JsonModel V validate_item} `{JLease : !JsonModel V validate_shard_lease}
        `{JDead : !JsonModel V validate_dead_letter} `{JRecord : !JsonModel V validate_broker_operation}.
(** A JSON text carries every field of the model. *)
Context `{HItem : !Inj (=) (=) (model_dump (Json := V) validate_item)} `{HLease : !Inj (=) (=) (model_dump (Json := V) validate_shard_lease)}.
Context (ns : string).
Implicit Types s : R.

(** ** Keys and their values *)

Definition at_ s (k : bkey) : option (RedisValue V) := redis_view s !! key ns k.
Definition upd s s' (k : bkey) (o : option (RedisValue V)) : Prop := forall k', at_ s' k' = if decide (k' = k) then o else at_ s k'.

Lemma upd_insert s s' k v : redis_view s' = <[key ns k := v]> (redis_view s) -> upd s s' k (Some v).
Proof.
  intros E k'. unfold at_. rewrite E. case_decide as Hk; [by rewrite Hk, lookup_insert_eq|].
  apply lookup_insert_ne. intros ?%key_inj. congruence.
Qed.
Lemma upd_put s s' k l : redis_view s' = put_list (redis_view s) (key ns k) l -> upd s s' k (of_list l).
Proof.
  intros E k'. unfold at_. rewrite E, put_list_lookup. case_decide as Hk; case_decide as Hk'; try done.
  - by apply key_inj in Hk.
  - by subst.
Qed.
Lemma same_view s s' k : redis_view s' = redis_view s -> at_ s' k = at_ s k.
Proof. unfold at_. by intros ->. Qed.

(** The queue [q] holds the items [ids]; the records stored for an item and a lease. *)
Definition queued s q (ids : list Ref) : Prop := as_list (at_ s (KQueue q)) = Some (r_text <$> ids).
Definition item_is s (id : Ref) (i : QueueItem) : Prop := at_ s (KItem id) = Some (RString (model_dump validate_item i)).
Definition lease_is s (id : Ref) (l : ShardLease) : Prop := at_ s (KLease id) = Some (RString (model_dump validate_shard_lease l)).

Lemma text_inj : Inj (=) (=) r_text.
Proof. intros x y E. by rewrite <-(text_str x), E, text_str. Qed.
#[local] Existing Instance text_inj.

Lemma item_is_fun s id i i' : item_is s id i -> item_is s id i' -> i = i'.
Proof. unfold item_is. intros -> [= E]. by apply (inj _) in E. Qed.
Lemma lease_is_fun s id l l' : lease_is s id l -> lease_is s id l' -> l = l'.
Proof. unfold lease_is. intros -> [= E]. by apply (inj _) in E. Qed.
Lemma queued_fun s q ids ids' : queued s q ids -> queued s q ids' -> ids = ids'.
Proof. unfold queued. intros -> [= E]. by apply (inj _) in E. Qed.

(** ** The invariant *)

Definition waiting (q : ScaleQueueName) (id : Ref) (i : QueueItem) : Prop :=
  qi_id i = id /\ qi_queue_name i = q /\ qi_status i = QI_QUEUED /\ qi_lease_token i = None.
Definition unqueued s (id : Ref) : Prop := forall q ids, queued s q ids -> id ∉ ids.

Record broker_inv s : Prop := {
  inv_queue : forall q, exists ids, queued s q ids /\ NoDup ids /\ forall id, id ∈ ids -> exists i, item_is s id i /\ waiting q id i;
  inv_item : forall id x, at_ s (KItem id) = Some x -> exists i, x = RString (model_dump validate_item i) /\ qi_id i = id;
  inv_lease : forall id x, at_ s (KLease id) = Some x -> exists l, x = RString (model_dump validate_shard_lease l) /\ sl_id l = id;
  inv_idem : forall q k x, at_ s (KIdem q k) = Some x -> exists id, x = RString (r_text id);
  inv_dead : forall q, is_Some (as_list (at_ s (KDead q)));
  inv_ops : is_Some (as_list (at_ s KOps));
  inv_count : forall c, is_Some (as_count (at_ s (KCount c))) }.

Lemma empty_store_inv s : (forall k, at_ s k = None) -> broker_inv s.
Proof.
  intros Hno. split; intros; rewrite ?Hno; unfold queued; rewrite ?Hno; try done; try (by rewrite Hno in *).
  exists []. split; [done|]. split; [constructor|]. by intros id ?%elem_of_nil.
Qed.

Lemma new_server_inv s : redis_view s = ∅ -> broker_inv s.
Proof. intros E. apply empty_store_inv. intros k. unfold at_. by rewrite E. Qed.

Lemma queued_in_one s q q' ids ids' id : broker_inv s -> queued s q ids -> queued s q' ids' -> id ∈ ids -> id ∈ ids' -> q = q'.
Proof.
  intros Hinv Hq Hq' Hin Hin'.
  destruct (inv_queue _ Hinv q) as (l & Hl & _ & Hw), (inv_queue _ Hinv q') as (l' & Hl' & _ & Hw').
  rewrite <-(queued_fun _ _ _ _ Hq Hl) in Hw. rewrite <-(queued_fun _ _ _ _ Hq' Hl') in Hw'.
  destruct (Hw id Hin) as (i & Hi & _ & <- & _), (Hw' id Hin') as (i' & Hi' & _ & <- & _).
  by rewrite (item_is_fun _ _ _ _ Hi Hi').
Qed.

Lemma leased_unqueued s id i t : broker_inv s -> item_is s id i -> qi_lease_token i = Some t -> unqueued s id.
Proof.
  intros Hinv Hi Ht q ids Hq Hin. destruct (inv_queue _ Hinv q) as (l & Hl & _ & Hw).
  rewrite <-(queued_fun _ _ _ _ Hq Hl) in Hw. destruct (Hw id Hin) as (i' & Hi' & _ & _ & _ & Hn).
  rewrite (item_is_fun _ _ _ _ Hi Hi') in Ht. congruence.
Qed.

(** ** Elementary writes *)

Definition token_unused s (t : string) : Prop := forall id l, lease_is s id l -> sl_lease_token l <> t.
Definition holds s (id : Ref) (t : string) : Prop := exists i, item_is s id i /\ qi_lease_token i = Some t.
Definition known s (id : Ref) (t : string) : Prop := exists l, lease_is s id l /\ sl_lease_token l = t.

Definition log_ok (k : bkey) (o : option (RedisValue V)) : Prop :=
  match k with
  | KOps | KDead _ => is_Some (as_list o)
  | KCount _ => is_Some (as_count o)
  | KOp _ | KDeadRecord _ => True
  | _ => False
  end.

Inductive write s s' : Prop :=
  | WSame : (forall k, at_ s' k = at_ s k) -> write s s'
  | WItem id i : upd s s' (KItem id) (Some (RString (model_dump validate_item i))) -> qi_id i = id -> unqueued s id ->
      (forall t, qi_lease_token i = Some t -> token_unused s t \/ holds s id t) -> write s s'
  | WLease id l : upd s s' (KLease id) (Some (RString (model_dump validate_shard_lease l))) -> sl_id l = id ->
      at_ s (KLease id) = None \/ known s id (sl_lease_token l) -> write s s'
  | WPop q ids : queued s q ids -> upd s s' (KQueue q) (of_list (r_text <$> tail ids)) -> write s s'
  | WPush q ids id i : queued s q ids -> unqueued s id -> item_is s id i -> waiting q id i ->
      upd s s' (KQueue q) (of_list (r_text <$> (ids ++ [id]))) -> write s s'
  | WIdem q x id : upd s s' (KIdem q x) (Some (RString (r_text id))) -> write s s'
  | WLog k o : upd s s' k o -> log_ok k o -> write s s'.

(** What a write leaves of the keys it does not write. *)
Lemma queued_beside s s' k o q ids : upd s s' k o -> k <> KQueue q -> queued s' q ids <-> queued s q ids.
Proof. intros Hu Hk. unfold queued. rewrite Hu. by rewrite decide_False by congruence. Qed.
Lemma item_beside s s' k o id i : upd s s' k o -> k <> KItem id -> item_is s' id i <-> item_is s id i.
Proof. intros Hu Hk. unfold item_is. rewrite Hu. by rewrite decide_False by congruence. Qed.
Lemma lease_beside s s' k o id l : upd s s' k o -> k <> KLease id -> lease_is s' id l <-> lease_is s id l.
Proof. intros Hu Hk. unfold lease_is. rewrite Hu. by rewrite decide_False by congruence. Qed.
Lemma queued_upd s s' q ids : upd s s' (KQueue q) (of_list (r_text <$> ids)) -> queued s' q ids.
Proof. intros Hu. unfold queued. rewrite Hu, decide_True by done. apply as_of_list. Qed.
Lemma item_upd s s' id i : upd s s' (KItem id) (Some (RString (model_dump validate_item i))) -> item_is s' id i.
Proof. intros Hu. unfold item_is. by rewrite Hu, decide_True by done. Qed.
Lemma lease_upd s s' id l : upd s s' (KLease id) (Some (RString (model_dump validate_shard_lease l))) -> lease_is s' id l.
Proof. intros Hu. unfold lease_is. by rewrite Hu, decide_True by done. Qed.

(** What may be written to a key. *)
Definition value_ok s (k : bkey) (o : option (RedisValue V)) : Prop :=
  match k with
  | KQueue q => exists ids, o = of_list (r_text <$> ids) /\ NoDup ids /\ forall id, id ∈ ids -> exists i, item_is s id i /\ waiting q id i
  | KItem id => unqueued s id /\ exists i, o = Some (RString (model_dump validate_item i)) /\ qi_id i = id
  | KLease id => exists l, o = Some (RString (model_dump validate_shard_lease l)) /\ sl_id l = id
  | KIdem _ _ => exists id, o = Some (RString (r_text id))
  | _ => log_ok k o
  end.

Lemma inv_by_key s s' k o : broker_inv s -> upd s s' k o -> value_ok s k o -> broker_inv s'.
Proof.
  intros Hinv Hu Hok. split.
  - intros q. destruct (inv_queue _ Hinv q) as (ids & Hq & Hnd & Hw). destruct (decide (k = KQueue q)) as [->|Hk].
    + destruct Hok as (ids' & -> & Hnd' & Hw'). exists ids'. split; [by apply (queued_upd s)|]. split; [done|].
      intros id Hin. destruct (Hw' id Hin) as (i & Hi & Hi'). exists i. split; [|done]. by apply (item_beside s s' _ _ _ _ Hu).
    + exists ids. split; [by apply (queued_beside s s' _ _ _ _ Hu)|]. split; [done|]. intros id Hin.
      destruct (Hw id Hin) as (i & Hi & Hi'). exists i. split; [|done]. apply (item_beside s s' _ _ _ _ Hu); [|done].
      intros ->. destruct Hok as [Hun _]. by apply (Hun q ids).
  - intros id x. rewrite Hu. case_decide as Hk; [subst k; intros ->|by apply (inv_item _ Hinv)]. destruct Hok as (_ & i & [= ->] & ?). eauto.
  - intros id x. rewrite Hu. case_decide as Hk; [subst k; intros ->|by apply (inv_lease _ Hinv)]. destruct Hok as (l & [= ->] & ?). eauto.
  - intros q y x. rewrite Hu. case_decide as Hk; [subst k; intros ->|by apply (inv_idem _ Hinv)]. destruct Hok as (id & [= ->]). eauto.
  - intros q. rewrite Hu. case_decide as Hk; [by subst k|by apply (inv_dead _ Hinv)].
  - rewrite Hu. case_decide as Hk; [by subst k|by apply (inv_ops _ Hinv)].
  - intros c. rewrite Hu. case_decide as Hk; [by subst k|by apply (inv_count _ Hinv)].
Qed.

Lemma write_inv s s' : broker_inv s -> write s s' -> broker_inv s'.
Proof.
  intros Hinv [Hsame|id i Hu Hid Hun _|id l Hu Hid _|q ids Hq Hu|q ids id i Hq Hun Hi Hw Hu|q x id Hu|k o Hu Hlog].
  - apply (inv_by_key s s' KOps (at_ s KOps) Hinv).
    + intros k. rewrite Hsame. by case_decide as Hk; [rewrite Hk|].
    + apply (inv_ops _ Hinv).
  - eapply inv_by_key; [done|exact Hu|]. split; [done|]. by exists i.
  - eapply inv_by_key; [done|exact Hu|]. by exists l.
  - eapply inv_by_key; [done|exact Hu|]. exists (tail ids). destruct (inv_queue _ Hinv q) as (l & Hl & Hnd & Hwait).
    rewrite <-(queued_fun _ _ _ _ Hq Hl) in Hnd, Hwait. split; [done|]. destruct ids as [|id ids]; [done|].
    apply NoDup_cons in Hnd as [_ Hnd]. split; [done|]. intros id' Hin. apply Hwait. by right.
  - eapply inv_by_key; [done|exact Hu|]. exists (ids ++ [id]). destruct (inv_queue _ Hinv q) as (l & Hl & Hnd & Hwait).
    rewrite <-(queued_fun _ _ _ _ Hq Hl) in Hnd, Hwait. split; [done|]. split.
    + apply NoDup_app. split; [done|]. split; [|apply NoDup_singleton]. intros id' Hin ->%list_elem_of_singleton. by apply (Hun q ids).
    + intros id' [Hin| ->%list_elem_of_singleton]%elem_of_app; [by apply Hwait|by exists i].
  - eapply inv_by_key; [done|exact Hu|]. by exists id.
  - eapply inv_by_key; [done|exact Hu|]. destruct k; simpl in *; done.
Qed.

Lemma writes_inv s s' : broker_inv s -> rtc write s s' -> broker_inv s'.
Proof. intros Hinv Hw. by apply (rtc_preserved write broker_inv s s' (fun _ _ H Hi => write_inv _ _ Hi H)). Qed.

(** ** Ownership of a fenced item

    A stored lease keeps its token for good, and a token an item has lost never
    comes back to it. *)
Lemma write_known s s' id t : write s s' -> known s id t -> known s' id t.
Proof.
  intros [Hsame|? i Hu Hid Hun _|id' l' Hu Hid Hold|q ids Hq Hu|q ids ? i Hq Hun Hi Hw Hu|q x ? Hu|k o Hu Hlog] (l & Hl & <-).
  - exists l. split; [|done]. unfold lease_is. by rewrite Hsame.
  - exists l. split; [|done]. by apply (lease_beside _ _ _ _ _ _ Hu).
  - destruct (decide (id' = id)) as [->|Hne].
    + exists l'. split; [by apply (lease_upd s)|]. destruct Hold as [Hno|(l0 & Hl0 & Ht)]; [by unfold lease_is in Hl; rewrite Hno in Hl|].
      by rewrite (lease_is_fun _ _ _ _ Hl Hl0).
    + exists l. split; [|done]. apply (lease_beside _ _ _ _ _ _ Hu); congruence.
  - exists l. split; [|done]. by apply (lease_beside _ _ _ _ _ _ Hu).
  - exists l. split; [|done]. by apply (lease_beside _ _ _ _ _ _ Hu).
  - exists l. split; [|done]. by apply (lease_beside _ _ _ _ _ _ Hu).
  - exists l. split; [|done]. apply (lease_beside _ _ _ _ _ _ Hu); [|done]. by intros ->.
Qed.

Lemma write_holds s s' lid id t : write s s' -> known s lid t -> holds s' id t -> holds s id t.
Proof.
  intros Hw0 (l & Hl & Ht) (i & Hi & Hit).
  destruct Hw0 as [Hsame|id' i' Hu Hid Hun Hfresh|id' l' Hu Hid Hold|q ids Hq Hu|q ids ? i' Hq Hun Hi' Hw Hu|q x ? Hu|k o Hu Hlog].
  - exists i. split; [|done]. unfold item_is. by rewrite <-Hsame.
  - destruct (decide (id' = id)) as [->|Hne].
    + pose proof (item_upd _ _ _ _ Hu) as Hi'. rewrite (item_is_fun _ _ _ _ Hi Hi') in Hit.
      destruct (Hfresh t Hit) as [Hf|?]; [by destruct (Hf _ _ Hl)|done].
    + exists i. split; [|done]. apply (item_beside _ _ _ _ _ _ Hu); congruence.
  - exists i. split; [|done]. by apply (item_beside _ _ _ _ _ _ Hu).
  - exists i. split; [|done]. by apply (item_beside _ _ _ _ _ _ Hu).
  - exists i. split; [|done]. by apply (item_beside _ _ _ _ _ _ Hu).
  - exists i. split; [|done]. by apply (item_beside _ _ _ _ _ _ Hu).
  - exists i. split; [|done]. apply (item_beside _ _ _ _ _ _ Hu); [|done]. by intros ->.
Qed.

Lemma writes_lost s s' lid id t : rtc write s s' -> known s lid t -> ~ holds s id t -> known s' lid t /\ ~ holds s' id t.
Proof.
  induction 1 as [|s s1 s' Hw _ IH]; intros Hk Hh; [done|].
  apply IH; [by eapply write_known|]. intros ?. apply Hh. by eapply write_holds.
Qed.

(** ** Commands on keys *)

Lemma wp_put_model {X} (validator : X -> res X) `{!JsonModel V validator} k x Q s :
  (forall s', upd s s' k (Some (RString (model_dump validator x))) -> Q (Ok tt) s') -> wp (_put_model validator (key ns k) x) Q s.
Proof. intros HQ. apply wp_set. intros s' Hv. apply HQ. by apply upd_insert. Qed.

Lemma wp_get_model {X} (validator : X -> res X) `{!JsonModel V validator} k Q s :
  (at_ s k = None \/ exists x, at_ s k = Some (RString (model_dump validator x))) ->
  (forall s', (forall k', at_ s' k' = at_ s k') -> at_ s k = None -> Q (Ok None) s') ->
  (forall s' x, (forall k', at_ s' k' = at_ s k') -> at_ s k = Some (RString (model_dump validator x)) ->
     match validator x with Ok y => Q (Ok (Some y)) s' | Raise e => Q (Raise e) s' end) ->
  wp (_get_model validator (key ns k)) Q s.
Proof.
  intros [Hno|(x & Hx)] Hnone Hsome; apply wp_bind.
  - apply wp_get_none; [done|]. intros s' Hv. apply wp_ret. apply Hnone; [|done]. intros k'. by apply same_view.
  - eapply wp_get_some; [done|]. intros s' Hv. apply wp_bind, wp_lift. rewrite validate_dumped.
    assert (forall k', at_ s' k' = at_ s k') as Hsame by (intros k'; by apply same_view).
    specialize (Hsome s' x Hsame Hx). destruct (validator x); [by apply wp_ret|done].
Qed.

Lemma wp_count k c Q s : k = KCount c -> broker_inv s ->
  (forall n s', upd s s' k (Some (RCount n)) -> Q (Ok n) s') -> wp (r_incr (key ns k)) Q s.
Proof.
  intros -> Hinv HQ. destruct (inv_count _ Hinv c) as [n Hn]. eapply wp_incr; [exact Hn|]. intros s' Hv. apply HQ. by apply upd_insert.
Qed.

Lemma wp_push k l v Q s : as_list (at_ s k) = Some l ->
  (forall n s', upd s s' k (of_list (l ++ [v])) -> Q (Ok n) s') -> wp (r_rpush (key ns k) v) Q s.
Proof. intros Hl HQ. eapply wp_rpush; [exact Hl|]. intros n s' Hv. apply HQ. by apply upd_put. Qed.

Lemma wp_pop k l Q s : as_list (at_ s k) = Some l ->
  (forall s', upd s s' k (of_list (tail l)) -> Q (Ok (head l)) s') -> wp (r_lpop (key ns k)) Q s.
Proof. intros Hl HQ. eapply wp_lpop; [exact Hl|]. intros s' Hv. apply HQ. by apply upd_put. Qed.

(** The records of the log are beside the queues, items, leases and
    idempotency keys: [core] keys. *)
Definition core (k : bkey) : Prop := match k with KQueue _ | KItem _ | KLease _ | KIdem _ _ => True | _ => False end.

Lemma wp_record_operation q op id l t v h r fs rs d dup refs at0 Q s : broker_inv s ->
  (forall count s', rtc write s s' -> (forall k, core k -> at_ s' k = at_ s k) ->
     Q (validate_broker_operation (operation_record q op id l t v h r fs rs d dup refs at0 count)) s') ->
  wp (_record_operation ns q op id l t v h r fs rs d dup refs at0) Q s.
Proof.
  intros Hinv HQ. apply wp_bind, (wp_count (KCount "operations") "operations"); [done|done|]. intros n s1 Hu1.
  assert (write s s1) as Hw1 by (apply (WLog _ _ _ _ Hu1); by eexists).
  assert (forall k, core k -> at_ s1 k = at_ s k) as Hc1 by (intros k Hk; rewrite Hu1; by rewrite decide_False by (intros ->; exact Hk)).
  apply wp_bind, wp_lift. specialize (HQ n). destruct (validate_broker_operation _) as [o|e] eqn:E.
  2: { apply HQ; [by apply rtc_once|done]. }
  apply wp_bind, (wp_put_model validate_broker_operation (KOp (bo_id o))). intros s2 Hu2.
  assert (write s1 s2) as Hw2 by (by apply (WLog _ _ _ _ Hu2)).
  assert (broker_inv s2) as Hinv2 by (by eapply write_inv, Hw2; eapply write_inv).
  destruct (inv_ops _ Hinv2) as [ops Hops]. apply wp_bind, (wp_push KOps ops); [done|]. intros m s3 Hu3.
  assert (write s2 s3) as Hw3 by (apply (WLog _ _ _ _ Hu3); simpl; rewrite as_of_list; by eexists).
  apply wp_ret. apply HQ.
  - eapply rtc_l; [done|]. eapply rtc_l; [done|]. by apply rtc_once.
  - intros k Hk. rewrite Hu3, decide_False by (intros ->; exact Hk). rewrite Hu2, decide_False by (intros ->; exact Hk). by apply Hc1.
Qed.

(** A method whose run is a sequence of elementary writes. *)
Definition writes {A} (m : M R A) s : Prop := wp m (fun _ s' => rtc write s s') s.

Lemma writes_bind {A B} (m : M R A) (k : A -> M R B) s : broker_inv s ->
  wp m (fun r s' => write s s' /\ forall a, r = Ok a -> broker_inv s' -> writes (k a) s') s -> writes (bind m k) s.
Proof.
  intros Hinv Hm. apply wp_bind. eapply wp_mono; [exact Hm|]. intros r s' [Hw Hk].
  destruct r as [a|e]; [|by apply rtc_once]. eapply wp_mono; [apply Hk; [done|by eapply write_inv]|].
  intros r'' s'' Hr. by eapply rtc_l.
Qed.
Lemma writes_lift {A B} (r : res A) (k : A -> M R B) s : broker_inv s -> (forall a, r = Ok a -> writes (k a) s) -> writes (bind (lift r) k) s.
Proof.
  intros Hinv Hk. apply wp_bind, wp_lift. destruct r; [by apply Hk|]. apply rtc_refl.
Qed.
Lemma writes_seq {A B} (m : M R A) (k : A -> M R B) s : broker_inv s -> writes m s ->
  (forall a s', broker_inv s' -> writes (k a) s') -> writes (bind m k) s.
Proof.
  intros Hinv Hm Hk. apply wp_bind. apply (wp_mono m (fun _ s' => rtc write s s')); [exact Hm|]. intros r s' Hw. destruct r as [a|e]; [|done].
  apply (wp_mono _ (fun _ s'' => rtc write s' s'')); [exact (Hk a s' (writes_inv _ _ Hinv Hw))|]. intros r'' s'' Hr. by etrans.
Qed.
Lemma writes_done {A} (m : M R A) s : (forall s, (m s).2 = s) -> writes m s.
Proof. intros Hm. unfold writes, wp. rewrite Hm. apply rtc_refl. Qed.
Lemma writes_record q op id l t v h r fs rs d dup refs at0 s : broker_inv s ->
  writes (_record_operation ns q op id l t v h r fs rs d dup refs at0) s.
Proof. intros Hinv. apply wp_record_operation; [done|]. by intros. Qed.
#[local] Hint Resolve writes_record : core.

Lemma wp_get_item id Q s : broker_inv s ->
  (forall s', (forall k, at_ s' k = at_ s k) -> Q (Ok None) s') ->
  (forall s' i, (forall k, at_ s' k = at_ s k) -> item_is s id i -> qi_id i = id -> validate_item i = Ok i -> Q (Ok (Some i)) s') ->
  (forall s' e, (forall k, at_ s' k = at_ s k) -> Q (Raise e) s') ->
  wp (_get_model validate_item (_item_key ns id)) Q s.
Proof.
  intros Hinv Hnone Hsome Hbad. apply (wp_get_model validate_item (KItem id)).
  - destruct (at_ s (KItem id)) as [x|] eqn:E; [right|by left]. destruct (inv_item _ Hinv _ _ E) as (i & -> & _). by exists i.
  - intros s' Hs _. by apply Hnone.
  - intros s' i Hs Hi. destruct (validate_item i) as [j|e] eqn:E; [|by apply Hbad].
    pose proof (validate_item_id _ _ E) as ->. apply Hsome; [done|done| |done].
    destruct (inv_item _ Hinv _ _ Hi) as (i' & [= Hii] & <-). by apply (inj _) in Hii as ->.
Qed.

Lemma wp_get_lease id Q s : broker_inv s ->
  (forall s', (forall k, at_ s' k = at_ s k) -> Q (Ok None) s') ->
  (forall s' l, (forall k, at_ s' k = at_ s k) -> lease_is s id l -> sl_id l = id -> validate_shard_lease l = Ok l -> Q (Ok (Some l)) s') ->
  (forall s' e, (forall k, at_ s' k = at_ s k) -> Q (Raise e) s') ->
  wp (_get_model validate_shard_lease (_lease_key ns id)) Q s.
Proof.
  intros Hinv Hnone Hsome Hbad. apply (wp_get_model validate_shard_lease (KLease id)).
  - destruct (at_ s (KLease id)) as [x|] eqn:E; [right|by left]. destruct (inv_lease _ Hinv _ _ E) as (i & -> & _). by exists i.
  - intros s' Hs _. by apply Hnone.
  - intros s' i Hs Hi. destruct (validate_shard_lease i) as [j|e] eqn:E; [|by apply Hbad].
    pose proof (validate_shard_lease_id _ _ E) as ->. apply Hsome; [done|done| |done].
    destruct (inv_lease _ Hinv _ _ Hi) as (i' & [= Hii] & <-). by apply (inj _) in Hii as ->.
Qed.

(** *** The checks of ack, nack and dead-letter *)

Lemma wp_validate_lease (lease : ShardLease) Q s : broker_inv s ->
  (forall s' l, (forall k, at_ s' k = at_ s k) -> lease_is s (sl_id lease) l -> sl_id l = sl_id lease ->
     sl_lease_token l = sl_lease_token lease -> Q (Ok l) s') ->
  (forall s' e, (forall k, at_ s' k = at_ s k) -> Q (Raise e) s') ->
  wp (_validate_lease ns lease) Q s.
Proof.
  intros Hinv Hok Hbad. apply wp_bind, wp_get_lease; [done| | |].
  - intros s' Hs. by apply Hbad.
  - intros s' l Hs Hl Hid _. case_bool_decide; [by apply Hok|by apply Hbad].
  - intros s' e Hs. by apply Hbad.
Qed.

Lemma wp_held_item what item_ref (l : ShardLease) Q s : broker_inv s ->
  (forall s' i, (forall k, at_ s' k = at_ s k) -> item_is s item_ref i -> qi_id i = item_ref ->
     qi_lease_token i = Some (sl_lease_token l) -> Q (Ok i) s') ->
  (forall s' e, (forall k, at_ s' k = at_ s k) -> Q (Raise e) s') ->
  wp (_held_item ns what item_ref l) Q s.
Proof.
  intros Hinv Hok Hbad. apply wp_bind, wp_get_item; [done| | |].
  - intros s' Hs. by apply Hbad.
  - intros s' i Hs Hi Hid _. case_bool_decide; [by apply Hok|by apply Hbad].
  - intros s' e Hs. by apply Hbad.
Qed.

(** *** Every operation is a sequence of elementary writes *)

Lemma same_item s s' id i : (forall k, at_ s' k = at_ s k) -> item_is s' id i <-> item_is s id i.
Proof. intros Hs. unfold item_is. by rewrite Hs. Qed.
Lemma same_lease s s' id l : (forall k, at_ s' k = at_ s k) -> lease_is s' id l <-> lease_is s id l.
Proof. intros Hs. unfold lease_is. by rewrite Hs. Qed.
Lemma same_unqueued s s' id : (forall k, at_ s' k = at_ s k) -> unqueued s id -> unqueued s' id.
Proof. intros Hs Hun q ids. unfold queued. rewrite Hs. apply Hun. Qed.
Lemma unqueued_beside s s' k o id : upd s s' k o -> (forall q, k <> KQueue q) -> unqueued s id -> unqueued s' id.
Proof. intros Hu Hk Hun q ids Hq. apply (Hun q). by apply (queued_beside _ _ _ _ _ _ Hu). Qed.

(** Storing the released lease. *)
Lemma wp_release l Q s : lease_is s (sl_id l) l ->
  (forall s' o, upd s s' (KLease (sl_id l)) o -> write s s' -> Q (Ok tt) s') -> wp (_release ns l) Q s.
Proof.
  intros Hl HQ. apply (wp_put_model validate_shard_lease (KLease (sl_id l))). intros s' Hu. eapply HQ; [done|].
  eapply WLease; [exact Hu|done|]. right. by exists l.
Qed.

(** The common start of ack, nack and dead-letter: the lease is current and
    holds the item, which is then in no queue. *)
Lemma writes_held {A} what item_ref lease (k : ShardLease -> QueueItem -> M R A) s : broker_inv s ->
  (forall s l i, broker_inv s -> lease_is s (sl_id l) l -> item_is s (qi_id i) i -> unqueued s (qi_id i) ->
     qi_lease_token i = Some (sl_lease_token l) -> writes (k l i) s) ->
  writes (let* current_lease := _validate_lease ns lease in
          let* item := _held_item ns what item_ref current_lease in k current_lease item) s.
Proof.
  intros Hinv Hk. apply writes_bind; [done|]. apply wp_validate_lease; [done| |intros s' e Hs; split; [by apply WSame|done]].
  intros s1 l Hs1 Hl Hid Ht. split; [by apply WSame|]. intros ? [= <-] Hinv1. rewrite <-Hid in Hl.
  apply writes_bind; [done|]. apply wp_held_item; [done| |intros s' e Hs; split; [by apply WSame|done]].
  intros s2 i Hs2 Hi <- Hit. split; [by apply WSame|]. intros ? [= <-] Hinv2.
  rewrite <-(same_item _ _ _ _ Hs2) in Hi. rewrite <-(same_lease _ _ _ _ Hs1), <-(same_lease _ _ _ _ Hs2) in Hl.
  apply Hk; [done..| |done]. by eapply leased_unqueued.
Qed.

Lemma writes_ack item_ref lease refs now s : broker_inv s -> writes (ack ns item_ref lease refs now) s.
Proof.
  intros Hinv. apply (writes_held "ack"); [done|]. clear s Hinv. intros s l i Hinv Hl Hi Hun Ht.
  apply writes_bind; [done|]. apply (wp_put_model validate_item (KItem (qi_id i))). intros s1 Hu1. split.
  { eapply WItem; [exact Hu1|done|done|]. intros t [= Ht']. right. by exists i. }
  intros _ _ Hinv1. apply writes_bind; [done|]. apply wp_release; [by apply (lease_beside _ _ _ _ _ _ Hu1)|].
  intros s2 o Hu2 Hw2. split; [done|]. intros _ _ Hinv2. by apply writes_record.
Qed.

Lemma writes_nack item_ref lease fs rs retry refs now s : broker_inv s -> writes (nack ns item_ref lease fs rs retry refs now) s.
Proof.
  intros Hinv. apply (writes_held "nack"); [done|]. clear s Hinv. intros s l i Hinv Hl Hi Hun Ht.
  apply writes_bind; [done|]. apply (wp_put_model validate_item (KItem (qi_id i))). intros s1 Hu1. split.
  { eapply WItem; [exact Hu1|done|done|]. by intros t [=]. }
  intros _ _ Hinv1. apply writes_bind; [done|]. apply wp_release; [by apply (lease_beside _ _ _ _ _ _ Hu1)|].
  intros s2 o Hu2 Hw2. split; [done|]. intros _ _ Hinv2. apply writes_bind; [done|].
  destruct (inv_queue _ Hinv2 (qi_queue_name i)) as (ids & Hq & _). apply (wp_push (KQueue (qi_queue_name i)) (r_text <$> ids)); [done|].
  intros n s3 Hu3. split; [|by intros; apply writes_record].
  eapply (WPush _ _ _ _ (qi_id i) (qi_copy i None None (qi_attempts i) QI_QUEUED (now 0%nat))); [exact Hq| | | |].
  - eapply unqueued_beside; [exact Hu2|done|]. by eapply unqueued_beside; [exact Hu1|done|].
  - apply (item_beside _ _ _ _ _ _ Hu2); [done|]. by apply (item_upd s).
  - done.
  - by rewrite fmap_app.
Qed.

Lemma writes_dead_letter item_ref lease d refs now s : broker_inv s -> writes (dead_letter ns item_ref lease d refs now) s.
Proof.
  intros Hinv. apply (writes_held "dead-letter"); [done|]. clear s Hinv. intros s l i Hinv Hl Hi Hun Ht.
  apply writes_bind; [done|]. apply (wp_put_model validate_item (KItem (qi_id i))). intros s1 Hu1. split.
  { eapply WItem; [exact Hu1|done|done|]. intros t [= Ht']. right. by exists i. }
  intros _ _ Hinv1. apply writes_bind; [done|]. apply (wp_put_model validate_dead_letter (KDeadRecord (rd_id d))). intros s2 Hu2.
  split; [by apply (WLog _ _ _ _ Hu2)|]. intros _ _ Hinv2. apply writes_bind; [done|].
  apply wp_release; [apply (lease_beside _ _ _ _ _ _ Hu2); [done|]; by apply (lease_beside _ _ _ _ _ _ Hu1)|].
  intros s3 o Hu3 Hw3. split; [done|]. intros _ _ Hinv3. apply writes_bind; [done|].
  destruct (inv_dead _ Hinv3 (qi_queue_name i)) as [ds Hds]. apply (wp_push (KDead (qi_queue_name i)) ds); [done|].
  intros n s4 Hu4. split; [|by intros; apply writes_record]. apply (WLog _ _ _ _ Hu4). simpl. rewrite as_of_list. by eexists.
Qed.

Lemma writes_heartbeat item_ref lease secs refs now s : broker_inv s -> writes (heartbeat ns item_ref lease secs refs now) s.
Proof.
  intros Hinv. apply writes_bind; [done|]. apply wp_validate_lease; [done| |intros s' e Hs; split; [by apply WSame|done]].
  intros s1 l Hs1 Hl Hid Ht. split; [by apply WSame|]. intros ? [= <-] Hinv1. rewrite <-Hid in Hl.
  rewrite <-(same_lease _ _ _ _ Hs1) in Hl. apply writes_lift; [done|]. intros expires _.
  apply writes_bind; [done|]. apply (wp_put_model validate_shard_lease (KLease (sl_id l))). intros s2 Hu2. split.
  { eapply WLease; [exact Hu2|done|]. right. by exists l. }
  intros _ _ Hinv2. apply writes_bind; [done|]. apply (wp_count (KCount "heartbeat") "heartbeat"); [done|done|]. intros n s3 Hu3.
  split; [apply (WLog _ _ _ _ Hu3); by eexists|]. intros ? [= <-] Hinv3. by apply writes_record.
Qed.

(** A uuid that was never drawn before. *)
Definition fresh_hex s (hex : nat -> string) : Prop :=
  forall id, token_unused s ("fencing-token:" +:+ id +:+ ":" +:+ hex 0%nat) /\
    at_ s (KLease ("queue-broker-lease:" +:+ id +:+ ":" +:+ hex 1%nat)) = None.
(** A producer: an item is handed in unleased, and a new idempotency key comes
    with a new item. *)
Definition proper_item s (item : QueueItem) : Prop :=
  qi_status item = QI_QUEUED /\ qi_lease_token item = None /\
  (at_ s (KIdem (qi_queue_name item) (qi_idempotency_key item)) = None -> at_ s (KItem (qi_id item)) = None).

Lemma absent_unqueued s id : broker_inv s -> at_ s (KItem id) = None -> unqueued s id.
Proof.
  intros Hinv Hno q ids Hq Hin. destruct (inv_queue _ Hinv q) as (l & Hl & _ & Hw).
  rewrite <-(queued_fun _ _ _ _ Hq Hl) in Hw. destruct (Hw id Hin) as (i & Hi & _). unfold item_is in Hi. congruence.
Qed.

Lemma writes_enqueue item refs now s : broker_inv s -> proper_item s item -> writes (enqueue ns item refs now) s.
Proof.
  intros Hinv (Hst & Htok & Hnew). set (q := qi_queue_name item). set (x := qi_idempotency_key item).
  apply writes_bind; [done|]. apply wp_set_nx.
  - intros s1 Hno Hv. apply (upd_insert _ _ (KIdem q x)) in Hv. split; [by eapply WIdem|]. intros ? [= <-] Hinv1. simpl.
    apply writes_bind; [done|]. apply (wp_put_model validate_item (KItem (qi_id item))). intros s2 Hu2.
    assert (unqueued s1 (qi_id item)) as Hun.
    { eapply unqueued_beside; [exact Hv|done|]. apply absent_unqueued; [done|]. by apply Hnew. }
    split; [eapply WItem; [exact Hu2|done|done|intros t; by rewrite Htok]|]. intros _ _ Hinv2. apply writes_bind; [done|].
    destruct (inv_queue _ Hinv2 q) as (ids & Hq & _). apply (wp_push (KQueue q) (r_text <$> ids)); [done|].
    intros n s3 Hu3. split; [|by intros; apply writes_record].
    eapply (WPush _ _ q ids (qi_id item) item); [exact Hq| |by apply (item_upd s1)|done|by rewrite fmap_app].
    by eapply unqueued_beside; [exact Hu2|done|].
  - intros s1 [v Hs] Hv. split; [apply WSame; intros k; by apply same_view|]. intros ? [= <-] Hinv1. simpl.
    destruct (inv_idem _ Hinv q x v Hs) as (id & ->). apply writes_bind; [done|]. eapply wp_get_some; [by rewrite Hv|].
    intros s2 Hv2. split; [apply WSame; intros k; by apply same_view|]. by intros; apply writes_record.
Qed.

Lemma writes_lease q worker secs refs now hex s : broker_inv s -> fresh_hex s hex -> writes (lease ns q worker secs refs now hex) s.
Proof.
  intros Hinv Hfresh. destruct (inv_queue _ Hinv q) as (ids & Hq & Hnd & Hwait).
  apply writes_bind; [done|]. apply (wp_pop (KQueue q) (r_text <$> ids)); [done|]. intros s1 Hu1.
  rewrite <-fmap_tail in Hu1. split; [by eapply WPop|]. intros o Ho Hinv1. injection Ho as <-.
  destruct ids as [|id ids]; [by apply writes_done|]. simpl in Hu1 |- *. rewrite text_str.
  apply writes_bind; [done|]. apply wp_get_item; [done| | |]; [| |by intros s2 e Hs; split; [by apply WSame|]].
  { intros s2 Hs2. split; [by apply WSame|]. intros ? [= <-] _. by apply writes_done. }
  intros s2 i Hs2 Hi Hid _. split; [by apply WSame|]. intros ? [= <-] Hinv2. simpl.
  apply writes_lift; [done|]. intros expires _. apply writes_lift; [done|]. intros l Hl.
  pose proof (validate_shard_lease_id _ _ Hl) as El. clear Hl.
  assert (forall id' x, lease_is s2 id' x <-> lease_is s id' x) as Hleases.
  { intros id' x. rewrite (same_lease _ _ _ _ Hs2). by apply (lease_beside _ _ _ _ _ _ Hu1). }
  apply writes_bind; [done|]. apply (wp_put_model validate_item (KItem (qi_id i))). intros s3 Hu3. split.
  { eapply WItem; [exact Hu3|done| |].
    - rewrite Hid. eapply same_unqueued; [exact Hs2|]. intros q' ids' Hq' Hin. apply NoDup_cons in Hnd as [Hnd _].
      destruct (decide (q' = q)) as [->|Hne].
      + pose proof (queued_upd _ _ _ _ Hu1) as Hq1. by rewrite (queued_fun _ _ _ _ Hq' Hq1) in Hin.
      + apply (queued_beside _ _ _ _ q' ids' Hu1) in Hq'; [|congruence]. apply Hne.
        by apply (queued_in_one s q' q ids' (id :: ids) id); [done|done|done|done|left].
    - intros t [= <-]. left. intros id' x Hx%Hleases. destruct (Hfresh (qi_id i)) as [Hf _]. by apply (Hf id'). }
  intros _ _ Hinv3. apply writes_bind; [done|]. apply (wp_put_model validate_shard_lease (KLease (sl_id l))). intros s4 Hu4. split.
  { eapply WLease; [exact Hu4|done|]. left. rewrite Hu3, Hs2, Hu1, El. simpl. apply Hfresh. }
  intros _ _ Hinv4. apply writes_seq; [done|by apply writes_record|]. intros o s5 _. by apply writes_done.
Qed.

(** ** Histories of calls

    Any client may call any operation with any arguments, forged leases
    included, and may go on after an exception. A call is one step: its commands
    are not interleaved with those of another. The producers are proper and the
    uuids new; [reset_namespace] is a step of its own. *)
Inductive broker_step s s' : Prop :=
  | StepEnqueue item refs now : proper_item s item -> s' = (enqueue ns item refs now s).2 -> broker_step s s'
  | StepLease q worker secs refs now hex : fresh_hex s hex -> s' = (lease ns q worker secs refs now hex s).2 -> broker_step s s'
  | StepHeartbeat id l secs refs now : s' = (heartbeat ns id l secs refs now s).2 -> broker_step s s'
  | StepAck id l refs now : s' = (ack ns id l refs now s).2 -> broker_step s s'
  | StepNack id l fs rs retry refs now : s' = (nack ns id l fs rs retry refs now s).2 -> broker_step s s'
  | StepDeadLetter id l d refs now : s' = (dead_letter ns id l d refs now s).2 -> broker_step s s'.

Lemma step_writes s s' : broker_inv s -> broker_step s s' -> rtc write s s'.
Proof.
  intros Hinv [item refs now Hp ->|q worker secs refs now hex Hf ->|id l secs refs now ->|id l refs now ->|id l fs rs retry refs now ->|id l d refs now ->].
  - by apply writes_enqueue.
  - by apply writes_lease.
  - by apply writes_heartbeat.
  - by apply writes_ack.
  - by apply writes_nack.
  - by apply writes_dead_letter.
Qed.

Lemma steps_writes s s' : broker_inv s -> rtc broker_step s s' -> broker_inv s' /\ rtc write s s'.
Proof.
  intros Hinv Hr. induction Hr as [s|s s1 s' Hs _ IH]; [done|]. pose proof (step_writes _ _ Hinv Hs) as Hw.
  destruct IH as [? ?]; [by eapply writes_inv|]. split; [done|by etrans].
Qed.

(** A reset empties the namespace. *)
Definition reset_step s s' : Prop := s' = (reset_namespace ns s).2.
Definition broker_or_reset s s' : Prop := broker_step s s' \/ reset_step s s'.

Lemma key_in_namespace k : startswith (ns +:+ ":") (key ns k) = true.
Proof.
  apply startswith_spec. destruct k; unfold key, _queue_key, _dead_letter_key, _idempotency_key, _item_key, _lease_key, _operation_key,
    _operations_key, _dead_letter_record_key; eexists; rewrite append_assoc; reflexivity.
Qed.

Lemma reset_inv s : broker_inv (reset_namespace ns s).2.
Proof.
  apply empty_store_inv. intros k. unfold reset_namespace, bind. destruct (scan_law (ns +:+ ":") s) as (ks & s1 & -> & Hv & Hks).
  assert (is_Some (redis_view s1 !! key ns k) -> key ns k ∈ ks) as Hin.
  { rewrite Hv. intros Hk. apply Hks. split; [done|apply key_in_namespace]. }
  unfold at_. destruct ks as [|k0 ks]; simpl.
  - destruct (redis_view s1 !! key ns k); [|done]. by destruct (not_elem_of_nil (key ns k)); apply Hin.
  - destruct (delete_law (k0 :: ks) s1) as (s2 & -> & Hd). rewrite Hd. case_decide as Hk; [done|].
    destruct (redis_view s1 !! key ns k); [|done]. destruct Hk. by apply Hin.
Qed.

Lemma history_inv s s' : broker_inv s -> rtc broker_or_reset s s' -> broker_inv s'.
Proof.
  intros Hinv Hr. induction Hr as [s|s s1 s' [Hs| ->] _ IH]; [done| |]; apply IH; [|apply reset_inv].
  by apply (steps_writes s s1 Hinv), rtc_once.
Qed.

(** A call for an item its lease does not hold does nothing. *)
Definition refused {A} (m : M R A) s : Prop := exists e, (m s).1 = Raise e /\ forall k, at_ (m s).2 k = at_ s k.

Lemma held_refused {A} what item_ref lease (k : ShardLease -> QueueItem -> M R A) s : broker_inv s -> ~ holds s item_ref (sl_lease_token lease) ->
  refused (let* current_lease := _validate_lease ns lease in
           let* item := _held_item ns what item_ref current_lease in k current_lease item) s.
Proof.
  intros Hinv Hno. set (m := bind _ _).
  enough (wp m (fun r s' => exists e, r = Raise e /\ forall k, at_ s' k = at_ s k) s) as Hwp by exact Hwp.
  apply wp_bind, wp_validate_lease; [done| |by eauto]. intros s1 l Hs1 Hl Hid Ht.
  assert (broker_inv s1) as Hinv1 by (eapply write_inv, WSame; [exact Hinv|exact Hs1]).
  apply wp_bind, wp_held_item; [done| |intros s2 e Hs2; exists e; split; [done|]; intros k'; by rewrite Hs2].
  intros s2 i Hs2 Hi _ Hit. destruct Hno. exists i. split; [by rewrite <-(same_item _ _ _ _ Hs1)|]. congruence.
Qed.
End Laws.

(** ** What holds after any history *)

Section Histories.
Context {V R : Type} `{RL : RedisLaws V R}.
Context `{JItem : !JsonModel V validate_item} `{JLease : !JsonModel V validate_shard_lease}
        `{JDead : !JsonModel V validate_dead_letter} `{JRecord : !JsonModel V validate_broker_operation}.
Context `{HItem : !Inj (=) (=) (model_dump (Json := V) validate_item)} `{HLease : !Inj (=) (=) (model_dump (Json := V) validate_shard_lease)}.

(** C12: After any history of broker calls on a new server, one at a time, the
    calls that raised and resets included, a queue names no item twice and no
    item is in two queues, and every item in a queue is stored as waiting there:
    its status is queued and no worker holds a fencing token for it. So an item
    that is leased, acknowledged or dead-lettered is not handed out again while
    it is. It is assumed that a producer hands in an item that is not leased, and
    a new item with a new idempotency key ([proper_item]), and that no uuid is
    drawn twice: the code checks neither ([second_key_queues_twice]). *)
Theorem queued_items_are_free ns (s0 s : R) : redis_view s0 = ∅ -> rtc (broker_or_reset ns) s0 s ->
  forall q, exists ids, queued ns s q ids /\ NoDup ids /\
    forall id, id ∈ ids -> (exists i, item_is ns s id i /\ waiting q id i) /\
      forall q' ids', queued ns s q' ids' -> id ∈ ids' -> q' = q.
Proof.
  intros H0 Hr q. pose proof (history_inv ns s0 s (new_server_inv ns s0 H0) Hr) as Hinv.
  destruct (inv_queue _ _ Hinv q) as (ids & Hq & Hnd & Hw). exists ids. split; [done|]. split; [done|].
  intros id Hin. split; [by apply Hw|]. intros q' ids' Hq' Hin'. by eapply queued_in_one.
Qed.

(** C6: A worker whose lease no longer holds an item, because the item went back
    to the queue or to another worker, never touches it again: an
    acknowledgement, a negative acknowledgement and a dead-letter under the old
    lease raise, and leave every key of the broker as it is, whatever operations
    are called in between, one at a time, with any arguments. It is assumed that
    the server was new, that producers hand in items that are not leased, and a
    new item with a new idempotency key ([proper_item]; an item handed in with
    the old token under another key revives the lease, [carried_token_revives]),
    that no uuid is drawn twice, and that the namespace is not reset. *)
Theorem stale_lease_fenced ns (s0 s s' : R) item_ref lease : redis_view s0 = ∅ -> rtc (broker_step ns) s0 s ->
  known ns s (sl_id lease) (sl_lease_token lease) -> ~ holds ns s item_ref (sl_lease_token lease) ->
  rtc (broker_step ns) s s' ->
  (forall refs now, refused ns (ack ns item_ref lease refs now) s') /\
  (forall fs rs retry refs now, refused ns (nack ns item_ref lease fs rs retry refs now) s') /\
  (forall d refs now, refused ns (dead_letter ns item_ref lease d refs now) s').
Proof.
  intros H0 Hr0 Hk Hno Hr. destruct (steps_writes ns s0 s (new_server_inv ns s0 H0) Hr0) as [Hinv _].
  destruct (steps_writes ns s s' Hinv Hr) as [Hinv' Hw].
  destruct (writes_lost ns s s' _ _ _ Hw Hk Hno) as [_ Hno'].
  split; [|split]; intros; by apply held_refused.
Qed.
End Histories.

(** ** A server at work *)

Module BrokerDemo.
Import RedisDemo.
#[export] Instance item_inj : Inj (=) (=) (model_dump (Json := stored) validate_item).
Proof. by intros x y [=]. Qed.
#[export] Instance lease_inj : Inj (=) (=) (model_dump (Json := stored) validate_shard_lease).
Proof. by intros x y [=]. Qed.

Abbreviation server := (keyspace stored).
Definition ns : string := "demo".

Definition started : server := (enqueue ns (item "a" "k1") refs clock (∅ : server)).2.
Definition two_items : server := (enqueue ns (item "b" "k2") refs clock started).2.
Definition lease_run := lease ns SQ_FRONTIER "w1" 30 refs clock (ids "x") two_items.
Definition leased : server := lease_run.2.
Definition held : ShardLease :=
  match lease_run.1 with Ok (_, l, _) => l | Raise _ => Concrete.lease "none" "none" end.
Definition nacked : server := (nack ns "a" held ["failure"] ["recovery"] "retry" refs clock leased).2.

Definition no_key_under (prefix : string) (s : server) : bool := forallb (fun p => negb (startswith prefix p.1)) (map_to_list s).
Lemma no_key prefix s r : no_key_under prefix s = true -> s !! (prefix +:+ r) = None.
Proof.
  intros Hno. destruct (s !! (prefix +:+ r)) as [v|] eqn:E; [|done]. apply elem_of_map_to_list in E.
  unfold no_key_under in Hno. rewrite forallb_forall in Hno. apply list_elem_of_In in E. specialize (Hno _ E). simpl in Hno.
  assert (startswith prefix (prefix +:+ r) = true) as Hp by (apply startswith_spec; eauto). by rewrite Hp in Hno.
Qed.

Lemma two_items_steps : rtc (broker_step ns) (∅ : server) two_items.
Proof.
  eapply rtc_l; [eapply (StepEnqueue ns _ _ (item "a" "k1") refs clock); [|reflexivity]|].
  { split_and!; [done|done|]. intros _. by vm_compute. }
  apply rtc_once. eapply (StepEnqueue ns _ _ (item "b" "k2") refs clock); [|reflexivity].
  split_and!; [done|done|]. intros _. by vm_compute.
Qed.

Lemma leased_steps : rtc (broker_step ns) (∅ : server) leased.
Proof.
  eapply rtc_r; [exact two_items_steps|]. eapply (StepLease ns _ _ SQ_FRONTIER "w1" 30 refs clock (ids "x")); [|reflexivity].
  assert (forall id, at_ ns two_items (KLease id) = None) as Hno.
  { intros id. apply (no_key "demo:lease:"). by vm_compute. }
  intros id. split; [|apply Hno]. intros id' l Hl. unfold lease_is in Hl. by rewrite Hno in Hl.
Qed.

(** The same server after a reset, and an item put in again. *)
Definition reset_and_used : server := (enqueue ns (item "a" "k1") refs clock (reset_namespace ns nacked).2).2.

Lemma nacked_steps : rtc (broker_step ns) (∅ : server) nacked.
Proof. eapply rtc_r; [exact leased_steps|]. by eapply (StepNack ns _ _ "a" held). Qed.

Lemma used_steps : rtc (broker_or_reset ns) (∅ : server) reset_and_used.
Proof.
  eapply rtc_r; [eapply rtc_r; [|by right]|].
  - eapply rtc_subrel; [|exact nacked_steps]. intros s s' Hs. by left.
  - left. eapply (StepEnqueue ns _ _ (item "a" "k1") refs clock); [|reflexivity]. split_and!; [done|done|]. intros _. by vm_compute.
Qed.

(** The queue is first in, first out: [a] is leased, [b] waits, and [a] goes
    behind [b] when it comes back. *)
Example order_of_delivery :
  (queued_count ns SQ_FRONTIER two_items).1 = Ok 2 /\ sl_lease_token held = "fencing-token:a:x0" /\
  list_at leased "demo:queue:frontier" = Some [SText "b"] /\ list_at nacked "demo:queue:frontier" = Some [SText "b"; SText "a"].
Proof. by vm_compute. Qed.
End BrokerDemo.

Import RedisDemo BrokerDemo.

Lemma queued_items_are_free_witness :
  exists ids, queued ns reset_and_used SQ_FRONTIER ids /\ NoDup ids /\
    forall id, id ∈ ids -> (exists i, item_is ns reset_and_used id i /\ waiting SQ_FRONTIER id i) /\
      forall q' ids', queued ns reset_and_used q' ids' -> id ∈ ids' -> q' = SQ_FRONTIER.
Proof. exact (queued_items_are_free ns ∅ reset_and_used eq_refl used_steps SQ_FRONTIER). Defined.

Lemma stale_lease_fenced_witness : refused ns (ack ns "a" held refs clock) nacked.
Proof.
  refine (proj1 (stale_lease_fenced ns ∅ nacked nacked "a" held eq_refl nacked_steps _ _ (rtc_refl _ _)) refs clock).
  - eexists. by vm_compute.
  - intros (i & Hi & Ht). assert (i = qi_copy (item "a" "k1") None None 1 QI_QUEUED 0) as E.
    { apply (item_is_fun ns nacked "a"); [exact Hi|]. vm_compute. reflexivity. }
    rewrite E in Ht. discriminate Ht.
Defined.

(** ** What the operations do not check *)

(** Only the idempotency key is checked: an item handed in again under another
    key is in its queue twice. *)
Lemma second_key_queues_twice :
  queued ns (enqueue ns (item "a" "k2") refs clock started).2 SQ_FRONTIER ["a"; "a"].
Proof. by vm_compute. Qed.

(** Nor is the lease of an item that is handed in: under another key it is
    stored over the item with its token, and the lease that was given up holds
    it again. *)
Lemma carried_token_revives :
  let carried := qi_copy (item "a" "k3") (Some (sl_lease_token held)) None 1 QI_QUEUED 0 in
  let revived := (enqueue ns carried refs clock nacked).2 in
  is_ok (ack ns "a" held refs clock nacked).1 = false /\ is_ok (ack ns "a" held refs clock revived).1 = true.
Proof. by vm_compute. Qed.

(** The acknowledgement leaves the token on the item: the same lease can still
    put the finished item back into its queue. *)
Lemma acked_item_returns :
  let acked := (ack ns "a" held refs clock leased).2 in
  let returned := nack ns "a" held ["failure"] ["recovery"] "retry" refs clock acked in
  is_ok (ack ns "a" held refs clock leased).1 = true /\ is_ok returned.1 = true /\
  queued ns returned.2 SQ_FRONTIER ["b"; "a"].
Proof. by vm_compute. Qed.

(** [lease] takes the item off the queue before it builds the lease: a call that
    the contract rejects (no policy refs, or a visibility timeout of 0) raises
    and the item is in no queue any more, although its record says queued. *)
Lemma rejected_lease_loses_item :
  let bare := {| br_adapter_ref := "adapter"; br_fairness := ["fair"]; br_backpressure := ["lag"]; br_policy := [] |} in
  let lost := lease ns SQ_FRONTIER "w1" 30 bare clock (ids "x") started in
  let lost' := lease ns SQ_FRONTIER "w1" 0 refs clock (ids "x") started in
  lost.1 = Raise (ValidationError "active shard lease requires policy refs") /\
  lost'.1 = Raise (ValidationError "lease expiry must be after acquisition") /\
  queued ns lost.2 SQ_FRONTIER [] /\ queued ns lost'.2 SQ_FRONTIER [] /\ item_is ns lost.2 "a" (item "a" "k1").
Proof. by vm_compute. Qed.

(** Nothing reads the expiry of a lease: long after it, the item is still held
    by the lost worker and the queue is empty. *)
Lemma expired_lease_keeps_item :
  let taken := (lease ns SQ_FRONTIER "w1" 30 refs clock (ids "x") started).2 in
  (lease ns SQ_FRONTIER "w2" 30 refs (fun _ => 86400000000) (ids "y") taken).1 = Raise (ValueError "queue frontier is empty").
Proof. by vm_compute. Qed.

(** The idempotency key is claimed before the item is stored: when the producer
    stops in between, its retry is answered as a duplicate of an item that does
    not exist. *)
Lemma interrupted_enqueue_is_lost :
  let claimed := (r_set_nx (_idempotency_key ns SQ_FRONTIER "k1") (r_text "a") (∅ : server)).2 in
  let retried := enqueue ns (item "a" "k1") refs clock claimed in
  (exists o, retried.1 = Ok o /\ bo_operation o = BO_DUPLICATE_ENQUEUE /\ bo_duplicate_of_ref o = Some "a") /\
  queued ns retried.2 SQ_FRONTIER [] /\ at_ ns retried.2 (KItem "a") = None.
Proof. split; [eexists; by vm_compute|by vm_compute]. Qed.

(** A heartbeat without policy refs raises after it has stored a lease that no
    longer validates: the holder can never settle the item. *)
Lemma bare_heartbeat_breaks_lease :
  let bare := {| br_adapter_ref := "adapter"; br_fairness := ["fair"]; br_backpressure := ["lag"]; br_policy := [] |} in
  let broken := heartbeat ns "a" held 30 bare clock leased in
  broken.1 = Raise (ValidationError "broker operation requires fairness, backpressure, and policy refs") /\
  (ack ns "a" held refs clock broken.2).1 = Raise (ValidationError "active shard lease requires policy refs").
Proof. by vm_compute. Qed.

(** A namespace may contain colons: resetting one clears those below it. *)
Lemma reset_clears_nested_namespace :
  is_ok (new_broker "demo") = true /\ is_ok (new_broker "demo:staging") = true /\
  let staging := (enqueue "demo:staging" (item "a" "k1") refs clock (∅ : server)).2 in
  queued "demo:staging" staging SQ_FRONTIER ["a"] /\ queued "demo:staging" (reset_namespace "demo" staging).2 SQ_FRONTIER [].
Proof. by vm_compute. Qed.
