(* ===== verification/PosixFs.v ===== *)
(** * Files and directories

    What the stores use of Python's [os] module on a POSIX system: calls
    relative to a directory descriptor, on a tree of inodes. The kernel resolves
    a path component by component, follows symbolic links (at most 40 of them),
    goes up on [..], and starts over at the root directory (inode 0) for an
    absolute path.

    A run carries a script of [event]s, one per system call: what other
    processes do to the tree just before the call ([ev_before], any change at
    all), whether the call fails, and how many bytes it moves at most. Past the
    end of the script nothing interferes and nothing fails. Every call that
    goes through is logged with the trees before and after it. *)
From Stdlib Require Import Ascii Strings.Byte.
From S2P Require Import Prelude PyStr Wp.

Abbreviation bytes := (list Byte.byte).

Inductive node :=
  | NDir (parent : nat) (entries : gmap string nat)
  | NFile (data : bytes)
  | NLink (target : string).

Record Fs := { fs_nodes : gmap nat node; fs_next : nat }.

Record event := { ev_before : Fs -> Fs; ev_fails : bool; ev_count : option nat }.
Definition quiet_event : event := {| ev_before := id; ev_fails := false; ev_count := None |}.

(** An open descriptor: its inode and the offset in it. *)
Record Os := { os_fs : Fs; os_fds : gmap nat (nat * nat); os_next_fd : nat; os_script : list event; os_log : list (Fs * Fs) }.

(** ** The tree *)

Definition entries_of (fs : Fs) (ino : nat) : option (gmap string nat) :=
  match fs_nodes fs !! ino with Some (NDir _ es) => Some es | _ => None end.
Definition set_node (ino : nat) (n : node) (fs : Fs) : Fs := {| fs_nodes := <[ino := n]> (fs_nodes fs); fs_next := fs_next fs |}.
Definition set_entries (ino : nat) (es : gmap string nat) (fs : Fs) : Fs :=
  match fs_nodes fs !! ino with Some (NDir up _) => set_node ino (NDir up es) fs | _ => fs end.
(** A new inode linked as [name] in the directory [dir]. *)
Definition link_new (dir : nat) (name : string) (n : node) (fs : Fs) : Fs :=
  let ino := fs_next fs in
  let fs' := {| fs_nodes := <[ino := n]> (fs_nodes fs); fs_next := S ino |} in
  match entries_of fs dir with Some es => set_entries dir (<[name := ino]> es) fs' | None => fs' end.

(** Path resolution from the directory [dir]. *)
Definition walk (fs : Fs) (follow_last : bool) : nat -> nat -> list string -> option nat :=
  fix walk (links : nat) :=
    fix go (dir : nat) (path : list string) {struct path} : option nat :=
      match path with
      | [] => Some dir
      | c :: rest =>
          match fs_nodes fs !! dir with
          | Some (NDir up es) =>
              if bool_decide (c = "") || bool_decide (c = ".") then go dir rest
              else if bool_decide (c = "..") then go up rest
              else
                match es !! c with
                | None => None
                | Some ino =>
                    match fs_nodes fs !! ino with
                    | None => None
                    | Some (NLink target) =>
                        if negb follow_last && bool_decide (rest = []) then Some ino
                        else
                          match links with
                          | O => None
                          | S links => walk links (if startswith "/" target then 0%nat else dir) (split_on "/" target ++ rest)
                          end
                    | Some _ => go ino rest
                    end
                end
          | _ => None
          end
      end.
Definition max_links : nat := 40.

Definition resolve (fs : Fs) (follow_last : bool) (dir : nat) (path : string) : option nat :=
  if bool_decide (path = "") then None
  else walk fs follow_last max_links (if startswith "/" path then 0%nat else dir) (split_on "/" path).

(** The directory and the last component that a call creating, renaming or
    removing [path] works on. *)
Definition locate (fs : Fs) (dir : nat) (path : string) : option (nat * string) :=
  match rev (split_on "/" path) with
  | [] => None
  | name :: up =>
      if bool_decide (name = "") || bool_decide (name = ".") || bool_decide (name = "..") then None
      else
        match walk fs true max_links (if startswith "/" path then 0%nat else dir) (rev up) with
        | Some parent => if entries_of fs parent is Some _ then Some (parent, name) else None
        | None => None
        end
  end.

(** ** System calls *)

Definition Kernel : Type := Fs * gmap nat (nat * nat).
Abbreviation K := (M Kernel).

Definition sys {A} (act : nat -> event -> K A) : M Os A :=
  fun w =>
    let ev := default quiet_event (head (os_script w)) in
    let fs := ev_before ev (os_fs w) in
    let '(r, (fs', fds')) := if ev_fails ev then (Raise OSError, (fs, os_fds w)) else act (os_next_fd w) ev (fs, os_fds w) in
    (r, {| os_fs := fs'; os_fds := fds'; os_next_fd := S (os_next_fd w); os_script := tail (os_script w);
           os_log := os_log w ++ [(fs, fs')] |}).

Definition k_fail {A} (e : exn) : K A := raise e.
Definition k_inode (fd : nat) : K nat := fun k => match k.2 !! fd with Some (ino, _) => (Ok ino, k) | None => (Raise OSError, k) end.
Definition k_set_fs (f : Fs -> Fs) : K unit := modify (fun k => (f k.1, k.2)).
Definition k_open (fd ino : nat) : K nat := fun k => (Ok fd, (k.1, <[fd := (ino, 0%nat)]> k.2)).

(** A path argument: Python refuses a null character before the call. *)
Definition path_arg {A} (path : string) (m : M Os A) : M Os A :=
  if str_in_char (ascii_of_nat 0) path then raise (ValueError "embedded null byte") else m.

Definition os_mkdir (name : string) (dir_fd : nat) : M Os unit :=
  path_arg name (sys (fun _ _ =>
    let* dir := k_inode dir_fd in
    let* fs := gets fst in
    match locate fs dir name with
    | None => k_fail (if resolve fs false dir name is Some _ then FileExistsError else FileNotFoundError)
    | Some (parent, last) =>
        match (entries_of fs parent ≫= lookup last) with
        | Some _ => k_fail FileExistsError
        | None => k_set_fs (link_new parent last (NDir parent ∅))
        end
    end)).

(** [os.open(name, O_RDONLY | O_DIRECTORY | O_NOFOLLOW, dir_fd=dir_fd)] and
    [os.open(name, O_RDONLY | O_NOFOLLOW, dir_fd=dir_fd)]: the last component
    must not be a symbolic link, and must be a directory in the first case. *)
Definition os_open_nofollow (directory : bool) (name : string) (dir_fd : nat) : M Os nat :=
  path_arg name (sys (fun new_fd _ =>
    let* dir := k_inode dir_fd in
    let* fs := gets fst in
    match resolve fs false dir name with
    | None => k_fail FileNotFoundError
    | Some ino =>
        match fs_nodes fs !! ino with
        | Some (NDir _ _) => k_open new_fd ino
        | Some (NFile _) => if directory then k_fail OSError else k_open new_fd ino
        | _ => k_fail OSError
        end
    end)).

(** [os.open(name, O_CREAT | O_EXCL | O_RDWR | O_NOFOLLOW, mode, dir_fd=dir_fd)] *)
Definition os_open_new (name : string) (dir_fd : nat) : M Os nat :=
  path_arg name (sys (fun new_fd _ =>
    let* dir := k_inode dir_fd in
    let* fs := gets fst in
    match locate fs dir name with
    | None => k_fail FileNotFoundError
    | Some (parent, last) =>
        match (entries_of fs parent ≫= lookup last) with
        | Some _ => k_fail FileExistsError
        | None => do* k_set_fs (link_new parent last (NFile [])) in k_open new_fd (fs_next fs)
        end
    end)).

(** The bytes a write at [off] leaves. *)
Definition overwrite (old : bytes) (off : nat) (data : bytes) : bytes :=
  take off old ++ replicate (off - length old) x00 ++ data ++ drop (off + length data) old.

(** [os.write(fd, data)]: how many bytes went out. *)
Definition os_write (fd : nat) (data : bytes) : M Os nat :=
  sys (fun _ ev k =>
    match k.2 !! fd with
    | Some (ino, off) =>
        match fs_nodes k.1 !! ino with
        | Some (NFile old) =>
            let out := take (default (length data) (ev_count ev)) data in
            (Ok (length out), (set_node ino (NFile (overwrite old off out)) k.1, <[fd := (ino, off + length out)%nat]> k.2))
        | _ => (Raise OSError, k)
        end
    | None => (Raise OSError, k)
    end).

Definition os_fsync (fd : nat) : M Os unit := sys (fun _ _ => let* _ := k_inode fd in ret tt).

(** A descriptor is gone even when [close] reports an error. *)
Definition os_close (fd : nat) : M Os unit :=
  fun w => let '(r, w') := sys (fun _ _ => let* _ := k_inode fd in ret tt) w in
    (r, {| os_fs := os_fs w'; os_fds := delete fd (os_fds w'); os_next_fd := os_next_fd w'; os_script := os_script w';
           os_log := os_log w' |}).

(** [os.rename(src, dst, src_dir_fd=dir_fd, dst_dir_fd=dir_fd)]: two names of
    one inode are left alone, and a directory and a file do not replace each
    other. *)
Definition os_rename (src dst : string) (dir_fd : nat) : M Os unit :=
  path_arg src (path_arg dst (sys (fun _ _ =>
    let* dir := k_inode dir_fd in
    let* fs := gets fst in
    match locate fs dir src, locate fs dir dst with
    | Some (p1, n1), Some (p2, n2) =>
        match entries_of fs p1 ≫= lookup n1 with
        | None => k_fail FileNotFoundError
        | Some ino =>
            let is_dir i := bool_decide (is_Some (entries_of fs i)) in
            let move := k_set_fs (fun fs =>
              let fs1 := set_entries p1 (delete n1 (default ∅ (entries_of fs p1))) fs in
              set_entries p2 (<[n2 := ino]> (default ∅ (entries_of fs1 p2))) fs1) in
            match entries_of fs p2 ≫= lookup n2 with
            | Some ino' => if bool_decide (ino = ino') then ret tt else if is_dir ino || is_dir ino' then k_fail OSError else move
            | None => move
            end
        end
    | _, _ => k_fail FileNotFoundError
    end))).

Definition os_unlink (name : string) (dir_fd : nat) : M Os unit :=
  path_arg name (sys (fun _ _ =>
    let* dir := k_inode dir_fd in
    let* fs := gets fst in
    match locate fs dir name with
    | None => k_fail FileNotFoundError
    | Some (parent, last) =>
        match entries_of fs parent ≫= lookup last with
        | None => k_fail FileNotFoundError
        | Some ino =>
            if bool_decide (is_Some (entries_of fs ino)) then k_fail OSError
            else k_set_fs (fun fs => set_entries parent (delete last (default ∅ (entries_of fs parent))) fs)
        end
    end)).

(** [S_ISREG(os.fstat(fd).st_mode)] *)
Definition os_fstat_regular (fd : nat) : M Os bool :=
  sys (fun _ _ => let* ino := k_inode fd in gets (fun k => match fs_nodes k.1 !! ino with Some (NFile _) => true | _ => false end)).

Definition os_fstat_directory (fd : nat) : M Os bool :=
  sys (fun _ _ => let* ino := k_inode fd in gets (fun k => bool_decide (is_Some (entries_of k.1 ino)))).
(** File modes are not modelled. *)
Definition os_fchmod (fd : nat) : M Os unit := sys (fun _ _ => let* _ := k_inode fd in ret tt).

(** [os.read(fd, n)]: at most [n] bytes, none at the end of the file only. *)
Definition os_read (fd : nat) (n : nat) : M Os bytes :=
  sys (fun _ ev k =>
    match k.2 !! fd with
    | Some (ino, off) =>
        match fs_nodes k.1 !! ino with
        | Some (NFile data) =>
            let chunk := take (Nat.max 1 (Nat.min n (default n (ev_count ev)))) (drop off data) in
            (Ok chunk, (k.1, <[fd := (ino, off + length chunk)%nat]> k.2))
        | _ => (Raise OSError, k)
        end
    | None => (Raise OSError, k)
    end).
