(* ===== verification/FsLaws.v ===== *)
(** * Laws of the file tree

    How single-component names resolve, what each change of the tree does to
    the files that a store keeps two directories below its root ([file_at]),
    and the system calls as weakest preconditions for a process that is alone
    on the tree, whose calls may still fail. *)
From Stdlib Require Import Ascii Strings.Byte.
From S2P Require Import Prelude PyStr Wp PosixFs.

Definition nul : ascii := ascii_of_nat 0.
(** One component of a path, not one of the special ones. *)
Definition clean (n : string) : Prop :=
  str_in_char "/" n = false /\ str_in_char nul n = false /\ n <> "" /\ n <> "." /\ n <> "..".
(** Names that start with a dot are hidden: staging files are, artifacts are not. *)
Definition hidden (n : string) : bool := startswith "." n.

(** ** The tree as a relation *)

Definition is_dir (fs : Fs) (d : nat) : Prop := exists up es, fs_nodes fs !! d = Some (NDir up es).
Definition child (fs : Fs) (d : nat) (n : string) (i : nat) : Prop := exists es, entries_of fs d = Some es /\ es !! n = Some i.

Lemma child_fun fs d n i i' : child fs d n i -> child fs d n i' -> i = i'.
Proof. intros (es & E & H) (es' & E' & H'). congruence. Qed.
Lemma child_dir fs d n i : child fs d n i -> is_dir fs d.
Proof. intros (es & E & _). unfold entries_of in E. destruct (fs_nodes fs !! d) as [[up es'| |]|] eqn:Hd; try done. by exists up, es'. Qed.
Lemma is_dir_entries fs d : is_dir fs d <-> exists es, entries_of fs d = Some es.
Proof.
  unfold is_dir, entries_of. split; [intros (up & es & ->); eauto|]. intros (es & E). destruct (fs_nodes fs !! d) as [[up es'| |]|]; simplify_eq; eauto.
Qed.
Lemma file_not_dir fs i data : fs_nodes fs !! i = Some (NFile data) -> ~ is_dir fs i.
Proof. intros Hi (up & es & Hd). congruence. Qed.

Lemma clean_split n : clean n -> split_on "/" n = [n].
Proof. intros (H & _). by apply split_on_none. Qed.
Lemma clean_relative n : clean n -> startswith "/" n = false.
Proof.
  intros (H & _). destruct (startswith "/" n) eqn:E; [|done]. apply startswith_spec in E as [r ->].
  by rewrite append_cons in H.
Qed.

Lemma resolve_clean fs d n : clean n -> is_dir fs d -> resolve fs false d n =
  match entries_of fs d ≫= lookup n with Some i => if fs_nodes fs !! i is Some _ then Some i else None | None => None end.
Proof.
  intros Hc (up & es & Hd). pose proof Hc as (_ & _ & H1 & H2 & H3). unfold resolve.
  rewrite bool_decide_eq_false_2 by done. rewrite clean_relative, clean_split by done. unfold max_links. cbn [walk].
  unfold entries_of. rewrite Hd. rewrite !bool_decide_eq_false_2 by done. simpl.
  destruct (es !! n) as [i|]; [|done]. destruct (fs_nodes fs !! i) as [[| |]|]; done.
Qed.
Lemma locate_clean fs d n : clean n -> is_dir fs d -> locate fs d n = Some (d, n).
Proof.
  intros Hc Hd. pose proof Hc as (_ & _ & H1 & H2 & H3). unfold locate. rewrite clean_split by done. simpl.
  rewrite !bool_decide_eq_false_2 by done. simpl. rewrite clean_relative by done.
  destruct (proj1 (is_dir_entries fs d) Hd) as (es & ->). done.
Qed.

(** ** Well-formed trees

    Inode numbers are handed out once; a directory has one name. *)
Record wf_fs (fs : Fs) : Prop := {
  wf_fresh : forall i, fs_next fs <= i -> fs_nodes fs !! i = None;
  wf_linked : forall d n i, child fs d n i -> i < fs_next fs;
  wf_tree : forall d d' n n' i, child fs d n i -> child fs d' n' i -> is_dir fs i -> d = d' /\ n = n' }.

(** The file two directories below [root]. *)
Definition file_at (fs : Fs) (root : nat) (a b f : string) : option bytes :=
  d1 ← entries_of fs root ≫= lookup a;
  d2 ← entries_of fs d1 ≫= lookup b;
  i ← entries_of fs d2 ≫= lookup f;
  match fs_nodes fs !! i with Some (NFile data) => Some data | _ => None end.

Lemma file_at_some fs root a b f data : file_at fs root a b f = Some data <->
  exists d1 d2 i, child fs root a d1 /\ child fs d1 b d2 /\ child fs d2 f i /\ fs_nodes fs !! i = Some (NFile data).
Proof.
  unfold file_at, child. split.
  - destruct (entries_of fs root) as [e0|]; simpl; [|done]. destruct (e0 !! a) as [d1|] eqn:E1; simpl; [|done].
    destruct (entries_of fs d1) as [e1|] eqn:Hd1; simpl; [|done]. destruct (e1 !! b) as [d2|] eqn:E2; simpl; [|done].
    destruct (entries_of fs d2) as [e2|] eqn:Hd2; simpl; [|done]. destruct (e2 !! f) as [i|] eqn:E3; simpl; [|done].
    destruct (fs_nodes fs !! i) as [[|data'|]|] eqn:Hi; intros [= ->]. exists d1, d2, i. eauto 10.
  - intros (d1 & d2 & i & (e0 & E0 & H0) & (e1 & E1 & H1) & (e2 & E2 & H2) & Hi).
    rewrite E0. simpl. rewrite H0. simpl. rewrite E1. simpl. rewrite H1. simpl. rewrite E2. simpl. rewrite H2. simpl. by rewrite Hi.
Qed.

(** Two trees agree on the visible files. *)
Definition same_view (root : nat) (fs fs' : Fs) : Prop :=
  forall a b f, hidden f = false -> file_at fs' root a b f = file_at fs root a b f.
#[export] Instance same_view_pre root : PreOrder (same_view root).
Proof. split; [by intros fs a b f|]. intros fs1 fs2 fs3 H12 H23 a b f Hf. by rewrite H23, H12. Qed.

(** The files of [fs'] are those of [fs]: what has to be shown of a change. *)
Lemma same_view_intro root fs fs' :
  (forall a b f data, hidden f = false -> file_at fs root a b f = Some data -> file_at fs' root a b f = Some data) ->
  (forall a b f data, hidden f = false -> file_at fs' root a b f = Some data -> file_at fs root a b f = Some data) ->
  same_view root fs fs'.
Proof.
  intros H1 H2 a b f Hf. destruct (file_at fs root a b f) as [data|] eqn:E; [by apply H1|].
  destruct (file_at fs' root a b f) as [data|] eqn:E'; [|done]. apply H2 in E'; [congruence|done].
Qed.

(** ** Changes of the tree *)

Lemma entries_set_entries fs d es d' : is_dir fs d -> entries_of (set_entries d es fs) d' = if decide (d' = d) then Some es else entries_of fs d'.
Proof.
  intros (up & es0 & Hd). unfold set_entries, set_node, entries_of. rewrite Hd. simpl. case_decide as E.
  - subst. by rewrite lookup_insert_eq.
  - by rewrite lookup_insert_ne.
Qed.
Lemma file_set_entries fs d es i data : is_dir fs d ->
  fs_nodes (set_entries d es fs) !! i = Some (NFile data) <-> fs_nodes fs !! i = Some (NFile data).
Proof.
  intros (up & es0 & Hd). unfold set_entries, set_node. rewrite Hd. simpl. destruct (decide (i = d)) as [->|E].
  - by rewrite lookup_insert_eq, Hd.
  - by rewrite lookup_insert_ne.
Qed.
Lemma none_set_entries fs d es i : is_dir fs d -> fs_nodes (set_entries d es fs) !! i = None <-> fs_nodes fs !! i = None.
Proof.
  intros (up & es0 & Hd). unfold set_entries, set_node. rewrite Hd. simpl. destruct (decide (i = d)) as [->|E].
  - by rewrite lookup_insert_eq, Hd.
  - by rewrite lookup_insert_ne.
Qed.
Lemma next_set_entries fs d es : fs_next (set_entries d es fs) = fs_next fs.
Proof. unfold set_entries. by destruct (fs_nodes fs !! d) as [[| |]|]. Qed.
Lemma dir_set_entries fs d es i : is_dir fs d -> is_dir (set_entries d es fs) i <-> is_dir fs i.
Proof.
  intros Hd. rewrite !is_dir_entries. setoid_rewrite (entries_set_entries fs d es i Hd). case_decide as E; [subst i|done].
  apply is_dir_entries in Hd. split; eauto.
Qed.

(** *** A new inode *)

Section LinkNew.
Context (fs : Fs) (D : nat) (name : string) (n : node).
Context (Hwf : wf_fs fs) (Hdir : is_dir fs D) (Habsent : forall i, ~ child fs D name i).
Context (Hempty : match n with NDir _ es => es = ∅ | _ => True end).
Let new := fs_next fs.
Let fs' := link_new D name n fs.

Lemma new_fresh : fs_nodes fs !! new = None.
Proof. by apply wf_fresh. Qed.
Lemma new_not_D : new <> D.
Proof. intros E. destruct Hdir as (up & es & Hd). pose proof new_fresh. congruence. Qed.

Lemma link_new_nodes i : fs_nodes fs' !! i = if decide (i = new) then Some n else fs_nodes (set_entries D (<[name := new]> (default ∅ (entries_of fs D))) fs) !! i.
Proof.
  unfold fs', link_new. destruct Hdir as (up & es & Hd). unfold entries_of, set_entries, set_node. rewrite Hd. simpl. fold new.
  rewrite lookup_insert_ne by apply new_not_D. rewrite Hd. simpl. case_decide as Ei; [subst i|].
  - rewrite lookup_insert_ne by (apply not_eq_sym, new_not_D). by rewrite lookup_insert_eq.
  - destruct (decide (i = D)) as [->|E].
    + by rewrite !lookup_insert_eq.
    + by rewrite !lookup_insert_ne.
Qed.
Lemma link_new_next : fs_next fs' = S new.
Proof. unfold fs', link_new. destruct (entries_of fs D); [by rewrite next_set_entries|done]. Qed.

Lemma link_new_child d m i : child fs' d m i <-> child fs d m i \/ d = D /\ m = name /\ i = new.
Proof.
  unfold child. assert (entries_of fs' d = if decide (d = new) then match n with NDir _ es => Some es | _ => None end else
    entries_of (set_entries D (<[name := new]> (default ∅ (entries_of fs D))) fs) d) as ->.
  { unfold entries_of at 1. rewrite link_new_nodes. by case_decide. }
  destruct (proj1 (is_dir_entries fs D) Hdir) as (es & E).
  case_decide as Hd; [subst d|rewrite entries_set_entries, E by done; simpl; case_decide as Hd'; [subst d|]].
  - split.
    + intros (es' & E' & Hm). destruct n as [up es0| |]; [|done|done]. injection E' as <-. simpl in Hempty. rewrite Hempty in Hm. by rewrite lookup_empty in Hm.
    + intros [(es' & E' & _)|(Ed & _)]; [|by apply new_not_D in Ed]. unfold entries_of in E'. by rewrite new_fresh in E'.
  - rewrite E. split.
    + intros (es' & [= <-] & Hm). destruct (decide (m = name)) as [->|Hne].
      * right. rewrite lookup_insert_eq in Hm. by simplify_eq.
      * left. rewrite lookup_insert_ne in Hm by done. eauto.
    + intros [(es' & [= <-] & Hm)|(_ & -> & ->)]; eexists; (split; [done|]); [|by rewrite lookup_insert_eq].
      rewrite lookup_insert_ne; [done|]. intros ->. apply (Habsent i). exists es. done.
  - split; [eauto|]. intros [?|(-> & _)]; [done|done].
Qed.

Lemma link_new_file i data : fs_nodes fs' !! i = Some (NFile data) <-> fs_nodes fs !! i = Some (NFile data) \/ i = new /\ n = NFile data.
Proof.
  rewrite link_new_nodes. case_decide as E.
  - subst. rewrite new_fresh. split; [intros [= ->]; by right|]. intros [?|[_ ->]]; done.
  - rewrite file_set_entries by done. split; [by left|]. intros [?|[? _]]; done.
Qed.

Lemma link_new_dir i : is_dir fs' i <-> is_dir fs i \/ i = new /\ exists up, n = NDir up ∅.
Proof.
  unfold is_dir at 1. setoid_rewrite link_new_nodes. case_decide as E.
  - subst i. split; [intros (up & es & [= ->]); simpl in Hempty; subst; eauto|]. intros [(up & es & Hd)|(_ & up & ->)]; [|eauto].
    by rewrite new_fresh in Hd.
  - change (is_dir (set_entries D (<[name := new]> (default ∅ (entries_of fs D))) fs) i <-> is_dir fs i \/ i = new /\ exists up, n = NDir up ∅).
    rewrite dir_set_entries by done. split; [by left|]. intros [?|[? _]]; done.
Qed.

Lemma link_new_wf : wf_fs fs'.
Proof.
  split.
  - intros i. rewrite link_new_next, link_new_nodes. intros Hi. rewrite decide_False by lia. rewrite none_set_entries by done.
    apply (wf_fresh _ Hwf). unfold new in Hi. lia.
  - intros d m i. rewrite link_new_child, link_new_next. intros [Hc|(_ & _ & ->)]; [|lia]. apply (wf_linked _ Hwf) in Hc. unfold new. lia.
  - intros d d' m m' i. rewrite !link_new_child, link_new_dir.
    assert (forall d m, ~ child fs d m new) as Hno by (intros d0 m0 Hc; apply (wf_linked _ Hwf) in Hc; unfold new in Hc; lia).
    intros [H1|(-> & -> & ->)] [H2|(E1 & E2 & E3)]; subst; try by (exfalso; eapply Hno).
    + intros [Hd|[-> _]]; [by apply (wf_tree _ Hwf d d' m m' i)|]. by destruct (Hno d m).
    + done.
Qed.

Lemma link_new_view root : (forall data, n = NFile data -> hidden name = true) -> same_view root fs fs'.
Proof.
  intros Hhid. assert (forall m i, ~ child fs new m i) as Hnone by (intros m i Hc%child_dir; destruct Hc as (? & ? & Hc); by rewrite new_fresh in Hc).
  apply same_view_intro; intros a b f data Hf (d1 & d2 & i & H1 & H2 & H3 & H4)%file_at_some; apply file_at_some.
  - exists d1, d2, i. rewrite !link_new_child, link_new_file. auto.
  - rewrite link_new_child in H1, H2, H3. rewrite link_new_file in H4.
    assert (d1 <> new) as N1 by (intros ->; destruct H2 as [H2|(E & _)]; [by apply Hnone in H2|by apply new_not_D in E]).
    assert (d2 <> new) as N2 by (intros ->; destruct H3 as [H3|(E & _)]; [by apply Hnone in H3|by apply new_not_D in E]).
    destruct H1 as [H1|(_ & _ & ?)]; [|done]. destruct H2 as [H2|(_ & _ & ?)]; [|done].
    destruct H3 as [H3|(-> & -> & ->)].
    + exists d1, d2, i. split_and!; try done. destruct H4 as [?|[-> _]]; [done|].
      apply (wf_linked _ Hwf) in H3. unfold new in H3. lia.
    + destruct H4 as [H4|[_ H4]]; [by rewrite new_fresh in H4|]. apply Hhid in H4. congruence.
Qed.
End LinkNew.

(** *** The bytes of a file *)

Section SetFile.
Context (fs : Fs) (own : nat) (old new : bytes) (Hwf : wf_fs fs) (Hown : fs_nodes fs !! own = Some (NFile old)).
Let fs' := set_node own (NFile new) fs.

Lemma set_file_entries d : entries_of fs' d = entries_of fs d.
Proof.
  unfold fs', set_node, entries_of. simpl. destruct (decide (d = own)) as [->|E]; [by rewrite lookup_insert_eq, Hown|].
  by rewrite lookup_insert_ne.
Qed.
Lemma set_file_child d m i : child fs' d m i <-> child fs d m i.
Proof. unfold child. by rewrite set_file_entries. Qed.
Lemma set_file_dir d : is_dir fs' d <-> is_dir fs d.
Proof. rewrite !is_dir_entries. by rewrite set_file_entries. Qed.
Lemma set_file_wf : wf_fs fs'.
Proof.
  split.
  - intros i Hi. unfold fs', set_node. simpl. rewrite lookup_insert_ne; [by apply (wf_fresh _ Hwf)|]. intros ->.
    rewrite (wf_fresh _ Hwf i) in Hown by done. done.
  - intros d m i. rewrite set_file_child. apply (wf_linked _ Hwf).
  - intros d d' m m' i. rewrite !set_file_child, set_file_dir. apply (wf_tree _ Hwf).
Qed.
Lemma set_file_view root : (forall d m, child fs d m own -> hidden m = true) -> same_view root fs fs'.
Proof.
  intros Hhid. apply same_view_intro; intros a b f data Hf (d1 & d2 & i & H1 & H2 & H3 & H4)%file_at_some; apply file_at_some;
    exists d1, d2, i; rewrite ?set_file_child in *; (split_and!; try done).
  - unfold fs', set_node. simpl. rewrite lookup_insert_ne; [done|]. intros <-. apply Hhid in H3. congruence.
  - unfold fs', set_node in H4. simpl in H4. rewrite lookup_insert_ne in H4; [done|]. intros <-. apply Hhid in H3. congruence.
Qed.
End SetFile.

(** *** A name is removed *)

Section Unlink.
Context (fs : Fs) (D : nat) (name : string) (i0 : nat) (Hwf : wf_fs fs) (Hname : child fs D name i0) (Hfile : ~ is_dir fs i0).
Let fs' := set_entries D (delete name (default ∅ (entries_of fs D))) fs.

Lemma unlink_child d m i : child fs' d m i <-> child fs d m i /\ ~ (d = D /\ m = name).
Proof.
  pose proof (child_dir _ _ _ _ Hname) as Hd. unfold child, fs'. rewrite entries_set_entries by done.
  destruct Hname as (es & E & _). case_decide as Ed; [subst d|naive_solver]. rewrite E. simpl. split.
  - intros (es' & [= <-] & Hm). destruct (decide (m = name)) as [->|Hne]; [by rewrite lookup_delete_eq in Hm|].
    rewrite lookup_delete_ne in Hm by done. naive_solver.
  - intros [(es' & [= <-] & Hm) Hno]. eexists. split; [done|]. rewrite lookup_delete_ne; naive_solver.
Qed.
Lemma unlink_wf : wf_fs fs'.
Proof.
  pose proof (child_dir _ _ _ _ Hname) as Hd. split.
  - intros i. unfold fs'. rewrite next_set_entries, none_set_entries by done. apply (wf_fresh _ Hwf).
  - intros d m i. rewrite unlink_child. unfold fs'. rewrite next_set_entries. intros [Hc _]. by apply (wf_linked _ Hwf) in Hc.
  - intros d d' m m' i. rewrite !unlink_child. unfold fs'. rewrite dir_set_entries by done. intros [? _] [? _]. by eapply (wf_tree _ Hwf).
Qed.
Lemma unlink_file i data : fs_nodes fs' !! i = Some (NFile data) <-> fs_nodes fs !! i = Some (NFile data).
Proof. apply file_set_entries. by eapply child_dir. Qed.
Lemma unlink_view root : hidden name = true -> same_view root fs fs'.
Proof.
  intros Hhid. pose proof (child_dir _ _ _ _ Hname) as Hd.
  apply same_view_intro; intros a b f data Hf (d1 & d2 & i & H1 & H2 & H3 & H4)%file_at_some; apply file_at_some;
    exists d1, d2, i.
  2: { rewrite unlink_child in H1, H2, H3. rewrite unlink_file in H4. by destruct H1, H2, H3. }
  rewrite !unlink_child, unlink_file. split_and!; try done.
  - intros [-> ->]. apply Hfile. rewrite (child_fun _ _ _ _ _ Hname H1). by eapply child_dir.
  - intros [-> ->]. apply Hfile. rewrite (child_fun _ _ _ _ _ Hname H2). by eapply child_dir.
  - intros [-> ->]. congruence.
Qed.
End Unlink.

(** *** A file is renamed in its directory *)

Definition renamed (fs : Fs) (D : nat) (src dst : string) (ino : nat) : Fs :=
  let fs1 := set_entries D (delete src (default ∅ (entries_of fs D))) fs in
  set_entries D (<[dst := ino]> (default ∅ (entries_of fs1 D))) fs1.

Section Rename.
Context (fs : Fs) (D : nat) (src dst : string) (ino : nat) (data : bytes).
Context (Hwf : wf_fs fs) (Hsrc : child fs D src ino) (Hino : fs_nodes fs !! ino = Some (NFile data)).
Context (Hdst : forall i, child fs D dst i -> ~ is_dir fs i) (Hne : src <> dst).
Let fs1 := set_entries D (delete src (default ∅ (entries_of fs D))) fs.
Let fs' := renamed fs D src dst ino.

Lemma rename_file i x : fs_nodes fs' !! i = Some (NFile x) <-> fs_nodes fs !! i = Some (NFile x).
Proof.
  pose proof (child_dir _ _ _ _ Hsrc) as Hd. unfold fs', renamed. rewrite file_set_entries by (by apply dir_set_entries).
  by rewrite file_set_entries.
Qed.
Lemma rename_child d m i : child fs' d m i <->
  d = D /\ m = dst /\ i = ino \/ child fs d m i /\ ~ (d = D /\ (m = src \/ m = dst)).
Proof.
  pose proof (child_dir _ _ _ _ Hsrc) as Hd. assert (is_dir fs1 D) as Hd1 by (by apply dir_set_entries).
  pose proof Hsrc as (es & E & Es).
  assert (forall d, entries_of fs1 d = if decide (d = D) then Some (delete src es) else entries_of fs d) as E1.
  { intros d0. unfold fs1. rewrite entries_set_entries by done. by rewrite E. }
  unfold child, fs', renamed. fold fs1. rewrite entries_set_entries by done. rewrite !E1. rewrite (decide_True (P := D = D)) by done. simpl.
  case_decide as Ed; [subst d|naive_solver]. rewrite E. split.
  - intros (es' & [= <-] & Hm). destruct (decide (m = dst)) as [->|Hm1]; [rewrite lookup_insert_eq in Hm; naive_solver|].
    rewrite lookup_insert_ne in Hm by done. destruct (decide (m = src)) as [->|Hm2]; [by rewrite lookup_delete_eq in Hm|].
    rewrite lookup_delete_ne in Hm by done. naive_solver.
  - intros [(_ & -> & ->)|[(es' & [= <-] & Hm) Hno]]; eexists; (split; [done|]); [by rewrite lookup_insert_eq|].
    rewrite lookup_insert_ne, lookup_delete_ne; naive_solver.
Qed.
Lemma rename_dir i : is_dir fs' i <-> is_dir fs i.
Proof.
  pose proof (child_dir _ _ _ _ Hsrc) as Hd. unfold fs', renamed. rewrite dir_set_entries by (by apply dir_set_entries). by apply dir_set_entries.
Qed.
Lemma rename_wf : wf_fs fs'.
Proof.
  pose proof (child_dir _ _ _ _ Hsrc) as Hd. split.
  - intros i. unfold fs', renamed. rewrite next_set_entries, none_set_entries by (by apply dir_set_entries).
    rewrite next_set_entries, none_set_entries by done. apply (wf_fresh _ Hwf).
  - intros d m i. rewrite rename_child. unfold fs', renamed. rewrite !next_set_entries. intros [(-> & -> & ->)|[Hc _]]; by eapply (wf_linked _ Hwf).
  - intros d d' m m' i. rewrite !rename_child, rename_dir. pose proof (file_not_dir _ _ _ Hino) as Hnd.
    intros [(-> & -> & E)|[H1 _]] [(-> & -> & E')|[H2 _]] Hi; [done|by subst i|by subst i|by apply (wf_tree _ Hwf _ _ _ _ i)].
Qed.
(** The file appears under its new name, and nothing else changes. *)
Lemma rename_view root a b d1 : hidden src = true -> child fs root a d1 -> child fs d1 b D ->
  forall a' b' f, hidden f = false ->
    file_at fs' root a' b' f = if decide ((a', b', f) = (a, b, dst)) then Some data else file_at fs root a' b' f.
Proof.
  intros Hhid Ha Hb a' b' f Hf. pose proof (child_dir _ _ _ _ Hsrc) as Hd.
  assert (forall d m i, child fs d m i -> is_dir fs i -> child fs' d m i) as Hdirs.
  { intros d m i Hc Hi. apply rename_child. right. split; [done|]. intros [-> [-> | ->]].
    - rewrite (child_fun _ _ _ _ _ Hc Hsrc) in Hi. by eapply file_not_dir.
    - by apply (Hdst i). }
  assert (forall d m i, child fs' d m i -> is_dir fs i -> child fs d m i) as Hdirs'.
  { intros d m i [(-> & -> & ->)|[Hc _]]%rename_child Hi; [|done]. by apply (file_not_dir _ _ _ Hino) in Hi. }
  assert (forall x, file_at fs' root a' b' f = Some x <->
    (a', b', f) = (a, b, dst) /\ x = data \/ (a', b', f) <> (a, b, dst) /\ file_at fs root a' b' f = Some x) as Hall.
  { intros x. rewrite !file_at_some. split.
    - intros (e1 & e2 & i & H1 & H2 & H3 & H4). rewrite rename_file in H4.
      apply Hdirs' in H1; [|by apply rename_dir; eapply child_dir]. apply Hdirs' in H2; [|by apply rename_dir; eapply child_dir].
      apply rename_child in H3 as [(-> & -> & ->)|[H3 Hno]].
      + left. destruct (wf_tree _ Hwf _ _ _ _ _ H2 Hb Hd) as [-> ->].
        destruct (wf_tree _ Hwf _ _ _ _ _ H1 Ha (child_dir _ _ _ _ Hb)) as [_ ->]. split; [done|congruence].
      + right. split; [|by exists e1, e2, i]. intros [= -> -> ->]. apply Hno.
        rewrite (child_fun _ _ _ _ _ H1 Ha) in H2. rewrite (child_fun _ _ _ _ _ H2 Hb). auto.
    - intros [([= -> -> ->] & ->)|(Hne' & e1 & e2 & i & H1 & H2 & H3 & H4)].
      + exists d1, D, ino. split_and!; [by apply Hdirs; [|eapply child_dir]|by apply Hdirs|apply rename_child; auto|by rewrite rename_file].
      + exists e1, e2, i. split_and!; [by apply Hdirs; [|eapply child_dir]|by apply Hdirs; [|eapply child_dir]| |by rewrite rename_file].
        apply rename_child. right. split; [done|]. intros [-> [-> | ->]]; [congruence|]. apply Hne'.
        destruct (wf_tree _ Hwf _ _ _ _ _ H2 Hb Hd) as [-> ->].
        by destruct (wf_tree _ Hwf _ _ _ _ _ H1 Ha (child_dir _ _ _ _ Hb)) as [_ ->]. }
  apply option_eq. intros x. rewrite Hall. case_decide as E; [|naive_solver]. split; [intros [[_ ->]|[? _]]; done|]. intros [= <-]. by left.
Qed.
End Rename.

(** ** System calls of a process alone on the tree *)

Definition undisturbed (ev : event) : Prop := forall fs, ev_before ev fs = fs.
Record os_ok (w : Os) : Prop := {
  ok_alone : Forall undisturbed (os_script w);
  ok_wf : wf_fs (os_fs w);
  ok_fds : forall fd, os_next_fd w <= fd -> os_fds w !! fd = None }.
Definition fd_is (w : Os) (fd ino : nat) : Prop := exists off, os_fds w !! fd = Some (ino, off).
(** Nothing that matters has changed. *)
Definition idle (w w' : Os) : Prop := os_ok w' /\ os_fs w' = os_fs w /\ os_fds w' = os_fds w.

Lemma wp_sys {A} (act : nat -> event -> K A) Q w : os_ok w ->
  (forall w', idle w w' -> Q (Raise OSError) w') ->
  (forall ev r fs' fds' w', act (os_next_fd w) ev (os_fs w, os_fds w) = (r, (fs', fds')) ->
     Forall undisturbed (os_script w') -> os_fs w' = fs' -> os_fds w' = fds' -> os_next_fd w' = S (os_next_fd w) -> Q r w') ->
  wp (sys act) Q w.
Proof.
  intros [Ha Hwf Hfd] Hfail Hrun. unfold wp, sys. set (ev := default quiet_event (head (os_script w))).
  assert (undisturbed ev) as Hev by (subst ev; destruct (os_script w); [by intros fs|by apply Forall_cons in Ha as [? _]]).
  assert (Forall undisturbed (tail (os_script w))) as Ht by (destruct (os_script w); [done|by apply Forall_cons in Ha as [_ ?]]).
  rewrite Hev. destruct (ev_fails ev); simpl.
  - apply Hfail. split; [|done]. split; simpl; [done|done|]. intros fd Hle. apply Hfd. lia.
  - destruct (act _ _ _) as [r [fs' fds']] eqn:E. simpl. by eapply Hrun.
Qed.

(** A call that only looks at the tree. *)
Lemma wp_look {A} (act : nat -> event -> K A) (P : A -> Prop) Q w : os_ok w ->
  (forall n ev, let '(r, k) := act n ev (os_fs w, os_fds w) in k = (os_fs w, os_fds w) /\
     match r with Ok a => P a | Raise e => subclass_os_error e = true end) ->
  (forall w' e, idle w w' -> subclass_os_error e = true -> Q (Raise e) w') -> (forall w' a, idle w w' -> P a -> Q (Ok a) w') ->
  wp (sys act) Q w.
Proof.
  intros Hok Hact Hbad Hgood. apply wp_sys; [done|by intros; apply Hbad|]. intros ev r fs' fds' w' E Ha Hf Hd Hn.
  specialize (Hact (os_next_fd w) ev). rewrite E in Hact. destruct Hact as [[= -> ->] Hr].
  assert (idle w w') as Hidle.
  { split; [|done]. destruct Hok as [_ Hwf Hfd]. split; [done|by rewrite Hf|]. intros fd Hle. rewrite Hd. apply Hfd. lia. }
  destruct r; [by apply Hgood|by apply Hbad].
Qed.

Lemma wp_path {A} path (m : M Os A) Q w : clean path -> wp m Q w -> wp (path_arg path m) Q w.
Proof. intros (_ & Hn & _). unfold path_arg. fold nul. by rewrite Hn. Qed.

Lemma k_inode_is fd ino off k : k.2 !! fd = Some (ino, off) -> k_inode fd k = (Ok ino, k).
Proof. unfold k_inode. by intros ->. Qed.
(** The common start of the calls relative to a directory. *)
Lemma k_dir {A} fd ino off (f : nat -> Fs -> K A) fs fds : fds !! fd = Some (ino, off) ->
  bind (k_inode fd) (fun dir => bind (gets fst) (fun fs => f dir fs)) (fs, fds) = f ino fs (fs, fds).
Proof. intros E. unfold bind, k_inode, gets. simpl. by rewrite E. Qed.

(** The result of a call that changes the tree to [fs'] and the descriptors to
    [fds'], or fails and changes nothing. *)
Lemma wp_change {A} (act : nat -> event -> K A) a fs' fds' (C : Prop) Q w : os_ok w ->
  (forall n ev, n = os_next_fd w -> (exists e, subclass_os_error e = true /\ act n ev (os_fs w, os_fds w) = (Raise e, (os_fs w, os_fds w))) \/
     C /\ act n ev (os_fs w, os_fds w) = (Ok a, (fs', fds'))) ->
  (C -> wf_fs fs') -> (forall fd, S (os_next_fd w) <= fd -> fds' !! fd = None) ->
  (forall w' e, idle w w' -> subclass_os_error e = true -> Q (Raise e) w') ->
  (forall w', C -> os_ok w' -> os_fs w' = fs' -> os_fds w' = fds' -> Q (Ok a) w') -> wp (sys act) Q w.
Proof.
  intros Hok Hact Hwf' Hfd' Hbad Hgood. apply wp_sys; [done|by intros; apply Hbad|]. intros ev r fs1 fds1 w' E Ha Hf Hd Hn.
  destruct (Hact (os_next_fd w) ev eq_refl) as [(e & He & E')|[HC E']]; rewrite E' in E; injection E as <- <- <-.
  - apply Hbad; [|done]. split; [|done]. destruct Hok as [_ Hwf Hfd]. split; [done|by rewrite Hf|]. intros fd Hle. rewrite Hd. apply Hfd. lia.
  - apply Hgood; try done. split; [done|rewrite Hf; by apply Hwf'|]. intros fd Hle. rewrite Hd. apply Hfd'. lia.
Qed.

Lemma fds_insert w fd p : os_ok w -> is_Some (os_fds w !! fd) \/ fd = os_next_fd w ->
  forall fd', S (os_next_fd w) <= fd' -> <[fd := p]> (os_fds w) !! fd' = None.
Proof.
  intros Hok Hfd fd' Hle. rewrite lookup_insert_ne; [apply (ok_fds _ Hok); lia|]. intros <-.
  destruct Hfd as [[x Hx]| ->]; [|lia]. rewrite (ok_fds _ Hok) in Hx by lia. done.
Qed.

Lemma no_child fs D n : is_dir fs D -> entries_of fs D ≫= lookup n = None -> forall i, ~ child fs D n i.
Proof. intros Hd E i (es & Hes & Hi). rewrite Hes in E. simpl in E. congruence. Qed.
Lemma some_child fs D n i : entries_of fs D ≫= lookup n = Some i -> child fs D n i.
Proof. destruct (entries_of fs D) as [es|] eqn:E; simpl; [|done]. intros ?. by exists es. Qed.

(** The call raises an [OSError]. *)
Ltac raises := left; eexists; split; [|reflexivity]; reflexivity.

Lemma wp_mkdir name dfd D Q w : os_ok w -> fd_is w dfd D -> is_dir (os_fs w) D -> clean name ->
  (forall w' e, idle w w' -> subclass_os_error e = true -> Q (Raise e) w') ->
  (forall w', (forall i, ~ child (os_fs w) D name i) -> os_ok w' -> os_fs w' = link_new D name (NDir D ∅) (os_fs w) ->
     os_fds w' = os_fds w -> Q (Ok tt) w') ->
  wp (os_mkdir name dfd) Q w.
Proof.
  intros Hok [off Hd] Hdir Hc Hbad Hgood. apply wp_path; [done|].
  eapply (wp_change _ tt (link_new D name (NDir D ∅) (os_fs w)) (os_fds w) (forall i, ~ child (os_fs w) D name i)); [done| | | |done|done].
  - intros n ev _. rewrite (k_dir dfd D off) by done. rewrite locate_clean by done.
    destruct (entries_of (os_fs w) D ≫= lookup name) as [i|] eqn:E; [raises|].
    right. split; [by apply no_child|done].
  - intros Hno. apply link_new_wf; by try apply ok_wf.
  - intros fd Hle. apply (ok_fds _ Hok). lia.
Qed.

Lemma wp_open directory name dfd D Q w : os_ok w -> fd_is w dfd D -> is_dir (os_fs w) D -> clean name ->
  (forall w' e, idle w w' -> subclass_os_error e = true -> Q (Raise e) w') ->
  (forall w' i, child (os_fs w) D name i -> (directory = true -> is_dir (os_fs w) i) -> os_ok w' -> os_fs w' = os_fs w ->
     os_fds w' = <[os_next_fd w := (i, 0)]> (os_fds w) -> Q (Ok (os_next_fd w)) w') ->
  wp (os_open_nofollow directory name dfd) Q w.
Proof.
  intros Hok [off Hd] Hdir Hc Hbad Hgood. apply wp_path; [done|].
  destruct (entries_of (os_fs w) D ≫= lookup name) as [i|] eqn:E.
  2: { eapply (wp_look _ (fun _ => False)); [done| |done|done]. intros n ev. rewrite (k_dir dfd D off) by done. by rewrite resolve_clean, E by done. }
  eapply (wp_change _ (os_next_fd w) (os_fs w) (<[os_next_fd w := (i, 0)]> (os_fds w)) (directory = true -> is_dir (os_fs w) i));
    [done| | | |done|].
  - intros n ev ->. rewrite (k_dir dfd D off) by done.
    rewrite resolve_clean, E by done. destruct (fs_nodes (os_fs w) !! i) as [[up es|data|target]|] eqn:Hi; try rewrite Hi; [| |raises|raises].
    + right. split; [|done]. intros _. by exists up, es.
    + destruct directory; [raises|right; done].
  - intros _. apply (ok_wf _ Hok).
  - by apply fds_insert; [|right].
  - intros w' HC Hok' Hf Hd'. apply (Hgood w' i); try done. by apply some_child.
Qed.

Lemma wp_open_new name dfd D Q w : os_ok w -> fd_is w dfd D -> is_dir (os_fs w) D -> clean name ->
  (forall w' e, idle w w' -> subclass_os_error e = true -> Q (Raise e) w') ->
  (forall w', (forall i, ~ child (os_fs w) D name i) -> os_ok w' -> os_fs w' = link_new D name (NFile []) (os_fs w) ->
     os_fds w' = <[os_next_fd w := (fs_next (os_fs w), 0)]> (os_fds w) -> Q (Ok (os_next_fd w)) w') ->
  wp (os_open_new name dfd) Q w.
Proof.
  intros Hok [off Hd] Hdir Hc Hbad Hgood. apply wp_path; [done|].
  eapply (wp_change _ (os_next_fd w) (link_new D name (NFile []) (os_fs w)) (<[os_next_fd w := (fs_next (os_fs w), 0)]> (os_fds w))
    (forall i, ~ child (os_fs w) D name i)); [done| | | |done|done].
  - intros n ev ->. rewrite (k_dir dfd D off) by done. rewrite locate_clean by done.
    destruct (entries_of (os_fs w) D ≫= lookup name) as [i|] eqn:E; [raises|].
    right. split; [by apply no_child|done].
  - intros Hno. apply link_new_wf; by try apply ok_wf.
  - by apply fds_insert; [|right].
Qed.

Lemma wp_write fd data ino off old Q w : os_ok w -> os_fds w !! fd = Some (ino, off) -> fs_nodes (os_fs w) !! ino = Some (NFile old) ->
  (forall w' e, idle w w' -> subclass_os_error e = true -> Q (Raise e) w') ->
  (forall w' out rest, data = out ++ rest -> os_ok w' -> os_fs w' = set_node ino (NFile (overwrite old off out)) (os_fs w) ->
     os_fds w' = <[fd := (ino, off + length out)]> (os_fds w) -> Q (Ok (length out)) w') ->
  wp (os_write fd data) Q w.
Proof.
  intros Hok Hfd Hino Hbad Hgood. apply wp_sys; [done|by intros; apply Hbad|]. intros ev r fs' fds' w' E Ha Hf Hd Hn.
  simpl in E. rewrite Hfd, Hino in E. injection E as <- <- <-. eapply Hgood; [symmetry; apply take_drop| |done|done].
  split; [done|rewrite Hf; exact (set_file_wf _ _ _ _ (ok_wf _ Hok) Hino)|]. intros fd' Hle. rewrite Hd. apply fds_insert; [done|by left; eexists|lia].
Qed.

Lemma wp_fsync fd Q w : os_ok w ->
  (forall w' e, idle w w' -> subclass_os_error e = true -> Q (Raise e) w') -> (forall w', idle w w' -> Q (Ok tt) w') -> wp (os_fsync fd) Q w.
Proof.
  intros Hok Hbad Hgood. apply (wp_look _ (fun _ => True)); [done| |done|intros w' [] Hi _; by apply Hgood]. intros n ev.
  unfold bind, k_inode. simpl. by destruct (os_fds w !! fd) as [[i off]|].
Qed.

Lemma wp_close fd Q w : os_ok w ->
  (forall r w', os_ok w' -> os_fs w' = os_fs w -> os_fds w' = delete fd (os_fds w) ->
     match r with Ok _ => True | Raise e => subclass_os_error e = true end -> Q r w') -> wp (os_close fd) Q w.
Proof.
  intros Hok HQ. unfold os_close. pose proof (wp_fsync fd (fun r w' => idle w w' /\ match r with Ok _ => True | Raise e => subclass_os_error e = true end) w Hok) as Hwp.
  unfold wp in *. unfold os_fsync in Hwp. destruct (sys _ w) as [r w'] eqn:E. simpl in *.
  destruct Hwp as [(Hok' & Hf & Hd) Hr]; [done|done|]. apply HQ; simpl; [|done|by rewrite Hd|done].
  split; simpl; [apply (ok_alone _ Hok')|apply (ok_wf _ Hok')|]. intros fd' Hle. rewrite lookup_delete_None. right. by apply (ok_fds _ Hok').
Qed.

Lemma wp_rename src dst dfd D ino data Q w : os_ok w -> fd_is w dfd D -> child (os_fs w) D src ino ->
  fs_nodes (os_fs w) !! ino = Some (NFile data) -> clean src -> clean dst -> ~ child (os_fs w) D dst ino ->
  (forall w' e, idle w w' -> subclass_os_error e = true -> Q (Raise e) w') ->
  (forall w', (forall i, child (os_fs w) D dst i -> ~ is_dir (os_fs w) i) -> os_ok w' ->
     os_fs w' = renamed (os_fs w) D src dst ino ->
     os_fds w' = os_fds w -> Q (Ok tt) w') ->
  wp (os_rename src dst dfd) Q w.
Proof.
  intros Hok [off Hd] Hsrc Hino Hcs Hcd Hno Hbad Hgood. pose proof (child_dir _ _ _ _ Hsrc) as Hdir.
  assert (src <> dst) as Hne by (by intros ->).
  apply wp_path; [done|]. apply wp_path; [done|].
  eapply (wp_change _ tt (renamed (os_fs w) D src dst ino) (os_fds w) (forall i, child (os_fs w) D dst i -> ~ is_dir (os_fs w) i)); [done| | | |done|done].
  - intros n ev _. rewrite (k_dir dfd D off) by done. rewrite !locate_clean by done.
    destruct Hsrc as (es & Es & Hs). rewrite Es. simpl. rewrite Hs.
    assert (is_Some (entries_of (os_fs w) ino) <-> False) as Hnd by (unfold entries_of; rewrite Hino; split; [by intros [? ?]|done]).
    destruct (es !! dst) as [i|] eqn:Edst.
    + rewrite bool_decide_eq_false_2 by (intros ->; apply Hno; by exists es). rewrite (bool_decide_eq_false_2 (is_Some (entries_of _ ino))) by tauto. simpl.
      case_bool_decide as Hi; [raises|]. right. split; [|reflexivity].
      intros i' (es' & Es' & Hi') (es'' & E'')%is_dir_entries. apply Hi. assert (i' = i) as -> by congruence. by exists es''.
    + right. split; [|reflexivity]. intros i' (es' & Es' & Hi'). congruence.
  - intros Hdst. exact (rename_wf _ _ _ _ _ _ (ok_wf _ Hok) Hsrc Hino Hdst Hne).
  - intros fd Hle. apply (ok_fds _ Hok). lia.
Qed.

Lemma wp_unlink name dfd D Q w : os_ok w -> fd_is w dfd D -> is_dir (os_fs w) D -> clean name ->
  (forall w' e, idle w w' -> subclass_os_error e = true -> Q (Raise e) w') ->
  (forall w' ino, child (os_fs w) D name ino -> ~ is_dir (os_fs w) ino -> os_ok w' ->
     os_fs w' = set_entries D (delete name (default ∅ (entries_of (os_fs w) D))) (os_fs w) ->
     os_fds w' = os_fds w -> Q (Ok tt) w') ->
  wp (os_unlink name dfd) Q w.
Proof.
  intros Hok [off Hd] Hdir Hc Hbad Hgood. apply wp_path; [done|].
  destruct (entries_of (os_fs w) D ≫= lookup name) as [ino|] eqn:E.
  2: { eapply (wp_look _ (fun _ => False)); [done| |done|done]. intros n ev. rewrite (k_dir dfd D off) by done.
       by rewrite locate_clean, E by done. }
  pose proof (some_child _ _ _ _ E) as Hch.
  eapply (wp_change _ tt (set_entries D (delete name (default ∅ (entries_of (os_fs w) D))) (os_fs w)) (os_fds w) (~ is_dir (os_fs w) ino));
    [done| | | |done|].
  - intros n ev _. rewrite (k_dir dfd D off) by done. rewrite locate_clean, E by done.
    case_bool_decide as Hi; [raises|]. right. split; [|done]. intros Hdi. apply Hi. by apply is_dir_entries.
  - intros Hnd. exact (unlink_wf _ _ _ _ (ok_wf _ Hok) Hch).
  - intros fd Hle. apply (ok_fds _ Hok). lia.
  - intros w' Hnd Hok' Hf Hds. by apply (Hgood w' ino).
Qed.

(** ** Directories stay *)

Definition keeps_dirs (fs fs' : Fs) : Prop :=
  (forall d, is_dir fs d -> is_dir fs' d) /\ (forall d n i, child fs d n i -> is_dir fs i -> child fs' d n i).
#[export] Instance keeps_dirs_pre : PreOrder keeps_dirs.
Proof.
  split; [by intros fs; split|]. intros fs1 fs2 fs3 [H1 H2] [H3 H4]. split; [auto|]. intros d n i Hc Hd. auto.
Qed.

Lemma link_new_keeps fs D name n : wf_fs fs -> is_dir fs D -> (forall i, ~ child fs D name i) ->
  match n with NDir _ es => es = ∅ | _ => True end -> keeps_dirs fs (link_new D name n fs).
Proof.
  intros Hwf Hd Hno Hn. split.
  - intros d Hdd. apply link_new_dir; [done..|by left].
  - intros d m i Hc _. apply link_new_child; [done..|by left].
Qed.
Lemma unlink_keeps fs D name i0 : child fs D name i0 -> ~ is_dir fs i0 ->
  keeps_dirs fs (set_entries D (delete name (default ∅ (entries_of fs D))) fs).
Proof.
  intros Hc Hn. split; [intros d; rewrite dir_set_entries; [done|by eapply child_dir]|].
  intros d m i Hci Hi. apply (unlink_child fs D name i0 Hc). split; [done|]. intros [-> ->]. by rewrite (child_fun _ _ _ _ _ Hci Hc) in Hi.
Qed.

Lemma rename_keeps fs D src dst ino data : child fs D src ino -> fs_nodes fs !! ino = Some (NFile data) ->
  (forall i, child fs D dst i -> ~ is_dir fs i) -> src <> dst -> keeps_dirs fs (renamed fs D src dst ino).
Proof.
  intros Hs Hi Hd Hne. split; [intros d Hdd; by eapply rename_dir|]. intros d m i Hc Hdi. eapply rename_child; [done..|].
  right. split; [done|]. intros [-> [-> | ->]]; [|by apply (Hd i)]. rewrite (child_fun _ _ _ _ _ Hc Hs) in Hdi. by eapply file_not_dir.
Qed.

(** What a process alone may do to the tree below [root] while it stores
    nothing: the visible files and the directories stay. *)
Definition evolves (root : nat) (w w' : Os) : Prop :=
  os_ok w' /\ same_view root (os_fs w) (os_fs w') /\ keeps_dirs (os_fs w) (os_fs w').
Lemma evolves_trans root w1 w2 w3 : evolves root w1 w2 -> evolves root w2 w3 -> evolves root w1 w3.
Proof. intros (? & H1 & H2) (? & H3 & H4). split; [done|]. split; [by rewrite H1|by rewrite H2]. Qed.
Lemma idle_evolves root w w' : idle w w' -> evolves root w w'.
Proof. intros (? & E & _). unfold evolves. by rewrite E. Qed.
Lemma same_evolves root w w' : os_ok w' -> os_fs w' = os_fs w -> evolves root w w'.
Proof. intros ? E. unfold evolves. by rewrite E. Qed.

(** ** A quiet system

    Past the end of the script, nothing fails either. *)
Definition calm (w : Os) : Prop := os_script w = [] /\ forall fd, os_next_fd w <= fd -> os_fds w !! fd = None.

Lemma wp_calm {A} (act : nat -> event -> K A) Q w : calm w ->
  (forall r fs' fds' w', act (os_next_fd w) quiet_event (os_fs w, os_fds w) = (r, (fs', fds')) -> os_script w' = [] ->
     os_fs w' = fs' -> os_fds w' = fds' -> os_next_fd w' = S (os_next_fd w) -> Q r w') -> wp (sys act) Q w.
Proof.
  intros [Hs _] HQ. unfold wp, sys. rewrite Hs. simpl. destruct (act _ _ _) as [r [fs' fds']] eqn:E. simpl. by eapply HQ.
Qed.

(** The descriptors and the tree are as they were. *)
Definition settled (w w' : Os) : Prop := calm w' /\ os_fs w' = os_fs w /\ os_fds w' = os_fds w.

Lemma calm_open directory name dfd D Q w : calm w -> fd_is w dfd D -> is_dir (os_fs w) D -> clean name ->
  (forall w' e, settled w w' -> subclass_os_error e = true ->
     (forall i, child (os_fs w) D name i -> ~ is_dir (os_fs w) i /\ (directory = false -> forall data, fs_nodes (os_fs w) !! i <> Some (NFile data))) ->
     Q (Raise e) w') ->
  (forall w' i, child (os_fs w) D name i -> (directory = true -> is_dir (os_fs w) i) -> calm w' -> os_fs w' = os_fs w ->
     os_fds w' = <[os_next_fd w := (i, 0)]> (os_fds w) -> Q (Ok (os_next_fd w)) w') ->
  wp (os_open_nofollow directory name dfd) Q w.
Proof.
  intros Hw [off Hd] Hdir Hc Hbad Hgood. apply wp_path; [done|]. apply wp_calm; [done|]. intros r fs' fds' w' E Hs Hf Hds Hn.
  rewrite (k_dir dfd D off), resolve_clean in E by done.
  assert (fs' = os_fs w -> fds' = os_fds w -> settled w w') as Hset.
  { intros -> ->. split; [|done]. split; [done|]. intros fd Hle. rewrite Hds. apply Hw. lia. }
  destruct (entries_of (os_fs w) D ≫= lookup name) as [i|] eqn:Ei; simpl in E.
  2: { injection E as <- <- <-. apply Hbad; [by apply Hset|done|]. intros i Hch. exfalso. by apply (no_child (os_fs w) D name Hdir Ei i). }
  pose proof (some_child _ _ _ _ Ei) as Hch.
  assert (r = Raise OSError \/ r = Raise FileNotFoundError -> fs' = os_fs w -> fds' = os_fds w ->
    ~ is_dir (os_fs w) i -> (directory = false -> forall data, fs_nodes (os_fs w) !! i <> Some (NFile data)) -> Q r w') as Hno.
  { intros Hr ? ? Hnd Hnf. assert (forall i', child (os_fs w) D name i' -> i' = i) as Hone by (intros i' Hi'; by eapply child_fun).
    destruct Hr as [-> | ->]; apply Hbad; try done; try (by apply Hset); intros i' ->%Hone; done. }
  assert (r = Ok (os_next_fd w) -> fs' = os_fs w -> fds' = <[os_next_fd w := (i, 0)]> (os_fds w) ->
    (directory = true -> is_dir (os_fs w) i) -> Q r w') as Hyes.
  { intros -> Ef Ed Hdi. apply (Hgood w' i); try done; [|congruence|congruence]. split; [done|]. intros fd Hle. rewrite Hds, Ed.
    rewrite lookup_insert_ne by lia. apply Hw. lia. }
  destruct (fs_nodes (os_fs w) !! i) as [[up es|data|target]|] eqn:Hi; rewrite ?Hi in E.
  - injection E as <- <- <-. apply Hyes; try done. intros _. by exists up, es.
  - destruct directory; injection E as <- <- <-; [|by apply Hyes].
    apply Hno; try done; [by left|by eapply file_not_dir].
  - injection E as <- <- <-. apply Hno; try done; [by left|]. intros (? & ? & ?). congruence.
  - injection E as <- <- <-. apply Hno; try done; [by right|]. intros (? & ? & ?). congruence.
Qed.

Lemma calm_close fd Q w : calm w -> is_Some (os_fds w !! fd) ->
  (forall w', calm w' -> os_fs w' = os_fs w -> os_fds w' = delete fd (os_fds w) -> Q (Ok tt) w') -> wp (os_close fd) Q w.
Proof.
  intros [Hs Hw] [[ino off] Hfd] HQ. unfold wp, os_close, sys. rewrite Hs. unfold bind, k_inode. simpl. rewrite Hfd. simpl.
  apply HQ; [|done|done]. split; [done|]. simpl. intros fd' Hle. apply lookup_delete_None. right. apply Hw. lia.
Qed.

Lemma calm_fstat_regular fd ino off Q w : calm w -> os_fds w !! fd = Some (ino, off) ->
  (forall w', settled w w' -> Q (Ok (match fs_nodes (os_fs w) !! ino with Some (NFile _) => true | _ => false end)) w') ->
  wp (os_fstat_regular fd) Q w.
Proof.
  intros Hw Hfd HQ. apply wp_calm; [done|]. intros r fs' fds' w' E Hs Hf Hds Hn. unfold bind, k_inode in E. simpl in E. rewrite Hfd in E.
  injection E as <- <- <-. apply HQ. split; [|done]. split; [done|]. intros fd' Hle. rewrite Hds. apply Hw. lia.
Qed.

Lemma calm_read fd n ino off data Q w : calm w -> os_fds w !! fd = Some (ino, off) -> fs_nodes (os_fs w) !! ino = Some (NFile data) -> 0 < n ->
  (forall w' chunk rest, drop off data = chunk ++ rest -> (chunk = [] -> rest = []) -> calm w' -> os_fs w' = os_fs w ->
     os_fds w' = <[fd := (ino, off + length chunk)]> (os_fds w) -> Q (Ok chunk) w') ->
  wp (os_read fd n) Q w.
Proof.
  intros Hw Hfd Hino Hn HQ. apply wp_calm; [done|]. intros r fs' fds' w' E Hs Hf Hds Hn'. simpl in E. rewrite Hfd, Hino in E.
  injection E as <- <- <-. eapply HQ; [symmetry; apply take_drop| | |done|done].
  - rewrite Nat.min_id. destruct (drop off data); [by rewrite drop_nil|]. by destruct (Nat.max 1 n) eqn:Em; [lia|].
  - split; [done|]. intros fd' Hle. rewrite Hds. rewrite lookup_insert_ne; [apply Hw; lia|]. intros <-.
    destruct Hw as [_ Hw]. rewrite Hw in Hfd by lia. done.
Qed.
