(* ===== verification/EvidenceStore.v ===== *)
(** * The evidence artifact store

    [ports/evidence_artifact_store.py] and
    [adapters/object_stores/local_fs_evidence_store.py] on the file system of
    [PosixFs]. [sha256] is [hashlib.sha256(...).hexdigest()], a parameter; the
    random name of a staging file is the argument [hex]. Log lines and file
    modes are left out, and so is the fallback for platforms without
    [O_NOFOLLOW]. What the store promises is in [EvidenceLaws]. *)
From Stdlib Require Import Ascii Strings.Byte.
From S2P Require Import Prelude PyStr Wp PosixFs.

(** ** ports/evidence_artifact_store.py *)

Inductive ArtifactKind := AK_HAR | AK_SCREENSHOT | AK_DOM | AK_RESPONSE_HEADERS | AK_REQUEST_HEADERS | AK_TRACE | AK_OTHER.
#[export] Instance ArtifactKind_eq_dec : EqDecision ArtifactKind.
Proof. solve_decision. Defined.

Definition ArtifactKind_value (k : ArtifactKind) : string :=
  match k with
  | AK_HAR => "har" | AK_SCREENSHOT => "screenshot" | AK_DOM => "dom" | AK_RESPONSE_HEADERS => "response_headers"
  | AK_REQUEST_HEADERS => "request_headers" | AK_TRACE => "trace" | AK_OTHER => "other"
  end.
Definition ArtifactKind_list : list ArtifactKind :=
  [AK_HAR; AK_SCREENSHOT; AK_DOM; AK_RESPONSE_HEADERS; AK_REQUEST_HEADERS; AK_TRACE; AK_OTHER].
(** [ArtifactKind(value)] *)
Definition ArtifactKind_of (value : string) : option ArtifactKind :=
  head (filter (fun k => ArtifactKind_value k = value) ArtifactKind_list).

Definition kind_requires_redaction (kind : ArtifactKind) : bool := true.

Record EvidencePutResult := {
  ep_artifact_ref : string;
  ep_content_digest_sha256 : string;
  ep_size_bytes : nat;
  ep_redaction_applied : bool }.

Section Evidence.
Context (sha256 : bytes -> string).
Definition utf8 (s : string) : bytes := String.list_byte_of_string s.

(** [NoopEvidenceArtifactStore] *)
Definition noop_put (run_ref attempt_ref : string) (kind : ArtifactKind) (payload : bytes) (redaction_applied : bool) : res EvidencePutResult :=
  if kind_requires_redaction kind && negb redaction_applied
  then Raise (EvidenceRedactionRequired ("kind=" +:+ ArtifactKind_value kind +:+ " requires redaction_applied=True"))
  else
    let scope := run_ref +:+ "|" +:+ attempt_ref +:+ "|" +:+ ArtifactKind_value kind in
    let digest := sha256 payload in
    let scoped_digest := sha256 (utf8 (scope +:+ "|" +:+ digest)) in
    Ok {| ep_artifact_ref := "artifact:noop:" +:+ ArtifactKind_value kind +:+ ":" +:+ scoped_digest;
          ep_content_digest_sha256 := digest; ep_size_bytes := length payload; ep_redaction_applied := redaction_applied |}.
Definition noop_get (artifact_ref : string) : option bytes := None.

(** ** adapters/object_stores/local_fs_evidence_store.py *)

Definition _REF_PREFIX_MAX : nat := 32.
Definition _EXTENSION_BY_KIND (k : ArtifactKind) : string :=
  match k with
  | AK_HAR => ".har.json" | AK_SCREENSHOT => ".png" | AK_DOM => ".dom.html" | AK_RESPONSE_HEADERS => ".headers.json"
  | AK_REQUEST_HEADERS => ".headers.json" | AK_TRACE => ".trace.zip" | AK_OTHER => ".bin"
  end.

(** [ch.isalnum()] on ASCII, and [ch in "_-."]. *)
Definition is_alnum (c : ascii) : bool :=
  let n := nat_of_ascii c in ((48 <=? n) && (n <=? 57) || (65 <=? n) && (n <=? 90) || (97 <=? n) && (n <=? 122))%nat.
Definition is_mark (c : ascii) : bool := str_in_char c "_-.".

Definition _safe_component (ref : string) : string :=
  let digest := sha256 (utf8 ref) in
  let safe_chars := str_map (fun c => if is_alnum c || is_mark c then c else "_"%char) ref in
  let prefix := str_rstrip is_mark (str_lstrip is_mark (String.substring 0 _REF_PREFIX_MAX safe_chars)) in
  (if truthy_str prefix then prefix else "ref") +:+ "-" +:+ String.substring 0 32 digest.

Definition artifact_filename (kind : ArtifactKind) (digest : string) : string :=
  ArtifactKind_value kind +:+ "-" +:+ digest +:+ _EXTENSION_BY_KIND kind.

Record LocalFsEvidenceArtifactStore := { es_root_fd : nat; es_max_payload_bytes : option Z }.

(** *** Construction

    [at_cwd] is the descriptor of the working directory, which the calls on
    paths are relative to; [root] is the path in components, last first. *)
Definition path_kind (follow : bool) (path : string) (at_cwd : nat) : M Os (option node) :=
  path_arg path (sys (fun _ _ =>
    let* dir := k_inode at_cwd in
    gets (fun k => resolve k.1 follow dir path ≫= fun ino => fs_nodes k.1 !! ino))).
Definition is_directory (n : option node) : bool := if n is Some (NDir _ _) then true else false.
Definition is_symlink (n : option node) : bool := if n is Some (NLink _) then true else false.

(** [Path.mkdir(mode, exist_ok=True)] after [os.mkdir] raised something else
    than [FileNotFoundError]. *)
Definition mkdir_else (path : string) (at_cwd : nat) (e : exn) : M Os unit :=
  if subclass_os_error e then
    let* n := path_kind true path at_cwd in if is_directory n then ret tt else raise e
  else raise e.
Definition mkdir_exist_ok (path : string) (at_cwd : nat) : M Os unit :=
  let* r := attempt (os_mkdir path at_cwd) in match r with Ok _ => ret tt | Raise e => mkdir_else path at_cwd e end.
(** [Path.mkdir(parents=True, exist_ok=True)] *)
Fixpoint mkdir_parents (components : list string) (at_cwd : nat) : M Os unit :=
  let path := join "/" (rev components) in
  let* r := attempt (os_mkdir path at_cwd) in
  match r with
  | Ok _ => ret tt
  | Raise FileNotFoundError =>
      match components with
      | [] | [_] => raise FileNotFoundError
      | _ :: parent => do* mkdir_parents parent at_cwd in mkdir_exist_ok path at_cwd
      end
  | Raise e => mkdir_else path at_cwd e
  end.

(** [root.is_symlink() or not S_ISDIR(root.lstat().st_mode)] *)
Definition not_a_real_directory (path : string) (at_cwd : nat) : M Os bool :=
  let* linked := path_kind false path at_cwd in
  if is_symlink linked then ret true
  else
    let* info := path_kind false path at_cwd in
    match info with None => raise FileNotFoundError | Some _ => ret (negb (is_directory info)) end.

Definition new_store (root : list string) (max_payload_bytes : option Z) (at_cwd : nat) : M Os LocalFsEvidenceArtifactStore :=
  let path := join "/" (rev root) in
  let* found := path_kind true path at_cwd in
  let* present := (if found is Some _ then ret true
                   else let* linked := path_kind false path at_cwd in ret (is_symlink linked)) in
  do* (if present : bool then
         let* bad := not_a_real_directory path at_cwd in
         if bad : bool then raise (EvidenceArtifactStoreError ("evidence-store root must be a real directory, not a symlink: " +:+ path))
         else ret tt
       else mkdir_parents root at_cwd) in
  let* opened := attempt (os_open_nofollow true path at_cwd) in
  match opened with
  | Raise e =>
      if subclass_os_error e then raise (EvidenceArtifactStoreError "failed to open evidence-store root with O_NOFOLLOW") else raise e
  | Ok root_fd =>
      let* directory := os_fstat_directory root_fd in
      if negb directory then
        do* os_close root_fd in raise (EvidenceArtifactStoreError ("evidence-store root is not a directory after open: " +:+ path))
      else
        let* tightened := attempt (os_fchmod root_fd) in
        match tightened with
        | Raise e => if subclass_os_error e then ret {| es_root_fd := root_fd; es_max_payload_bytes := max_payload_bytes |} else raise e
        | Ok _ => ret {| es_root_fd := root_fd; es_max_payload_bytes := max_payload_bytes |}
        end
  end.

(** [__del__] *)
Definition del_store (st : LocalFsEvidenceArtifactStore) : M Os unit :=
  let* closed := attempt (os_close (es_root_fd st)) in
  match closed with Raise e => if subclass_os_error e then ret tt else raise e | Ok _ => ret tt end.

(** *** put *)

Definition _mkdir_and_open (parent_fd : nat) (name : string) : M Os nat :=
  let* made := attempt (os_mkdir name parent_fd) in
  match made with
  | Ok _ | Raise FileExistsError => os_open_nofollow true name parent_fd
  | Raise e => raise e
  end.

(** [while written < len(payload)]: [rest] is [payload[written:]]; each turn
    writes at least one byte, so that its length is fuel enough. *)
Fixpoint write_all (fuel : nat) (fd : nat) (rest : bytes) : M Os unit :=
  match fuel, rest with
  | S fuel, _ :: _ =>
      let* chunk := os_write fd rest in
      if bool_decide (chunk = 0%nat) then raise OSError else write_all fuel fd (drop chunk rest)
  | _, _ => ret tt
  end.

Definition staging_name (filename hex : string) : string := "." +:+ filename +:+ "." +:+ hex +:+ ".tmp".

Definition _write_atomic (parent_fd : nat) (filename : string) (payload : bytes) (hex : string) : M Os unit :=
  let tmp_name := staging_name filename hex in
  let* fd := os_open_new tmp_name parent_fd in
  let* staged := attempt (
    let* written := attempt (do* write_all (length payload) fd payload in os_fsync fd) in
    do* os_close fd in
    do* lift written in
    os_rename tmp_name filename parent_fd) in
  match staged with
  | Ok _ => ret tt
  | Raise e => do* attempt (os_unlink tmp_name parent_fd) in raise e
  end.

(** [finally]: a descriptor that was opened is closed, errors ignored. *)
Definition close_opened (opened : res nat) : M Os unit :=
  match opened with Ok fd => do* attempt (os_close fd) in ret tt | Raise _ => ret tt end.
(** The next statement of a [try] block runs when the ones before have passed. *)
Definition then_try {A B} (r : res A) (m : A -> M Os B) : M Os (res B) :=
  match r with Ok a => attempt (m a) | Raise e => ret (Raise e) end.

Definition put (st : LocalFsEvidenceArtifactStore) (hex run_ref attempt_ref : string) (kind : ArtifactKind) (payload : bytes)
    (redaction_applied : bool) : M Os EvidencePutResult :=
  if kind_requires_redaction kind && negb redaction_applied
  then raise (EvidenceRedactionRequired ("kind=" +:+ ArtifactKind_value kind +:+ " requires redaction_applied=True"))
  else if (if es_max_payload_bytes st is Some cap then (cap <? Z.of_nat (length payload))%Z else false)
  then raise (EvidenceArtifactStoreError "evidence payload exceeds max_payload_bytes")
  else
    let digest := sha256 payload in
    let run_safe := _safe_component run_ref in
    let attempt_safe := _safe_component attempt_ref in
    let filename := artifact_filename kind digest in
    let* run_fd := attempt (_mkdir_and_open (es_root_fd st) run_safe) in
    let* attempt_fd := then_try run_fd (fun run_fd => _mkdir_and_open run_fd attempt_safe) in
    let* written := then_try attempt_fd (fun attempt_fd => _write_atomic attempt_fd filename payload hex) in
    do* close_opened attempt_fd in
    do* close_opened run_fd in
    match written with
    | Ok _ =>
        ret {| ep_artifact_ref := "artifact:evidence:" +:+ ArtifactKind_value kind +:+ ":" +:+ run_safe +:+ ":" +:+ attempt_safe +:+ ":" +:+ digest;
               ep_content_digest_sha256 := digest; ep_size_bytes := length payload; ep_redaction_applied := redaction_applied |}
    | Raise e => if subclass_os_error e then raise (EvidenceArtifactStoreError "failed to persist evidence artifact") else raise e
    end.

(** *** get *)

Definition is_hex_char (c : ascii) : bool := str_in_char c "0123456789abcdef".
Definition bad_component (c : string) : bool :=
  str_in_char "/" c || str_in_char "\" c || bool_decide (c = "") || bool_decide (c = "..") || bool_decide (c = ".").

Definition _path_for_ref (artifact_ref : string) : option (string * string * string) :=
  match split_on ":" artifact_ref with
  | [a; b; kind; run_safe; attempt_safe; digest] =>
      if negb (bool_decide (a = "artifact")) || negb (bool_decide (b = "evidence")) then None
      else
        match ArtifactKind_of kind with
        | None => None
        | Some kind =>
            if bad_component run_safe || bad_component attempt_safe || bad_component digest then None
            else if negb (String.length digest =? 64)%nat || negb (str_forall is_hex_char digest) then None
            else Some (run_safe, attempt_safe, artifact_filename kind digest)
        end
  | _ => None
  end.

(** The loop over the directories of the path: the variable [current_fd] at its
    end, and whether it got through, gave up or raised. *)
Fixpoint descend (root_fd current_fd : nat) (components : list string) : M Os (nat * res bool) :=
  match components with
  | [] => ret (current_fd, Ok true)
  | component :: components =>
      let* opened := attempt (os_open_nofollow true component current_fd) in
      match opened with
      | Raise e => ret (current_fd, if subclass_os_error e then Ok false else Raise e)
      | Ok next_fd =>
          if bool_decide (current_fd = root_fd) then descend root_fd next_fd components
          else
            let* closed := attempt (os_close current_fd) in
            match closed with Raise e => ret (current_fd, Raise e) | Ok _ => descend root_fd next_fd components end
      end
  end.

(** [while True: chunk = os.read(leaf_fd, 65536)], [fuel] reads at most. *)
Fixpoint read_all (fuel : nat) (fd : nat) : M Os bytes :=
  match fuel with
  | O => raise (ForeignError "the file never ends")
  | S fuel =>
      let* chunk := os_read fd (Z.to_nat 65536) in
      if chunk is [] then ret [] else let* rest := read_all fuel fd in ret (chunk ++ rest)
  end.

Definition read_leaf (fuel : nat) (name : string) (dir_fd : nat) : M Os (option bytes) :=
  let* opened := attempt (os_open_nofollow false name dir_fd) in
  match opened with
  | Raise e => if subclass_os_error e then ret None else raise e
  | Ok leaf_fd =>
      let* r := attempt (
        let* regular := os_fstat_regular leaf_fd in
        if negb regular then ret None else let* data := read_all fuel leaf_fd in ret (Some data)) in
      do* os_close leaf_fd in
      lift r
  end.

Definition get (fuel : nat) (st : LocalFsEvidenceArtifactStore) (artifact_ref : string) : M Os (option bytes) :=
  match _path_for_ref artifact_ref with
  | None => ret None
  | Some (run_safe, attempt_safe, filename) =>
      let root_fd := es_root_fd st in
      let* (current_fd, through) := descend root_fd root_fd [run_safe; attempt_safe] in
      let* r := attempt (
        let* through := lift through in
        if through : bool then read_leaf fuel filename current_fd else ret None) in
      do* (if bool_decide (current_fd = root_fd) then ret tt else close_opened (Ok current_fd)) in
      lift r
  end.
End Evidence.
