(* ===== verification/EvidenceLaws.v ===== *)
(** * What the evidence store promises

    The abstract state of the store is a map from references to payloads,
    [artifact]: [get] reads it and [put] updates it at one reference, whole or
    not at all. The tree may hold anything else; what other processes may do
    meanwhile is said in each theorem. *)
From Stdlib Require Import Ascii Strings.Byte.
From S2P Require Import Prelude PyStr Wp PosixFs FsLaws EvidenceStore.

(** ** Names *)

Definition safe_char (c : ascii) : bool := is_alnum c || is_mark c.

Lemma safe_char_not c : c ∈ ["/"; ":"; "\"; nul]%char -> safe_char c = false.
Proof. intros Hc. repeat (apply elem_of_cons in Hc as [-> |Hc]; [by vm_compute|]). by apply elem_of_nil in Hc. Qed.

Lemma hex_char_safe c : is_hex_char c = true -> safe_char c = true.
Proof. destruct c as [[] [] [] [] [] [] [] []]; vm_compute; congruence. Qed.

Lemma str_forall_weaken (p q : ascii -> bool) s : (forall c, p c = true -> q c = true) -> str_forall p s = true -> str_forall q s = true.
Proof. intros Hpq. induction s as [|c s IH]; simpl; [done|]. rewrite !andb_true_iff. intros [? ?]. auto. Qed.

Lemma str_forall_substring p n m s : str_forall p s = true -> str_forall p (String.substring n m s) = true.
Proof.
  revert n m. induction s as [|c s IH]; intros [|n] [|m]; simpl; try done; rewrite andb_true_iff; intros [Hc Hs]; try by apply IH.
  rewrite andb_true_iff. split; [done|by apply IH].
Qed.
Lemma str_forall_lstrip p q s : str_forall p s = true -> str_forall p (str_lstrip q s) = true.
Proof. induction s as [|c s IH]; simpl; [done|]. intros H. destruct (q c); [apply andb_true_iff in H as [_ H]; auto|done]. Qed.
Lemma str_forall_rstrip p q s : str_forall p s = true -> str_forall p (str_rstrip q s) = true.
Proof.
  induction s as [|c s IH]; simpl; [done|]. rewrite andb_true_iff. intros [Hc Hs]. specialize (IH Hs).
  destruct (str_rstrip q s); [destruct (q c); simpl; by rewrite ?Hc|]. simpl in *. by rewrite Hc.
Qed.
Lemma str_forall_map p f s : (forall c, p (f c) = true) -> str_forall p (str_map f s) = true.
Proof. intros Hf. induction s as [|c s IH]; simpl; [done|]. by rewrite Hf. Qed.

Lemma safe_no c s : c ∈ ["/"; ":"; "\"; nul]%char -> str_forall safe_char s = true -> str_in_char c s = false.
Proof. intros Hc Hs. eapply str_forall_not_in; [exact Hs|]. by apply safe_char_not. Qed.

Lemma join_split_on c s : join (String c "") (split_on c s) = s.
Proof.
  induction s as [|x s IH]; [done|]. cbn [split_on]. destruct (decide (x = c)) as [->|Hx].
  - destruct (split_on c s) as [|t l] eqn:E; [by destruct s; simpl in E; repeat case_match|]. by rewrite join_cons, IH.
  - destruct (split_on c s) as [|t l] eqn:E; [by destruct s; simpl in E; repeat case_match|].
    destruct l as [|t' l]; [simpl in *; congruence|]. rewrite join_cons in IH |- *. rewrite append_cons. congruence.
Qed.

Section Laws.
Context (sha256 : bytes -> string).
(** A hexadecimal digest of 256 bits. *)
Context (sha256_length : forall p, String.length (sha256 p) = 64) (sha256_hex : forall p, str_forall is_hex_char (sha256 p) = true).

Lemma safe_component_safe ref : str_forall safe_char (_safe_component sha256 ref) = true.
Proof.
  unfold _safe_component. set (chars := str_map _ ref). set (prefix := str_rstrip _ _).
  assert (str_forall safe_char prefix = true) as Hp.
  { apply str_forall_rstrip, str_forall_lstrip, str_forall_substring, str_forall_map. intros c.
    destruct (is_alnum c || is_mark c) eqn:E; [done|by vm_compute]. }
  assert (str_forall safe_char (if truthy_str prefix then prefix else "ref") = true) as Hp' by (by destruct (truthy_str prefix)).
  rewrite !str_forall_app, Hp'. simpl. apply str_forall_substring. eapply str_forall_weaken, sha256_hex. apply hex_char_safe.
Qed.

Lemma dash_clean a b : str_forall safe_char (a +:+ "-" +:+ b) = true -> clean (a +:+ "-" +:+ b).
Proof.
  intros Hs. assert (str_in_char "-" (a +:+ "-" +:+ b) = true) as Hd by (by rewrite !str_in_char_app, orb_true_r).
  split; [by apply safe_no; [left|]|]. split; [by apply safe_no; [do 3 right; left|]|].
  split_and!; intros E; rewrite E in Hd; by vm_compute in Hd.
Qed.
Lemma safe_component_clean ref : clean (_safe_component sha256 ref).
Proof. apply dash_clean. apply safe_component_safe. Qed.

Lemma filename_safe kind digest : str_forall is_hex_char digest = true -> str_forall safe_char (artifact_filename kind digest) = true.
Proof.
  intros Hd. unfold artifact_filename. rewrite !str_forall_app.
  rewrite (str_forall_weaken _ _ digest hex_char_safe Hd). by destruct kind.
Qed.
Lemma filename_clean kind digest : str_forall is_hex_char digest = true -> clean (artifact_filename kind digest).
Proof. intros Hd. apply dash_clean. by apply filename_safe. Qed.

Lemma filename_visible kind digest : hidden (artifact_filename kind digest) = false.
Proof. by destruct kind. Qed.
Lemma staging_hidden filename hex : hidden (staging_name filename hex) = true.
Proof. unfold hidden, staging_name. apply startswith_spec. by eexists. Qed.
Lemma staging_clean filename hex : str_forall safe_char filename = true -> str_forall safe_char hex = true -> clean (staging_name filename hex).
Proof.
  intros Hf Hh. assert (str_forall safe_char (staging_name filename hex) = true) as Hs.
  { unfold staging_name. rewrite !str_forall_app, Hf, Hh. by vm_compute. }
  split; [by apply safe_no; [left|]|]. split; [by apply safe_no; [do 3 right; left|]|].
  unfold staging_name. split_and!; intros E; apply (f_equal String.length) in E; rewrite !str_length_app in E; simpl in E; lia.
Qed.

(** ** References *)

Definition artifact_ref (kind : ArtifactKind) (run_safe attempt_safe digest : string) : string :=
  "artifact:evidence:" +:+ ArtifactKind_value kind +:+ ":" +:+ run_safe +:+ ":" +:+ attempt_safe +:+ ":" +:+ digest.

Lemma ArtifactKind_of_value kind : ArtifactKind_of (ArtifactKind_value kind) = Some kind.
Proof. by destruct kind. Qed.
Lemma ArtifactKind_of_inv v kind : ArtifactKind_of v = Some kind -> v = ArtifactKind_value kind.
Proof.
  unfold ArtifactKind_of. intros H.
  assert (kind ∈ filter (fun k => ArtifactKind_value k = v) ArtifactKind_list) as Hin by (destruct (filter _ _); simplify_eq/=; left).
  by apply list_elem_of_filter in Hin as [<- _].
Qed.

(** The components of a reference that [get] looks for. *)
Lemma path_for_ref_inv ref a b f : _path_for_ref ref = Some (a, b, f) ->
  exists kind digest, ref = artifact_ref kind a b digest /\ f = artifact_filename kind digest /\
    bad_component a = false /\ bad_component b = false /\ String.length digest = 64 /\ str_forall is_hex_char digest = true.
Proof.
  unfold _path_for_ref. destruct (split_on ":" ref) as [|p1 [|p2 [|p3 [|p4 [|p5 [|p6 [|]]]]]]] eqn:E; try done.
  destruct (_ || _) eqn:E1; [done|]. apply orb_false_iff in E1 as [->%negb_false_iff%bool_decide_eq_true ->%negb_false_iff%bool_decide_eq_true].
  destruct (ArtifactKind_of p3) as [kind|] eqn:Ek; [|done]. apply ArtifactKind_of_inv in Ek as ->.
  destruct (_ || _ || _) eqn:E2; [done|]. apply orb_false_iff in E2 as [[H4 H5]%orb_false_iff _].
  destruct (_ || _) eqn:E3; [done|]. apply orb_false_iff in E3 as [H6%negb_false_iff%Nat.eqb_eq H7%negb_false_iff].
  intros [= <- <- <-]. exists kind, p6. split_and!; [|done..].
  by rewrite <-(join_split_on ":" ref), E.
Qed.

Lemma kind_dash_inj k k' d d' : ArtifactKind_value k +:+ "-" +:+ d = ArtifactKind_value k' +:+ "-" +:+ d' -> k = k' /\ d = d'.
Proof. destruct k, k'; cbn; intros [= E]; by subst. Qed.

Lemma filename_inj k k' d d' : String.length d = 64 -> String.length d' = 64 -> artifact_filename k d = artifact_filename k' d' -> k = k' /\ d = d'.
Proof.
  intros Hd Hd' E. apply kind_dash_inj in E as [-> E]. split; [done|].
  assert (forall s t, String.substring 0 (String.length s) (s +:+ t) = s) as Hsub.
  { induction s as [|c s IH]; intros t; [by destruct t|]. rewrite append_cons. cbn [String.length String.substring]. by rewrite IH. }
  rewrite <-(Hsub d (_EXTENSION_BY_KIND k')), <-(Hsub d' (_EXTENSION_BY_KIND k')), E. by rewrite Hd, Hd'.
Qed.

(** Different references name different files. *)
Lemma path_for_ref_inj ref ref' p : _path_for_ref ref = Some p -> _path_for_ref ref' = Some p -> ref = ref'.
Proof.
  destruct p as [[a b] f]. intros (k & d & -> & -> & _ & _ & Hd & _)%path_for_ref_inv (k' & d' & -> & E & _ & _ & Hd' & _)%path_for_ref_inv.
  by apply filename_inj in E as [-> ->].
Qed.

Lemma bad_component_clean c : bad_component c = false -> str_in_char nul c = false -> clean c.
Proof.
  unfold bad_component. rewrite !orb_false_iff. intros ((((H1 & H2) & H3) & H4) & H5) Hn.
  apply bool_decide_eq_false in H3, H4, H5. by split_and!.
Qed.
Lemma safe_component_good ref : bad_component (_safe_component sha256 ref) = false.
Proof.
  destruct (safe_component_clean ref) as (H1 & _ & H3 & H4 & H5). unfold bad_component. rewrite H1.
  rewrite (safe_no "\"); [|do 2 right; left|apply safe_component_safe]. by rewrite !bool_decide_eq_false_2.
Qed.

(** [put] returns references that [get] accepts. *)
Lemma path_for_own_ref kind run_ref attempt_ref payload :
  _path_for_ref (artifact_ref kind (_safe_component sha256 run_ref) (_safe_component sha256 attempt_ref) (sha256 payload)) =
    Some (_safe_component sha256 run_ref, _safe_component sha256 attempt_ref, artifact_filename kind (sha256 payload)).
Proof.
  unfold _path_for_ref, artifact_ref.
  assert (forall r, str_in_char ":" (_safe_component sha256 r) = false) as Hc.
  { intros r. apply safe_no; [right; left|]. apply safe_component_safe. }
  assert (str_in_char ":" (sha256 payload) = false) as Hd.
  { apply safe_no; [right; left|]. eapply str_forall_weaken, sha256_hex. apply hex_char_safe. }
  change ("artifact:evidence:" +:+ ?x) with ("artifact" +:+ String ":" ("evidence" +:+ String ":" x)).
  repeat match goal with |- context [":" +:+ ?x] => change (":" +:+ x) with (String ":" x) end.
  rewrite !split_on_app by first [apply Hc|by destruct kind|done]. rewrite split_on_none by apply Hd. rewrite !bool_decide_eq_true_2 by done. simpl.
  rewrite ArtifactKind_of_value, !safe_component_good. rewrite sha256_length, sha256_hex.
  assert (bad_component (sha256 payload) = false) as ->; [|done].
  assert (str_forall safe_char (sha256 payload) = true) as Hs by (eapply str_forall_weaken, sha256_hex; apply hex_char_safe).
  unfold bad_component. rewrite (safe_no "/") by first [done|left]. rewrite (safe_no "\") by first [done|do 2 right; left].
  specialize (sha256_length payload).
  rewrite !bool_decide_eq_false_2; [done|..]; intros E; by rewrite E in sha256_length.
Qed.

(** ** Directories *)

Lemma wp_mkdir_and_open root name dfd D Q w : os_ok w -> fd_is w dfd D -> is_dir (os_fs w) D -> clean name ->
  (forall w' e, evolves root w w' -> os_fds w' = os_fds w -> subclass_os_error e = true -> Q (Raise e) w') ->
  (forall w' fd i, evolves root w w' -> os_fds w' = <[fd := (i, 0)]> (os_fds w) -> os_fds w !! fd = None ->
     child (os_fs w') D name i -> is_dir (os_fs w') i -> Q (Ok fd) w') ->
  wp (_mkdir_and_open dfd name) Q w.
Proof.
  intros Hok Hfd Hdir Hc Hbad Hgood.
  assert (forall w1, os_ok w1 -> evolves root w w1 -> os_fds w1 = os_fds w -> is_dir (os_fs w1) D ->
    wp (os_open_nofollow true name dfd) Q w1) as Hopen.
  { intros w1 Hok1 He Hfds Hdir1. apply (wp_open true name dfd D); [done|by unfold fd_is; rewrite Hfds|done|done| |].
    - intros w2 e Hi Hr. apply Hbad; [eapply evolves_trans; [exact He|by apply idle_evolves]| |done]. destruct Hi as (_ & _ & ->). done.
    - intros w2 i Hch Hd Hok2 Hfs2 Hfds2. apply (Hgood w2 (os_next_fd w1) i).
      + eapply evolves_trans; [exact He|]. by apply same_evolves.
      + by rewrite Hfds2, Hfds.
      + rewrite <-Hfds. by apply (ok_fds _ Hok1).
      + by rewrite Hfs2.
      + rewrite Hfs2. by apply Hd. }
  apply wp_bind, wp_attempt. apply (wp_mkdir name dfd D); [done..| |].
  - intros w1 e Hi He. pose proof Hi as (Hok1 & Hfs1 & Hfds1).
    destruct e; try done; try (apply wp_raise; apply Hbad; [by apply idle_evolves|done|done]).
    apply Hopen; [done|by apply idle_evolves|done|by rewrite Hfs1].
  - intros w1 Hno Hok1 Hfs1 Hfds1. apply Hopen; [done| |done|].
    + split; [done|]. rewrite Hfs1. split; [apply link_new_view|apply link_new_keeps]; try done; apply ok_wf; done.
    + rewrite Hfs1. apply (link_new_keeps (os_fs w)); try done. by apply ok_wf.
Qed.

(** ** The staging file *)

Section Staging.
Context (root : nat) (w0 : Os) (D own fd : nat) (tmp : string) (fds : gmap nat (nat * nat)) (Htmp : hidden tmp = true).

(** The staging file [own] is linked once, as [tmp] in [D], and holds [data]. *)
Record staged (w : Os) (data : bytes) : Prop := {
  st_evolves : evolves root w0 w;
  st_child : child (os_fs w) D tmp own;
  st_links : forall d m, child (os_fs w) d m own -> d = D /\ m = tmp;
  st_data : fs_nodes (os_fs w) !! own = Some (NFile data) }.

Lemma staged_idle w w' data : staged w data -> idle w w' -> staged w' data.
Proof.
  intros [He Hc Hl Hd] Hi. pose proof Hi as (Hok & Hfs & _). split; rewrite ?Hfs; [|done..].
  eapply evolves_trans; [exact He|by apply idle_evolves].
Qed.

Lemma staged_write w w' old new : staged w old -> os_ok w' -> os_fs w' = set_node own (NFile new) (os_fs w) -> staged w' new.
Proof.
  intros [He Hc Hl Hd] Hok Hfs. pose proof He as (Hokw & _).
  assert (forall d m i, child (os_fs w') d m i <-> child (os_fs w) d m i) as Hch by (intros d m i; rewrite Hfs; by eapply set_file_child).
  split.
  - eapply evolves_trans; [exact He|]. split; [done|]. rewrite Hfs. split.
    + eapply set_file_view; [exact Hd|]. by intros d m [_ ->]%Hl.
    + split; [intros d Hdd; by eapply set_file_dir|]. intros d m i Hci _. by eapply set_file_child.
  - by apply Hch.
  - intros d m Hm%Hch. by apply Hl.
  - rewrite Hfs. unfold set_node. simpl. by rewrite lookup_insert_eq.
Qed.

Lemma overwrite_end (old data : bytes) : overwrite old (length old) data = old ++ data.
Proof. unfold overwrite. by rewrite firstn_all, Nat.sub_diag, drop_ge, app_nil_r by lia. Qed.

Lemma wp_write_all fuel rest w data Q : staged w data -> os_fds w = <[fd := (own, length data)]> fds -> length rest <= fuel ->
  (forall w' e data', staged w' data' -> os_fds w' = <[fd := (own, length data')]> fds -> subclass_os_error e = true -> Q (Raise e) w') ->
  (forall w', staged w' (data ++ rest) -> os_fds w' = <[fd := (own, length (data ++ rest))]> fds -> Q (Ok tt) w') ->
  wp (write_all fuel fd rest) Q w.
Proof.
  revert rest w data. induction fuel as [|fuel IH]; intros rest w data Hst Hfd Hlen Hbad Hgood.
  { destruct rest; simpl in *; [|lia]. apply wp_ret. apply Hgood; by rewrite app_nil_r. }
  destruct rest as [|x rest]; [apply wp_ret, Hgood; by rewrite app_nil_r|].
  cbn [write_all]. apply wp_bind. apply (wp_write fd (x :: rest) own (length data) data).
  - apply (st_evolves _ _ Hst).
  - rewrite Hfd. by rewrite lookup_insert_eq.
  - apply (st_data _ _ Hst).
  - intros w' e Hi He. apply (Hbad w' e data); [by eapply staged_idle| |done]. by destruct Hi as (_ & _ & ->).
  - intros w' out rest' Hsplit Hok' Hfs' Hfd'. rewrite overwrite_end in Hfs'.
    assert (staged w' (data ++ out)) as Hst' by (by eapply staged_write).
    assert (os_fds w' = <[fd := (own, length (data ++ out))]> fds) as Hfd1.
    { rewrite Hfd', Hfd, insert_insert_eq, length_app. done. }
    case_bool_decide as Hz; [by apply wp_raise, (Hbad w' _ (data ++ out))|].
    rewrite Hsplit, drop_app_length. apply (IH rest' w' (data ++ out)); [done|done| |done|].
    + apply (f_equal length) in Hsplit. rewrite length_app in Hsplit. simpl in Hsplit, Hlen. lia.
    + rewrite <-app_assoc, <-Hsplit. exact Hgood.
Qed.
End Staging.

(** A whole file appears at one place, or nothing does. *)
Definition stores (root : nat) (a b f : string) (data : bytes) (fs fs' : Fs) : Prop :=
  forall a' b' f', hidden f' = false -> file_at fs' root a' b' f' = if decide ((a', b', f') = (a, b, f)) then Some data else file_at fs root a' b' f'.

Lemma staged_new root w w' D tmp fd : os_ok w -> is_dir (os_fs w) D -> hidden tmp = true -> (forall i, ~ child (os_fs w) D tmp i) -> os_ok w' ->
  os_fs w' = link_new D tmp (NFile []) (os_fs w) -> os_fds w' = <[fd := (fs_next (os_fs w), 0)]> (os_fds w) ->
  staged root w D (fs_next (os_fs w)) tmp w' [].
Proof.
  intros Hok Hdir Ht Hno Hok' Hfs Hfd. pose proof (ok_wf _ Hok) as Hwf. split.
  - split; [done|]. rewrite Hfs. split; [by apply link_new_view|by apply link_new_keeps].
  - rewrite Hfs. apply link_new_child; try done. by right.
  - intros d m. rewrite Hfs, link_new_child by done. intros [Hc%(wf_linked _ Hwf)|(-> & -> & _)]; [lia|done].
  - rewrite Hfs, link_new_nodes by done. by rewrite decide_True.
Qed.

Section Atomic.
Context (root : nat) (a b : string) (d1 D dfd : nat) (filename : string) (payload : bytes) (hex : string) (Q : res unit -> Os -> Prop) (w : Os).
Context (Hok : os_ok w) (Hdfd : fd_is w dfd D) (Ha : child (os_fs w) root a d1) (Hb : child (os_fs w) d1 b D) (HD : is_dir (os_fs w) D).
Context (Hcf : clean filename) (Hvf : hidden filename = false) (Hct : clean (staging_name filename hex)).
Context (Hbad : forall w' e, evolves root w w' -> os_fds w' = os_fds w -> subclass_os_error e = true -> Q (Raise e) w').
Context (Hgood : forall w', os_ok w' -> stores root a b filename payload (os_fs w) (os_fs w') -> keeps_dirs (os_fs w) (os_fs w') ->
  os_fds w' = os_fds w -> Q (Ok tt) w').
#[local] Abbreviation tmp := (staging_name filename hex).
#[local] Abbreviation own := (fs_next (os_fs w)).
#[local] Abbreviation fd := (os_next_fd w).
#[local] Abbreviation staged_in := (staged root w D own tmp).

Lemma wp_unlink_staged w2 data e : staged_in w2 data -> os_fds w2 = os_fds w -> subclass_os_error e = true ->
  wp (do* attempt (os_unlink tmp dfd) in raise e) Q w2.
Proof.
  intros [He Hc Hl Hd] Hfds He'. pose proof He as (Hok2 & _ & Hk).
  apply wp_bind, wp_attempt, (wp_unlink tmp dfd D); [done|by unfold fd_is; rewrite Hfds|by apply Hk|done| |].
  - intros w3 e3 Hi _. apply wp_raise, Hbad; [eapply evolves_trans; [exact He|by apply idle_evolves]| |done]. by destruct Hi as (_ & _ & ->).
  - intros w3 ino Hci Hnd Hok3 Hfs3 Hfd3. apply wp_raise, Hbad; [|by rewrite Hfd3|done].
    eapply evolves_trans; [exact He|]. split; [done|]. rewrite Hfs3. split; [eapply unlink_view; [done|done|]|by eapply unlink_keeps].
    apply staging_hidden.
Qed.

(** The end of [_write_atomic], from the rename on. *)
Abbreviation finish r := (match r with Ok _ => ret tt | Raise e => do* attempt (os_unlink tmp dfd) in raise e end).

Lemma wp_rename_staged w3 : staged_in w3 payload -> os_fds w3 = os_fds w ->
  wp (os_rename tmp filename dfd) (fun r w' => wp (finish r) Q w') w3.
Proof.
  intros Hst Hfds. pose proof Hst as [He Hc Hl Hd]. pose proof He as (Hok3 & Hview & Hk).
  pose proof (staging_hidden filename hex) as Ht.
  assert (tmp <> filename) as Hne by (intros E; rewrite E, Hvf in Ht; done).
  apply (wp_rename tmp filename dfd D own payload); try done; [by unfold fd_is; rewrite Hfds|by intros [_ E]%Hl| |].
  - intros w4 e Hi He'. eapply wp_unlink_staged; [by eapply staged_idle| |done]. destruct Hi as (_ & _ & ->). done.
  - intros w4 Hdst Hok4 Hfs4 Hfd4. apply wp_ret, Hgood; [done| |rewrite Hfs4; etrans; [exact Hk|by eapply rename_keeps]|by rewrite Hfd4].
    intros a' b' f' Hf'. rewrite Hfs4.
    rewrite (rename_view (os_fs w3) D tmp filename own payload (ok_wf _ Hok3) Hc Hd Hdst Hne root a b d1); try done.
    + case_decide; [done|by apply Hview].
    + apply Hk; [done|by eapply child_dir].
    + by apply Hk.
Qed.

(** From the [finally] that closes the staging file on. *)
Lemma wp_close_staged w2 data (r : res unit) : staged_in w2 data -> os_fds w2 = <[fd := (own, length data)]> (os_fds w) ->
  match r with Ok _ => data = payload | Raise e => subclass_os_error e = true end ->
  wp (do* os_close fd in do* lift r in os_rename tmp filename dfd) (fun r w' => wp (finish r) Q w') w2.
Proof.
  intros Hst2 Hfd2 Hr. apply wp_bind, wp_close; [apply (st_evolves _ _ _ _ _ _ _ Hst2)|].
  intros rc w3 Hok3 Hfs3 Hfd3 Hrc.
  assert (os_fds w3 = os_fds w) as Hfd3' by (rewrite Hfd3, Hfd2, delete_insert_eq; apply delete_id; by apply (ok_fds _ Hok)).
  assert (staged_in w3 data) as Hst3.
  { destruct Hst2 as [He Hc Hl Hd]. split; rewrite ?Hfs3; [|done..]. eapply evolves_trans; [exact He|by apply same_evolves]. }
  destruct rc as [[]|e]; [|by eapply wp_unlink_staged]. apply wp_bind, wp_lift. destruct r as [[]|e]; [|by eapply wp_unlink_staged]. subst data.
  by apply wp_rename_staged.
Qed.

Lemma wp_write_atomic : wp (_write_atomic dfd filename payload hex) Q w.
Proof.
  apply wp_bind, (wp_open_new tmp dfd D); [done..| |].
  { intros w' e Hi He. apply Hbad; [by apply idle_evolves|by apply Hi|done]. }
  intros w1 Hno Hok1 Hfs1 Hfd1. pose proof (staging_hidden filename hex) as Ht.
  pose proof (staged_new root w w1 D tmp fd Hok HD Ht Hno Hok1 Hfs1 Hfd1) as Hst1.
  apply wp_bind, wp_attempt, wp_bind, wp_attempt, wp_bind.
  eapply (wp_write_all root w D own fd tmp (os_fds w) Ht (length payload) payload w1 []); [done|done|lia| |].
  - intros w2 e data Hst2 Hfd2 He. by apply (wp_close_staged w2 data (Raise e)).
  - intros w2 Hst2 Hfd2. simpl in Hst2, Hfd2. apply wp_fsync; [apply (st_evolves _ _ _ _ _ _ _ Hst2)| |].
    + intros w3 e Hi He. apply (wp_close_staged w3 payload (Raise e)); [by eapply staged_idle| |done]. by destruct Hi as (_ & _ & ->).
    + intros w3 Hi. apply (wp_close_staged w3 payload (Ok tt)); [by eapply staged_idle| |done]. by destruct Hi as (_ & _ & ->).
Qed.
End Atomic.

(** ** put *)

(** The stored payloads, by reference. *)
Definition artifact (fs : Fs) (root : nat) (ref : string) : option bytes :=
  match _path_for_ref ref with Some (a, b, f) => file_at fs root a b f | None => None end.

Lemma artifact_same fs fs' root ref : same_view root fs fs' -> artifact fs' root ref = artifact fs root ref.
Proof.
  intros Hv. unfold artifact. destruct (_path_for_ref ref) as [[[a b] f]|] eqn:E; [|done].
  apply path_for_ref_inv in E as (kind & digest & _ & -> & _). apply Hv, filename_visible.
Qed.

(** A store on the directory [root], open as [es_root_fd]. *)
Definition opened (st : LocalFsEvidenceArtifactStore) (root : nat) (w : Os) : Prop :=
  fd_is w (es_root_fd st) root /\ is_dir (os_fs w) root.

Lemma wp_close_opened r Q w : os_ok w ->
  (forall w', os_ok w' -> os_fs w' = os_fs w -> os_fds w' = match r with Ok fd => delete fd (os_fds w) | Raise _ => os_fds w end -> Q (Ok tt) w') ->
  wp (close_opened r) Q w.
Proof.
  intros Hok HQ. destruct r as [fd|e]; [|by apply wp_ret, HQ].
  apply wp_bind, wp_attempt, wp_close; [done|]. intros rc w' Hok' Hfs Hfd _. by apply wp_ret, HQ.
Qed.

Definition forget (r : res nat) (fds : gmap nat (nat * nat)) : gmap nat (nat * nat) := match r with Ok fd => delete fd fds | Raise _ => fds end.

(** The end of [put]: the descriptors are closed, the outcome is told. *)
Lemma wp_closes {A} (att run : res nat) (k : M Os A) Q w fds0 : os_ok w -> forget run (forget att (os_fds w)) = fds0 ->
  (forall w', os_ok w' -> os_fs w' = os_fs w -> os_fds w' = fds0 -> wp k Q w') ->
  wp (do* close_opened att in do* close_opened run in k) Q w.
Proof.
  intros Hok Hfds Hk. apply wp_bind, wp_close_opened; [done|]. intros w1 Hok1 Hfs1 Hfd1.
  apply wp_bind, wp_close_opened; [done|]. intros w2 Hok2 Hfs2 Hfd2. apply Hk; [done|congruence|].
  rewrite Hfd2, Hfd1. by destruct run, att.
Qed.

(** What a [put] of a process alone on the tree does, its calls failing or not. *)
Definition put_outcome (root : nat) (run_ref attempt_ref : string) (kind : ArtifactKind) (payload : bytes) (w : Os)
    (r : res EvidencePutResult) (w' : Os) : Prop :=
  os_ok w' /\ os_fds w' = os_fds w /\ keeps_dirs (os_fs w) (os_fs w') /\
  match r with
  | Ok result =>
      ep_artifact_ref result = artifact_ref kind (_safe_component sha256 run_ref) (_safe_component sha256 attempt_ref) (sha256 payload) /\
      ep_content_digest_sha256 result = sha256 payload /\ ep_size_bytes result = length payload /\
      stores root (_safe_component sha256 run_ref) (_safe_component sha256 attempt_ref) (artifact_filename kind (sha256 payload)) payload
        (os_fs w) (os_fs w')
  | Raise e =>
      same_view root (os_fs w) (os_fs w') /\
      exists msg, e = EvidenceArtifactStoreError msg \/ e = EvidenceRedactionRequired msg
  end.

Lemma store_put_spec st hex run_ref attempt_ref kind payload redacted root w : os_ok w -> opened st root w -> str_forall safe_char hex = true ->
  wp (put sha256 st hex run_ref attempt_ref kind payload redacted) (put_outcome root run_ref attempt_ref kind payload w) w.
Proof.
  intros Hok [Hfd Hdir] Hhex. unfold put. destruct (_ && _).
  { apply wp_raise. split_and!; try done. eexists. by right. }
  destruct (if es_max_payload_bytes st is Some _ then _ else _).
  { apply wp_raise. split_and!; try done. eexists. by left. }
  assert (forall w' e, evolves root w w' -> os_fds w' = os_fds w -> subclass_os_error e = true ->
    wp (if subclass_os_error e then raise (EvidenceArtifactStoreError "failed to persist evidence artifact") else raise e)
      (put_outcome root run_ref attempt_ref kind payload w) w') as Hfail.
  { intros w' e (Hok' & Hv & Hk) Hfds ->. apply wp_raise. split_and!; try done. eexists. by left. }
  apply wp_bind, wp_attempt. apply (wp_mkdir_and_open root _ _ root); [done..|apply safe_component_clean| |].
  { intros w1 e He Hfds1 Hr. apply wp_bind, wp_ret, wp_bind, wp_ret. apply (wp_closes (Raise e) (Raise e) _ _ _ (os_fds w)); [apply He|done|].
    intros w2 Hok2 Hfs2 Hfds2. apply Hfail; [|done|done]. eapply evolves_trans; [exact He|by apply same_evolves]. }
  intros w1 run_fd d1 He1 Hfds1 Hnew1 Hch1 Hd1. pose proof He1 as (Hok1 & Hv1 & Hk1).
  apply wp_bind, wp_attempt. apply (wp_mkdir_and_open root _ _ d1); [done|exists 0; by rewrite Hfds1, lookup_insert_eq|done|apply safe_component_clean| |].
  { intros w2 e He2 Hfds2 Hr. apply wp_bind, wp_ret. apply (wp_closes (Raise e) (Ok run_fd) _ _ _ (os_fds w)); [apply He2| |].
    - simpl. rewrite Hfds2, Hfds1, delete_insert_eq. by apply delete_id.
    - intros w3 Hok3 Hfs3 Hfds3. apply Hfail; [|done|done]. eapply evolves_trans; [exact He1|]. eapply evolves_trans; [exact He2|by apply same_evolves]. }
  intros w2 att_fd d2 He2 Hfds2 Hnew2 Hch2 Hd2. pose proof He2 as (Hok2 & Hv2 & Hk2).
  assert (forget (Ok run_fd) (forget (Ok att_fd) (os_fds w2)) = os_fds w) as Hforget.
  { simpl. rewrite Hfds2, delete_insert_eq. rewrite (delete_id (os_fds w1) att_fd) by done. rewrite Hfds1, delete_insert_eq. by apply delete_id. }
  pose proof (sha256_hex payload) as Hsha.
  apply wp_bind, wp_attempt. apply (wp_write_atomic root (_safe_component sha256 run_ref) (_safe_component sha256 attempt_ref) d1 d2);
    [done|exists 0; by rewrite Hfds2, lookup_insert_eq|by apply Hk2|done|done|by apply filename_clean|apply filename_visible| | |].
  - apply staging_clean; [by apply filename_safe|done].
  - intros w3 e He3 Hfds3 Hr. apply (wp_closes (Ok att_fd) (Ok run_fd) _ _ _ (os_fds w)); [apply He3|by rewrite Hfds3|].
    intros w4 Hok4 Hfs4 Hfds4. apply Hfail; [|done|done].
    eapply evolves_trans; [exact He1|]. eapply evolves_trans; [exact He2|]. eapply evolves_trans; [exact He3|by apply same_evolves].
  - intros w3 Hok3 Hst3 Hk3 Hfds3. apply (wp_closes (Ok att_fd) (Ok run_fd) _ _ _ (os_fds w)); [done|by rewrite Hfds3|].
    intros w4 Hok4 Hfs4 Hfds4. apply wp_ret. unfold put_outcome. rewrite Hfs4. split_and!; try done.
    + by etrans; [exact Hk1|]; etrans; [exact Hk2|].
    + intros a' b' f' Hf'. rewrite Hst3 by done. case_decide; [done|]. by rewrite Hv2, Hv1.
Qed.

(** ** get *)

Lemma wp_read_all fuel fd ino data : forall off w Q, calm w -> os_fds w !! fd = Some (ino, off) -> fs_nodes (os_fs w) !! ino = Some (NFile data) ->
  length (drop off data) < fuel ->
  (forall w' off', calm w' -> os_fs w' = os_fs w -> os_fds w' = <[fd := (ino, off')]> (os_fds w) -> Q (Ok (drop off data)) w') ->
  wp (read_all fuel fd) Q w.
Proof.
  induction fuel as [|fuel IH]; intros off w Q Hw Hfd Hino Hlen HQ; [lia|]. cbn [read_all]. apply wp_bind.
  apply (calm_read fd _ ino off data); [done..|lia|]. intros w1 chunk rest Hsplit Hend Hw1 Hfs1 Hfds1.
  destruct chunk as [|x chunk].
  { assert (drop off data = []) as Hnil by (rewrite Hsplit; simpl; by apply Hend). rewrite Hnil in HQ. by apply wp_ret, (HQ w1 (off + 0)). }
  assert (drop (off + length (x :: chunk)) data = rest) as Hrest.
  { rewrite <-drop_drop, Hsplit. apply drop_app_length. }
  apply wp_bind. apply (IH (off + length (x :: chunk))); [done|by rewrite Hfds1, lookup_insert_eq|by rewrite Hfs1| |].
  - rewrite Hrest. rewrite Hsplit in Hlen. rewrite length_app in Hlen. simpl in Hlen. lia.
  - intros w2 off' Hw2 Hfs2 Hfds2. apply wp_ret. rewrite Hrest, <-Hsplit. apply (HQ w2 off'); [done|by rewrite Hfs2, Hfs1|].
    by rewrite Hfds2, Hfds1, insert_insert_eq.
Qed.

(** The file [f] of a directory. *)
Definition leaf (fs : Fs) (D : nat) (f : string) : option bytes :=
  i ← entries_of fs D ≫= lookup f; match fs_nodes fs !! i with Some (NFile data) => Some data | _ => None end.
Lemma leaf_none fs D f : (forall i, child fs D f i -> forall data, fs_nodes fs !! i <> Some (NFile data)) -> leaf fs D f = None.
Proof.
  intros Hno. unfold leaf. destruct (entries_of fs D ≫= lookup f) as [i|] eqn:E; [|done]. simpl.
  specialize (Hno i (some_child _ _ _ _ E)). destruct (fs_nodes fs !! i) as [[|data|]|]; try done. by destruct (Hno data).
Qed.
Lemma leaf_child fs D f i : child fs D f i -> leaf fs D f = match fs_nodes fs !! i with Some (NFile data) => Some data | _ => None end.
Proof. intros (es & Es & Hi). unfold leaf. rewrite Es. simpl. by rewrite Hi. Qed.

Lemma wp_read_leaf fuel f cur D w Q : calm w -> fd_is w cur D -> is_dir (os_fs w) D -> clean f ->
  (forall data, leaf (os_fs w) D f = Some data -> length data < fuel) ->
  (forall w', settled w w' -> Q (Ok (leaf (os_fs w) D f)) w') -> wp (read_leaf fuel f cur) Q w.
Proof.
  intros Hw Hcur Hdir Hc Hfuel HQ. unfold read_leaf. apply wp_bind, wp_attempt. apply (calm_open false f cur D); [done..| |].
  - intros w1 e Hset He Hno. rewrite He. apply wp_ret. rewrite <-(leaf_none (os_fs w) D f); [by apply HQ|].
    intros i Hi. by apply Hno.
  - intros w1 i Hch _ Hw1 Hfs1 Hfds1. set (fd := os_next_fd w) in *.
    assert (os_fds w1 !! fd = Some (i, 0)) as Hfd by (by rewrite Hfds1, lookup_insert_eq).
    assert (os_fds w !! fd = None) as Hnew by (by apply Hw).
    assert (forall w2 p, calm w2 -> os_fs w2 = os_fs w -> os_fds w2 = <[fd := p]> (os_fds w) ->
      wp (do* os_close fd in lift (Ok (leaf (os_fs w) D f))) Q w2) as Hend.
    { intros w2 p Hw2 Hfs2 Hfds2. apply wp_bind, calm_close; [done|by rewrite Hfds2, lookup_insert_eq|].
      intros w3 Hw3 Hfs3 Hfds3. apply wp_lift, HQ. split; [done|]. split; [congruence|].
      rewrite Hfds3, Hfds2, delete_insert_eq. by apply delete_id. }
    apply wp_bind, wp_attempt, wp_bind. apply (calm_fstat_regular fd i 0); [done..|]. intros w2 (Hw2 & Hfs2 & Hfds2).
    pose proof (leaf_child _ _ _ _ Hch) as Hleaf. rewrite Hfs1 in *.
    destruct (fs_nodes (os_fs w) !! i) as [[|data|]|] eqn:Hi; simpl;
      try (apply wp_ret; rewrite <-Hleaf; eapply Hend; [done|congruence|by rewrite Hfds2]).
    apply wp_bind. apply (wp_read_all fuel fd i data 0); [done|by rewrite Hfds2|by rewrite Hfs2|by apply Hfuel|].
    intros w3 off' Hw3 Hfs3 Hfds3. apply wp_ret. rewrite drop_0, <-Hleaf. eapply Hend; [done|congruence|].
    by rewrite Hfds3, Hfds2, Hfds1, insert_insert_eq.
Qed.

(** The directory that a list of names leads to. *)
Fixpoint dirs_down (fs : Fs) (D : nat) (names : list string) : option nat :=
  match names with
  | [] => Some D
  | n :: names => i ← entries_of fs D ≫= lookup n; if entries_of fs i is Some _ then dirs_down fs i names else None
  end.
Lemma dirs_down_child fs D n i names : child fs D n i -> is_dir fs i -> dirs_down fs D (n :: names) = dirs_down fs i names.
Proof. intros (es & Es & Hi) (es' & E')%is_dir_entries. simpl. rewrite Es. simpl. rewrite Hi. simpl. by rewrite E'. Qed.
Lemma dirs_down_none fs D n names : (forall i, child fs D n i -> ~ is_dir fs i) -> dirs_down fs D (n :: names) = None.
Proof.
  intros Hno. simpl. destruct (entries_of fs D ≫= lookup n) as [i|] eqn:E; [|done]. simpl.
  destruct (entries_of fs i) as [es|] eqn:Ei; [|done]. destruct (Hno i (some_child _ _ _ _ E)). apply is_dir_entries. eauto.
Qed.
Lemma file_at_leaf fs root a b f : file_at fs root a b f = dirs_down fs root [a; b] ≫= fun D => leaf fs D f.
Proof.
  unfold file_at, leaf. cbn [dirs_down]. destruct (entries_of fs root ≫= lookup a) as [d1|]; [|done]. cbn [mbind option_bind].
  destruct (entries_of fs d1) as [e1|]; [|done]. cbn [mbind option_bind]. destruct (e1 !! b) as [d2|]; [|done]. cbn [mbind option_bind].
  destruct (entries_of fs d2) as [e2|] eqn:E2; cbn [mbind option_bind]; [by rewrite E2|done].
Qed.

(** The descriptors of a lookup under way: those of its start, [fds], and the
    one of the directory it has come to. *)
Definition holds (fds : gmap nat (nat * nat)) (root_fd cur D : nat) (fs : Fs) (w : Os) : Prop :=
  calm w /\ os_fs w = fs /\ fd_is w cur D /\ is_dir fs D /\ is_Some (fds !! root_fd) /\
  (cur = root_fd /\ os_fds w = fds \/ cur <> root_fd /\ fds !! cur = None /\ exists p, os_fds w = <[cur := p]> fds).

Lemma calm_descend fds root_fd fs names cur D w Q : Forall clean names -> holds fds root_fd cur D fs w ->
  (forall w' cur' D', holds fds root_fd cur' D' fs w' -> dirs_down fs D names = Some D' -> Q (Ok (cur', Ok true)) w') ->
  (forall w' cur' D', holds fds root_fd cur' D' fs w' -> dirs_down fs D names = None -> Q (Ok (cur', Ok false)) w') ->
  wp (descend root_fd cur names) Q w.
Proof.
  revert cur D w. induction names as [|n names IH]; intros cur D w Hc Hh Hyes Hno; [by apply wp_ret, (Hyes w cur D)|].
  apply Forall_cons in Hc as [Hc Hcs]. pose proof Hh as (Hw & Hfs & Hcur & Hdir & Hroot & Hfds). subst fs. cbn [descend]. apply wp_bind, wp_attempt.
  apply (calm_open true n cur D); [done..| |].
  - intros w1 e (Hw1 & Hfs1 & Hfds1) He Hnd. rewrite He. apply wp_ret, (Hno w1 cur D); [|apply dirs_down_none; intros i Hi; by apply Hnd].
    unfold holds, fd_is. by rewrite Hfs1, Hfds1.
  - intros w1 i Hch Hdi Hw1 Hfs1 Hfds1. specialize (Hdi eq_refl). pose proof Hw as [_ Hfree]. specialize (Hfree _ (le_n _)).
    rewrite (dirs_down_child _ _ _ i) in Hyes, Hno by done. destruct Hcur as [off Hcur].
    destruct Hfds as [[-> Hfds]|(Hne & Hcn & p & Hfds)].
    + rewrite bool_decide_eq_true_2 by done. apply (IH _ i); [done| |done|done]. rewrite <-Hfds in *. split_and!; try done; [by eexists; rewrite Hfds1, lookup_insert_eq|].
      right. split_and!; [intros E; by rewrite E, Hcur in Hfree|done|by eexists].
    + rewrite bool_decide_eq_false_2 by done. rewrite Hfds in Hfree. apply lookup_insert_None in Hfree as [Hfree Hne'].
      apply wp_bind, wp_attempt, calm_close; [done|rewrite Hfds1, lookup_insert_ne, Hfds, lookup_insert_eq by done; by eexists|].
      intros w2 Hw2 Hfs2 Hfds2. assert (os_fds w2 = <[os_next_fd w := (i, 0)]> fds) as E2.
      { by rewrite Hfds2, Hfds1, Hfds, delete_insert_ne, delete_insert_eq, delete_id by done. }
      apply (IH _ i); [done| |done|done]. split_and!; try done; [by rewrite Hfs2|by eexists; rewrite E2, lookup_insert_eq|].
      right. split_and!; [|done|by eexists]. intros E. rewrite E in Hfree. rewrite Hfree in Hroot. by destruct Hroot.
Qed.

(** The end of [get]. *)
Lemma wp_let_go {A} (r : res A) fds root_fd cur D fs w Q : holds fds root_fd cur D fs w ->
  (forall w', calm w' -> os_fs w' = fs -> os_fds w' = fds -> Q r w') ->
  wp (do* (if bool_decide (cur = root_fd) then ret tt else close_opened (Ok cur)) in lift r) Q w.
Proof.
  intros (Hw & Hfs & Hcur & _ & _ & [[-> Hfds]|(Hne & Hcn & p & Hfds)]) HQ; apply wp_bind.
  - rewrite bool_decide_eq_true_2 by done. by apply wp_ret, wp_lift, HQ.
  - rewrite bool_decide_eq_false_2 by done. apply wp_bind, wp_attempt, calm_close; [done|rewrite Hfds, lookup_insert_eq; by eexists|].
    intros w1 Hw1 Hfs1 Hfds1. apply wp_ret, wp_lift, HQ; [done|by rewrite Hfs1|]. rewrite Hfds1, Hfds, delete_insert_eq. by apply delete_id.
Qed.

(** A reference without null characters: a path may not hold one. *)
Definition plain (ref : string) : Prop := str_in_char nul ref = false.

Lemma plain_components ref a b f : plain ref -> _path_for_ref ref = Some (a, b, f) -> clean a /\ clean b /\ clean f.
Proof.
  unfold plain. intros Hp (kind & digest & -> & -> & Ha & Hb & _ & Hd)%path_for_ref_inv. unfold artifact_ref in Hp.
  rewrite !str_in_char_app, !orb_false_iff in Hp. destruct Hp as (_ & _ & _ & Hna & _ & Hnb & _).
  split_and!; [by apply bad_component_clean|by apply bad_component_clean|by apply filename_clean].
Qed.

Lemma store_get_spec fuel st root ref w : calm w -> opened st root w -> plain ref ->
  (forall data, artifact (os_fs w) root ref = Some data -> length data < fuel) ->
  wp (get fuel st ref) (fun r w' => r = Ok (artifact (os_fs w) root ref) /\ settled w w') w.
Proof.
  intros Hw [Hroot Hdir] Hplain Hfuel. unfold get, artifact in *. destruct (_path_for_ref ref) as [[[a b] f]|] eqn:E; [|by apply wp_ret].
  destruct (plain_components _ _ _ _ Hplain E) as (Hca & Hcb & Hcf). rewrite file_at_leaf in *.
  apply wp_bind, (calm_descend (os_fds w) _ (os_fs w) [a; b] _ root); [by apply Forall_cons; split; [|apply Forall_cons]| | |].
  - assert (is_Some (os_fds w !! es_root_fd st)) by (destruct Hroot; eauto). unfold holds. split_and!; try done. by left.
  - intros w1 cur D Hh HD. rewrite HD in *. pose proof Hh as (Hw1 & Hfs1 & Hcur & Hdd & Hr & Hfds1). rewrite <-Hfs1 in Hfuel, Hdd.
    apply wp_bind, wp_attempt, wp_bind, wp_lift, (wp_read_leaf fuel f cur D); [done..|].
    intros w2 (Hw2 & Hfs2 & Hfds2). rewrite Hfs1. apply (wp_let_go _ (os_fds w) _ _ D (os_fs w)).
    + unfold holds, fd_is. rewrite Hfds2. rewrite Hfs1 in *. by split_and!.
    + intros w3 Hw3 Hfs3 Hfds3. by split_and!.
  - intros w1 cur D Hh HD. rewrite HD. apply wp_bind, wp_attempt, wp_bind, wp_lift, wp_ret.
    eapply wp_let_go; [exact Hh|]. intros w3 Hw3 Hfs3 Hfds3. by split_and!.
Qed.

(** ** The store as a map *)

Lemma opened_keeps st root w w' : opened st root w -> os_fds w' = os_fds w -> keeps_dirs (os_fs w) (os_fs w') -> opened st root w'.
Proof. intros [[off Ho] Hd] Hfds [Hk _]. split; [exists off; by rewrite Hfds|by apply Hk]. Qed.

Lemma stores_artifact root kind run_ref attempt_ref payload fs fs' ref :
  stores root (_safe_component sha256 run_ref) (_safe_component sha256 attempt_ref) (artifact_filename kind (sha256 payload)) payload fs fs' ->
  artifact fs' root ref =
    if decide (ref = artifact_ref kind (_safe_component sha256 run_ref) (_safe_component sha256 attempt_ref) (sha256 payload))
    then Some payload else artifact fs root ref.
Proof.
  intros Hs. pose proof (path_for_own_ref kind run_ref attempt_ref payload) as Hown. case_decide as Hr; unfold artifact.
  - subst ref. rewrite Hown, Hs by apply filename_visible. by rewrite decide_True.
  - destruct (_path_for_ref ref) as [[[a b] f]|] eqn:E; [|done].
    pose proof (path_for_ref_inv _ _ _ _ E) as (k & d & _ & -> & _). rewrite Hs by apply filename_visible.
    rewrite decide_False; [done|]. intros [= -> -> Hf]. apply Hr. rewrite Hf in E. by eapply path_for_ref_inj.
Qed.

(** The map after a [put] that ended as [r]. *)
Definition after_put (payload : bytes) (r : res EvidencePutResult) (before : string -> option bytes) (ref : string) : option bytes :=
  match r with Ok result => if decide (ref = ep_artifact_ref result) then Some payload else before ref | Raise _ => before ref end.

Lemma put_step st hex run_ref attempt_ref kind payload redacted root w : os_ok w -> opened st root w -> str_forall safe_char hex = true ->
  wp (put sha256 st hex run_ref attempt_ref kind payload redacted)
    (fun r w' => os_ok w' /\ opened st root w' /\ os_fds w' = os_fds w /\
       (forall result, r = Ok result -> ep_artifact_ref result = artifact_ref kind (_safe_component sha256 run_ref) (_safe_component sha256 attempt_ref) (sha256 payload)) /\
       (forall e, r = Raise e -> exists msg, e = EvidenceArtifactStoreError msg \/ e = EvidenceRedactionRequired msg) /\
       forall ref, artifact (os_fs w') root ref = after_put payload r (artifact (os_fs w) root) ref) w.
Proof.
  intros Hok Hop Hhex. eapply wp_mono; [by apply (store_put_spec st hex run_ref attempt_ref kind payload redacted root)|].
  intros r w' (Hok' & Hfds & Hk & Hr). split; [done|]. split; [by eapply opened_keeps|]. split; [done|].
  destruct r as [result|e].
  - destruct Hr as (Href & _ & _ & Hst). split; [by intros ? [= <-]|]. split; [done|]. intros ref. simpl. rewrite Href. by apply stores_artifact.
  - destruct Hr as [Hv He]. split; [done|]. split; [by intros ? [= <-]|]. intros ref. by apply artifact_same.
Qed.

(** A client that stores one payload after another, whatever becomes of each. *)
Record job := { j_hex : string; j_run : string; j_attempt : string; j_kind : ArtifactKind; j_payload : bytes; j_redacted : bool }.
Definition put_job (st : LocalFsEvidenceArtifactStore) (j : job) : M Os EvidencePutResult :=
  put sha256 st (j_hex j) (j_run j) (j_attempt j) (j_kind j) (j_payload j) (j_redacted j).
Fixpoint put_all (st : LocalFsEvidenceArtifactStore) (jobs : list job) : M Os (list (res EvidencePutResult)) :=
  match jobs with
  | [] => ret []
  | j :: jobs => let* r := attempt (put_job st j) in let* rs := put_all st jobs in ret (r :: rs)
  end.
Definition good_hex (j : job) : Prop := str_forall safe_char (j_hex j) = true.
Definition job_ref (j : job) : string :=
  artifact_ref (j_kind j) (_safe_component sha256 (j_run j)) (_safe_component sha256 (j_attempt j)) (sha256 (j_payload j)).
(** No two of the payloads have the same digest. *)
Definition no_collision (jobs : list job) : Prop :=
  forall i j, i ∈ jobs -> j ∈ jobs -> sha256 (j_payload i) = sha256 (j_payload j) -> j_payload i = j_payload j.

Lemma job_ref_digest i j : job_ref i = job_ref j -> sha256 (j_payload i) = sha256 (j_payload j).
Proof.
  intros E. pose proof (path_for_own_ref (j_kind i) (j_run i) (j_attempt i) (j_payload i)) as H1.
  pose proof (path_for_own_ref (j_kind j) (j_run j) (j_attempt j) (j_payload j)) as H2.
  unfold job_ref in E. rewrite E in H1. rewrite H1 in H2. injection H2 as _ _ Hf. by apply filename_inj in Hf as [_ ?].
Qed.

Lemma job_ref_plain j : plain (job_ref j).
Proof.
  assert (forall s, str_forall safe_char s = true -> str_in_char nul s = false) as Hs by (intros s; apply safe_no; do 3 right; left).
  unfold plain, job_ref, artifact_ref. rewrite !str_in_char_app. rewrite !(Hs (_safe_component _ _)) by apply safe_component_safe.
  rewrite (Hs (sha256 _)) by (eapply str_forall_weaken, sha256_hex; apply hex_char_safe). by destruct (j_kind j).
Qed.

(** What [put_all] leaves: the store still open, every payload that was there
    and is not replaced, and the payloads of the jobs that went through. *)
Lemma put_all_spec st root jobs : Forall good_hex jobs -> forall w, os_ok w -> opened st root w ->
  wp (put_all st jobs) (fun r w' => os_ok w' /\ opened st root w' /\ os_fds w' = os_fds w /\
    (forall j0, no_collision (j0 :: jobs) -> artifact (os_fs w) root (job_ref j0) = Some (j_payload j0) ->
       artifact (os_fs w') root (job_ref j0) = Some (j_payload j0)) /\
    exists rs, r = Ok rs /\ forall i j result, jobs !! i = Some j -> rs !! i = Some (Ok result) -> ep_artifact_ref result = job_ref j /\
      (no_collision jobs -> artifact (os_fs w') root (job_ref j) = Some (j_payload j))) w.
Proof.
  induction jobs as [|j jobs IH]; intros Hhex w Hok Hop; [apply wp_ret; split_and!; try done; by eexists|].
  apply Forall_cons in Hhex as [Hj Hjs]. cbn [put_all]. apply wp_bind, wp_attempt.
  eapply wp_mono; [by apply (put_step st (j_hex j) (j_run j) (j_attempt j) (j_kind j) (j_payload j) (j_redacted j) root)|].
  intros r w1 (Hok1 & Hop1 & Hfds1 & Href & _ & Hart). apply wp_bind. eapply wp_mono; [by apply IH|].
  intros r' w2 (Hok2 & Hop2 & Hfds2 & Hkeep & rs & -> & Hrs). apply wp_ret. split_and!; [done|done|congruence| |eexists; split; [done|]].
  - intros j0 Hnc Ha. apply Hkeep; [intros x y Hx Hy; apply Hnc; set_solver|]. rewrite Hart. destruct r as [result|e]; [|done]. simpl.
    rewrite (Href result) by done. fold (job_ref j). case_decide as E; [|done]. f_equal. symmetry. apply Hnc; [set_solver..|by apply job_ref_digest].
  - intros [|i] ji result; simpl; [intros [= <-] [= ->]|intros Hl Hr; destruct (Hrs i ji result Hl Hr) as [H1 H2]].
    + split; [by apply Href|]. intros Hnc. apply Hkeep; [done|]. rewrite Hart. simpl. rewrite (Href result) by done. by rewrite decide_True.
    + split; [done|]. intros Hnc. apply H2. intros x y Hx Hy. apply Hnc; set_solver.
Qed.

Lemma get_run fuel st root ref w : calm w -> opened st root w -> plain ref ->
  (forall data, artifact (os_fs w) root ref = Some data -> length data < fuel) ->
  exists w', get fuel st ref w = (Ok (artifact (os_fs w) root ref), w') /\ settled w w'.
Proof.
  intros Hw Hop Hp Hf. pose proof (store_get_spec fuel st root ref w Hw Hop Hp Hf) as H. unfold wp in H. destruct (get fuel st ref w) as [r w'].
  simpl in H. destruct H as [-> ?]. by exists w'.
Qed.

(** C7: Storing evidence is atomic under failing system calls. A put of a
    process that is alone on the tree, any of whose calls may fail or write
    short, ends in one of two ways: it returns a reference and the map from
    references to payloads has changed at exactly that reference, to the
    payload given, or it raises one of the two errors of the port and the map
    is what it was. Either way no descriptor is left open, and a payload that
    is not redacted or over the cap is never stored. *)
Theorem put_is_atomic st hex run_ref attempt_ref kind payload redacted root w r w' :
  os_ok w -> opened st root w -> str_forall safe_char hex = true ->
  put sha256 st hex run_ref attempt_ref kind payload redacted w = (r, w') ->
  os_fds w' = os_fds w /\ opened st root w' /\
  match r with
  | Ok result =>
      redacted = true /\ (forall cap, es_max_payload_bytes st = Some cap -> (Z.of_nat (length payload) <= cap)%Z) /\
      ep_content_digest_sha256 result = sha256 payload /\ ep_size_bytes result = length payload /\
      forall ref, artifact (os_fs w') root ref = if decide (ref = ep_artifact_ref result) then Some payload else artifact (os_fs w) root ref
  | Raise e =>
      (exists msg, e = EvidenceArtifactStoreError msg \/ e = EvidenceRedactionRequired msg) /\
      forall ref, artifact (os_fs w') root ref = artifact (os_fs w) root ref
  end.
Proof.
  intros Hok Hop Hhex E.
  pose proof (wp_run _ _ _ _ _ (put_step st hex run_ref attempt_ref kind payload redacted root w Hok Hop Hhex) E) as (_ & Hop' & Hfds & _ & He & Hart).
  pose proof (wp_run _ _ _ _ _ (store_put_spec st hex run_ref attempt_ref kind payload redacted root w Hok Hop Hhex) E) as (_ & _ & _ & Hr).
  split; [done|]. split; [done|]. destruct r as [result|e]; [|split; [by apply He|done]]. destruct Hr as (_ & Hdig & Hsize & _).
  unfold put in E. destruct (_ && _) eqn:Ered; [done|]. destruct (if es_max_payload_bytes st is Some _ then _ else _) eqn:Ecap; [done|].
  split_and!; [by destruct redacted| |done..]. intros cap Hcap. rewrite Hcap in Ecap. by apply Z.ltb_ge.
Qed.

(** C13: What was stored can be read back. After any sequence of puts by a
    process that is alone on the tree, their calls failing or not, once the
    system is quiet [get] gives for every reference that was returned the
    payload stored under it, later puts notwithstanding, and leaves the tree
    and the descriptors as they were. The digests of the payloads are assumed
    not to collide. *)
Theorem stored_evidence_reads_back fuel st root jobs w rs w' i j result :
  os_ok w -> opened st root w -> Forall good_hex jobs -> no_collision jobs ->
  put_all st jobs w = (Ok rs, w') -> jobs !! i = Some j -> rs !! i = Some (Ok result) ->
  os_script w' = [] -> length (j_payload j) < fuel ->
  exists w'', get fuel st (ep_artifact_ref result) w' = (Ok (Some (j_payload j)), w'') /\ os_fs w'' = os_fs w' /\ os_fds w'' = os_fds w'.
Proof.
  intros Hok Hop Hhex Hnc E Hj Hr Hquiet Hfuel.
  pose proof (wp_run _ _ _ _ _ (put_all_spec st root jobs Hhex w Hok Hop) E) as (Hok' & Hop' & _ & _ & rs' & [= <-] & Hrs).
  destruct (Hrs i j result Hj Hr) as [-> Hart]. specialize (Hart Hnc).
  destruct (get_run fuel st root (job_ref j) w') as (w'' & Eg & _ & Hfs & Hfds).
  - split; [done|]. apply (ok_fds _ Hok').
  - done.
  - apply job_ref_plain.
  - intros data Hd. rewrite Hart in Hd. by injection Hd as <-.
  - exists w''. by rewrite Eg, Hart.
Qed.
End Laws.

(** ** A concrete store *)

Module EvidenceDemo.
(** A digest that depends on the length of the payload only. *)
Definition digest (p : bytes) : string :=
  let c := nth (length p mod 16) (String.list_ascii_of_string "0123456789abcdef") "0"%char in String.string_of_list_ascii (repeat c 64).
Lemma digest_length p : String.length (digest p) = 64.
Proof. by vm_compute. Qed.
Lemma digest_hex p : str_forall is_hex_char (digest p) = true.
Proof.
  unfold digest. assert (length p mod 16 < 16) as Hl by (by apply Nat.mod_upper_bound). revert Hl. generalize (length p mod 16). intros n Hl.
  do 16 (destruct n as [|n]; [by vm_compute|]). lia.
Qed.

Definition ok_event : event := quiet_event.
Definition short (n : nat) : event := {| ev_before := id; ev_fails := false; ev_count := Some n |}.
Definition failing : event := {| ev_before := id; ev_fails := true; ev_count := None |}.
Definition tree : Fs := {| fs_nodes := {[0 := NDir 0 ∅]}; fs_next := 1 |}.
(** The first [put] writes its three bytes in two turns, the rename of the
    second fails, nothing fails afterwards. *)
Definition script : list event := repeat ok_event 5 ++ [short 2; short 1] ++ repeat ok_event 5 ++ repeat ok_event 8 ++ [failing] ++ repeat ok_event 3.
Definition start : Os := {| os_fs := tree; os_fds := {[3 := (0, 0)]}; os_next_fd := 4; os_script := script; os_log := [] |}.
Definition store : LocalFsEvidenceArtifactStore := {| es_root_fd := 3; es_max_payload_bytes := Some 8%Z |}.
Definition evidence (payload : string) (hex : string) : job :=
  {| j_hex := hex; j_run := "run/1"; j_attempt := "a:1"; j_kind := AK_HAR; j_payload := utf8 payload; j_redacted := true |}.
Definition jobs : list job := [evidence "abc" "01"; evidence "de" "02"; evidence "f" "03"].

Lemma start_ok : os_ok start.
Proof.
  split.
  - unfold start, script, undisturbed. simpl. repeat (apply Forall_cons; split; [done|]). by apply Forall_nil.
  - split; unfold child, entries_of, is_dir; simpl.
    + intros i Hi. apply lookup_singleton_ne. lia.
    + intros d n i (es & E & Hi). destruct (decide (d = 0)) as [->|Hd].
      * rewrite lookup_singleton_eq in E. by simplify_eq.
      * by rewrite lookup_singleton_ne in E.
    + intros d d' n n' i (es & E & Hi). destruct (decide (d = 0)) as [->|Hd].
      * rewrite lookup_singleton_eq in E. by simplify_eq.
      * by rewrite lookup_singleton_ne in E.
  - intros fd Hle. simpl in *. apply lookup_singleton_ne. lia.
Qed.
Lemma store_opened : opened store 0 start.
Proof. split; [by exists 0|]. by exists 0, ∅. Qed.
Lemma jobs_good : Forall good_hex jobs.
Proof. by repeat constructor. Qed.
Lemma jobs_apart : no_collision digest jobs.
Proof.
  intros i j Hi Hj. unfold jobs in *. apply elem_of_cons in Hi, Hj. rewrite !elem_of_cons, elem_of_nil in Hi, Hj.
  destruct Hi as [-> |[-> |[-> |[]]]], Hj as [-> |[-> |[-> |[]]]]; vm_compute; congruence.
Qed.
Definition ended := put_all digest store jobs start.
End EvidenceDemo.
Import EvidenceDemo.

Lemma put_is_atomic_witness :
  exists result w', put_job digest store (evidence "abc" "01") start = (Ok result, w') /\
    artifact (os_fs w') 0 (ep_artifact_ref result) = Some (utf8 "abc") /\ os_fds w' = os_fds start.
Proof.
  destruct (put_job digest store (evidence "abc" "01") start) as [r w'] eqn:E.
  pose proof (put_is_atomic digest digest_length digest_hex store "01" "run/1" "a:1" AK_HAR (utf8 "abc") true 0 start r w'
    start_ok store_opened eq_refl E) as (Hfds & _ & Hr).
  destruct r as [result|e]; [|exfalso; apply (f_equal (fun x => is_ok x.1)) in E; vm_compute in E; discriminate E].
  exists result, w'. destruct Hr as (_ & _ & _ & _ & Hart). rewrite Hart, decide_True by reflexivity. auto.
Defined.

Lemma stored_evidence_reads_back_witness :
  exists result w'', (default (Raise OSError) (match ended.1 with Ok rs => rs | Raise _ => [] end !! 0)) = Ok result /\
    get 10 store (ep_artifact_ref result) ended.2 = (Ok (Some (utf8 "abc")), w'').
Proof.
  destruct ended as [[rs|e] w'] eqn:E; [|apply (f_equal (fun x => is_ok x.1)) in E; vm_compute in E; discriminate E].
  assert (os_script w' = []) as Hq by (change w' with ((Ok rs : res (list (res EvidencePutResult)), w').2); rewrite <-E; vm_compute; reflexivity).
  assert (match rs !! 0 with Some (Ok _) => true | _ => false end = true) as H0.
  { change rs with (match (Ok rs : res (list (res EvidencePutResult)), w').1 with Ok l => l | Raise _ => [] end). rewrite <-E. vm_compute. reflexivity. }
  destruct (rs !! 0) as [[result|e]|] eqn:Hr; [|discriminate H0..].
  destruct (stored_evidence_reads_back digest digest_length digest_hex 10 store 0 jobs start rs w' 0 (evidence "abc" "01") result
    start_ok store_opened jobs_good jobs_apart E eq_refl Hr Hq) as (w'' & Hg & _); [vm_compute; lia|].
  exists result, w''. simpl. rewrite Hr. split; [reflexivity|exact Hg].
Defined.

(** ** What differs from the documentation *)

(** A reference with a null character makes [get] raise, not return [None]. *)
Lemma nul_reference_raises :
  (get 10 store ("artifact:evidence:har:a" +:+ String nul ":b:" +:+ digest []) start).1 = Raise (ValueError "embedded null byte").
Proof. by vm_compute. Qed.

(** The no-op store refuses a payload that is not redacted. *)
Lemma noop_store_refuses : is_ok (noop_put digest "r" "a" AK_OTHER [] false) = false.
Proof. done. Qed.
