(* ===== verification/HarRedaction.v ===== *)
(** * Redaction of captured HTTP archives

    [runtime_support/har_redaction.py] and the matcher of sensitive keys in
    [runtime_support/_log_redaction.py], on JSON documents. [json.loads] and
    [json.dumps] are parameters of the outermost function; everything between
    them is a pass over the document. Text is ASCII where a pattern ignores
    case. What the pass keeps and hides is in [HarLaws]. *)
From Stdlib Require Import Ascii.
From S2P Require Import Prelude PyDict PyStr UrlLib UrlJoin.

(** ** JSON *)

(** What [json.loads] returns. A number is kept as its text. *)
Inductive Json :=
  | JNull
  | JBool (b : bool)
  | JNumber (text : string)
  | JString (s : string)
  | JArray (items : list Json)
  | JObject (fields : dict string Json).

(** ** _log_redaction.py *)

Definition newline : string := String "010" "".
(** A pattern that ends in [$] also matches before a newline that ends the text. *)
Definition at_end (key : string) : string :=
  match rpartition "010" key with (before, true, "") => before | _ => key end.
(** [(?:^|[_-])word$] *)
Definition last_word (word key : string) : bool :=
  bool_decide (key = word) || endswith ("_" +:+ word) key || endswith ("-" +:+ word) key.
Definition _SENSITIVE_WORDS : list string :=
  ["body"; "prompt"; "payload"; "token"; "tokens"; "secret"; "key"; "password"; "passwd"; "credential"; "credentials"; "csrf";
   "session-id"; "session_id"].
(** [^(?:set[-_]?)?cookie$] and the like. *)
Definition _SENSITIVE_NAMES : list string :=
  ["apikey"; "cookie"; "setcookie"; "set-cookie"; "set_cookie"; "authorization"; "proxyauthorization"; "proxy-authorization";
   "proxy_authorization"; "response-text"; "response_text"; "response-body"; "response_body"].

Definition is_sensitive_key (key : string) : bool :=
  existsb (fun key => existsb (fun word => last_word word key) _SENSITIVE_WORDS || bool_decide (key ∈ _SENSITIVE_NAMES))
    [lower key; at_end (lower key)].

(** *** The log processor *)

Definition REDACTED : string := "<redacted>".
Definition REDACTED_DEEP : string := "<redacted-too-deep>".
Definition _MAX_DEPTH : nat := 12.

(** [_redact_value] at [depth = _MAX_DEPTH - room]. *)
Fixpoint redact_value (room : nat) (value : Json) : Json :=
  match room with
  | O => JString REDACTED_DEEP
  | S room =>
      match value with
      | JObject fields => JObject (map (fun kv => (kv.1, if is_sensitive_key kv.1 then JString REDACTED else redact_value room kv.2)) fields)
      | JArray items => JArray (map (redact_value room) items)
      | _ => value
      end
  end.
Definition _redact_value (value : Json) (depth : nat) : Json := redact_value (_MAX_DEPTH - depth) value.
(** [RedactSensitiveProcessor.__call__]: the keys of the event are assigned in
    place, one after the other. *)
Definition redact_event (event_dict : dict string Json) : dict string Json :=
  fold_left (fun d key =>
    dict_set d key (if is_sensitive_key key then JString REDACTED else _redact_value (default JNull (dict_get d key)) 1))
    (dict_keys event_dict) event_dict.

(** ** har_redaction.py *)

Definition _HAR_EXTRA_SENSITIVE_KEYS : list string :=
  ["session"; "sid"; "sessionid"; "session_id"; "session_token"; "apikey"; "api_key"; "authtoken"; "auth_token"; "access_token";
   "id_token"; "refresh_token"; "code"; "jwt"; "state"; "nonce"].

Definition is_upper (c : ascii) : bool := ((65 <=? N_of_ascii c) && (N_of_ascii c <=? 90))%N.
Definition lower_or_digit (c : ascii) : bool := is_digit c || ((97 <=? N_of_ascii c) && (N_of_ascii c <=? 122))%N.
(** [re.sub(r"(?<=[a-z0-9])([A-Z])", r"_\1", name)]; [after] tells whether the
    character before is a lower-case letter or a digit. *)
Fixpoint snake_case (after : bool) (name : string) : string :=
  match name with
  | EmptyString => ""
  | String c name =>
      let rest := String c (snake_case (lower_or_digit c) name) in if after && is_upper c then String "_" rest else rest
  end.
(** [re.sub(r"[^a-z0-9]+", "_", snake)]; [inside] a run that is already written. *)
Fixpoint collapse (inside : bool) (s : string) : string :=
  match s with
  | EmptyString => ""
  | String c s =>
      if lower_or_digit c then String c (collapse false s)
      else if inside then collapse true s else String "_" (collapse true s)
  end.
Definition underscore (c : ascii) : bool := bool_decide (c = "_"%char).

Definition _is_har_sensitive_key (name : string) : bool :=
  let snake := lower (snake_case false name) in
  let collapsed := str_rstrip underscore (str_lstrip underscore (collapse false snake)) in
  is_sensitive_key name || bool_decide (lower name ∈ _HAR_EXTRA_SENSITIVE_KEYS) || bool_decide (snake ∈ _HAR_EXTRA_SENSITIVE_KEYS)
  || bool_decide (collapsed ∈ _HAR_EXTRA_SENSITIVE_KEYS).

Definition REDACTED_VALUE : string := "<redacted>".
Definition REDACTED_BODY : string := "<redacted-body>".
Definition REDACTED_CANARY : string := "<redacted-canary>".

(** *** urllib.parse.quote *)

(** [quote(s, safe="")] *)
Fixpoint quote_all (s : string) : string :=
  match s with
  | EmptyString => ""
  | String c s =>
      if always_safe c then String c (quote_all s)
      else String "%" (String (upper_hex (N_of_ascii c / 16)) (String (upper_hex (N_of_ascii c mod 16)) (quote_all s)))
  end.
(** [quote_plus(s)] *)
Fixpoint quote_plus (s : string) : string :=
  match s with
  | EmptyString => ""
  | String c s => if bool_decide (c = " "%char) then String "+" (quote_plus s) else quote_all (String c "") +:+ quote_plus s
  end.
Definition urlencode (query : list (string * string)) : string :=
  join "&" (map (fun kv => quote_plus kv.1 +:+ "=" +:+ quote_plus kv.2) query).

(** [s.replace(old, new)] for a text [old] that is not empty: the occurrences
    from left to right, [skip] characters of the last one still to come. *)
Fixpoint replace_from (skip : nat) (old new s : string) : string :=
  match s with
  | EmptyString => ""
  | String c s' =>
      match skip with
      | S skip => replace_from skip old new s'
      | O => if startswith old s then new +:+ replace_from (String.length old - 1) old new s' else String c (replace_from 0 old new s')
      end
  end.
Definition str_replace (old new s : string) : string := replace_from 0 old new s.

(** *** Canary tokens *)

Definition _canary_variants (canary : string) : list string :=
  let encoded := quote_all canary in
  let variants := [canary] ++ (if bool_decide (encoded = canary) then [] else [encoded]) in
  let plus_encoded := str_replace "%20" "+" encoded in
  if negb (bool_decide (plus_encoded = encoded)) && negb (bool_decide (plus_encoded ∈ variants)) then variants ++ [plus_encoded] else variants.

Definition scrub_variant (out variant : string) : string :=
  if str_contains variant out then str_replace variant REDACTED_CANARY out else out.
Definition _scrub_canary (value : string) (canaries : list string) : string :=
  fold_left (fun out canary => if truthy_str canary then fold_left scrub_variant (_canary_variants canary) out else out) canaries value.

(** *** The documented places *)

Definition redacted_entry : Json := JObject [("name", JString REDACTED_VALUE); ("value", JString REDACTED_VALUE)].

Definition redact_named (canaries : list string) (entry : Json) : Json :=
  match entry with
  | JObject fields =>
      let name := dict_get fields "name" in
      let value := dict_get fields "value" in
      if match name with Some (JString name) => _is_har_sensitive_key name | _ => false end
      then JObject (dict_set fields "value" (JString REDACTED_VALUE))
      else
        match value with
        | Some (JString value) => JObject (dict_set fields "value" (JString (_scrub_canary value canaries)))
        | None | Some JNull => JObject fields
        | Some _ => JObject (dict_set fields "value" (JString REDACTED_VALUE))
        end
  | _ => redacted_entry
  end.
Definition _redact_name_value_array (items : list Json) (canaries : list string) : list Json := map (redact_named canaries) items.

Definition redact_cookie (entry : Json) : Json :=
  match entry with
  | JObject fields => JObject (if dict_mem fields "value" then dict_set fields "value" (JString REDACTED_VALUE) else fields)
  | _ => redacted_entry
  end.
Definition _redact_cookie_array (items : list Json) : list Json := map redact_cookie items.

(** [value = out.get(key)]; [if isinstance(value, list): out[key] = f(value)],
    and the same for strings and dicts. *)
Definition on_list (key : string) (f : list Json -> list Json) (out : dict string Json) : dict string Json :=
  match dict_get out key with Some (JArray items) => dict_set out key (JArray (f items)) | _ => out end.
Definition on_text (key : string) (f : string -> string) (out : dict string Json) : dict string Json :=
  match dict_get out key with Some (JString s) => dict_set out key (JString (f s)) | _ => out end.
Definition on_dict (key : string) (f : dict string Json -> dict string Json) (out : dict string Json) : dict string Json :=
  match dict_get out key with Some (JObject fields) => dict_set out key (JObject (f fields)) | _ => out end.

Definition _redact_post_data (post_data : dict string Json) (canaries : list string) : dict string Json :=
  let out := on_list "params" (fun params => _redact_name_value_array params canaries) post_data in
  on_text "text" (fun _ => REDACTED_BODY) out.

Definition _redact_content (content : dict string Json) : dict string Json :=
  if dict_mem content "text" then dict_set content "text" (JString REDACTED_BODY) else content.

Section Har.
Context (env : NetEnv).

(** The URL put together again from the parts that may stay. *)
Definition rebuilt_url (parts : SplitResult) : string :=
  let host := default "" (hostname parts) in
  let port := match port parts with Ok port => port | Raise _ => None end in
  let netloc := match port with None => host | Some port => host +:+ ":" +:+ pretty port end in
  let redacted_query :=
    if truthy_str (sr_query parts)
    then map (fun nv => (nv.1, if _is_har_sensitive_key nv.1 then REDACTED_VALUE else nv.2)) (parse_qsl (sr_query parts))
    else [] in
  urlunsplit (sr_scheme parts) netloc (sr_path parts) (urlencode redacted_query).

Definition _redact_url (url : string) (canaries : list string) : string :=
  match urlsplit env url with
  | Raise _ => _scrub_canary REDACTED_VALUE canaries
  | Ok parts => _scrub_canary (rebuilt_url parts) canaries
  end.

Definition _redact_request (request : dict string Json) (canaries : list string) : dict string Json :=
  let out := on_text "url" (fun url => _redact_url url canaries) request in
  let out := on_list "headers" (fun headers => _redact_name_value_array headers canaries) out in
  let out := on_list "cookies" _redact_cookie_array out in
  let out := on_list "queryString" (fun query => _redact_name_value_array query canaries) out in
  on_dict "postData" (fun post_data => _redact_post_data post_data canaries) out.

Definition _redact_response (response : dict string Json) (canaries : list string) : dict string Json :=
  let out := on_list "headers" (fun headers => _redact_name_value_array headers canaries) response in
  let out := on_list "cookies" _redact_cookie_array out in
  let out := on_text "redirectURL" (fun url => _redact_url url canaries) out in
  on_dict "content" _redact_content out.

Definition _redact_entry (entry : dict string Json) (canaries : list string) : dict string Json :=
  let out := on_dict "request" (fun request => _redact_request request canaries) entry in
  on_dict "response" (fun response => _redact_response response canaries) out.

(** *** The whole document *)

Fixpoint _walk_scrub_canaries (canaries : list string) (value : Json) : Json :=
  match value with
  | JString s => JString (_scrub_canary s canaries)
  | JObject fields =>
      JObject (fold_left (fun scrubbed kv => dict_set scrubbed (_scrub_canary kv.1 canaries) kv.2)
        (map (fun kv => (kv.1, _walk_scrub_canaries canaries kv.2)) fields) [])
  | JArray items => JArray (map (_walk_scrub_canaries canaries) items)
  | _ => value
  end.

Definition redact_log_entry (canaries : list string) (entry : Json) : Json :=
  match entry with JObject fields => JObject (_redact_entry fields canaries) | _ => entry end.

(** Between [json.loads] and [json.dumps]. *)
Definition redact_document (document : Json) (canary_tokens : list string) : res Json :=
  let canaries := filter (fun token => truthy_str token = true) canary_tokens in
  match document with
  | JObject fields =>
      match dict_get fields "log" with
      | Some (JObject log) =>
          match dict_get log "entries" with
          | None | Some JNull =>
              let new_doc := JObject (dict_set fields "log" (JObject log)) in
              Ok (if canaries is [] then new_doc else _walk_scrub_canaries canaries new_doc)
          | Some (JArray entries) =>
              let new_log := dict_set log "entries" (JArray (map (redact_log_entry canaries) entries)) in
              let new_doc := JObject (dict_set fields "log" (JObject new_log)) in
              Ok (if canaries is [] then new_doc else _walk_scrub_canaries canaries new_doc)
          | Some _ => Raise (HarRedactionError "HAR ``log.entries`` must be a list when present")
          end
      | _ => Raise (HarRedactionError "HAR payload missing required ``log`` object")
      end
  | _ => Raise (HarRedactionError "HAR payload missing required ``log`` object")
  end.

(** [json_dumps] includes the encoding, which a lone surrogate makes fail. *)
Context (json_loads : string -> res Json) (json_dumps : Json -> res string).

Definition redact_har_payload (payload : string) (canary_tokens : list string) : res string :=
  match json_loads payload with
  | Raise e => if subclass_value_error e then Raise (HarRedactionError "HAR payload is not valid JSON") else Raise e
  | Ok document => let? new_doc := redact_document document canary_tokens in json_dumps new_doc
  end.
End Har.
