(* ===== verification/HarLaws.v ===== *)
(** * What the redaction of archives keeps and hides

    Two promises of [HarRedaction]: a canary token, plain or percent-encoded,
    is in no text of the document that is persisted; and the secrets of an
    archive (the values of sensitive headers, parameters and fields, cookie
    values, bodies, the user information of URLs) do not influence what is
    persisted at all. *)
From Stdlib Require Import Ascii.
From S2P Require Import Prelude PyDict PyStr UrlLib UrlJoin HarRedaction.

(** ** Occurrences *)

Lemma startswith_cons c t x s : startswith (String c t) (String x s) = bool_decide (c = x) && startswith t s.
Proof. unfold startswith. simpl. destruct (ascii_dec c x) as [->|Hne]; [by rewrite bool_decide_eq_true_2|by rewrite bool_decide_eq_false_2]. Qed.
Lemma startswith_nil c t : startswith (String c t) "" = false.
Proof. done. Qed.
Lemma startswith_empty s : startswith "" s = true.
Proof. by destruct s. Qed.
Lemma contains_cons t c s : str_contains t (String c s) = startswith t (String c s) || str_contains t s.
Proof. done. Qed.
Lemma contains_empty t : t <> "" -> str_contains t "" = false.
Proof. by destruct t. Qed.

Lemma startswith_sep c t p X : str_in_char c t = false -> startswith t (p +:+ String c X) = startswith t p.
Proof.
  revert p. induction t as [|a t IH]; intros p Hc; [by rewrite !startswith_empty|]. simpl in Hc. apply orb_false_iff in Hc as [Ha Hc].
  apply bool_decide_eq_false in Ha. destruct p as [|x p].
  - rewrite append_nil_l, startswith_cons, bool_decide_eq_false_2 by congruence. done.
  - rewrite append_cons, !startswith_cons. by rewrite IH.
Qed.
(** A text without [c] cannot straddle a [c]. *)
Lemma contains_sep c t p X : str_in_char c t = false -> t <> "" -> str_contains t (p +:+ String c X) = str_contains t p || str_contains t X.
Proof.
  intros Hc Hne. induction p as [|x p IH].
  - rewrite append_nil_l, contains_cons, contains_empty by done. rewrite <-(append_nil_l (String c X)), startswith_sep by done.
    by destruct t.
  - rewrite append_cons, !contains_cons, IH. rewrite <-append_cons, startswith_sep by done. by rewrite orb_assoc.
Qed.

Lemma startswith_char c t s : startswith t s = true -> str_in_char c t = true -> str_in_char c s = true.
Proof. intros [r ->]%startswith_spec H. by rewrite str_in_char_app, H. Qed.
Lemma contains_char c t s : str_contains t s = true -> str_in_char c t = true -> str_in_char c s = true.
Proof.
  induction s as [|x s IH]; [destruct t; [done|done]|].
  rewrite contains_cons, orb_true_iff. intros [H|H] Hc; [by eapply startswith_char|]. simpl. rewrite IH by done. apply orb_true_r.
Qed.

(** ** Replacement by the marker *)

Definition angle_free (t : string) : bool := negb (str_in_char "<" t) && negb (str_in_char ">" t).
(** A token that the marker itself does not contain. *)
Definition token (t : string) : bool := truthy_str t && angle_free t && negb (str_contains t REDACTED_CANARY).

Lemma token_inv t : token t = true -> t <> "" /\ str_in_char "<" t = false /\ str_in_char ">" t = false /\ str_contains t REDACTED_CANARY = false.
Proof.
  unfold token, angle_free. rewrite !andb_true_iff, !negb_true_iff. intros ((Ht & Ha & Hb) & Hm). split; [by intros ->|done].
Qed.

Lemma marker_contains t X : token t = true -> str_contains t (REDACTED_CANARY +:+ X) = str_contains t X.
Proof.
  intros (Hne & _ & Hgt & Hm)%token_inv. change (REDACTED_CANARY +:+ X) with ("<redacted-canary" +:+ String ">" X).
  rewrite contains_sep by done. change REDACTED_CANARY with ("<redacted-canary" +:+ String ">" "") in Hm.
  rewrite contains_sep in Hm by done. by apply orb_false_iff in Hm as [-> _].
Qed.

Lemma replaced_prefix u t s : str_in_char "<" t = false -> startswith t (replace_from 0 u REDACTED_CANARY s) = true -> startswith t s = true.
Proof.
  revert s. induction t as [|c t IH]; intros s Hlt; [intros _; apply startswith_empty|]. simpl in Hlt. apply orb_false_iff in Hlt as [Hc Hlt].
  apply bool_decide_eq_false in Hc. destruct s as [|x s]; [done|]. cbn [replace_from]. destruct (startswith u (String x s)).
  - change (REDACTED_CANARY +:+ ?r) with (String "<" ("redacted-canary>" +:+ r)). by rewrite startswith_cons, bool_decide_eq_false_2 by congruence.
  - rewrite !startswith_cons, !andb_true_iff. intros [-> H]. split; [done|by apply IH].
Qed.

Lemma replaced_contains u t s : token t = true -> forall k, str_contains t (replace_from k u REDACTED_CANARY s) = true ->
  str_contains t s = true /\ t <> u.
Proof.
  intros Ht. pose proof (token_inv t Ht) as (Hne & Hlt & _ & _). induction s as [|x s IH]; intros k; [change (replace_from k u REDACTED_CANARY "") with ""; by rewrite contains_empty|].
  assert (forall k', str_contains t (replace_from k' u REDACTED_CANARY s) = true -> str_contains t (String x s) = true /\ t <> u) as IH'.
  { intros k' [H Hu]%IH. by rewrite contains_cons, H, orb_true_r. }
  cbn [replace_from]. destruct k as [|k]; [|apply IH']. destruct (startswith u (String x s)) eqn:Hu.
  - rewrite marker_contains by done. apply IH'.
  - rewrite contains_cons, orb_true_iff. intros [H|H]; [|by eapply IH'].
    assert (startswith t (String x s) = true) as Hp.
    { apply (replaced_prefix u); [done|]. cbn [replace_from]. by rewrite Hu. }
    rewrite contains_cons, Hp. split; [done|]. intros ->. congruence.
Qed.

(** ** Scrubbing *)

Lemma scrub_variant_contains t v out : token t = true -> str_contains t (scrub_variant out v) = true -> str_contains t out = true /\ t <> v.
Proof.
  intros Ht. unfold scrub_variant. destruct (str_contains v out) eqn:E; [by apply replaced_contains|].
  intros H. split; [done|]. intros ->. congruence.
Qed.

Lemma scrub_variants_contains t vs out : token t = true -> str_contains t (fold_left scrub_variant vs out) = true ->
  str_contains t out = true /\ t ∉ vs.
Proof.
  intros Ht. revert out. induction vs as [|v vs IH]; intros out; simpl; [intros H; split; [done|apply not_elem_of_nil]|].
  intros [H Hn]%IH. apply scrub_variant_contains in H as [H Hv]; [|done]. split; [done|]. by apply not_elem_of_cons.
Qed.

Lemma scrub_contains t canaries value : token t = true -> str_contains t (_scrub_canary value canaries) = true ->
  str_contains t value = true /\ forall canary, canary ∈ canaries -> truthy_str canary = true -> t ∉ _canary_variants canary.
Proof.
  intros Ht. unfold _scrub_canary. revert value. induction canaries as [|c canaries IH]; intros value; simpl.
  { intros H. split; [done|]. by intros canary ?%elem_of_nil. }
  intros [H Hn]%IH. destruct (truthy_str c) eqn:Hc.
  - apply scrub_variants_contains in H as [H Hv]; [|done]. split; [done|]. intros canary [->|Hin]%elem_of_cons; [done|by apply Hn].
  - split; [done|]. intros canary [->|Hin]%elem_of_cons Htr; [congruence|by apply Hn].
Qed.

(** ** The encoded forms of a token *)

Lemma quote_char c : str_in_char "<" (quote_all (String c "")) = false /\ str_in_char ">" (quote_all (String c "")) = false /\
  (always_safe c = false -> str_in_char "%" (quote_all (String c "")) = true).
Proof. destruct c as [[] [] [] [] [] [] [] []]; by vm_compute. Qed.
Lemma quote_cons c s : quote_all (String c s) = quote_all (String c "") +:+ quote_all s.
Proof. cbn [quote_all]. by destruct (always_safe c). Qed.

Lemma quote_angle_free s : str_in_char "<" (quote_all s) = false /\ str_in_char ">" (quote_all s) = false.
Proof.
  induction s as [|c s [IH1 IH2]]; [done|]. rewrite quote_cons, !str_in_char_app, IH1, IH2. destruct (quote_char c) as (-> & -> & _). done.
Qed.
Lemma quote_nonempty s : s <> "" -> quote_all s <> "".
Proof. destruct s as [|c s]; [done|]. intros _. cbn [quote_all]. by destruct (always_safe c). Qed.
Lemma quote_changed s : quote_all s <> s -> str_in_char "%" (quote_all s) = true.
Proof.
  induction s as [|c s IH]; [done|]. intros Hne. rewrite quote_cons, str_in_char_app, orb_true_iff.
  destruct (always_safe c) eqn:Hc; [|left; by apply quote_char]. right. apply IH. intros E. apply Hne. cbn [quote_all]. by rewrite Hc, E.
Qed.

Lemma replaced_changed k u s : u <> "" -> str_replace u "+" s <> s -> k = 0 -> str_in_char "+" (replace_from k u "+" s) = true.
Proof.
  unfold str_replace. intros Hu. revert k. induction s as [|x s IH]; intros k Hne ->; [done|]. cbn [replace_from] in *.
  destruct (startswith u (String x s)); [done|]. simpl. rewrite (IH 0); [apply orb_true_r| |done]. congruence.
Qed.
Lemma replaced_char c u s k : bool_decide (c = "+"%char) = false -> str_in_char c s = false -> str_in_char c (replace_from k u "+" s) = false.
Proof.
  intros Hc. revert k. induction s as [|x s IH]; intros k; [done|]. cbn [replace_from str_in_char]. rewrite orb_false_iff. intros [Hx Hs].
  destruct k as [|k]; [|by apply IH]. destruct (startswith u (String x s)).
  - rewrite append_cons. cbn [str_in_char]. by rewrite Hc, append_nil_l, IH.
  - cbn [str_in_char]. by rewrite Hx, IH.
Qed.

Lemma with_char_token c t : str_in_char c t = true -> str_in_char c REDACTED_CANARY = false -> str_in_char "<" t = false ->
  str_in_char ">" t = false -> token t = true.
Proof.
  intros Hc Hm Hlt Hgt. unfold token, angle_free. rewrite Hlt, Hgt. destruct t as [|x t]; [done|]. change (negb (str_contains (String x t) REDACTED_CANARY) = true).
  destruct (str_contains (String x t) REDACTED_CANARY) eqn:E; [|done]. apply (contains_char c) in E; [congruence|done].
Qed.

Lemma variants_token canary t : token canary = true -> t ∈ _canary_variants canary -> token t = true.
Proof.
  intros Hc. pose proof (token_inv _ Hc) as (Hne & _). pose proof (quote_angle_free canary) as [Hlt Hgt]. unfold _canary_variants.
  assert (token (quote_all canary) = true) as Hq.
  { destruct (decide (quote_all canary = canary)) as [->|Hd]; [done|]. by apply (with_char_token "%"); [apply quote_changed|..]. }
  assert (t ∈ [canary] ++ (if bool_decide (quote_all canary = canary) then [] else [quote_all canary]) -> token t = true) as Hin.
  { case_bool_decide; rewrite elem_of_app, ?list_elem_of_singleton, ?elem_of_nil; naive_solver. }
  destruct (_ && _) eqn:E; [|exact Hin]. apply andb_true_iff in E as [E%negb_true_iff%bool_decide_eq_false _].
  rewrite elem_of_app, list_elem_of_singleton. intros [H| ->]; [by apply Hin|].
  apply (with_char_token "+"); [by apply replaced_changed|done|by apply replaced_char|by apply replaced_char].
Qed.

(** No variant of a token canary is left in a scrubbed text. *)
Lemma scrubbed canaries canary t value : canary ∈ canaries -> token canary = true -> t ∈ _canary_variants canary ->
  str_contains t (_scrub_canary value canaries) = false.
Proof.
  intros Hin Hc Ht. destruct (str_contains t _) eqn:E; [|done].
  apply scrub_contains in E as [_ Hno]; [|by eapply variants_token]. destruct (Hno canary Hin); [|done].
  apply token_inv in Hc as [Hne _]. by destruct canary.
Qed.

(** ** The texts of a document *)

Fixpoint json_texts (v : Json) : list string :=
  match v with
  | JString s => [s]
  | JArray items => concat (map json_texts items)
  | JObject fields => concat (map (fun kv => kv.1 :: json_texts kv.2) fields)
  | _ => []
  end.

Lemma Json_induction (P : Json -> Prop) :
  P JNull -> (forall b, P (JBool b)) -> (forall t, P (JNumber t)) -> (forall s, P (JString s)) ->
  (forall items, Forall P items -> P (JArray items)) -> (forall fields, Forall (fun kv => P kv.2) fields -> P (JObject fields)) ->
  forall v, P v.
Proof.
  intros H1 H2 H3 H4 H5 H6. fix IH 1. intros [|b|t|s|items|fields]; [done|apply H2|apply H3|apply H4|apply H5|apply H6].
  - induction items as [|v items IHl]; constructor; [apply IH|apply IHl].
  - induction fields as [|[k v] fields IHl]; constructor; [apply IH|apply IHl].
Qed.

Lemma in_concat_map {A B} (f : A -> list B) l y : y ∈ concat (map f l) <-> exists x, x ∈ l /\ y ∈ f x.
Proof.
  induction l as [|x l IH]; simpl; [split; [by intros ?%elem_of_nil|by intros (? & ?%elem_of_nil & _)]|].
  rewrite elem_of_app, IH. setoid_rewrite elem_of_cons. naive_solver.
Qed.

(** Every text of a scrubbed document is a scrubbed text. *)
Lemma walked_texts canaries v s : s ∈ json_texts (_walk_scrub_canaries canaries v) -> exists value, s = _scrub_canary value canaries.
Proof.
  revert s. induction v as [| | |s'|items IH|fields IH] using Json_induction; intros s; cbn [_walk_scrub_canaries json_texts];
    try (by intros ?%elem_of_nil).
  - rewrite list_elem_of_singleton. eauto.
  - rewrite in_concat_map. setoid_rewrite list_elem_of_fmap. intros (x & (y & -> & Hy) & Hs). rewrite Forall_forall in IH. by eapply IH.
  - rewrite in_concat_map. intros ([k v] & Hin & Hs).
    assert (forall acc, (k, v) ∈ fold_left (fun scrubbed kv => dict_set scrubbed (_scrub_canary kv.1 canaries) kv.2)
        (map (fun kv => (kv.1, _walk_scrub_canaries canaries kv.2)) fields) acc ->
      (k, v) ∈ acc \/ exists kv, kv ∈ fields /\ k = _scrub_canary kv.1 canaries /\ v = _walk_scrub_canaries canaries kv.2) as Hfold.
    { clear. induction fields as [|[k' v'] fields IHf]; intros acc; simpl; [by left|]. intros [H|(kv & Hkv & E)]%IHf.
      - apply dict_set_in in H as [[= -> ->]|H]; [|by left]. right. exists (k', v'). split; [left|done].
      - right. exists kv. split; [by right|done]. }
    apply Hfold in Hin as [?%elem_of_nil|([k' v'] & Hkv & -> & ->)]; [done|]. simpl in Hs.
    apply elem_of_cons in Hs as [->|Hs]; [eauto|]. rewrite Forall_forall in IH. by apply (IH _ Hkv).
Qed.

(** C23: A canary token is in no text of a redacted archive, key or value,
    whatever the archive looks like, neither as it is nor percent-encoded. The
    token must not be part of the marker that replaces it, nor hold an angle
    bracket. *)
Theorem canary_never_survives env document canary_tokens canary out : redact_document env document canary_tokens = Ok out ->
  canary ∈ canary_tokens -> token canary = true ->
  forall text variant, text ∈ json_texts out -> variant ∈ _canary_variants canary -> str_contains variant text = false.
Proof.
  intros E Hin Hc text variant Htext Hv. unfold redact_document in E. set (canaries := filter _ canary_tokens) in E.
  assert (canary ∈ canaries) as Hin'.
  { apply list_elem_of_filter. split; [|done]. pose proof (token_inv _ Hc) as [Hne _]. by destruct canary. }
  assert (forall doc, Ok (if canaries is [] then doc else _walk_scrub_canaries canaries doc) = Ok out -> str_contains variant text = false) as Hwalk.
  { intros doc [= Hout]. destruct canaries as [|c cs]; [by apply elem_of_nil in Hin'|]. rewrite <-Hout in Htext.
    apply walked_texts in Htext as [value ->]. by eapply scrubbed. }
  destruct document as [| | | | |fields]; try done. destruct (dict_get fields "log") as [[| | | | |log]|]; try done.
  destruct (dict_get log "entries") as [[| | | |entries|]|]; try done; exact (Hwalk _ E).
Qed.

(** ** Secrets do not matter

    [fields_rel R]: two objects with the same keys in the same order, whose
    fields under each key are related by [R]. *)
Definition fields_rel (R : string -> Json -> Json -> Prop) (d d' : dict string Json) : Prop :=
  dict_wf d /\ Forall2 (fun kv kv' => kv.1 = kv'.1 /\ R kv.1 kv.2 kv'.2) d d'.
(** The field [k] does not matter any more, the others as [R] says. *)
Definition forgetting (k : string) (R : string -> Json -> Json -> Prop) : string -> Json -> Json -> Prop :=
  fun k' => if decide (k' = k) then eq else R k'.

Lemma fields_rel_eq d d' R : (forall k v v', R k v v' -> v = v') -> fields_rel R d d' -> d = d'.
Proof.
  intros HR [_ Hf]. induction Hf as [|[k v] [k' v'] d d' [Hk Hv] _ IH]; [done|]. simpl in *. subst k'. apply HR in Hv. by rewrite Hv, IH.
Qed.

Lemma fields_rel_get R d d' k : fields_rel R d d' ->
  match dict_get d k, dict_get d' k with Some v, Some v' => R k v v' | None, None => True | _, _ => False end.
Proof.
  intros [_ Hf]. induction Hf as [|[k1 v1] [k2 v2] d d' [Hk Hv] _ IH]; [done|]. simpl in *. subst k2. rewrite !dict_get_cons.
  case_decide; [by subst|done].
Qed.

Lemma fields_rel_set R d d' k v : fields_rel R d d' -> fields_rel (forgetting k R) (dict_set d k v) (dict_set d' k v).
Proof.
  intros [Hwf Hf]. split; [by apply dict_set_wf|]. unfold forgetting. induction Hf as [|[k1 v1] [k2 v2] d d' [Hk Hv] Hf IH].
  - constructor; [|done]. simpl. by rewrite decide_True.
  - simpl in *. subst k2. apply dict_wf_cons in Hwf as [Hnin Hwf]. rewrite !dict_set_cons. case_decide as E; constructor; simpl; try (by rewrite ?decide_True, ?decide_False by congruence).
    + subst k1. clear -Hnin Hf. induction Hf as [|[a u] [a' u'] d d' [Ha Hu] _ IHd]; constructor; simpl in *; rewrite ?elem_of_cons in Hnin.
      * rewrite decide_False by (intros ->; apply Hnin; by left). done.
      * apply IHd. intros Hin. apply Hnin. by right.
    + by apply IH.
Qed.

Lemma fields_rel_weaken (R R' : string -> Json -> Json -> Prop) d d' : (forall k v v', R k v v' -> R' k v v') -> fields_rel R d d' -> fields_rel R' d d'.
Proof. intros HR [Hwf Hf]. split; [done|]. eapply Forall2_impl; [exact Hf|]. intros kv kv' [? ?]. auto. Qed.

(** An update of one field that gives the same for related values. *)
Definition update (k : string) (g : Json -> Json) (d : dict string Json) : dict string Json :=
  match dict_get d k with Some v => dict_set d k (g v) | None => d end.
Lemma update_same k g d : (forall v, dict_get d k = Some v -> g v = v) -> update k g d = d.
Proof. intros Hg. unfold update. destruct (dict_get d k) as [v|] eqn:E; [|done]. rewrite (Hg v) by done. by apply dict_set_id. Qed.

Lemma fields_rel_update R d d' k g : fields_rel R d d' -> (forall v v', R k v v' -> g v = g v') -> fields_rel (forgetting k R) (update k g d) (update k g d').
Proof.
  intros Hf Hg. pose proof (fields_rel_get _ _ _ k Hf) as Hget. unfold update.
  destruct (dict_get d k) as [v|] eqn:E, (dict_get d' k) as [v'|] eqn:E'; try done.
  - rewrite (Hg v v') by done. by apply fields_rel_set.
  - destruct Hf as [Hwf Hf]. split; [done|]. apply dict_get_None in E. unfold forgetting. clear -Hf E.
    induction Hf as [|[a u] [a' u'] d d' [Ha Hu] _ IHd]; constructor; simpl in *; rewrite ?elem_of_cons in E.
    + rewrite decide_False by (intros ->; apply E; by left). done.
    + apply IHd. intros Hin. apply E. by right.
Qed.

Definition in_list (f : list Json -> list Json) (v : Json) : Json := match v with JArray items => JArray (f items) | _ => v end.
Definition in_text (f : string -> string) (v : Json) : Json := match v with JString s => JString (f s) | _ => v end.
Definition in_dict (f : dict string Json -> dict string Json) (v : Json) : Json := match v with JObject fields => JObject (f fields) | _ => v end.

Ltac as_update g := unfold update, g; destruct (dict_get _ _) as [[| | | | |]|] eqn:E; try done; symmetry; by apply dict_set_id.
Lemma on_list_update k f d : on_list k f d = update k (in_list f) d.
Proof. unfold on_list. as_update in_list. Qed.
Lemma on_text_update k f d : on_text k f d = update k (in_text f) d.
Proof. unfold on_text. as_update in_text. Qed.
Lemma on_dict_update k f d : on_dict k f d = update k (in_dict f) d.
Proof. unfold on_dict. as_update in_dict. Qed.

(** Updates of several fields in a row. *)
Definition updates (gs : list (string * (Json -> Json))) (d : dict string Json) : dict string Json :=
  fold_left (fun d kg => update kg.1 kg.2 d) gs d.
Lemma updates_agree gs : forall R d d', fields_rel R d d' ->
  (forall k g v v', (k, g) ∈ gs -> R k v v' -> g v = g v') -> (forall k v v', k ∉ gs.*1 -> R k v v' -> v = v') -> updates gs d = updates gs d'.
Proof.
  induction gs as [|[k g] gs IH]; intros R d d' Hf Hg Hrest; [eapply fields_rel_eq; [|exact Hf]; intros; eapply Hrest; [apply not_elem_of_nil|done]|].
  apply (IH (forgetting k R)).
  - apply fields_rel_update; [done|]. intros v v'. apply Hg. left.
  - intros k' g' v v' Hin. unfold forgetting. case_decide; [by intros ->|]. apply Hg. by right.
  - intros k' v v' Hn. unfold forgetting. case_decide; [done|]. apply Hrest. csimpl. by apply not_elem_of_cons.
Qed.

(** Objects that may differ in the fields of a table only, and there as the
    table says. *)
Definition Table : Type := list (string * (Json -> Json -> Prop)).
Definition rel_of (table : Table) (k : string) : Json -> Json -> Prop := default eq (dict_get table k).
Definition alike (table : Table) : dict string Json -> dict string Json -> Prop := fields_rel (rel_of table).

Definition lists_of (P : Json -> Json -> Prop) (v v' : Json) : Prop :=
  v = v' \/ exists l l', v = JArray l /\ v' = JArray l' /\ Forall2 P l l'.
Definition dict_of (P : dict string Json -> dict string Json -> Prop) (v v' : Json) : Prop :=
  v = v' \/ exists d d', v = JObject d /\ v' = JObject d' /\ P d d'.
Definition text_of (P : string -> string -> Prop) (v v' : Json) : Prop :=
  v = v' \/ exists s s', v = JString s /\ v' = JString s' /\ P s s'.
Definition anything {A} (x y : A) : Prop := True.

Lemma in_list_same P f v v' : (forall l l', Forall2 P l l' -> f l = f l') -> lists_of P v v' -> in_list f v = in_list f v'.
Proof. intros Hf [->|(l & l' & -> & -> & H)]; [done|]. simpl. by rewrite (Hf l l'). Qed.
Lemma in_dict_same P f v v' : (forall d d', P d d' -> f d = f d') -> dict_of P v v' -> in_dict f v = in_dict f v'.
Proof. intros Hf [->|(d & d' & -> & -> & H)]; [done|]. simpl. by rewrite (Hf d d'). Qed.
Lemma in_text_same P f v v' : (forall s s', P s s' -> f s = f s') -> text_of P v v' -> in_text f v = in_text f v'.
Proof. intros Hf [->|(s & s' & -> & -> & H)]; [done|]. simpl. by rewrite (Hf s s'). Qed.

Lemma map_same {A B} (P : A -> A -> Prop) (f : A -> B) l l' : (forall x y, P x y -> f x = f y) -> Forall2 P l l' -> map f l = map f l'.
Proof. intros Hf H. induction H as [|x y l l' Hxy _ IH]; [done|]. simpl. by rewrite (Hf x y), IH. Qed.

(** Objects that are alike by a table agree after the updates of its fields. *)
Lemma alike_agree table gs d d' : alike table d d' -> table.*1 ⊆ gs.*1 ->
  Forall (fun kg => forall v v', rel_of table kg.1 v v' -> kg.2 v = kg.2 v') gs -> updates gs d = updates gs d'.
Proof.
  intros Ha Hsub Hgs. rewrite Forall_forall in Hgs. eapply updates_agree; [exact Ha| |].
  - intros k g v v' Hin. by apply (Hgs (k, g)).
  - intros k v v' Hn. unfold rel_of. assert (dict_get table k = None) as -> by (apply dict_get_None; intros Hk; by apply Hn, Hsub). done.
Qed.
(** Objects that are alike but for one field. *)
Lemma alike_field k P d d' : alike [(k, P)] d d' ->
  match dict_get d k, dict_get d' k with
  | Some v, Some v' => P v v' /\ forall x, dict_set d k x = dict_set d' k x
  | None, None => d = d'
  | _, _ => False
  end.
Proof.
  intros Ha. pose proof (fields_rel_get _ _ _ k Ha) as Hg.
  assert (forall g, (forall v v', P v v' -> g v = g v') -> updates [(k, g)] d = updates [(k, g)] d') as Hu.
  { intros g Hpg. apply (alike_agree _ _ _ _ Ha); [done|]. repeat constructor. unfold rel_of. rewrite dict_get_cons, decide_True by done. exact Hpg. }
  unfold updates in Hu. simpl in Hu. unfold update in Hu. unfold rel_of in Hg. rewrite dict_get_cons, decide_True in Hg by done.
  destruct (dict_get d k), (dict_get d' k); try done.
  - split; [done|]. intros x. by apply (Hu (fun _ => x)).
  - by apply (Hu (fun _ => JNull)).
Qed.
Lemma mem_set_update k v d : (if dict_mem d k then dict_set d k v else d) = updates [(k, fun _ => v)] d.
Proof. unfold dict_mem. simpl. unfold update. by destruct (dict_get d k). Qed.

(** *** Two archives that differ in secrets *)

(** An entry of a header, parameter or query array: the value of a sensitive
    name is secret; what is no object is secret as a whole. *)
Definition named_alike (v v' : Json) : Prop :=
  v = v' \/ (forall d, v <> JObject d) /\ (forall d, v' <> JObject d) \/
  exists d d' name, v = JObject d /\ v' = JObject d' /\ alike [("value", anything)] d d' /\
    dict_get d "name" = Some (JString name) /\ _is_har_sensitive_key name = true.
(** A cookie: the value is secret. *)
Definition cookie_alike (v v' : Json) : Prop :=
  (forall d, v <> JObject d) /\ (forall d, v' <> JObject d) \/ exists d d', v = JObject d /\ v' = JObject d' /\ alike [("value", anything)] d d'.
Definition post_alike : dict string Json -> dict string Json -> Prop :=
  alike [("params", lists_of named_alike); ("text", text_of anything)].
Definition content_alike : dict string Json -> dict string Json -> Prop := alike [("text", anything)].

Section Alike.
Context (env : NetEnv).

(** URLs: the user information, the fragment and the values of sensitive
    parameters are secret. *)
Definition url_alike (u u' : string) : Prop :=
  match urlsplit env u, urlsplit env u' with
  | Ok p, Ok p' =>
      sr_scheme p = sr_scheme p' /\ hostname p = hostname p' /\ port p = port p' /\ sr_path p = sr_path p' /\
      truthy_str (sr_query p) = truthy_str (sr_query p') /\
      Forall2 (fun nv nv' => nv.1 = nv'.1 /\ (_is_har_sensitive_key nv.1 = true \/ nv.2 = nv'.2)) (parse_qsl (sr_query p)) (parse_qsl (sr_query p'))
  | Raise _, Raise _ => True
  | _, _ => False
  end.
Definition request_alike : dict string Json -> dict string Json -> Prop :=
  alike [("url", text_of url_alike); ("headers", lists_of named_alike); ("cookies", lists_of cookie_alike);
         ("queryString", lists_of named_alike); ("postData", dict_of post_alike)].
Definition response_alike : dict string Json -> dict string Json -> Prop :=
  alike [("headers", lists_of named_alike); ("cookies", lists_of cookie_alike); ("redirectURL", text_of url_alike);
         ("content", dict_of content_alike)].
Definition log_entry_alike : Json -> Json -> Prop :=
  dict_of (alike [("request", dict_of request_alike); ("response", dict_of response_alike)]).
Definition document_alike : Json -> Json -> Prop :=
  dict_of (alike [("log", dict_of (alike [("entries", lists_of log_entry_alike)]))]).

Context (canaries : list string).

Lemma both_marked (f : Json -> Json) v v' : (forall d, v <> JObject d) /\ (forall d, v' <> JObject d) ->
  (forall v, (forall d, v <> JObject d) -> f v = redacted_entry) -> f v = f v'.
Proof. intros [Hv Hv'] Hf. by rewrite !Hf. Qed.

Lemma named_agree v v' : named_alike v v' -> redact_named canaries v = redact_named canaries v'.
Proof.
  intros [->|[Hv|(d & d' & name & -> & -> & Ha & Hname & Hs)]]; [done| |].
  - apply both_marked; [done|]. intros [| | | | |d] Hn; try done. by destruct (Hn d).
  - assert (dict_get d' "name" = Some (JString name)) as Hname'.
    { pose proof (fields_rel_get _ _ _ "name" Ha) as Hg. rewrite Hname in Hg. destruct (dict_get d' "name") as [v'|]; [|done]. by rewrite <-Hg. }
    simpl. rewrite Hname, Hname', Hs. f_equal. pose proof (alike_field _ _ _ _ Ha) as Hf. destruct (dict_get d "value"), (dict_get d' "value"); try done; [by apply Hf|by subst].
Qed.

Lemma cookie_agree v v' : cookie_alike v v' -> redact_cookie v = redact_cookie v'.
Proof.
  intros [Hv|(d & d' & -> & -> & Ha)].
  - apply both_marked; [done|]. intros [| | | | |d] Hn; try done. by destruct (Hn d).
  - simpl. rewrite !mem_set_update. f_equal. by apply (alike_agree _ _ _ _ Ha); [|repeat constructor].
Qed.

Lemma post_agree d d' : post_alike d d' -> _redact_post_data d canaries = _redact_post_data d' canaries.
Proof.
  intros Ha. unfold _redact_post_data. rewrite !on_list_update, !on_text_update.
  refine (alike_agree _ [("params", _); ("text", _)] _ _ Ha _ _); [done|]. repeat constructor.
  - intros v v'. apply in_list_same. intros l l'. apply map_same, named_agree.
  - intros v v'. by apply in_text_same.
Qed.

Lemma content_agree d d' : content_alike d d' -> _redact_content d = _redact_content d'.
Proof. intros Ha. unfold _redact_content. rewrite !mem_set_update. by apply (alike_agree _ _ _ _ Ha); [|repeat constructor]. Qed.

Lemma url_agree u u' : url_alike u u' -> _redact_url env u canaries = _redact_url env u' canaries.
Proof.
  unfold url_alike, _redact_url. destruct (urlsplit env u) as [p|e], (urlsplit env u') as [p'|e']; try done.
  intros (Hs & Hh & Hp & Hpa & Ht & Hq). f_equal. unfold rebuilt_url. rewrite Hs, Hh, Hp, Hpa, Ht. destruct (truthy_str (sr_query p')); [|done]. do 2 f_equal.
  eapply map_same; [|exact Hq]. intros [n v] [n' v'] [Hn Hv]. simpl in *. subst n'. destruct Hv as [-> | ->]; done.
Qed.

Lemma named_lists l l' : Forall2 named_alike l l' -> _redact_name_value_array l canaries = _redact_name_value_array l' canaries.
Proof. apply map_same, named_agree. Qed.
Lemma cookie_lists l l' : Forall2 cookie_alike l l' -> _redact_cookie_array l = _redact_cookie_array l'.
Proof. apply map_same, cookie_agree. Qed.

Lemma request_agree d d' : request_alike d d' -> _redact_request env d canaries = _redact_request env d' canaries.
Proof.
  intros Ha. unfold _redact_request. rewrite !on_list_update, !on_text_update, !on_dict_update.
  refine (alike_agree _ [("url", _); ("headers", _); ("cookies", _); ("queryString", _); ("postData", _)] _ _ Ha _ _); [done|].
  repeat constructor; intros v v'; [apply in_text_same, url_agree|apply in_list_same, named_lists|apply in_list_same, cookie_lists
    |apply in_list_same, named_lists|apply in_dict_same, post_agree].
Qed.
Lemma response_agree d d' : response_alike d d' -> _redact_response env d canaries = _redact_response env d' canaries.
Proof.
  intros Ha. unfold _redact_response. rewrite !on_list_update, !on_text_update, !on_dict_update.
  refine (alike_agree _ [("headers", _); ("cookies", _); ("redirectURL", _); ("content", _)] _ _ Ha _ _); [done|].
  repeat constructor; intros v v'; [apply in_list_same, named_lists|apply in_list_same, cookie_lists|apply in_text_same, url_agree
    |apply in_dict_same, content_agree].
Qed.

Lemma log_entry_agree v v' : log_entry_alike v v' -> redact_log_entry env canaries v = redact_log_entry env canaries v'.
Proof.
  apply (in_dict_same _ (fun entry => _redact_entry env entry canaries)). intros d d' Ha. unfold _redact_entry. rewrite !on_dict_update.
  refine (alike_agree _ [("request", _); ("response", _)] _ _ Ha _ _); [done|].
  repeat constructor; intros v1 v2; [apply in_dict_same, request_agree|apply in_dict_same, response_agree].
Qed.

Lemma log_agree log log' : alike [("entries", lists_of log_entry_alike)] log log' ->
  match dict_get log "entries", dict_get log' "entries" with
  | None, None | Some JNull, Some JNull => log = log'
  | Some (JArray entries), Some (JArray entries') =>
      dict_set log "entries" (JArray (map (redact_log_entry env canaries) entries)) =
      dict_set log' "entries" (JArray (map (redact_log_entry env canaries) entries'))
  | Some v, Some v' => v = v'
  | _, _ => False
  end.
Proof.
  intros Ha. pose proof (alike_field _ _ _ _ Ha) as Hf. destruct (dict_get log "entries") as [v|] eqn:E, (dict_get log' "entries") as [v'|] eqn:E'; try done.
  destruct Hf as [[->|(l & l' & -> & -> & Hl)] Hset].
  - destruct v'; try done. specialize (Hset JNull). by rewrite (dict_set_id log), (dict_set_id log') in Hset.
  - rewrite Hset. do 2 f_equal. by apply (map_same log_entry_alike); [apply log_entry_agree|].
Qed.
End Alike.

Lemma document_agree env canaries v v' : document_alike env v v' -> redact_document env v canaries = redact_document env v' canaries.
Proof.
  intros [->|(d & d' & -> & -> & Ha)]; [done|]. pose proof (alike_field _ _ _ _ Ha) as Hf. unfold redact_document.
  destruct (dict_get d "log") as [v|] eqn:E, (dict_get d' "log") as [v'|] eqn:E'; try done.
  destruct Hf as [[->|(log & log' & -> & -> & Hl)] Hset].
  - destruct v' as [| | | | |log]; try done. destruct (dict_get log "entries") as [[| | | | |]|]; try done; by rewrite Hset.
  - pose proof (log_agree env (filter (fun token => truthy_str token = true) canaries) log log' Hl) as Hlog.
    destruct (dict_get log "entries") as [[| | | | |]|], (dict_get log' "entries") as [[| | | | |]|]; try done;
      rewrite Hset; rewrite Hlog; done.
Qed.

(** Payloads whose documents differ in secrets only are redacted to the same
    bytes, or refused alike. *)
Lemma payload_agree env json_loads json_dumps payload payload' document document' canaries :
  json_loads payload = Ok document -> json_loads payload' = Ok document' -> document_alike env document document' ->
  redact_har_payload env json_loads json_dumps payload canaries = redact_har_payload env json_loads json_dumps payload' canaries.
Proof. intros E E' Ha. unfold redact_har_payload. rewrite E, E'. by rewrite (document_agree env canaries document document'). Qed.

(** A payload is redacted when it is an object with a log whose entries are a
    list, or missing; any other payload is refused. *)
Lemma redaction_fails_closed env json_loads json_dumps payload canaries :
  match redact_har_payload env json_loads json_dumps payload canaries with
  | Ok bytes => (exists out, json_dumps out = Ok bytes) /\ exists fields log, json_loads payload = Ok (JObject fields) /\ dict_get fields "log" = Some (JObject log) /\
      match dict_get log "entries" with None | Some JNull | Some (JArray _) => True | _ => False end
  | Raise e => (exists msg, e = HarRedactionError msg) \/ json_loads payload = Raise e \/ exists out, json_dumps out = Raise e
  end.
Proof.
  unfold redact_har_payload. destruct (json_loads payload) as [doc|e] eqn:E; [|destruct (subclass_value_error e); eauto].
  destruct (redact_document env doc canaries) as [out|e] eqn:Er; simpl; unfold redact_document in Er.
  - assert (exists fields log, doc = JObject fields /\ dict_get fields "log" = Some (JObject log) /\
      match dict_get log "entries" with None | Some JNull | Some (JArray _) => True | _ => False end) as (fields & log & -> & Hl & He).
    { destruct doc as [| | | | |fields]; try done. destruct (dict_get fields "log") as [[| | | | |log]|] eqn:El; try done.
      exists fields, log. split; [done|]. split; [done|]. by destruct (dict_get log "entries") as [[| | | | |]|]. }
    destruct (json_dumps out) as [bytes|e] eqn:Ed; [|by eauto]. split; [by exists out|]. by exists fields, log.
  - left. destruct doc as [| | | | |fields]; simplify_eq; try (by eexists). destruct (dict_get fields "log") as [[| | | | |log]|]; simplify_eq; try (by eexists).
    destruct (dict_get log "entries") as [[| | | | |]|]; simplify_eq; by eexists.
Qed.

(** ** Two concrete archives *)

Module HarDemo.
Definition pair (name value : string) : Json := JObject [("name", JString name); ("value", JString value)].
Definition item_url (secret canary : string) : string :=
  "https://user:" +:+ secret +:+ "@shop.example:8443/items/" +:+ canary +:+ "?id=7&accessToken=" +:+ secret +:+ "#" +:+ secret.
Definition har_request (secret canary : string) : dict string Json :=
  [("method", JString "POST");
   ("url", JString (item_url secret canary));
   ("headers", JArray [pair "Authorization" secret; pair "Accept" "text/html"]);
   ("cookies", JArray [pair "theme" secret]);
   ("postData", JObject [("params", JArray [pair "password" secret; pair "note" canary]); ("text", JString secret)])].
Definition har_response (secret : string) : dict string Json :=
  [("headers", JArray [pair "Set-Cookie" secret]); ("content", JObject [("size", JNumber "12"); ("text", JString secret)])].
Definition archive (secret canary : string) : Json :=
  JObject [("log", JObject [("version", JString "1.2");
    ("entries", JArray [JObject [("request", JObject (har_request secret canary)); ("response", JObject (har_response secret))]]);
    ("_" +:+ canary, JString canary)])].

(** The payload ["a"] holds one secret, any other payload another one. *)
Definition loads (payload : string) : res Json :=
  if bool_decide (payload = "") then Raise (ValueError "Expecting value")
  else Ok (archive (if bool_decide (payload = "a") then "hunter2" else "correct-horse") "me@home").
(** A rendering of the texts only. *)
Definition dumps (v : Json) : res string := Ok (join "|" (json_texts v)).

Lemma alike_intro table d d' : bool_decide (dict_wf d) = true ->
  Forall2 (fun kv kv' => kv.1 = kv'.1 /\ rel_of table kv.1 kv.2 kv'.2) d d' -> alike table d d'.
Proof. intros Hwf Hf. split; [by apply bool_decide_eq_true in Hwf|done]. Qed.
Lemma rel_of_cons k P table k' : rel_of ((k, P) :: table) k' = if bool_decide (k' = k) then P else rel_of table k'.
Proof. unfold rel_of. rewrite dict_get_cons. by case_decide; [rewrite bool_decide_eq_true_2|rewrite bool_decide_eq_false_2]. Qed.
Lemma urls_alike : url_alike offline (item_url "hunter2" "me@home") (item_url "correct-horse" "me@home").
Proof.
  assert (forall p p' q q', urlsplit offline (item_url "hunter2" "me@home") = Ok p -> urlsplit offline (item_url "correct-horse" "me@home") = Ok p' ->
    sr_scheme p = sr_scheme p' /\ hostname p = hostname p' /\ port p = port p' /\ sr_path p = sr_path p' /\
    truthy_str (sr_query p) = truthy_str (sr_query p') -> parse_qsl (sr_query p) = q -> parse_qsl (sr_query p') = q' ->
    Forall2 (fun nv nv' => nv.1 = nv'.1 /\ (_is_har_sensitive_key nv.1 = true \/ nv.2 = nv'.2)) q q' ->
    url_alike offline (item_url "hunter2" "me@home") (item_url "correct-horse" "me@home")) as Hurl.
  { intros p p' q q' E E' Hp <- <- Hq. unfold url_alike. rewrite E, E'. by destruct Hp as (? & ? & ? & ? & ?). }
  eapply Hurl; [vm_compute; reflexivity..| | | |]; [vm_compute; done|vm_compute; reflexivity..|].
  constructor; [split; [reflexivity|by right]|]. constructor; [split; [reflexivity|left; vm_compute; reflexivity]|constructor].
Qed.
(** One level of a proof that two archives are alike. *)
Ltac alike_step :=
  lazymatch goal with
  | |- alike _ _ _ => apply alike_intro; [vm_compute; reflexivity|]
  | |- Forall2 _ (_ :: _) (_ :: _) => constructor
  | |- Forall2 _ [] [] => constructor
  | |- _ /\ _ => split; [vm_compute; reflexivity|]
  | |- rel_of [] _ _ _ => reflexivity
  | |- rel_of _ _ _ _ => rewrite ?rel_of_cons; cbn [fst snd];
      repeat match goal with |- context [bool_decide (?k = ?k')] => let b := eval vm_compute in (bool_decide (k = k')) in change (bool_decide (k = k')) with b end;
      cbv iota
  | |- ?x = ?x => reflexivity
  | |- anything _ _ => exact I
  | |- lists_of _ _ _ => right; do 2 eexists; split; [reflexivity|split; [reflexivity|]]
  | |- dict_of _ _ _ => right; do 2 eexists; split; [reflexivity|split; [reflexivity|]]
  | |- named_alike _ _ => first [left; reflexivity|right; right; do 3 eexists; split; [reflexivity|]; split; [reflexivity|]; split; [|split; [vm_compute; reflexivity|vm_compute; reflexivity]]]
  | |- cookie_alike _ _ => right; do 2 eexists; split; [reflexivity|]; split; [reflexivity|]
  | |- url_alike _ _ _ => apply urls_alike
  | |- text_of _ _ _ => right; do 2 eexists; split; [reflexivity|split; [reflexivity|]]
  end.
Lemma archives_alike : document_alike offline (archive "hunter2" "me@home") (archive "correct-horse" "me@home").
Proof.
  unfold document_alike. repeat (alike_step; unfold log_entry_alike, request_alike, response_alike, post_alike, content_alike, har_request, har_response).
Qed.
End HarDemo.
Import HarDemo.

Lemma canary_never_survives_witness : exists out, redact_document offline (archive "hunter2" "me@home") ["me@home"] = Ok out /\
  forallb (fun text => negb (str_contains "me@home" text) && negb (str_contains "me%40home" text)) (json_texts out) = true.
Proof.
  destruct (redact_document offline (archive "hunter2" "me@home") ["me@home"]) as [out|e] eqn:E; [|exfalso; vm_compute in E; discriminate E].
  pose proof (canary_never_survives offline _ _ "me@home" out E (list_elem_of_here _ _) ltac:(vm_compute; reflexivity)) as H.
  exists out. split; [reflexivity|]. apply forallb_forall. intros text Hin. apply list_elem_of_In in Hin.
  rewrite (H text "me@home"), (H text "me%40home"); [reflexivity|exact Hin| |exact Hin|].
  - vm_compute. right. left.
  - vm_compute. left.
Defined.

(** ** Where the documentation promises more *)

(** A canary that is a number is left in the document. *)
Lemma numeric_canary_survives :
  redact_document offline (JObject [("log", JObject [("_account", JNumber "4111111111111111")])]) ["4111111111111111"] =
    Ok (JObject [("log", JObject [("_account", JNumber "4111111111111111")])]).
Proof. by vm_compute. Qed.

(** A canary that is part of the marker is still found in the result. *)
Lemma marker_canary_survives :
  str_contains "canary" (_scrub_canary "a canary" ["canary"]) = true.
Proof. by vm_compute. Qed.

(** Two keys that become equal by scrubbing: the first value is lost. *)
Lemma scrubbed_keys_collide :
  _walk_scrub_canaries ["alice"; "bob"] (JObject [("alice", JBool true); ("bob", JBool false)]) = JObject [(REDACTED_CANARY, JBool false)].
Proof. by vm_compute. Qed.

(** What has another shape than documented passes as it is. *)
Lemma malformed_shapes_pass :
  redact_document offline (JObject [("log", JObject [("entries",
    JArray [JString "Authorization: Bearer secret"; JObject [("request", JObject [("headers", JObject [("Authorization", JString "secret")])])]])])]) [] =
  Ok (JObject [("log", JObject [("entries",
    JArray [JString "Authorization: Bearer secret"; JObject [("request", JObject [("headers", JObject [("Authorization", JString "secret")])])]])])]).
Proof. by vm_compute. Qed.

(** The brackets of a numeric host are lost, and the value of a sensitive
    parameter is not the marker but its encoding. *)
Lemma ipv6_brackets_lost :
  let env := {| gethostbyname _ := DnsOSError; ipv6_address host := if bool_decide (host = "::1") then Some true else None |} in
  _redact_url env "http://[::1]:8080/a?token=x" [] = "http://::1:8080/a?token=%3Credacted%3E".
Proof. by vm_compute. Qed.

(** The log processor hides the value of a sensitive key at every depth. *)
Lemma log_redaction_example :
  redact_event [("url", JString "u"); ("headers", JObject [("Authorization", JString "secret"); ("Accept", JString "*")])] =
    [("url", JString "u"); ("headers", JObject [("Authorization", JString REDACTED); ("Accept", JString "*")])].
Proof. by vm_compute. Qed.
