(* ===== verification/HarCapture.v ===== *)
(** * From the captured archive to the evidence store

    [_postprocess_har] of [adapters/browser/playwright.py]: the archive that
    the browser wrote is read, redacted, stored and deleted. The state is the
    content of that staging file, if there is one, and the rest of the world;
    reading and deleting may fail for reasons that the rest of the world
    decides. The adapter's [_last_har_artifact_ref] is the value returned,
    [None] where it stays as it is. *)
From Stdlib Require Import Ascii.
From S2P Require Import Prelude PyDict PyStr UrlLib Wp PosixFs FsLaws EvidenceStore EvidenceLaws HarRedaction HarLaws.

(** The ports of the adapter in a world [W]. *)
Class HarPorts (W : Type) := {
  read_fault : M W unit;
  unlink_fault : M W unit;
  evidence_put : forall (run_ref attempt_ref : string) (kind : ArtifactKind) (payload : bytes) (redaction_applied : bool), M W EvidencePutResult }.

Section Capture.
Context {W : Type} `{HarPorts W} (env : NetEnv) (json_loads : string -> res Json) (json_dumps : Json -> res string).
Abbreviation State := (option string * W)%type.

(** [har_path.read_bytes()] *)
Definition read_staging : M State string :=
  do* on_world read_fault in
  let* content := gets fst in
  match content with Some raw => ret raw | None => raise FileNotFoundError end.
(** [har_path.unlink(missing_ok=True)] *)
Definition unlink_staging : M State unit := do* on_world unlink_fault in on_object (fun _ => None).

(** The body of the [try]. *)
Definition capture (canaries : list string) (run_ref : string) : M State (option string) :=
  let* raw := attempt read_staging in
  match raw with
  | Raise e => if subclass_os_error e then ret None else raise e
  | Ok raw =>
      match redact_har_payload env json_loads json_dumps raw canaries with
      | Raise (HarRedactionError _) => ret None
      | Raise e => raise e
      | Ok redacted =>
          let* result := attempt (on_world (evidence_put run_ref (run_ref +:+ ":har") AK_HAR (utf8 redacted) true)) in
          match result with Raise _ => ret None | Ok result => ret (Some (ep_artifact_ref result)) end
      end
  end.

Definition _postprocess_har (canaries : list string) (run_ref : string) : M State (option string) :=
  let* r := attempt (capture canaries run_ref) in
  let* deleted := attempt unlink_staging in
  match deleted with
  | Raise e => if subclass_os_error e then lift r else raise e
  | Ok _ => lift r
  end.

(** Two staging files that are both missing, or hold archives that differ in
    secrets only. *)
Definition staged_alike (s s' : option string) : Prop :=
  match s, s' with
  | None, None => True
  | Some raw, Some raw' =>
      match json_loads raw, json_loads raw' with
      | Ok d, Ok d' => document_alike env d d'
      | Raise e, Raise e' => e = e'
      | _, _ => False
      end
  | _, _ => False
  end.

Lemma staged_payload raw raw' canaries : staged_alike (Some raw) (Some raw') ->
  redact_har_payload env json_loads json_dumps raw canaries = redact_har_payload env json_loads json_dumps raw' canaries.
Proof.
  simpl. destruct (json_loads raw) as [d|e] eqn:E, (json_loads raw') as [d'|e'] eqn:E'; try done; [by eapply payload_agree|].
  intros ->. unfold redact_har_payload. by rewrite E, E'.
Qed.

#[local] Arguments redact_har_payload : simpl never.
(** [capture] leaves the staging file, and what it does depends on it up to
    secrets only. *)
Lemma capture_agrees canaries run_ref s s' w : staged_alike s s' ->
  (capture canaries run_ref (s', w)).1 = (capture canaries run_ref (s, w)).1 /\
  (capture canaries run_ref (s', w)).2.2 = (capture canaries run_ref (s, w)).2.2 /\
  (capture canaries run_ref (s, w)).2.1 = s /\ (capture canaries run_ref (s', w)).2.1 = s'.
Proof.
  intros Ha. unfold capture, read_staging, bind, attempt, on_world, gets. simpl. destruct (read_fault w) as [[[]|e] w1]; simpl.
  2: { by destruct (subclass_os_error e). }
  destruct s as [raw|], s' as [raw'|]; try done. unfold ret, raise. simpl. rewrite (staged_payload raw raw') by done.
  destruct (redact_har_payload env json_loads json_dumps raw' canaries) as [redacted|e]; [|by destruct e].
  simpl. by destruct (evidence_put _ _ _ _ _ w1) as [[result|e] w2].
Qed.

(** C8: The secrets of a captured archive reach nothing but its staging file.
    When two staging files hold archives that differ in secrets only, the
    adapter ends with the same result or exception, and leaves the same
    evidence store and the same rest of the world; and however it ends, the
    staging file is gone unless deleting it raised. *)
Theorem captured_secrets_unobservable canaries run_ref s s' w : staged_alike s s' ->
  let out := _postprocess_har canaries run_ref (s, w) in
  let out' := _postprocess_har canaries run_ref (s', w) in
  out'.1 = out.1 /\ out'.2.2 = out.2.2 /\
  (out.2.1 = None /\ out'.2.1 = None \/ exists e w1, (unlink_fault w1).1 = Raise e /\ out.2.1 = s /\ out'.2.1 = s').
Proof.
  intros Ha. destruct (capture_agrees canaries run_ref s s' w Ha) as (Hr & Hw & Hs & Hs'). cbv zeta.
  unfold _postprocess_har, unlink_staging, bind, attempt, on_world, on_object, modify, lift, raise.
  destruct (capture canaries run_ref (s, w)) as [r [t w1]], (capture canaries run_ref (s', w)) as [r' [t' w1']]. simpl in *. subst r' w1' t t'. simpl.
  destruct (unlink_fault w1) as [[[]|e] w2] eqn:Eu; simpl; [by auto|].
  destruct (subclass_os_error e); simpl; split_and!; try done; right; exists e, w1; by rewrite Eu.
Qed.
End Capture.

(** ** A run on the local store *)

Module CaptureDemo.
Import EvidenceDemo HarDemo.
(** The rest of the world is the system of [EvidenceDemo], with a store whose
    cap does not matter. *)
Definition big_store : LocalFsEvidenceArtifactStore := {| es_root_fd := 3; es_max_payload_bytes := None |}.
#[export] Instance local_ports : HarPorts Os := {|
  read_fault := ret tt;
  unlink_fault := ret tt;
  evidence_put run_ref attempt_ref kind payload redacted := put digest big_store "07" run_ref attempt_ref kind payload redacted |}.
Definition run (payload : string) := _postprocess_har offline loads dumps ["me@home"] "run" (Some payload, start).
End CaptureDemo.

Lemma captured_secrets_unobservable_witness :
  CaptureDemo.run "a" = CaptureDemo.run "b" /\ match (CaptureDemo.run "a").1 with Ok (Some _) => true | _ => false end = true.
Proof.
  split; [|vm_compute; reflexivity].
  destruct (captured_secrets_unobservable (H := CaptureDemo.local_ports) offline HarDemo.loads HarDemo.dumps ["me@home"] "run" (Some "a") (Some "b") EvidenceDemo.start HarDemo.archives_alike)
    as (H1 & H2 & [[H3 H4]|(e & w1 & He & _)]); [|discriminate He].
  apply injective_projections; [symmetry; exact H1|]. apply injective_projections; [|symmetry; exact H2].
  transitivity (@None string); [exact H3|symmetry; exact H4].
Defined.

(** An exception of the redaction other than [HarRedactionError], like that of
    a document with a lone surrogate, is not caught: it ends the session. *)
Lemma redaction_error_escapes :
  (_postprocess_har (H := CaptureDemo.local_ports) offline HarDemo.loads (fun _ => Raise (ValueError "surrogates not allowed")) [] "run"
    (Some "a", EvidenceDemo.start)).1 = Raise (ValueError "surrogates not allowed").
Proof. by vm_compute. Qed.
