(* ===== verification/Recovery.v ===== *)
(** * Recovery from failed extractions

    The recovery layer of an agent run: the decision contract
    ([contracts/agent.py]), the cheap classifier and the recovery adapter
    ([agents/recovery/]), the escalation of adapters with its policy contract
    ([agents/escalation/], [contracts/source_adapter.py]), and the controller
    of one URL ([agents/run_controller.py]) over the cost gate of [CostGate].
    The extraction runtime, the recovery adapter of the controller and the
    model behind the adapter are ports on a world of any type; uuids are
    arguments and creation times are left out. *)
From Stdlib Require Import Floats.
From S2P Require Import Prelude PyDict PyStr PyFloat UrlLib UrlJoin RateLimiter CostGate Trace.
Local Open Scope Z_scope.

(** ** contracts/agent.py *)

Inductive RecoveryDecisionKind := DIFFERENT_URL | ESCALATE_ADAPTER | REQUEST_REVIEW | ABANDON.
#[export] Instance RecoveryDecisionKind_eq_dec : EqDecision RecoveryDecisionKind.
Proof. solve_decision. Defined.
Inductive RecoveryDecisionSource := CHEAP_CLASSIFIER | LLM_RECOVERY | HEURISTIC.
#[export] Instance RecoveryDecisionSource_eq_dec : EqDecision RecoveryDecisionSource.
Proof. solve_decision. Defined.

Record RecoveryDecision := {
  rc_id : string;
  rc_kind : RecoveryDecisionKind;
  rc_reason : string;
  rc_failure_signature : string;
  rc_source : RecoveryDecisionSource;
  rc_alternative_url : option string;
  rc_escalation_target : option string;
  rc_cost_usd : float }.

Definition _is_http_url (env : NetEnv) (value : string) : res bool :=
  let? parsed := urlparse env value "" in
  Ok (bool_decide (pr_scheme parsed = "http" \/ pr_scheme parsed = "https") && truthy_str (pr_netloc parsed)).

Definition blank (s : option string) : bool := if s is Some s then negb (truthy_str (strip s)) else true.
Definition is_some {A} (o : option A) : bool := if o is Some _ then true else false.

(** [validate_decision]; pydantic turns the [ValueError] of [urlparse] into a
    [ValidationError] too. *)
Definition validate_decision (env : NetEnv) (d : RecoveryDecision) : res RecoveryDecision :=
  do? guard (truthy_str (strip (rc_reason d))) (ValidationError "recovery decision reason must be non-blank") in
  do? guard (truthy_str (strip (rc_failure_signature d))) (ValidationError "recovery decision failure_signature must be non-blank") in
  do? guard (isfinite (rc_cost_usd d)) (ValidationError "recovery decision cost_usd must be a finite number") in
  do? guard (negb (PrimFloat.ltb (rc_cost_usd d) 0)) (ValidationError "recovery decision cost_usd must be non-negative") in
  do? guard (negb (bool_decide (rc_source d = CHEAP_CLASSIFIER) && negb (PrimFloat.eqb (rc_cost_usd d) 0)))
        (ValidationError "cheap_classifier recovery decisions must have cost_usd=0.0") in
  match rc_kind d with
  | DIFFERENT_URL =>
      do? guard (negb (blank (rc_alternative_url d))) (ValidationError "different_url recovery decision requires non-blank alternative_url") in
      do? (match _is_http_url env (default "" (rc_alternative_url d)) with
           | Ok http => guard http (ValidationError "different_url recovery decision alternative_url must be an absolute http(s) URL")
           | Raise _ => Raise (ValidationError "Invalid IPv6 URL")
           end) in
      do? guard (negb (is_some (rc_escalation_target d))) (ValidationError "different_url recovery decision must not set escalation_target") in
      Ok d
  | ESCALATE_ADAPTER =>
      do? guard (negb (blank (rc_escalation_target d))) (ValidationError "escalate_adapter recovery decision requires non-blank escalation_target") in
      do? guard (negb (is_some (rc_alternative_url d))) (ValidationError "escalate_adapter recovery decision must not set alternative_url") in
      Ok d
  | ABANDON | REQUEST_REVIEW =>
      do? guard (negb (is_some (rc_alternative_url d))) (ValidationError "recovery decision must not set alternative_url") in
      do? guard (negb (is_some (rc_escalation_target d))) (ValidationError "recovery decision must not set escalation_target") in
      Ok d
  end.

(** ** Failures

    What the layer reads of an exception: its class, [status_code] (absent,
    [None] or an integer) and whether it has a [classifier_provider]. *)
Record Failure := { f_class : string; f_status_code : option (option Z); f_classifier_provider : bool }.

Definition status_text (status : option (option Z)) : string :=
  match status with None => "" | Some None => "None" | Some (Some n) => pretty n end.

(** ** agents/recovery/cheap_classifier.py *)

Inductive CheapClassifierVerdict := DEAD_HOST | PERMANENT_BLOCK | TRANSIENT_UNCLEAR | ESCALATE_TO_LLM.
Definition CheapClassifierVerdict_value (v : CheapClassifierVerdict) : string :=
  match v with DEAD_HOST => "dead_host" | PERMANENT_BLOCK => "permanent_block" | TRANSIENT_UNCLEAR => "transient_unclear"
  | ESCALATE_TO_LLM => "escalate_to_llm" end.
Definition _DEAD_HOST_STATUS_CODES : list Z := [404; 410].
Definition _TRANSIENT_STATUS_CODES : list Z := [500; 502; 503; 504].

Definition cheap_classify (failure : Failure) : CheapClassifierVerdict :=
  if bool_decide (f_class failure = "RobotsBlockedError") then PERMANENT_BLOCK
  else if f_classifier_provider failure then PERMANENT_BLOCK
  else
    match f_status_code failure with
    | Some (Some status_code) =>
        if bool_decide (status_code ∈ _DEAD_HOST_STATUS_CODES) then DEAD_HOST
        else if bool_decide (status_code ∈ _TRANSIENT_STATUS_CODES) then TRANSIENT_UNCLEAR
        else ESCALATE_TO_LLM
    | _ => ESCALATE_TO_LLM
    end.

Section Recovery.
Context (env : NetEnv) (sha256 : string -> string).

Definition _failure_signature (failure : Failure) : string :=
  String.substring 0 16 (sha256 (f_class failure +:+ "|" +:+ status_text (f_status_code failure))).

(** ** agents/recovery/llm_backed_recovery.py *)

Definition recovery_decision (uuid : string) (kind : RecoveryDecisionKind) (reason signature : string) (source : RecoveryDecisionSource)
    : res RecoveryDecision :=
  validate_decision env {| rc_id := "recovery-decision:" +:+ uuid; rc_kind := kind; rc_reason := reason; rc_failure_signature := signature;
    rc_source := source; rc_alternative_url := None; rc_escalation_target := None; rc_cost_usd := 0 |}.

Definition llm_backed_decide {W} (cheap_classifier : Failure -> string -> M W CheapClassifierVerdict)
    (llm_decision_fn : Failure -> Z -> M W RecoveryDecisionKind) (uuid : string)
    (failure : Failure) (attempt_evidence_ref run_ref : string) (recovery_iteration : Z) : M W RecoveryDecision :=
  do* lift (guard (non_blank run_ref) (ValueError "run_ref must be non-blank")) in
  do* lift (guard (non_blank attempt_evidence_ref) (ValueError "attempt_evidence_ref must be non-blank")) in
  do* lift (guard (0 <=? recovery_iteration) (ValueError "recovery_iteration must be non-negative")) in
  let signature := _failure_signature failure in
  let* verdict := cheap_classifier failure attempt_evidence_ref in
  match verdict with
  | DEAD_HOST | PERMANENT_BLOCK =>
      lift (recovery_decision uuid ABANDON ("cheap_classifier:" +:+ CheapClassifierVerdict_value verdict) signature CHEAP_CLASSIFIER)
  | TRANSIENT_UNCLEAR | ESCALATE_TO_LLM =>
      let* kind := llm_decision_fn failure recovery_iteration in
      let kind := match kind with DIFFERENT_URL | ESCALATE_ADAPTER => ABANDON | kind => kind end in
      lift (recovery_decision uuid kind ("llm_recovery:" +:+ CheapClassifierVerdict_value verdict) signature LLM_RECOVERY)
  end.
End Recovery.

(** ** Escalation of adapters *)

Record AdapterEscalationPolicy := {
  ep_id : string;
  ep_name : string;
  ep_allowed_transitions : dict AdapterType (list AdapterType);
  ep_requires_review : bool;
  ep_max_escalations_per_run : Z }.

Record AdapterEscalationDecision := {
  ed_id : string;
  ed_run_ref : string;
  ed_from_adapter_type : AdapterType;
  ed_to_adapter_type : AdapterType;
  ed_reason : string;
  ed_failure_signature : string;
  ed_policy_ref : string;
  ed_triggered_by_ref : string }.

(** [_ALLOWED_ESCALATION_TRANSITIONS.get(source, frozenset())] *)
Definition _ALLOWED_ESCALATION_TRANSITIONS (source : AdapterType) : list AdapterType :=
  match source with
  | API_SOURCE => [HTTP; AUTHORIZED_SESSION]
  | HTTP => [AUTHORIZED_SESSION; BROWSER_SNAPSHOT]
  | BROWSER_SNAPSHOT => [AUTHORIZED_SESSION]
  | _ => []
  end.

Definition validate_escalation (d : AdapterEscalationDecision) : res AdapterEscalationDecision :=
  do? guard (negb (bool_decide (ed_from_adapter_type d = ed_to_adapter_type d)))
        (ValidationError "adapter escalation decision must change adapter_type (from_adapter_type != to_adapter_type)") in
  do? guard (bool_decide (ed_to_adapter_type d ∈ _ALLOWED_ESCALATION_TRANSITIONS (ed_from_adapter_type d)))
        (ValidationError "adapter escalation decision is not in the design-allowed escalation chain") in
  do? guard (truthy_str (strip (ed_reason d))) (ValidationError "adapter escalation decision reason must be non-blank") in
  do? guard (truthy_str (strip (ed_failure_signature d))) (ValidationError "adapter escalation decision failure_signature must be non-blank") in
  Ok d.

Definition validate_transition (entry : AdapterType * list AdapterType) : res unit :=
  let '(source, targets) := entry in
  do? guard (negb (bool_decide (targets = []))) (ValidationError "adapter escalation policy entry has empty target list") in
  do? guard (negb (bool_decide (source ∈ targets))) (ValidationError "adapter escalation policy must not list an adapter as its own target") in
  do? guard (bool_decide (NoDup targets)) (ValidationError "adapter escalation policy entry contains duplicate targets") in
  guard (forallb (fun t => bool_decide (t ∈ _ALLOWED_ESCALATION_TRANSITIONS source)) targets)
    (ValidationError "adapter escalation policy entry is not in the design-allowed escalation chain").

Definition validate_policy (p : AdapterEscalationPolicy) : res AdapterEscalationPolicy :=
  do? guard (truthy_str (strip (ep_name p))) (ValidationError "adapter escalation policy name must be non-blank") in
  do? guard (1 <=? ep_max_escalations_per_run p) (ValidationError "adapter escalation policy max_escalations_per_run must be >= 1") in
  do? guard (negb (bool_decide (ep_allowed_transitions p = []))) (ValidationError "adapter escalation policy must declare at least one allowed transition") in
  do? for_each validate_transition (ep_allowed_transitions p) in
  Ok p.

(** [PolicyDrivenEscalator.decide] *)
Definition escalate (sha256 : string -> string) (uuid : string) (from_adapter_type : AdapterType) (failure : Failure)
    (run_ref triggered_by_ref : string) (policy : AdapterEscalationPolicy) (prior_escalation_count : Z) : res (option AdapterEscalationDecision) :=
  do? guard (non_blank run_ref) (ValueError "run_ref must be non-blank") in
  do? guard (non_blank triggered_by_ref) (ValueError "triggered_by_ref must be non-blank") in
  do? guard (0 <=? prior_escalation_count) (ValueError "prior_escalation_count must be non-negative") in
  if ep_max_escalations_per_run policy <=? prior_escalation_count then Ok None
  else if ep_requires_review policy then Ok None
  else
    match dict_get (ep_allowed_transitions policy) from_adapter_type with
    | None | Some [] => Ok None
    | Some (next_adapter_type :: _) =>
        let? decision := validate_escalation {|
          ed_id := "escalation-decision:" +:+ uuid; ed_run_ref := run_ref; ed_from_adapter_type := from_adapter_type;
          ed_to_adapter_type := next_adapter_type; ed_reason := "policy-driven:" +:+ ep_name policy;
          ed_failure_signature := _failure_signature sha256 failure; ed_policy_ref := ep_id policy; ed_triggered_by_ref := triggered_by_ref |} in
        Ok (Some decision)
    end.

(** ** agents/run_controller.py *)

(** What [extract] of the schema runtime does: a result of type [X], or one of
    the typed failures; any other exception is raised. *)
Inductive Extraction (X : Type) := Extracted (result : X) | Failed (failure : Failure).
Arguments Extracted {X} result.
Arguments Failed {X} failure.

Record UrlRunOutcome (X : Type) := {
  uo_final_url : string;
  uo_result : option X;
  uo_recovery_trace : list RecoveryDecision;
  uo_terminal_decision : option RecoveryDecision;
  uo_iterations : Z }.
Arguments uo_final_url {X}. Arguments uo_result {X}. Arguments uo_recovery_trace {X}. Arguments uo_terminal_decision {X}.
Arguments uo_iterations {X}.

(** The ports: the arguments of [extract] other than the URL are those of the
    request, a value of type [P]. *)
Class AgentPorts (P X W : Type) := {
  extract : string -> P -> M W (Extraction X);
  decide_recovery : Failure -> string -> string -> Z -> M W RecoveryDecision }.

Record ControllerConfig := { rn_run_ref : string; rn_objective_ref : string; rn_max_recovery_iterations : Z; rn_gate : CostGateConfig }.

Definition new_controller (c : ControllerConfig) : res ControllerConfig :=
  do? guard (non_blank (rn_run_ref c)) (ValueError "run_ref must be non-blank") in
  do? guard (non_blank (rn_objective_ref c)) (ValueError "objective_ref must be non-blank") in
  do? guard (0 <=? rn_max_recovery_iterations c) (ValueError "max_recovery_iterations must be non-negative") in
  Ok c.

Section Controller.
Context {P X W : Type} `{AgentPorts P X W} (env : NetEnv) (cfg : ControllerConfig).
Abbreviation State := (CostGate * W)%type.

Definition _origin_for (url : string) : res string :=
  let? parsed := urlparse env url "" in
  Ok (pr_scheme parsed +:+ "://" +:+ default "" (pr_hostname parsed)).

(** A call of the shared cost gate. *)
Definition on_gate {A} (m : M CostGate A) : M State A := fun s => let '(r, g) := m s.1 in (r, (g, s.2)).

Definition halted (url : string) (recovery_trace : list RecoveryDecision) (decision : RecoveryDecision) (iteration : Z) : UrlRunOutcome X :=
  {| uo_final_url := url; uo_result := None; uo_recovery_trace := recovery_trace; uo_terminal_decision := Some decision;
     uo_iterations := iteration |}.

(** [_run_with_recovery] and [_handle_failure] call each other; [remaining] is
    [max_recovery_iterations - iteration]. *)
Fixpoint _run_with_recovery (remaining : nat) (url : string) (params : P) (recovery_trace : list RecoveryDecision) : M State (UrlRunOutcome X) :=
  let iteration := rn_max_recovery_iterations cfg - Z.of_nat remaining in
  let* origin := lift (_origin_for url) in
  let last_signature := rc_failure_signature <$> last recovery_trace in
  do* on_gate (check (rn_gate cfg) (rn_run_ref cfg) (rn_objective_ref cfg) origin last_signature) in
  let* extraction := on_world (extract url params) in
  match extraction with
  | Extracted result =>
      ret {| uo_final_url := url; uo_result := Some result; uo_recovery_trace := recovery_trace; uo_terminal_decision := None;
             uo_iterations := iteration |}
  | Failed failure =>
      match remaining with
      | O =>
          let* decision := on_world (decide_recovery failure ("attempt:max-iter:" +:+ pretty iteration) (rn_run_ref cfg) iteration) in
          ret (halted url (recovery_trace ++ [decision]) decision iteration)
      | S remaining =>
          let* decision := on_world (decide_recovery failure ("attempt:iter:" +:+ pretty iteration) (rn_run_ref cfg) iteration) in
          let recovery_trace := recovery_trace ++ [decision] in
          match rc_kind decision with
          | DIFFERENT_URL => _run_with_recovery remaining (default "" (rc_alternative_url decision)) params recovery_trace
          | _ => ret (halted url recovery_trace decision iteration)
          end
      end
  end.

Definition run_url (url : string) (params : P) : M State (UrlRunOutcome X) :=
  _run_with_recovery (Z.to_nat (rn_max_recovery_iterations cfg)) url params [].
End Controller.
