(* ===== verification/RecoveryLaws.v ===== *)
(** * What the recovery layer promises

    Every run of the controller is bounded, whatever the extraction runtime,
    the recovery adapter and the model answer; a failure that keeps coming back
    is retried a bounded number of times over all the URLs of an objective,
    because the controller reports it to the cost gate before it tries again;
    and a chain of escalations allowed by a policy ends after three steps. *)
From Stdlib Require Import Floats.
From S2P Require Import Prelude PyDict PyStr PyFloat UrlLib UrlJoin RateLimiter CostGate Trace Recovery.
Local Open Scope Z_scope.

(** The guards a validator has passed. *)
Ltac guards := repeat match goal with u : unit |- _ => destruct u | H : guard _ _ = Ok tt |- _ => apply guard_ok in H end.

(** A text that starts with a visible character is not blank. *)
Lemma visible_start c s : is_space c = false -> truthy_str (strip (String c s)) = true.
Proof. intros Hc. unfold strip. simpl. rewrite Hc. simpl. rewrite Hc. by destruct (str_rstrip is_space s). Qed.

(** ** Escalation *)

(** How many steps are left below an adapter. *)
Definition escalation_rank (a : AdapterType) : nat :=
  match a with API_SOURCE => 3 | HTTP => 2 | BROWSER_SNAPSHOT => 1 | _ => 0 end.

Lemma allowed_rank a b : b ∈ _ALLOWED_ESCALATION_TRANSITIONS a -> (escalation_rank b < escalation_rank a)%nat.
Proof. destruct a; simpl; rewrite ?elem_of_cons, ?elem_of_nil; try tauto; intros Hb; repeat destruct Hb as [->|Hb]; try done; simpl; lia. Qed.

Lemma valid_escalation d d' : validate_escalation d = Ok d' -> d' = d /\ ed_to_adapter_type d ∈ _ALLOWED_ESCALATION_TRANSITIONS (ed_from_adapter_type d).
Proof. unfold validate_escalation. intros H. run_m H. guards. split; [done|]. by match goal with H : bool_decide (_ ∈ _) = true |- _ => apply bool_decide_eq_true in H end. Qed.

Lemma valid_policy_target p a b l : is_ok (validate_policy p) = true -> dict_get (ep_allowed_transitions p) a = Some (b :: l) ->
  b ∈ _ALLOWED_ESCALATION_TRANSITIONS a /\ truthy_str (strip (ep_name p)) = true.
Proof.
  intros Hok Hget. destruct (validate_policy p) as [p'|e] eqn:E; [|done]. unfold validate_policy in E. run_m E. guards. split; [|done].
  apply dict_get_Some_in in Hget.
  assert (forall entries, for_each validate_transition entries = Ok tt -> (a, b :: l) ∈ entries -> validate_transition (a, b :: l) = Ok tt) as Hall.
  { clear. induction entries as [|x entries IH]; [by intros _ ?%elem_of_nil|]. simpl. intros H. destruct (validate_transition x) as [[]|e] eqn:Ex; [|done].
    intros [<-|Hin]%elem_of_cons; [done|by apply IH]. }
  match goal with H : for_each _ _ = Ok _ |- _ => specialize (Hall _ H Hget) end.
  unfold validate_transition in Hall. run_m Hall. guards.
  apply andb_true_iff in Hall as [Hall _]. by apply bool_decide_eq_true in Hall.
Qed.

Section Escalation.
Context (sha256 : string -> string).

Lemma signature_nonblank_escalates uuid a failure run_ref by_ref p n b l : is_ok (validate_policy p) = true -> non_blank run_ref = true ->
  non_blank by_ref = true -> truthy_str (strip (_failure_signature sha256 failure)) = true -> 0 <= n < ep_max_escalations_per_run p ->
  ep_requires_review p = false -> dict_get (ep_allowed_transitions p) a = Some (b :: l) ->
  exists d, escalate sha256 uuid a failure run_ref by_ref p n = Ok (Some d) /\ ed_from_adapter_type d = a /\ ed_to_adapter_type d = b.
Proof.
  intros Hp Hr Hb Hs Hn Hrev Hget. destruct (valid_policy_target p a b l Hp Hget) as [Hallowed Hname]. unfold escalate.
  rewrite Hr, Hb. simpl. rewrite (proj2 (Z.leb_le 0 n)) by lia. simpl. rewrite (proj2 (Z.leb_gt _ n)) by lia. rewrite Hrev, Hget.
  unfold validate_escalation. cbn [ed_reason ed_failure_signature ed_from_adapter_type ed_to_adapter_type]. rewrite Hs, append_cons, visible_start by done.
  rewrite bool_decide_eq_false_2, bool_decide_eq_true_2 by (try done; intros ->; by apply allowed_rank in Hallowed; lia).
  simpl. by eexists.
Qed.

(** A chain of escalations: each starts from the adapter the one before chose. *)
Inductive chain (p : AdapterEscalationPolicy) : AdapterType -> list AdapterEscalationDecision -> Prop :=
  | chain_nil a : chain p a []
  | chain_cons a uuid failure run_ref by_ref n d ds : escalate sha256 uuid a failure run_ref by_ref p n = Ok (Some d) ->
      chain p (ed_to_adapter_type d) ds -> chain p a (d :: ds).

Lemma escalate_allowed uuid a failure run_ref by_ref p n d : escalate sha256 uuid a failure run_ref by_ref p n = Ok (Some d) ->
  ed_from_adapter_type d = a /\ ed_to_adapter_type d ∈ _ALLOWED_ESCALATION_TRANSITIONS a /\
  n < ep_max_escalations_per_run p /\ ep_requires_review p = false.
Proof.
  unfold escalate. intros H. do 3 (apply rbind_ok in H as ([] & _ & H)). destruct (_ <=? n) eqn:E; [done|].
  destruct (ep_requires_review p); [done|]. destruct (dict_get _ a) as [[|b l]|]; try done. apply rbind_ok in H as (d' & Hd & [= <-]).
  apply valid_escalation in Hd as [-> Hd]. split_and!; try done. by apply Z.leb_gt in E.
Qed.

(** Escalation ends. Whatever the policy, the failures and the counts, each
    escalation goes to an adapter that the design allows from the current one,
    within the policy's budget and never under a policy that asks for review,
    and no chain of escalations is longer than the adapter's rank, three steps
    at most. *)
Theorem escalation_ends p a ds : chain p a ds ->
  (length ds <= escalation_rank a)%nat /\ (escalation_rank a <= 3)%nat /\ (ds <> [] -> ep_requires_review p = false) /\
  Forall (fun d => ed_to_adapter_type d ∈ _ALLOWED_ESCALATION_TRANSITIONS (ed_from_adapter_type d)) ds.
Proof.
  intros Hc. split; [|split; [destruct a; simpl; lia|]].
  - induction Hc as [a|a uuid failure run_ref by_ref n d ds He _ IH]; simpl; [lia|].
    apply escalate_allowed in He as (_ & Hin%allowed_rank & _). lia.
  - induction Hc as [a|a uuid failure run_ref by_ref n d ds He _ [_ IH]]; [by split|].
    apply escalate_allowed in He as (Hf & Hin & _ & Hrev). split; [done|]. constructor; [by rewrite Hf|done].
Qed.
End Escalation.

(** ** The recovery adapter *)

Lemma validate_decision_id env d d' : validate_decision env d = Ok d' -> d' = d.
Proof. unfold validate_decision. intros H. run_m H. destruct (rc_kind d); by run_m H. Qed.

(** Whatever the classifier and the model say, the adapter decides to abandon or
    to ask for review; a terminal verdict never reaches the model. *)
Lemma llm_backed_decides env sha256 {W} (classify : Failure -> string -> M W CheapClassifierVerdict) llm uuid failure ref run_ref n w d w' :
  llm_backed_decide env sha256 classify llm uuid failure ref run_ref n w = (Ok d, w') ->
  (rc_kind d = ABANDON \/ rc_kind d = REQUEST_REVIEW) /\ validate_decision env d = Ok d /\
  (forall v w1, classify failure ref w = (Ok v, w1) -> v = DEAD_HOST \/ v = PERMANENT_BLOCK -> rc_kind d = ABANDON /\ w' = w1).
Proof.
  intros H. unfold llm_backed_decide in H. do 3 (apply bind_ok in H as ([] & ? & [= _ <-] & H)). apply bind_ok in H as (v & w1 & Hv & H).
  assert (forall kind reason signature source, recovery_decision env uuid kind reason signature source = Ok d ->
    rc_kind d = kind /\ validate_decision env d = Ok d) as Hdec.
  { intros kind reason signature source Hd. unfold recovery_decision in Hd.
    by pose proof (validate_decision_id _ _ _ Hd) as ->. }
  destruct v; [| |apply bind_ok in H as (kind & w2 & Hk & H)..]; injection H as Hd <-; apply Hdec in Hd as [Hkind Hval];
    (split; [rewrite Hkind; first [by left|destruct kind; by auto]|]); (split; [done|]); intros v' w1'; rewrite Hv; intros [= <- <-] [?|?]; done.
Qed.

(** ** The controller *)

Inductive AgentEvent (X : Type) :=
  | EvExtract (url : string) (r : res (Extraction X))
  | EvDecide (failure : Failure) (r : res RecoveryDecision).
Arguments EvExtract {X} url r.
Arguments EvDecide {X} failure r.

(** The ports record their calls, and a decision that is returned has passed
    its contract. *)
Class AgentLaws (P X W : Type) `{AgentPorts P X W} (env : NetEnv) (trace : W -> list (AgentEvent X)) := {
  extract_traced : forall url params w, trace (extract url params w).2 = trace w ++ [EvExtract url (extract url params w).1];
  decide_traced : forall failure ref run n w,
    trace (decide_recovery failure ref run n w).2 = trace w ++ [EvDecide failure (decide_recovery failure ref run n w).1];
  decide_valid : forall failure ref run n w d, (decide_recovery failure ref run n w).1 = Ok d -> validate_decision env d = Ok d }.

Section Controller.
Context {P X W : Type} `{HP : AgentPorts P X W} (env : NetEnv) (cfg : ControllerConfig) (trace : W -> list (AgentEvent X)).
Context `{HL : !AgentLaws P X W env trace}.
Implicit Types (g : CostGate) (t : list (AgentEvent X)).

Definition extracted t : list string := omap (fun ev => match ev with EvExtract url _ => Some url | _ => None end) t.

(** How often an extraction was tried again after a decision on a failure with
    the signature [s]; [prev] is the signature of the last decision. *)
Fixpoint retries (s : string) (prev : option string) t : Z :=
  match t with
  | [] => 0
  | EvExtract _ _ :: t => (if decide (prev = Some s) then 1 else 0) + retries s None t
  | EvDecide _ (Ok d) :: t => retries s (Some (rc_failure_signature d)) t
  | EvDecide _ (Raise _) :: t => retries s None t
  end.

Lemma emits_gate {A} (m : M CostGate A) g (Q : list (AgentEvent X) -> res A -> CostGate -> Prop) :
  Q [] (m g).1 (m g).2 -> emits trace (on_gate m) g Q.
Proof. intros HQ e. exists []. rewrite app_nil_r. unfold on_gate. simpl. by destruct (m g). Qed.

Abbreviation key := (fun s => (rn_objective_ref cfg, s)).
Abbreviation threshold := (cg_repeated_failure_threshold (rn_gate cfg)).

(** An accepted check has counted its signature, below the threshold. *)
Lemma check_accepted run obj origin sig g g' s : check (rn_gate cfg) run obj origin sig g = (Ok tt, g') ->
  failures_of g' (obj, s) = (if decide (sig = Some s) then 1 else 0) + failures_of g (obj, s) /\
  (sig = Some s -> failures_of g' (obj, s) < threshold).
Proof.
  intros H. assert (failures_of g' (obj, s) = (if decide (sig = Some s) then 1 else 0) + failures_of g (obj, s)) as Hf.
  { pose proof (step_failures (rn_gate cfg) (GateCheck run obj origin sig) g (obj, s)) as Hs. cbn [gate_call] in Hs. rewrite H in Hs. simpl in Hs. rewrite Hs.
    unfold check, bind, lift in H. destruct (validate_inputs run obj origin) as [[]|e]; [|done]. simpl in H |- *.
    destruct (refuse_if_breaches_cap _ run obj origin g) as [[]|e]; [|done]. simpl in H |- *. destruct sig as [s'|]; [|by rewrite !decide_False].
    destruct (truthy_str (strip s')); [|done]. simpl. destruct (decide (s' = s)) as [->|Hne]; [by rewrite !decide_True|].
    by rewrite !decide_False by congruence. }
  split; [done|]. intros ->. rewrite decide_True in Hf by done. rewrite Hf. unfold check, bind, lift, gets, modify in H.
  destruct (validate_inputs run obj origin) as [[]|e]; [|done]. destruct (refuse_if_breaches_cap _ run obj origin g) as [[]|e]; [|done].
  destruct (truthy_str (strip s)); [|done]. simpl in H. destruct (_ <=? _) eqn:E; [done|]. apply Z.leb_gt in E. unfold failures_of in *. lia.
Qed.
Lemma check_counts run obj origin sig g s : failures_of g (obj, s) <= failures_of (check (rn_gate cfg) run obj origin sig g).2 (obj, s).
Proof.
  pose proof (step_failures (rn_gate cfg) (GateCheck run obj origin sig) g (obj, s)) as Hs. cbn [gate_call] in Hs. rewrite Hs. destruct (decide _); lia.
Qed.

(** What a run that tries [n] extractions at most adds to the trace, [t], and to
    the counters; [prev] is the signature it reports first. *)
Definition bounded (n : nat) (prev : option string) g t g' : Prop :=
  (length (extracted t) <= n)%nat /\
  forall s, let before := failures_of g (key s) in let after := failures_of g' (key s) in
    before <= after /\ retries s prev t <= after - before /\ (retries s prev t = 0 \/ before + retries s prev t < threshold).

(** How a run that returns has gone: the URLs it tried, each but the first
    given by the decision before. *)
Definition accounted (n : nat) (url : string) (before : list RecoveryDecision) t (o : UrlRunOutcome X) : Prop :=
  exists followed, Forall (fun d => rc_kind d = DIFFERENT_URL /\ validate_decision env d = Ok d) followed /\ (length followed <= n)%nat /\
    extracted t = url :: map (fun d => default "" (rc_alternative_url d)) followed /\ last (extracted t) = Some (uo_final_url o) /\
    uo_iterations o = rn_max_recovery_iterations cfg - Z.of_nat n + Z.of_nat (length followed) /\
    match uo_terminal_decision o with
    | None => uo_recovery_trace o = before ++ followed /\
        exists x, uo_result o = Some x /\ last t = Some (EvExtract (uo_final_url o) (Ok (Extracted x)))
    | Some d => uo_recovery_trace o = before ++ followed ++ [d] /\ uo_result o = None /\
        exists failure, last t = Some (EvDecide failure (Ok d))
    end.

Definition run_post (n : nat) (url : string) (before : list RecoveryDecision) g t (r : res (UrlRunOutcome X)) g' : Prop :=
  bounded (S n) (rc_failure_signature <$> last before) g t g' /\ forall o, r = Ok o -> accounted n url before t o.

Lemma bounded_nil n prev g g' : (forall s, failures_of g (key s) <= failures_of g' (key s)) -> bounded n prev g [] g'.
Proof. intros Hg. split; [simpl; lia|]. intros s. specialize (Hg s). cbn [retries]. cbv beta zeta in *. split_and!; [done|lia|by left]. Qed.
Lemma bounded_refused n prev g failure e : bounded n prev g [EvDecide failure (Raise e)] g.
Proof. split; [simpl; lia|]. intros s. cbn [retries]. cbv beta zeta. split_and!; [done|lia|by left]. Qed.
Lemma bounded_decided n prev g failure d t g' : bounded n (Some (rc_failure_signature d)) g t g' ->
  bounded n prev g (EvDecide failure (Ok d) :: t) g'.
Proof. intros [Hl Hs]. by split. Qed.

(** A try: the gate has accepted the check and the extraction was called. *)
Lemma bounded_try n run origin prev g g1 url r t g2 :
  check (rn_gate cfg) run (rn_objective_ref cfg) origin prev g = (Ok tt, g1) -> bounded n None g1 t g2 ->
  bounded (S n) prev g (EvExtract url r :: t) g2.
Proof.
  intros Hc [Hl Hs]. split; [simpl; lia|]. intros s. specialize (Hs s). destruct (check_accepted _ _ _ _ _ _ s Hc) as [Hf Hth].
  simpl. destruct (decide (prev = Some s)) as [->|Hne]; simpl in *; [specialize (Hth eq_refl)|]; lia.
Qed.

Lemma accounted_done n url before t o : extracted t = [url] -> uo_final_url o = url -> uo_iterations o = rn_max_recovery_iterations cfg - Z.of_nat n ->
  match uo_terminal_decision o with
  | None => uo_recovery_trace o = before /\ exists x, uo_result o = Some x /\ last t = Some (EvExtract url (Ok (Extracted x)))
  | Some d => uo_recovery_trace o = before ++ [d] /\ uo_result o = None /\ exists failure, last t = Some (EvDecide failure (Ok d))
  end -> accounted n url before t o.
Proof.
  intros Ht Hu Hi Hd. exists []. rewrite Ht, Hu. split; [done|]. split; [simpl; lia|]. split; [done|]. split; [done|]. split; [simpl; lia|].
  destruct (uo_terminal_decision o); [done|]. by rewrite app_nil_r.
Qed.

Lemma last_cons_Some {A} (x y : A) l : last l = Some x -> last (y :: l) = Some x.
Proof. intros H. by rewrite last_cons, H. Qed.
Lemma accounted_next n url before r failure d t o : rc_kind d = DIFFERENT_URL -> validate_decision env d = Ok d ->
  accounted n (default "" (rc_alternative_url d)) (before ++ [d]) t o -> accounted (S n) url before (EvExtract url r :: EvDecide failure (Ok d) :: t) o.
Proof.
  intros Hk Hv (followed & Hf & Hl & Ht & Hlast & Hi & Hd). exists (d :: followed). split; [by constructor|]. split; [simpl; lia|].
  change (extracted (EvExtract url r :: EvDecide failure (Ok d) :: t)) with (url :: extracted t). split; [by rewrite Ht|].
  split; [by rewrite Ht in *|]. split; [simpl; lia|].
  destruct (uo_terminal_decision o); rewrite <-app_assoc in Hd; destruct Hd as (? & Hd); (split; [done|]);
    [destruct Hd as (? & failure' & Hd)|destruct Hd as (x & ? & Hd)]; eauto 6 using last_cons_Some.
Qed.

Lemma runs_emit n : forall url params before g, emits trace (_run_with_recovery env cfg n url params before) g (run_post n url before g).
Proof.
  induction n as [|n IH]; intros url params before g; cbn [_run_with_recovery];
    (apply emits_bind, emits_lift; destruct (_origin_for env url) as [origin|e]; [|by split; [apply bounded_nil; lia|]]);
    (apply emits_bind, emits_gate; destruct (check _ _ _ origin _ g) as [[[]|e] g1] eqn:Hc; simpl;
      [|split; [apply bounded_nil; intros s; rewrite <-(f_equal snd Hc : _ = g1); apply check_counts|done]]);
    (apply emits_bind, (emits_event _ (EvExtract url)); [intros w; apply extract_traced|]); intros w; destruct (extract url params w).1 as [[result|failure]|e];
    try (split; [eapply bounded_try; [exact Hc|apply bounded_nil; lia]|done]);
    try (apply emits_ret; split; [eapply bounded_try; [exact Hc|apply bounded_nil; lia]|intros o [= <-]; apply accounted_done; simpl; eauto]).
  - apply emits_bind, (emits_event _ (EvDecide failure)); [intros w'; apply decide_traced|]. intros w'. destruct (decide_recovery _ _ _ _ w').1 as [d|e].
    + apply emits_ret. split; [eapply bounded_try; [exact Hc|by apply bounded_decided, bounded_nil]|]. intros o [= <-]. apply accounted_done; simpl; eauto.
    + split; [eapply bounded_try; [exact Hc|apply bounded_refused]|done].
  - apply emits_bind, (emits_event _ (EvDecide failure)); [intros w'; apply decide_traced|]. intros w'.
    destruct (decide_recovery _ _ _ _ w').1 as [d|e] eqn:Hd; [|split; [eapply bounded_try; [exact Hc|apply bounded_refused]|done]].
    apply decide_valid in Hd.
    assert (emits trace (ret (halted url (before ++ [d]) d (rn_max_recovery_iterations cfg - Z.of_nat (S n)))) g1
      (fun t r g' => run_post (S n) url before g ([EvExtract url (Ok (Failed failure))] ++ [EvDecide failure (Ok d)] ++ t) r g')) as Hhalt.
    { apply emits_ret. split; [eapply bounded_try; [exact Hc|by apply bounded_decided, bounded_nil]|]. intros o [= <-]. apply accounted_done; simpl; eauto. }
    destruct (rc_kind d) eqn:Hk; try exact Hhalt. eapply emits_mono; [apply IH|]. intros t r g2 [Hb Ho]. rewrite last_snoc in Hb. split.
    + eapply bounded_try; [exact Hc|]. by apply bounded_decided.
    + intros o ->. by apply accounted_next, Ho.
Qed.

(** C17: A run is bounded and its outcome is accounted for. Whatever the
    extraction runtime and the recovery adapter answer, [run_url] makes at most
    one extraction more than the recovery iterations allowed; and an outcome
    that it returns names the last URL tried, counts the URLs followed, each
    given by a valid [different_url] decision on the failure before, lists every
    decision in order, and holds either what the last extraction returned or,
    with no result, the last decision, never both. *)
Theorem recovery_is_bounded url params g w : new_controller cfg = Ok cfg ->
  exists t, trace (run_url env cfg url params (g, w)).2.2 = trace w ++ t /\
    Z.of_nat (length (extracted t)) <= rn_max_recovery_iterations cfg + 1 /\
    forall o, (run_url env cfg url params (g, w)).1 = Ok o ->
      accounted (Z.to_nat (rn_max_recovery_iterations cfg)) url [] t o /\
      uo_iterations o = Z.of_nat (length (extracted t)) - 1.
Proof.
  intros Hc. assert (0 <= rn_max_recovery_iterations cfg) as Hn by (unfold new_controller in Hc; run_m Hc; guards; lia).
  destruct (runs_emit (Z.to_nat (rn_max_recovery_iterations cfg)) url params [] g w) as (t & Ht & [Hl _] & Ho).
  exists t. split; [exact Ht|]. split; [lia|]. intros o Hok. specialize (Ho o Hok). split; [done|].
  destruct Ho as (followed & _ & _ & -> & _ & -> & _). simpl. rewrite length_map. lia.
Qed.
End Controller.

(** ** Runs that share a gate *)

Section Shared.
Context {P X W : Type} `{HP : AgentPorts P X W} (env : NetEnv) (trace : W -> list (AgentEvent X)) `{HL : !AgentLaws P X W env trace}.
Context (gate : CostGateConfig) (objective_ref : string).

(** What happens to a gate: runs of controllers of one objective, any other
    calls in between. Each run's part of the trace is a list of its own. *)
Inductive history : CostGate * W -> list (list (AgentEvent X)) -> CostGate * W -> Prop :=
  | history_start s : history s [] s
  | history_call s ts g w op : history s ts (g, w) -> history s ts ((gate_call gate op g).2, w)
  | history_run s ts g w cfg url params t : history s ts (g, w) -> rn_gate cfg = gate -> rn_objective_ref cfg = objective_ref ->
      trace (run_url env cfg url params (g, w)).2.2 = trace w ++ t ->
      history s (ts ++ [t]) (run_url env cfg url params (g, w)).2.

Definition total_retries (signature : string) (ts : list (list (AgentEvent X))) : Z :=
  foldr Z.add 0 (map (retries signature None) ts).

Lemma total_retries_snoc signature ts t : total_retries signature (ts ++ [t]) = total_retries signature ts + retries signature None t.
Proof. unfold total_retries. rewrite map_app, foldr_app. induction ts as [|x ts IH]; simpl in *; lia. Qed.

Lemma history_bounded s ts s' signature : history s ts s' -> failures_of s.1 (objective_ref, signature) = 0 ->
  0 < cg_repeated_failure_threshold gate ->
  total_retries signature ts <= failures_of s'.1 (objective_ref, signature) /\
  total_retries signature ts < cg_repeated_failure_threshold gate.
Proof.
  intros H Hs Hth. induction H as [s|s ts g w op _ IH|s ts g w cfg url params t _ IH <- <- Ht].
  - rewrite Hs. cbn. lia.
  - destruct (IH Hs) as [Hle Hlt]. split; [|done]. simpl in *. rewrite step_failures. destruct (decide _); lia.
  - destruct (IH Hs) as [Hle Hlt].
    destruct (runs_emit env cfg trace (Z.to_nat (rn_max_recovery_iterations cfg)) url params [] g w) as (t' & Ht' & [_ Hb] & _).
    assert (t' = t) as -> by (eapply app_inv_head; rewrite <-Ht'; exact Ht).
    specialize (Hb signature). rewrite total_retries_snoc. unfold run_url in *. simpl in *. lia.
Qed.

(** C16: A failure that keeps coming back stops an objective. From a new gate
    on, however many controllers of the objective run however many URLs, and
    whatever is charged or checked in between, an extraction is tried again
    after a failure of a given signature less often than the gate's threshold,
    over all the runs together. *)
Theorem repeated_failures_stop g w ts s' signature : new_cost_gate gate = Ok g -> history (g, w) ts s' ->
  total_retries signature ts < cg_repeated_failure_threshold gate.
Proof.
  intros Hg H. apply new_cost_gate_empty in Hg as Hempty. eapply (history_bounded _ _ _ signature H); [by rewrite Hempty|].
  unfold new_cost_gate in Hg. run_m Hg. guards. lia.
Qed.
End Shared.

(** ** A concrete agent

    A runtime that fails with a 429 at two URLs and succeeds at a third, and a
    recovery that gives the next URL. *)
Module RecoveryDemo.
Definition D : Type := list (AgentEvent nat).
Definition next_url (n : Z) : string := "https://h.test/" +:+ pretty (n + 1).
Definition too_many : Failure := {| f_class := "RateLimitedError"; f_status_code := Some (Some 429); f_classifier_provider := false |}.
Definition follow (url signature : string) : RecoveryDecision :=
  {| rc_id := "d"; rc_kind := DIFFERENT_URL; rc_reason := "try"; rc_failure_signature := signature; rc_source := HEURISTIC;
     rc_alternative_url := Some url; rc_escalation_target := None; rc_cost_usd := 0 |}.
Definition logged {A} (ev : res A -> AgentEvent nat) (r : res A) : M D A := fun w => (r, w ++ [ev r]).

#[global] Instance demo_ports : AgentPorts nat nat D := {
  extract url n := logged (EvExtract url) (if bool_decide (url = "https://h.test/2") then Ok (Extracted n) else Ok (Failed too_many));
  decide_recovery failure _ _ n := logged (EvDecide failure)
    (validate_decision offline (follow (next_url n) (if bool_decide (n = 0) then "a" else "b"))) }.
#[global] Instance demo_laws : AgentLaws nat nat D offline (fun w : D => w).
Proof. split; [done..|]. intros failure ref run n w d H. pose proof (validate_decision_id _ _ _ H). by subst d. Qed.

Definition gate : CostGateConfig := {| cg_per_run_cost_cap := Some 1%float; cg_per_objective_cost_cap := None; cg_per_host_cost_cap := None;
  cg_repeated_failure_threshold := REPEATED_FAILURE_HARD_STOP_THRESHOLD |}.
Definition fresh : CostGate := {| cg_run_costs := []; cg_objective_costs := []; cg_host_costs := []; cg_failure_counters := [] |}.
Definition controller : ControllerConfig :=
  {| rn_run_ref := "run:1"; rn_objective_ref := "objective:1"; rn_max_recovery_iterations := 3; rn_gate := gate |}.
Definition first_run := run_url offline controller "https://h.test/0" 7%nat (fresh, []).
Definition second_run := run_url offline controller "https://h.test/0" 7%nat first_run.2.

(** The first run follows two decisions; in the second the signature of the
    first comes back for the second time, and the gate refuses. *)
Example first_run_succeeds : (uo_result <$> match first_run.1 with Ok o => Some o | Raise _ => None end) = Some (Some 7%nat) /\
  length (extracted first_run.2.2) = 3%nat.
Proof. vm_compute. by split. Qed.
Example second_run_refused : second_run.1 = Raise (RepeatedFailureSignatureExceeded "a" "objective:1" 2) /\
  length (extracted second_run.2.2) = 4%nat.
Proof. vm_compute. by split. Qed.

(** At the bound the controller returns the decision of the recovery adapter as
    it is: the comment's final [ABANDON] is not made. *)
Example bound_keeps_decision :
  match (run_url offline {| rn_run_ref := "run:1"; rn_objective_ref := "objective:1"; rn_max_recovery_iterations := 0; rn_gate := gate |}
           "https://h.test/0" 7%nat (fresh, [])).1 with
  | Ok o => rc_kind <$> uo_terminal_decision o = Some DIFFERENT_URL
  | Raise _ => False
  end.
Proof. vm_compute. reflexivity. Qed.

(** The origin a host's spend is kept under has no port, and a URL whose
    brackets do not match raises before the gate is asked. *)
Example origin_without_port : _origin_for offline "https://h.test:8443/a" = Ok "https://h.test" /\
  is_ok (_origin_for offline "https://[::1/a") = false.
Proof. vm_compute. by split. Qed.

Definition http : AdapterEscalationPolicy := {| ep_id := "policy:1"; ep_name := "default"; ep_requires_review := false;
  ep_allowed_transitions := [(HTTP, [BROWSER_SNAPSHOT]); (BROWSER_SNAPSHOT, [AUTHORIZED_SESSION])]; ep_max_escalations_per_run := 2 |}.
Definition to_browser := escalate (fun _ => "0123456789abcdefff") "1" HTTP too_many "run:1" "ref:1" http 0.
Definition to_session := escalate (fun _ => "0123456789abcdefff") "2" BROWSER_SNAPSHOT too_many "run:1" "ref:1" http 1.
Definition chosen (r : res (option AdapterEscalationDecision)) : list AdapterEscalationDecision := match r with Ok (Some d) => [d] | _ => [] end.
End RecoveryDemo.

Lemma escalation_ends_witness : let ds := RecoveryDemo.chosen RecoveryDemo.to_browser ++ RecoveryDemo.chosen RecoveryDemo.to_session in
  map ed_to_adapter_type ds = [BROWSER_SNAPSHOT; AUTHORIZED_SESSION] /\ (length ds <= 2)%nat.
Proof.
  intros ds. split; [reflexivity|]. apply (escalation_ends (fun _ => "0123456789abcdefff") RecoveryDemo.http HTTP).
  eapply (chain_cons _ _ _ "1" RecoveryDemo.too_many "run:1" "ref:1" 0); [reflexivity|].
  eapply (chain_cons _ _ _ "2" RecoveryDemo.too_many "run:1" "ref:1" 1); [reflexivity|constructor].
Defined.

Lemma recovery_is_bounded_witness : new_controller RecoveryDemo.controller = Ok RecoveryDemo.controller /\
  exists t, RecoveryDemo.first_run.2.2 = [] ++ t /\ Z.of_nat (length (extracted t)) <= 4 /\
    forall o, RecoveryDemo.first_run.1 = Ok o ->
      accounted offline RecoveryDemo.controller 3 "https://h.test/0" [] t o /\ uo_iterations o = Z.of_nat (length (extracted t)) - 1.
Proof.
  split; [reflexivity|].
  apply (recovery_is_bounded offline RecoveryDemo.controller (fun w : RecoveryDemo.D => w) "https://h.test/0" 7%nat RecoveryDemo.fresh []). reflexivity.
Defined.

Lemma repeated_failures_stop_witness : new_cost_gate RecoveryDemo.gate = Ok RecoveryDemo.fresh /\
  total_retries "a" [RecoveryDemo.first_run.2.2] < 2.
Proof.
  split; [reflexivity|].
  apply (repeated_failures_stop offline (fun w : RecoveryDemo.D => w) RecoveryDemo.gate "objective:1" RecoveryDemo.fresh [] _ RecoveryDemo.first_run.2); [reflexivity|].
  apply (history_run offline (fun w : RecoveryDemo.D => w) _ _ (RecoveryDemo.fresh, []) [] _ [] RecoveryDemo.controller); [constructor|reflexivity..].
Defined.
