(* ===== verification/HttpAdapter.v ===== *)
(** * The HTTP source adapter

    [adapters/network/stdlib_http.py] and the network contracts it fills
    ([contracts/network.py]): [execute], which follows redirects under a policy,
    consults robots for every URL, takes a permit of the rate limiter for every
    visit, retries, and keeps one evidence per request on the wire. The
    attributes of the adapter are the first component of the state. httpx, the
    robots and rate-limiter ports, the cookie jar, the conditional cache, sleep,
    jitter and clocks are ports on a world; creation times of the contracts and
    the texts of error details are left out. *)
From Stdlib Require Import Ascii Strings.Byte Floats.
From S2P Require Import Prelude PyDict PyStr PyTime PyFloat Contracts UrlLib UrlJoin Url CondCache RateLimiter Robots CredScope.
Local Open Scope Z_scope.

(** ** Contracts (contracts/network.py, ports/network.py) *)

Definition _SENSITIVE_HEADER_NAMES : list string :=
  ["authorization"; "cookie"; "set-cookie"; "proxy-authorization"; "x-api-key"; "x-auth-token"; "x-session-token"; "x-csrf-token"].
Definition _REDACTION_MARKERS : list string := ["[REDACTED]"; "<REDACTED>"; "***"; "REDACTED"].

Definition _header_value_looks_redacted (value : string) : bool :=
  negb (truthy_str (strip value)) || existsb (fun marker => str_contains marker (upper value)) _REDACTION_MARKERS.

Definition _validate_redacted_headers (headers : dict string string) : res unit :=
  for_each (fun '(name, value) =>
    guard (negb (bool_decide (lower name ∈ _SENSITIVE_HEADER_NAMES)) || _header_value_looks_redacted value)
          (ValidationError "sensitive header value must be redacted")) headers.

Record NetworkAttemptEvidence := {
  ne_id : string;
  ne_run_ref : Ref;
  ne_request_ref : Ref;
  ne_attempt_number : Z;
  ne_request_method : string;
  ne_request_url : string;
  ne_request_headers_redacted : dict string string;
  ne_response_status : option Z;
  ne_response_headers_redacted : option (dict string string);
  ne_elapsed_ms : Z;
  ne_failure_class : option string;
  ne_redirect_hop_count : Z }.

Definition _is_valid_status (value : Z) : bool := (100 <=? value) && (value <=? 599).

(** [_is_http_url], whose [ValueError] pydantic turns into a [ValidationError]. *)
Definition http_url (env : NetEnv) (url : string) (msg : string) : res unit :=
  match _is_http_url env url with
  | Ok b => guard b (ValidationError msg)
  | Raise e => Raise (if subclass_value_error e then ValidationError msg else e)
  end.

Definition validate_attempt_evidence (env : NetEnv) (ev : NetworkAttemptEvidence) : res NetworkAttemptEvidence :=
  do? http_url env (ne_request_url ev) "attempt evidence request_url must be absolute http(s)" in
  do? guard (truthy_str (strip (ne_request_method ev))) (ValidationError "attempt evidence request_method must be non-blank") in
  do? guard (1 <=? ne_attempt_number ev) (ValidationError "attempt evidence attempt_number must be >= 1") in
  do? guard (0 <=? ne_elapsed_ms ev) (ValidationError "attempt evidence elapsed_ms must be non-negative") in
  do? guard (0 <=? ne_redirect_hop_count ev) (ValidationError "attempt evidence redirect_hop_count must be non-negative") in
  do? guard (if ne_response_status ev is Some s then _is_valid_status s else true)
        (ValidationError "attempt evidence response_status must be a valid HTTP status") in
  do? guard (if ne_response_status ev is None then (if ne_response_headers_redacted ev is None then true else false) else true)
        (ValidationError "attempt evidence cannot record response headers without a status") in
  do? guard (if ne_response_status ev is Some _ then (if ne_response_headers_redacted ev is Some _ then true else false) else true)
        (ValidationError "attempt evidence with response_status requires response_headers_redacted") in
  do? guard (if ne_response_status ev is None then (if ne_failure_class ev is Some _ then true else false) else true)
        (ValidationError "attempt evidence with no response requires failure_class to classify the attempt") in
  do? _validate_redacted_headers (ne_request_headers_redacted ev) in
  do? (if ne_response_headers_redacted ev is Some hs then _validate_redacted_headers hs else Ok tt) in
  Ok ev.

Record RedirectHop := {
  rh_id : string;
  rh_request_ref : Ref;
  rh_sequence : Z;
  rh_from_url : string;
  rh_to_url : string;
  rh_status_code : Z;
  rh_policy_decision_refs : list Ref }.

Definition validate_hop (env : NetEnv) (h : RedirectHop) : res RedirectHop :=
  do? guard (1 <=? rh_sequence h) (ValidationError "redirect sequence must be positive") in
  do? http_url env (rh_from_url h) "redirect urls must be absolute http(s)" in
  do? http_url env (rh_to_url h) "redirect urls must be absolute http(s)" in
  do? guard (truthy_list (rh_policy_decision_refs h)) (ValidationError "redirect hop requires policy decisions") in
  Ok h.

Record NetworkResponse := {
  nr_id : string;
  nr_request_ref : Ref;
  nr_status_code : Z;
  nr_final_url : string;
  nr_headers_ref : Ref;
  nr_raw_artifact_ref : option Ref;
  nr_content_digest : option string;
  nr_content_type : option string;
  nr_body_size_bytes : Z;
  nr_redirect_hop_refs : list Ref;
  nr_timing_ref : Ref }.

Definition validate_response (env : NetEnv) (r : NetworkResponse) : res NetworkResponse :=
  do? http_url env (nr_final_url r) "network response final_url must be absolute http(s)" in
  do? guard (_is_valid_status (nr_status_code r)) (ValidationError "network response status_code must be valid HTTP") in
  do? guard (0 <=? nr_body_size_bytes r) (ValidationError "network response body size cannot be negative") in
  do? guard (negb ((200 <=? nr_status_code r) && (nr_status_code r <? 400))
             || truthy_opt (nr_raw_artifact_ref r) && truthy_opt (nr_content_digest r) && truthy_opt (nr_content_type r))
        (ValidationError "successful network response requires raw artifact metadata") in
  Ok r.

Record NetworkRequest := {
  nq_id : string;
  nq_run_ref : Ref;
  nq_url : string;
  nq_method : string;
  nq_policy_decision_refs : list Ref;
  nq_size_budget_bytes : Z;
  nq_timeout_ms : Z }.

Definition validate_request (env : NetEnv) (q : NetworkRequest) : res NetworkRequest :=
  do? http_url env (nq_url q) "network request url must be absolute http(s)" in
  do? guard (bool_decide (nq_method q ∈ ["GET"; "HEAD"])) (ValidationError "network request method must be read-only") in
  do? guard (truthy_list (nq_policy_decision_refs q)) (ValidationError "network request requires policy decisions") in
  do? guard (negb ((nq_size_budget_bytes q <? 1) || (nq_timeout_ms q <? 1))) (ValidationError "network request budgets must be positive") in
  Ok q.

Record NetworkClientResult := {
  nc_response : NetworkResponse;
  nc_redirect_hops : list RedirectHop;
  nc_body_text : string;
  nc_artifact_refs : list Ref;
  nc_attempt_evidences : list NetworkAttemptEvidence }.

(** ** Helpers *)

Definition classify_network_failure (failure_type : NetworkFailureType) (detail : string) : exn := NetworkAdapterError failure_type detail.

(** The marker of the subclass of [NetworkAdapterError] for a failure type. *)
Inductive ErrorMarker := RetryableError | FatalError | PolicyViolation.
Definition failure_marker (failure_type : NetworkFailureType) : ErrorMarker :=
  match failure_type with
  | NETWORK_TIMEOUT => RetryableError
  | RETRY_EXHAUSTED => FatalError
  | REDIRECT_DENIED => PolicyViolation
  | EGRESS_DENIED => PolicyViolation
  | Prelude.PRIVATE_NETWORK_DENIED => PolicyViolation
  | ADAPTER_FAILURE => FatalError
  | SIZE_BUDGET_EXCEEDED => FatalError
  | ROBOTS_BLOCKED => PolicyViolation
  | RATE_BUDGET_EXCEEDED => FatalError
  | UNSAFE_BROWSER_SIDE_EFFECT => PolicyViolation
  | MISSING_NETWORK_ARTIFACT => FatalError
  end.

Section Urls.
Context (env : NetEnv) (ipv6_internal : string -> option bool).

Definition _is_private_network_url (url : string) : res bool :=
  let? parsed := urlsplit env url in
  Ok (match hostname parsed with
      | None => true
      | Some host => bool_decide (host = "localhost") || default false (internal_address ipv6_internal host)
      end).

Definition _origin (url : string) : res string :=
  let? parsed := urlsplit env url in Ok (sr_scheme parsed +:+ "://" +:+ sr_netloc parsed).

Definition _canonical_origin (url : string) : res (string * string * option Z) :=
  let? parsed := urlsplit env url in
  let scheme := lower (sr_scheme parsed) in
  let host := lower (default "" (hostname parsed)) in
  let? port := match port parsed with Ok p => Ok p | Raise (ValueError _) => Ok None | Raise e => Raise e end in
  let port := match port with
              | Some p => if bool_decide (scheme = "http") && (p =? 80) || bool_decide (scheme = "https") && (p =? 443) then None else Some p
              | None => None
              end in
  Ok (scheme, host, port).

Definition _is_cross_origin (from_url to_url : string) : res bool :=
  let? a := _canonical_origin from_url in
  let? b := _canonical_origin to_url in
  Ok (negb (bool_decide (a = b))).
End Urls.

Definition _CROSS_ORIGIN_STRIP_HEADERS : list string :=
  ["authorization"; "proxy-authorization"; "cookie"; "x-api-key"; "x-auth-token"; "x-session-token"; "x-csrf-token"].

Definition _strip_cross_origin_headers (headers : dict string string) : dict string string :=
  filter (fun kv => lower kv.1 ∉ _CROSS_ORIGIN_STRIP_HEADERS) headers.

Definition _REDACTED_EVIDENCE_HEADER_MARKER : string := "[REDACTED]".
Definition _EVIDENCE_REDACT_HEADERS : list string :=
  ["authorization"; "cookie"; "set-cookie"; "proxy-authorization"; "x-api-key"; "x-auth-token"; "x-session-token"; "x-csrf-token"].
Definition _redact_headers_for_evidence (headers : dict string string) : dict string string :=
  map (fun '(name, value) =>
    (name, if bool_decide (lower name ∈ _EVIDENCE_REDACT_HEADERS) then _REDACTED_EVIDENCE_HEADER_MARKER else value)) headers.

(** [parsedate] is the instant, in microseconds, of an HTTP date, or [None]
    where [parsedate_to_datetime] raises [TypeError] or [ValueError]. The
    [max] with [0.0] is taken on the difference, an integer. *)
Definition _parse_retry_after (parsedate : string -> option Z) (now : Z) (value : option string) : res (option float) :=
  match value with
  | None => Ok None
  | Some value =>
      if negb (truthy_str value) then Ok None
      else
        let raw := strip value in
        if isdigit raw then Ok (Some (float_of_digits (int_of_digits raw)))
        else match parsedate raw with
             | None => Ok None
             | Some at_us => let? delta := int_truediv (Z.max 0 (at_us - now)) 1000000 in Ok (Some (py_max delta 0))
             end
  end.

Definition _backoff_seconds (attempt : Z) (jitter : float) : res float :=
  let? base := float_of_int (Z.min (2 ^ (attempt - 1)) 30) in Ok (PrimFloat.add base jitter).

Definition _is_redirect_status (status : Z) : bool := bool_decide (status ∈ [301; 302; 303; 307; 308]).
Definition _RETRYABLE_STATUSES : list Z := [429; 500; 502; 503; 504].

(** [stable_hash({"url": url, "body": body})]: the keys sorted. *)
Definition page_digest (sha256_hexdigest : string -> string) (url body : string) : string :=
  sha256_hexdigest ("{" +:+ canonical_json "body" +:+ ":" +:+ canonical_json body +:+ "," +:+
                    canonical_json "url" +:+ ":" +:+ canonical_json url +:+ "}").

(** [header.split(";", 1)[0] if header else "application/octet-stream"] *)
Definition media_type (header : string) : string :=
  if truthy_str header then (partition ";" header).1.1 else "application/octet-stream".

Definition decode_body (body : list Byte.byte) : string := utf8_decode_replace [] "" (String.string_of_list_byte body).

(** ** httpx and the other ports *)

Record ResponseOps (Response : Type) := {
  rs_status : Response -> Z;
  (** [response.headers.get(name)], [get_list("set-cookie")], [dict(headers)] *)
  rs_header : Response -> string -> option string;
  rs_set_cookies : Response -> list string;
  rs_headers : Response -> dict string string;
  rs_content : Response -> list Byte.byte;
  rs_url : Response -> string;
  (** [httpx.Response(status_code, headers, content, request)] *)
  rs_from_cache : CachedConditional -> string -> Response;
  (** [isinstance(exc, httpx.HTTPError)], and one of the four timeouts *)
  hx_is_http_error : exn -> bool;
  hx_is_timeout : exn -> bool }.
Arguments rs_status {Response} _ _.
Arguments rs_header {Response} _ _ _.
Arguments rs_set_cookies {Response} _ _.
Arguments rs_headers {Response} _ _.
Arguments rs_content {Response} _ _.
Arguments rs_url {Response} _ _.
Arguments rs_from_cache {Response} _ _ _.
Arguments hx_is_http_error {Response} _ _.
Arguments hx_is_timeout {Response} _ _.

Record HttpPorts (Response Permit E : Type) := {
  hp_robots : string -> string -> M E RobotsAdvice;
  hp_acquire : string -> RateLimitFloor -> M E Permit;
  hp_release : Permit -> M E unit;
  hp_report_success : Permit -> M E unit;
  hp_report_throttled : Permit -> option float -> M E unit;
  hp_cookies_for : string -> string -> M E (dict string string);
  hp_accept_set_cookie : string -> string -> string -> M E unit;
  hp_cache_get : string -> string -> M E (option CachedConditional);
  hp_cache_put : string -> string -> CachedConditional -> M E unit;
  hp_send : string -> string -> dict string string -> M E Response;
  hp_sleep : float -> M E unit;
  hp_jitter : M E float;
  hp_monotonic : M E float;
  (** [datetime.now(UTC)], in microseconds *)
  hp_now : M E Z }.
Arguments hp_robots {Response Permit E} _ _ _.
Arguments hp_acquire {Response Permit E} _ _ _.
Arguments hp_release {Response Permit E} _ _.
Arguments hp_report_success {Response Permit E} _ _.
Arguments hp_report_throttled {Response Permit E} _ _ _.
Arguments hp_cookies_for {Response Permit E} _ _ _.
Arguments hp_accept_set_cookie {Response Permit E} _ _ _ _.
Arguments hp_cache_get {Response Permit E} _ _ _.
Arguments hp_cache_put {Response Permit E} _ _ _ _.
Arguments hp_send {Response Permit E} _ _ _ _.
Arguments hp_sleep {Response Permit E} _ _.
Arguments hp_jitter {Response Permit E} _.
Arguments hp_monotonic {Response Permit E} _.
Arguments hp_now {Response Permit E} _.

Record HttpClientConfig := {
  hc_max_attempts : Z;
  hc_max_redirects : Z;
  hc_user_agent : string;
  hc_egress_allowlist : list string;
  hc_allow_private_network : bool;
  hc_retry_after_cap_s : float;
  hc_run_ref : option string;
  hc_extra_headers : dict string string }.

(** ** StdlibHttpSourceAdapter *)

(** The attributes that change. *)
Record HttpState := {
  ad_last_result : option NetworkClientResult;
  ad_redirect_hops : list RedirectHop;
  ad_attempt_evidences : list NetworkAttemptEvidence;
  ad_cached_artifact_ref : option Ref;
  ad_extra_headers : dict string string;
  ad_suppress_jar_cookies : bool;
  ad_attempt_counter : Z;
  ad_last_retry_after : option float }.

(** [__init__]: the gates, then the attributes. *)
Definition new_http_adapter (production robots_noop limiter_noop : bool) : res HttpState :=
  do? guard (negb (production && robots_noop)) (ProductionRuntimeNotImplemented "robots" "StdlibHttpSourceAdapter") in
  do? guard (negb (production && limiter_noop)) (ProductionRuntimeNotImplemented "rate_limiter" "StdlibHttpSourceAdapter") in
  Ok {| ad_last_result := None; ad_redirect_hops := []; ad_attempt_evidences := []; ad_cached_artifact_ref := None;
        ad_extra_headers := []; ad_suppress_jar_cookies := false; ad_attempt_counter := 0; ad_last_retry_after := None |}.

Definition with_result (r : option NetworkClientResult) (a : HttpState) : HttpState :=
  {| ad_last_result := r; ad_redirect_hops := ad_redirect_hops a; ad_attempt_evidences := ad_attempt_evidences a;
     ad_cached_artifact_ref := ad_cached_artifact_ref a; ad_extra_headers := ad_extra_headers a;
     ad_suppress_jar_cookies := ad_suppress_jar_cookies a; ad_attempt_counter := ad_attempt_counter a;
     ad_last_retry_after := ad_last_retry_after a |}.
Definition with_hop (h : RedirectHop) (a : HttpState) : HttpState :=
  {| ad_last_result := ad_last_result a; ad_redirect_hops := ad_redirect_hops a ++ [h]; ad_attempt_evidences := ad_attempt_evidences a;
     ad_cached_artifact_ref := ad_cached_artifact_ref a; ad_extra_headers := ad_extra_headers a;
     ad_suppress_jar_cookies := ad_suppress_jar_cookies a; ad_attempt_counter := ad_attempt_counter a;
     ad_last_retry_after := ad_last_retry_after a |}.
Definition with_counter (n : Z) (a : HttpState) : HttpState :=
  {| ad_last_result := ad_last_result a; ad_redirect_hops := ad_redirect_hops a; ad_attempt_evidences := ad_attempt_evidences a;
     ad_cached_artifact_ref := ad_cached_artifact_ref a; ad_extra_headers := ad_extra_headers a;
     ad_suppress_jar_cookies := ad_suppress_jar_cookies a; ad_attempt_counter := n; ad_last_retry_after := ad_last_retry_after a |}.
Definition with_evidence (ev : NetworkAttemptEvidence) (a : HttpState) : HttpState :=
  {| ad_last_result := ad_last_result a; ad_redirect_hops := ad_redirect_hops a; ad_attempt_evidences := ad_attempt_evidences a ++ [ev];
     ad_cached_artifact_ref := ad_cached_artifact_ref a; ad_extra_headers := ad_extra_headers a;
     ad_suppress_jar_cookies := ad_suppress_jar_cookies a; ad_attempt_counter := ad_attempt_counter a;
     ad_last_retry_after := ad_last_retry_after a |}.
Definition with_artifact (r : Ref) (a : HttpState) : HttpState :=
  {| ad_last_result := ad_last_result a; ad_redirect_hops := ad_redirect_hops a; ad_attempt_evidences := ad_attempt_evidences a;
     ad_cached_artifact_ref := Some r; ad_extra_headers := ad_extra_headers a; ad_suppress_jar_cookies := ad_suppress_jar_cookies a;
     ad_attempt_counter := ad_attempt_counter a; ad_last_retry_after := ad_last_retry_after a |}.
Definition with_suppress (b : bool) (a : HttpState) : HttpState :=
  {| ad_last_result := ad_last_result a; ad_redirect_hops := ad_redirect_hops a; ad_attempt_evidences := ad_attempt_evidences a;
     ad_cached_artifact_ref := ad_cached_artifact_ref a; ad_extra_headers := ad_extra_headers a; ad_suppress_jar_cookies := b;
     ad_attempt_counter := ad_attempt_counter a; ad_last_retry_after := ad_last_retry_after a |}.
Definition with_retry_after (r : option float) (a : HttpState) : HttpState :=
  {| ad_last_result := ad_last_result a; ad_redirect_hops := ad_redirect_hops a; ad_attempt_evidences := ad_attempt_evidences a;
     ad_cached_artifact_ref := ad_cached_artifact_ref a; ad_extra_headers := ad_extra_headers a;
     ad_suppress_jar_cookies := ad_suppress_jar_cookies a; ad_attempt_counter := ad_attempt_counter a; ad_last_retry_after := r |}.
(** What a redirect to another origin does to the credentials. *)
Definition credentials_reset (a : HttpState) : HttpState :=
  {| ad_last_result := ad_last_result a; ad_redirect_hops := ad_redirect_hops a; ad_attempt_evidences := ad_attempt_evidences a;
     ad_cached_artifact_ref := ad_cached_artifact_ref a; ad_extra_headers := _strip_cross_origin_headers (ad_extra_headers a);
     ad_suppress_jar_cookies := true; ad_attempt_counter := ad_attempt_counter a; ad_last_retry_after := ad_last_retry_after a |}.

Section Methods.
Context (env : NetEnv) (ipv6_internal : string -> option bool) (sha256_hexdigest : string -> string) (parsedate : string -> option Z).
Context {Response Permit E : Type} (ops : ResponseOps Response) (P : HttpPorts Response Permit E).
Context (cfg : HttpClientConfig) (q : NetworkRequest).
#[local] Abbreviation Mh := (M (HttpState * E)).

(** [self._run_ref] *)
Definition run_scope : string := default (nq_run_ref q) (hc_run_ref cfg).

Definition _check_robots (url : string) : M E RobotsAdvice :=
  let* advice := hp_robots P url (hc_user_agent cfg) in
  if ra_is_allowed advice then ret advice
  else raise (NetworkAdapterError ROBOTS_BLOCKED (url +:+ ": " +:+ match ra_disallow_reason advice with
    | Some reason => if truthy_str reason then reason else "robots.txt disallowed" | None => "robots.txt disallowed" end)).

Definition _validate_redirect_target (from_url to_url : string) : res unit :=
  let? from_parsed := urlsplit env from_url in
  let? to_parsed := urlsplit env to_url in
  do? guard (bool_decide (sr_scheme to_parsed ∈ ["http"; "https"])) (NetworkAdapterError REDIRECT_DENIED "unsupported redirect scheme") in
  do? guard (negb (bool_decide (sr_scheme from_parsed = "https") && bool_decide (sr_scheme to_parsed = "http")))
        (NetworkAdapterError REDIRECT_DENIED "protocol_downgrade_https_to_http") in
  do? (if truthy_list (hc_egress_allowlist cfg) then
         let? target_origin := _origin env to_url in
         guard (bool_decide (target_origin ∈ hc_egress_allowlist cfg)) (NetworkAdapterError EGRESS_DENIED "redirect off allowlist")
       else Ok tt) in
  if hc_allow_private_network cfg then Ok tt
  else let? private := _is_private_network_url env ipv6_internal to_url in
       guard (negb private) (NetworkAdapterError Prelude.PRIVATE_NETWORK_DENIED "redirect to private host").

(** The headers of the jar and of the cache. *)
Definition cookie_header (cookies : dict string string) : string := join "; " (map (fun '(n, v) => n +:+ "=" +:+ v) cookies).

Definition conditional_headers (cached : option CachedConditional) (headers : dict string string) : dict string string :=
  match cached with
  | None => headers
  | Some cached =>
      let headers := if cc_etag cached is Some etag then (if truthy_str etag then dict_set headers "If-None-Match" etag else headers) else headers in
      if cc_last_modified cached is Some at_ then
        (if truthy_str at_ && negb (bool_decide ("If-None-Match" ∈ dict_keys headers)) then dict_set headers "If-Modified-Since" at_ else headers)
      else headers
  end.

Definition base_headers (extra : dict string string) : dict string string :=
  foldl (fun headers '(name, value) => dict_set headers name value) [("User-Agent", hc_user_agent cfg)] extra.

Definition _build_request_headers (url : string) : Mh (dict string string) :=
  let* a := gets fst in
  let headers := base_headers (ad_extra_headers a) in
  let* headers :=
    (if ad_suppress_jar_cookies a then do* on_object (with_suppress false) in ret headers
     else
       let* cookies := on_world (hp_cookies_for P run_scope url) in
       ret (if truthy_list cookies then dict_set headers "Cookie" (cookie_header cookies) else headers)) in
  let* cached := on_world (hp_cache_get P run_scope url) in
  ret (conditional_headers cached headers).

Definition new_evidence (counter : Z) (hops : nat) (url : string) (request_headers : dict string string) (response : option Response)
    (failure_class : option string) (elapsed_ms : Z) : NetworkAttemptEvidence :=
  {| ne_id := "attempt-evidence:" +:+ nq_id q +:+ ":" +:+ pretty counter; ne_run_ref := run_scope; ne_request_ref := nq_id q;
     ne_attempt_number := counter; ne_request_method := nq_method q; ne_request_url := url;
     ne_request_headers_redacted := _redact_headers_for_evidence request_headers;
     ne_response_status := (rs_status ops) <$> response;
     ne_response_headers_redacted := (fun r => _redact_headers_for_evidence (rs_headers ops r)) <$> response;
     ne_elapsed_ms := elapsed_ms; ne_failure_class := failure_class; ne_redirect_hop_count := Z.of_nat hops |}.

Definition _record_attempt_evidence (url : string) (request_headers : dict string string) (response : option Response)
    (failure_class : option string) (started : float) : Mh unit :=
  let* now := on_world (hp_monotonic P) in
  let* elapsed := lift (int_of_float (PrimFloat.mul (PrimFloat.sub now started) 1000)) in
  do* on_object (fun a => with_counter (ad_attempt_counter a + 1) a) in
  let* a := gets fst in
  let* evidence := lift (validate_attempt_evidence env
    (new_evidence (ad_attempt_counter a) (length (ad_redirect_hops a)) url request_headers response failure_class (Z.max 0 elapsed))) in
  on_object (with_evidence evidence).

Fixpoint accept_all (url : string) (set_cookies : list string) : M E unit :=
  match set_cookies with
  | [] => ret tt
  | raw :: rest => do* hp_accept_set_cookie P run_scope url raw in accept_all url rest
  end.
Definition _absorb_set_cookies (url : string) (response : Response) : M E unit := accept_all url (rs_set_cookies ops response).

Definition artifact_ref_of (digest : string) : Ref := "artifact:" +:+ nq_id q +:+ ":raw-html:" +:+ String.substring 0 12 digest.

Definition _maybe_cache_conditional (url : string) (response : Response) : M E unit :=
  let etag := rs_header ops response "etag" in
  let last_modified := rs_header ops response "last-modified" in
  if negb (truthy_opt etag) && negb (truthy_opt last_modified) then ret tt
  else
    let entry := {| cc_etag := etag; cc_last_modified := last_modified; cc_body_bytes := rs_content ops response;
                    cc_body_artifact_ref := artifact_ref_of (page_digest sha256_hexdigest url (decode_body (rs_content ops response)));
                    cc_content_type := media_type (default "" (rs_header ops response "content-type"));
                    cc_status_code := rs_status ops response |} in
    do* lift (validate_cached entry) in
    hp_cache_put P run_scope url entry.

Definition _classify_transport (e : exn) : NetworkFailureType := if hx_is_timeout ops e then NETWORK_TIMEOUT else ADAPTER_FAILURE.
Definition failure_value (f : NetworkFailureType) : string := if bool_decide (f = NETWORK_TIMEOUT) then "network_timeout" else "adapter_failure".

(** What follows a response that is not retried. *)
Definition accept_response (url : string) (response : Response) : Mh Response :=
  if rs_status ops response =? 304 then
    let* cached := on_world (hp_cache_get P run_scope url) in
    match cached with
    | Some cached =>
        do* on_object (with_artifact (cc_body_artifact_ref cached)) in
        ret (rs_from_cache ops cached url)
    | None => raise (NetworkAdapterError ADAPTER_FAILURE "server returned 304 but no cached body")
    end
  else
    do* (if (200 <=? rs_status ops response) && (rs_status ops response <? 300) then on_world (_maybe_cache_conditional url response)
         else ret tt) in
    ret response.

(** The loop of [_send_with_retry] over the attempts left. *)
Fixpoint send_attempts (url : string) (left_ : nat) (attempt_ : Z) (last_status : option Z) : Mh Response :=
  match left_ with
  | O => raise (match last_status with
                | Some _ => NetworkAdapterError RETRY_EXHAUSTED "max_attempts"
                | None => classify_network_failure NETWORK_TIMEOUT "max_attempts"
                end)
  | S left_ =>
      let* headers := _build_request_headers url in
      let* started := on_world (hp_monotonic P) in
      let* sent := attempt (on_world (hp_send P (nq_method q) url headers)) in
      match sent with
      | Raise e =>
          if negb (hx_is_http_error ops e) then raise e
          else
            let failure := _classify_transport e in
            do* _record_attempt_evidence url headers None (Some (failure_value failure)) started in
            if negb (bool_decide (failure = NETWORK_TIMEOUT)) || (hc_max_attempts cfg <=? attempt_)
            then raise (classify_network_failure failure "transport")
            else
              let* jitter := on_world (hp_jitter P) in
              let* wait := lift (_backoff_seconds attempt_ jitter) in
              do* on_world (hp_sleep P wait) in
              send_attempts url left_ (attempt_ + 1) last_status
      | Ok response =>
          do* _record_attempt_evidence url headers (Some response) None started in
          do* on_world (_absorb_set_cookies url response) in
          if bool_decide (rs_status ops response ∈ _RETRYABLE_STATUSES) then
            let* now := on_world (hp_now P) in
            let* hint := lift (_parse_retry_after parsedate now (rs_header ops response "retry-after")) in
            do* (if hint is Some _ then on_object (with_retry_after hint) else ret tt) in
            if hc_max_attempts cfg <=? attempt_ then raise (NetworkAdapterError RETRY_EXHAUSTED "max_attempts")
            else
              let* wait := match hint with
                           | Some w => ret w
                           | None => let* jitter := on_world (hp_jitter P) in lift (_backoff_seconds attempt_ jitter)
                           end in
              do* on_world (hp_sleep P (py_min wait (hc_retry_after_cap_s cfg))) in
              send_attempts url left_ (attempt_ + 1) (Some (rs_status ops response))
          else accept_response url response
      end
  end.

Definition _send_with_retry (url : string) : Mh Response := send_attempts url (Z.to_nat (hc_max_attempts cfg)) 1 None.

(** [with limiter.acquire(...) as permit: body], and [except RateLimitProhibited]
    around it. *)
Definition with_permit {A} (origin : string) (floor : RateLimitFloor) (body : Permit -> Mh A) : Mh A :=
  let* r := attempt (
    let* permit := on_world (hp_acquire P origin floor) in
    let* r := attempt (body permit) in
    do* on_world (hp_release P permit) in
    lift r) in
  match r with
  | Raise (RateLimitProhibited _) => raise (NetworkAdapterError ROBOTS_BLOCKED "rate-limiter refused (full prohibition)")
  | _ => lift r
  end.

Definition advice_floor (advice : RobotsAdvice) : RateLimitFloor :=
  {| fl_crawl_delay_seconds := ra_crawl_delay advice; fl_request_rate := ra_request_rate advice; fl_retry_after_seconds := None |}.

Definition _send_with_rate_limit (url : string) (advice : RobotsAdvice) : Mh Response :=
  do* on_object (with_retry_after None) in
  let* origin := lift (_origin env url) in
  with_permit origin (advice_floor advice) (fun permit =>
    let* sent := attempt (_send_with_retry url) in
    match sent with
    | Raise (NetworkAdapterError RETRY_EXHAUSTED _ as e) =>
        let* hint := gets (fun p => ad_last_retry_after p.1) in
        do* on_world (hp_report_throttled P permit hint) in
        raise e
    | Raise e => raise e
    | Ok response =>
        do* on_world (hp_report_success P permit) in
        ret response
    end).

(** The loop of [_fetch_with_redirects] over the hops left. *)
Fixpoint fetch_loop (refs : list Ref) (left_ : nat) (hop : Z) (current_url : string) (advice : RobotsAdvice) : Mh Response :=
  match left_ with
  | O => raise (NetworkAdapterError REDIRECT_DENIED "redirect loop > max_redirects")
  | S left_ =>
      let* response := _send_with_rate_limit current_url advice in
      if negb (_is_redirect_status (rs_status ops response)) then ret response
      else
        let location := default "" (rs_header ops response "location") in
        if negb (truthy_str location) then raise (NetworkAdapterError REDIRECT_DENIED "redirect missing Location header")
        else
          let* next_url := lift (urljoin env current_url location) in
          do* lift (_validate_redirect_target current_url next_url) in
          let* cross := lift (_is_cross_origin env current_url next_url) in
          do* (if cross : bool then on_object credentials_reset else ret tt) in
          let* advice := on_world (_check_robots next_url) in
          let* redirect_hop := lift (validate_hop env
            {| rh_id := "redirect-hop:" +:+ nq_id q +:+ ":" +:+ pretty (hop + 1); rh_request_ref := nq_id q; rh_sequence := hop + 1;
               rh_from_url := current_url; rh_to_url := next_url; rh_status_code := rs_status ops response;
               rh_policy_decision_refs := refs |}) in
          do* on_object (with_hop redirect_hop) in
          fetch_loop refs left_ (hop + 1) next_url advice
  end.

Definition _fetch_with_redirects (refs : list Ref) (url : string) : Mh Response :=
  let* advice := on_world (_check_robots url) in
  fetch_loop refs (Z.to_nat (hc_max_redirects cfg + 1)) 0 url advice.

Definition partial_response (a : HttpState) : NetworkResponse :=
  {| nr_id := "network-response:" +:+ nq_id q +:+ ":partial"; nr_request_ref := nq_id q; nr_status_code := 502; nr_final_url := nq_url q;
     nr_headers_ref := "headers:" +:+ nq_id q +:+ ":response"; nr_raw_artifact_ref := Some ("artifact:" +:+ nq_id q +:+ ":partial");
     nr_content_digest := Some ""; nr_content_type := Some "application/octet-stream"; nr_body_size_bytes := 0;
     nr_redirect_hop_refs := map rh_id (ad_redirect_hops a); nr_timing_ref := "timing:" +:+ nq_id q +:+ ":partial" |}.

Definition _build_partial_failure_result (a : HttpState) : res NetworkClientResult :=
  let? response := validate_response env (partial_response a) in
  Ok {| nc_response := response; nc_redirect_hops := ad_redirect_hops a; nc_body_text := ""; nc_artifact_refs := [];
        nc_attempt_evidences := ad_attempt_evidences a |}.

(** The attributes [execute] resets. *)
Definition fresh_fetch (a : HttpState) : HttpState :=
  {| ad_last_result := None; ad_redirect_hops := []; ad_attempt_evidences := []; ad_cached_artifact_ref := None;
     ad_extra_headers := hc_extra_headers cfg; ad_suppress_jar_cookies := false; ad_attempt_counter := 0;
     ad_last_retry_after := ad_last_retry_after a |}.

(** [command.policy_snapshot_ref.split(",")] if it holds a comma. *)
Definition policy_refs (policy_snapshot_ref : string) : list Ref :=
  if str_in_char "," policy_snapshot_ref then split_on "," policy_snapshot_ref else nq_policy_decision_refs q.

Definition response_contract (a : HttpState) (response : Response) : NetworkResponse :=
  let digest := page_digest sha256_hexdigest (rs_url ops response) (decode_body (rs_content ops response)) in
  {| nr_id := "network-response:" +:+ nq_id q; nr_request_ref := nq_id q; nr_status_code := rs_status ops response;
     nr_final_url := rs_url ops response; nr_headers_ref := "headers:" +:+ nq_id q +:+ ":response";
     nr_raw_artifact_ref := Some (default (artifact_ref_of digest) (ad_cached_artifact_ref a)); nr_content_digest := Some digest;
     nr_content_type := Some (media_type (default "" (rs_header ops response "content-type")));
     nr_body_size_bytes := Z.of_nat (length (rs_content ops response)); nr_redirect_hop_refs := map rh_id (ad_redirect_hops a);
     nr_timing_ref := "timing:" +:+ nq_id q +:+ ":response" |}.

(** [execute], up to the [SourceAdapterResult], whose output is the artifact
    reference. *)
Definition execute (policy_snapshot_ref : string) : Mh Ref :=
  let refs := policy_refs policy_snapshot_ref in
  do* on_object fresh_fetch in
  let* fetched := attempt (_fetch_with_redirects refs (nq_url q)) in
  match fetched with
  | Raise (NetworkAdapterError _ _ as e) =>
      let* a := gets fst in
      let* partial := lift (_build_partial_failure_result a) in
      do* on_object (with_result (Some partial)) in
      raise e
  | Raise e => raise e
  | Ok response =>
      let* a := gets fst in
      let* contract := lift (validate_response env (response_contract a response)) in
      let artifact_ref := default "" (nr_raw_artifact_ref contract) in
      do* on_object (with_result (Some
        {| nc_response := contract; nc_redirect_hops := ad_redirect_hops a; nc_body_text := decode_body (rs_content ops response);
           nc_artifact_refs := [artifact_ref]; nc_attempt_evidences := ad_attempt_evidences a |})) in
      ret artifact_ref
  end.
End Methods.
