(* ===== verification/HttpCrawl.v ===== *)
(** * The protocol of the HTTP source adapter

    What [HttpAdapter.execute] does to its ports, as a trace of the calls that
    robots, the rate limiter and the wire receive: an inductive specification
    of the traces a fetch may leave, and the proof that every run of [execute]
    leaves one of them, with one evidence per request. *)
From Stdlib Require Import Strings.Byte Floats.
From S2P Require Import Prelude PyDict PyStr PyFloat Contracts UrlLib UrlJoin Url Origin CondCache RateLimiter Robots CredScope HttpAdapter Trace.
Local Open Scope Z_scope.

(** ** Traces *)

Inductive event (Response : Type) :=
  | EvRobots (url user_agent : string) (advice : res RobotsAdvice)
  | EvAcquire (origin : string) (floor : RateLimitFloor) (granted : bool)
  | EvSend (method url : string) (headers : dict string string) (answer : res Response)
  | EvSuccess
  | EvThrottled (hint : option float)
  | EvRelease.
Arguments EvRobots {Response} _ _ _.
Arguments EvAcquire {Response} _ _ _.
Arguments EvSend {Response} _ _ _ _.
Arguments EvSuccess {Response}.
Arguments EvThrottled {Response} _.
Arguments EvRelease {Response}.

(** A request on the wire. *)
Record Request (Response : Type) := Sent {
  rq_method : string;
  rq_url : string;
  rq_headers : dict string string;
  rq_answer : res Response }.
Arguments Sent {Response} _ _ _ _.
Arguments rq_method {Response} _.
Arguments rq_url {Response} _.
Arguments rq_headers {Response} _.
Arguments rq_answer {Response} _.

Definition sent {Response} (t : list (event Response)) : list (Request Response) :=
  omap (fun ev => if ev is EvSend m u h r then Some (Sent m u h r) else None) t.

Lemma sent_app {R} (t t' : list (event R)) : sent (t ++ t') = sent t ++ sent t'.
Proof. apply omap_app. Qed.

(** The exceptions that no port raises. *)
Definition foreign {A} (r : res A) : Prop := forall f d, r <> Raise (NetworkAdapterError f d).

(** What the ports promise: [trace e] are the calls of interest a world has
    seen; [NetworkAdapterError] is the adapter's own exception and
    [RateLimitProhibited] the limiter's, so the transport, which may raise
    anything else, in or out of [httpx.HTTPError], raises neither; a clock and
    the release of a permit do not raise. *)
Class HttpLaws {Response Permit E : Type} (ops : ResponseOps Response) (P : HttpPorts Response Permit E) := {
  trace : E -> list (event Response);
  robots_traced : forall u ua e, trace (hp_robots P u ua e).2 = trace e ++ [EvRobots u ua (hp_robots P u ua e).1];
  acquire_traced : forall o f e, trace (hp_acquire P o f e).2 = trace e ++ [EvAcquire o f (is_ok (hp_acquire P o f e).1)];
  send_traced : forall m u h e, trace (hp_send P m u h e).2 = trace e ++ [EvSend m u h (hp_send P m u h e).1];
  success_traced : forall p e, trace (hp_report_success P p e).2 = trace e ++ [EvSuccess];
  throttled_traced : forall p h e, trace (hp_report_throttled P p h e).2 = trace e ++ [EvThrottled h];
  release_traced : forall p e, trace (hp_release P p e).2 = trace e ++ [EvRelease];
  cookies_silent : forall s u e, trace (hp_cookies_for P s u e).2 = trace e;
  accept_silent : forall s u c e, trace (hp_accept_set_cookie P s u c e).2 = trace e;
  get_silent : forall s u e, trace (hp_cache_get P s u e).2 = trace e;
  put_silent : forall s u c e, trace (hp_cache_put P s u c e).2 = trace e;
  sleep_silent : forall w e, trace (hp_sleep P w e).2 = trace e;
  jitter_silent : forall e, trace (hp_jitter P e).2 = trace e;
  monotonic_silent : forall e, trace (hp_monotonic P e).2 = trace e;
  now_silent : forall e, trace (hp_now P e).2 = trace e;
  send_foreign : forall m u h e, foreign (hp_send P m u h e).1;
  send_unlimited : forall m u h e d, (hp_send P m u h e).1 <> Raise (RateLimitProhibited d);
  http_error_foreign : forall f d, hx_is_http_error ops (NetworkAdapterError f d) = false;
  cookies_foreign : forall s u e, foreign (hp_cookies_for P s u e).1;
  accept_foreign : forall s u c e, foreign (hp_accept_set_cookie P s u c e).1;
  get_foreign : forall s u e, foreign (hp_cache_get P s u e).1;
  put_foreign : forall s u c e, foreign (hp_cache_put P s u c e).1;
  sleep_foreign : forall w e, foreign (hp_sleep P w e).1;
  jitter_foreign : forall e, foreign (hp_jitter P e).1;
  now_foreign : forall e, foreign (hp_now P e).1;
  monotonic_total : forall e, is_ok (hp_monotonic P e).1 = true;
  release_total : forall p e, is_ok (hp_release P p e).1 = true }.

(** ** The specification *)

Section Spec.
Context (env : NetEnv) (ipv6_internal : string -> option bool) {Response : Type} (ops : ResponseOps Response).
Context (cfg : HttpClientConfig) (q : NetworkRequest).
(** The cookies the jar can answer for a URL. *)
Context (served : string -> dict string string -> Prop).
#[local] Abbreviation Trace := (list (event Response)).

(** The headers of an attempt: the base headers, the jar's cookies for the URL
    unless they are [suppressed], the hints of the conditional cache. *)
Definition attempt_headers (url : string) (extra : dict string string) (suppressed : bool) (headers : dict string string) : Prop :=
  exists cookies cached, (suppressed = false -> served url cookies) /\ headers = conditional_headers cached
    (if negb suppressed && truthy_list cookies then dict_set (base_headers cfg extra) "Cookie" (cookie_header cookies)
     else base_headers cfg extra).

(** How the attempts of one visit end. *)
Inductive ending := Accepted | Exhausted | Failed.

Definition retryable (answer : res Response) : Prop :=
  match answer with
  | Ok response => rs_status ops response ∈ _RETRYABLE_STATUSES
  | Raise e => hx_is_http_error ops e = true /\ hx_is_timeout ops e = true
  end.

(** The requests of one visit, [left_] attempts allowed. *)
Inductive attempts (url : string) (extra : dict string string) : nat -> bool -> Trace -> ending -> Prop :=
  | attempts_none left_ suppressed : attempts url extra left_ suppressed [] Failed
  | attempts_failed left_ suppressed headers answer :
      attempt_headers url extra suppressed headers ->
      attempts url extra (S left_) suppressed [EvSend (nq_method q) url headers answer] Failed
  | attempts_accepted left_ suppressed headers response :
      attempt_headers url extra suppressed headers -> rs_status ops response ∉ _RETRYABLE_STATUSES ->
      attempts url extra (S left_) suppressed [EvSend (nq_method q) url headers (Ok response)] Accepted
  | attempts_exhausted suppressed headers response :
      attempt_headers url extra suppressed headers -> rs_status ops response ∈ _RETRYABLE_STATUSES ->
      attempts url extra 1 suppressed [EvSend (nq_method q) url headers (Ok response)] Exhausted
  | attempts_again left_ suppressed headers answer t v :
      attempt_headers url extra suppressed headers -> retryable answer -> attempts url extra left_ false t v ->
      attempts url extra (S left_) suppressed (EvSend (nq_method q) url headers answer :: t) v.

(** What the limiter is told. *)
Definition reported (v : ending) (t : Trace) : Prop :=
  match v with
  | Accepted => t = [EvSuccess]
  | Exhausted => exists hint, t = [EvThrottled hint]
  | Failed => t = []
  end.

(** A visit of [url]: its attempts under one permit, which is released. *)
Inductive visit (url : string) (advice : RobotsAdvice) (extra : dict string string) (suppressed : bool) : Trace -> ending -> Prop :=
  | visit_unsplit : visit url advice extra suppressed [] Failed
  | visit_refused origin : _origin env url = Ok origin ->
      visit url advice extra suppressed [EvAcquire origin (advice_floor advice) false] Failed
  | visit_made origin t v r : _origin env url = Ok origin ->
      attempts url extra (Z.to_nat (hc_max_attempts cfg)) suppressed t v -> reported v r ->
      visit url advice extra suppressed (EvAcquire origin (advice_floor advice) true :: t ++ r ++ [EvRelease]) v.

(** What a redirect leaves of the credentials. *)
Definition carried (cross : bool) (extra : dict string string) : dict string string :=
  if cross then _strip_cross_origin_headers extra else extra.

(** The fetch from [url] on, with [n] visits left: robots first, then a visit if
    robots allow it, then the target of a redirect if the policy lets it. *)
Inductive crawl : nat -> string -> dict string string -> bool -> Trace -> Prop :=
  | crawl_blocked n url extra suppressed answer :
      (forall advice, answer = Ok advice -> ra_is_allowed advice = false) ->
      crawl n url extra suppressed [EvRobots url (hc_user_agent cfg) answer]
  | crawl_stopped n url extra suppressed advice : ra_is_allowed advice = true ->
      crawl n url extra suppressed [EvRobots url (hc_user_agent cfg) (Ok advice)]
  | crawl_last n url extra suppressed advice t v : ra_is_allowed advice = true ->
      visit url advice extra suppressed t v ->
      crawl (S n) url extra suppressed (EvRobots url (hc_user_agent cfg) (Ok advice) :: t)
  | crawl_redirected n url extra suppressed advice t location next cross t' : ra_is_allowed advice = true ->
      visit url advice extra suppressed t Accepted ->
      truthy_str location = true -> urljoin env url location = Ok next ->
      _validate_redirect_target env ipv6_internal cfg url next = Ok tt -> _is_cross_origin env url next = Ok cross ->
      crawl n next (carried cross extra) cross t' ->
      crawl (S n) url extra suppressed (EvRobots url (hc_user_agent cfg) (Ok advice) :: t ++ t').

(** The visits a fetch may make. *)
Definition visits_allowed : nat := Z.to_nat (hc_max_redirects cfg + 1).

(** One evidence: the [n]-th request, with its sensitive headers redacted. *)
Definition evidences (n : Z) (request : Request Response) (ev : NetworkAttemptEvidence) : Prop :=
  ne_attempt_number ev = n /\ ne_request_method ev = rq_method request /\ ne_request_url ev = rq_url request /\
  ne_request_headers_redacted ev = _redact_headers_for_evidence (rq_headers request) /\
  match rq_answer request with
  | Ok response => ne_response_status ev = Some (rs_status ops response) /\
      ne_response_headers_redacted ev = Some (_redact_headers_for_evidence (rs_headers ops response))
  | Raise e => ne_response_status ev = None /\ ne_failure_class ev = Some (failure_value (_classify_transport ops e))
  end.

Inductive evidenced : Z -> list (Request Response) -> list NetworkAttemptEvidence -> Prop :=
  | evidenced_nil n : evidenced n [] []
  | evidenced_cons n request requests ev evs :
      evidences (n + 1) request ev -> evidenced (n + 1) requests evs -> evidenced n (request :: requests) (ev :: evs).
End Spec.

(** ** Runs and their evidences *)

Section Runs.
Context {Response Permit E : Type} {ops : ResponseOps Response} {P : HttpPorts Response Permit E} `{L : !HttpLaws ops P}.
(** What a part adds to the evidences: unless it ends in an exception that
    [execute] lets pass, one for every request. *)
Definition accounted {A} (r : res A) : Prop :=
  match r with Ok _ | Raise (NetworkAdapterError _ _) | Raise (RateLimitProhibited _) => True | Raise _ => False end.

Definition logs (a a' : HttpState) (t : list (event Response)) : Prop :=
  exists evs, ad_attempt_evidences a' = ad_attempt_evidences a ++ evs /\
    ad_attempt_counter a' = ad_attempt_counter a + Z.of_nat (length evs) /\ evidenced ops (ad_attempt_counter a) (sent t) evs.

Lemma evidenced_app n rs evs rs' evs' : evidenced ops n rs evs -> evidenced ops (n + Z.of_nat (length evs)) rs' evs' ->
  evidenced ops n (rs ++ rs') (evs ++ evs').
Proof.
  induction 1 as [n|n rq rs ev evs He H IH]; simpl; intros H'; [by rewrite Z.add_0_r in H'|].
  constructor; [done|]. apply IH. by replace (n + 1 + Z.of_nat (length evs)) with (n + Z.of_nat (S (length evs))) by lia.
Qed.

Lemma logs_refl a a' t : sent t = [] -> ad_attempt_evidences a' = ad_attempt_evidences a ->
  ad_attempt_counter a' = ad_attempt_counter a -> logs a a' t.
Proof. intros Ht He Hc. exists []. rewrite Ht, app_nil_r. split_and!; [done|simpl; lia|constructor]. Qed.

Lemma logs_trans a a1 a2 t t' : logs a a1 t -> logs a1 a2 t' -> logs a a2 (t ++ t').
Proof.
  intros (evs & He & Hc & Hev) (evs' & He' & Hc' & Hev'). exists (evs ++ evs').
  rewrite sent_app, He', He, app_assoc, length_app. split_and!; [done|lia|]. apply evidenced_app; [done|]. by rewrite <-Hc.
Qed.
End Runs.

(** The cookies that the jar answers for a URL, in any of its states. *)
Definition answered {Response Permit E} (P : HttpPorts Response Permit E) (cfg : HttpClientConfig) (q : NetworkRequest)
    (url : string) (cookies : dict string string) : Prop :=
  exists e, (hp_cookies_for P (run_scope cfg q) url e).1 = Ok cookies.

(** A result that is one of [execute]'s own exceptions, and the parts that have
    none. *)
Definition unlogged {A} (r : res A) : Prop := forall x, r = Raise x -> ~ accounted r.

Lemma unlogged_rbind {A B} (m : res A) (k : A -> res B) : unlogged m -> (forall x, unlogged (k x)) -> unlogged (rbind m k).
Proof. destruct m as [x|x]; simpl; intros Hm Hk; [apply Hk|]. intros y [= ->]. exact (Hm y eq_refl). Qed.
Lemma unlogged_ok {A} (x : A) : unlogged (Ok x). Proof. done. Qed.
Lemma unlogged_invalid b m : unlogged (guard b (ValidationError m)).
Proof. destruct b; [done|]. intros x [= <-] H. exact H. Qed.
Lemma unlogged_value_error {A} (r : res A) : raises_only_value_error r -> unlogged r.
Proof. destruct r; [done|]. intros [m ->] x _ H. exact H. Qed.
Lemma unlogged_http_url env url m : unlogged (http_url env url m).
Proof.
  unfold http_url. assert (raises_only_value_error (_is_http_url env url)) as H.
  { unfold _is_http_url. apply rbind_value_error; [apply urlsplit_value_error|done]. }
  destruct (_is_http_url env url) as [b|x]; [apply unlogged_invalid|]. destruct H as [d ->]. simpl. intros x _ H. exact H.
Qed.

Lemma for_each_unlogged {A} (f : A -> res unit) l : (forall x, unlogged (f x)) -> unlogged (for_each f l).
Proof. intros Hf. induction l as [|x l IH]; [apply unlogged_ok|]. by apply unlogged_rbind. Qed.

Lemma validate_evidence_unlogged env ev : unlogged (validate_attempt_evidence env ev).
Proof.
  unfold validate_attempt_evidence, _validate_redacted_headers.
  repeat (apply unlogged_rbind; [first [apply unlogged_http_url|apply unlogged_invalid|idtac]|intros _]).
  - apply for_each_unlogged. intros [name value]. apply unlogged_invalid.
  - destruct (ne_response_headers_redacted ev); [|done]. apply for_each_unlogged. intros [name value]. apply unlogged_invalid.
  - done.
Qed.

Lemma int_of_float_unlogged x : unlogged (int_of_float x).
Proof. unfold int_of_float. destruct (Prim2SF x); try done; intros y _ H; exact H. Qed.

Lemma validated_evidence env ev ev' : validate_attempt_evidence env ev = Ok ev' -> ev' = ev.
Proof. unfold validate_attempt_evidence. intros H. by run_m H. Qed.

(** ** The parts of [execute] *)

Section Protocol.
Context (env : NetEnv) (ipv6_internal : string -> option bool) (sha256_hexdigest : string -> string) (parsedate : string -> option Z).
Context {Response Permit E : Type} (ops : ResponseOps Response) (P : HttpPorts Response Permit E) `{L : !HttpLaws ops P}.
Context (cfg : HttpClientConfig) (q : NetworkRequest).
#[local] Abbreviation attempts := (attempts ops cfg q (answered P cfg q)).
#[local] Abbreviation emits := (emits (L := HttpState) (trace (P := P))).

(** The attributes the evidences depend on are left as they were. *)
Definition same_log (a a' : HttpState) : Prop :=
  ad_attempt_evidences a' = ad_attempt_evidences a /\ ad_attempt_counter a' = ad_attempt_counter a /\ ad_extra_headers a' = ad_extra_headers a.

Lemma foreign_raise {A B} (x : exn) : foreign (Raise (A := A) x) -> foreign (Raise (A := B) x).
Proof. intros H f d [= ->]. by eapply H. Qed.

Lemma unsuppressed a : ad_suppress_jar_cookies a = false -> with_suppress false a = a.
Proof. destruct a. simpl. by intros ->. Qed.

Lemma build_headers_emits url a :
  emits (_build_request_headers (Permit := Permit) P cfg q url) a (fun t r a' => t = [] /\ same_log a a' /\
    match r with
    | Ok headers => attempt_headers cfg (answered P cfg q) url (ad_extra_headers a) (ad_suppress_jar_cookies a) headers /\ a' = with_suppress false a
    | Raise _ => foreign r
    end).
Proof.
  unfold _build_request_headers. apply emits_bind, emits_gets. intros w. simpl. clear w. apply emits_bind.
  destruct (ad_suppress_jar_cookies a) eqn:Hs.
  - apply emits_bind, emits_object, emits_ret. apply emits_bind, emits_silent; [apply get_silent|]. intros e.
    pose proof (get_foreign (P := P) (run_scope cfg q) url e) as Hf.
    destruct (hp_cache_get P (run_scope cfg q) url e).1 as [cached|x]; [apply emits_ret|split_and!; [done..|by eapply foreign_raise]].
    split_and!; [done|done|exists [], cached; by split|done].
  - apply emits_bind, emits_silent; [apply cookies_silent|]. intros e.
    pose proof (cookies_foreign (P := P) (run_scope cfg q) url e) as Hf.
    destruct (hp_cookies_for P (run_scope cfg q) url e).1 as [cookies|x] eqn:Hck; [|split_and!; [done..|by eapply foreign_raise]].
    apply emits_ret. apply emits_bind, emits_silent; [apply get_silent|]. intros e'.
    pose proof (get_foreign (P := P) (run_scope cfg q) url e') as Hf'.
    destruct (hp_cache_get P (run_scope cfg q) url e').1 as [cached|x]; [apply emits_ret|split_and!; [done..|by eapply foreign_raise]].
    split_and!; [done|done|exists cookies, cached; split; [by exists e|done]|by rewrite unsuppressed].
Qed.

(** The evidence of the request that was just sent. *)
Lemma record_emits url headers answer failure started a :
  failure = match answer with Ok _ => None | Raise e => Some (failure_value (_classify_transport ops e)) end ->
  emits (_record_attempt_evidence env ops P cfg q url headers (if answer is Ok r then Some r else None) failure started) a
    (fun t r a' => t = [] /\ ad_extra_headers a' = ad_extra_headers a /\ ad_suppress_jar_cookies a' = ad_suppress_jar_cookies a /\
       match r with
       | Ok _ => logs (ops := ops) a a' [EvSend (nq_method q) url headers answer]
       | Raise _ => unlogged r
       end).
Proof.
  intros Hfail. unfold _record_attempt_evidence. apply emits_bind, emits_silent; [apply monotonic_silent|]. intros e.
  pose proof (monotonic_total (P := P) e) as Ht. destruct (hp_monotonic P e).1 as [now|x]; [|done].
  apply emits_bind, emits_lift. pose proof (int_of_float_unlogged (PrimFloat.mul (PrimFloat.sub now started) 1000)) as Hi.
  destruct (int_of_float _) as [elapsed|x]; [|split_and!; [done..|intros y [= <-]; by apply (Hi x)]].
  apply emits_bind, emits_object, emits_bind, emits_gets. intros w. simpl. clear w. apply emits_bind, emits_lift.
  set (ev := new_evidence _ _ _ _ _ _ _ _ _ _).
  pose proof (validate_evidence_unlogged env ev) as Hv.
  destruct (validate_attempt_evidence env ev) as [ev'|x] eqn:Hev; [|split_and!; [done..|intros y [= <-]; by apply (Hv x)]].
  apply validated_evidence in Hev as ->. apply emits_object. split_and!; [done..|].
  exists [ev]. split_and!; [done|done|]. constructor; [|constructor].
  unfold evidences, ev. simpl. split_and!; [done..|]. destruct answer; simpl; [done|]. by subst failure.
Qed.

(** A part of no interest to the trace, and what follows it. *)
Lemma emits_quiet {A B} (m : M E A) (k : A -> M (HttpState * E) B) a (Q : list (event Response) -> res B -> HttpState -> Prop) :
  (forall e, trace (m e).2 = trace e) -> (forall e, foreign (m e).1) ->
  (forall x, foreign (Raise (A := B) x) -> Q [] (Raise x) a) -> (forall x, emits (k x) a Q) ->
  emits (bind (on_world m) k) a Q.
Proof.
  intros Hm Hf Hr Hk. apply emits_bind, emits_silent; [done|]. intros e. specialize (Hf e).
  destruct (m e).1 as [x|x]; [apply Hk|]. eapply Hr, foreign_raise, Hf.
Qed.
Lemma emits_pure {A B} (r : res A) (k : A -> M (HttpState * E) B) a (Q : list (event Response) -> res B -> HttpState -> Prop) :
  foreign r -> (forall x, foreign (Raise (A := B) x) -> Q [] (Raise x) a) -> (forall x, r = Ok x -> emits (k x) a Q) ->
  emits (bind (lift r) k) a Q.
Proof.
  intros Hf Hr Hk. apply emits_bind, emits_lift. destruct r as [x|x]; [by apply Hk|]. eapply Hr, foreign_raise, Hf.
Qed.

Lemma unlogged_foreign {A} (r : res A) : unlogged r -> foreign r.
Proof. intros H f d Hr. apply (H _ Hr). by rewrite Hr. Qed.

Lemma accept_all_quiet url cookies e :
  trace (accept_all P cfg q url cookies e).2 = trace e /\ foreign (accept_all P cfg q url cookies e).1.
Proof.
  revert e. induction cookies as [|raw cookies IH]; intros e; simpl; [done|]. unfold bind.
  pose proof (accept_silent (P := P) (run_scope cfg q) url raw e) as Hs.
  pose proof (accept_foreign (P := P) (run_scope cfg q) url raw e) as Hf.
  destruct (hp_accept_set_cookie P (run_scope cfg q) url raw e) as [[[]|x] e']; simpl in *; [|done].
  destruct (IH e') as [H1 H2]. by rewrite H1.
Qed.

Lemma validate_cached_foreign c : foreign (validate_cached c).
Proof.
  apply unlogged_foreign, unlogged_value_error. unfold validate_cached.
  repeat (apply rbind_value_error; [apply guard_value_error|intros _ _]). apply guard_value_error.
Qed.

Lemma maybe_cache_quiet url response e : let m := _maybe_cache_conditional sha256_hexdigest ops P cfg q url response in
  trace (m e).2 = trace e /\ foreign (m e).1.
Proof.
  unfold _maybe_cache_conditional. case_match; [done|]. set (entry := Build_CachedConditional _ _ _ _ _ _).
  unfold bind, lift. pose proof (validate_cached_foreign entry) as Hf. destruct (validate_cached entry) as [c|x]; simpl.
  - split; [apply put_silent|apply put_foreign].
  - split; [done|by eapply foreign_raise].
Qed.

(** How the attempts ended, in the result. *)
Definition outcome {A} (v : ending) (r : res A) : Prop :=
  match v with
  | Accepted => is_ok r = true
  | Exhausted => exists d, r = Raise (NetworkAdapterError RETRY_EXHAUSTED d)
  | Failed => is_ok r = false /\ forall d, r <> Raise (NetworkAdapterError RETRY_EXHAUSTED d)
  end.

Lemma failed_foreign {A} (x : exn) : foreign (Raise (A := A) x) -> outcome (A := A) Failed (Raise x).
Proof. intros H. split; [done|]. intros d. apply H. Qed.

(** What [left_] attempts at [url] do. *)
Definition attempted (url : string) (left_ : nat) (a : HttpState) (t : list (event Response)) (r : res Response) (a' : HttpState) : Prop :=
  exists v, attempts url (ad_extra_headers a) left_ (ad_suppress_jar_cookies a) t v /\ outcome v r /\
    (accounted r -> logs (ops := ops) a a' t) /\
    (is_ok r = true -> ad_extra_headers a' = ad_extra_headers a /\ ad_suppress_jar_cookies a' = false).

(** A request has been sent and evidenced_as. *)
Definition evidenced_as (url : string) (a : HttpState) (headers : dict string string) (answer : res Response) (a' : HttpState) : Prop :=
  attempt_headers cfg (answered P cfg q) url (ad_extra_headers a) (ad_suppress_jar_cookies a) headers /\
  logs (ops := ops) a a' [EvSend (nq_method q) url headers answer] /\
  ad_extra_headers a' = ad_extra_headers a /\ ad_suppress_jar_cookies a' = false.

Lemma attempted_none url left_ a a' x : foreign (Raise (A := Response) x) -> same_log a a' -> attempted url left_ a [] (Raise x) a'.
Proof.
  intros Hx (He & Hc & _). exists Failed. split_and!; [constructor|by apply failed_foreign|by intros _; apply logs_refl|done].
Qed.

Lemma attempted_failed url left_ a headers answer a' x : evidenced_as url a headers answer a' ->
  (forall d, x <> NetworkAdapterError RETRY_EXHAUSTED d) ->
  attempted url (S left_) a [EvSend (nq_method q) url headers answer] (Raise x) a'.
Proof.
  intros (Hh & Hl & _) Hx. exists Failed. split_and!; [by constructor|split; [done|intros d [= ->]; by eapply Hx]|done|done].
Qed.

Lemma attempted_foreign url left_ a headers answer a' x : evidenced_as url a headers answer a' -> foreign (Raise (A := Response) x) ->
  attempted url (S left_) a [EvSend (nq_method q) url headers answer] (Raise x) a'.
Proof. intros Hr Hx. apply attempted_failed; [done|]. intros d ->. by eapply Hx. Qed.

Lemma attempted_again url left_ a headers answer a1 t r a' : evidenced_as url a headers answer a1 -> retryable ops answer ->
  attempted url left_ a1 t r a' -> attempted url (S left_) a (EvSend (nq_method q) url headers answer :: t) r a'.
Proof.
  intros (Hh & Hl & Hx & Hs) Hre (v & Hatt & Ho & Hlog & Hok). exists v. rewrite Hx, Hs in Hatt. split_and!; [by constructor|done| |].
  - intros Hr. apply (logs_trans _ _ _ _ _ Hl), Hlog, Hr.
  - intros Hr. destruct (Hok Hr) as [-> ->]. by rewrite Hx.
Qed.

Lemma backoff_foreign n jitter : foreign (_backoff_seconds n jitter).
Proof. unfold _backoff_seconds, float_of_int. by case_match. Qed.

Lemma retry_after_foreign now value : foreign (_parse_retry_after parsedate now value).
Proof.
  unfold _parse_retry_after, int_truediv. by repeat (case_match; simpl).
Qed.

(** A response that is not retried. *)
Lemma accept_emits url left_ a headers response a1 : evidenced_as url a headers (Ok response) a1 ->
  rs_status ops response ∉ _RETRYABLE_STATUSES ->
  emits (accept_response sha256_hexdigest ops P cfg q url response) a1
    (fun t => attempted url (S left_) a (EvSend (nq_method q) url headers (Ok response) :: t)).
Proof.
  intros Hr Hst. pose proof Hr as (Hh & Hl & Hx & Hs).
  assert (forall r, attempted url (S left_) a [EvSend (nq_method q) url headers (Ok response)] (Ok r) a1) as Hok.
  { intros r. exists Accepted. split; [by constructor|done]. }
  unfold accept_response. case_match.
  - apply emits_quiet; [apply get_silent|apply get_foreign|intros x; by apply attempted_foreign|].
    intros [cached|]; [|by apply emits_raise, attempted_failed].
    apply emits_bind, emits_object, emits_ret. apply Hok.
  - apply emits_bind. case_match; [|by apply emits_ret, emits_ret].
    apply emits_silent; [intros e; apply maybe_cache_quiet|]. intros e.
    pose proof (maybe_cache_quiet url response e) as [_ Hf]. destruct (_maybe_cache_conditional _ _ _ _ _ _ _ e).1 as [[]|x].
    + by apply emits_ret.
    + apply attempted_foreign; [done|by eapply foreign_raise].
Qed.

(** A request whose sleep is over: the attempts that are left. *)
Lemma retry_emits url left_ attempt_ last_status a headers answer a1 (wait : M (HttpState * E) float) :
  evidenced_as url a headers answer a1 -> retryable ops answer ->
  emits wait a1 (fun t r a' => t = [] /\ a' = a1 /\ foreign r) ->
  emits (send_attempts env sha256_hexdigest parsedate ops P cfg q url left_ attempt_ last_status) a1 (attempted url left_ a1) ->
  forall cap, emits (let* wait := wait in do* on_world (hp_sleep P (cap wait)) in
          send_attempts env sha256_hexdigest parsedate ops P cfg q url left_ attempt_ last_status) a1
    (fun t => attempted url (S left_) a (EvSend (nq_method q) url headers answer :: t)).
Proof.
  intros Hr Hre Hw IH cap. apply emits_bind. eapply emits_mono; [exact Hw|]. intros t r a' (-> & -> & Hf).
  destruct r as [w|x]; [|apply attempted_foreign; [done|by eapply foreign_raise]].
  apply emits_quiet; [apply sleep_silent|apply sleep_foreign|intros x; by apply attempted_foreign|]. intros _.
  eapply emits_mono; [exact IH|]. intros t r a' H. by eapply attempted_again.
Qed.

Lemma recorded_hint url a headers answer a1 hint : evidenced_as url a headers answer a1 -> evidenced_as url a headers answer (with_retry_after hint a1).
Proof. done. Qed.

Lemma send_failed_emits url left_ attempt_ last_status a headers x a1 :
  evidenced_as url a headers (Raise x) a1 -> hx_is_http_error ops x = true ->
  (attempt_ < hc_max_attempts cfg ->
    emits (send_attempts env sha256_hexdigest parsedate ops P cfg q url left_ (attempt_ + 1) last_status) a1 (attempted url left_ a1)) ->
  emits (let failure := _classify_transport ops x in
    if negb (bool_decide (failure = NETWORK_TIMEOUT)) || (hc_max_attempts cfg <=? attempt_)
    then raise (classify_network_failure failure "transport")
    else
      let* jitter := on_world (hp_jitter P) in
      let* wait := lift (_backoff_seconds attempt_ jitter) in
      do* on_world (hp_sleep P wait) in
      send_attempts env sha256_hexdigest parsedate ops P cfg q url left_ (attempt_ + 1) last_status) a1
    (fun t => attempted url (S left_) a (EvSend (nq_method q) url headers (Raise x) :: t)).
Proof.
  intros Hr Hx IH. cbv zeta. destruct (negb _ || _) eqn:Hc.
  - apply emits_raise, attempted_failed; [done|]. intros d. unfold _classify_transport. by case_match.
  - apply orb_false_iff in Hc as [Ht Hmax]. apply Z.leb_gt in Hmax.
    assert (hx_is_timeout ops x = true) as Ht' by (by unfold _classify_transport in Ht; destruct (hx_is_timeout ops x)).
    apply emits_quiet; [apply jitter_silent|apply jitter_foreign|intros y; by apply attempted_foreign|]. intros jitter.
    apply (retry_emits url left_ (attempt_ + 1) last_status a headers (Raise x) a1 _ Hr) with (cap := id); [done| |by apply IH].
    by apply emits_lift; split_and!; [..|apply backoff_foreign].
Qed.

Lemma send_answered_emits url left_ attempt_ a headers response a1 :
  Z.of_nat (S left_) + attempt_ = hc_max_attempts cfg + 1 -> evidenced_as url a headers (Ok response) a1 ->
  rs_status ops response ∈ _RETRYABLE_STATUSES ->
  (forall a1, attempt_ < hc_max_attempts cfg ->
    emits (send_attempts env sha256_hexdigest parsedate ops P cfg q url left_ (attempt_ + 1) (Some (rs_status ops response))) a1 (attempted url left_ a1)) ->
  emits (let* now := on_world (hp_now P) in
    let* hint := lift (_parse_retry_after parsedate now (rs_header ops response "retry-after")) in
    do* (if hint is Some _ then on_object (with_retry_after hint) else ret tt) in
    if hc_max_attempts cfg <=? attempt_ then raise (NetworkAdapterError RETRY_EXHAUSTED "max_attempts")
    else
      let* wait := match hint with
                   | Some w => ret w
                   | None => let* jitter := on_world (hp_jitter P) in lift (_backoff_seconds attempt_ jitter)
                   end in
      do* on_world (hp_sleep P (py_min wait (hc_retry_after_cap_s cfg))) in
      send_attempts env sha256_hexdigest parsedate ops P cfg q url left_ (attempt_ + 1) (Some (rs_status ops response))) a1
    (fun t => attempted url (S left_) a (EvSend (nq_method q) url headers (Ok response) :: t)).
Proof.
  intros Hleft Hr Hst IH.
  apply emits_quiet; [apply now_silent|apply now_foreign|intros y; by apply attempted_foreign|]. intros now.
  apply emits_pure; [apply retry_after_foreign|intros y; by apply attempted_foreign|]. intros hint _.
  apply emits_bind. set (a2 := if hint is Some _ then with_retry_after hint a1 else a1).
  assert (evidenced_as url a headers (Ok response) a2) as Hr2 by (by destruct hint).
  apply (emits_mono _ _ (fun t r a' => t = [] /\ r = Ok tt /\ a' = a2)); [by destruct hint; [apply emits_object|apply emits_ret]|].
  intros ? ? ? (-> & -> & ->). simpl.
  destruct (Z.leb_spec (hc_max_attempts cfg) attempt_).
  - apply emits_raise. assert (left_ = 0%nat) as -> by lia. destruct Hr2 as (Hh & Hl & _).
    exists Exhausted. split_and!; [by constructor|by eexists|done|done].
  - eapply retry_emits; [exact Hr2|done| |by apply IH].
    destruct hint as [w|]; [by apply emits_ret|].
    apply emits_quiet; [apply jitter_silent|apply jitter_foreign|done|]. intros jitter.
    by apply emits_lift; split_and!; [..|apply backoff_foreign].
Qed.

(** The evidence of a request, and what follows. *)
Lemma evidence_then url left_ a headers answer failure started (k : M (HttpState * E) Response) :
  attempt_headers cfg (answered P cfg q) url (ad_extra_headers a) (ad_suppress_jar_cookies a) headers ->
  failure = match answer with Ok _ => None | Raise e => Some (failure_value (_classify_transport ops e)) end ->
  (forall a1, evidenced_as url a headers answer a1 -> emits k a1 (fun t => attempted url (S left_) a (EvSend (nq_method q) url headers answer :: t))) ->
  emits (do* _record_attempt_evidence env ops P cfg q url headers (if answer is Ok r then Some r else None) failure started in k)
    (with_suppress false a) (fun t => attempted url (S left_) a (EvSend (nq_method q) url headers answer :: t)).
Proof.
  intros Hh Hf Hk. apply emits_bind. eapply emits_mono; [by apply (record_emits url headers answer)|].
  intros t r a1 (-> & Hex & Hsu & Hr). destruct r as [[]|x]; [by apply Hk|].
  assert (foreign (Raise (A := Response) x)) as Hx by (by eapply foreign_raise, unlogged_foreign).
  exists Failed. split_and!; [by constructor|by apply failed_foreign| |done]. intros Ha. by destruct (Hr x eq_refl).
Qed.

Lemma send_attempts_emits url left_ : forall attempt_ last_status a, Z.of_nat left_ + attempt_ = hc_max_attempts cfg + 1 ->
  left_ <> O \/ last_status = None ->
  emits (send_attempts env sha256_hexdigest parsedate ops P cfg q url left_ attempt_ last_status) a (attempted url left_ a).
Proof.
  induction left_ as [|left_ IH]; intros attempt_ last_status a Hleft Hlast; simpl.
  { destruct Hlast as [?| ->]; [done|]. apply emits_raise. exists Failed. split_and!; [constructor|done|by intros _; apply logs_refl|done]. }
  apply emits_bind. eapply emits_mono; [apply build_headers_emits|]. intros t r a1 (-> & Hlog & Hr).
  destruct r as [headers|x]; [|apply attempted_none; [by eapply foreign_raise|done]]. destruct Hr as [Hh ->].
  apply emits_bind, emits_silent; [apply monotonic_silent|]. intros e.
  pose proof (monotonic_total (P := P) e) as Ht. destruct (hp_monotonic P e).1 as [started|x]; [|done]. clear e Ht.
  apply emits_bind, emits_attempt, (emits_event _ (EvSend (nq_method q) url headers)); [apply send_traced|]. intros e.
  pose proof (send_foreign (P := P) (nq_method q) url headers e) as Hx.
  pose proof (send_unlimited (P := P) (nq_method q) url headers e) as Hlim.
  destruct (hp_send P (nq_method q) url headers e) as [[response|x] e']; simpl.
  - apply (evidence_then url left_ a headers (Ok response)); [done..|]. intros a1 Hr.
    apply emits_quiet; [intros; apply accept_all_quiet|intros; apply accept_all_quiet|intros x; by apply attempted_foreign|]. intros [].
    destruct (bool_decide _) eqn:Hst; [apply bool_decide_eq_true in Hst|apply bool_decide_eq_false in Hst].
    + apply send_answered_emits; [done..|]. intros a3 Hlt. apply IH; [lia|left; lia].
    + by apply accept_emits.
  - destruct (hx_is_http_error ops x) eqn:Hhttp; simpl.
    + apply (evidence_then url left_ a headers (Raise x)); [done..|]. intros a1 Hr.
      apply send_failed_emits; [done..|]. intros Hlt. apply IH; [lia|left; lia].
    + apply emits_raise. exists Failed. split_and!; [by constructor|by apply failed_foreign| |done].
      intros Ha. simpl in Hx, Hlim. destruct x; solve [done|by edestruct Hx|by edestruct Hlim].
Qed.

Lemma send_with_retry_emits url a :
  emits (_send_with_retry env sha256_hexdigest parsedate ops P cfg q url) a (attempted url (Z.to_nat (hc_max_attempts cfg)) a).
Proof.
  unfold _send_with_retry. destruct (Z.le_gt_cases 0 (hc_max_attempts cfg)).
  - apply send_attempts_emits; [lia|by right].
  - replace (Z.to_nat (hc_max_attempts cfg)) with O by lia. simpl. apply emits_raise. exists Failed.
    split_and!; [constructor|done|by intros _; apply logs_refl|done].
Qed.

(** The credentials that go on to the next visit. *)
Definition settled {A} (r : res A) (a a' : HttpState) : Prop :=
  is_ok r = true -> ad_extra_headers a' = ad_extra_headers a /\ ad_suppress_jar_cookies a' = false.

(** What is done under a permit. *)
Definition permitted (url : string) (a : HttpState) (t : list (event Response)) (r : res Response) (a' : HttpState) : Prop :=
  exists t0 v rep, t = t0 ++ rep /\
    attempts url (ad_extra_headers a) (Z.to_nat (hc_max_attempts cfg)) (ad_suppress_jar_cookies a) t0 v /\ reported v rep /\
    (is_ok r = true -> v = Accepted) /\ (accounted r -> logs (ops := ops) a a' t) /\ settled r a a'.

Lemma report_unsent v (rep : list (event Response)) : reported v rep -> sent rep = [].
Proof. destruct v; simpl; [by intros ->|by intros [? ->]|by intros ->]. Qed.

Lemma under_permit_emits url permit a :
  emits (let* sent := attempt (_send_with_retry env sha256_hexdigest parsedate ops P cfg q url) in
    match sent with
    | Raise (NetworkAdapterError RETRY_EXHAUSTED _ as e) =>
        let* hint := gets (fun p => ad_last_retry_after p.1) in
        do* on_world (hp_report_throttled P permit hint) in
        raise e
    | Raise e => raise e
    | Ok response =>
        do* on_world (hp_report_success P permit) in
        ret response
    end) a (permitted url a).
Proof.
  apply emits_bind, emits_attempt. eapply emits_mono; [apply send_with_retry_emits|].
  intros t r a1 (v & Hatt & Ho & Hlog & Hset).
  assert (forall ev, sent [ev] = [] -> accounted r -> logs (ops := ops) a a1 (t ++ [ev])) as Hlog'.
  { intros ev Hev Hr. eapply logs_trans; [by apply Hlog|]. by apply logs_refl. }
  destruct r as [response|x].
  - destruct v; [|by destruct Ho|by destruct Ho].
    apply emits_bind, (emits_event _ (fun _ => EvSuccess)); [apply success_traced|]. intros e.
    destruct (hp_report_success P permit e).1 as [[]|y]; [apply emits_ret|]; exists t, Accepted, [EvSuccess].
    + split_and!; [done..|intros _; by apply Hlog'|by intros _; apply Hset].
    + split_and!; [done..|intros _; by apply Hlog'|done].
  - assert (v <> Exhausted -> permitted url a (t ++ []) (Raise x) a1) as Hfail.
    { intros Hv. exists t, v, []. destruct v; [done..|]. rewrite app_nil_r. by split_and!. }
    destruct v; [done| |].
    + destruct Ho as [d [= ->]]. apply emits_bind, emits_gets. intros e. simpl. clear e.
      apply emits_bind, (emits_event _ (fun _ => EvThrottled (ad_last_retry_after a1))); [apply throttled_traced|]. intros e.
      destruct (hp_report_throttled P permit _ e).1 as [[]|y]; [apply emits_raise|];
        exists t, Exhausted, [EvThrottled (ad_last_retry_after a1)]; (split_and!; [done|done|by eexists|done|intros _; by apply Hlog'|done]).
    + destruct Ho as [_ Hx].
      assert (emits (raise (S := HttpState * E) x) a1 (fun t' => permitted url a (t ++ t'))) as Hdone by (apply emits_raise; by apply Hfail).
      destruct x; try exact Hdone. destruct failure_type; try exact Hdone. by destruct (Hx detail).
Qed.

(** What a visit does. *)
Definition visited (url : string) (advice : RobotsAdvice) (a : HttpState) (t : list (event Response)) (r : res Response) (a' : HttpState) : Prop :=
  exists v, visit env ops cfg q (answered P cfg q) url advice (ad_extra_headers a) (ad_suppress_jar_cookies a) t v /\
    (is_ok r = true -> v = Accepted) /\ (accounted r -> logs (ops := ops) a a' t) /\ settled r a a'.

(** [except RateLimitProhibited] of the permit. *)
Definition refusal {A} (r : res A) : res A :=
  match r with
  | Raise (RateLimitProhibited _) => Raise (NetworkAdapterError ROBOTS_BLOCKED "rate-limiter refused (full prohibition)")
  | _ => r
  end.

Lemma emits_refusal {A} (r : res A) a (Q : list (event Response) -> res A -> HttpState -> Prop) : Q [] (refusal r) a ->
  emits (match r with
          | Raise (RateLimitProhibited _) => raise (NetworkAdapterError ROBOTS_BLOCKED "rate-limiter refused (full prohibition)")
          | _ => lift r
          end) a Q.
Proof. intros HQ. destruct r as [x|[]]; by apply emits_lift || apply emits_raise. Qed.

Lemma refusal_ok {A} (r : res A) : is_ok (refusal r) = is_ok r /\ (accounted (refusal r) -> accounted r).
Proof. by destruct r as [x|[]]. Qed.

(** A permit of the limiter: refused, or used and released. *)
Lemma with_permit_emits {A} origin floor (body : Permit -> M (HttpState * E) A) a (Q : list (event Response) -> res A -> HttpState -> Prop) :
  (forall permit, emits (body permit) a Q) ->
  emits (with_permit P origin floor body) a (fun t r a' =>
    (t = [EvAcquire origin floor false] /\ is_ok r = false /\ a' = a) \/
    exists t0 r0, t = EvAcquire origin floor true :: t0 ++ [EvRelease] /\ Q t0 r0 a' /\ is_ok r = is_ok r0 /\ (accounted r -> accounted r0)).
Proof.
  intros Hbody. unfold with_permit.
  apply emits_bind, emits_attempt, emits_bind, (emits_event _ (fun r => EvAcquire origin floor (is_ok r))); [apply acquire_traced|].
  intros e. destruct (hp_acquire P origin floor e).1 as [permit|x].
  - apply emits_bind, emits_attempt. eapply emits_mono; [apply Hbody|]. intros t0 r0 a' HQ.
    apply emits_bind, (emits_event _ (fun _ => EvRelease)); [apply release_traced|]. intros e'.
    pose proof (release_total (P := P) permit e') as Ht. destruct (hp_release P permit e').1 as [[]|y]; [|done].
    apply emits_lift, emits_refusal. right. exists t0, r0. destruct (refusal_ok r0). by rewrite !app_nil_r.
  - refine (emits_refusal (Raise x) a _ _). left. by destruct (refusal_ok (Raise (A := A) x)) as [-> _].
Qed.

Lemma visit_emits url advice a :
  emits (_send_with_rate_limit env sha256_hexdigest parsedate ops P cfg q url advice) a (visited url advice a).
Proof.
  unfold _send_with_rate_limit. apply emits_bind, emits_object, emits_bind, emits_lift.
  destruct (_origin env url) as [origin|x] eqn:Ho.
  - eapply emits_mono; [apply with_permit_emits; intros permit; apply under_permit_emits|]. simpl.
    intros t r a' [(-> & Hr & ->)|(t1 & r0 & -> & (t0 & v & rep & -> & Hatt & Hrep & Hv & Hlog & Hset) & Hok & Hacc)].
    + exists Failed. rewrite Hr. split_and!; [by constructor|done|by intros _; apply logs_refl|by unfold settled; rewrite Hr].
    + exists v. rewrite Hok. split_and!; [rewrite <-app_assoc; by constructor|done| |by unfold settled in *; rewrite Hok].
      intros Hr. destruct (Hlog (Hacc Hr)) as (evs & ? & ? & Hev). exists evs. split_and!; [done..|].
      simpl. by rewrite sent_app, app_nil_r.
  - exists Failed. split_and!; [constructor|done|by intros _; apply logs_refl|done].
Qed.

#[local] Abbreviation crawls := (crawl env ipv6_internal ops cfg q (answered P cfg q)).

Lemma check_robots_emits url a :
  emits (on_world (_check_robots P cfg url)) a (fun t r a' => a' = a /\
    exists answer, t = [EvRobots url (hc_user_agent cfg) answer] /\
      match r with
      | Ok advice => answer = Ok advice /\ ra_is_allowed advice = true
      | Raise _ => forall advice, answer = Ok advice -> ra_is_allowed advice = false
      end).
Proof.
  intros e. exists [EvRobots url (hc_user_agent cfg) (hp_robots P url (hc_user_agent cfg) e).1]. rewrite on_world_run. simpl.
  pose proof (robots_traced (P := P) url (hc_user_agent cfg) e) as Ht. unfold _check_robots, bind.
  destruct (hp_robots P url (hc_user_agent cfg) e) as [[advice|x] e']; simpl in *.
  - destruct (ra_is_allowed advice) eqn:Ha; simpl; split_and!; [done|done|by exists (Ok advice)|done|done|].
    exists (Ok advice). split; [done|]. by intros ? [= <-].
  - split_and!; [done|done|]. by exists (Raise x).
Qed.

(** From a visit on, robots having allowed it. *)
Definition crawled (n : nat) (url : string) (advice : RobotsAdvice) (a : HttpState) (t : list (event Response)) (r : res Response) (a' : HttpState) : Prop :=
  crawls n url (ad_extra_headers a) (ad_suppress_jar_cookies a) (EvRobots url (hc_user_agent cfg) (Ok advice) :: t) /\
  (accounted r -> logs (ops := ops) a a' t).

Lemma crawled_last n url advice a t v a' (r : res Response) : ra_is_allowed advice = true ->
  visit env ops cfg q (answered P cfg q) url advice (ad_extra_headers a) (ad_suppress_jar_cookies a) t v ->
  (accounted r -> logs (ops := ops) a a' t) -> crawled (S n) url advice a t r a'.
Proof. intros Ha Hv Hl. split; [|done]. by eapply crawl_last. Qed.

(** The URL a redirect leads to: found, let through, and its effect on the
    credentials. *)
Definition redirected (url next : string) (cross : bool) : Prop :=
  exists location, truthy_str location = true /\ urljoin env url location = Ok next /\
    _validate_redirect_target env ipv6_internal cfg url next = Ok tt /\ _is_cross_origin env url next = Ok cross.

Lemma crawled_on n url advice a t next cross a1 answer t' r a' : ra_is_allowed advice = true ->
  visit env ops cfg q (answered P cfg q) url advice (ad_extra_headers a) (ad_suppress_jar_cookies a) t Accepted ->
  logs (ops := ops) a a1 t -> ad_extra_headers a1 = ad_extra_headers a -> ad_suppress_jar_cookies a1 = false ->
  redirected url next cross ->
  crawls n next (carried cross (ad_extra_headers a1)) cross (EvRobots next (hc_user_agent cfg) answer :: t') ->
  (accounted r -> logs (ops := ops) a1 a' t') ->
  crawled (S n) url advice a (t ++ EvRobots next (hc_user_agent cfg) answer :: t') r a'.
Proof.
  intros Ha Hv Hl Hex Hsu (location & ? & ? & ? & ?) Hc Hl'. split.
  - eapply crawl_redirected; eauto. by rewrite <-Hex.
  - intros Hr. eapply logs_trans; [exact Hl|]. destruct (Hl' Hr) as (evs & ? & ? & ?). by exists evs.
Qed.

Lemma emits_res {A B} (r : res A) (k : A -> M (HttpState * E) B) a (Q : list (event Response) -> res B -> HttpState -> Prop) :
  (forall x, Q [] (Raise x) a) -> (forall x, r = Ok x -> emits (k x) a Q) -> emits (bind (lift r) k) a Q.
Proof. intros Hr Hk. apply emits_bind, emits_lift. destruct r; [by apply Hk|apply Hr]. Qed.

Lemma fetch_loop_emits refs n : forall hop url advice a, ra_is_allowed advice = true ->
  emits (fetch_loop env ipv6_internal sha256_hexdigest parsedate ops P cfg q refs n hop url advice) a (crawled n url advice a).
Proof.
  induction n as [|n IH]; intros hop url advice a Ha; simpl.
  { apply emits_raise. split; [by constructor|]. intros _. by apply logs_refl. }
  apply emits_bind. eapply emits_mono; [apply visit_emits|]. intros t r a1 (v & Hv & Hok & Hlog & Hset).
  destruct r as [response|x]; [|by eapply crawled_last].
  assert (v = Accepted) as -> by (by apply Hok). destruct (Hset eq_refl) as [Hex Hsu]. specialize (Hlog I).
  assert (forall r, crawled (S n) url advice a (t ++ []) r a1) as Hend by (intros r; rewrite app_nil_r; by eapply crawled_last).
  destruct (negb (_is_redirect_status _)); [by apply emits_ret|].
  set (location := default "" _). destruct (negb (truthy_str location)) eqn:Hloc; [by apply emits_raise|]. apply negb_false_iff in Hloc.
  apply emits_res; [by intros|]. intros next Hnext. apply emits_res; [by intros|]. intros [] Hpolicy.
  apply emits_res; [by intros|]. intros cross Hcross.
  assert (redirected url next cross) as Hred by (by exists location).
  apply emits_bind, (emits_mono _ _ (fun t r a' => t = [] /\ r = Ok tt /\ a' = if cross then credentials_reset a1 else a1));
    [by destruct cross; [apply emits_object|apply emits_ret]|]. intros ? ? ? (-> & -> & ->).
  apply emits_bind. eapply emits_mono; [apply check_robots_emits|]. intros t1 r a2 (-> & answer & -> & Hanswer).
  set (a2 := if cross then credentials_reset a1 else a1).
  assert (ad_extra_headers a2 = carried cross (ad_extra_headers a1) /\ ad_suppress_jar_cookies a2 = cross) as [Hex2 Hsu2] by (by subst a2; destruct cross).
  assert (forall t a', logs (ops := ops) a2 a' t -> logs (ops := ops) a1 a' t) as Hlog2.
  { intros t' a' H. eapply (logs_trans a1 a2 a' []); [apply logs_refl; subst a2; by destruct cross|done]. }
  destruct r as [advice'|x].
  - destruct Hanswer as [-> Ha']. simpl. apply emits_res.
    + intros x. eapply crawled_on; [done..|by apply crawl_stopped|]. intros _. by apply Hlog2, logs_refl.
    + intros h _. apply emits_bind, emits_object. simpl. eapply emits_mono; [by apply IH|].
      intros t' r' a' [Hc Hl]. eapply crawled_on; [done..| |].
      * simpl in Hc. by rewrite Hex2, Hsu2 in Hc.
      * intros Hr. by apply Hlog2, Hl.
  - simpl. eapply crawled_on; [done..|by apply crawl_blocked|]. intros _. by apply Hlog2, logs_refl.
Qed.

Lemma fetch_emits refs url a :
  emits (_fetch_with_redirects env ipv6_internal sha256_hexdigest parsedate ops P cfg q refs url) a (fun t r a' =>
    crawls (visits_allowed cfg) url (ad_extra_headers a) (ad_suppress_jar_cookies a) t /\ (accounted r -> logs (ops := ops) a a' t)).
Proof.
  unfold _fetch_with_redirects. apply emits_bind. eapply emits_mono; [apply check_robots_emits|].
  intros t r a' (-> & answer & -> & Hr). destruct r as [advice|x].
  - destruct Hr as [-> Ha]. eapply emits_mono; [by apply fetch_loop_emits|]. intros t r a' [Hc Hl]. split; [done|].
    intros Hr. destruct (Hl Hr) as (evs & ? & ? & ?). by exists evs.
  - split; [by constructor|]. intros _. by apply logs_refl.
Qed.

(** A request that was constructed: the placeholder of a failed fetch is then
    valid. *)
Lemma partial_result a : validate_request env q = Ok q -> exists result, _build_partial_failure_result env q a = Ok result /\
  nc_attempt_evidences result = ad_attempt_evidences a /\ nc_redirect_hops result = ad_redirect_hops a.
Proof.
  unfold validate_request, _build_partial_failure_result, validate_response. intros H. run_m H.
  unfold http_url in *. simpl. destruct (_is_http_url env (nq_url q)) as [b|x]; [|by destruct (subclass_value_error x)].
  destruct b; [|done]. simpl. by eexists.
Qed.

(** What [execute] publishes. *)
Definition published (a : HttpState) (t : list (event Response)) : Prop :=
  exists result, ad_last_result a = Some result /\ evidenced ops 0 (sent t) (nc_attempt_evidences result).

Lemma validate_response_foreign r : foreign (validate_response env r).
Proof.
  apply unlogged_foreign. unfold validate_response. repeat (apply unlogged_rbind; [first [apply unlogged_http_url|apply unlogged_invalid]|intros _]).
  done.
Qed.

(** What [execute] leaves. *)
Definition executed (t : list (event Response)) (r : res Ref) (a' : HttpState) : Prop :=
  crawls (visits_allowed cfg) (nq_url q) (hc_extra_headers cfg) false t /\
  match r with Ok _ | Raise (NetworkAdapterError _ _) => published a' t | Raise _ => True end.

Lemma execute_emits policy_snapshot_ref a : validate_request env q = Ok q ->
  emits (execute env ipv6_internal sha256_hexdigest parsedate ops P cfg q policy_snapshot_ref) a executed.
Proof.
  intros Hq. unfold execute. apply emits_bind, emits_object. simpl.
  apply emits_bind, emits_attempt. eapply emits_mono; [apply fetch_emits|]. simpl. intros t r a' [Hc Hl].
  assert (forall evs, logs (ops := ops) (fresh_fetch cfg a) a' t -> evs = ad_attempt_evidences a' -> evidenced ops 0 (sent t) evs) as Hev
    by (by intros evs (evs' & He & _ & Hev) ->; simpl in *; rewrite He).
  destruct r as [response|x].
  - apply emits_bind, emits_gets. intros e. simpl. clear e. apply emits_pure; [apply validate_response_foreign| |].
    { intros x Hf. rewrite !app_nil_r. split; [done|]. destruct x; first [done|by destruct (Hf failure_type detail)]. }
    intros contract _. apply emits_bind, emits_object, emits_ret. rewrite !app_nil_r. split; [done|]. eexists; split; [done|].
    by apply Hev; [apply Hl|].
  - assert (executed t (Raise x) a' -> emits (raise (S := HttpState * E) (A := Ref) x) a' (fun t' => executed (t ++ t'))) as Hr
      by (intros He; apply emits_raise; by rewrite app_nil_r).
    destruct x; try (by apply Hr). clear Hr. apply emits_bind, emits_gets. intros e. simpl. clear e.
    destruct (partial_result a' Hq) as (partial & Hp & Hpe & _). apply emits_bind, emits_lift. rewrite Hp.
    apply emits_bind, emits_object, emits_raise. rewrite !app_nil_r. split; [done|]. exists partial. split; [done|].
    by apply Hev; [apply Hl|].
Qed.
End Protocol.

(** ** Credentials *)

(** The headers that carry credentials, and a request that has none. *)
Definition credential_header (name : string) : Prop :=
  lower name ∈ ["authorization"; "proxy-authorization"; "cookie"; "x-api-key"; "x-auth-token"; "x-session-token"; "x-csrf-token"].
Definition credential_free (headers : dict string string) : Prop := forall kv, kv ∈ headers -> ~ credential_header kv.1.

(** No credential but the jar's cookies for the URL. *)
Definition jar_only (served : string -> dict string string -> Prop) (url : string) (headers : dict string string) : Prop :=
  forall kv, kv ∈ headers -> credential_header kv.1 ->
    exists cookies, served url cookies /\ kv = ("Cookie", cookie_header cookies).

Lemma strip_credential_free headers : credential_free (_strip_cross_origin_headers headers).
Proof. intros kv [H _]%list_elem_of_filter. exact H. Qed.

Section Credentials.
Context (env : NetEnv) (ipv6_internal : string -> option bool) {Response : Type} (ops : ResponseOps Response).
Context (cfg : HttpClientConfig) (q : NetworkRequest) (served : string -> dict string string -> Prop).
#[local] Abbreviation crawls := (crawl env ipv6_internal ops cfg q served).
#[local] Abbreviation origin_of := (_canonical_origin env).

Lemma foldl_set_in (extra d : dict string string) kv :
  kv ∈ foldl (fun headers '(name, value) => dict_set headers name value) d extra -> kv ∈ d \/ kv ∈ extra.
Proof.
  revert d. induction extra as [|[n v] extra IH]; intros d; simpl; [by left|]. intros [H|H]%IH; [|by right; right].
  apply dict_set_in in H as [->|H]; [right; left|by left].
Qed.

Lemma base_headers_in extra kv : kv ∈ base_headers cfg extra -> kv ∈ extra \/ kv.1 = "User-Agent".
Proof. unfold base_headers. intros [H|H]%foldl_set_in; [|by left]. apply list_elem_of_singleton in H as ->. by right. Qed.

Lemma conditional_headers_in cached headers kv : kv ∈ conditional_headers cached headers ->
  kv ∈ headers \/ kv.1 = "If-None-Match" \/ kv.1 = "If-Modified-Since".
Proof.
  destruct cached as [[etag modified b r c s]|]; simpl; [|by left]. intros H.
  assert (forall h, kv ∈ (if etag is Some e then (if truthy_str e then dict_set h "If-None-Match" e else h) else h) ->
    kv ∈ h \/ kv.1 = "If-None-Match") as Htag.
  { intros h Hk. destruct etag as [e|]; [destruct (truthy_str e)|]; [|by left..].
    apply dict_set_in in Hk as [->|?]; [by right|by left]. }
  destruct modified as [at_|]; [|destruct (Htag _ H); tauto].
  destruct (_ && _); [|destruct (Htag _ H); tauto]. apply dict_set_in in H as [->|H]; [by right; right|]. destruct (Htag _ H); tauto.
Qed.

Lemma harmless_header name : name = "User-Agent" \/ name = "If-None-Match" \/ name = "If-Modified-Since" -> ~ credential_header name.
Proof.
  intros H Hc. assert (bool_decide (lower name ∈ _CROSS_ORIGIN_STRIP_HEADERS) = true) as Hb by by apply bool_decide_eq_true_2.
  by destruct H as [-> | [-> | ->]]; vm_compute in Hb.
Qed.

(** Stripped headers let the jar's cookies in only, and those only if they are
    not suppressed. *)
Lemma attempt_headers_clean url extra suppressed headers : attempt_headers cfg served url extra suppressed headers -> credential_free extra ->
  jar_only served url headers /\ (suppressed = true -> credential_free headers).
Proof.
  intros (cookies & cached & Hserved & ->) Hx.
  assert (forall kv, kv ∈ base_headers cfg extra -> ~ credential_header kv.1) as Hbase
    by (intros kv [H|H]%base_headers_in; [by apply Hx|by apply harmless_header; left]).
  split.
  - intros kv [H|H]%conditional_headers_in Hc; [|by exfalso; eapply harmless_header; [right|]].
    destruct (negb suppressed && _) eqn:Hs; [|by destruct (Hbase _ H)]. apply andb_prop in Hs as [Hs _].
    apply dict_set_in in H as [->|H]; [exists cookies; split; [by apply Hserved, negb_true_iff|done]|by destruct (Hbase _ H)].
  - intros ->. intros kv [H|H]%conditional_headers_in; [by apply Hbase|by apply harmless_header; right].
Qed.

(** What the adapter compares determines the origin. *)
Lemma canonical_web_origin url1 url2 o1 o2 : origin_of url1 = origin_of url2 ->
  web_origin env url1 = Some o1 -> web_origin env url2 = Some o2 -> o1 = o2.
Proof.
  destruct o1 as [[s1 h1] n1], o2 as [[s2 h2] n2].
  intros Heq (parts1 & x1 & p1 & Hu1 & Hs1 & Hsup1 & Hh1 & <- & Hp1 & <-)%web_origin_spec
    (parts2 & x2 & p2 & Hu2 & Hs2 & Hsup2 & Hh2 & <- & Hp2 & <-)%web_origin_spec.
  unfold _canonical_origin in Heq. rewrite Hu1, Hu2 in Heq. simpl in Heq. rewrite Hs1, Hs2, Hh1, Hh2, Hp1, Hp2 in Heq. simpl in Heq.
  injection Heq as Hs Hh Hp. assert (s1 = s2) as <- by (destruct Hsup1 as [-> | ->], Hsup2 as [-> | ->]; done).
  rewrite Hh. enough (effective_port s1 p1 = effective_port s1 p2) as -> by done.
  destruct Hsup1 as [-> | ->], p1 as [n1|], p2 as [n2|];
    rewrite ?(bool_decide_eq_true_2 (_ = _) eq_refl), ?(bool_decide_eq_false_2 ("http" = "https")), ?(bool_decide_eq_false_2 ("https" = "http")) in Hp by done;
    simpl in *; repeat match type of Hp with context [?x =? ?y] => destruct (Z.eqb_spec x y) end; simpl in *; by simplify_eq.
Qed.

(** A request that crosses to another origin than [prev] has no credential. *)
Definition crosses (prev url : string) : Prop := origin_of prev <> origin_of url.
Fixpoint chained (prev : string) (requests : list (Request Response)) : Prop :=
  match requests with
  | [] => True
  | rq :: requests => (crosses prev (rq_url rq) -> credential_free (rq_headers rq)) /\ chained (rq_url rq) requests
  end.

Lemma chained_adjacent prev pre rq rq' post : chained prev (pre ++ rq :: rq' :: post) ->
  crosses (rq_url rq) (rq_url rq') -> credential_free (rq_headers rq').
Proof. revert prev. induction pre as [|x pre IH]; intros prev; simpl; [intros (_ & H & _); exact H|]. intros [_ H]. by eapply IH. Qed.

(** What the requests of a trace keep, [prev] being the URL visited before and
    [initial] a URL that the credentials are for. *)
Definition kept (initial prev : string) (requests : list (Request Response)) : Prop :=
  chained prev requests /\ forall rq, rq ∈ requests -> origin_of (rq_url rq) = origin_of initial \/ jar_only served (rq_url rq) (rq_headers rq).

Lemma attempts_kept initial url extra left_ suppressed t v : attempts ops cfg q served url extra left_ suppressed t v ->
  credential_free extra \/ origin_of url = origin_of initial ->
  forall prev rest, (crosses prev url -> suppressed = true /\ credential_free extra) ->
  kept initial url rest -> (sent t = [] -> kept initial prev rest) -> kept initial prev (sent t ++ rest).
Proof.
  intros H Hx. 
  assert (forall prev suppressed headers answer l, attempt_headers cfg served url extra suppressed headers ->
    (crosses prev url -> suppressed = true /\ credential_free extra) -> kept initial url l ->
    kept initial prev (Sent (nq_method q) url headers answer :: l)) as Hcons.
  { intros prev s headers answer l Hh Hp [Hc Hk]. split.
    - split; [|done]. simpl. intros Hcr. destruct (Hp Hcr) as [Hs Hf]. by apply (attempt_headers_clean _ _ _ _ Hh Hf).
    - intros rq [->|Hrq]%elem_of_cons; [|by apply Hk]. simpl. destruct Hx as [Hf|?]; [right|by left].
      by apply (attempt_headers_clean _ _ _ _ Hh Hf). }
  induction H as [| | | |left_ s headers answer t v Hh Hr H IH]; intros prev rest Hp Hrest Hnil; simpl in *; eauto.
  apply (Hcons prev s headers answer); [done..|]. apply IH; [by intros []|done|done].
Qed.

Lemma visit_sent_kept initial url advice extra suppressed t v : visit env ops cfg q served url advice extra suppressed t v ->
  credential_free extra \/ origin_of url = origin_of initial ->
  forall prev rest, (crosses prev url -> suppressed = true /\ credential_free extra) ->
  kept initial url rest -> (v <> Accepted -> kept initial prev rest) -> kept initial prev (sent t ++ rest).
Proof.
  intros H Hx prev rest Hp Hrest Hnil. destruct H as [| |origin t v rep Ho Hatt Hrep]; simpl; [by apply Hnil..|].
  assert (sent (t ++ rep ++ [EvRelease]) = sent t) as Hsent.
  { rewrite !sent_app, (report_unsent v rep) by done. by rewrite app_nil_r. }
  rewrite Hsent. eapply attempts_kept; [done..|]. intros Ht. apply Hnil. intros ->. by inversion Hatt; subst.
Qed.

Lemma crawl_kept initial n url extra suppressed t : crawls n url extra suppressed t ->
  credential_free extra \/ origin_of url = origin_of initial ->
  forall prev, (crosses prev url -> suppressed = true /\ credential_free extra) -> kept initial prev (sent t).
Proof.
  induction 1 as [| |n url extra s advice t v Ha Hv|n url extra s advice t location next cross t' Ha Hv Hl Hj Hp Hcross Hc IH];
    intros Hx prev Hprev; simpl.
  - by split; [|intros ? ?%elem_of_nil].
  - by split; [|intros ? ?%elem_of_nil].
  - rewrite <-(app_nil_r (sent t)). eapply visit_sent_kept; [done..| |]; intros; by split; [|intros ? ?%elem_of_nil].
  - fold (sent (t ++ t')). rewrite sent_app. eapply visit_sent_kept; [done..| |done].
    unfold _is_cross_origin in Hcross. destruct (origin_of url) as [o|] eqn:Ho; [|done]. simpl in Hcross.
    destruct (origin_of next) as [o'|] eqn:Hn; [|done]. injection Hcross as <-. case_bool_decide as Heq; simpl in IH.
    + subst o'. apply IH; [done|]. intros []. by rewrite Ho, Hn.
    + apply IH; [left; apply strip_credential_free|]. intros _. split; [done|apply strip_credential_free].
Qed.
End Credentials.

(** ** Robots before every request *)

Section Admission.
Context (env : NetEnv) (ipv6_internal : string -> option bool) {Response : Type} (ops : ResponseOps Response).
Context (cfg : HttpClientConfig) (q : NetworkRequest) (served : string -> dict string string -> Prop).

(** Every request is for the URL that robots allowed last: [allowed] is the URL
    of the last answer of robots to this user agent, if it allowed it. *)
Fixpoint admitted (allowed : option string) (t : list (event Response)) : Prop :=
  match t with
  | [] => True
  | EvRobots url ua answer :: t =>
      ua = hc_user_agent cfg /\
      admitted (match answer with Ok advice => if ra_is_allowed advice then Some url else None | Raise _ => None end) t
  | EvSend _ url _ _ :: t => allowed = Some url /\ admitted allowed t
  | _ :: t => admitted allowed t
  end.

Lemma attempts_admitted url extra n s t v rest : attempts ops cfg q served url extra n s t v ->
  admitted (Some url) rest -> admitted (Some url) (t ++ rest).
Proof. induction 1; simpl; auto. Qed.

Lemma visit_admitted url advice extra s t v rest : visit env ops cfg q served url advice extra s t v ->
  admitted (Some url) rest -> admitted (Some url) (t ++ rest).
Proof.
  intros H Hr. destruct H as [| |origin t v rep Ho Hatt Hrep]; [done..|]. simpl. rewrite <-!app_assoc.
  eapply attempts_admitted; [done|]. destruct v; simpl in Hrep; [subst|destruct Hrep; subst|subst]; exact Hr.
Qed.

Lemma crawl_admitted n url extra s t : crawl env ipv6_internal ops cfg q served n url extra s t -> forall allowed, admitted allowed t.
Proof.
  induction 1 as [| |n url extra s advice t v Ha Hv|n url extra s advice t location next cross t' Ha Hv Hl Hj Hp Hcross Hc IH];
    intros allowed; simpl; [by split..| |]; rewrite ?Ha; split; [done| |done|].
  - rewrite <-(app_nil_r t). by eapply visit_admitted.
  - eapply visit_admitted; [done|apply IH].
Qed.

Lemma attempts_length url extra n s t v : attempts ops cfg q served url extra n s t v -> (length (sent t) <= n)%nat.
Proof. induction 1; simpl in *; lia. Qed.

Lemma visit_length url advice extra s t v : visit env ops cfg q served url advice extra s t v ->
  (length (sent t) <= Z.to_nat (hc_max_attempts cfg))%nat.
Proof.
  destruct 1 as [| |origin t v rep Ho Hatt%attempts_length Hrep]; simpl; [lia..|].
  rewrite !sent_app, !length_app, (report_unsent v rep) by done. simpl. lia.
Qed.

Lemma crawl_length n url extra s t : crawl env ipv6_internal ops cfg q served n url extra s t ->
  (length (sent t) <= n * Z.to_nat (hc_max_attempts cfg))%nat.
Proof.
  induction 1 as [| |n url extra s advice t v Ha Hv%visit_length|n url extra s advice t location next cross t' Ha Hv%visit_length Hl Hj Hp Hcross Hc IH];
    simpl; [lia..| |].
  - fold (sent t). lia.
  - fold (sent (t ++ t')). rewrite sent_app, length_app. lia.
Qed.
End Admission.

(** ** Redaction *)

Lemma redacted_valid headers : _validate_redacted_headers (_redact_headers_for_evidence headers) = Ok tt.
Proof.
  apply for_each_ok. intros [name value] H. unfold _redact_headers_for_evidence in H.
  apply list_elem_of_fmap in H as ([n v] & [= -> ->] & _). apply guard_ok.
  change _SENSITIVE_HEADER_NAMES with _EVIDENCE_REDACT_HEADERS. by case_bool_decide.
Qed.

Lemma evidenced_redacted {Response} (ops : ResponseOps Response) n requests evs : evidenced ops n requests evs ->
  forall ev, ev ∈ evs -> _validate_redacted_headers (ne_request_headers_redacted ev) = Ok tt.
Proof.
  induction 1 as [|n rq rqs ev evs (_ & _ & _ & Hh & _) H IH]; [by intros ev ?%elem_of_nil|].
  intros ev' [->|?]%elem_of_cons; [|by apply IH]. rewrite Hh. apply redacted_valid.
Qed.

(** ** The properties of [execute] *)

Section Claims.
Context (env : NetEnv) (ipv6_internal : string -> option bool) (sha256_hexdigest : string -> string) (parsedate : string -> option Z).
Context {Response Permit E : Type} (ops : ResponseOps Response) (P : HttpPorts Response Permit E) `{L : !HttpLaws ops P}.
Context (cfg : HttpClientConfig) (q : NetworkRequest).
#[local] Abbreviation run p a e := (execute env ipv6_internal sha256_hexdigest parsedate ops P cfg q p (a, e)).

(** C2: Every fetch follows the crawling protocol. What [execute] does to
    robots, the rate limiter and the wire is a trace of [crawl]: each URL is
    put to robots under the configured user agent first, its requests are sent
    under one permit of its origin with the floor of that advice, which is
    reported on as the attempts ended and always released, and a redirect is
    followed only to a target that the redirect policy let through. So every
    request is for the URL that robots allowed last, and there are at most
    [max_attempts] of them for each of [max_redirects + 1] visits. The transport
    may raise any exception of its own, the limiter and robots any at all. *)
Theorem every_request_admitted policy_snapshot_ref a e : validate_request env q = Ok q ->
  exists t, trace (run policy_snapshot_ref a e).2.2 = trace e ++ t /\
    crawl env ipv6_internal ops cfg q (answered P cfg q) (visits_allowed cfg) (nq_url q) (hc_extra_headers cfg) false t /\
    admitted cfg None t /\ (length (sent t) <= visits_allowed cfg * Z.to_nat (hc_max_attempts cfg))%nat.
Proof.
  intros Hq. destruct (execute_emits env ipv6_internal sha256_hexdigest parsedate ops P cfg q policy_snapshot_ref a Hq e) as (t & Ht & Hc & _).
  exists t. split_and!; [done|done|by eapply crawl_admitted|by eapply crawl_length].
Qed.

(** C5: Credentials stay with the origin they are for, an origin being a
    scheme, a host and a port. Among the headers that the adapter passes to
    httpx, a request of a fetch to any other origin than that of the URL asked
    for carries none of the caller's credential headers, at most a [Cookie]
    header of cookies that the run's jar answers for that URL; and a request to
    another origin than the request before carries no credential header at all.
    What httpx adds on its own, cookies of its client and the user and password
    of a URL, is not among these headers. *)
Theorem credentials_stay_with_origin policy_snapshot_ref a e : validate_request env q = Ok q ->
  exists t, trace (run policy_snapshot_ref a e).2.2 = trace e ++ t /\
    (forall rq o o', rq ∈ sent t -> web_origin env (rq_url rq) = Some o -> web_origin env (nq_url q) = Some o' -> o <> o' ->
      jar_only (answered P cfg q) (rq_url rq) (rq_headers rq)) /\
    (forall pre rq rq' post o o', sent t = pre ++ rq :: rq' :: post ->
      web_origin env (rq_url rq) = Some o -> web_origin env (rq_url rq') = Some o' -> o <> o' -> credential_free (rq_headers rq')).
Proof.
  intros Hq. destruct (execute_emits env ipv6_internal sha256_hexdigest parsedate ops P cfg q policy_snapshot_ref a Hq e) as (t & Ht & Hc & _).
  exists t. destruct (crawl_kept env ipv6_internal ops cfg q (answered P cfg q) (nq_url q) _ _ _ _ _ Hc (or_intror eq_refl) (nq_url q)) as [Hch Hk]; [by intros []|].
  split_and!; [done| |].
  - intros rq o o' Hrq Ho Ho' Hne. destruct (Hk rq Hrq) as [Heq|?]; [|done]. by destruct Hne; eapply canonical_web_origin.
  - intros pre rq rq' post o o' Hs Ho Ho' Hne. rewrite Hs in Hch. eapply chained_adjacent; [done|].
    intros Heq. by destruct Hne; eapply canonical_web_origin.
Qed.

(** C38: Whenever [execute] returns, or raises the adapter's error, the result
    it publishes has one evidence for every request on the wire, numbered in
    the order they were sent, with the method, the URL and the status or the
    class of the failure, and with its headers redacted as the evidence
    contract demands. *)
Theorem every_request_evidenced policy_snapshot_ref a e r s : validate_request env q = Ok q ->
  run policy_snapshot_ref a e = (r, s) -> is_ok r = true \/ (exists f d, r = Raise (NetworkAdapterError f d)) ->
  exists t result, trace s.2 = trace e ++ t /\ ad_last_result s.1 = Some result /\
    evidenced ops 0 (sent t) (nc_attempt_evidences result) /\
    forall ev, ev ∈ nc_attempt_evidences result -> _validate_redacted_headers (ne_request_headers_redacted ev) = Ok tt.
Proof.
  intros Hq Hrun Hr. destruct (execute_emits env ipv6_internal sha256_hexdigest parsedate ops P cfg q policy_snapshot_ref a Hq e) as (t & Ht & _ & Hp).
  rewrite Hrun in Ht, Hp. simpl in *. destruct Hr as [Hr|(f & d & ->)].
  - destruct r; [|done]. destruct Hp as (result & ? & Hev). exists t, result. split_and!; [done..|by eapply evidenced_redacted].
  - destruct Hp as (result & ? & Hev). exists t, result. split_and!; [done..|by eapply evidenced_redacted].
Qed.
End Claims.

(** ** A world to run in *)

Module HttpDemo.
Record Page := { pg_status : Z; pg_headers : dict string string; pg_cookies : list string; pg_body : list Byte.byte; pg_url : string }.
Definition ops : ResponseOps Page := {|
  rs_status := pg_status; rs_header := fun p n => dict_get (pg_headers p) n; rs_set_cookies := pg_cookies; rs_headers := pg_headers;
  rs_content := pg_body; rs_url := pg_url;
  rs_from_cache := fun c url => {| pg_status := cc_status_code c; pg_headers := [("content-type", cc_content_type c)]; pg_cookies := [];
                                   pg_body := cc_body_bytes c; pg_url := url |};
  hx_is_http_error := fun e => bool_decide (e = ForeignError "httpx.ReadTimeout");
  hx_is_timeout := fun e => bool_decide (e = ForeignError "httpx.ReadTimeout") |}.

(** The calls so far, the answers to come, [None] for a URL that httpx refuses;
    with none left, a time-out. *)
Record World := { wd_log : list (event Page); wd_script : list (option Page) }.
Definition logged (ev : event Page) (w : World) : World := {| wd_log := wd_log w ++ [ev]; wd_script := wd_script w |}.

Definition answer_next (m u : string) (h : dict string string) : M World Page := fun w =>
  match wd_script w with
  | [] => let r := Raise (ForeignError "httpx.ReadTimeout") in (r, logged (EvSend m u h r) w)
  | p :: rest => let r := default (Raise (ForeignError "httpx.InvalidURL")) (Ok <$> p) in
                 (r, {| wd_log := wd_log w ++ [EvSend m u h r]; wd_script := rest |})
  end.

Definition allow : RobotsAdvice := {| ra_is_allowed := true; ra_crawl_delay := None; ra_request_rate := None; ra_disallow_reason := None |}.

Definition ports : HttpPorts Page unit World := {|
  hp_robots := fun u ua w => (Ok allow, logged (EvRobots u ua (Ok allow)) w);
  hp_acquire := fun o f w => (Ok tt, logged (EvAcquire o f true) w);
  hp_release := fun _ w => (Ok tt, logged EvRelease w);
  hp_report_success := fun _ w => (Ok tt, logged EvSuccess w);
  hp_report_throttled := fun _ h w => (Ok tt, logged (EvThrottled h) w);
  hp_cookies_for := fun _ _ => ret [("session", "s3cr3t")];
  hp_accept_set_cookie := fun _ _ _ => ret tt;
  hp_cache_get := fun _ _ => ret None;
  hp_cache_put := fun _ _ _ => ret tt;
  hp_send := answer_next;
  hp_sleep := fun _ => ret tt;
  hp_jitter := ret 0%float;
  hp_monotonic := ret 0%float;
  hp_now := ret 0 |}.

Definition ports_laws : HttpLaws ops ports.
Proof.
  refine {| trace := wd_log |}; try done.
  - intros m u h w. simpl. unfold answer_next. by destruct (wd_script w).
  - intros m u h w f d. simpl. unfold answer_next. by destruct (wd_script w) as [|[p|] rest].
  - intros m u h w d. simpl. unfold answer_next. by destruct (wd_script w) as [|[p|] rest].
Defined.

Definition cfg : HttpClientConfig := {|
  hc_max_attempts := 2; hc_max_redirects := 1; hc_user_agent := "VeraCrawl"; hc_egress_allowlist := []; hc_allow_private_network := false;
  hc_retry_after_cap_s := 60; hc_run_ref := None; hc_extra_headers := [("Authorization", "Bearer t0k3n")] |}.
Definition page_request : NetworkRequest := {|
  nq_id := "request:1"; nq_run_ref := "run:1"; nq_url := "https://a.example/"; nq_method := "GET"; nq_policy_decision_refs := ["policy:1"];
  nq_size_budget_bytes := 1000; nq_timeout_ms := 1000 |}.

Definition page (status : Z) (headers : dict string string) (url : string) : option Page :=
  Some {| pg_status := status; pg_headers := headers; pg_cookies := []; pg_body := []; pg_url := url |}.
Definition start : World := {| wd_log := []; wd_script := [
  page 302 [("location", "https://b.example/x")] "https://a.example/"; page 503 [] "https://b.example/x"; page 200 [] "https://b.example/x"] |}.
Definition idle : HttpState := default {| ad_last_result := None; ad_redirect_hops := []; ad_attempt_evidences := []; ad_cached_artifact_ref := None;
  ad_extra_headers := []; ad_suppress_jar_cookies := false; ad_attempt_counter := 0; ad_last_retry_after := None |}
  (match new_http_adapter true false false with Ok a => Some a | Raise _ => None end).
Definition digest (s : string) : string := "0123456789abcdef".
Abbreviation fetch w := (execute no_dns (fun _ => None) digest (fun _ => None) ops ports cfg page_request "policy:1" (idle, w)).

Definition headers_sent : list (string * dict string string) := map (fun rq => (rq_url rq, rq_headers rq)) (sent (wd_log (fetch start).2.2)).
End HttpDemo.
Abbreviation demo_run thm := (thm no_dns (fun _ : string => None) HttpDemo.digest (fun _ : string => None) _ _ _ HttpDemo.ops HttpDemo.ports
  HttpDemo.ports_laws HttpDemo.cfg HttpDemo.page_request "policy:1" HttpDemo.idle HttpDemo.start).

Lemma every_request_admitted_witness :
  validate_request no_dns HttpDemo.page_request = Ok HttpDemo.page_request /\
  exists t, trace (HttpLaws := HttpDemo.ports_laws) (HttpDemo.fetch HttpDemo.start).2.2 = [] ++ t /\
    crawl no_dns (fun _ => None) HttpDemo.ops HttpDemo.cfg HttpDemo.page_request
      (answered HttpDemo.ports HttpDemo.cfg HttpDemo.page_request) 2 "https://a.example/" [("Authorization", "Bearer t0k3n")] false t /\
    admitted HttpDemo.cfg None t /\ (length (sent t) <= 4)%nat.
Proof. split; [by vm_compute|]. exact (demo_run (@every_request_admitted) ltac:(by vm_compute)). Defined.

Lemma credentials_stay_with_origin_witness :
  exists t, trace (HttpLaws := HttpDemo.ports_laws) (HttpDemo.fetch HttpDemo.start).2.2 = [] ++ t /\
    (forall rq o o', rq ∈ sent t -> web_origin no_dns (rq_url rq) = Some o ->
      web_origin no_dns (nq_url HttpDemo.page_request) = Some o' -> o <> o' ->
      jar_only (answered HttpDemo.ports HttpDemo.cfg HttpDemo.page_request) (rq_url rq) (rq_headers rq)) /\
    (forall pre rq rq' post o o', sent t = pre ++ rq :: rq' :: post ->
      web_origin no_dns (rq_url rq) = Some o -> web_origin no_dns (rq_url rq') = Some o' -> o <> o' -> credential_free (rq_headers rq')).
Proof. exact (demo_run (@credentials_stay_with_origin) ltac:(by vm_compute)). Defined.

Lemma every_request_evidenced_witness : let s := (HttpDemo.fetch HttpDemo.start).2 in
  exists t result, trace (HttpLaws := HttpDemo.ports_laws) s.2 = [] ++ t /\ ad_last_result s.1 = Some result /\
    evidenced HttpDemo.ops 0 (sent t) (nc_attempt_evidences result) /\
    forall ev, ev ∈ nc_attempt_evidences result -> _validate_redacted_headers (ne_request_headers_redacted ev) = Ok tt.
Proof.
  assert (is_ok (HttpDemo.fetch HttpDemo.start).1 = true) as Hok by (vm_compute; reflexivity).
  destruct (HttpDemo.fetch HttpDemo.start) as [r s] eqn:Hrun.
  exact (demo_run (@every_request_evidenced) r s ltac:(by vm_compute) Hrun (or_introl Hok)).
Defined.

(** The trace of that run: a redirect to another origin, a retry there. *)
Example demo_headers : HttpDemo.headers_sent =
  [("https://a.example/", [("User-Agent", "VeraCrawl"); ("Authorization", "Bearer t0k3n"); ("Cookie", "session=s3cr3t")]);
   ("https://b.example/x", [("User-Agent", "VeraCrawl")]);
   ("https://b.example/x", [("User-Agent", "VeraCrawl"); ("Cookie", "session=s3cr3t")])].
Proof. by vm_compute. Qed.

(** ** What the code does besides *)

(** The suppression of the jar covers the first attempt of the next hop only:
    its retry has the jar's cookies. *)
Lemma retry_restores_jar_cookies : exists first retry,
  drop 1 (sent (HttpDemo.wd_log (HttpDemo.fetch HttpDemo.start).2.2)) = [first; retry] /\
  rq_url first = rq_url retry /\ dict_get (rq_headers first) "Cookie" = None /\
  dict_get (rq_headers retry) "Cookie" = Some "session=s3cr3t".
Proof. do 2 eexists. split; [by vm_compute|by vm_compute]. Qed.

(** A status outside 100..599 has been requested and answered, but the evidence
    of it is refused: [execute] raises [ValidationError] and publishes
    nothing. *)
Lemma odd_status_publishes_nothing :
  let w := {| HttpDemo.wd_log := []; HttpDemo.wd_script := [HttpDemo.page 999 [] "https://a.example/"] |} in
  let '(r, (a, w')) := HttpDemo.fetch w in
  r = Raise (ValidationError "attempt evidence response_status must be a valid HTTP status") /\
  ad_last_result a = None /\ length (sent (HttpDemo.wd_log w')) = 1%nat.
Proof. by vm_compute. Qed.

(** A redirect to a URL that httpx refuses, which the policy of redirects lets
    pass: [httpx.InvalidURL] is no [HTTPError], so it leaves [execute] as it
    is, with neither evidence nor a partial result for the fetch. *)
Lemma invalid_url_publishes_nothing :
  let w := {| HttpDemo.wd_log := []; HttpDemo.wd_script := [HttpDemo.page 302 [("location", "https://b.example/x")] "https://a.example/"; None] |} in
  let '(r, (a, w')) := HttpDemo.fetch w in
  r = Raise (ForeignError "httpx.InvalidURL") /\ ad_last_result a = None /\
  length (sent (HttpDemo.wd_log w')) = 2%nat /\ length (ad_attempt_evidences a) = 1%nat.
Proof. by vm_compute. Qed.

(** A successful response with an empty media type is fetched and evidenced, but
    its contract is refused: again nothing is published. *)
Lemma empty_media_type_publishes_nothing :
  let w := {| HttpDemo.wd_log := []; HttpDemo.wd_script := [HttpDemo.page 200 [("content-type", ";charset=utf-8")] "https://a.example/"] |} in
  let '(r, (a, w')) := HttpDemo.fetch w in
  r = Raise (ValidationError "successful network response requires raw artifact metadata") /\
  ad_last_result a = None /\ length (ad_attempt_evidences a) = 1%nat.
Proof. by vm_compute. Qed.

(** The check of private hosts reads addresses, it resolves no names: the short
    form of an address and a final dot pass. *)
Lemma private_by_name_passes :
  _is_private_network_url no_dns (fun _ => None) "http://127.0.0.1/" = Ok true /\
  _is_private_network_url no_dns (fun _ => None) "http://localhost/" = Ok true /\
  _is_private_network_url no_dns (fun _ => None) "http://127.1/" = Ok false /\
  _is_private_network_url no_dns (fun _ => None) "http://localhost./" = Ok false.
Proof. by vm_compute. Qed.
