(* ===== verification/CrawlContracts.v ===== *)
(** * The contracts of the external crawl

    The job spec ([contracts/crawl_job.py]), the planner's seeds, priors,
    requests and decisions ([contracts/crawl_planner.py]), the observations of a
    run and the feedback derived from them ([contracts/graph_observation.py],
    [contracts/planner_observation_feedback.py]) and the outcomes of the fetcher
    and extractor ports, with their validators. A [ValueError] of a validator is
    the [ValidationError] pydantic makes of it. *)
From Stdlib Require Import Ascii Strings.Byte Floats.
From S2P Require Import Prelude PyDict PyStr PyFloat Contracts UrlLib Url RateLimiter PriorityFrontier CredScope HttpAdapter.
Local Open Scope Z_scope.

(** [_require(cond, msg)] *)
Definition _require (cond : bool) (msg : string) : res unit := guard cond (ValidationError msg).

(** [urlsplit] inside a validator. *)
Definition split_valid (env : NetEnv) (url : string) : res SplitResult :=
  match urlsplit env url with
  | Raise e => Raise (if subclass_value_error e then ValidationError "invalid URL" else e)
  | Ok p => Ok p
  end.

Definition require_http (env : NetEnv) (msg : string) (url : string) : res unit := http_url env url msg.

(** [len(set(l)) == len(l)] *)
Definition no_duplicates (l : list string) : bool := bool_decide (NoDup l).

(** ** The job spec *)

Definition MAX_PAGES_HARD_CAP : Z := 100000.
Definition MAX_DEPTH_HARD_CAP : Z := 32.
Definition MAX_RUNTIME_SECONDS_HARD_CAP : Z := 24 * 60 * 60.
Definition PER_ORIGIN_CONCURRENCY_HARD_CAP : Z := 16.
Definition RATE_LIMIT_RPM_HARD_CAP : Z := 600.

Inductive RobotsPolicy := OBEY | WARN | DENY_WITHOUT_ROBOTS.
#[export] Instance RobotsPolicy_eq_dec : EqDecision RobotsPolicy.
Proof. solve_decision. Defined.
Inductive PrivateNetworkPolicy := DENY | ALLOW_LOOPBACK_ONLY.
#[export] Instance PrivateNetworkPolicy_eq_dec : EqDecision PrivateNetworkPolicy.
Proof. solve_decision. Defined.
Inductive ExtractionMode := MODE_NONE | DETERMINISTIC | LLM_ASSISTED.
#[export] Instance ExtractionMode_eq_dec : EqDecision ExtractionMode.
Proof. solve_decision. Defined.
Inductive OutputFormat := JSONL | JSON.

Record RateLimitSpec := { rl_requests_per_minute : Z; rl_crawl_delay_seconds : option float }.
Record ArtifactPolicySpec := {
  ar_store_raw_html : bool; ar_store_headers : bool; ar_store_screenshots : bool; ar_store_documents : bool }.
Record ExtractionSpec := {
  ex_mode : ExtractionMode; ex_schema_ref : option string; ex_exploratory_schema_allowed : bool; ex_ocr_language : string }.
Record OutputSpec := { ou_format : OutputFormat; ou_include_raw_refs : bool; ou_include_evidence : bool }.

Record CrawlJobSpec := {
  js_id : string;
  js_project_id : string;
  js_objective : string;
  js_seed_urls : list string;
  js_allowed_domains : list string;
  js_denied_domains : list string;
  js_max_depth : Z;
  js_max_pages : Z;
  js_max_runtime_seconds : Z;
  js_per_origin_concurrency : Z;
  js_rate_limit : RateLimitSpec;
  js_source_adapters : list AdapterType;
  js_robots_policy : RobotsPolicy;
  js_private_network_policy : PrivateNetworkPolicy;
  js_artifact_policy : ArtifactPolicySpec;
  js_extraction : ExtractionSpec;
  js_output : OutputSpec }.

(** [Field(ge=lo, le=hi)] *)
Definition in_range (lo hi n : Z) : bool := (lo <=? n) && (n <=? hi).
Definition field (cond : bool) (name : string) : res unit := guard cond (ValidationError name).

Definition validate_rate_limit (r : RateLimitSpec) : res unit :=
  do? field (in_range 1 RATE_LIMIT_RPM_HARD_CAP (rl_requests_per_minute r)) "requests_per_minute" in
  field (if rl_crawl_delay_seconds r is Some d then PrimFloat.leb 0 d && PrimFloat.leb d 600 else true) "crawl_delay_seconds".

Definition validate_extraction (x : ExtractionSpec) : res unit :=
  do? _require (negb (bool_decide (ex_mode x = LLM_ASSISTED) && negb (if ex_schema_ref x is Some _ then true else false)
                      && negb (ex_exploratory_schema_allowed x)))
        "extraction: llm_assisted without schema_ref requires exploratory_schema_allowed=true" in
  _require (non_blank (ex_ocr_language x)) "extraction.ocr_language must be non-blank".

Definition _looks_like_domain (value : string) : bool :=
  if negb (truthy_str value) || str_contains "/" value || str_contains "://" value || str_contains " " value then false
  else str_contains "." value || bool_decide (value = "localhost").

Definition validate_seed_urls_scheme (env : NetEnv) (urls : list string) : res unit :=
  for_each (fun url =>
    let? parsed := split_valid env url in
    do? _require (bool_decide (sr_scheme parsed ∈ ["http"; "https"])) "seed_urls entry must be http(s)" in
    _require (truthy_opt (hostname parsed)) "seed_urls entry missing hostname") urls.

Definition validate_domain_shape (domains : list string) : res unit :=
  for_each (fun domain => _require (_looks_like_domain domain) "allowed_domains/denied_domains entry must be a bare hostname") domains.

(** [host not in allowed and not any(host == a or host.endswith("." + a) ...)], negated. *)
Definition seed_in_domains (allowed : list string) (host : string) : bool :=
  bool_decide (host ∈ allowed) || existsb (fun a => bool_decide (host = a) || endswith ("." +:+ a) host) allowed.

Definition validate_cross_field_invariants (env : NetEnv) (s : CrawlJobSpec) : res unit :=
  let allowed := map lower (js_allowed_domains s) in
  do? for_each (fun url =>
        let? parsed := split_valid env url in
        _require (seed_in_domains allowed (lower (default "" (hostname parsed)))) "seed_urls entry is outside allowed_domains")
      (js_seed_urls s) in
  _require (negb (bool_decide (BROWSER_SNAPSHOT ∈ js_source_adapters s)) || ar_store_screenshots (js_artifact_policy s))
    "browser adapter requires artifact_policy.store_screenshots=true".

Definition validate_spec (env : NetEnv) (s : CrawlJobSpec) : res CrawlJobSpec :=
  do? field (truthy_str (js_id s)) "id" in
  do? field (truthy_str (js_project_id s)) "project_id" in
  do? field (truthy_str (js_objective s)) "objective" in
  do? field (truthy_list (js_seed_urls s)) "seed_urls" in
  do? field (truthy_list (js_allowed_domains s)) "allowed_domains" in
  do? field (in_range 0 MAX_DEPTH_HARD_CAP (js_max_depth s)) "max_depth" in
  do? field (in_range 1 MAX_PAGES_HARD_CAP (js_max_pages s)) "max_pages" in
  do? field (in_range 1 MAX_RUNTIME_SECONDS_HARD_CAP (js_max_runtime_seconds s)) "max_runtime_seconds" in
  do? field (in_range 1 PER_ORIGIN_CONCURRENCY_HARD_CAP (js_per_origin_concurrency s)) "per_origin_concurrency" in
  do? validate_rate_limit (js_rate_limit s) in
  do? field (truthy_list (js_source_adapters s)) "source_adapters" in
  do? validate_extraction (js_extraction s) in
  do? validate_seed_urls_scheme env (js_seed_urls s) in
  do? validate_domain_shape (js_allowed_domains s) in
  do? validate_domain_shape (js_denied_domains s) in
  do? validate_cross_field_invariants env s in
  Ok s.

(** ** The planner *)

Record PlannedSeed := {
  ps_canonical_url : string;
  ps_priority_score : float;
  ps_adapter_hint : AdapterType;
  ps_rationale_ref : Ref }.
Record AdapterPrior := { ap_adapter_type : AdapterType; ap_weight : float; ap_rationale_ref : Ref }.
Record PlanRequest := {
  pq_id : string;
  pq_run_ref : Ref;
  pq_objective_ref : Ref;
  pq_seed_urls : list string;
  pq_budget_ref : Ref;
  pq_policy_snapshot_ref : Ref;
  pq_policy_decision_refs : list Ref;
  pq_replay_config_ref : Ref;
  pq_observed_state_refs : list Ref }.
Record PlanDecision := {
  pd_id : string;
  pd_request_ref : Ref;
  pd_planner_adapter_ref : Ref;
  pd_planned_seeds : list PlannedSeed;
  pd_adapter_priors : list AdapterPrior;
  pd_frontier_priority_hints : list FrontierPriorityHint;
  pd_extraction_strategy_refs : list Ref;
  pd_replay_refs : list Ref;
  pd_policy_decision_refs : list Ref }.

Definition unit_interval (x : float) : bool := PrimFloat.leb 0 x && PrimFloat.leb x 1.

Definition validate_planned_seed (env : NetEnv) (s : PlannedSeed) : res PlannedSeed :=
  do? require_http env "canonical_url must be absolute http(s)" (ps_canonical_url s) in
  do? _require (unit_interval (ps_priority_score s)) "priority_score must be in [0.0, 1.0]" in
  do? _require (truthy_str (strip (ps_rationale_ref s))) "rationale_ref must be non-blank" in
  Ok s.

Definition validate_adapter_prior (p : AdapterPrior) : res AdapterPrior :=
  do? _require (unit_interval (ap_weight p)) "weight must be in [0.0, 1.0]" in
  do? _require (truthy_str (strip (ap_rationale_ref p))) "rationale_ref must be non-blank" in
  Ok p.

Definition validate_plan_request (env : NetEnv) (q : PlanRequest) : res PlanRequest :=
  do? for_each (fun ref => _require (truthy_str (strip ref)) "must be non-blank")
        [pq_id q; pq_run_ref q; pq_objective_ref q; pq_budget_ref q; pq_policy_snapshot_ref q; pq_replay_config_ref q] in
  do? _require (truthy_list (pq_seed_urls q)) "seed_urls must be non-empty" in
  do? for_each (require_http env "seed_urls must be absolute http(s) URLs") (pq_seed_urls q) in
  do? _require (no_duplicates (pq_seed_urls q)) "seed_urls must not contain duplicate URLs" in
  do? _require (truthy_list (pq_policy_decision_refs q)) "policy_decision_refs must be non-empty" in
  Ok q.

(** The loop over [adapter_priors] with its [seen] set. *)
Fixpoint distinct_adapters (seen : list AdapterType) (priors : list AdapterPrior) : res unit :=
  match priors with
  | [] => Ok tt
  | p :: priors =>
      do? _require (bool_decide (ap_adapter_type p ∉ seen)) "adapter_priors duplicate adapter_type" in
      distinct_adapters (ap_adapter_type p :: seen) priors
  end.

(** [sum(p.weight for p in priors)] *)
Definition weight_sum (priors : list AdapterPrior) : float := foldl PrimFloat.add 0%float (map ap_weight priors).

(** [1.0 + 1e-9] *)
Definition _SUM_TOL : float := PrimFloat.add 1 0x1.12e0be826d695p-30.

Definition validate_plan_decision (d : PlanDecision) : res PlanDecision :=
  do? _require (truthy_str (strip (pd_request_ref d))) "request_ref must be non-blank" in
  do? _require (truthy_str (strip (pd_planner_adapter_ref d))) "planner_adapter_ref must be non-blank" in
  do? _require (truthy_list (pd_planned_seeds d)) "planned_seeds must be non-empty" in
  do? _require (truthy_list (pd_adapter_priors d)) "adapter_priors must be non-empty" in
  do? distinct_adapters [] (pd_adapter_priors d) in
  do? _require (PrimFloat.leb (weight_sum (pd_adapter_priors d)) _SUM_TOL) "adapter_priors weight sum must be <= 1.0" in
  do? _require (bool_decide (pd_request_ref d ∈ pd_replay_refs d)) "replay_refs must contain request_ref" in
  do? _require (bool_decide (pd_planner_adapter_ref d ∈ pd_replay_refs d)) "replay_refs must contain planner_adapter_ref" in
  do? _require (truthy_list (pd_policy_decision_refs d)) "policy_decision_refs must be non-empty" in
  Ok d.

(** ** Observations of a run *)

(** A clock value with its offset from UTC in microseconds, if it has one. *)
Record clock_value := { cv_us : Z; cv_offset : option Z }.

Definition _utc (name : string) (v : clock_value) : res unit :=
  match cv_offset v with
  | None => Raise (ValidationError (name +:+ " must be timezone-aware"))
  | Some offset => _require (offset =? 0) (name +:+ " must be UTC")
  end.

Record UrlObservedEvent := {
  uo_id : string;
  uo_run_ref : Ref;
  uo_canonical_url : string;
  uo_depth : Z;
  uo_parent_canonical_url : option string;
  uo_source_ref : Ref;
  uo_observed_at : clock_value }.
Record RedirectObservedEvent := {
  ro_id : string;
  ro_run_ref : Ref;
  ro_from_canonical_url : string;
  ro_to_canonical_url : string;
  ro_status_code : Z;
  ro_observed_at : clock_value }.
(** [CanonicalObservedEvent]; its [source_kind] is left out. *)
Record CanonicalObservedEvent := {
  co_id : string;
  co_run_ref : Ref;
  co_linked_canonical_url : string;
  co_canonical_target_url : string;
  co_observed_at : clock_value }.
Record PageStructureObservedEvent := {
  po_id : string;
  po_run_ref : Ref;
  po_page_canonical_url : string;
  po_discovered_link_count : Z;
  po_discovered_canonical_urls : list string;
  po_observed_at : clock_value }.
Record GraphObservationSnapshot := {
  gs_id : string;
  gs_run_ref : Ref;
  gs_url_observed_events : list UrlObservedEvent;
  gs_redirect_observed_events : list RedirectObservedEvent;
  gs_canonical_observed_events : list CanonicalObservedEvent;
  gs_page_structure_observed_events : list PageStructureObservedEvent;
  gs_snapshot_at : clock_value }.

Definition _check_event_anchors (id : string) (run_ref : Ref) : res unit :=
  do? _require (truthy_str (strip id)) "id must be non-blank" in
  _require (truthy_str (strip run_ref)) "run_ref must be non-blank".

Definition validate_url_observed (env : NetEnv) (e : UrlObservedEvent) : res UrlObservedEvent :=
  do? _utc "observed_at" (uo_observed_at e) in
  do? _check_event_anchors (uo_id e) (uo_run_ref e) in
  do? _require (truthy_str (strip (uo_source_ref e))) "source_ref must be non-blank" in
  do? require_http env "canonical_url must be absolute http(s)" (uo_canonical_url e) in
  do? _require (0 <=? uo_depth e) "depth must be non-negative" in
  do? (if uo_parent_canonical_url e is Some p then require_http env "parent_canonical_url must be absolute http(s) when set" p else Ok tt) in
  Ok e.

Definition validate_redirect_observed (env : NetEnv) (e : RedirectObservedEvent) : res RedirectObservedEvent :=
  do? _utc "observed_at" (ro_observed_at e) in
  do? _check_event_anchors (ro_id e) (ro_run_ref e) in
  do? require_http env "from_canonical_url must be absolute http(s)" (ro_from_canonical_url e) in
  do? require_http env "to_canonical_url must be absolute http(s)" (ro_to_canonical_url e) in
  do? _require (negb (bool_decide (ro_from_canonical_url e = ro_to_canonical_url e)))
        "from_canonical_url must differ from to_canonical_url" in
  do? _require (in_range 300 399 (ro_status_code e)) "status_code must be in [300, 399]" in
  Ok e.

Definition validate_canonical_observed (env : NetEnv) (e : CanonicalObservedEvent) : res CanonicalObservedEvent :=
  do? _utc "observed_at" (co_observed_at e) in
  do? _check_event_anchors (co_id e) (co_run_ref e) in
  do? require_http env "linked_canonical_url must be absolute http(s)" (co_linked_canonical_url e) in
  do? require_http env "canonical_target_url must be absolute http(s)" (co_canonical_target_url e) in
  do? _require (negb (bool_decide (co_linked_canonical_url e = co_canonical_target_url e)))
        "linked_canonical_url must differ from canonical_target_url" in
  Ok e.

Definition validate_page_observed (env : NetEnv) (e : PageStructureObservedEvent) : res PageStructureObservedEvent :=
  do? _utc "observed_at" (po_observed_at e) in
  do? _check_event_anchors (po_id e) (po_run_ref e) in
  do? require_http env "page_canonical_url must be absolute http(s)" (po_page_canonical_url e) in
  do? _require (0 <=? po_discovered_link_count e) "discovered_link_count must be non-negative" in
  do? for_each (require_http env "discovered_canonical_urls must be absolute http(s)") (po_discovered_canonical_urls e) in
  do? _require (no_duplicates (po_discovered_canonical_urls e)) "discovered_canonical_urls must not contain duplicate URLs" in
  Ok e.

Definition validate_snapshot (s : GraphObservationSnapshot) : res GraphObservationSnapshot :=
  do? _utc "snapshot_at" (gs_snapshot_at s) in
  do? _check_event_anchors (gs_id s) (gs_run_ref s) in
  do? for_each (fun run_ref => _require (bool_decide (run_ref = gs_run_ref s)) "entry run_ref must match snapshot run_ref")
        (map uo_run_ref (gs_url_observed_events s) ++ map ro_run_ref (gs_redirect_observed_events s) ++
         map co_run_ref (gs_canonical_observed_events s) ++ map po_run_ref (gs_page_structure_observed_events s)) in
  Ok s.

(** ** The feedback of a snapshot *)

Record PlannerObservationFeedback := {
  fb_id : string;
  fb_run_ref : Ref;
  fb_redirect_neighbours : list string;
  fb_canonical_targets : list string;
  fb_page_neighbour_count_by_url : dict string Z }.

Definition validate_feedback (env : NetEnv) (f : PlannerObservationFeedback) : res PlannerObservationFeedback :=
  do? _require (truthy_str (strip (fb_id f))) "id must be non-blank" in
  do? _require (truthy_str (strip (fb_run_ref f))) "run_ref must be non-blank" in
  do? for_each (require_http env "redirect_neighbours must be absolute http(s)") (fb_redirect_neighbours f) in
  do? _require (no_duplicates (fb_redirect_neighbours f)) "redirect_neighbours must not contain duplicates" in
  do? for_each (require_http env "canonical_targets must be absolute http(s)") (fb_canonical_targets f) in
  do? _require (no_duplicates (fb_canonical_targets f)) "canonical_targets must not contain duplicates" in
  do? for_each (fun '(u, c) =>
        do? require_http env "page_neighbour_count_by_url key must be absolute http(s)" u in
        _require (0 <=? c) "page_neighbour_count_by_url must be non-negative") (fb_page_neighbour_count_by_url f) in
  Ok f.

(** The loop that keeps first occurrences, with its [seen] set. *)
Fixpoint first_seen (seen : gset string) (urls : list string) : list string :=
  match urls with
  | [] => []
  | u :: urls => if decide (u ∈ seen) then first_seen seen urls else u :: first_seen ({[u]} ∪ seen) urls
  end.

Definition derive_planner_observation_feedback (env : NetEnv) (id : string) (run_ref : Ref) (s : GraphObservationSnapshot)
    : res PlannerObservationFeedback :=
  do? guard (bool_decide (gs_run_ref s = run_ref))
        (ValueError "derive_planner_observation_feedback: run_ref must match snapshot.run_ref") in
  validate_feedback env
    {| fb_id := id; fb_run_ref := run_ref;
       fb_redirect_neighbours := first_seen ∅ (map ro_to_canonical_url (gs_redirect_observed_events s));
       fb_canonical_targets := first_seen ∅ (map co_canonical_target_url (gs_canonical_observed_events s));
       fb_page_neighbour_count_by_url :=
         foldl (fun d e => dict_set d (po_page_canonical_url e) (po_discovered_link_count e)) [] (gs_page_structure_observed_events s) |}.

(** ** The fetcher *)

Record CrawlRedirectHop := { ch_from_url : string; ch_to_url : string; ch_status_code : Z }.

(** [FetchOutcome]; [elapsed_ms] is left out. *)
Record FetchOutcome := {
  fo_requested_url : string;
  fo_final_url : string;
  fo_status_code : Z;
  fo_headers : dict string string;
  fo_body : list Byte.byte;
  fo_content_type : string;
  fo_redirect_chain : list string;
  fo_redirect_history : list CrawlRedirectHop }.

(** ** Lemmas: the feedback of valid observations is valid *)

Lemma first_seen_spec seen urls : NoDup (first_seen seen urls) /\
  (forall u, u ∈ first_seen seen urls <-> u ∈ urls /\ u ∉ seen).
Proof.
  revert seen. induction urls as [|u urls IH]; intros seen; simpl.
  - split; [constructor|]. intros x. rewrite elem_of_nil. tauto.
  - case_decide as Hu.
    + destruct (IH seen) as [Hn He]. split; [done|]. intros x. rewrite He, elem_of_cons. naive_solver.
    + destruct (IH ({[u]} ∪ seen)) as [Hn He]. split.
      * apply NoDup_cons. split; [|done]. rewrite He. set_solver.
      * intros x. rewrite !elem_of_cons, He. set_unfold. destruct (decide (x = u)); naive_solver.
Qed.

(** What the observers accepted. *)
Definition observed_valid (env : NetEnv) (s : GraphObservationSnapshot) : Prop :=
  (forall e, e ∈ gs_redirect_observed_events s -> validate_redirect_observed env e = Ok e) /\
  (forall e, e ∈ gs_canonical_observed_events s -> validate_canonical_observed env e = Ok e) /\
  (forall e, e ∈ gs_page_structure_observed_events s -> validate_page_observed env e = Ok e).

Lemma dict_of_pages (f : PageStructureObservedEvent -> string) (g : PageStructureObservedEvent -> Z) events d kv :
  kv ∈ foldl (fun d e => dict_set d (f e) (g e)) d events -> kv ∈ d \/ exists e, e ∈ events /\ kv = (f e, g e).
Proof.
  revert d. induction events as [|e events IH]; intros d; simpl; [by left|]. intros [H|(e' & ? & ->)]%IH.
  - apply dict_set_in in H as [->|H]; [right; exists e; split; [left|done]|by left].
  - right. exists e'. split; [by right|done].
Qed.

Lemma http_url_ok env url msg u : http_url env url msg = Ok u <-> _is_http_url env url = Ok true.
Proof.
  unfold http_url. destruct u. destruct (_is_http_url env url) as [b|x]; [rewrite guard_ok; split; congruence|].
  by destruct (subclass_value_error x).
Qed.

Lemma for_each_intro {A} (f : A -> res unit) l : (forall x, x ∈ l -> f x = Ok tt) -> for_each f l = Ok tt.
Proof. apply for_each_ok. Qed.

(** Validators are sequences of checks. *)
Lemma checked {A} (m : res unit) (k : res A) : m = Ok tt -> (do? m in k) = k.
Proof. by intros ->. Qed.

Lemma valid_redirect env e : validate_redirect_observed env e = Ok e -> _is_http_url env (ro_to_canonical_url e) = Ok true.
Proof. unfold validate_redirect_observed, require_http. intros H. run_m H. by eapply http_url_ok. Qed.
Lemma valid_canonical env e : validate_canonical_observed env e = Ok e -> _is_http_url env (co_canonical_target_url e) = Ok true.
Proof. unfold validate_canonical_observed, require_http. intros H. run_m H. by eapply http_url_ok. Qed.
Lemma valid_page env e : validate_page_observed env e = Ok e ->
  _is_http_url env (po_page_canonical_url e) = Ok true /\ 0 <= po_discovered_link_count e.
Proof.
  unfold validate_page_observed, require_http, _require. intros H. run_m H. split; [by eapply http_url_ok|].
  repeat match goal with H : guard _ _ = Ok _ |- _ => apply guard_ok in H end. lia.
Qed.
Lemma valid_snapshot s : validate_snapshot s = Ok s -> truthy_str (strip (gs_run_ref s)) = true.
Proof.
  unfold validate_snapshot, _check_event_anchors, _require. intros H. run_m H. run_m Hr0. by apply guard_ok in Hr0.
Qed.

(** The feedback of a snapshot of valid events is never refused by its own
    contract. *)
Theorem derive_feedback_total env id s : observed_valid env s -> validate_snapshot s = Ok s -> truthy_str (strip id) = true ->
  exists fb, derive_planner_observation_feedback env id (gs_run_ref s) s = Ok fb /\
    NoDup (fb_redirect_neighbours fb) /\
    (forall u, u ∈ fb_redirect_neighbours fb <-> exists e, e ∈ gs_redirect_observed_events s /\ u = ro_to_canonical_url e) /\
    (forall u, u ∈ fb_canonical_targets fb <-> exists e, e ∈ gs_canonical_observed_events s /\ u = co_canonical_target_url e).
Proof.
  intros (Hr & Hc & Hp) Hs%valid_snapshot Hid.
  assert (forall A (f : A -> string) (l : list A) u, u ∈ first_seen ∅ (map f l) <-> exists e, e ∈ l /\ u = f e) as Hin.
  { intros A f l u. rewrite (proj2 (first_seen_spec ∅ (map f l))), list_elem_of_fmap. set_solver. }
  unfold derive_planner_observation_feedback. rewrite checked by by rewrite bool_decide_true.
  set (fb := Build_PlannerObservationFeedback _ _ _ _ _).
  exists fb. split; [|split_and!; [apply first_seen_spec|intros u; apply Hin|intros u; apply Hin]].
  unfold validate_feedback, _require, no_duplicates. simpl.
  rewrite !checked; [done|..]; rewrite ?guard_ok, ?bool_decide_eq_true; try done; try apply first_seen_spec; apply for_each_intro.
  - intros [u c] [H|(e & He & [= -> ->])]%dict_of_pages; [by apply elem_of_nil in H|].
    destruct (valid_page _ _ (Hp e He)) as [? ?]. rewrite checked by by apply http_url_ok. apply guard_ok. lia.
  - intros u (e & He & ->)%Hin. apply http_url_ok, valid_canonical; auto.
  - intros u (e & He & ->)%Hin. apply http_url_ok, valid_redirect; auto.
Qed.
