(* ===== verification/Normalize.v ===== *)
(** * Documents and their anchors

    [external_crawl/normalize_document.py] and [external_crawl/link_extractor.py].
    The tokens of [html.parser], with references converted, are a parameter, as
    is SHA-256; the PDF extractor is a port. A text is its UTF-8 bytes; offsets
    count characters, as [len] does. Theorem: every anchor of a document cites
    the span of the text it was made from, by offset and by digest. *)
From Stdlib Require Import Ascii Strings.Byte.
From S2P Require Import Prelude PyStr UrlLib UrlJoin.
Local Open Scope Z_scope.

(** ** Characters of a text *)

(** A UTF-8 continuation byte. *)
Definition continuation (c : ascii) : bool := ((128 <=? N_of_ascii c) && (N_of_ascii c <? 192))%N.

(** [len(s)] *)
Fixpoint char_length (s : string) : nat :=
  match s with EmptyString => O | String c s => (if continuation c then 0 else 1) + char_length s end.

Fixpoint drop_continuation (s : string) : string :=
  match s with EmptyString => "" | String c s' => if continuation c then drop_continuation s' else s end.
Fixpoint take_continuation (s : string) : string :=
  match s with EmptyString => "" | String c s' => if continuation c then String c (take_continuation s') else "" end.

(** [s[n:]] and [s[:n]] *)
Fixpoint drop_chars (n : nat) (s : string) : string :=
  match n, s with
  | O, _ => s
  | S n, EmptyString => ""
  | S n, String _ s => drop_chars n (drop_continuation s)
  end.
Fixpoint take_chars (n : nat) (s : string) : string :=
  match n, s with
  | O, _ => ""
  | S n, EmptyString => ""
  | S n, String c s => String c (take_continuation s +:+ take_chars n (drop_continuation s))
  end.

(** [s[start:end]] for offsets that are not negative *)
Definition char_slice (s : string) (start end_ : Z) : string :=
  take_chars (Z.to_nat (end_ - start)) (drop_chars (Z.to_nat start) s).

(** [b.decode("utf-8", errors="replace")], and [b.decode("utf-8")]: [None] for
    [UnicodeDecodeError]. *)
Definition decode_replace (body : list Byte.byte) : string := utf8_decode_replace [] "" (String.string_of_list_byte body).
Definition decode_strict (body : list Byte.byte) : option string :=
  let s := String.string_of_list_byte body in if bool_decide (utf8_decode_replace [] "" s = s) then Some s else None.

(** [s.split()] *)
Fixpoint split_words (word : string) (s : string) : list string :=
  match s with
  | EmptyString => if truthy_str word then [word] else []
  | String c s =>
      if is_space c then (if truthy_str word then word :: split_words "" s else split_words "" s)
      else split_words (word +:+ String c "") s
  end.

(** ** Documents *)

Record NormalizedDocumentAnchor := {
  na_page_number : option Z;
  na_char_offset_start : Z;
  na_char_offset_end : Z;
  na_text_hash : string;
  na_raw_artifact_ref : string;
  na_redirect_lineage : list string }.

Record NormalizedDocument := {
  nd_canonical_url : string;
  nd_content_type : string;
  nd_raw_artifact_ref : string;
  nd_text : string;
  nd_anchors : list NormalizedDocumentAnchor;
  nd_status : string;
  nd_reason : option string }.

(** [ports/pdf_text_extractor.py] *)
Record ExtractedPdfPage := { pp_page_number : Z; pp_text : string }.
Record ExtractedPdfDocument := { pd_pages : list ExtractedPdfPage; pd_full_text : string }.

Inductive HtmlToken :=
  | StartTag (tag : string) (attrs : list (string * option string))
  | EndTag (tag : string)
  | Data (data : string).

(** [_TextCollector]: the chunks, last first, and the depth of skipped tags. *)
Definition _SKIP_TAGS : list string := ["script"; "style"; "noscript"; "template"].
Record TextCollector := { tc_chunks : list string; tc_skip_depth : Z }.
Definition collect_text (c : TextCollector) (token : HtmlToken) : TextCollector :=
  match token with
  | StartTag tag _ =>
      if bool_decide (lower tag ∈ _SKIP_TAGS) then {| tc_chunks := tc_chunks c; tc_skip_depth := tc_skip_depth c + 1 |} else c
  | EndTag tag =>
      if bool_decide (lower tag ∈ _SKIP_TAGS) && (0 <? tc_skip_depth c)
      then {| tc_chunks := tc_chunks c; tc_skip_depth := tc_skip_depth c - 1 |} else c
  | Data data =>
      if negb (tc_skip_depth c =? 0) then c else {| tc_chunks := data :: tc_chunks c; tc_skip_depth := tc_skip_depth c |}
  end.
Definition collected_text (c : TextCollector) : string := join " " (split_words "" (String.concat "" (rev (tc_chunks c)))).

Section Normalize.
Context (html_tokens : string -> option (list HtmlToken)) (sha256_hexdigest : string -> string).

Definition _hash (text : string) : string := sha256_hexdigest text.

Definition _ok (canonical_url content_type raw_artifact_ref text : string) (redirect_lineage : list string) : NormalizedDocument :=
  {| nd_canonical_url := canonical_url; nd_content_type := content_type; nd_raw_artifact_ref := raw_artifact_ref; nd_text := text;
     nd_anchors := [{| na_page_number := None; na_char_offset_start := 0; na_char_offset_end := Z.of_nat (char_length text);
                       na_text_hash := _hash text; na_raw_artifact_ref := raw_artifact_ref; na_redirect_lineage := redirect_lineage |}];
     nd_status := "ok"; nd_reason := None |}.

Definition _needs_review (canonical_url content_type raw_artifact_ref reason : string) : NormalizedDocument :=
  {| nd_canonical_url := canonical_url; nd_content_type := content_type; nd_raw_artifact_ref := raw_artifact_ref; nd_text := "";
     nd_anchors := []; nd_status := "needs_review"; nd_reason := Some reason |}.

(** The loop over the pages, [cursor] into the joined text. *)
Fixpoint page_anchors (raw_artifact_ref : string) (redirect_lineage : list string) (cursor : Z) (pages : list ExtractedPdfPage)
    : list NormalizedDocumentAnchor :=
  match pages with
  | [] => []
  | page :: pages =>
      let end_ := cursor + Z.of_nat (char_length (pp_text page)) in
      {| na_page_number := Some (pp_page_number page); na_char_offset_start := cursor; na_char_offset_end := end_;
         na_text_hash := _hash (pp_text page); na_raw_artifact_ref := raw_artifact_ref; na_redirect_lineage := redirect_lineage |}
      :: page_anchors raw_artifact_ref redirect_lineage (end_ + 2) pages
  end.

Definition _normalize_pdf (canonical_url content_type raw_artifact_ref : string) (extracted : res ExtractedPdfDocument)
    (redirect_lineage : list string) : NormalizedDocument :=
  match extracted with
  | Raise _ => _needs_review canonical_url content_type raw_artifact_ref "PDF extraction failed"
  | Ok doc =>
      if negb (truthy_list (pd_pages doc))
      then _needs_review canonical_url content_type raw_artifact_ref "PDF contained zero pages after extraction"
      else {| nd_canonical_url := canonical_url; nd_content_type := content_type; nd_raw_artifact_ref := raw_artifact_ref;
              nd_text := pd_full_text doc; nd_anchors := page_anchors raw_artifact_ref redirect_lineage 0 (pd_pages doc);
              nd_status := "ok"; nd_reason := None |}
  end.

Context {E : Type}.

Definition normalize_document (canonical_url : string) (body : list Byte.byte) (content_type raw_artifact_ref : string)
    (pdf_extractor : option (list Byte.byte -> M E ExtractedPdfDocument)) (redirect_lineage : list string) : M E NormalizedDocument :=
  let lowered := lower content_type in
  if str_contains "html" lowered then
    ret (match html_tokens (decode_replace body) with
         | None => _needs_review canonical_url content_type raw_artifact_ref "html parse failed"
         | Some tokens =>
             let text := collected_text (foldl collect_text {| tc_chunks := []; tc_skip_depth := 0 |} tokens) in
             _ok canonical_url content_type raw_artifact_ref text redirect_lineage
         end)
  else if str_contains "plain" lowered || startswith "text/" lowered then
    ret (match decode_strict body with
         | None => _needs_review canonical_url content_type raw_artifact_ref "text body is not valid utf-8"
         | Some text => _ok canonical_url content_type raw_artifact_ref text redirect_lineage
         end)
  else if str_contains "pdf" lowered then
    match pdf_extractor with
    | None => ret (_needs_review canonical_url content_type raw_artifact_ref "PDF extraction requires a PdfTextExtractorPort; none supplied")
    | Some extract =>
        let* extracted := attempt (extract body) in
        ret (_normalize_pdf canonical_url content_type raw_artifact_ref extracted redirect_lineage)
    end
  else ret (_needs_review canonical_url content_type raw_artifact_ref "no normaliser for content_type").

(** ** Links: [_AnchorCollector] and [HtmlAnchorExtractor] *)

Fixpoint href_of (attrs : list (string * option string)) : option string :=
  match attrs with
  | [] => None
  | (key, Some value) :: attrs => if bool_decide (lower key = "href") && truthy_str value then Some value else href_of attrs
  | (_, None) :: attrs => href_of attrs
  end.
Definition collect_anchor (token : HtmlToken) : option string :=
  match token with StartTag tag attrs => if bool_decide (lower tag = "a") then href_of attrs else None | _ => None end.

Definition followable (href : string) : bool :=
  truthy_str href && negb (existsb (fun scheme => startswith scheme (lower href)) ["javascript:"; "mailto:"; "tel:"; "data:"]).

(** The loop over [collector.hrefs]; [urljoin] may raise. *)
Fixpoint absolute_links (env : NetEnv) (base_url : string) (hrefs : list string) : res (list string) :=
  match hrefs with
  | [] => Ok []
  | href :: hrefs =>
      let href := strip href in
      if negb (followable href) then absolute_links env base_url hrefs
      else
        let? url := urljoin env base_url href in
        let? urls := absolute_links env base_url hrefs in
        Ok (url :: urls)
  end.

Definition extract_links (env : NetEnv) (base_url : string) (body : list Byte.byte) (content_type : string) : res (list string) :=
  if negb (str_contains "html" (lower content_type)) then Ok []
  else match html_tokens (decode_replace body) with
       | None => Ok []
       | Some tokens => absolute_links env base_url (omap collect_anchor tokens)
       end.
End Normalize.

(** ** Slices *)

(** A text that starts with a character. *)
Definition whole (s : string) : Prop := drop_continuation s = s.

Lemma char_length_app s t : char_length (s +:+ t) = (char_length s + char_length t)%nat.
Proof. induction s as [|c s IH]; [done|]. rewrite append_cons. simpl. rewrite IH. lia. Qed.

Lemma split_continuation s : take_continuation s +:+ drop_continuation s = s.
Proof. induction s as [|c s IH]; [done|]. simpl. destruct (continuation c); [|done]. by rewrite append_cons, IH. Qed.

Lemma drop_continuation_app s t : whole t -> drop_continuation (s +:+ t) = drop_continuation s +:+ t.
Proof. intros Ht. induction s as [|c s IH]; [done|]. rewrite append_cons. simpl. by destruct (continuation c). Qed.
Lemma take_continuation_app s t : whole t -> take_continuation (s +:+ t) = take_continuation s.
Proof.
  intros Ht. induction s as [|c s IH]; [|rewrite append_cons; simpl; by destruct (continuation c); rewrite ?IH].
  rewrite append_nil_l. destruct t as [|c t]; [done|]. unfold whole in Ht. simpl in *. destruct (continuation c) eqn:Hc; [|done].
  exfalso. assert (String.length (drop_continuation t) <= String.length t)%nat as Hl; [|rewrite Ht in Hl; simpl in Hl; lia].
  clear. induction t as [|c t IH]; simpl; [done|]. destruct (continuation c); simpl; lia.
Qed.

Lemma drop_continuation_whole s : whole (drop_continuation s).
Proof. unfold whole. induction s as [|c s IH]; [done|]. simpl. destruct (continuation c) eqn:E; [done|]. simpl. by rewrite E. Qed.
Lemma char_length_drop s : char_length (drop_continuation s) = char_length s.
Proof. induction s as [|c s IH]; [done|]. simpl. destruct (continuation c) eqn:E; [by rewrite IH|]. simpl. by rewrite E. Qed.
Lemma whole_cons c s : whole (String c s) -> continuation c = false.
Proof.
  unfold whole. simpl. destruct (continuation c); [|done]. intros H.
  assert (String.length (drop_continuation s) <= String.length s)%nat as Hl; [|rewrite H in Hl; simpl in Hl; lia].
  clear. induction s as [|d s IH]; simpl; [done|]. destruct (continuation d); simpl; lia.
Qed.

Lemma drop_chars_app s t : whole s -> whole t -> drop_chars (char_length s) (s +:+ t) = t.
Proof.
  intros Hs Ht. remember (char_length s) as n eqn:En. revert s Hs En. induction n as [|n IH]; intros s Hs En.
  - destruct s as [|c s]; [done|]. simpl in En. by rewrite (whole_cons c s Hs) in En.
  - destruct s as [|c s]; [done|]. simpl in En. rewrite (whole_cons c s Hs) in En. rewrite append_cons. simpl.
    rewrite drop_continuation_app by done. apply IH; [apply drop_continuation_whole|]. rewrite char_length_drop. simpl in En. lia.
Qed.

Lemma take_chars_app s t : whole s -> whole t -> take_chars (char_length s) (s +:+ t) = s.
Proof.
  intros Hs Ht. remember (char_length s) as n eqn:En. revert s Hs En. induction n as [|n IH]; intros s Hs En.
  - destruct s as [|c s]; [by destruct t|]. simpl in En. by rewrite (whole_cons c s Hs) in En.
  - destruct s as [|c s]; [done|]. simpl in En. rewrite (whole_cons c s Hs) in En. rewrite append_cons. simpl.
    rewrite drop_continuation_app, take_continuation_app by done.
    rewrite IH; [by rewrite split_continuation|apply drop_continuation_whole|rewrite char_length_drop; simpl in En; lia].
Qed.

Lemma whole_app s t : whole s -> whole t -> whole (s +:+ t).
Proof.
  intros Hs Ht. destruct s as [|c s]; [done|]. unfold whole. rewrite append_cons. simpl. by rewrite (whole_cons c s Hs).
Qed.

Lemma char_slice_mid a s b : whole a -> whole s -> whole b ->
  char_slice (a +:+ s +:+ b) (Z.of_nat (char_length a)) (Z.of_nat (char_length a + char_length s)) = s.
Proof.
  intros Ha Hs Hb. unfold char_slice. replace (Z.to_nat (_ - _)) with (char_length s) by lia. rewrite Nat2Z.id.
  rewrite drop_chars_app by (try done; by apply whole_app). by apply take_chars_app.
Qed.

(** ** The anchors of a document cite its text *)

(** The anchor's offsets are those of a text with the anchor's digest. *)
Definition cites (sha256_hexdigest : string -> string) (text : string) (a : NormalizedDocumentAnchor) : Prop :=
  0 <= na_char_offset_start a <= na_char_offset_end a /\ na_char_offset_end a <= Z.of_nat (char_length text) /\
  na_text_hash a = sha256_hexdigest (char_slice text (na_char_offset_start a) (na_char_offset_end a)).

(** The document of a PDF extractor: the pages joined by blank lines. *)
Definition joined (doc : ExtractedPdfDocument) : Prop :=
  pd_full_text doc = join (String "010" (String "010" "")) (map pp_text (pd_pages doc)) /\
  Forall (fun p => whole (pp_text p)) (pd_pages doc).

Section Anchors.
Context (html_tokens : string -> option (list HtmlToken)) (sha256_hexdigest : string -> string).
#[local] Abbreviation blank_line := (String "010" (String "010" "")).

Lemma page_anchors_cite ref lineage pages : Forall (fun p => whole (pp_text p)) pages -> forall before, whole before ->
  Forall (cites sha256_hexdigest (before +:+ join blank_line (map pp_text pages)))
    (page_anchors sha256_hexdigest ref lineage (Z.of_nat (char_length before)) pages).
Proof.
  induction 1 as [|page pages Hp Hps IH]; intros before Hb; [constructor|]. cbn [page_anchors map].
  assert (exists rest, whole rest /\ (if pages is [] then rest = "" else rest = blank_line +:+ join blank_line (map pp_text pages)) /\
    join blank_line (pp_text page :: map pp_text pages) = pp_text page +:+ rest) as (rest & Hrest & Hshape & Hjoin).
  { destruct pages as [|p ps]; [exists ""; split_and!; [done|done|by rewrite append_nil_r]|].
    exists (blank_line +:+ join blank_line (map pp_text (p :: ps))). by split_and!. }
  rewrite Hjoin. constructor.
  - unfold cites. simpl. rewrite !char_length_app. split_and!; [lia..|]. unfold _hash.
    replace (Z.of_nat (char_length before) + Z.of_nat (char_length (pp_text page)))
      with (Z.of_nat (char_length before + char_length (pp_text page))) by lia.
    by rewrite char_slice_mid.
  - destruct pages as [|p ps]; [constructor|]. subst rest. unfold _hash in *.
    replace (Z.of_nat (char_length before) + Z.of_nat (char_length (pp_text page)) + 2)
      with (Z.of_nat (char_length (before +:+ pp_text page +:+ blank_line)))
      by (rewrite !char_length_app; change (char_length blank_line) with 2%nat; lia).
    specialize (IH (before +:+ pp_text page +:+ blank_line)). rewrite !append_assoc in IH. apply IH.
    apply whole_app; [done|]. by apply whole_app.
Qed.

Lemma take_chars_all s : whole s -> take_chars (char_length s) s = s.
Proof. intros H. rewrite <-(append_nil_r s) at 2. by apply take_chars_app. Qed.

(** C40: Whatever document is made of a page, every anchor cites it: its offsets
    are a span of the document's text, its digest is that of the characters in
    the span, and it refers to the artifact the document was made from. An
    [ok] document has an anchor, one to be reviewed has none. *)
Theorem anchors_cite_text {E} url body content_type ref (extract : list Byte.byte -> M E ExtractedPdfDocument) lineage (e e' : E) doc :
  (forall b e0 d e1, extract b e0 = (Ok d, e1) -> joined d) ->
  normalize_document html_tokens sha256_hexdigest url body content_type ref (Some extract) lineage e = (Ok doc, e') ->
  whole (nd_text doc) ->
  Forall (fun a => cites sha256_hexdigest (nd_text doc) a /\ na_raw_artifact_ref a = ref) (nd_anchors doc) /\
  (nd_status doc = "ok" /\ nd_anchors doc <> [] \/ nd_status doc = "needs_review" /\ nd_anchors doc = []).
Proof.
  intros Hx H Hw.
  set (good := Forall _ _ /\ _).
  assert (forall reason, doc = _needs_review url content_type ref reason -> good) as Hreview.
  { intros reason ->. split; [constructor|by right]. }
  assert (forall text, doc = _ok sha256_hexdigest url content_type ref text lineage -> good) as Hok.
  { intros text ->. split; [|by left]. simpl in *. constructor; [|constructor]. split; [|done]. unfold cites. simpl.
    split_and!; [lia..|]. unfold _hash, char_slice. rewrite Z.sub_0_r, Nat2Z.id. simpl. by rewrite take_chars_all. }
  unfold normalize_document in H. destruct (str_contains "html" _); [injection H as <- _; case_match; eauto|].
  destruct (str_contains "plain" _ || _); [injection H as <- _; case_match; eauto|].
  destruct (str_contains "pdf" _); [|injection H as <- _; eauto].
  unfold bind, attempt in H. destruct (extract body e) as [[d|x] e1] eqn:Hd; injection H as <- _; simpl; [|eauto].
  apply Hx in Hd as [Htext Hpages]. destruct (truthy_list (pd_pages d)) eqn:Hl; simpl; [|eauto].
  subst good. simpl. split.
  - pose proof (page_anchors_cite ref lineage (pd_pages d) Hpages "" eq_refl) as Hc. simpl in Hc. rewrite <-Htext in Hc.
    apply Forall_and. split; [exact Hc|]. generalize 0. clear. induction (pd_pages d) as [|p ps IH]; intros c; simpl; constructor; auto.
  - left. split; [done|]. by destruct (pd_pages d).
Qed.
End Anchors.

(** ** Witnesses *)

Module NormalizeDemo.
Definition pages : list ExtractedPdfPage := [{| pp_page_number := 1; pp_text := "Prix: 10" |}; {| pp_page_number := 2; pp_text := "fin" |}].
Definition pdf : ExtractedPdfDocument := {| pd_pages := pages; pd_full_text := "Prix: 10" +:+ String "010" (String "010" "") +:+ "fin" |}.
Definition extract (body : list Byte.byte) : M unit ExtractedPdfDocument := ret pdf.
Definition tokens (html : string) : option (list HtmlToken) :=
  Some [StartTag "script" []; Data "x()"; EndTag "script"; StartTag "a" [("href", Some "//[")]; Data " Hi  there"; EndTag "a"].
Definition sha (s : string) : string := "sha:" +:+ s.
Definition document : NormalizedDocument :=
  match (normalize_document tokens sha "http://h/" [] "application/pdf" "documents/1.pdf" (Some extract) [] tt).1 with
  | Ok d => d | Raise _ => _needs_review "" "" "" "" end.
End NormalizeDemo.

Lemma anchors_cite_text_witness :
  normalize_document NormalizeDemo.tokens NormalizeDemo.sha "http://h/" [] "application/pdf" "documents/1.pdf" (Some NormalizeDemo.extract) [] tt
    = (Ok NormalizeDemo.document, tt) /\
  map (fun a => char_slice (nd_text NormalizeDemo.document) (na_char_offset_start a) (na_char_offset_end a)) (nd_anchors NormalizeDemo.document)
    = ["Prix: 10"; "fin"] /\
  Forall (fun a => cites NormalizeDemo.sha (nd_text NormalizeDemo.document) a /\ na_raw_artifact_ref a = "documents/1.pdf")
    (nd_anchors NormalizeDemo.document) /\
  (nd_status NormalizeDemo.document = "ok" /\ nd_anchors NormalizeDemo.document <> [] \/
   nd_status NormalizeDemo.document = "needs_review" /\ nd_anchors NormalizeDemo.document = []).
Proof.
  split; [by vm_compute|]. split; [by vm_compute|].
  refine (anchors_cite_text NormalizeDemo.tokens NormalizeDemo.sha "http://h/" [] "application/pdf" "documents/1.pdf" NormalizeDemo.extract [] tt tt
    NormalizeDemo.document _ _ _).
  - intros b e0 d e1 [= <- _]. split; [by vm_compute|]. by repeat constructor.
  - by vm_compute.
  - by vm_compute.
Defined.

(** One malformed [href] makes the extraction of a page's links raise. *)
Lemma malformed_href_raises :
  extract_links NormalizeDemo.tokens offline "http://h/" [] "text/html" = Raise (ValueError "Invalid IPv6 URL").
Proof. by vm_compute. Qed.
