(* ===== verification/Sitemaps.v ===== *)
(** * Sitemaps, feeds and the crawl fetcher

    [external_crawl/remote_sitemap.py], [external_crawl/remote_rss.py] and
    [adapters/network/httpx_crawl_fetcher.py]. The element tree of a document is
    a parameter, [None] for [ParseError]; the fetcher and httpx are ports.
    Theorems: the discovery of a sitemap ends after one level and never fails on
    a fetch error; the crawl fetcher requests no private host itself. *)
From Stdlib Require Import Ascii Strings.Byte.
From S2P Require Import Prelude PyDict PyStr UrlLib Url CrawlContracts.
Local Open Scope Z_scope.

(** ** Element trees *)

Inductive Element := El (tag : string) (attrib : dict string string) (text : option string) (children : list Element).
Definition el_tag (e : Element) : string := let '(El tag _ _ _) := e in tag.
Definition el_attrib (e : Element) : dict string string := let '(El _ attrib _ _) := e in attrib.
Definition el_text (e : Element) : option string := let '(El _ _ text _) := e in text.
Definition el_children (e : Element) : list Element := let '(El _ _ _ children) := e in children.

(** [findall] and [find] for the tag of a child. *)
Definition findall (tag : string) (e : Element) : list Element := filter (fun c => el_tag c = tag) (el_children e).
Definition find (tag : string) (e : Element) : option Element := head (findall tag e).

Definition _NS : string := "{http://www.sitemaps.org/schemas/sitemap/0.9}".
Definition _ATOM_NS : string := "{http://www.w3.org/2005/Atom}".

(** [tag.split("}", 1)[-1] if "}" in tag else tag] *)
Definition local_tag (tag : string) : string := let '(_, found, rest) := partition "}" tag in if found : bool then rest else tag.

(** [s.strip() or None] *)
Definition stripped (s : string) : option string := let s := strip s in if truthy_str s then Some s else None.

Definition _loc_text (e : Element) : option string :=
  match or_else (find (_NS +:+ "loc") e) (find "loc" e) with
  | None => None
  | Some loc => match el_text loc with None => None | Some text => stripped text end
  end.

Section Parse.
Context (fromstring : list Byte.byte -> option Element).

Definition _parse_locs (body : list Byte.byte) : list string * list string * option string :=
  match fromstring body with
  | None => ([], [], Some "parse error")
  | Some root =>
      let tag := local_tag (el_tag root) in
      if bool_decide (tag = "urlset") then
        (omap _loc_text (list_or (findall (_NS +:+ "url") root) (findall "url" root)), [], None)
      else if bool_decide (tag = "sitemapindex") then
        ([], omap _loc_text (list_or (findall (_NS +:+ "sitemap") root) (findall "sitemap" root)), None)
      else ([], [], Some "unexpected root element")
  end.

Fixpoint first_link (links : list Element) : option string :=
  match links with
  | [] => None
  | link :: links =>
      let rel := dict_get_or (el_attrib link) "rel" "alternate" in
      match dict_get (el_attrib link) "href" with
      | Some href => if truthy_str href && bool_decide (rel ∈ [""; "alternate"]) then stripped href else first_link links
      | None => first_link links
      end
  end.
Definition _first_alternate_link (entry : Element) : option string :=
  first_link (list_or (findall (_ATOM_NS +:+ "link") entry) (findall "link" entry)).

Definition rss_link (item : Element) : option string :=
  match find "link" item with
  | Some link => match el_text link with Some text => if truthy_str text then stripped text else None | None => None end
  | None => None
  end.

Definition _parse_feed (body : list Byte.byte) : list string * option string * option string :=
  match fromstring body with
  | None => ([], None, Some "parse error")
  | Some root =>
      let tag := local_tag (el_tag root) in
      if bool_decide (tag = "rss") then
        match find "channel" root with
        | None => ([], Some "rss", Some "rss root has no <channel>")
        | Some channel => (omap rss_link (findall "item" channel), Some "rss", None)
        end
      else if bool_decide (tag = "feed") then
        (omap _first_alternate_link (list_or (findall (_ATOM_NS +:+ "entry") root) (findall "entry" root)), Some "atom", None)
      else ([], None, Some "unrecognised feed root element")
  end.

(** ** Discovery *)

Inductive SitemapDiscoveryBundle := Bundle {
  sb_source_url : string;
  sb_raw_body : list Byte.byte;
  sb_content_type : string;
  sb_discovered_urls : list string;
  sb_child_bundles : option (list SitemapDiscoveryBundle);
  sb_parse_error : option string }.

Record FeedDiscoveryBundle := {
  fd_source_url : string;
  fd_raw_body : list Byte.byte;
  fd_content_type : string;
  fd_discovered_urls : list string;
  fd_feed_kind : option string;
  fd_parse_error : option string }.

Context {E : Type} (fetch : string -> M E FetchOutcome).

(** The bundle of a sitemap that could not be fetched. *)
Definition unfetched (sitemap_url : string) : SitemapDiscoveryBundle := Bundle sitemap_url [] "" [] None (Some "fetch failed").

(** [discover] at a positive depth: no child is followed. *)
Definition discover_child (sitemap_url : string) : M E SitemapDiscoveryBundle :=
  let* fetched := attempt (fetch sitemap_url) in
  match fetched with
  | Raise (FetchError _) => ret (unfetched sitemap_url)
  | Raise e => raise e
  | Ok outcome =>
      let '(urls, _, error) := _parse_locs (fo_body outcome) in
      ret (Bundle sitemap_url (fo_body outcome) (fo_content_type outcome) urls None error)
  end.

(** The loop over the children. *)
Fixpoint discover_children (child_urls : list string) : M E (list SitemapDiscoveryBundle) :=
  match child_urls with
  | [] => ret []
  | child :: child_urls =>
      let* bundle := discover_child child in
      let* bundles := discover_children child_urls in
      ret (bundle :: bundles)
  end.

Definition discover (sitemap_url : string) : M E SitemapDiscoveryBundle :=
  let* fetched := attempt (fetch sitemap_url) in
  match fetched with
  | Raise (FetchError _) => ret (unfetched sitemap_url)
  | Raise e => raise e
  | Ok outcome =>
      let '(urls, child_urls, error) := _parse_locs (fo_body outcome) in
      if truthy_list child_urls then
        let* bundles := discover_children child_urls in
        ret (Bundle sitemap_url (fo_body outcome) (fo_content_type outcome) (urls ++ concat (map sb_discovered_urls bundles)) (Some bundles) error)
      else ret (Bundle sitemap_url (fo_body outcome) (fo_content_type outcome) urls None error)
  end.

Definition discover_feed (feed_url : string) : M E FeedDiscoveryBundle :=
  let* fetched := attempt (fetch feed_url) in
  match fetched with
  | Raise (FetchError _) =>
      ret {| fd_source_url := feed_url; fd_raw_body := []; fd_content_type := ""; fd_discovered_urls := []; fd_feed_kind := None;
             fd_parse_error := Some "fetch failed" |}
  | Raise e => raise e
  | Ok outcome =>
      let '(urls, feed_kind, error) := _parse_feed (fo_body outcome) in
      ret {| fd_source_url := feed_url; fd_raw_body := fo_body outcome; fd_content_type := fo_content_type outcome;
             fd_discovered_urls := urls; fd_feed_kind := feed_kind; fd_parse_error := error |}
  end.
End Parse.

(** ** [HttpxCrawlFetcher] *)

Record CrawlFetcherConfig := {
  cf_user_agent : string; cf_max_response_bytes : Z; cf_allow_loopback : bool; cf_max_redirects : Z }.

Definition new_crawl_fetcher (user_agent : string) (max_response_bytes : Z) (allow_loopback : bool) (max_redirects : Z)
    : res CrawlFetcherConfig :=
  do? guard (non_blank user_agent) (ValueError "user_agent must be non-empty") in
  do? guard (1 <=? max_response_bytes) (ValueError "max_response_bytes must be positive") in
  do? guard (0 <=? max_redirects) (ValueError "max_redirects must be non-negative") in
  Ok {| cf_user_agent := user_agent; cf_max_response_bytes := max_response_bytes; cf_allow_loopback := allow_loopback;
        cf_max_redirects := max_redirects |}.

(** A response of httpx, which follows redirects: the responses that led to it
    by URL and status. *)
Record CrawlResponse := {
  cr_status : Z; cr_url : string; cr_headers : dict string string; cr_content : list Byte.byte; cr_history : list (string * Z) }.

Definition _SUPPORTED_SCHEMES : list string := ["http"; "https"].

(** The hop of every response in the history to the URL of the next. *)
Fixpoint redirect_hops (history : list (string * Z)) (final_url : string) : list CrawlRedirectHop :=
  match history with
  | [] => []
  | (from_url, status) :: rest =>
      {| ch_from_url := from_url; ch_to_url := match rest with (to_url, _) :: _ => to_url | [] => final_url end; ch_status_code := status |}
      :: redirect_hops rest final_url
  end.

Section CrawlFetcher.
Context (env : NetEnv) (is_http_error : exn -> bool) {E : Type} (get : string -> M E CrawlResponse) (cfg : CrawlFetcherConfig).

(** The same test as that of [external_crawl/url.py]. *)
Definition _is_private_host (host : string) : res bool := is_private_network env host.

Definition crawl_fetch (url : string) : M E FetchOutcome :=
  let* parsed := lift (urlsplit env url) in
  do* lift (guard (bool_decide (lower (sr_scheme parsed) ∈ _SUPPORTED_SCHEMES)) (FetchError "refusing unsupported scheme")) in
  let host := lower (default "" (hostname parsed)) in
  do* lift (guard (truthy_str host) (FetchError "url missing hostname")) in
  let* private := (if cf_allow_loopback cfg then ret false else lift (_is_private_host host)) in
  do* lift (guard (negb private) (FetchError "refusing to fetch private-network host")) in
  let* got := attempt (get url) in
  match got with
  | Raise e => if is_http_error e then raise (FetchError "transport error") else raise e
  | Ok response =>
      do* lift (guard (Z.of_nat (length (cr_content response)) <=? cf_max_response_bytes cfg) (FetchError "response body exceeds size budget")) in
      ret {| fo_requested_url := url; fo_final_url := cr_url response; fo_status_code := cr_status response;
             fo_headers := cr_headers response; fo_body := cr_content response;
             fo_content_type := dict_get_or (cr_headers response) "content-type" "";
             fo_redirect_chain := map fst (cr_history response); fo_redirect_history := redirect_hops (cr_history response) (cr_url response) |}
  end.
End CrawlFetcher.

(** ** Discovery is bounded and total *)

Section Bounds.
Context (fromstring : list Byte.byte -> option Element) {E : Type} (fetch : string -> M E FetchOutcome).
Context (fetched : E -> list string).
Context (fetch_logged : forall url e, fetched (fetch url e).2 = fetched e ++ [url]).
Context (fetch_errors : forall url e x, (fetch url e).1 = Raise x -> exists msg, x = FetchError msg).

Lemma discover_child_run url e : exists b e', discover_child fromstring fetch url e = (Ok b, e') /\ fetched e' = fetched e ++ [url] /\
  sb_child_bundles b = None.
Proof.
  pose proof (fetch_logged url e) as Hl. pose proof (fetch_errors url e) as Hx. unfold discover_child, bind, attempt.
  destruct (fetch url e) as [[o|x] e']; simpl in *.
  - destruct (_parse_locs fromstring (fo_body o)) as [[urls children] error]. eexists _, _. by split_and!.
  - destruct (Hx x eq_refl) as [msg ->]. eexists _, _. by split_and!.
Qed.

Lemma discover_children_run urls e : exists bs e', discover_children fromstring fetch urls e = (Ok bs, e') /\
  fetched e' = fetched e ++ urls /\ Forall (fun b => sb_child_bundles b = None) bs.
Proof.
  revert e. induction urls as [|url urls IH]; intros e; simpl; [exists [], e; by rewrite app_nil_r|].
  destruct (discover_child_run url e) as (b & e1 & H1 & Hf1 & Hb). destruct (IH e1) as (bs & e2 & H2 & Hf2 & Hbs).
  exists (b :: bs), e2. rewrite (bind_eq _ _ _ _ _ H1), (bind_eq _ _ _ _ _ H2). split; [done|].
  split; [by rewrite Hf2, Hf1, <-app_assoc|by constructor].
Qed.

(** Whatever the documents say, the discovery of a sitemap returns, follows the
    children of the first document only, and requests each once. *)
Theorem discover_one_level url e : exists b e' children, discover fromstring fetch url e = (Ok b, e') /\
  fetched e' = fetched e ++ url :: children /\
  (forall c, c ∈ default [] (sb_child_bundles b) -> sb_child_bundles c = None) /\
  (forall u, u ∈ children -> exists body, u ∈ (_parse_locs fromstring body).1.2).
Proof.
  pose proof (fetch_logged url e) as Hl. pose proof (fetch_errors url e) as Hx. unfold discover, bind at 1, attempt.
  destruct (fetch url e) as [[o|x] e1] eqn:Hf; simpl in *.
  - destruct (_parse_locs fromstring (fo_body o)) as [[urls children] error] eqn:Hp. destruct (truthy_list children) eqn:Ht.
    + destruct (discover_children_run children e1) as (bs & e2 & H2 & Hf2 & Hbs). rewrite (bind_eq _ _ _ _ _ H2).
      eexists _, _, children. split_and!; [done|by rewrite Hf2, Hl, <-app_assoc| |].
      * simpl. by rewrite <-Forall_forall.
      * intros u Hu. exists (fo_body o). by rewrite Hp.
    + eexists _, _, []. split_and!; [done|done|by intros c ?%elem_of_nil|by intros u ?%elem_of_nil].
  - destruct (Hx x eq_refl) as [msg ->]. eexists _, _, []. split_and!; [done|done|by intros c ?%elem_of_nil|by intros u ?%elem_of_nil].
Qed.
End Bounds.

(** ** What the crawl fetcher requests *)

Section FetcherPolicy.
Context (env : NetEnv) (is_http_error : exn -> bool) {E : Type} (get : string -> M E CrawlResponse) (cfg : CrawlFetcherConfig).

(** A body is returned only of a request for an http(s) URL with a host that is
    not private, unless loopback is allowed, and only within the size budget. *)
Theorem crawl_fetch_checked url e outcome e' : crawl_fetch env is_http_error get cfg url e = (Ok outcome, e') ->
  exists p, urlsplit env url = Ok p /\ lower (sr_scheme p) ∈ _SUPPORTED_SCHEMES /\ truthy_opt (hostname p) = true /\
    (cf_allow_loopback cfg = true \/ is_private_network env (lower (default "" (hostname p))) = Ok false) /\
    Z.of_nat (length (fo_body outcome)) <= cf_max_response_bytes cfg.
Proof.
  unfold crawl_fetch, bind, lift, ret, attempt. intros H.
  destruct (urlsplit env url) as [p|x]; [|done]. exists p.
  destruct (bool_decide (lower (sr_scheme p) ∈ _)) eqn:Hs; [apply bool_decide_eq_true in Hs|done]. simpl in H.
  destruct (truthy_str _) eqn:Hh; [|done]. simpl in H.
  assert (truthy_opt (hostname p) = true) as Hhost.
  { destruct (hostname p) as [h|]; [|done]. simpl in *. unfold truthy_str in *. by destruct h. }
  assert (exists e1, (let '(r, s) := get url e1 in match r with
      | Ok response => Z.of_nat (length (fo_body outcome)) <= cf_max_response_bytes cfg
      | Raise _ => True end) /\ is_ok (get url e1).1 = true /\
      (cf_allow_loopback cfg = true \/ is_private_network env (lower (default "" (hostname p))) = Ok false)) as (e1 & Hget & Hok & Hpriv).
  { exists e. destruct (cf_allow_loopback cfg); simpl in H.
    - destruct (get url e) as [[resp|x] e1]; [|by destruct (is_http_error x)]. destruct (_ <=? _) eqn:Hb; [|done].
      injection H as <- _. split_and!; [simpl; lia|done|by left].
    - unfold _is_private_host in H. destruct (is_private_network env _) as [[]|x]; [done| |done]. simpl in H.
      destruct (get url e) as [[resp|x] e1]; [|by destruct (is_http_error x)]. destruct (_ <=? _) eqn:Hb; [|done].
      injection H as <- _. split_and!; [simpl; lia|done|by right]. }
  split_and!; [done|done|done|done|]. by destruct (get url e1) as [[]].
Qed.
End FetcherPolicy.

(** ** Witnesses *)

Module FetcherDemo.
Definition cfg : CrawlFetcherConfig := {| cf_user_agent := "veracrawl/0.1"; cf_max_response_bytes := 100; cf_allow_loopback := false; cf_max_redirects := 10 |}.
(** A page that redirects to an internal service, which httpx follows. *)
Definition get (url : string) : M unit CrawlResponse :=
  ret {| cr_status := 200; cr_url := "http://127.0.0.1/admin"; cr_headers := [("content-type", "text/html")]; cr_content := [];
         cr_history := [(url, 302)] |}.
Definition result := (crawl_fetch offline (fun _ => false) get cfg "http://shop.example/go" tt).1.
Definition outcome : FetchOutcome := match result with Ok o => o | Raise _ => {| fo_requested_url := ""; fo_final_url := ""; fo_status_code := 0;
  fo_headers := []; fo_body := []; fo_content_type := ""; fo_redirect_chain := []; fo_redirect_history := [] |} end.
Definition sitemap (body : list Byte.byte) : option Element :=
  Some (El "sitemapindex" [] None [El "sitemap" [] None [El "loc" [] (Some "http://127.0.0.1/") []]]).
Definition fetch (url : string) : M (list string) FetchOutcome := fun log => (Ok outcome, log ++ [url]).
End FetcherDemo.

Lemma crawl_fetch_checked_witness : exists p, urlsplit offline "http://shop.example/go" = Ok p /\ lower (sr_scheme p) ∈ _SUPPORTED_SCHEMES /\
  truthy_opt (hostname p) = true /\
  (cf_allow_loopback FetcherDemo.cfg = true \/ is_private_network offline (lower (default "" (hostname p))) = Ok false) /\
  Z.of_nat (length (fo_body FetcherDemo.outcome)) <= cf_max_response_bytes FetcherDemo.cfg.
Proof.
  apply (crawl_fetch_checked offline (fun _ => false) FetcherDemo.get FetcherDemo.cfg "http://shop.example/go" tt FetcherDemo.outcome tt).
  by vm_compute.
Defined.

Lemma discover_one_level_witness : exists b e' children,
  discover FetcherDemo.sitemap FetcherDemo.fetch "http://h/sitemap.xml" [] = (Ok b, e') /\ e' = [] ++ "http://h/sitemap.xml" :: children /\
  (forall c, c ∈ default [] (sb_child_bundles b) -> sb_child_bundles c = None) /\
  (forall u, u ∈ children -> exists body, u ∈ (_parse_locs FetcherDemo.sitemap body).1.2).
Proof. apply (discover_one_level FetcherDemo.sitemap FetcherDemo.fetch id); [done|by intros ? ? ? ?]. Defined.

(** The private-network test is of the URL asked for; where httpx is redirected
    to is not tested. *)
Lemma redirect_reaches_private_host :
  FetcherDemo.result = Ok FetcherDemo.outcome /\ fo_final_url FetcherDemo.outcome = "http://127.0.0.1/admin" /\
  is_private_network offline "127.0.0.1" = Ok true.
Proof. by vm_compute. Qed.
