(* ===== verification/FrontierLike.v ===== *)
(** * The frontier interface

    [external_crawl/frontier_protocol.py]: the operations the runner calls, and
    what it relies on. [FrontierLaws] states every operation as one on the
    shared [Base] and on the items queued; both frontiers are instances, so what
    is proved of a client against the class holds for the FIFO and for the
    priority queue. [add_hints] is optional, as the runner looks it up with
    [getattr]. *)
From S2P Require Import Prelude PyDict UrlLib Url Heap Frontier PriorityFrontier.
Local Open Scope Z_scope.

Record FrontierOps (F : Type) := {
  fl_enqueue : string -> Z -> option string -> Z -> M F EnqueueOutcome;
  fl_pop : Z -> M F (option FrontierItem);
  fl_mark_fetched : string -> Z -> M F unit;
  fl_skip : string -> SkipReason -> Z -> M F unit;
  (** What [budget_exhausted], [counters] and [events] read. *)
  fl_base : F -> Base;
  fl_add_hints : option (list FrontierPriorityHint -> M F unit) }.
Arguments fl_enqueue {F} _ _ _ _ _.
Arguments fl_pop {F} _ _.
Arguments fl_mark_fetched {F} _ _ _.
Arguments fl_skip {F} _ _ _ _.
Arguments fl_base {F} _ _.
Arguments fl_add_hints {F} _.

(** ** The contract *)

(** The base and the queued items account for every admitted item. *)
Record accounts (b : Base) (queue : list FrontierItem) : Prop := {
  ac_base : base_inv b;
  ac_lossless : logged "enqueued" (b_events b) ≡ₚ logged "dequeued" (b_events b) ++ (item_key <$> queue) }.

(** [enqueue]: the item is admitted, or its refusal is recorded; if it raises,
    at most the URL is marked as seen. *)
Inductive enqueued (env : NetEnv) (url : string) (depth : Z) (parent : option string) (now : Z) (b : Base) (queue : list FrontierItem)
    : res EnqueueOutcome -> Base -> list FrontierItem -> Prop :=
  | Queued canonical queue' :
      acceptable env url depth b canonical ->
      let item := {| it_canonical_url := canonical; it_depth := depth; it_parent_canonical_url := parent; it_discovered_at := now |} in
      queue' ≡ₚ item :: queue ->
      enqueued env url depth parent now b queue
        (Ok {| eo_admitted := true; eo_canonical_url := Some canonical; eo_skip_reason := None |}) (record_enqueued item b) queue'
  | Refused outcome u reason :
      (forall canonical, ~ acceptable env url depth b canonical) ->
      eo_admitted outcome = false -> eo_skip_reason outcome = Some reason ->
      enqueued env url depth parent now b queue (Ok outcome) (record_skip u reason (Some depth) now b).2 queue
  | Failed e canonical :
      enqueued env url depth parent now b queue (Raise e) (mark_seen canonical b) queue.

(** [pop]: the budget is spent or nothing is queued, or one item is taken. *)
Inductive popped (now : Z) (b : Base) (queue : list FrontierItem) : option FrontierItem -> Base -> list FrontierItem -> Prop :=
  | Nothing : budget_exhausted b = true \/ queue = [] -> popped now b queue None b queue
  | Taken item queue' : budget_exhausted b = false -> queue ≡ₚ item :: queue' ->
      popped now b queue (Some item) (record_dequeued item now b) queue'.

Class FrontierLaws {F : Type} (env : NetEnv) (ops : FrontierOps F) := {
  fl_inv : F -> Prop;
  fl_queue : F -> list FrontierItem;
  fl_accounts f : fl_inv f -> accounts (fl_base ops f) (fl_queue f);
  fl_enqueue_law url depth parent now f r f' : fl_inv f -> fl_enqueue ops url depth parent now f = (r, f') ->
    fl_inv f' /\ enqueued env url depth parent now (fl_base ops f) (fl_queue f) r (fl_base ops f') (fl_queue f');
  fl_pop_law now f r f' : fl_inv f -> fl_pop ops now f = (r, f') ->
    fl_inv f' /\ exists o, r = Ok o /\ popped now (fl_base ops f) (fl_queue f) o (fl_base ops f') (fl_queue f');
  fl_mark_law url now f r f' : fl_inv f -> fl_mark_fetched ops url now f = (r, f') ->
    fl_inv f' /\ r = Ok tt /\ fl_base ops f' = (mark_fetched url now (fl_base ops f)).2 /\ fl_queue f' = fl_queue f;
  fl_skip_law url reason now f r f' : fl_inv f -> fl_skip ops url reason now f = (r, f') ->
    fl_inv f' /\ r = Ok tt /\ fl_base ops f' = (record_skip (Some url) reason None now (fl_base ops f)).2 /\ fl_queue f' = fl_queue f;
  fl_hints_law add hints f r f' : fl_add_hints ops = Some add -> fl_inv f -> add hints f = (r, f') ->
    fl_base ops f' = fl_base ops f /\ fl_queue f' ≡ₚ fl_queue f /\ (r = Ok tt -> fl_inv f') }.

(** ** The two frontiers *)

Definition fifo_ops (env : NetEnv) : FrontierOps ExternalCrawlFrontier :=
  {| fl_enqueue := Frontier.enqueue env; fl_pop := Frontier.pop;
     fl_mark_fetched := fun url now => Frontier.on_base (mark_fetched url now);
     fl_skip := fun url reason now => Frontier.on_base (skip url reason now);
     fl_base := f_base; fl_add_hints := None |}.

Definition priority_ops (env : NetEnv) : FrontierOps PriorityCrawlFrontier :=
  {| fl_enqueue := PriorityFrontier.enqueue env; fl_pop := PriorityFrontier.pop;
     fl_mark_fetched := fun url now => PriorityFrontier.on_base (mark_fetched url now);
     fl_skip := fun url reason now => PriorityFrontier.on_base (skip url reason now);
     fl_base := p_base; fl_add_hints := Some (PriorityFrontier.add_hints env) |}.

Lemma mark_fetched_ok url now b : mark_fetched url now b = (Ok tt, (mark_fetched url now b).2).
Proof. unfold mark_fetched. by case_decide. Qed.

#[export] Program Instance fifo_laws (env : NetEnv) : FrontierLaws env (fifo_ops env) :=
  {| fl_inv := frontier_inv; fl_queue := f_queue |}.
Next Obligation. intros env f [Hb Ho _]. split; [done|]. simpl. by rewrite Ho. Qed.
Next Obligation.
  intros env url depth parent now f r f' Hf H. split; [exact (frontier_step_inv env f f' (fs_enqueue env _ _ _ _ _ _ _ H) Hf)|]. simpl in *.
  destruct (enqueue_spec env url depth parent now f) as [(c & Hc & E)|(Hno & u & rs & o & Ho & Hrs & E)];
    rewrite E in H; injection H as <- <-; simpl.
  - apply (Queued env url depth parent now (f_base f) (f_queue f) c); [done|]. symmetry. apply Permutation_cons_append.
  - by eapply Refused.
Qed.
Next Obligation.
  intros env now f r f' Hf H. split; [exact (frontier_step_inv env f f' (fs_pop env _ _ _ _ H) Hf)|]. simpl in *. unfold Frontier.pop in H.
  destruct (budget_exhausted (f_base f)) eqn:Hb; [injection H as <- <-; eexists; split; [done|]; apply Nothing; by left|].
  destruct (f_queue f) as [|item queue] eqn:Hq; injection H as <- <-; eexists; (split; [done|]).
  - rewrite Hq. apply Nothing. by right.
  - by apply Taken.
Qed.
Next Obligation.
  intros env url now f r f' Hf H. split; [exact (frontier_step_inv env f f' (fs_fetched env _ _ _ _ _ H) Hf)|]. simpl in *.
  unfold Frontier.on_base in H. rewrite mark_fetched_ok in H. by injection H as <- <-.
Qed.
Next Obligation.
  intros env url reason now f r f' Hf H. split; [exact (frontier_step_inv env f f' (fs_skip env _ _ _ _ _ _ H) Hf)|]. by injection H as <- <-.
Qed.
Next Obligation. done. Qed.

Lemma queue_keys (heap : list entry) : (fun e : entry => item_key e.2) <$> heap = item_key <$> (snd <$> heap).
Proof. by rewrite <-list_fmap_compose. Qed.

Lemma heappop_none (lt : entry -> entry -> bool) (heap : list entry) : heappop lt heap = None -> heap = [].
Proof.
  unfold heappop. destruct (last heap) eqn:Hl; [by case_match|]. by apply last_None in Hl.
Qed.

#[export] Program Instance priority_laws (env : NetEnv) : FrontierLaws env (priority_ops env) :=
  {| fl_inv := priority_inv env; fl_queue := fun f => snd <$> p_heap f |}.
Next Obligation. intros env f [Hb _ _ _ Hl]. split; [done|]. simpl. by rewrite <-queue_keys. Qed.
Next Obligation.
  intros env url depth parent now f r f' Hf H. split; [exact (priority_enqueue_inv env _ _ _ _ _ _ _ Hf H)|]. simpl in *.
  cbv [PriorityFrontier.enqueue bind PriorityFrontier.on_base] in H.
  destruct (admission_spec env url depth now (p_base f)) as [(c & Hc & E)|(Hno & u & rs & o & Ho & Hrs & E)];
    rewrite E in H; cbv beta iota in H; simpl in H.
  - destruct (compute_item_priority env c depth (p_hints f)) as [p|x]; injection H as <- <-; simpl.
    + apply (Queued env url depth parent now (p_base f) _ c); [done|]. by rewrite heappush_perm.
    + apply Failed.
  - injection H as <- <-. simpl. by eapply Refused.
Qed.
Next Obligation.
  intros env now f r f' Hf H. split; [exact (pop_inv env _ _ _ _ Hf H)|]. simpl in *. unfold PriorityFrontier.pop in H.
  destruct (budget_exhausted (p_base f)) eqn:Hb; [injection H as <- <-; eexists; split; [done|]; apply Nothing; by left|].
  destruct (heappop entry_lt (p_heap f)) as [[[[np seq] item] heap]|] eqn:Hp; injection H as <- <-; eexists; (split; [done|]).
  - apply Taken; [done|]. destruct Hf as [_ Hh _ _ _].
    destruct (heappop_spec entry_lt good entry_le_trans entry_lt_asym _ _ _ Hh Hp) as (HP & _). simpl. by rewrite HP.
  - apply Nothing. right. by rewrite (heappop_none _ _ Hp).
Qed.
Next Obligation.
  intros env url now f r f' Hf H. split; [exact (priority_step_inv env f f' (ps_fetched env _ _ _ _ _ H) Hf)|]. simpl in *.
  unfold PriorityFrontier.on_base in H. rewrite mark_fetched_ok in H. by injection H as <- <-.
Qed.
Next Obligation.
  intros env url reason now f r f' Hf H. split; [exact (priority_step_inv env f f' (ps_skip env _ _ _ _ _ _ H) Hf)|]. by injection H as <- <-.
Qed.
Next Obligation.
  intros env add hints f r f' [= <-] Hf H. simpl. unfold PriorityFrontier.add_hints in H.
  pose proof (add_hints_inv env hints f f' Hf) as Hinv. unfold PriorityFrontier.add_hints in Hinv.
  destruct hints as [|h hints]; [by injection H as <- <-|].
  destruct (rebuild env (p_hints f ++ h :: hints) (p_heap f)) as [rebuilt|x] eqn:Hr; injection H as <- <-; [|done].
  simpl. split_and!; [done| |by intros _; apply Hinv].
  rewrite (heapify_perm entry_lt). destruct (rebuild_spec _ _ _ _ Hr) as [Hsame _].
  pose proof (f_equal (fmap snd) Hsame) as E. rewrite <-!list_fmap_compose in E. change (snd <$> rebuilt = snd <$> p_heap f) in E. by rewrite E.
Qed.
