(* ===== verification/CrawlRunner.v ===== *)
(** * The external crawl runner

    [external_crawl/runner.py] and [external_crawl/dispatch.py]: one run of a
    crawl job from its seeds to its report. The frontier is any with the
    operations of [FrontierLike]; the clocks, robots, rate limiter, fetchers,
    artifact store, extractors, planners and the graph observer are ports on a
    world of any type. The object's attributes and the files the run appends to
    are the first component of the state. JSON texts, directories, the model-call
    traces and the [id]s of job and project are left out; a report and the lines
    of a file are records. The loop runs on fuel, [None] when it ends before the
    loop does: [CrawlRun] proves that some fuel is always enough. *)
From Stdlib Require Import Ascii Strings.Byte Floats.
From S2P Require Import Prelude PyDict PyList PyStr PyFloat PyTime Contracts UrlLib Url RateLimiter Robots.
From S2P Require Import Frontier PriorityFrontier FrontierLike HttpAdapter CrawlContracts Normalize Sitemaps.
Local Open Scope Z_scope.

(** ** dispatch.py *)

(** [int(s, 16)] of hexadecimal digits *)
Definition int_of_hex (s : string) : Z := foldl (fun n c => 16 * n + hex_value c) 0 (String.list_ascii_of_string s).

(** [bisect.bisect_right(a, x, lo, hi)]; [fuel] bounds the halvings. *)
Fixpoint bisect_right (fuel : nat) (a : list float) (x : float) (lo hi : nat) : nat :=
  match fuel with
  | O => lo
  | S fuel =>
      if bool_decide (lo < hi)%nat then
        let mid := Nat.div2 (lo + hi) in
        if PrimFloat.ltb x (nth mid a 0%float) then bisect_right fuel a x lo mid else bisect_right fuel a x (S mid) hi
      else lo
  end.

(** [itertools.accumulate] *)
Fixpoint accumulate (total : float) (weights : list float) : list float :=
  match weights with
  | [] => []
  | w :: weights => let total := PrimFloat.add total w in total :: accumulate total weights
  end.
Definition cumulative (weights : list float) : list float :=
  match weights with [] => [] | w :: weights => w :: accumulate w weights end.

(** [random.Random(seed).choices(population, weights, k=1)[0]], where
    [first_random seed] is the generator's first [random()]. *)
Definition choices {A} (first_random : Z -> float) (seed : Z) (population : list A) (weights : list float) : res A :=
  let cum_weights := cumulative weights in
  match last cum_weights with
  | None => Raise IndexError
  | Some total =>
      do? guard (negb (PrimFloat.leb total 0)) (ValueError "Total of weights must be greater than zero") in
      do? guard (isfinite total) (ValueError "Total of weights must be finite") in
      let hi := pred (length population) in
      match population !! bisect_right (S hi) cum_weights (PrimFloat.mul (first_random seed) total) 0 hi with
      | Some x => Ok x
      | None => Raise IndexError
      end
  end.

Section Dispatch.
Context (sha256_hexdigest : string -> string) (first_random : Z -> float).

Definition _seed_int (canonical_url replay_seed_ref : string) : Z :=
  int_of_hex (String.substring 0 16 (stable_hash sha256_hexdigest (canonical_url +:+ replay_seed_ref))).

(** [for p in priors if p.adapter_type in allowed and p.adapter_type in fetchers] *)
Definition eligible_priors (priors : list AdapterPrior) (fetcher_map source_adapters : list AdapterType) : list AdapterPrior :=
  filter (fun p => ap_adapter_type p ∈ source_adapters /\ ap_adapter_type p ∈ fetcher_map) priors.

Definition _choose_fetcher (item : FrontierItem) (priors : list AdapterPrior) (fetcher_map : list AdapterType) (replay_seed_ref : string)
    (source_adapters : list AdapterType) : res AdapterType :=
  do? guard (truthy_list priors) (ValueError "priors must be non-empty") in
  do? guard (truthy_list fetcher_map) (ValueError "fetcher_map must be non-empty") in
  do? guard (truthy_str (strip replay_seed_ref)) (ValueError "replay_seed_ref must be non-blank") in
  let eligible := eligible_priors priors fetcher_map source_adapters in
  let total_weight := weight_sum eligible in
  do? guard (truthy_list eligible && negb (PrimFloat.leb total_weight 0)) (ValueError "no eligible adapter prior") in
  let weights := map (fun p => PrimFloat.div (ap_weight p) total_weight) eligible in
  let? picked := choices first_random (_seed_int (it_canonical_url item) replay_seed_ref) eligible weights in
  Ok (ap_adapter_type picked).
End Dispatch.

(** ** Helpers without state *)

Definition _origin_of (env : NetEnv) (url : string) : res string :=
  let? parsed := urlsplit env url in
  match hostname parsed with
  | Some host =>
      if negb (truthy_str (sr_scheme parsed)) || negb (truthy_str host) then Ok url
      else
        let host := lower host in
        let? port := port parsed in
        let default_port (p : Z) := (bool_decide (sr_scheme parsed = "http") && (p =? 80)) || (bool_decide (sr_scheme parsed = "https") && (p =? 443)) in
        let host := match port with
                    | Some p => if negb (p =? 0) && negb (default_port p) then host +:+ ":" +:+ pretty p else host
                    | None => host
                    end in
        Ok (sr_scheme parsed +:+ "://" +:+ host)
  | None => Ok url
  end.

Definition file_extensions : list string :=
  ["pdf"; "doc"; "docx"; "xls"; "xlsx"; "zip"; "tar"; "gz"; "tgz"; "rar"; "7z"; "png"; "jpg"; "jpeg"; "gif"; "webp"; "svg";
   "mp4"; "mp3"; "wav"; "flac"; "mov"; "avi"; "csv"; "tsv"].

Definition _route_class_for (env : NetEnv) (url : string) : res RouteClass :=
  let? parsed := urlsplit env url in
  let path := lower (if truthy_str (sr_path parsed) then sr_path parsed else "/") in
  let query := lower (sr_query parsed) in
  let '(_, dotted, extension) := rpartition "." path in
  Ok (if dotted && bool_decide (extension ∈ file_extensions) then FILE
      else if str_contains "/api/" path || startswith "/api" path then API
      else if str_contains "/search" path || str_contains "q=" query || str_contains "search=" query then SEARCH
      else if endswith "/" path || str_contains "/list" path || str_contains "/index" path then LISTING
      else DETAIL).

Definition _artifact_category (content_type : string) : string :=
  let lowered := lower content_type in
  if str_contains "html" lowered || str_contains "xml" lowered then "raw-html" else "documents".

Definition _extension_for_content_type (content_type : string) : string :=
  let lowered := lower content_type in
  if str_contains "html" lowered then ".html"
  else if str_contains "xml" lowered then ".xml"
  else if str_contains "json" lowered then ".json"
  else if str_contains "pdf" lowered then ".pdf"
  else if str_contains "plain" lowered || str_contains "text" lowered then ".txt"
  else ".bin".

(** [sorted(enumerate(seeds), key=lambda iv: (-iv[1].priority_score, iv[0]))]:
    by descending score, and the index keeps equal scores in order. *)
Definition seed_before (a b : PlannedSeed) : bool :=
  let ka := PrimFloat.opp (ps_priority_score a) in let kb := PrimFloat.opp (ps_priority_score b) in
  PrimFloat.eqb ka kb || PrimFloat.ltb ka kb.
Definition sorted_seeds (seeds : list PlannedSeed) : list PlannedSeed := py_sorted seed_before seeds.

(** ** Construction *)

(** The optional arguments of [__init__] that choose the mode: whether they are
    given, and the values that are checked. *)
Record RunnerArgs := {
  rg_planner : bool;
  rg_plan_request_builder : bool;
  rg_utc_clock : bool;
  rg_utc_clock_ref : option Ref;
  rg_graph_observer : bool;
  rg_feedback_aware_planner_factory : bool;
  rg_fetcher_map : option (list AdapterType);
  rg_replay_seed_ref : option Ref;
  rg_replay_consumer : bool }.

Definition given {A} (o : option A) : bool := if o is Some _ then true else false.

Definition s3_mode (a : RunnerArgs) : bool := rg_planner a && rg_plan_request_builder a.
Definition s6_mode (a : RunnerArgs) : bool :=
  rg_utc_clock a && given (rg_utc_clock_ref a) && rg_graph_observer a && rg_feedback_aware_planner_factory a.
Definition dispatch_mode (a : RunnerArgs) : bool := given (rg_fetcher_map a) && given (rg_replay_seed_ref a).

(** The checks of [__init__], in order. *)
Definition check_modes (a : RunnerArgs) : res unit :=
  let s3_none := negb (rg_planner a) && negb (rg_plan_request_builder a) in
  let s6_none := negb (rg_utc_clock a) && negb (given (rg_utc_clock_ref a)) && negb (rg_graph_observer a)
                 && negb (rg_feedback_aware_planner_factory a) in
  let dispatch_none := negb (given (rg_fetcher_map a)) && negb (given (rg_replay_seed_ref a)) in
  do? guard ((s3_mode a || s3_none) && (s6_mode a || s6_none)) (ValueError "partial s3/s6 ctor args") in
  do? guard (negb (s6_mode a && negb (s3_mode a))) (ValueError "s6 args require the s3 pair") in
  do? guard (if rg_utc_clock_ref a is Some r then truthy_str (strip r) else true) (ValueError "utc_clock_ref must be non-blank when set") in
  do? guard (dispatch_mode a || dispatch_none)
        (if given (rg_fetcher_map a) && negb (given (rg_replay_seed_ref a)) then ValueError "fetcher_map requires replay_seed_ref"
         else ValueError "replay_seed_ref requires fetcher_map") in
  do? guard (negb (dispatch_mode a && negb (s3_mode a))) (ValueError "s3.2 requires the s3 planner pair") in
  do? guard (if rg_replay_seed_ref a is Some r then truthy_str (strip r) else true) (ValueError "replay_seed_ref must be non-blank when set") in
  guard (if rg_fetcher_map a is Some m then truthy_list m else true) (ValueError "fetcher_map must be non-empty").

(** [self._utc_clock]: a replay consumer's clock overrides the one given. *)
Definition has_utc_clock (a : RunnerArgs) : bool := rg_utc_clock a || rg_replay_consumer a.

(** The frontier built when none is injected. *)
Definition default_frontier (s : CrawlJobSpec) : res ExternalCrawlFrontier :=
  Frontier.init (list_to_set (js_allowed_domains s)) (list_to_set (js_denied_domains s)) (js_max_depth s) (js_max_pages s)
    (bool_decide (js_private_network_policy s = ALLOW_LOOPBACK_ONLY)).

(** ** What a run writes *)

Record DocumentRecord := {
  dr_canonical_url : string;
  dr_final_url : string;
  dr_status_code : Z;
  dr_content_type : string;
  dr_content_digest : string;
  dr_size_bytes : Z;
  dr_artifact_ref : string;
  dr_artifact_category : string;
  dr_depth : Z;
  dr_parent_canonical_url : option string;
  dr_fetched_at : Z;
  dr_redirect_chain : list string }.

Record LinkRecord := {
  lr_parent_canonical_url : string;
  lr_discovered_url : string;
  lr_canonical_url : option string;
  lr_admitted : bool;
  lr_skip_reason : option SkipReason }.

Record RedirectRecord := {
  rd_canonical_url : string; rd_from_url : string; rd_to_url : string; rd_status_code : Z; rd_observed_at : Z }.

(** [_normalized_record]: the document without its text. *)
Record NormalizedRecord := {
  nr_canonical_url : string;
  nr_raw_artifact_ref : string;
  nr_content_type : string;
  nr_status : string;
  nr_reason : option string;
  nr_text_length : Z;
  nr_anchors : list NormalizedDocumentAnchor }.

Record Failure := { fa_canonical_url : string; fa_stage : string; fa_error : string; fa_at : Z }.

(** [ports/extractor.py]; the fields of a candidate have values of any type. *)
Record ExtractionRequest := {
  xr_canonical_url : string;
  xr_normalized_text : string;
  xr_raw_body : list Byte.byte;
  xr_content_type : string;
  xr_raw_artifact_ref : string;
  xr_anchors : list NormalizedDocumentAnchor }.
Record ExtractionCandidate (Value : Type) := {
  xc_canonical_url : string;
  xc_schema_ref : string;
  xc_fields : dict string Value;
  xc_evidence_anchors : list NormalizedDocumentAnchor }.
Arguments xc_canonical_url {Value} _.
Arguments xc_schema_ref {Value} _.
Arguments xc_fields {Value} _.
Arguments xc_evidence_anchors {Value} _.

Definition validate_extraction_request (r : ExtractionRequest) : res ExtractionRequest :=
  do? guard (truthy_str (xr_canonical_url r)) (ValidationError "canonical_url") in
  do? guard (truthy_str (xr_raw_artifact_ref r)) (ValidationError "raw_artifact_ref") in
  Ok r.

Definition require_evidence {Value} (c : ExtractionCandidate Value) : res (ExtractionCandidate Value) :=
  do? guard (truthy_str (xc_canonical_url c)) (ValidationError "canonical_url") in
  do? guard (truthy_str (xc_schema_ref c)) (ValidationError "schema_ref") in
  do? guard (truthy_list (xc_evidence_anchors c)) (ValidationError "extraction candidate requires at least one evidence_anchors entry") in
  do? guard (truthy_list (xc_fields c)) (ValidationError "extraction candidate fields must be non-empty") in
  Ok c.

Record EvidencePacket := {
  ep_canonical_url : string;
  ep_schema_ref : string;
  ep_field_names : list string;
  ep_raw_artifact_refs : list string;
  ep_text_hashes : list string }.

(** [sorted(set(l))] *)
Definition sorted_set (l : list string) : list string := py_sorted String.leb (remove_dups l).

Definition _evidence_packet_record {Value} (c : ExtractionCandidate Value) : EvidencePacket :=
  {| ep_canonical_url := xc_canonical_url c; ep_schema_ref := xc_schema_ref c;
     ep_field_names := py_sorted String.leb (dict_keys (xc_fields c));
     ep_raw_artifact_refs := sorted_set (map na_raw_artifact_ref (xc_evidence_anchors c));
     ep_text_hashes := map na_text_hash (xc_evidence_anchors c) |}.

Definition _normalized_record (d : NormalizedDocument) : NormalizedRecord :=
  {| nr_canonical_url := nd_canonical_url d; nr_raw_artifact_ref := nd_raw_artifact_ref d; nr_content_type := nd_content_type d;
     nr_status := nd_status d; nr_reason := nd_reason d; nr_text_length := Z.of_nat (char_length (nd_text d)); nr_anchors := nd_anchors d |}.

(** What the report tells of a decision. *)
Record PlanSummary := {
  sm_ref : string;
  sm_replay_refs : list Ref;
  sm_hints : list FrontierPriorityHint;
  sm_adapter_priors : list AdapterPrior;
  sm_planned_seed_order : list string;
  sm_extraction_strategy_refs : list Ref }.
Definition plan_summary (d : PlanDecision) : PlanSummary :=
  {| sm_ref := pd_id d; sm_replay_refs := pd_replay_refs d; sm_hints := pd_frontier_priority_hints d;
     sm_adapter_priors := pd_adapter_priors d; sm_planned_seed_order := map ps_canonical_url (sorted_seeds (pd_planned_seeds d));
     sm_extraction_strategy_refs := pd_extraction_strategy_refs d |}.

Record ReplayReport := { rp_artifacts_cited : Z; rp_missing_refs : list string; rp_status : string; rp_checked_at : Z }.

Record RunReport := {
  rep_stop_reason : string;
  rep_started_at : Z;
  rep_completed_at : Z;
  rep_seed_urls : list string;
  rep_pages_fetched : Z;
  rep_pages_skipped : Z;
  rep_skipped_by_reason : dict SkipReason Z;
  rep_artifacts_written : Z;
  rep_extraction_candidates : Z;
  rep_evidence_packets : Z;
  rep_failures : list Failure;
  rep_policy_denials : Z;
  rep_replay_completeness_result : string;
  rep_plan_decision : option PlanSummary;
  rep_plan_decision_2 : option PlanSummary;
  rep_observation_snapshot_ref : option string;
  rep_observation_feedback_ref : option string;
  rep_utc_clock_ref : option Ref;
  rep_clock_trace : option (list clock_value);
  rep_replan_invoked : bool;
  rep_replay_seed_ref : option Ref;
  rep_adapter_dispatch_choices : option (dict string AdapterType);
  rep_replay_consumer_ref : option string;
  rep_replay_invocation_count : option Z }.

(** ** The state of a run *)

(** What the observations of a run change. *)
Record Observing := {
  ob_seq : Z;
  ob_clock_trace : list clock_value;
  ob_replay_invocation_count : Z;
  ob_replan_done : bool;
  ob_snapshot_ref : option string;
  ob_feedback_ref : option string }.

Record Planning := {
  pl_original_plan_request : option PlanRequest;
  pl_plan_decision : option PlanDecision;
  pl_plan_decision_2 : option PlanDecision;
  pl_dispatch_choices : dict string AdapterType }.

(** The files under [outputs/] and [events/], in the order of their lines. *)
Record Outputs (Value : Type) := {
  ou_documents : list DocumentRecord;
  ou_links : list LinkRecord;
  ou_normalized : list NormalizedRecord;
  ou_candidates : list (ExtractionCandidate Value);
  ou_evidence : list EvidencePacket;
  ou_redirects : list RedirectRecord;
  ou_frontier_events : list FrontierEvent }.
Arguments ou_documents {Value} _.
Arguments ou_links {Value} _.
Arguments ou_normalized {Value} _.
Arguments ou_candidates {Value} _.
Arguments ou_evidence {Value} _.
Arguments ou_redirects {Value} _.
Arguments ou_frontier_events {Value} _.

Record Tally := {
  ta_fetch_count : Z;
  ta_cited_artifact_refs : gset string;
  ta_candidates_written : Z;
  ta_evidence_packets_written : Z;
  ta_failures : list Failure }.

Record RunnerState (F Value : Type) := {
  ru_frontier : F;
  ru_observing : Observing;
  ru_planning : Planning;
  ru_outputs : Outputs Value;
  ru_tally : Tally }.
Arguments ru_frontier {F Value} _.
Arguments ru_observing {F Value} _.
Arguments ru_planning {F Value} _.
Arguments ru_outputs {F Value} _.
Arguments ru_tally {F Value} _.

Definition no_observing : Observing :=
  {| ob_seq := 0; ob_clock_trace := []; ob_replay_invocation_count := 0; ob_replan_done := false; ob_snapshot_ref := None; ob_feedback_ref := None |}.
Definition no_planning : Planning :=
  {| pl_original_plan_request := None; pl_plan_decision := None; pl_plan_decision_2 := None; pl_dispatch_choices := [] |}.
Definition no_outputs {Value} : Outputs Value :=
  {| ou_documents := []; ou_links := []; ou_normalized := []; ou_candidates := []; ou_evidence := []; ou_redirects := []; ou_frontier_events := [] |}.
Definition no_tally : Tally :=
  {| ta_fetch_count := 0; ta_cited_artifact_refs := ∅; ta_candidates_written := 0; ta_evidence_packets_written := 0; ta_failures := [] |}.

(** The attributes after [__init__]. *)
Definition new_runner {F Value} (args : RunnerArgs) (frontier : F) : res (RunnerState F Value) :=
  do? check_modes args in
  Ok {| ru_frontier := frontier; ru_observing := no_observing; ru_planning := no_planning; ru_outputs := no_outputs; ru_tally := no_tally |}.

Section Setters.
Context {F Value : Type}.
#[local] Abbreviation State := (RunnerState F Value).

Definition with_frontier (f : F) (s : State) : State :=
  {| ru_frontier := f; ru_observing := ru_observing s; ru_planning := ru_planning s; ru_outputs := ru_outputs s; ru_tally := ru_tally s |}.
Definition with_observing (f : Observing -> Observing) (s : State) : State :=
  {| ru_frontier := ru_frontier s; ru_observing := f (ru_observing s); ru_planning := ru_planning s; ru_outputs := ru_outputs s; ru_tally := ru_tally s |}.
Definition with_planning (f : Planning -> Planning) (s : State) : State :=
  {| ru_frontier := ru_frontier s; ru_observing := ru_observing s; ru_planning := f (ru_planning s); ru_outputs := ru_outputs s; ru_tally := ru_tally s |}.
Definition with_outputs (f : Outputs Value -> Outputs Value) (s : State) : State :=
  {| ru_frontier := ru_frontier s; ru_observing := ru_observing s; ru_planning := ru_planning s; ru_outputs := f (ru_outputs s); ru_tally := ru_tally s |}.
Definition with_tally (f : Tally -> Tally) (s : State) : State :=
  {| ru_frontier := ru_frontier s; ru_observing := ru_observing s; ru_planning := ru_planning s; ru_outputs := ru_outputs s; ru_tally := f (ru_tally s) |}.

Definition next_seq (o : Observing) : Observing :=
  {| ob_seq := ob_seq o + 1; ob_clock_trace := ob_clock_trace o; ob_replay_invocation_count := ob_replay_invocation_count o;
     ob_replan_done := ob_replan_done o; ob_snapshot_ref := ob_snapshot_ref o; ob_feedback_ref := ob_feedback_ref o |}.
Definition count_replay (o : Observing) : Observing :=
  {| ob_seq := ob_seq o; ob_clock_trace := ob_clock_trace o; ob_replay_invocation_count := ob_replay_invocation_count o + 1;
     ob_replan_done := ob_replan_done o; ob_snapshot_ref := ob_snapshot_ref o; ob_feedback_ref := ob_feedback_ref o |}.
Definition trace_clock (t : clock_value) (o : Observing) : Observing :=
  {| ob_seq := ob_seq o; ob_clock_trace := ob_clock_trace o ++ [t]; ob_replay_invocation_count := ob_replay_invocation_count o;
     ob_replan_done := ob_replan_done o; ob_snapshot_ref := ob_snapshot_ref o; ob_feedback_ref := ob_feedback_ref o |}.
Definition observed_as (snapshot feedback : string) (o : Observing) : Observing :=
  {| ob_seq := ob_seq o; ob_clock_trace := ob_clock_trace o; ob_replay_invocation_count := ob_replay_invocation_count o;
     ob_replan_done := ob_replan_done o; ob_snapshot_ref := Some snapshot; ob_feedback_ref := Some feedback |}.
Definition replanned (o : Observing) : Observing :=
  {| ob_seq := ob_seq o; ob_clock_trace := ob_clock_trace o; ob_replay_invocation_count := ob_replay_invocation_count o;
     ob_replan_done := true; ob_snapshot_ref := ob_snapshot_ref o; ob_feedback_ref := ob_feedback_ref o |}.

Definition with_request (q : PlanRequest) (p : Planning) : Planning :=
  {| pl_original_plan_request := Some q; pl_plan_decision := pl_plan_decision p; pl_plan_decision_2 := pl_plan_decision_2 p; pl_dispatch_choices := pl_dispatch_choices p |}.
Definition with_decision (d : PlanDecision) (p : Planning) : Planning :=
  {| pl_original_plan_request := pl_original_plan_request p; pl_plan_decision := Some d; pl_plan_decision_2 := pl_plan_decision_2 p; pl_dispatch_choices := pl_dispatch_choices p |}.
Definition with_decision_2 (d : PlanDecision) (p : Planning) : Planning :=
  {| pl_original_plan_request := pl_original_plan_request p; pl_plan_decision := pl_plan_decision p; pl_plan_decision_2 := Some d; pl_dispatch_choices := pl_dispatch_choices p |}.
Definition with_choice (url : string) (a : AdapterType) (p : Planning) : Planning :=
  {| pl_original_plan_request := pl_original_plan_request p; pl_plan_decision := pl_plan_decision p; pl_plan_decision_2 := pl_plan_decision_2 p;
     pl_dispatch_choices := dict_set (pl_dispatch_choices p) url a |}.

Definition write_document (r : DocumentRecord) (o : Outputs Value) : Outputs Value :=
  {| ou_documents := ou_documents o ++ [r]; ou_links := ou_links o; ou_normalized := ou_normalized o; ou_candidates := ou_candidates o;
     ou_evidence := ou_evidence o; ou_redirects := ou_redirects o; ou_frontier_events := ou_frontier_events o |}.
Definition write_link (r : LinkRecord) (o : Outputs Value) : Outputs Value :=
  {| ou_documents := ou_documents o; ou_links := ou_links o ++ [r]; ou_normalized := ou_normalized o; ou_candidates := ou_candidates o;
     ou_evidence := ou_evidence o; ou_redirects := ou_redirects o; ou_frontier_events := ou_frontier_events o |}.
Definition write_normalized (r : NormalizedRecord) (o : Outputs Value) : Outputs Value :=
  {| ou_documents := ou_documents o; ou_links := ou_links o; ou_normalized := ou_normalized o ++ [r]; ou_candidates := ou_candidates o;
     ou_evidence := ou_evidence o; ou_redirects := ou_redirects o; ou_frontier_events := ou_frontier_events o |}.
Definition write_candidate (r : ExtractionCandidate Value) (o : Outputs Value) : Outputs Value :=
  {| ou_documents := ou_documents o; ou_links := ou_links o; ou_normalized := ou_normalized o; ou_candidates := ou_candidates o ++ [r];
     ou_evidence := ou_evidence o; ou_redirects := ou_redirects o; ou_frontier_events := ou_frontier_events o |}.
Definition write_evidence (r : EvidencePacket) (o : Outputs Value) : Outputs Value :=
  {| ou_documents := ou_documents o; ou_links := ou_links o; ou_normalized := ou_normalized o; ou_candidates := ou_candidates o;
     ou_evidence := ou_evidence o ++ [r]; ou_redirects := ou_redirects o; ou_frontier_events := ou_frontier_events o |}.
Definition write_redirect (r : RedirectRecord) (o : Outputs Value) : Outputs Value :=
  {| ou_documents := ou_documents o; ou_links := ou_links o; ou_normalized := ou_normalized o; ou_candidates := ou_candidates o;
     ou_evidence := ou_evidence o; ou_redirects := ou_redirects o ++ [r]; ou_frontier_events := ou_frontier_events o |}.
Definition write_events (l : list FrontierEvent) (o : Outputs Value) : Outputs Value :=
  {| ou_documents := ou_documents o; ou_links := ou_links o; ou_normalized := ou_normalized o; ou_candidates := ou_candidates o;
     ou_evidence := ou_evidence o; ou_redirects := ou_redirects o; ou_frontier_events := l |}.

Definition count_fetch (t : Tally) : Tally :=
  {| ta_fetch_count := ta_fetch_count t + 1; ta_cited_artifact_refs := ta_cited_artifact_refs t; ta_candidates_written := ta_candidates_written t;
     ta_evidence_packets_written := ta_evidence_packets_written t; ta_failures := ta_failures t |}.
Definition count_candidate (t : Tally) : Tally :=
  {| ta_fetch_count := ta_fetch_count t; ta_cited_artifact_refs := ta_cited_artifact_refs t; ta_candidates_written := ta_candidates_written t + 1;
     ta_evidence_packets_written := ta_evidence_packets_written t; ta_failures := ta_failures t |}.
Definition count_evidence (t : Tally) : Tally :=
  {| ta_fetch_count := ta_fetch_count t; ta_cited_artifact_refs := ta_cited_artifact_refs t; ta_candidates_written := ta_candidates_written t;
     ta_evidence_packets_written := ta_evidence_packets_written t + 1; ta_failures := ta_failures t |}.
Definition cite (refs : list string) (t : Tally) : Tally :=
  {| ta_fetch_count := ta_fetch_count t; ta_cited_artifact_refs := list_to_set refs ∪ ta_cited_artifact_refs t; ta_candidates_written := ta_candidates_written t;
     ta_evidence_packets_written := ta_evidence_packets_written t; ta_failures := ta_failures t |}.
Definition fail_with (f : Failure) (t : Tally) : Tally :=
  {| ta_fetch_count := ta_fetch_count t; ta_cited_artifact_refs := ta_cited_artifact_refs t; ta_candidates_written := ta_candidates_written t;
     ta_evidence_packets_written := ta_evidence_packets_written t; ta_failures := ta_failures t ++ [f] |}.
(** [failures = []]: a local of [run]. *)
Definition no_failures (t : Tally) : Tally :=
  {| ta_fetch_count := ta_fetch_count t; ta_cited_artifact_refs := ta_cited_artifact_refs t; ta_candidates_written := ta_candidates_written t;
     ta_evidence_packets_written := ta_evidence_packets_written t; ta_failures := [] |}.
End Setters.

(** ** The ports *)

Record RunnerPorts (Permit Value E : Type) := {
  (** [time.monotonic], [datetime.now(UTC)] in microseconds, and the UTC clock
      given or recorded *)
  ro_clock : M E float;
  ro_now : M E Z;
  ro_next_utc : M E clock_value;
  ro_robots : string -> string -> M E RobotsAdvice;
  ro_acquire : string -> RouteClass -> AdapterType -> RateLimitFloor -> M E Permit;
  ro_release : Permit -> M E unit;
  ro_report_success : Permit -> M E unit;
  ro_report_throttled : Permit -> option float -> M E unit;
  (** The single fetcher, and those of the map. *)
  ro_fetch : option AdapterType -> string -> M E FetchOutcome;
  ro_put_bytes : string -> list Byte.byte -> string -> dict string string -> M E unit;
  ro_is_file : string -> M E bool;
  ro_pdf_extractor : option (list Byte.byte -> M E ExtractedPdfDocument);
  ro_extract_links : string -> list Byte.byte -> string -> M E (list string);
  ro_extractors : list (ExtractionRequest -> M E (list (ExtractionCandidate Value)));
  ro_plan_request : M E PlanRequest;
  ro_plan : PlanRequest -> M E PlanDecision;
  ro_plan_with_feedback : PlannerObservationFeedback -> PlanRequest -> M E PlanDecision;
  ro_record_url_observed : UrlObservedEvent -> M E unit;
  ro_record_redirect_observed : RedirectObservedEvent -> M E unit;
  ro_record_page_structure_observed : PageStructureObservedEvent -> M E unit;
  ro_snapshot : string -> clock_value -> M E GraphObservationSnapshot }.
Arguments ro_clock {Permit Value E} _.
Arguments ro_now {Permit Value E} _.
Arguments ro_next_utc {Permit Value E} _.
Arguments ro_robots {Permit Value E} _ _ _.
Arguments ro_acquire {Permit Value E} _ _ _ _ _.
Arguments ro_release {Permit Value E} _ _.
Arguments ro_report_success {Permit Value E} _ _.
Arguments ro_report_throttled {Permit Value E} _ _ _.
Arguments ro_fetch {Permit Value E} _ _ _.
Arguments ro_put_bytes {Permit Value E} _ _ _ _ _.
Arguments ro_is_file {Permit Value E} _ _.
Arguments ro_pdf_extractor {Permit Value E} _.
Arguments ro_extract_links {Permit Value E} _ _ _ _.
Arguments ro_extractors {Permit Value E} _.
Arguments ro_plan_request {Permit Value E} _.
Arguments ro_plan {Permit Value E} _ _.
Arguments ro_plan_with_feedback {Permit Value E} _ _ _.
Arguments ro_record_url_observed {Permit Value E} _ _.
Arguments ro_record_redirect_observed {Permit Value E} _ _.
Arguments ro_record_page_structure_observed {Permit Value E} _ _.
Arguments ro_snapshot {Permit Value E} _ _ _.

(** What does not change in a run. *)
Record RunnerConfig := {
  rn_spec : CrawlJobSpec;
  rn_args : RunnerArgs;
  rn_user_agent : string }.

(** ** ExternalCrawlRunner *)

Section Runner.
Context (env : NetEnv) (sha256_hexdigest : string -> string) (first_random : Z -> float).
(** [float(s)], [parsedate_to_datetime] in microseconds UTC, the tokens of
    [html.parser] and the element tree of a document *)
Context (float_of_str : string -> option float) (parsedate : string -> option Z).
Context (html_tokens : string -> option (list HtmlToken)) (fromstring : list Byte.byte -> option Element).
Context {F Permit Value E : Type} (ops : FrontierOps F) (P : RunnerPorts Permit Value E) (cfg : RunnerConfig).
#[local] Abbreviation State := (RunnerState F Value).
#[local] Abbreviation Mr A := (M (State * E) A).
#[local] Abbreviation spec := (rn_spec cfg).
#[local] Abbreviation args := (rn_args cfg).

(** A method of the frontier; it reads its own clock. *)
Definition on_frontier {A} (m : Z -> M F A) : Mr A := fun '(s, e) =>
  match ro_now P e with
  | (Raise x, e) => (Raise x, (s, e))
  | (Ok now, e) => let '(r, f) := m now (ru_frontier s) in (r, (with_frontier f s, e))
  end.

(** [for x in l: f(x)] *)
Fixpoint for_all {A} (f : A -> Mr unit) (l : list A) : Mr unit :=
  match l with [] => ret tt | x :: l => do* f x in for_all f l end.

(** *** Observations *)

Definition _s6_active : Mr bool :=
  gets (fun '(s, _) => rg_graph_observer args && has_utc_clock args && given (pl_original_plan_request (ru_planning s))).

Definition _next_seq : Mr Z :=
  let* seq := gets (fun '(s, _) => ob_seq (ru_observing s)) in
  do* on_object (with_observing next_seq) in
  ret seq.

Definition _tick_utc_clock : Mr clock_value :=
  do* (if rg_replay_consumer args then on_object (with_observing count_replay) else ret tt) in
  let* t := on_world (ro_next_utc P) in
  do* on_object (with_observing (trace_clock t)) in
  ret t.

(** [self._original_plan_request.run_ref] *)
Definition _run_ref : Mr Ref :=
  let* request := gets (fun '(s, _) => pl_original_plan_request (ru_planning s)) in
  match request with Some q => ret (pq_run_ref q) | None => raise AssertionError end.

Definition observation_id (kind : string) (seq : Z) : string := kind +:+ ":" +:+ js_id spec +:+ ":" +:+ pretty seq.

Definition _record_url_observed (canonical_url : string) (depth : Z) (parent_canonical_url : option string) (source_ref : Ref) : Mr unit :=
  let* active := _s6_active in
  if negb active then ret tt
  else
    let* seq := _next_seq in
    let* run_ref := _run_ref in
    let* t := _tick_utc_clock in
    let* event := lift (validate_url_observed env
      {| uo_id := observation_id "url-obs" seq; uo_run_ref := run_ref; uo_canonical_url := canonical_url; uo_depth := depth;
         uo_parent_canonical_url := parent_canonical_url; uo_source_ref := source_ref; uo_observed_at := t |}) in
    on_world (ro_record_url_observed P event).

Definition record_hop (hop : CrawlRedirectHop) : Mr unit :=
  let* seq := _next_seq in
  let* run_ref := _run_ref in
  let* t := _tick_utc_clock in
  let* event := lift (validate_redirect_observed env
    {| ro_id := observation_id "redirect-obs" seq; ro_run_ref := run_ref; ro_from_canonical_url := ch_from_url hop;
       ro_to_canonical_url := ch_to_url hop; ro_status_code := ch_status_code hop; ro_observed_at := t |}) in
  on_world (ro_record_redirect_observed P event).

Definition _record_redirect_observed (outcome : FetchOutcome) : Mr unit :=
  let* active := _s6_active in
  if negb active then ret tt else for_all record_hop (fo_redirect_history outcome).

Definition _record_page_structure_observed (page_canonical_url : string) (discovered_link_count : Z) : Mr unit :=
  let* active := _s6_active in
  if negb active then ret tt
  else
    let* seq := _next_seq in
    let* run_ref := _run_ref in
    let* t := _tick_utc_clock in
    let* event := lift (validate_page_observed env
      {| po_id := observation_id "page-obs" seq; po_run_ref := run_ref; po_page_canonical_url := page_canonical_url;
         po_discovered_link_count := discovered_link_count; po_discovered_canonical_urls := []; po_observed_at := t |}) in
    on_world (ro_record_page_structure_observed P event).

(** *** Plans *)

(** [getattr(self._frontier, "add_hints", None)] *)
Definition add_hints_if_supported (hints : list FrontierPriorityHint) : Mr unit :=
  match fl_add_hints ops with
  | None => ret tt
  | Some add_hints => fun '(s, e) => let '(r, f) := add_hints hints (ru_frontier s) in (r, (with_frontier f s, e))
  end.

(** One iteration of the loop over the planned seeds. *)
Definition enqueue_planned (source_ref : Ref) (seed : PlannedSeed) : Mr unit :=
  let* outcome := on_frontier (fl_enqueue ops (ps_canonical_url seed) 0 None) in
  match eo_canonical_url outcome with
  | Some canonical_url =>
      if eo_admitted outcome && truthy_str canonical_url then _record_url_observed canonical_url 0 None source_ref else ret tt
  | None => ret tt
  end.

(** [PlanRequest.model_copy(update=...)] *)
Definition replan_request (q : PlanRequest) (feedback_id : string) : PlanRequest :=
  {| pq_id := "plan-req:" +:+ js_id spec +:+ ":2"; pq_run_ref := pq_run_ref q; pq_objective_ref := pq_objective_ref q;
     pq_seed_urls := pq_seed_urls q; pq_budget_ref := pq_budget_ref q; pq_policy_snapshot_ref := pq_policy_snapshot_ref q;
     pq_policy_decision_refs := pq_policy_decision_refs q; pq_replay_config_ref := pq_replay_config_ref q;
     pq_observed_state_refs := pq_observed_state_refs q ++ [feedback_id] |}.

Definition replan (request : PlanRequest) : Mr unit :=
  let* t := _tick_utc_clock in
  let* snap := on_world (ro_snapshot P ("snap:" +:+ js_id spec +:+ ":1") t) in
  let* fb := lift (derive_planner_observation_feedback env ("fb:" +:+ js_id spec +:+ ":1") (pq_run_ref request) snap) in
  let* decision2 := on_world (ro_plan_with_feedback P fb (replan_request request (fb_id fb))) in
  do* on_object (with_planning (with_decision_2 decision2)) in
  do* on_object (with_observing (observed_as (gs_id snap) (fb_id fb))) in
  do* add_hints_if_supported (pd_frontier_priority_hints decision2) in
  do* for_all (enqueue_planned "frontier-admit:replan-seed") (sorted_seeds (pd_planned_seeds decision2)) in
  on_object (with_observing replanned).

Definition _maybe_replan : Mr bool :=
  let* active := _s6_active in
  let* s := gets fst in
  if ob_replan_done (ru_observing s) || negb active || (ta_fetch_count (ru_tally s) <? 1) || negb (rg_feedback_aware_planner_factory args)
  then ret false
  else match pl_original_plan_request (ru_planning s) with
       | None => raise AssertionError
       | Some request => do* replan request in ret true
       end.

(** The seeds, before the loop. *)
Definition enqueue_seeds : Mr unit :=
  if s3_mode args then
    let* request := on_world (ro_plan_request P) in
    do* on_object (with_planning (with_request request)) in
    let* decision := on_world (ro_plan P request) in
    do* on_object (with_planning (with_decision decision)) in
    do* add_hints_if_supported (pd_frontier_priority_hints decision) in
    for_all (enqueue_planned "frontier-admit:seed") (sorted_seeds (pd_planned_seeds decision))
  else for_all (fun seed => do* on_frontier (fl_enqueue ops seed 0 None) in ret tt) (js_seed_urls spec).

(** *** Fetching *)

Definition _robots_allowed (url : string) : Mr bool :=
  if bool_decide (js_robots_policy spec = WARN) then ret true
  else let* advice := on_world (ro_robots P url (rn_user_agent cfg)) in ret (ra_is_allowed advice).

Definition _floor_from_spec : RateLimitFloor :=
  let rate := js_rate_limit spec in
  {| fl_crawl_delay_seconds := rl_crawl_delay_seconds rate;
     fl_request_rate := if 0 <? rl_requests_per_minute rate then Some (rl_requests_per_minute rate, 60) else None;
     fl_retry_after_seconds := None |}.

(** The priors in force. *)
Definition current_priors (p : Planning) : list AdapterPrior :=
  match pl_plan_decision_2 p, pl_plan_decision p with
  | Some d, _ => pd_adapter_priors d
  | None, Some d => pd_adapter_priors d
  | None, None => []
  end.

(** The adapter type for the limiter, and the fetcher: the one of the map, or
    the single one. *)
Definition _select_fetcher (item : FrontierItem) : Mr (AdapterType * option AdapterType) :=
  match rg_fetcher_map args, rg_replay_seed_ref args with
  | Some fetcher_map, Some replay_seed_ref =>
      let* planning := gets (fun '(s, _) => ru_planning s) in
      let* adapter_type := lift (_choose_fetcher sha256_hexdigest first_random item (current_priors planning) fetcher_map replay_seed_ref
                                   (js_source_adapters spec)) in
      do* on_object (with_planning (with_choice (it_canonical_url item) adapter_type)) in
      ret (adapter_type, Some adapter_type)
  | _, _ => ret (HTTP, None)
  end.

Definition _parse_retry_after (value : option string) : M E (option float) :=
  match value with
  | None => ret None
  | Some value =>
      let stripped := strip value in
      if negb (truthy_str stripped) then ret None
      else match float_of_str stripped with
           | Some seconds => ret (if PrimFloat.leb 0 seconds then Some seconds else None)
           | None =>
               match parsedate stripped with
               | None => ret None
               | Some at_us =>
                   let* now := ro_now P in
                   let* delta := lift (int_truediv (at_us - now) 1000000) in
                   ret (if PrimFloat.ltb 0 delta then Some delta else None)
               end
           end
  end.

(** [failures.append({..., "at": _now()})] *)
Definition record_failure (url error : string) : Mr unit :=
  let* at_ := on_world (ro_now P) in
  on_object (with_tally (fail_with {| fa_canonical_url := url; fa_stage := "fetch"; fa_error := error; fa_at := at_ |})).

Definition retry_after_header (outcome : FetchOutcome) : option string :=
  match dict_get (fo_headers outcome) "Retry-After" with
  | Some value => if truthy_str value then Some value else dict_get (fo_headers outcome) "retry-after"
  | None => dict_get (fo_headers outcome) "retry-after"
  end.

Definition _fetch (url : string) (fetcher : option AdapterType) (permit : Permit) : Mr (option FetchOutcome) :=
  let* fetched := attempt (on_world (ro_fetch P fetcher url)) in
  match fetched with
  | Raise (FetchError msg) => do* record_failure url msg in ret None
  | Raise e => raise e
  | Ok outcome =>
      if bool_decide (fo_status_code outcome ∈ [429; 503]) then
        do* record_failure url ("HTTP " +:+ pretty (fo_status_code outcome)) in
        let* retry_after := on_world (_parse_retry_after (retry_after_header outcome)) in
        do* on_world (ro_report_throttled P permit retry_after) in
        ret None
      else if 400 <=? fo_status_code outcome then
        do* record_failure url ("HTTP " +:+ pretty (fo_status_code outcome)) in ret None
      else
        do* on_world (ro_report_success P permit) in
        ret (Some outcome)
  end.

(** [with limiter.acquire(...) as permit: return self._fetch(...)] *)
Definition _fetch_with_rate_limit (item : FrontierItem) : Mr (option FetchOutcome) :=
  let url := it_canonical_url item in
  let* origin := lift (_origin_of env url) in
  let* route_class := lift (_route_class_for env url) in
  let* (adapter_type, fetcher) := _select_fetcher item in
  let* permit := on_world (ro_acquire P origin route_class adapter_type _floor_from_spec) in
  let* r := attempt (_fetch url fetcher permit) in
  do* on_world (ro_release P permit) in
  lift r.

(** *** Storing *)

Definition body_digest (outcome : FetchOutcome) : string := sha256_hexdigest (String.string_of_list_byte (fo_body outcome)).

Definition artifact_ref_of_body (outcome : FetchOutcome) : string :=
  _artifact_category (fo_content_type outcome) +:+ "/" +:+ String.substring 0 24 (body_digest outcome)
  +:+ _extension_for_content_type (fo_content_type outcome).

Definition _persist_artifact (canonical_url : string) (outcome : FetchOutcome) : Mr string :=
  let artifact_ref := artifact_ref_of_body outcome in
  do* on_world (ro_put_bytes P artifact_ref (fo_body outcome)
        (if truthy_str (fo_content_type outcome) then fo_content_type outcome else "application/octet-stream")
        [("source_url", canonical_url); ("privacy_classification", "internal"); ("replay_ref", "fetch:" +:+ body_digest outcome);
         ("final_url", fo_final_url outcome); ("status_code", pretty (fo_status_code outcome))]) in
  ret artifact_ref.

Definition _document_record (item : FrontierItem) (outcome : FetchOutcome) (artifact_ref : string) : Mr DocumentRecord :=
  let* fetched_at := on_world (ro_now P) in
  ret {| dr_canonical_url := it_canonical_url item; dr_final_url := fo_final_url outcome; dr_status_code := fo_status_code outcome;
         dr_content_type := fo_content_type outcome; dr_content_digest := body_digest outcome;
         dr_size_bytes := Z.of_nat (length (fo_body outcome)); dr_artifact_ref := artifact_ref;
         dr_artifact_category := (partition "/" artifact_ref).1.1; dr_depth := it_depth item;
         dr_parent_canonical_url := it_parent_canonical_url item; dr_fetched_at := fetched_at;
         dr_redirect_chain := fo_redirect_chain outcome |}.

Definition _write_redirect_hops (canonical_url : string) (outcome : FetchOutcome) : Mr unit :=
  for_all (fun hop =>
    let* observed_at := on_world (ro_now P) in
    on_object (with_outputs (write_redirect
      {| rd_canonical_url := canonical_url; rd_from_url := ch_from_url hop; rd_to_url := ch_to_url hop;
         rd_status_code := ch_status_code hop; rd_observed_at := observed_at |}))) (fo_redirect_history outcome).

Definition extract_candidate (candidate : ExtractionCandidate Value) : Mr unit :=
  do* on_object (with_outputs (write_candidate candidate)) in
  do* on_object (with_tally count_candidate) in
  do* on_object (with_outputs (write_evidence (_evidence_packet_record candidate))) in
  do* on_object (with_tally count_evidence) in
  on_object (with_tally (cite (map na_raw_artifact_ref (xc_evidence_anchors candidate)))).

Definition _run_extractors (canonical_url : string) (normalized : NormalizedDocument) (body : list Byte.byte)
    (content_type artifact_ref : string) : Mr unit :=
  let* request := lift (validate_extraction_request
    {| xr_canonical_url := canonical_url; xr_normalized_text := nd_text normalized; xr_raw_body := body; xr_content_type := content_type;
       xr_raw_artifact_ref := artifact_ref; xr_anchors := nd_anchors normalized |}) in
  for_all (fun extract =>
    let* candidates := on_world (extract request) in
    for_all extract_candidate candidates) (ro_extractors P).

(** *** Discovery *)

(** The loop over the children of a sitemap index. *)
Fixpoint collect_children (child_locs : list string) : M E (list string) :=
  match child_locs with
  | [] => ret []
  | child :: child_locs =>
      let* bundle := discover fromstring (ro_fetch P None) child in
      let* collected := collect_children child_locs in
      ret (sb_discovered_urls bundle ++ collected)
  end.

Definition _discover_links (outcome : FetchOutcome) : M E (list string) :=
  let content_type := lower (fo_content_type outcome) in
  if str_contains "html" content_type then ro_extract_links P (fo_final_url outcome) (fo_body outcome) (fo_content_type outcome)
  else if str_contains "xml" content_type || str_contains "rss" content_type then
    let '(urls, child_locs, _) := _parse_locs fromstring (fo_body outcome) in
    if truthy_list urls then ret urls
    else if truthy_list child_locs then collect_children child_locs
    else let '(feed_urls, _, _) := _parse_feed fromstring (fo_body outcome) in ret feed_urls
  else ret [].

(** [try: canonicalize_url(raw) except ValueError: None] *)
Definition canonical_or_none (raw : string) : res (option string) :=
  match canonicalize_url env raw with
  | Ok canonical => Ok (Some canonical)
  | Raise e => if subclass_value_error e then Ok None else Raise e
  end.

(** One iteration of the loop over the discovered links. *)
Definition enqueue_discovered (item : FrontierItem) (raw : string) : Mr unit :=
  let* canonical := lift (canonical_or_none raw) in
  let* outcome := on_frontier (fl_enqueue ops raw (it_depth item + 1) (Some (it_canonical_url item))) in
  do* (match eo_canonical_url outcome with
       | Some canonical_url =>
           if eo_admitted outcome && truthy_str canonical_url
           then _record_url_observed canonical_url (it_depth item + 1) (Some (it_canonical_url item)) "frontier-admit:discovery"
           else ret tt
       | None => ret tt
       end) in
  on_object (with_outputs (write_link
    {| lr_parent_canonical_url := it_canonical_url item; lr_discovered_url := raw; lr_canonical_url := canonical;
       lr_admitted := eo_admitted outcome; lr_skip_reason := eo_skip_reason outcome |})).

Definition _discover_and_enqueue (item : FrontierItem) (outcome : FetchOutcome) : Mr unit :=
  let* discovered := on_world (_discover_links outcome) in
  do* _record_page_structure_observed (it_canonical_url item) (Z.of_nat (length discovered)) in
  for_all (enqueue_discovered item) discovered.

(** *** The loop *)

(** What follows a fetch that returned a document. *)
Definition process_page (item : FrontierItem) (outcome : FetchOutcome) : Mr unit :=
  let url := it_canonical_url item in
  do* on_frontier (fl_mark_fetched ops url) in
  do* on_object (with_tally count_fetch) in
  do* _record_redirect_observed outcome in
  do* _write_redirect_hops url outcome in
  let* artifact_ref := _persist_artifact url outcome in
  let* record := _document_record item outcome artifact_ref in
  do* on_object (with_outputs (write_document record)) in
  let* normalized := on_world (normalize_document html_tokens sha256_hexdigest url (fo_body outcome) (fo_content_type outcome) artifact_ref
                                (ro_pdf_extractor P) (fo_redirect_chain outcome ++ [fo_final_url outcome])) in
  do* on_object (with_outputs (write_normalized (_normalized_record normalized))) in
  do* (if bool_decide (nd_status normalized = "ok") && truthy_list (ro_extractors P)
       then _run_extractors url normalized (fo_body outcome) (fo_content_type outcome) artifact_ref else ret tt) in
  _discover_and_enqueue item outcome.

(** The body of the loop after a [pop] that returned an item. *)
Definition visit_item (item : FrontierItem) : Mr unit :=
  let* allowed := _robots_allowed (it_canonical_url item) in
  if negb allowed then on_frontier (fl_skip ops (it_canonical_url item) SKIP_ROBOTS_DENIED)
  else
    let* fetched := _fetch_with_rate_limit item in
    match fetched with
    | None => ret tt
    | Some outcome => process_page item outcome
    end.

(** One iteration: the stop reason when it breaks. *)
Definition iteration (deadline : float) : Mr (option string) :=
  let* now := on_world (ro_clock P) in
  if PrimFloat.ltb deadline now then ret (Some "runtime_exceeded")
  else
    let* popped := on_frontier (fl_pop ops) in
    match popped with
    | None =>
        let* exhausted := gets (fun '(s, _) => budget_exhausted (fl_base ops (ru_frontier s))) in
        if exhausted then ret (Some "budget_exhausted")
        else
          let* replanned := _maybe_replan in
          ret (if replanned : bool then None else Some "queue_drained")
    | Some item => do* visit_item item in ret None
    end.

Fixpoint crawl_loop (fuel : nat) (deadline : float) : Mr (option string) :=
  match fuel with
  | O => ret None
  | S fuel =>
      let* stop := iteration deadline in
      match stop with Some reason => ret (Some reason) | None => crawl_loop fuel deadline end
  end.

(** *** The reports *)

(** The loop over the cited artifacts: those that are missing. *)
Fixpoint missing_artifacts (refs : list string) : M E (list string) :=
  match refs with
  | [] => ret []
  | ref :: refs =>
      let* present := ro_is_file P ref in
      let* missing := missing_artifacts refs in
      ret (if present : bool then missing else ref :: missing)
  end.

Definition _build_replay_report : Mr ReplayReport :=
  let* cited := gets (fun '(s, _) => ta_cited_artifact_refs (ru_tally s)) in
  let* missing := on_world (missing_artifacts (py_sorted String.leb (elements cited))) in
  let* checked_at := on_world (ro_now P) in
  ret {| rp_artifacts_cited := Z.of_nat (size cited); rp_missing_refs := missing;
         rp_status := if truthy_list missing then "needs_review" else "complete"; rp_checked_at := checked_at |}.

Definition sum_counts (d : dict SkipReason Z) : Z := foldl Z.add 0 (dict_values d).
Definition policy_denials (d : dict SkipReason Z) : Z :=
  foldl (fun n reason => n + dict_get_or d reason 0) 0 [SKIP_PRIVATE_NETWORK_DENIED; SKIP_DENIED_DOMAIN; SKIP_ROBOTS_DENIED].

(** The report of a state: [_build_report] with the entries that [run] adds. *)
Definition report_of (s : State) (stop_reason : string) (started_at completed_at : Z) (replay : ReplayReport) : RunReport :=
  let counters := b_counters (fl_base ops (ru_frontier s)) in
  let observing := ru_observing s in let planning := ru_planning s in let tally := ru_tally s in
  {| rep_stop_reason := stop_reason; rep_started_at := started_at; rep_completed_at := completed_at; rep_seed_urls := js_seed_urls spec;
     rep_pages_fetched := fc_fetched counters; rep_pages_skipped := sum_counts (fc_skipped_by_reason counters);
     rep_skipped_by_reason := fc_skipped_by_reason counters; rep_artifacts_written := fc_fetched counters;
     rep_extraction_candidates := ta_candidates_written tally; rep_evidence_packets := ta_evidence_packets_written tally;
     rep_failures := ta_failures tally; rep_policy_denials := policy_denials (fc_skipped_by_reason counters);
     rep_replay_completeness_result := rp_status replay;
     rep_plan_decision := plan_summary <$> pl_plan_decision planning; rep_plan_decision_2 := plan_summary <$> pl_plan_decision_2 planning;
     rep_observation_snapshot_ref := ob_snapshot_ref observing; rep_observation_feedback_ref := ob_feedback_ref observing;
     rep_utc_clock_ref := rg_utc_clock_ref args;
     rep_clock_trace := if truthy_list (ob_clock_trace observing) then Some (ob_clock_trace observing) else None;
     rep_replan_invoked := ob_replan_done observing; rep_replay_seed_ref := rg_replay_seed_ref args;
     rep_adapter_dispatch_choices := if given (rg_fetcher_map args) then Some (pl_dispatch_choices planning) else None;
     rep_replay_consumer_ref := if rg_replay_consumer args then Some "replay-consumer:active" else None;
     rep_replay_invocation_count := if rg_replay_consumer args then Some (ob_replay_invocation_count observing) else None |}.

(** What [run] does after its loop. *)
Definition finish (stop_reason : string) (started_at : Z) : Mr RunReport :=
  let* events := gets (fun '(s, _) => b_events (fl_base ops (ru_frontier s))) in
  do* on_object (with_outputs (write_events events)) in
  let* completed_at := on_world (ro_now P) in
  let* replay := _build_replay_report in
  let* s := gets fst in
  ret (report_of s stop_reason started_at completed_at replay).

Definition run (fuel : nat) : Mr (option RunReport) :=
  do* on_object (with_outputs (fun _ => no_outputs)) in
  do* enqueue_seeds in
  do* on_object (with_tally no_failures) in
  let* started_at := on_world (ro_now P) in
  let* start := on_world (ro_clock P) in
  let* budget := lift (float_of_int (js_max_runtime_seconds spec)) in
  let* stop := crawl_loop fuel (PrimFloat.add start budget) in
  match stop with
  | None => ret None
  | Some reason => let* report := finish reason started_at in ret (Some report)
  end.
End Runner.
