(* ===== verification/CrawlRun.v ===== *)
(** * Runs of the external crawl

    What every run of [CrawlRunner.run] does, whatever the ports answer, for any
    frontier with the laws of [FrontierLike]. The ports record their calls in a
    trace. Theorems: a run visits distinct URLs of the job's policy, each
    admitted by robots and fetched under a permit that is given back, and writes
    the documents of the pages stored; the report counts them and its stop reason
    is the state of the frontier; the loop ends. *)
From Stdlib Require Import Strings.Byte Floats.
From S2P Require Import Prelude PyDict PyStr PyFloat Contracts UrlLib Url RateLimiter Robots Frontier PriorityFrontier.
From S2P Require Import FrontierLike HttpAdapter CrawlContracts Normalize Sitemaps CrawlRunner Trace.
Local Open Scope Z_scope.

(** ** The calls of a run *)

Inductive call (Permit : Type) :=
  | Asked (url : string) (answer : res RobotsAdvice)
  | Acquired (origin : string) (route_class : RouteClass) (adapter : AdapterType) (floor : RateLimitFloor) (answer : res Permit)
  | Fetched (fetcher : option AdapterType) (url : string) (answer : res FetchOutcome)
  | Succeeded (permit : Permit)
  | Throttled (permit : Permit) (retry_after : option float)
  | Released (permit : Permit)
  | Stored (artifact_ref : string) (body : list Byte.byte).
Arguments Asked {Permit} url answer.
Arguments Acquired {Permit} origin route_class adapter floor answer.
Arguments Fetched {Permit} fetcher url answer.
Arguments Succeeded {Permit} permit.
Arguments Throttled {Permit} permit retry_after.
Arguments Released {Permit} permit.
Arguments Stored {Permit} artifact_ref body.

(** The calls that matter are recorded, with what they returned; the others
    record nothing. *)
Class RunnerLaws {Permit Value E : Type} (P : RunnerPorts Permit Value E) := {
  calls : E -> list (call Permit);
  robots_calls url ua e : calls (ro_robots P url ua e).2 = calls e ++ [Asked url (ro_robots P url ua e).1];
  acquire_calls o rc ad fl e : calls (ro_acquire P o rc ad fl e).2 = calls e ++ [Acquired o rc ad fl (ro_acquire P o rc ad fl e).1];
  fetch_calls f url e : calls (ro_fetch P f url e).2 = calls e ++ [Fetched f url (ro_fetch P f url e).1];
  success_calls p e : calls (ro_report_success P p e).2 = calls e ++ [Succeeded p];
  throttled_calls p ra e : calls (ro_report_throttled P p ra e).2 = calls e ++ [Throttled p ra];
  release_calls p e : calls (ro_release P p e).2 = calls e ++ [Released p];
  put_calls ref body ct md e : calls (ro_put_bytes P ref body ct md e).2 = calls e ++ [Stored ref body];
  clock_silent e : calls (ro_clock P e).2 = calls e;
  now_silent e : calls (ro_now P e).2 = calls e;
  utc_silent e : calls (ro_next_utc P e).2 = calls e;
  is_file_silent ref e : calls (ro_is_file P ref e).2 = calls e;
  pdf_silent extract body e : ro_pdf_extractor P = Some extract -> calls (extract body e).2 = calls e;
  links_silent base body ct e : calls (ro_extract_links P base body ct e).2 = calls e;
  extractors_silent extract q e : extract ∈ ro_extractors P -> calls (extract q e).2 = calls e;
  plan_request_silent e : calls (ro_plan_request P e).2 = calls e;
  plan_silent q e : calls (ro_plan P q e).2 = calls e;
  replan_silent fb q e : calls (ro_plan_with_feedback P fb q e).2 = calls e;
  url_observed_silent ev e : calls (ro_record_url_observed P ev e).2 = calls e;
  redirect_observed_silent ev e : calls (ro_record_redirect_observed P ev e).2 = calls e;
  page_observed_silent ev e : calls (ro_record_page_structure_observed P ev e).2 = calls e;
  snapshot_silent id t e : calls (ro_snapshot P id t e).2 = calls e }.

(** ** The choice of a fetcher *)

Lemma bisect_right_bounds fuel a x lo hi : (lo <= hi)%nat -> (lo <= bisect_right fuel a x lo hi <= hi)%nat.
Proof.
  revert lo hi. induction fuel as [|fuel IH]; intros lo hi Hle; simpl; [lia|].
  case_bool_decide as Hlt; [|lia]. pose proof (Nat.div2_div (lo + hi)) as Hd.
  pose proof (Nat.div_mod (lo + hi) 2 ltac:(lia)). pose proof (Nat.mod_upper_bound (lo + hi) 2 ltac:(lia)).
  destruct (PrimFloat.ltb x _).
  - specialize (IH lo (Nat.div2 (lo + hi)) ltac:(lia)). lia.
  - specialize (IH (S (Nat.div2 (lo + hi))) hi ltac:(lia)). lia.
Qed.

Lemma choices_in {A} first_random seed (population : list A) weights x :
  choices first_random seed population weights = Ok x -> x ∈ population.
Proof.
  unfold choices. destruct (last _) as [total|]; [|done]. intros H. run_m H.
  destruct (population !! _) as [y|] eqn:Hy; [|done]. injection H as <-. by eapply list_elem_of_lookup_2.
Qed.

Lemma choose_fetcher_in sha first_random item priors fetchers seed adapters a :
  _choose_fetcher sha first_random item priors fetchers seed adapters = Ok a ->
  a ∈ adapters /\ a ∈ fetchers /\ exists p, p ∈ priors /\ ap_adapter_type p = a.
Proof.
  unfold _choose_fetcher. intros H. run_m H. apply choices_in in Hr3. unfold eligible_priors in Hr3.
  apply list_elem_of_filter in Hr3 as [[? ?] ?]. split_and!; [done..|]. eauto.
Qed.

(** A choice is always made when a prior is eligible and the weights are
    numbers with a positive finite sum. *)
Lemma choices_total {A} first_random seed (population : list A) weights total :
  population <> [] -> last (cumulative weights) = Some total -> PrimFloat.leb total 0 = false -> isfinite total = true ->
  exists x, choices first_random seed population weights = Ok x.
Proof.
  intros Hp Hl Ht Hf. unfold choices. rewrite Hl, Ht, Hf. cbn [rbind guard negb].
  assert (0 < length population)%nat as Hlen by (destruct population; [done|simpl; lia]).
  match goal with |- context [population !! ?i] => destruct (population !! i) as [x|] eqn:Hx end; [by exists x|exfalso].
  apply lookup_ge_None in Hx. pose proof (bisect_right_bounds (S (pred (length population))) (cumulative weights)
    (PrimFloat.mul (first_random seed) total) 0 (pred (length population)) ltac:(lia)). lia.
Qed.

(** ** The protocol of a run *)

Section Protocol.
Context (env : NetEnv) (sha256_hexdigest : string -> string).
Context {Permit : Type} (cfg : RunnerConfig).
#[local] Abbreviation spec := (rn_spec cfg).
#[local] Abbreviation trace := (list (call Permit)).

(** A URL of the job's policy, as admitted by a frontier with configuration [c]. *)
Definition in_policy (c : FrontierConfig) (item : FrontierItem) : Prop :=
  it_depth item <= fr_max_depth c /\
  exists url, classify_url env url (fr_allowed_domains c) (fr_denied_domains c) (fr_allow_loopback c) =
    Ok {| df_admit := true; df_reason := None; df_canonical_url := Some (it_canonical_url item) |}.

(** Robots let the URL through, or did not. *)
Definition admitted (url : string) (t : trace) : Prop :=
  (js_robots_policy spec = WARN /\ t = []) \/
  (js_robots_policy spec <> WARN /\ exists advice, ra_is_allowed advice = true /\ t = [Asked url (Ok advice)]).
Definition barred (url : string) (t : trace) : Prop :=
  js_robots_policy spec <> WARN /\ exists answer, t = [Asked url answer] /\ (forall advice, answer = Ok advice -> ra_is_allowed advice = false).

(** How the limiter hears of a response, and what the runner makes of it. An
    exception may end the fetch wherever a port is called. *)
Definition throttling (outcome : FetchOutcome) : Prop := fo_status_code outcome ∈ [429; 503].
Inductive told (permit : Permit) : res FetchOutcome -> trace -> Prop :=
  | Told_nothing answer : told permit answer []
  | Told_throttled outcome retry_after : throttling outcome -> told permit (Ok outcome) [Throttled permit retry_after]
  | Told_success outcome : ~ throttling outcome -> fo_status_code outcome < 400 -> told permit (Ok outcome) [Succeeded permit].
Inductive answered (permit : Permit) : res FetchOutcome -> trace -> res (option FetchOutcome) -> Prop :=
  | Unreachable msg : answered permit (Raise (FetchError msg)) [] (Ok None)
  | Slowed outcome retry_after : throttling outcome -> answered permit (Ok outcome) [Throttled permit retry_after] (Ok None)
  | Failing outcome : ~ throttling outcome -> 400 <= fo_status_code outcome -> answered permit (Ok outcome) [] (Ok None)
  | Returned outcome : ~ throttling outcome -> fo_status_code outcome < 400 ->
      answered permit (Ok outcome) [Succeeded permit] (Ok (Some outcome))
  | Aborted answer report x : told permit answer report -> answered permit answer report (Raise x).

(** One fetcher: the single one, or one of the map that the job names. *)
Definition selected (adapter : AdapterType) (fetcher : option AdapterType) : Prop :=
  (adapter = HTTP /\ fetcher = None) \/
  (fetcher = Some adapter /\ adapter ∈ js_source_adapters spec /\ exists m, rg_fetcher_map (rn_args cfg) = Some m /\ adapter ∈ m).

(** A fetch is one request under one permit, which is given back. *)
Inductive session (url : string) : trace -> res (option FetchOutcome) -> Prop :=
  | Unselected x : session url [] (Raise x)
  | Unpermitted o rc ad x : session url [Acquired o rc ad (_floor_from_spec cfg) (Raise x)] (Raise x)
  | Permitted origin route_class adapter fetcher permit answer report r :
      _origin_of env url = Ok origin -> _route_class_for env url = Ok route_class -> selected adapter fetcher ->
      answered permit answer report r ->
      session url (Acquired origin route_class adapter (_floor_from_spec cfg) (Ok permit) :: Fetched fetcher url answer :: report ++ [Released permit]) r.

(** The record of a page. *)
Definition describes (item : FrontierItem) (outcome : FetchOutcome) (d : DocumentRecord) : Prop :=
  dr_canonical_url d = it_canonical_url item /\ dr_depth d = it_depth item /\ dr_parent_canonical_url d = it_parent_canonical_url item /\
  dr_final_url d = fo_final_url outcome /\ dr_status_code d = fo_status_code outcome /\
  dr_content_digest d = body_digest sha256_hexdigest outcome /\ dr_artifact_ref d = artifact_ref_of_body sha256_hexdigest outcome.

(** A request for the child of a sitemap index, which is the runner's own. *)
Definition child_request (c : call Permit) : Prop := exists url answer, c = Fetched None url answer.
Definition is_xml (content_type : string) : bool :=
  negb (str_contains "html" (lower content_type)) && (str_contains "xml" (lower content_type) || str_contains "rss" (lower content_type)).

(** After a page was fetched: its body is stored, and then its record written.
    A page that is a sitemap index may request its children. *)
Inductive page (item : FrontierItem) (outcome : FetchOutcome) : trace -> list DocumentRecord -> Prop :=
  | Unstored : page item outcome [] []
  | Unwritten : page item outcome [Stored (artifact_ref_of_body sha256_hexdigest outcome) (fo_body outcome)] []
  | Written children d : describes item outcome d ->
      Forall child_request children -> (children <> [] -> is_xml (fo_content_type outcome) = true) ->
      page item outcome (Stored (artifact_ref_of_body sha256_hexdigest outcome) (fo_body outcome) :: children) [d].

Inductive visit (item : FrontierItem) : trace -> list DocumentRecord -> Prop :=
  | Barred t : barred (it_canonical_url item) t -> visit item t []
  | Failed_fetch t1 t2 r : admitted (it_canonical_url item) t1 -> session (it_canonical_url item) t2 r ->
      (forall outcome, r <> Ok (Some outcome)) -> visit item (t1 ++ t2) []
  | Fetched_page t1 t2 t3 outcome docs : admitted (it_canonical_url item) t1 -> session (it_canonical_url item) t2 (Ok (Some outcome)) ->
      page item outcome t3 docs -> visit item (t1 ++ t2 ++ t3) docs.

(** The items of a run, its calls and its documents. *)
Inductive visits : list FrontierItem -> trace -> list DocumentRecord -> Prop :=
  | No_more : visits [] [] []
  | Next item items t ts docs docs' : visit item t docs -> visits items ts docs' -> visits (item :: items) (t ++ ts) (docs ++ docs').
End Protocol.

(** ** Running: frontiers and loops *)

Section Emits.
Context {F Value E Permit : Type} {P : RunnerPorts Permit Value E} `{L : !RunnerLaws P}.
#[local] Abbreviation State := (RunnerState F Value).
#[local] Abbreviation Mr A := (M (State * E) A).
#[local] Abbreviation emits := (emits (L := State) (calls (P := P))).
#[local] Abbreviation still := (still (L := State) (calls (P := P))).

Lemma emits_frontier {A} (m : Z -> M F A) (s : State) (Q : list (call Permit) -> res A -> State -> Prop) : (forall x, Q [] (Raise x) s) ->
  (forall now r f, m now (ru_frontier s) = (r, f) -> Q [] r (with_frontier f s)) -> emits (on_frontier P m) s Q.
Proof.
  intros Hx HQ e. exists []. rewrite app_nil_r. unfold on_frontier. pose proof (now_silent e) as Hn.
  destruct (ro_now P e) as [[now|x] e1]; simpl in *; [|by split].
  destruct (m now (ru_frontier s)) as [r f] eqn:Hm. simpl. split; [done|]. by eapply HQ.
Qed.

Lemma still_frontier (R : State -> State -> Prop) {A} (m : Z -> M F A) :
  (forall now s x f, m now (ru_frontier s) = (Ok x, f) -> R s (with_frontier f s)) -> still R (on_frontier P m).
Proof. intros Hm s. apply emits_frontier; [done|]. intros now r f H. split; [done|]. destruct r; [by eapply Hm|done]. Qed.

Lemma still_for_all (R : State -> State -> Prop) `{!PreOrder R} {A} (f : A -> Mr unit) l :
  (forall x, x ∈ l -> still R (f x)) -> still R (for_all f l).
Proof.
  induction l as [|x l IH]; intros Hf; simpl; [by apply still_ret|]. apply still_bind; [done|apply Hf; left|].
  intros _. apply IH. intros y Hy. apply Hf. by right.
Qed.
End Emits.

(** ** What the parts of a run keep *)

Definition Pages : Type := list (option string * option Z) * list (option string * option Z) * gset string * Z
  * list DocumentRecord * list NormalizedRecord * Z.

Section Kept.
Context (env : NetEnv) {F Value : Type} (ops : FrontierOps F) `{FL : !FrontierLaws env ops} (c : FrontierConfig).
#[local] Abbreviation State := (RunnerState F Value).
#[local] Abbreviation base s := (fl_base ops (ru_frontier s)).
#[local] Abbreviation log kind s := (logged kind (b_events (base s))).

(** The frontier of a run: what is queued is of the job's policy, and what was
    fetched was dequeued and is within the budget. *)
Record running (f : F) : Prop := {
  rn_inv : fl_inv f;
  rn_config : b_config (fl_base ops f) = c;
  rn_queued : Forall (in_policy env c) (fl_queue f);
  rn_fetched u : u ∈ b_fetched (fl_base ops f) -> Some u ∈ (logged "dequeued" (b_events (fl_base ops f))).*1;
  rn_budget : fc_fetched (b_counters (fl_base ops f)) <= fr_max_pages c }.

(** The counters of candidates and packets are those of the files. *)
Definition tallied (s : State) : Prop :=
  ta_candidates_written (ru_tally s) = Z.of_nat (length (ou_candidates (ru_outputs s))) /\
  ta_evidence_packets_written (ru_tally s) = Z.of_nat (length (ou_evidence (ru_outputs s))).

(** The pages of a run: what its frontier logs of them, and what was written. *)
Definition pages (s : State) : Pages :=
  (log "fetched" s, log "dequeued" s, b_fetched (base s), fc_fetched (b_counters (base s)),
   ou_documents (ru_outputs s), ou_normalized (ru_outputs s), ta_fetch_count (ru_tally s)).

(** No page is added: the frontier may grow. *)
Definition grows (s s' : State) : Prop :=
  running (ru_frontier s) -> running (ru_frontier s') /\ pages s' = pages s /\
    (tallied s -> tallied s') /\ (ob_replan_done (ru_observing s) = true -> ob_replan_done (ru_observing s') = true).

#[export] Instance grows_preorder : PreOrder grows.
Proof.
  split; [by intros s Hs|]. intros s1 s2 s3 H1 H2 Hs. destruct (H1 Hs) as (Hs2 & E2 & T2 & D2). destruct (H2 Hs2) as (Hs3 & E3 & T3 & D3).
  split_and!; [done|congruence|auto..].
Qed.

Lemma enqueued_same url depth parent now b queue r b' queue' : enqueued env url depth parent now b queue r b' queue' ->
  b_config b' = b_config b /\ b_fetched b' = b_fetched b /\ fc_fetched (b_counters b') = fc_fetched (b_counters b) /\
  logged "fetched" (b_events b') = logged "fetched" (b_events b) /\ logged "dequeued" (b_events b') = logged "dequeued" (b_events b).
Proof. destruct 1; simpl; rewrite ?logged_snoc; simpl; by rewrite ?app_nil_r. Qed.

Lemma enqueued_policy url depth parent now b queue r b' queue' : enqueued env url depth parent now b queue r b' queue' ->
  b_config b = c -> Forall (in_policy env c) queue -> Forall (in_policy env c) queue'.
Proof.
  destruct 1 as [canonical queue' (Hc & Hd & _) item ->| |]; intros Hcfg Hq; [|done..]. constructor; [|done]. subst c. by split; [|exists url].
Qed.

Lemma enqueue_grows url depth parent now (s : State) x f :
  fl_enqueue ops url depth parent now (ru_frontier s) = (Ok x, f) -> grows s (with_frontier f s).
Proof.
  intros H [Hi Hc Hq Hf Hb]. destruct (fl_enqueue_law _ _ _ _ _ _ _ Hi H) as [Hi' He].
  destruct (enqueued_same _ _ _ _ _ _ _ _ _ He) as (Ec & Ef & En & El & Ed). pose proof (enqueued_policy _ _ _ _ _ _ _ _ _ He Hc Hq).
  split_and!; [|unfold pages; simpl; congruence|done|done]. split; simpl; try congruence. intros u. rewrite Ef, Ed. apply Hf.
Qed.

Lemma hints_grow add hints (s : State) f : fl_add_hints ops = Some add -> add hints (ru_frontier s) = (Ok tt, f) -> grows s (with_frontier f s).
Proof.
  intros Ha H [Hi Hc Hq Hf Hb]. destruct (fl_hints_law _ _ _ _ _ Ha Hi H) as (Eb & Eq & Hi').
  split_and!; [|unfold pages; simpl; congruence|done|done]. split; simpl; rewrite ?Eb; auto. by rewrite Eq.
Qed.

(** Assignments of other attributes. *)
Lemma object_grows (s s' : State) : ru_frontier s' = ru_frontier s -> pages s' = pages s -> (tallied s -> tallied s') ->
  ob_replan_done (ru_observing s') = ob_replan_done (ru_observing s) -> grows s s'.
Proof. intros Ef Ep Ht Er Hs. rewrite Ef, Er. by split_and!. Qed.
End Kept.
#[export] Existing Instance grows_preorder.

Section Run.
Context (env : NetEnv) (sha256_hexdigest : string -> string) (first_random : Z -> float).
Context (float_of_str : string -> option float) (parsedate : string -> option Z).
Context (html_tokens : string -> option (list HtmlToken)) (fromstring : list Byte.byte -> option Element).
Context {F Permit Value E : Type} (ops : FrontierOps F) `{FL : !FrontierLaws env ops}.
Context (P : RunnerPorts Permit Value E) `{L : !RunnerLaws P} (cfg : RunnerConfig) (c : FrontierConfig).
#[local] Abbreviation State := (RunnerState F Value).
#[local] Abbreviation Mr A := (M (State * E) A).
#[local] Abbreviation spec := (rn_spec cfg).
#[local] Abbreviation grows := (grows env ops c).
#[local] Abbreviation running := (running env ops c).
#[local] Abbreviation emits := (emits (L := State) (calls (P := P))).
#[local] Abbreviation still := (still (L := State) (calls (P := P))).

(** *** Observations, plans and links *)

Ltac assigns := apply still_object; still_goal; by apply object_grows.
Ltac silent := apply still_world; still_goal; first [ apply clock_silent | apply now_silent | apply utc_silent | apply url_observed_silent
  | apply redirect_observed_silent | apply page_observed_silent | apply snapshot_silent | apply plan_silent | apply replan_silent
  | apply plan_request_silent | apply is_file_silent | apply links_silent ].
Ltac still := repeat first [still_step | apply still_for_all; still_goal | silent | assigns].

Lemma still_tick : still grows (_tick_utc_clock P cfg).
Proof. unfold _tick_utc_clock. still. Qed.
Lemma still_run_ref : still grows (_run_ref (F := F) (Value := Value) (E := E)).
Proof. unfold _run_ref. still. Qed.
Lemma still_next_seq : still grows (_next_seq (F := F) (Value := Value) (E := E)).
Proof. unfold _next_seq. still. Qed.
Lemma still_active : still grows (_s6_active (F := F) (Value := Value) (E := E) cfg).
Proof. unfold _s6_active. still. Qed.

Ltac observes := repeat first [apply still_tick | apply still_run_ref | apply still_next_seq | apply still_active | still_step | apply still_for_all; still_goal | silent | assigns].

Lemma still_url_observed url depth parent source : still grows (_record_url_observed env P cfg url depth parent source).
Proof. unfold _record_url_observed. observes. Qed.
Lemma still_redirect_observed outcome : still grows (_record_redirect_observed env P cfg outcome).
Proof. unfold _record_redirect_observed, record_hop. observes. Qed.
Lemma still_page_observed url n : still grows (_record_page_structure_observed env P cfg url n).
Proof. unfold _record_page_structure_observed. observes. Qed.

Lemma still_hints hints : still grows (add_hints_if_supported ops hints).
Proof.
  unfold add_hints_if_supported. destruct (fl_add_hints ops) as [add|] eqn:Ha; [|still].
  intros s e. exists []. rewrite app_nil_r. destruct (add hints (ru_frontier s)) as [[[]|x] f] eqn:H; simpl; [|done].
  split_and!; [done..|]. by eapply hints_grow.
Qed.
Lemma still_enqueue url depth parent : still grows (on_frontier P (fl_enqueue ops url depth parent)).
Proof. apply still_frontier. intros now s x f. apply enqueue_grows. Qed.

Ltac grow := repeat first [apply still_url_observed | apply still_page_observed | apply still_hints | apply still_enqueue | observes].

Lemma still_planned source seed : still grows (enqueue_planned env ops P cfg source seed).
Proof. unfold enqueue_planned. grow. Qed.
Lemma still_seeds : still grows (enqueue_seeds env ops P cfg).
Proof. unfold enqueue_seeds. repeat first [apply still_planned | grow]. Qed.
Lemma still_discovered item raw : still grows (enqueue_discovered env ops P cfg item raw).
Proof. unfold enqueue_discovered. grow. Qed.

(** A replan is not repeated. *)
Definition replanned_once (s s' : State) : Prop := grows s s' /\ (running (ru_frontier s) -> ob_replan_done (ru_observing s') = true).

Lemma still_replan request : still replanned_once (replan env ops P cfg request).
Proof.
  unfold replan. assert (forall s1 s2 s3, grows s1 s2 -> replanned_once s2 s3 -> replanned_once s1 s3) as Ht.
  { intros s1 s2 s3 H1 [H2 Hd]. split; [by transitivity s2|]. intros Hs. by apply Hd, H1. }
  repeat (eapply still_then; [exact Ht|repeat first [apply still_planned | grow]|intros ?]).
  apply still_object. intros s. split; [|done]. by intros Hs.
Qed.

Lemma still_hops url outcome : still grows (_write_redirect_hops P url outcome).
Proof. unfold _write_redirect_hops. grow. Qed.

Lemma still_candidate candidate : still grows (extract_candidate (F := F) (E := E) candidate).
Proof.
  intros s e. exists []. rewrite app_nil_r. simpl. split_and!; [done..|]. apply object_grows; [done..| |done].
  unfold tallied. simpl. rewrite !length_app. simpl. lia.
Qed.
Lemma still_extractors url normalized body ct ref : still grows (_run_extractors P url normalized body ct ref).
Proof.
  unfold _run_extractors. still_step; [still_step|]. apply still_for_all; still_goal.
  still_step; [|apply still_for_all; still_goal; apply still_candidate].
  apply still_world; still_goal. by apply extractors_silent.
Qed.

(** *** One fetch *)

Lemma robots_emits url (s : State) : emits (_robots_allowed P cfg url) s (fun t r s' => s' = s /\
  match r with Ok true => admitted cfg url t | _ => barred cfg url t end).
Proof.
  unfold _robots_allowed. case_bool_decide as Hw; [intros e; exists []; rewrite app_nil_r; by split_and!; [| |left]|].
  apply emits_bind, (emits_call _ (fun r => [Asked url r])); [intros e; apply robots_calls|]. intros [advice|x]; [|split; [done|]; split; [done|]; eexists; by split].
  apply emits_ret. split; [done|]. destruct (ra_is_allowed advice) eqn:Ha; [right; split; [done|eauto]|].
  split; [done|]. eexists. split; [done|]. by intros a [= <-].
Qed.

(** The frontier is left as it was. *)
Definition beside (s s' : State) : Prop := grows s s' /\ ru_frontier s' = ru_frontier s.
#[local] Instance beside_preorder : PreOrder beside.
Proof. split; [by intros s; split|]. intros s1 s2 s3 [? E1] [? E2]. split; [by transitivity s2|by rewrite E2]. Qed.

Ltac assigns_beside := apply still_object; still_goal; split; [by apply object_grows|done].
Ltac still_beside := repeat first [still_step | silent | assigns_beside].

Lemma select_emits item (s : State) : emits (_select_fetcher sha256_hexdigest first_random cfg item) s (fun t r s' => t = [] /\
  match r with Ok (adapter, fetcher) => selected cfg adapter fetcher /\ beside s s' | Raise _ => True end).
Proof.
  unfold _select_fetcher. destruct (rg_fetcher_map (rn_args cfg)) as [m|] eqn:Hm; [destruct (rg_replay_seed_ref _) as [seed|]|];
    try by apply emits_ret; split_and!; [|left|].
  apply emits_bind, emits_gets. intros e. apply emits_bind, emits_lift.
  destruct (_choose_fetcher _ _ _ _ _ _ _) as [a|x] eqn:Ha; [|done].
  apply choose_fetcher_in in Ha as (Hs & Hf & _). apply emits_bind, emits_object, emits_ret.
  split_and!; [done| |split; [by apply object_grows|done]]. right. split_and!; [done..|by exists m].
Qed.

Lemma answered_raise (permit : Permit) answer report r x : answered permit answer report r -> answered permit answer report (Raise x).
Proof. intros H. constructor. destruct H; try done; by constructor. Qed.

Lemma still_failure url error : still beside (record_failure P url error).
Proof. unfold record_failure. still_beside. Qed.
Lemma still_retry_after value : still beside (on_world (_parse_retry_after float_of_str parsedate P value)).
Proof.
  apply still_world; still_goal. unfold _parse_retry_after. destruct value as [value|]; [|done]. destruct (negb _); [done|].
  destruct (float_of_str _); [done|]. destruct (parsedate _); [|done]. unfold bind, lift. pose proof (now_silent e) as Hn.
  destruct (ro_now P e) as [[now|x] e']; [|done]. by destruct (int_truediv _ _).
Qed.

Lemma answer_emits url fetcher permit (s : State) : emits (_fetch float_of_str parsedate P url fetcher permit) s (fun t r s' =>
  exists answer report, t = Fetched fetcher url answer :: report /\ answered permit answer report r /\ (is_ok r = true -> beside s s')).
Proof.
  unfold _fetch. apply emits_bind, emits_attempt, (emits_call _ (fun r => [Fetched fetcher url r])); [intros e; apply fetch_calls|].
  intros answer. assert (forall x s', exists answer' report, [Fetched fetcher url answer] = Fetched fetcher url answer' :: report /\
    answered permit answer' report (Raise (A := option FetchOutcome) x) /\ (is_ok (Raise (A := option FetchOutcome) x) = true -> beside s s')) as Habort.
  { intros x s'. exists answer, []. split_and!; [done| |done]. apply Aborted; by constructor. }
  destruct answer as [outcome|x].
  - case_bool_decide as Hs; [|destruct (Z.leb_spec 400 (fo_status_code outcome)) as [Hc|Hc]].
    + eapply emits_kept; [apply still_failure|apply Habort|intros _ s1 H1].
      eapply emits_kept; [apply still_retry_after|apply Habort|intros ra s2 H2].
      apply emits_bind, (emits_call _ (fun _ => [Throttled permit ra])); [intros e; apply throttled_calls|].
      intros [u|x]; [apply emits_ret|]; exists (Ok outcome), [Throttled permit ra]; (split_and!; [done| |]); try done; [by constructor| |].
      * intros _. by transitivity s1.
      * apply Aborted; by constructor.
    + eapply emits_kept; [apply still_failure|apply Habort|intros _ s1 H1]. apply emits_ret. exists (Ok outcome), [].
      split_and!; [done|by constructor|done].
    + apply emits_bind, (emits_call _ (fun _ => [Succeeded permit])); [intros e; apply success_calls|].
      intros [u|x]; [apply emits_ret|]; exists (Ok outcome), [Succeeded permit]; (split_and!; [done| |done]); [by constructor|].
      apply Aborted; by constructor.
  - destruct x; try (apply emits_raise; apply Habort). eapply emits_kept; [apply still_failure|apply Habort|intros _ s1 H1].
    apply emits_ret. exists (Raise (FetchError msg)), []. split_and!; [done|constructor|done].
Qed.

Lemma session_emits item (s : State) :
  emits (_fetch_with_rate_limit env sha256_hexdigest first_random float_of_str parsedate P cfg item) s (fun t r s' =>
    session env cfg (it_canonical_url item) t r /\ (is_ok r = true -> beside s s')).
Proof.
  unfold _fetch_with_rate_limit. apply emits_bind, emits_lift.
  destruct (_origin_of env (it_canonical_url item)) as [origin|x] eqn:Ho; [|split; [constructor|done]].
  apply emits_bind, emits_lift. destruct (_route_class_for env (it_canonical_url item)) as [rc|x] eqn:Hr; [|split; [constructor|done]].
  apply emits_bind. eapply emits_mono; [apply select_emits|]. intros t [[adapter fetcher]|x] s1 [-> Hsel]; [|split; [constructor|done]].
  destruct Hsel as [Hsel H1]. apply emits_bind, (emits_call _ (fun r => [Acquired origin rc adapter (_floor_from_spec cfg) r])); [intros e; apply acquire_calls|].
  intros [permit|x]; [|split; [constructor|done]]. apply emits_bind, emits_attempt. eapply emits_mono; [apply answer_emits|].
  intros t r s2 (answer & report & -> & Ha & H2). apply emits_bind, (emits_call _ (fun _ => [Released permit])); [intros e; apply release_calls|].
  intros [u|x]; [apply emits_lift; rewrite app_nil_r|]; (split; [eapply Permitted; try done; by eapply answered_raise|]); [|done].
  intros Hok. transitivity s1; [done|by apply H2].
Qed.

(** *** One page *)

Lemma normalize_identity url body ct ref lineage e d e' :
  normalize_document html_tokens sha256_hexdigest url body ct ref (ro_pdf_extractor P) lineage e = (Ok d, e') ->
  nd_canonical_url d = url /\ nd_raw_artifact_ref d = ref.
Proof.
  unfold normalize_document, bind, attempt, ret. intros H.
  destruct (str_contains "html" _); [destruct (html_tokens _); by injection H as <- _|].
  destruct (_ || _); [destruct (decode_strict _); by injection H as <- _|].
  destruct (str_contains "pdf" _); [|by injection H as <- _]. destruct (ro_pdf_extractor P) as [extract|]; [|by injection H as <- _].
  destruct (extract body e) as [[doc|x] e1]; injection H as <- _; [|done]. simpl. by destruct (negb _).
Qed.

Lemma normalize_silent url body ct ref lineage e :
  calls (normalize_document html_tokens sha256_hexdigest url body ct ref (ro_pdf_extractor P) lineage e).2 = calls e.
Proof.
  unfold normalize_document, bind, attempt. destruct (str_contains "html" _); [done|]. destruct (_ || _); [done|].
  destruct (str_contains "pdf" _); [|done]. destruct (ro_pdf_extractor P) as [extract|] eqn:Hp; [|done].
  pose proof (pdf_silent extract body e Hp) as Hs. by destruct (extract body e).
Qed.

(** Requests for children only. *)
Definition requests_children {A} (m : M E A) : Prop := forall e, exists t, calls (m e).2 = calls e ++ t /\ Forall child_request t.

Lemma children_bind {A B} (m : M E A) (k : A -> M E B) : requests_children m -> (forall x, requests_children (k x)) -> requests_children (bind m k).
Proof.
  intros Hm Hk e. destruct (Hm e) as (t & Ht & HF). unfold bind. destruct (m e) as [[x|x] e1]; [|by exists t].
  destruct (Hk x e1) as (t' & Ht' & HF'). exists (t ++ t'). simpl in *. rewrite Ht', Ht, app_assoc. split; [done|by apply Forall_app].
Qed.
Lemma children_ret {A} (x : A) : requests_children (ret x).
Proof. intros e. exists []. by rewrite app_nil_r. Qed.
Lemma children_raise {A} x : requests_children (raise (A := A) x).
Proof. intros e. exists []. by rewrite app_nil_r. Qed.
Lemma children_fetch url : requests_children (attempt (ro_fetch P None url)).
Proof.
  intros e. pose proof (fetch_calls None url e) as Hf. unfold attempt. destruct (ro_fetch P None url e) as [r e1]. simpl in *.
  eexists. split; [exact Hf|]. constructor; [by eexists _, _|constructor].
Qed.

Lemma discover_child_requests url : requests_children (discover_child fromstring (ro_fetch P None) url).
Proof.
  unfold discover_child. apply children_bind; [apply children_fetch|]. intros [o|x]; [|destruct x; apply children_raise || apply children_ret].
  destruct (_parse_locs fromstring (fo_body o)) as [[urls locs] error]. apply children_ret.
Qed.
Lemma discover_children_requests urls : requests_children (discover_children fromstring (ro_fetch P None) urls).
Proof.
  induction urls as [|url urls IH]; simpl; [apply children_ret|]. apply children_bind; [apply discover_child_requests|intros b].
  apply children_bind; [done|intros bs; apply children_ret].
Qed.
Lemma discover_requests url : requests_children (discover fromstring (ro_fetch P None) url).
Proof.
  unfold discover. apply children_bind; [apply children_fetch|]. intros [o|x]; [|destruct x; apply children_raise || apply children_ret].
  destruct (_parse_locs fromstring (fo_body o)) as [[urls locs] error]. destruct (truthy_list locs); [|apply children_ret].
  apply children_bind; [apply discover_children_requests|intros bs; apply children_ret].
Qed.
Lemma collect_requests urls : requests_children (collect_children fromstring P urls).
Proof.
  induction urls as [|url urls IH]; simpl; [apply children_ret|]. apply children_bind; [apply discover_requests|intros b].
  apply children_bind; [done|intros us; apply children_ret].
Qed.

Lemma links_emits outcome (s : State) : emits (on_world (_discover_links fromstring P outcome)) s (fun t _ s' =>
  s' = s /\ (Forall child_request t) /\ (t <> [] -> is_xml (fo_content_type outcome) = true)).
Proof.
  intros e. rewrite on_world_run. simpl. unfold _discover_links, is_xml.
  destruct (str_contains "html" _); [exists []; rewrite app_nil_r, links_silent; by split_and!|].
  destruct (_ || _); [|by exists []; rewrite app_nil_r].
  destruct (_parse_locs fromstring (fo_body outcome)) as [[urls locs] error].
  destruct (truthy_list urls); [by exists []; rewrite app_nil_r|].
  destruct (truthy_list locs).
  - destruct (collect_requests locs e) as (t & Ht & HF). by exists t.
  - destruct (_parse_feed fromstring (fo_body outcome)) as [[feed kind] err]. by exists []; rewrite app_nil_r.
Qed.

#[local] Abbreviation base s := (fl_base ops (ru_frontier s)).
#[local] Abbreviation log kind s := (logged kind (b_events (base s))).

(** From [s] on, the pages have become [v]. *)
Definition reaches (s : State) v (s' : State) : Prop :=
  running (ru_frontier s') /\ pages ops s' = v /\ (tallied s -> tallied s') /\
  (ob_replan_done (ru_observing s) = true -> ob_replan_done (ru_observing s') = true).

Lemma reaches_grows s v s1 s2 : reaches s v s1 -> grows s1 s2 -> reaches s v s2.
Proof. intros (Hr & <- & Ht & Hd) (Hr' & Hv & Ht' & Hd')%(fun g => g Hr). split_and!; auto. Qed.

Lemma reaches_object g s v s1 s2 : reaches s v s1 -> ru_frontier s2 = ru_frontier s1 -> pages ops s2 = g (pages ops s1) ->
  (tallied s1 -> tallied s2) -> ob_replan_done (ru_observing s2) = ob_replan_done (ru_observing s1) -> reaches s (g v) s2.
Proof. intros (Hr & <- & Ht & Hd) Hf Hv Ht' Hd'. split_and!; [by rewrite Hf|done|auto|by rewrite Hd']. Qed.

Definition counted '(((((((fetched, dequeued), urls), n), docs), norms), count) : Pages) : Pages := (fetched, dequeued, urls, n, docs, norms, count + 1).
Definition documented (d : DocumentRecord) '(((((((fetched, dequeued), urls), n), docs), norms), count) : Pages) : Pages :=
  (fetched, dequeued, urls, n, docs ++ [d], norms, count).
Definition normalised (r : NormalizedRecord) '(((((((fetched, dequeued), urls), n), docs), norms), count) : Pages) : Pages :=
  (fetched, dequeued, urls, n, docs, norms ++ [r], count).

(** The pages after one more: its document and its normalisation. *)
Definition turned (url : string) (d : DocumentRecord) (n : NormalizedRecord) (s : State) :=
  (log "fetched" s ++ [(Some url, None)], log "dequeued" s, {[url]} ∪ b_fetched (base s), fc_fetched (b_counters (base s)) + 1,
   ou_documents (ru_outputs s) ++ [d], ou_normalized (ru_outputs s) ++ [n], ta_fetch_count (ru_tally s) + 1).

(** A queued item that was popped, and not yet fetched. *)
Definition in_hand (item : FrontierItem) (s : State) : Prop :=
  running (ru_frontier s) /\ in_policy env c item /\ (Some (it_canonical_url item) ∈ (log "dequeued" s).*1) /\
  (it_canonical_url item ∉ b_fetched (base s)) /\ fc_fetched (b_counters (base s)) < fr_max_pages c.

Lemma mark_reaches item s f now : in_hand item s -> fl_mark_fetched ops (it_canonical_url item) now (ru_frontier s) = (Ok tt, f) ->
  reaches s (log "fetched" s ++ [(Some (it_canonical_url item), None)], log "dequeued" s, {[it_canonical_url item]} ∪ b_fetched (base s),
    fc_fetched (b_counters (base s)) + 1, ou_documents (ru_outputs s), ou_normalized (ru_outputs s), ta_fetch_count (ru_tally s)) (with_frontier f s).
Proof.
  intros ([Hi Hc Hq Hf Hb] & _ & Hdq & Hnew & Hlt) H. destruct (fl_mark_law _ _ _ _ _ Hi H) as (Hi' & _ & Eb & Eq).
  unfold mark_fetched in Eb. rewrite decide_False in Eb by done. simpl in Eb. split_and!; [|unfold pages; simpl; rewrite Eb; simpl|done|done].
  - split; simpl; rewrite ?Eb; simpl; try done; [by rewrite Eq| |lia]. intros u. rewrite logged_snoc. simpl. rewrite app_nil_r.
    intros [->%elem_of_singleton|Hu]%elem_of_union; auto.
  - rewrite !logged_snoc. simpl. by rewrite app_nil_r.
Qed.

Lemma still_discover_loop item discovered : still grows (for_all (enqueue_discovered env ops P cfg item) discovered).
Proof. apply still_for_all; still_goal. apply still_discovered. Qed.

Lemma discover_emits item outcome s : emits (_discover_and_enqueue env fromstring ops P cfg item outcome) s (fun t r s' =>
  (Forall child_request t) /\ (t <> [] -> is_xml (fo_content_type outcome) = true) /\ (is_ok r = true -> grows s s')).
Proof.
  unfold _discover_and_enqueue. apply emits_bind. eapply emits_mono; [apply links_emits|]. intros t [links|x] s1 (-> & Ht & Hx); [|by split_and!].
  eapply emits_kept; [apply still_page_observed|intros x s'; rewrite app_nil_r; by split_and!|intros _ s2 H2].
  eapply emits_mono; [apply still_discover_loop|]. intros t' r s3 [-> Hr]. rewrite app_nil_r. split_and!; [done..|].
  intros Hok. destruct r; [|done]. by transitivity s2.
Qed.

Lemma page_emits item outcome s : in_hand item s ->
  emits (process_page env sha256_hexdigest html_tokens fromstring ops P cfg item outcome) s (fun t r s' =>
    exists docs, page sha256_hexdigest item outcome t docs /\ (is_ok r = true -> exists d n, docs = [d] /\ dr_canonical_url d = it_canonical_url item /\
      nr_canonical_url n = dr_canonical_url d /\ nr_raw_artifact_ref n = dr_artifact_ref d /\
      reaches s (turned (it_canonical_url item) d n s) s')).
Proof.
  intros Hhand. unfold process_page. set (url := it_canonical_url item).
  assert (forall x s', exists docs, page sha256_hexdigest item outcome (Permit := Permit) [] docs /\ (is_ok (Raise (A := unit) x) = true ->
    exists d n, docs = [d] /\ dr_canonical_url d = url /\ nr_canonical_url n = dr_canonical_url d /\ nr_raw_artifact_ref n = dr_artifact_ref d /\
      reaches s (turned url d n s) s')) as Habort.
  { intros x s'. exists []. split; [constructor|done]. }
  apply emits_bind, emits_frontier; [intros x; apply Habort|]. intros now r f H.
  pose proof (proj1 Hhand) as Hrun. destruct (fl_mark_law _ _ _ _ _ (rn_inv _ _ _ _ Hrun) H) as (_ & -> & _).
  pose proof (mark_reaches _ _ _ _ Hhand H) as H1. apply emits_bind, emits_object.
  apply (reaches_object counted _ _ _ (with_tally count_fetch (with_frontier f s))) in H1; [|done..].
  eapply emits_kept; [apply still_redirect_observed|intros x s'; apply Habort|intros _ s2 H2]. eapply reaches_grows in H2; [|exact H1].
  eapply emits_kept; [apply still_hops|intros x s'; apply Habort|intros _ s3 H3]. eapply reaches_grows in H3; [|exact H2]. clear s2 H1 H2.
  unfold _persist_artifact. apply emits_bind, emits_bind, (emits_call _ (fun _ => [Stored (artifact_ref_of_body sha256_hexdigest outcome) (fo_body outcome)]));
    [intros e; apply put_calls|]. intros [u|x]; [|exists []; split; [constructor|done]]. apply emits_ret.
  unfold _document_record. apply emits_bind, emits_bind, (emits_call _ (fun _ => [])); [intros e; rewrite app_nil_r; apply now_silent|].
  intros [at_|x]; [apply emits_ret|exists []; split; [constructor|done]].
  set (d := Build_DocumentRecord _ _ _ _ _ _ _ _ _ _ _ _). assert (describes sha256_hexdigest item outcome d) as Hd by done.
  assert (forall (x : exn) (s' : State), exists docs, page sha256_hexdigest item outcome
      [Stored (Permit := Permit) (artifact_ref_of_body sha256_hexdigest outcome) (fo_body outcome)] docs /\ (is_ok (Raise (A := unit) x) = true ->
    exists d n, docs = [d] /\ dr_canonical_url d = url /\ nr_canonical_url n = dr_canonical_url d /\ nr_raw_artifact_ref n = dr_artifact_ref d /\
      reaches s (turned url d n s) s')) as Hwritten.
  { intros x s'. exists [d]. split; [|done]. by constructor. }
  apply emits_bind, emits_object. apply (reaches_object (documented d) _ _ _ (with_outputs (write_document d) s3)) in H3; [|done..].
  apply emits_bind, emits_silent; [intros e; apply normalize_silent|]. intros e.
  destruct (normalize_document _ _ _ _ _ _ _ _ e) as [[n|x] e'] eqn:Hn; simpl; [|exact (Hwritten x _)].
  destruct (normalize_identity _ _ _ _ _ _ _ _ Hn) as [Hu Hr]. clear e e' Hn.
  apply emits_bind, emits_object. apply (reaches_object (normalised (_normalized_record n)) _ _ _ (with_outputs (write_normalized (_normalized_record n))
    (with_outputs (write_document d) s3))) in H3; [|done..].
  eapply emits_kept; [|intros x s'; apply Hwritten|].
  { instantiate (1 := grows). destruct (_ && _); [apply still_extractors|apply still_ret; still_goal]. }
  intros _ s4 H4. eapply reaches_grows in H4; [|exact H3]. eapply emits_mono; [apply discover_emits|].
  intros t r s5 (Ht & Hx & H5). exists [d]. split; [by constructor|]. intros Hok. exists d, (_normalized_record n).
  split_and!; [done..|]. eapply reaches_grows; [exact H4|by apply H5].
Qed.

(** *** One visit *)

Lemma skip_grows url reason now (s : State) r f : fl_skip ops url reason now (ru_frontier s) = (r, f) ->
  grows s (with_frontier f s) /\ (running (ru_frontier s) -> fl_queue f = fl_queue (ru_frontier s)).
Proof.
  intros H. split; [|intros [Hi _ _ _ _]; by destruct (fl_skip_law _ _ _ _ _ _ Hi H) as (_ & _ & _ & ->)].
  intros [Hi Hc Hq Hf Hb]. destruct (fl_skip_law _ _ _ _ _ _ Hi H) as (Hi' & -> & Eb & Eq).
  simpl in Eb. split_and!; [|unfold pages; simpl; rewrite Eb|done|done].
  - split; simpl; rewrite ?Eb; simpl; try done; [by rewrite Eq|]. intros u. rewrite logged_snoc. simpl. rewrite app_nil_r. apply Hf.
  - simpl. rewrite !logged_snoc. simpl. by rewrite !app_nil_r.
Qed.

(** What a visit leaves: no page, and the queue as it was; or one page. *)
Inductive visited (item : FrontierItem) (s s' : State) : list DocumentRecord -> Prop :=
  | No_page : grows s s' -> fl_queue (ru_frontier s') = fl_queue (ru_frontier s) -> visited item s s' []
  | One_page d n : dr_canonical_url d = it_canonical_url item -> nr_canonical_url n = dr_canonical_url d ->
      nr_raw_artifact_ref n = dr_artifact_ref d -> reaches s (turned (it_canonical_url item) d n s) s' -> visited item s s' [d].

Lemma item_emits item s : in_hand item s ->
  emits (visit_item env sha256_hexdigest first_random float_of_str parsedate html_tokens fromstring ops P cfg item) s (fun t r s' =>
    exists docs, visit env sha256_hexdigest cfg item t docs /\ (is_ok r = true -> visited item s s' docs)).
Proof.
  intros Hhand. unfold visit_item. apply emits_bind. eapply emits_mono; [apply robots_emits|]. intros t1 r s1 [-> Hr].
  destruct r as [[]|x]; [| |exists []; split; [by constructor|done]]; simpl.
  - apply emits_bind. eapply emits_mono; [apply session_emits|]. intros t2 r s1 [Hs Hb].
    destruct r as [[outcome|]|x]; [|apply emits_ret; rewrite app_nil_r|].
    + destruct (Hb eq_refl) as [Hg Hf]. pose proof Hhand as (Hrun & Hpol & Hdq & Hnew & Hlt).
      destruct (Hg Hrun) as (Hrun1 & Hp & Ht & Hd).
      assert (in_hand item s1) as Hhand1 by (split_and!; [done|done|by rewrite Hf..]).
      eapply emits_mono; [by apply page_emits|]. intros t3 r s2 (docs & Hpage & Hok). exists docs. split; [by eapply Fetched_page|].
      intros (d & n & -> & Hdu & Hnu & Hnr & (Hrun2 & Hp2 & Ht2 & Hd2))%Hok. econstructor; try done. split_and!; [done| |auto..].
      rewrite Hp2. unfold turned. rewrite Hf. unfold pages in Hp. rewrite Hf in Hp. by injection Hp as -> -> ->.
    + exists []. split; [by eapply Failed_fetch|]. intros _. destruct (Hb eq_refl) as [Hg Hf]. constructor; [done|by rewrite Hf].
    + exists []. split; [by eapply Failed_fetch|done].
  - apply emits_frontier; [intros x|intros now r f H]; exists []; rewrite app_nil_r; (split; [by constructor|]); [done|].
    intros _. destruct (skip_grows _ _ _ _ _ _ H) as [Hg Hq]. constructor; [done|]. apply Hq, Hhand.
Qed.

(** *** The loop *)

(** The pages agree: what was logged as fetched is what was written, once each. *)
Definition consistent (v : Pages) : Prop :=
  let '(fetched, _, urls, n, docs, norms, count) := v in
  fetched = map (fun d => (Some (dr_canonical_url d), None)) docs /\
  map (fun r => (nr_canonical_url r, nr_raw_artifact_ref r)) norms = map (fun d => (dr_canonical_url d, dr_artifact_ref d)) docs /\
  (forall u, u ∈ urls <-> u ∈ map dr_canonical_url docs) /\ NoDup (map dr_canonical_url docs) /\
  n = Z.of_nat (length docs) /\ count = Z.of_nat (length docs).

(** From [s] to [s'] the items were dequeued and the documents written. *)
Record completed (s s' : State) (items : list FrontierItem) (docs : list DocumentRecord) : Prop := {
  co_running : running (ru_frontier s');
  co_dequeued : log "dequeued" s' = log "dequeued" s ++ (item_key <$> items);
  co_documents : ou_documents (ru_outputs s') = ou_documents (ru_outputs s) ++ docs;
  co_consistent : consistent (pages ops s) -> consistent (pages ops s');
  co_tallied : tallied s -> tallied s' }.

Lemma completed_trans s1 s2 s3 items items' docs docs' : completed s1 s2 items docs -> completed s2 s3 items' docs' ->
  completed s1 s3 (items ++ items') (docs ++ docs').
Proof. intros [? Hq Hd ? ?] [? Hq' Hd' ? ?]. split; [done| | |auto..]; [by rewrite Hq', Hq, fmap_app, app_assoc|by rewrite Hd', Hd, app_assoc]. Qed.

Lemma grows_completed s s' : running (ru_frontier s) -> grows s s' -> completed s s' [] [].
Proof.
  intros Hrun (Hr & Hp & Ht & _)%(fun g => g Hrun). split; [done|..]; try (unfold pages in Hp; injection Hp; intros; by rewrite app_nil_r); [|done].
  by rewrite Hp.
Qed.

Lemma visited_completed item s s' docs : in_hand item s -> visited item s s' docs -> completed s s' [] docs.
Proof.
  intros (Hrun & _ & _ & Hnew & _). destruct 1 as [Hg _|d n Hd Hn Hr (Hrun' & Hp & Ht & _)]; [by apply grows_completed|].
  pose proof Hp as Hp'. unfold turned, pages in Hp'. injection Hp' as _ Edq _ _ Ed _ _. split; [done|by rewrite app_nil_r|done| |done].
  rewrite Hp. unfold consistent, turned, pages. intros (Hf & Hm & Hu & Hnd & Hc & Hk). rewrite !map_app, !length_app. simpl. split_and!.
  - by rewrite Hf, Hd.
  - by rewrite Hm, Hn, Hr.
  - intros u. rewrite elem_of_union, elem_of_singleton, elem_of_app, Hu, list_elem_of_singleton, Hd. tauto.
  - apply NoDup_app. split_and!; [done| |apply NoDup_singleton]. intros u Hin ->%list_elem_of_singleton. apply Hnew. by rewrite Hu, <-Hd.
  - lia.
  - lia.
Qed.

(** A [pop] that took an item. *)
Record taken (item : FrontierItem) (s s1 : State) : Prop := {
  tk_hand : in_hand item s1;
  tk_new : Some (it_canonical_url item) ∉ (log "dequeued" s).*1;
  tk_queue : length (fl_queue (ru_frontier s)) = S (length (fl_queue (ru_frontier s1)));
  tk_completed : completed s s1 [item] [];
  tk_fetched : fc_fetched (b_counters (base s1)) = fc_fetched (b_counters (base s));
  tk_replan : ru_observing s1 = ru_observing s }.

Lemma queued_new f item queue : running f -> fl_queue f ≡ₚ item :: queue -> Some (it_canonical_url item) ∉ (logged "dequeued" (b_events (fl_base ops f))).*1.
Proof.
  intros [Hi _ _ _ _] Hq Hin. destruct (fl_accounts _ Hi) as [[Honce _ _ _ _ _] Hl].
  rewrite Hl, Hq, fmap_app in Honce. apply NoDup_app in Honce as (_ & Hdis & _). apply (Hdis _ Hin). left.
Qed.

Lemma pop_taken now (s : State) item f : running (ru_frontier s) -> fl_pop ops now (ru_frontier s) = (Ok (Some item), f) -> taken item s (with_frontier f s).
Proof.
  intros Hrun H. pose proof Hrun as [Hi Hc Hq Hf Hb]. destruct (fl_pop_law _ _ _ _ Hi H) as (Hi' & o & [= <-] & Hp).
  inversion Hp as [|i queue' Hbud Hperm Ei Eb Eq]; subst i. unfold budget_exhausted in Hbud. apply Z.leb_gt in Hbud.
  rewrite Hperm in Hq. apply Forall_cons in Hq as [Hpol Hq]. pose proof (queued_new _ _ _ Hrun Hperm) as Hnew.
  assert (logged "dequeued" (b_events (fl_base ops f)) = log "dequeued" s ++ [item_key item]) as Edq by (rewrite <-Eb; simpl; by rewrite logged_snoc).
  assert (logged "fetched" (b_events (fl_base ops f)) = log "fetched" s) as Efe by (rewrite <-Eb; simpl; rewrite logged_snoc; simpl; by rewrite app_nil_r).
  assert (running f) as Hrun'.
  { split; rewrite <-?Eb; simpl; try done. intros u Hu. rewrite logged_snoc, fmap_app. apply elem_of_app. left. by apply Hf. }
  split; simpl; [|done|by rewrite Hperm| |by rewrite <-Eb|done].
  - split_and!; simpl; [done|done| | |by rewrite <-Eb, <-Hc].
    + rewrite Edq, fmap_app. apply elem_of_app. right. left.
    + rewrite <-Eb. simpl. intros Hin%Hf. by apply Hnew.
  - split; simpl; [done|by rewrite Edq|by rewrite app_nil_r| |done]. unfold pages. simpl. rewrite Efe, <-Eb. simpl. done.
Qed.

Lemma pop_nothing now (s : State) f : running (ru_frontier s) -> fl_pop ops now (ru_frontier s) = (Ok None, f) ->
  grows s (with_frontier f s) /\ fl_base ops f = base s /\ fl_queue f = fl_queue (ru_frontier s) /\
  (budget_exhausted (base s) = true \/ fl_queue (ru_frontier s) = []).
Proof.
  intros [Hi Hc Hq Hf Hb] H. destruct (fl_pop_law _ _ _ _ Hi H) as (Hi' & o & [= <-] & Hp).
  inversion Hp as [Hn Eo Eb Eq|]. split_and!; try done. intros _. split_and!; [|unfold pages; simpl; by rewrite <-Eb|done|done].
  split; simpl; rewrite <-?Eb, <-?Eq; done.
Qed.

(** Why the loop stopped. *)
Definition stopped (reason : string) (s : State) : Prop :=
  reason = "runtime_exceeded" \/
  (reason = "budget_exhausted" /\ fc_fetched (b_counters (base s)) = fr_max_pages c) \/
  (reason = "queue_drained" /\ fl_queue (ru_frontier s) = [] /\ fc_fetched (b_counters (base s)) < fr_max_pages c).

(** An iteration that does not break: a replan, or a visit. *)
Inductive advanced (s s' : State) : list FrontierItem -> list DocumentRecord -> Prop :=
  | Replanned : grows s s' -> ob_replan_done (ru_observing s) = false -> ob_replan_done (ru_observing s') = true -> advanced s s' [] []
  | Visited item s1 docs : taken item s s1 -> visited item s1 s' docs -> advanced s s' [item] docs.

#[local] Abbreviation visits := (visits env sha256_hexdigest cfg (Permit := Permit)).
#[local] Abbreviation iteration := (iteration env sha256_hexdigest first_random float_of_str parsedate html_tokens fromstring ops P cfg).
#[local] Abbreviation crawl_loop := (crawl_loop env sha256_hexdigest first_random float_of_str parsedate html_tokens fromstring ops P cfg).

Lemma replan_emits (s : State) : emits (_maybe_replan env ops P cfg) s (fun t r s' => t = [] /\ match r with
  | Ok true => running (ru_frontier s) -> grows s s' /\ ob_replan_done (ru_observing s) = false /\ ob_replan_done (ru_observing s') = true
  | Ok false => s' = s
  | Raise _ => True end).
Proof.
  unfold _maybe_replan, _s6_active. apply emits_bind, emits_gets. intros e. apply emits_bind, emits_gets. intros e'. simpl.
  destruct (ob_replan_done (ru_observing s)) eqn:Hd; [by apply emits_ret|]. simpl. destruct (_ || _); [by apply emits_ret|].
  destruct (pl_original_plan_request _) as [request|]; [|by apply emits_raise].
  eapply emits_kept; [apply still_replan|done|]. intros _ s' [Hg Hr]. apply emits_ret. split; [done|]. intros Hrun. split_and!; [done..|by apply Hr].
Qed.

Definition iterated (s : State) (t : list (call Permit)) (r : res (option string)) (s' : State) : Prop :=
  exists items docs, visits items t docs /\ (items = [] \/ exists item s1, items = [item] /\ taken item s s1) /\
    match r with
    | Ok None => advanced s s' items docs
    | Ok (Some reason) => items = [] /\ docs = [] /\ grows s s' /\ stopped reason s'
    | Raise _ => True
    end.

Lemma iterated_none s t r s' : t = [] ->
  match r with Ok None => advanced s s' [] [] | Ok (Some reason) => grows s s' /\ stopped reason s' | Raise _ => True end -> iterated s t r s'.
Proof. intros -> Hr. exists [], []. split_and!; [constructor|by left|]. destruct r as [[reason|]|x]; [|done..]. destruct Hr. by split_and!. Qed.

Lemma iteration_emits deadline (s : State) : running (ru_frontier s) -> emits (iteration deadline) s (iterated s).
Proof.
  intros Hrun. unfold iteration.
  apply emits_bind, (emits_call _ (fun _ => [])); [intros e; rewrite app_nil_r; apply clock_silent|].
  intros [now|x]; [|by apply iterated_none]. destruct (PrimFloat.ltb deadline now); [apply emits_ret, iterated_none; [done|split; [reflexivity|by left]]|].
  apply emits_bind, emits_frontier; [intros x; by apply iterated_none|]. intros now' [[item|]|x] f H; [| |by apply iterated_none].
  - pose proof (pop_taken _ _ _ _ Hrun H) as Htk. apply emits_bind. eapply emits_mono; [apply item_emits, Htk|].
    intros t r s' (docs & Hv & Hok). assert (visits [item] t docs) as Hvs.
    { rewrite <-(app_nil_r t), <-(app_nil_r docs). econstructor; [done|constructor]. }
    destruct r as [[]|x]; [apply emits_ret; rewrite app_nil_r|]; exists [item], docs; (split_and!; [done|right; by eexists _, _|]); [|done].
    apply (Visited _ _ item (with_frontier f s)); [done|by apply Hok].
  - destruct (pop_nothing _ _ _ Hrun H) as (Hg & Eb & Eq & Hwhy). pose proof (Hg Hrun) as ([Hi Hc _ _ Hbud] & _).
    apply emits_bind, emits_gets. intros e. simpl. destruct (budget_exhausted (fl_base ops f)) eqn:Hx; unfold budget_exhausted in Hx.
    + apply emits_ret, iterated_none; [done|]. split; [done|]. right; left. split; [done|]. apply Z.leb_le in Hx. simpl in *. rewrite Hc in Hx. lia.
    + apply emits_bind. eapply emits_mono; [apply replan_emits|]. intros t r s' [-> Hr].
      destruct r as [[]|x]; [apply emits_ret, iterated_none; [done|]|apply emits_ret, iterated_none; [done|]|by apply iterated_none].
      * destruct (Hr (proj1 (Hg Hrun))) as (Hg' & Hd & Hd'). apply Replanned; [by transitivity (with_frontier f s)|done|done].
      * subst s'. split; [done|]. right; right. simpl in *. apply Z.leb_gt in Hx. rewrite Eb in *.
        split_and!; [done| |by rewrite <-Hc]. rewrite Eq. destruct Hwhy as [Hwhy|]; [|done]. unfold budget_exhausted in Hwhy. lia.
Qed.

(** The URLs of the items are of the policy, distinct, and none of [s] yet. *)
Definition distinct_items (s : State) (items : list FrontierItem) : Prop :=
  NoDup (map it_canonical_url items) /\ Forall (in_policy env c) items /\
  (forall item, item ∈ items -> Some (it_canonical_url item) ∉ (log "dequeued" s).*1).

Lemma taken_distinct item s s1 items : taken item s s1 -> (forall item', item' ∈ items -> Some (it_canonical_url item') ∉ (log "dequeued" s ++ [item_key item]).*1) ->
  NoDup (map it_canonical_url items) -> Forall (in_policy env c) items -> distinct_items s (item :: items).
Proof.
  intros [(_ & Hpol & _) Hnew _ _ _ _] Hout Hnd Hall. split_and!.
  - simpl. apply NoDup_cons. split; [|done]. intros (item' & Eu & Hin)%list_elem_of_fmap. apply (Hout _ Hin).
    rewrite fmap_app. apply elem_of_app. right. rewrite <-Eu. left.
  - by constructor.
  - intros item' [->|Hin]%elem_of_cons; [done|]. intros H. apply (Hout _ Hin). rewrite fmap_app. apply elem_of_app. by left.
Qed.

Lemma advanced_completed s s' items docs : running (ru_frontier s) -> advanced s s' items docs -> completed s s' items docs.
Proof.
  intros Hrun. destruct 1 as [Hg _ _|item s1 docs Htk Hv]; [by apply grows_completed|].
  apply (completed_trans s s1 s' [item] [] [] docs); [apply Htk|]. eapply visited_completed; [apply Htk|done].
Qed.

Lemma loop_emits fuel deadline (s : State) : running (ru_frontier s) -> emits (crawl_loop fuel deadline) s (fun t r s' =>
  exists items docs, visits items t docs /\ distinct_items s items /\
    match r with Ok (Some reason) => completed s s' items docs /\ stopped reason s' | _ => True end).
Proof.
  revert s. induction fuel as [|fuel IH]; intros s Hrun; simpl.
  { apply emits_ret. exists [], []. split_and!; [constructor|split_and!; [constructor|constructor|by intros ? ?%elem_of_nil]|done]. }
  apply emits_bind. eapply emits_mono; [by apply iteration_emits|]. intros t r s1 (items & docs & Hv & Hit & Hr).
  assert (distinct_items s items) as Hdis.
  { destruct Hit as [->|(item & s2 & -> & Htk)]; [split_and!; [constructor|constructor|by intros ? ?%elem_of_nil]|].
    eapply taken_distinct; [done|by intros ? ?%elem_of_nil|constructor|constructor]. }
  destruct r as [[reason|]|x].
  - destruct Hr as (-> & -> & Hg & Hs). apply emits_ret. rewrite app_nil_r. exists [], []. split_and!; [done|done|by apply grows_completed|done].
  - pose proof (advanced_completed _ _ _ _ Hrun Hr) as Hc1. eapply emits_mono; [apply IH, Hc1|].
    intros t' r s2 (items' & docs' & Hv' & (Hnd & Hall & Hout) & Hr'). rewrite (co_dequeued _ _ _ _ Hc1) in Hout. exists (items ++ items'), (docs ++ docs'). split_and!.
    + destruct Hit as [->|(item & s3 & -> & _)]; [by inversion Hv|]. inversion Hv as [|? ? t0 ts d0 d1 Hv0 Hv1]; subst.
      inversion Hv1; subst. rewrite !app_nil_r. simpl. by constructor.
    + destruct Hit as [->|(item & s3 & -> & Htk)]; [|by eapply taken_distinct].
      split_and!; [done..|]. intros item Hin. specialize (Hout item Hin). by rewrite app_nil_r in Hout.
    + destruct r as [[reason|]|x]; [|done..]. destruct Hr' as [Hc2 Hs]. split; [by eapply completed_trans|done].
  - exists items, docs. by split_and!.
Qed.

(** *** The loop ends *)

(** Lexicographically: whether a replan is left, the pages left in the budget,
    the items queued. *)
Definition measure (s : State) : nat * nat * nat :=
  (if ob_replan_done (ru_observing s) then 0%nat else 1%nat, Z.to_nat (fr_max_pages c - fc_fetched (b_counters (base s))),
   length (fl_queue (ru_frontier s))).
Definition smaller (x y : nat * nat * nat) : Prop :=
  (x.1.1 < y.1.1 \/ (x.1.1 = y.1.1 /\ (x.1.2 < y.1.2 \/ (x.1.2 = y.1.2 /\ x.2 < y.2))))%nat.

Lemma smaller_wf : well_founded smaller.
Proof.
  intros [[x y] z]. revert y z. induction (lt_wf x) as [x _ IHx]. intros y. induction (lt_wf y) as [y _ IHy].
  intros z. induction (lt_wf z) as [z _ IHz]. constructor. intros [[x' y'] z'] [H|(H & [H'|(H' & H'')])]; simpl in *; subst; auto.
Qed.

Lemma advanced_smaller s s' items docs : running (ru_frontier s) -> advanced s s' items docs -> smaller (measure s') (measure s).
Proof.
  intros Hrun. unfold smaller, measure. simpl. destruct 1 as [_ Hd Hd'|item s1 docs [(Hrun1 & _ & _ & _ & Hlt) _ Hq _ Hf Hr] Hv].
  { left. rewrite Hd, Hd'. lia. }
  rewrite <-Hr. destruct Hv as [Hg Eq|d n _ _ _ (_ & Hp & _ & Hmono)].
  - destruct (Hg Hrun1) as (_ & Hp & _ & Hmono). unfold pages in Hp. injection Hp as _ _ _ Hn _ _ _.
    rewrite Eq. destruct (ob_replan_done (ru_observing s1)), (ob_replan_done (ru_observing s')); try lia; by specialize (Hmono eq_refl).
  - unfold pages, turned in Hp. injection Hp as _ _ _ Hn _ _ _.
    destruct (ob_replan_done (ru_observing s1)), (ob_replan_done (ru_observing s')); try lia; by specialize (Hmono eq_refl).
Qed.

Lemma loop_ends deadline (s : State) e : running (ru_frontier s) -> exists fuel, forall fuel', (fuel <= fuel')%nat ->
  crawl_loop fuel' deadline (s, e) = crawl_loop fuel deadline (s, e) /\ (crawl_loop fuel deadline (s, e)).1 <> Ok None.
Proof.
  remember (measure s) as m eqn:Hm. revert s e Hm. induction (smaller_wf m) as [m _ IH]. intros s e -> Hrun.
  destruct (iteration_emits deadline s Hrun e) as (t & _ & items & docs & _ & _ & Hr).
  destruct (iteration deadline (s, e)) as [r [s1 e1]] eqn:Hi. simpl in Hr. destruct r as [[reason|]|x].
  - exists 1%nat. intros [|fuel'] Hle; [lia|]. simpl. unfold bind. by rewrite Hi.
  - pose proof (advanced_completed _ _ _ _ Hrun Hr) as [Hrun1 _ _ _ _].
    destruct (IH _ (advanced_smaller _ _ _ _ Hrun Hr) s1 e1 eq_refl Hrun1) as [fuel Hfuel]. exists (S fuel).
    intros [|fuel'] Hle; [lia|]. simpl. unfold bind. rewrite Hi. apply Hfuel. lia.
  - exists 1%nat. intros [|fuel'] Hle; [lia|]. simpl. unfold bind. by rewrite Hi.
Qed.

(** *** The run *)

(** A frontier as it was built. *)
Definition fresh (f : F) : Prop :=
  fl_inv f /\ 1 <= fr_max_pages c /\
  fl_base ops f = {| b_config := c; b_seen := ∅; b_fetched := ∅; b_events := [];
                     b_counters := {| fc_enqueued := 0; fc_fetched := 0; fc_skipped_by_reason := [] |} |}.

Lemma fresh_running f : fresh f -> running f.
Proof.
  intros (Hi & Hm & Eb). destruct (fl_accounts f Hi) as [_ Hl]. rewrite Eb in Hl. simpl in Hl. symmetry in Hl. apply Permutation_nil_r in Hl.
  apply fmap_nil_inv in Hl. split; rewrite ?Eb, ?Hl; simpl; [done|done|done|by intros u ?%not_elem_of_empty|lia].
Qed.

(** The attributes when the loop starts. *)
Definition started (s : State) : Prop := running (ru_frontier s) /\ tallied s /\
  log "dequeued" s = [] /\ ou_documents (ru_outputs s) = [] /\ consistent (pages ops s).

Lemma fresh_started f s : fresh f -> new_runner (rn_args cfg) f = Ok s -> started (with_outputs (fun _ => no_outputs) s).
Proof.
  intros Hf H. unfold new_runner in H. run_m H. pose proof (fresh_running f Hf) as Hrun. destruct Hf as (_ & _ & Eb).
  split_and!; [done|done|simpl; by rewrite Eb|done|]. unfold consistent, pages. simpl. rewrite Eb. simpl.
  split_and!; [done|done| |constructor|done|done]. intros u. rewrite elem_of_nil. set_solver.
Qed.

Lemma started_grows s s' : started s -> grows s s' -> started s'.
Proof.
  intros (Hrun & Ht & Hd & Ho & Hc) Hg. destruct (Hg Hrun) as (Hrun' & Hp & Ht' & _).
  split_and!; [done|auto| | |by rewrite Hp]; unfold pages in Hp; injection Hp; intros; congruence.
Qed.

#[local] Abbreviation run := (run env sha256_hexdigest first_random float_of_str parsedate html_tokens fromstring ops P cfg).

Lemma missing_silent refs e : calls (missing_artifacts P refs e).2 = calls e.
Proof.
  revert e. induction refs as [|ref refs IH]; intros e; simpl; [done|]. unfold bind. pose proof (is_file_silent ref e) as Hf.
  destruct (ro_is_file P ref e) as [[present|x] e1]; [|done]. specialize (IH e1). simpl in *.
  destruct (missing_artifacts P refs e1) as [[missing|x] e2]; simpl in *; congruence.
Qed.

Lemma finish_emits reason started_at (s : State) : emits (finish ops P cfg reason started_at) s (fun t r s' => t = [] /\
  match r with
  | Ok report => s' = with_outputs (write_events (b_events (base s))) s /\
      exists completed_at replay, report = report_of ops cfg s' reason started_at completed_at replay
  | Raise _ => True
  end).
Proof.
  unfold finish. apply emits_bind, emits_gets. intros e. simpl. clear e. apply emits_bind, emits_object.
  apply emits_bind, emits_silent; [apply now_silent|]. intros e. destruct (ro_now P e).1 as [at_|x]; [|done].
  unfold _build_replay_report. apply emits_bind, emits_bind, emits_gets. intros e1. apply emits_bind, emits_silent; [apply missing_silent|].
  intros e2. destruct (missing_artifacts P _ e2).1 as [missing|x]; [|done]. apply emits_bind, emits_silent; [apply now_silent|].
  intros e3. destruct (ro_now P e3).1 as [checked|x]; [|done]. apply emits_ret, emits_bind, emits_gets. intros e4. apply emits_ret.
  split_and!; [done..|]. by eexists _, _.
Qed.

(** What a report says of the run that made it. *)
Definition reported (report : RunReport) (s' : State) (docs : list DocumentRecord) : Prop :=
  ou_documents (ru_outputs s') = docs /\ consistent (pages ops s') /\ tallied s' /\ running (ru_frontier s') /\ stopped (rep_stop_reason report) s' /\
  ou_frontier_events (ru_outputs s') = b_events (base s') /\
  exists started_at completed_at replay, report = report_of ops cfg s' (rep_stop_reason report) started_at completed_at replay.

Lemma run_emits fuel f (s : State) : fresh f -> new_runner (rn_args cfg) f = Ok s -> emits (run fuel) s (fun t r s' =>
  exists items docs, visits items t docs /\ NoDup (map it_canonical_url items) /\ Forall (in_policy env c) items /\
    match r with Ok (Some report) => reported report s' docs | _ => True end).
Proof.
  intros Hf Hn. pose proof (fresh_started f s Hf Hn) as H0. unfold run.
  assert (forall x (s' : State), exists items docs, visits items [] docs /\ NoDup (map it_canonical_url items) /\ Forall (in_policy env c) items /\
    match Raise (A := option RunReport) x with Ok (Some report) => reported report s' docs | _ => True end) as Habort.
  { intros x s'. exists [], []. split_and!; [constructor|constructor|constructor|done]. }
  apply emits_bind, emits_object. eapply emits_kept; [apply still_seeds|apply Habort|intros _ s1 H1]. apply (started_grows _ _ H0) in H1.
  apply emits_bind, emits_object. assert (started (with_tally no_failures s1)) as H2 by exact H1.
  apply emits_bind, emits_silent; [apply now_silent|]. intros e. destruct (ro_now P e).1 as [at_|x]; [|exact (Habort x s)].
  apply emits_bind, emits_silent; [apply clock_silent|]. intros e'. destruct (ro_clock P e').1 as [start|x]; [|exact (Habort x s)].
  apply emits_bind, emits_lift. destruct (float_of_int _) as [budget|x]; [|exact (Habort x s)].
  apply emits_bind. eapply emits_mono; [apply loop_emits, H2|]. intros t r s3 (items & docs & Hv & (Hnd & Hall & _) & Hr).
  destruct r as [[reason|]|x]; [| |by exists items, docs].
  - destruct Hr as [[Hrun _ Hdocs Hcons Htal] Hstop]. destruct H2 as (_ & Ht & _ & Ho & Hc).
    apply emits_bind. eapply emits_mono; [apply finish_emits|]. intros t' r s4 [-> Hr]. destruct r as [report|x]; simpl.
    + destruct Hr as [-> (completed_at & replay & ->)]. apply emits_ret. rewrite app_nil_r. exists items, docs. split_and!; [done..|].
      split_and!; [simpl in *; by rewrite Hdocs, Ho|by apply Hcons|by apply Htal|done|done|done|]. by eexists _, _, _.
    + rewrite app_nil_r. by exists items, docs.
  - apply emits_ret. rewrite app_nil_r. by exists items, docs.
Qed.


(** C11: A report is true of its run: the documents are those of the pages
    visited, one for each URL fetched and as many as the budget at most, with
    the normalisation of each beside it; the counters are the lengths of the
    files; and the stop reason is how the frontier ended, drained or spent. *)
Theorem report_is_true fuel f s e report s' e' : fresh f -> new_runner (rn_args cfg) f = Ok s ->
  run fuel (s, e) = (Ok (Some report), (s', e')) ->
  let outputs := ru_outputs s' in
  (exists t items, calls e' = calls e ++ t /\ visits items t (ou_documents outputs)) /\
  NoDup (map dr_canonical_url (ou_documents outputs)) /\
  rep_pages_fetched report = Z.of_nat (length (ou_documents outputs)) /\ rep_pages_fetched report <= fr_max_pages c /\
  map (fun n => (nr_canonical_url n, nr_raw_artifact_ref n)) (ou_normalized outputs) =
    map (fun d => (dr_canonical_url d, dr_artifact_ref d)) (ou_documents outputs) /\
  logged "fetched" (ou_frontier_events outputs) = map (fun d => (Some (dr_canonical_url d), None)) (ou_documents outputs) /\
  rep_extraction_candidates report = Z.of_nat (length (ou_candidates outputs)) /\
  rep_evidence_packets report = Z.of_nat (length (ou_evidence outputs)) /\
  stopped (rep_stop_reason report) s'.
Proof.
  intros Hf Hn Hrun. cbv zeta. destruct (run_emits fuel f s Hf Hn e) as (t & Ht & items & docs & Hv & _ & _ & Hr). rewrite Hrun in Ht, Hr. simpl in *.
  destruct Hr as (<- & (Hfe & Hnorm & _ & Hnd & Hcount & _) & [Hcand Hev] & Hru & Hstop & Hevents & at1 & at2 & replay & Hrep).
  rewrite Hrep. simpl. split_and!; [by exists t, items|done|done| |done|by rewrite Hevents|done|done|done]. apply Hru.
Qed.

(** From some fuel on the result is the same, and not for want of fuel. *)
Definition settles {A} (m : nat -> Mr (option A)) (p : State * E) : Prop :=
  exists fuel, forall fuel', (fuel <= fuel')%nat -> m fuel' p = m fuel p /\ (m fuel p).1 <> Ok None.

Lemma settles_bind {A B} (m : Mr A) (k : nat -> A -> Mr (option B)) p :
  (forall a p', m p = (Ok a, p') -> settles (fun fuel => k fuel a) p') -> settles (fun fuel => bind m (k fuel)) p.
Proof.
  intros Hk. unfold settles, bind. destruct (m p) as [[a|x] p'] eqn:Hm; [by apply Hk|]. exists 0%nat. by split.
Qed.

Lemma settles_finish (m : nat -> Mr (option string)) reason_report p : settles m p ->
  settles (fun fuel => let* stop := m fuel in
    match stop with None => ret None | Some reason => let* report := reason_report reason in ret (Some (report : RunReport)) end) p.
Proof.
  intros [fuel Hm]. exists fuel. intros fuel' Hle. destruct (Hm fuel' Hle) as [Hsame Hnone]. unfold bind. rewrite Hsame. split; [done|].
  destruct (m fuel p) as [[[reason|]|x] p']; [|done|done]. by destruct (reason_report reason p') as [[report|x] p''].
Qed.

(** C39: A run ends: for any frontier with the laws and any answers of the ports
    there is a number of iterations after which the loop has stopped, and more
    make no difference. *)
Theorem run_ends f s e : fresh f -> new_runner (rn_args cfg) f = Ok s -> settles run (s, e).
Proof.
  intros Hf Hn. pose proof (fresh_started f s Hf Hn) as H0. unfold run.
  refine (settles_bind _ (fun fuel x => _) _ _). intros ? p [= _ <-].
  refine (settles_bind _ (fun fuel x => _) _ _). intros [] [s1 e1] Hseeds. destruct (still_seeds (with_outputs (fun _ => no_outputs) s) e) as (t & _ & _ & Hg). simpl in *.
  rewrite Hseeds in Hg. apply (started_grows _ _ H0) in Hg as (Hrun & _).
  refine (settles_bind _ (fun fuel x => _) _ _). intros ? p [= _ <-].
  refine (settles_bind _ (fun fuel x => _) _ _). intros at_ p (_ & Hp)%on_world_ok.
  refine (settles_bind _ (fun fuel x => _) _ _). intros start p' (_ & Hp')%on_world_ok.
  refine (settles_bind _ (fun fuel x => _) _ _). intros budget p'' [_ ->]%lift_ok.
  apply settles_finish. destruct p' as [s2 e2], p as [s3 e3]. simpl in *. subst. by apply loop_ends.
Qed.
End Run.

(** ** The frontiers are fresh when built *)

Lemma fifo_fresh env allowed denied md mp lo f : Frontier.init allowed denied md mp lo = Ok f ->
  fresh env (fifo_ops env) {| fr_allowed_domains := allowed; fr_denied_domains := denied; fr_max_depth := md; fr_max_pages := mp;
    fr_allow_loopback := lo |} f.
Proof.
  intros H. split; [by eapply init_inv|]. unfold Frontier.init, new_base in H. run_m H. run_m Hr.
  apply guard_ok in Hr0, Hr1. split; [simpl; lia|done].
Qed.

Lemma priority_fresh env allowed denied md mp lo f : PriorityFrontier.init allowed denied md mp lo = Ok f ->
  fresh env (priority_ops env) {| fr_allowed_domains := allowed; fr_denied_domains := denied; fr_max_depth := md; fr_max_pages := mp;
    fr_allow_loopback := lo |} f.
Proof.
  intros H. split; [by eapply init_priority_inv|]. unfold PriorityFrontier.init, new_base in H. run_m H. run_m Hr.
  apply guard_ok in Hr0, Hr1. split; [simpl; lia|done].
Qed.

(** ** Witnesses *)

Module RunDemo.
Definition World : Type := list (call unit).
Definition job (seed : string) : CrawlJobSpec :=
  {| js_id := "job"; js_project_id := "project"; js_objective := "prices"; js_seed_urls := [seed];
     js_allowed_domains := ["shop.example"]; js_denied_domains := []; js_max_depth := 2; js_max_pages := 10; js_max_runtime_seconds := 60;
     js_per_origin_concurrency := 1; js_rate_limit := {| rl_requests_per_minute := 30; rl_crawl_delay_seconds := None |};
     js_source_adapters := [HTTP]; js_robots_policy := OBEY; js_private_network_policy := DENY;
     js_artifact_policy := {| ar_store_raw_html := true; ar_store_headers := false; ar_store_screenshots := false; ar_store_documents := true |};
     js_extraction := {| ex_mode := MODE_NONE; ex_schema_ref := None; ex_exploratory_schema_allowed := false; ex_ocr_language := "eng" |};
     js_output := {| ou_format := JSONL; ou_include_raw_refs := true; ou_include_evidence := true |} |}.
Definition args : RunnerArgs :=
  {| rg_planner := false; rg_plan_request_builder := false; rg_utc_clock := false; rg_utc_clock_ref := None; rg_graph_observer := false;
     rg_feedback_aware_planner_factory := false; rg_fetcher_map := None; rg_replay_seed_ref := None; rg_replay_consumer := false |}.
Definition cfg (seed : string) : RunnerConfig := {| rn_spec := job seed; rn_args := args; rn_user_agent := "veracrawl/0.1" |}.
Definition frontier_config : FrontierConfig :=
  {| fr_allowed_domains := {["shop.example"]}; fr_denied_domains := ∅; fr_max_depth := 2; fr_max_pages := 10; fr_allow_loopback := false |}.

(** Every word of a page is a link; the shop has two pages, one that robots
    close, one that throttles, and a sitemap index. *)
Definition html_tokens (text : string) : option (list HtmlToken) :=
  Some (map (fun word => StartTag "a" [("href", Some word)]) (split_words "" text)).
Definition answer (url : string) (status : Z) (content_type text : string) : res FetchOutcome :=
  Ok {| fo_requested_url := url; fo_final_url := url; fo_status_code := status; fo_headers := [("Retry-After", "30")];
        fo_body := String.list_byte_of_string text; fo_content_type := content_type; fo_redirect_chain := []; fo_redirect_history := [] |}.
Definition site (url : string) : res FetchOutcome :=
  if bool_decide (url = "http://shop.example/") then answer url 200 "text/html" "/a /private /slow http://evil.example/ /"
  else if bool_decide (url = "http://shop.example/a") then answer url 200 "text/html" "/"
  else if bool_decide (url = "http://shop.example/slow") then answer url 429 "text/html" ""
  else if bool_decide (url = "http://shop.example/index.xml") then answer url 200 "application/xml" "index"
  else if bool_decide (url = "http://shop.example/broken") then answer url 200 "text/html" "//["
  else Raise (FetchError "unreachable").
Definition index_of_private : Element := El "sitemapindex" [] None [El "sitemap" [] None [El "loc" [] (Some "http://10.0.0.1/map.xml") []]].
Definition fromstring (body : list Byte.byte) : option Element :=
  if bool_decide (String.string_of_list_byte body = "index") then Some index_of_private else None.

Definition said {A} (r : res A) (ev : call unit) : M World A := fun w => (r, w ++ [ev]).
Definition permission (url : string) : RobotsAdvice :=
  {| ra_is_allowed := negb (str_contains "/private" url); ra_crawl_delay := None; ra_request_rate := None; ra_disallow_reason := None |}.
Definition unused_decision : PlanDecision :=
  {| pd_id := ""; pd_request_ref := ""; pd_planner_adapter_ref := ""; pd_planned_seeds := []; pd_adapter_priors := []; pd_frontier_priority_hints := [];
     pd_extraction_strategy_refs := []; pd_replay_refs := []; pd_policy_decision_refs := [] |}.
Definition unused_request : PlanRequest :=
  {| pq_id := ""; pq_run_ref := ""; pq_objective_ref := ""; pq_seed_urls := []; pq_budget_ref := ""; pq_policy_snapshot_ref := "";
     pq_policy_decision_refs := []; pq_replay_config_ref := ""; pq_observed_state_refs := [] |}.
Definition ports : RunnerPorts unit unit World :=
  {| ro_clock := ret 0%float; ro_now := ret 0; ro_next_utc := ret {| cv_us := 0; cv_offset := Some 0 |};
     ro_robots := fun url _ => said (Ok (permission url)) (Asked url (Ok (permission url)));
     ro_acquire := fun o rc ad fl => said (Ok tt) (Acquired o rc ad fl (Ok tt)); ro_release := fun p => said (Ok tt) (Released p);
     ro_report_success := fun p => said (Ok tt) (Succeeded p); ro_report_throttled := fun p ra => said (Ok tt) (Throttled p ra);
     ro_fetch := fun f url => said (site url) (Fetched f url (site url));
     ro_put_bytes := fun ref body _ _ => said (Ok tt) (Stored ref body); ro_is_file := fun _ => ret true; ro_pdf_extractor := None;
     ro_extract_links := fun base body ct => lift (extract_links html_tokens offline base body ct); ro_extractors := [];
     ro_plan_request := ret unused_request; ro_plan := fun _ => ret unused_decision; ro_plan_with_feedback := fun _ _ => ret unused_decision;
     ro_record_url_observed := fun _ => ret tt; ro_record_redirect_observed := fun _ => ret tt; ro_record_page_structure_observed := fun _ => ret tt;
     ro_snapshot := fun _ _ => raise AssertionError |}.
#[export] Program Instance laws : RunnerLaws ports := {| calls := id |}.
Solve All Obligations with (simpl; try done; by intros ? ? ? ?%elem_of_nil).

Definition fifo : ExternalCrawlFrontier := {| f_base := {| b_config := frontier_config; b_seen := ∅; b_fetched := ∅; b_events := [];
  b_counters := {| fc_enqueued := 0; fc_fetched := 0; fc_skipped_by_reason := [] |} |}; f_queue := [] |}.
Definition start {F} (f : F) : RunnerState F unit :=
  {| ru_frontier := f; ru_observing := no_observing; ru_planning := no_planning; ru_outputs := no_outputs; ru_tally := no_tally |}.
(** A run from a seed. *)
Definition crawl {F} (ops : FrontierOps F) (f : F) (seed : string) :=
  run offline id (fun _ => 0%float) (fun _ => Some 30%float) (fun _ => None) html_tokens fromstring ops ports (cfg seed) 20 (start f, []).
(** The URLs fetched, in order. *)
Definition fetched_urls (t : World) : list string := omap (fun ev => if ev is Fetched _ url _ then Some url else None) t.
End RunDemo.

#[local] Existing Instance RunDemo.laws.
#[local] Abbreviation shop := "http://shop.example/".
#[local] Abbreviation shop_crawl := (RunDemo.crawl (fifo_ops offline) RunDemo.fifo shop).
#[local] Abbreviation shop_visits := (visits offline id (RunDemo.cfg shop)).

Lemma demo_fresh : fresh offline (fifo_ops offline) RunDemo.frontier_config RunDemo.fifo.
Proof. apply (fifo_fresh offline {["shop.example"]} ∅ 2 10 false). reflexivity. Qed.
Lemma demo_runner : new_runner (rn_args (RunDemo.cfg shop)) RunDemo.fifo = Ok (RunDemo.start RunDemo.fifo).
Proof. reflexivity. Qed.


Lemma report_is_true_witness : exists report s' t items, shop_crawl = (Ok (Some report), (s', t)) /\ rep_stop_reason report = "queue_drained" /\
  rep_pages_fetched report = 2 /\ NoDup (map dr_canonical_url (ou_documents (ru_outputs s'))) /\ shop_visits items t (ou_documents (ru_outputs s')) /\
  stopped offline (fifo_ops offline) RunDemo.frontier_config (rep_stop_reason report) s'.
Proof.
  destruct shop_crawl as [[[report|]|x] [s' t]] eqn:Hrun; [|vm_compute in Hrun; discriminate Hrun|vm_compute in Hrun; discriminate Hrun].
  destruct (report_is_true offline id (fun _ => 0%float) (fun _ => Some 30%float) (fun _ => None) RunDemo.html_tokens RunDemo.fromstring
    (fifo_ops offline) RunDemo.ports (RunDemo.cfg shop) RunDemo.frontier_config 20 RunDemo.fifo _ [] report s' t demo_fresh demo_runner Hrun)
    as ((t' & items & Ht & Hv) & Hnd & Hn & _ & _ & _ & _ & _ & Hstop).
  exists report, s', t, items. split; [reflexivity|]. simpl in Ht. subst t'.
  assert (rep_stop_reason report = "queue_drained" /\ rep_pages_fetched report = 2) as [Hr Hp].
  { apply (f_equal fst) in Hrun. vm_compute in Hrun. injection Hrun as <-. split; reflexivity. }
  repeat (split; [assumption|]). exact Hstop.
Defined.

(** The loop of a run with the priority queue. *)
Lemma run_ends_witness : exists f, PriorityFrontier.init {["shop.example"]} ∅ 2 10 false = Ok f /\
  settles (run offline id (fun _ => 0%float) (fun _ => Some 30%float) (fun _ => None) RunDemo.html_tokens RunDemo.fromstring
    (priority_ops offline) RunDemo.ports (RunDemo.cfg shop)) (RunDemo.start f, []).
Proof.
  destruct (PriorityFrontier.init {["shop.example"]} ∅ 2 10 false) as [f|x] eqn:Hf; [|discriminate Hf]. exists f. split; [reflexivity|].
  apply (run_ends offline id (fun _ => 0%float) (fun _ => Some 30%float) (fun _ => None) RunDemo.html_tokens RunDemo.fromstring
    (priority_ops offline) RunDemo.ports (RunDemo.cfg shop) RunDemo.frontier_config f); [exact (priority_fresh _ _ _ _ _ _ _ Hf)|reflexivity].
Defined.

(** ** What the model shows *)

(** The children of a sitemap index are requested whatever their host: no robots,
    no permit, and neither the policy nor the budget of the frontier. *)
Lemma sitemap_children_bypass_policy :
  let t := (RunDemo.crawl (fifo_ops offline) RunDemo.fifo "http://shop.example/index.xml").2.2 in
  RunDemo.fetched_urls t = ["http://shop.example/index.xml"; "http://10.0.0.1/map.xml"] /\
  omap (fun ev => if ev is Asked url _ then Some url else None) t = ["http://shop.example/index.xml"] /\
  (fun d => df_admit <$> Some d) <$> (if classify_url offline "http://10.0.0.1/map.xml" {["shop.example"]} ∅ false is Ok d then Some d else None)
    = Some (Some false).
Proof. by vm_compute. Qed.

(** One malformed link ends the run: no report, no event log. *)
Lemma malformed_link_ends_run :
  (RunDemo.crawl (fifo_ops offline) RunDemo.fifo "http://shop.example/broken").1 = Raise (ValueError "Invalid IPv6 URL").
Proof. by vm_compute. Qed.

(** A server that redirects a page to itself (to set a cookie, say) ends a run
    that records observations. *)
Lemma self_redirect_not_observable env id run_ref url status t : http_url env url "from_canonical_url must be absolute http(s)" = Ok tt ->
  http_url env url "to_canonical_url must be absolute http(s)" = Ok tt -> cv_offset t = Some 0 ->
  truthy_str (strip id) = true -> truthy_str (strip run_ref) = true ->
  validate_redirect_observed env {| ro_id := id; ro_run_ref := run_ref; ro_from_canonical_url := url; ro_to_canonical_url := url;
    ro_status_code := status; ro_observed_at := t |} = Raise (ValidationError "from_canonical_url must differ from to_canonical_url").
Proof.
  intros Hf Ht Hc Hi Hr. unfold validate_redirect_observed, _utc, _check_event_anchors, require_http, _require. simpl.
  rewrite Hc, Hi, Hr, Hf, Ht. simpl. by rewrite bool_decide_true.
Qed.

(** The policies [obey] and [deny_without_robots] are one, and [warn] asks
    nobody. *)
Lemma warn_does_not_ask {F Permit Value E} (P : RunnerPorts Permit Value E) cfg url (p : RunnerState F Value * E) :
  js_robots_policy (rn_spec cfg) = WARN -> _robots_allowed P cfg url p = (Ok true, p).
Proof. intros Hw. unfold _robots_allowed. by rewrite bool_decide_true. Qed.
