(* ===== verification/Vault.v ===== *)
(** * The credential vault

    [adapters/credential_vault/outbox_vault_client.py], the production path to
    a secret: fetch it from a backend, write one access row, and only then
    return it; with the wrapper [CredentialValue] ([ports/credential_vault.py])
    and the two fixtures [env_var_vault.py] and [in_memory_vault_backend.py].
    The backend, the audit writer, the clock and the logger are ports on a
    world [E] of any type: [VaultPorts] are their calls, [VaultPortLaws] what
    their protocols promise. SHA-256 is a parameter. Theorems: no secret is
    returned without its row, every access is recorded once, and neither the
    rows nor the log depend on the secret. *)
From Stdlib Require Import Ascii.
From S2P Require Import Prelude PyDict PyStr Contracts CredScope.
Local Open Scope Z_scope.

(** ** CredentialValue *)

Record CredentialValue := { cv_value : string; cv_scope_ref : string }.

Definition ident_char (c : ascii) : bool :=
  is_digit c || ((65 <=? N_of_ascii c) && (N_of_ascii c <=? 90))%N || bool_decide (c = "_"%char).
(** [fullmatch] of the pattern of letters, digits and underscores. *)
Definition safe_ident (s : string) : bool := truthy_str s && str_forall ident_char s.

Definition new_credential_value (value scope_ref : string) : res CredentialValue :=
  do? guard (truthy_str value) (ValueError "CredentialValue requires a non-empty value") in
  do? guard (truthy_str (strip value)) (ValueError "CredentialValue rejects whitespace-only values") in
  do? guard (truthy_str scope_ref) (ValueError "CredentialValue requires a non-empty scope_ref") in
  do? guard (safe_ident scope_ref) (ValueError "CredentialValue scope_ref must be env-var-safe") in
  Ok {| cv_value := value; cv_scope_ref := scope_ref |}.

Definition reveal (c : CredentialValue) : string := cv_value c.
(** [__repr__], [__str__] and the text [__format__] pads. *)
Definition _redacted (c : CredentialValue) : string := "<credential:redacted:" +:+ cv_scope_ref c +:+ ">".

(** ** The ports *)

Inductive CredentialAccessOutcome :=
  | CA_SUCCESS | CA_NOT_FOUND | CA_BACKEND_UNREACHABLE | CA_AUTH_FAILED | CA_INTERNAL | CA_BLANK_VALUE
  | CA_INVALID_IDENTIFIER | CA_PRODUCTION_GATE_REFUSED.
#[export] Instance CredentialAccessOutcome_eq_dec : EqDecision CredentialAccessOutcome.
Proof. solve_decision. Defined.
Definition CredentialAccessOutcome_value (o : CredentialAccessOutcome) : string :=
  match o with
  | CA_SUCCESS => "success" | CA_NOT_FOUND => "not_found" | CA_BACKEND_UNREACHABLE => "backend_unreachable"
  | CA_AUTH_FAILED => "auth_failed" | CA_INTERNAL => "internal" | CA_BLANK_VALUE => "blank_value"
  | CA_INVALID_IDENTIFIER => "invalid_identifier" | CA_PRODUCTION_GATE_REFUSED => "production_gate_refused"
  end.

(** The arguments of [CredentialAccessAuditPort.record]. *)
Record AccessRow := {
  ar_scope_ref : string;
  ar_key : string;
  ar_outcome : CredentialAccessOutcome;
  ar_run_ref : Ref;
  ar_timestamp : datetime }.

(** A structured-log event; [timestamp_iso] is the reading itself. *)
Record LogEvent := {
  le_level : string;
  le_event : string;
  le_fields : dict string string;
  le_timestamp : option datetime }.

Record VaultPorts (E : Type) := {
  backend_fetch : string -> string -> M E (option string);
  access_record : AccessRow -> M E unit;
  vault_clock : M E datetime;
  vault_log : LogEvent -> M E unit }.
Arguments backend_fetch {E} _ _ _.
Arguments access_record {E} _ _.
Arguments vault_clock {E} _.
Arguments vault_log {E} _ _.

(** [access_rows e]: the rows recorded so far. A [record] that returns has
    added its row; one that raises may have. The other ports add none, and
    logging does not raise. *)
Class VaultPortLaws {E : Type} (P : VaultPorts E) := {
  access_rows : E -> list AccessRow;
  record_returned : forall r e e', access_record P r e = (Ok tt, e') -> access_rows e' = access_rows e ++ [r];
  fetch_rows : forall s k e, access_rows (backend_fetch P s k e).2 = access_rows e;
  clock_rows : forall e, access_rows (vault_clock P e).2 = access_rows e;
  log_rows : forall ev e, access_rows (vault_log P ev e).2 = access_rows e;
  log_returns : forall ev e, (vault_log P ev e).1 = Ok tt }.

(** ** OutboxVaultClient *)

Definition _REDACTED_IDENT : string := "[REDACTED]".

Definition _BACKEND_KIND_TO_OUTCOME (k : VaultBackendErrorKind) : CredentialAccessOutcome :=
  match k with
  | VB_NOT_FOUND => CA_NOT_FOUND | VB_BACKEND_UNREACHABLE => CA_BACKEND_UNREACHABLE
  | VB_AUTH_FAILED => CA_AUTH_FAILED | VB_INTERNAL => CA_INTERNAL
  end.

Definition _is_valid_identifier (name : string) : bool := safe_ident name.

Section Client.
Context (sha256_hexdigest : string -> string) {E : Type} (P : VaultPorts E) (run_ref : Ref).

Definition _hashed_ref (name : string) : string := "sha256:" +:+ String.substring 0 16 (sha256_hexdigest name).

Definition vault_now : M E datetime :=
  let* ts := vault_clock P in
  if negb (dt_is_aware ts) then raise (RuntimeError "OutboxVaultClient.clock returned a tz-naive datetime") else ret ts.

Definition _audit_record (scope_ref_for_audit key_for_audit : string) (outcome : CredentialAccessOutcome) (timestamp : datetime) : M E unit :=
  access_record P {| ar_scope_ref := scope_ref_for_audit; ar_key := key_for_audit; ar_outcome := outcome;
                     ar_run_ref := run_ref; ar_timestamp := timestamp |}.

Definition access_audit_failed (scope_hash key_hash : string) (outcome : CredentialAccessOutcome) (ts : datetime) : LogEvent :=
  {| le_level := "error"; le_event := "credential_access_audit_failed";
     le_fields := [("scope_ref_hash", scope_hash); ("credential_key_hash", key_hash);
                   ("attempted_outcome", CredentialAccessOutcome_value outcome); ("run_ref", run_ref)];
     le_timestamp := Some ts |}.

Definition invalid_identifier_error : exn := ValueError "scope_ref / key must be uppercase, digits, underscore only".
Definition unaudited_error : exn := CredentialNotFoundError "credential access audit write failed; refusing credential return (no access without audit).".

(** The outcome of the fetch, and the message when it is not a value. *)
Definition fetch_outcome (fetched : res (option string)) : CredentialAccessOutcome * option string :=
  match fetched with
  | Raise (VaultBackendError kind) => (_BACKEND_KIND_TO_OUTCOME kind, Some "vault backend operation failed; treated as missing")
  | Raise _ => (CA_INTERNAL, Some "vault backend raised an unexpected exception; treated as missing")
  | Ok None => (CA_NOT_FOUND, Some "credential not found in vault")
  | Ok (Some raw) =>
      if negb (truthy_str (strip raw)) then (CA_BLANK_VALUE, Some "vault returned a blank credential value; treated as missing")
      else (CA_SUCCESS, None)
  end.

Definition refuse_invalid (pre_flight_ts : datetime) : M E CredentialValue :=
  let* audited := attempt (_audit_record _REDACTED_IDENT _REDACTED_IDENT CA_INVALID_IDENTIFIER pre_flight_ts) in
  match audited with
  | Raise _ =>
      do* vault_log P (access_audit_failed _REDACTED_IDENT _REDACTED_IDENT CA_INVALID_IDENTIFIER pre_flight_ts) in
      raise (CredentialNotFoundError "credential access audit write failed on invalid-identifier rejection; refusing access (no access without audit).")
  | Ok _ => raise invalid_identifier_error
  end.

(** The gate of a fixture backend: its row first, then the same exception. *)
Definition refuse_gate (scope_audit key_audit : string) (pre_flight_ts : datetime) (e : exn) : M E CredentialValue :=
  let* audited := attempt (_audit_record scope_audit key_audit CA_PRODUCTION_GATE_REFUSED pre_flight_ts) in
  do* (if audited is Raise _ then vault_log P (access_audit_failed scope_audit key_audit CA_PRODUCTION_GATE_REFUSED pre_flight_ts)
       else ret tt) in
  raise e.

(** What follows the fetch: the row, then the value. *)
Definition finish_access (scope_ref scope_audit key_audit : string) (fetched : res (option string)) : M E CredentialValue :=
  let '(outcome, not_found_message) := fetch_outcome fetched in
  let* post_fetch_ts := vault_now in
  let* audited := attempt (_audit_record scope_audit key_audit outcome post_fetch_ts) in
  match audited with
  | Raise _ =>
      do* vault_log P (access_audit_failed scope_audit key_audit outcome post_fetch_ts) in raise unaudited_error
  | Ok _ =>
      match not_found_message, fetched with
      | Some message, _ => raise (CredentialNotFoundError message)
      | None, Ok (Some raw) => lift (new_credential_value raw scope_ref)
      | None, _ => raise AssertionError
      end
  end.

Definition vault_get (scope_ref key : string) : M E CredentialValue :=
  let* pre_flight_ts := vault_now in
  if negb (_is_valid_identifier scope_ref) || negb (_is_valid_identifier key) then refuse_invalid pre_flight_ts
  else
    let scope_audit := _hashed_ref scope_ref in
    let key_audit := _hashed_ref key in
    let* fetched := attempt (backend_fetch P scope_ref key) in
    match fetched with
    | Raise (ProductionRuntimeNotImplemented backend gate as e) => refuse_gate scope_audit key_audit pre_flight_ts e
    | _ => finish_access scope_ref scope_audit key_audit fetched
    end.
End Client.

(** ** The fixtures *)

Definition _ENV_PREFIX : string := "VERACRAWL_CRED_".
Definition _ENV_SEP : string := "__".

Definition _validate_identifier (name kind : string) : res unit :=
  do? guard (truthy_str name) (ValueError (kind +:+ " must be non-empty")) in
  guard (safe_ident name) (ValueError (kind +:+ " must be env-var-safe")).

Definition env_name (scope_ref key : string) : string := _ENV_PREFIX +:+ scope_ref +:+ _ENV_SEP +:+ key.

(** [EnvVarVault.get]; [production] is the resolved mode. *)
Definition env_var_get (production : bool) (environ : dict string string) (scope_ref key : string) : res CredentialValue :=
  do? guard (negb production) (ProductionRuntimeNotImplemented "env_var_vault" "credential_vault") in
  do? _validate_identifier scope_ref "scope_ref" in
  do? _validate_identifier key "key" in
  match dict_get environ (env_name scope_ref key) with
  | None => Raise (CredentialNotFoundError "no credential at requested env var")
  | Some raw =>
      do? guard (truthy_str (strip raw)) (CredentialNotFoundError "credential at requested env var is empty / whitespace-only") in
      new_credential_value raw scope_ref
  end.

(** [InMemoryVaultBackend.fetch] *)
Definition in_memory_fetch (production : bool) (credentials : dict (string * string) string)
    (fail_with_kind : option VaultBackendErrorKind) (scope_ref key : string) : res (option string) :=
  do? guard (negb production) (ProductionRuntimeNotImplemented "in_memory_vault_backend" "vault_backend") in
  match fail_with_kind with
  | Some kind => Raise (VaultBackendError kind)
  | None =>
      match dict_get credentials (scope_ref, key) with
      | None => Ok None
      | Some raw => Ok (if truthy_str (strip raw) then Some raw else None)
      end
  end.

(** ** What the client promises *)

Section Promises.
Context (sha256_hexdigest : string -> string) {E : Type} (P : VaultPorts E) (run_ref : Ref).
#[local] Abbreviation get := (vault_get sha256_hexdigest P run_ref).
#[local] Abbreviation hashed := (_hashed_ref sha256_hexdigest).

Definition access_row (scope_audit key_audit : string) (outcome : CredentialAccessOutcome) (ts : datetime) : AccessRow :=
  {| ar_scope_ref := scope_audit; ar_key := key_audit; ar_outcome := outcome; ar_run_ref := run_ref; ar_timestamp := ts |}.

Lemma vault_now_ok e ts e' : vault_now P e = (Ok ts, e') -> vault_clock P e = (Ok ts, e') /\ dt_is_aware ts = true.
Proof.
  unfold vault_now. intros H. run_m H. destruct (dt_is_aware a) eqn:Ha; simpl in H; [|done]. injection H as -> ->. done.
Qed.

Lemma finish_ok scope sa ka fetched e c e' : finish_access P run_ref scope sa ka fetched e = (Ok c, e') ->
  exists raw ts e1, fetched = Ok (Some raw) /\ vault_now P e = (Ok ts, e1) /\
    access_record P (access_row sa ka CA_SUCCESS ts) e1 = (Ok tt, e') /\ new_credential_value raw scope = Ok c.
Proof.
  unfold finish_access. destruct (fetch_outcome fetched) as [outcome message] eqn:Ef. intros H.
  apply bind_ok in H as (ts & e1 & Hts & H). apply bind_ok in H as (audited & e2 & Ha & H).
  unfold attempt, _audit_record in Ha. destruct (access_record _ _ e1) as [r e3] eqn:Hr. injection Ha as <- <-.
  destruct r as [[]|]; [|apply bind_ok in H as (? & ? & _ & ?); done]. destruct message; [done|].
  destruct fetched as [[raw|]|]; [|done..]. unfold lift in H. injection H as Hn <-.
  exists raw, ts, e1. split_and!; try done. simpl in Ef. case_match; [done|]. injection Ef as <-. exact Hr.
Qed.

Lemma new_credential_value_ok raw scope c : new_credential_value raw scope = Ok c -> c = {| cv_value := raw; cv_scope_ref := scope |}.
Proof. unfold new_credential_value. intros H. run_m H. done. Qed.

Lemma get_recorded `{!VaultPortLaws P} scope key e c e' :
  get scope key e = (Ok c, e') ->
  exists ts ts0 e0 e1, vault_clock P e = (Ok ts0, e0) /\
    backend_fetch P scope key e0 = (Ok (Some (cv_value c)), e1) /\ cv_scope_ref c = scope /\
    dt_is_aware ts = true /\ access_rows e' = access_rows e ++ [access_row (hashed scope) (hashed key) CA_SUCCESS ts].
Proof.
  unfold vault_get. intros H. apply bind_ok in H as (ts0 & e0 & Hts0 & H). apply vault_now_ok in Hts0 as [Hc0 _].
  pose proof (clock_rows e) as R0. rewrite Hc0 in R0. simpl in R0.
  destruct (negb _ || negb _).
  { unfold refuse_invalid in H. apply bind_ok in H as ([?|?] & ? & _ & H); [done|].
    apply bind_ok in H as (? & ? & _ & H). done. }
  apply bind_ok in H as (fetched & e1 & Hf & H). unfold attempt in Hf. destruct (backend_fetch P scope key e0) as [r e2] eqn:Er.
  injection Hf as <- <-. pose proof (fetch_rows scope key e0) as R1. rewrite Er in R1. simpl in R1.
  assert (finish_access P run_ref scope (hashed scope) (hashed key) r e2 = (Ok c, e')) as Hfin.
  { destruct r as [?|[]]; try exact H. unfold refuse_gate in H. apply bind_ok in H as (? & ? & _ & H).
    apply bind_ok in H as (? & ? & _ & H). done. }
  apply finish_ok in Hfin as (raw & ts & e3 & -> & Hts & Hrec & ->%new_credential_value_ok).
  apply vault_now_ok in Hts as [Hc Ha]. pose proof (clock_rows e2) as R2. rewrite Hc in R2. simpl in R2.
  exists ts, ts0, e0, e2. split_and!; try done. rewrite (record_returned _ _ _ Hrec). congruence.
Qed.

(** No access without audit: when [get] returns a credential, it is the
    backend's value, and the last thing the call did was to record the row of a
    successful access, under hashes of the identifiers. *)
Theorem no_secret_without_row `{!VaultPortLaws P} scope key e c e' :
  get scope key e = (Ok c, e') ->
  exists ts ts0 e0 e1, vault_clock P e = (Ok ts0, e0) /\
    backend_fetch P scope key e0 = (Ok (Some (cv_value c)), e1) /\ cv_scope_ref c = scope /\
    dt_is_aware ts = true /\ access_rows e' = access_rows e ++ [access_row (hashed scope) (hashed key) CA_SUCCESS ts].
Proof. apply get_recorded. Qed.

(** *** Every access is recorded *)

(** A writer that does not fail, and an aware clock. *)
Definition reliable : Prop :=
  (forall r e, (access_record P r e).1 = Ok tt) /\
  (forall e, exists ts e', vault_clock P e = (Ok ts, e') /\ dt_is_aware ts = true).

Lemma now_reliable `{!VaultPortLaws P} e : reliable -> exists ts e', vault_now P e = (Ok ts, e') /\ access_rows e' = access_rows e.
Proof.
  intros [_ Hc]. destruct (Hc e) as (ts & e' & Hts & Ha). exists ts, e'. unfold vault_now, bind. rewrite Hts, Ha.
  split; [done|]. pose proof (clock_rows e) as R. by rewrite Hts in R.
Qed.

Lemma audit_reliable `{!VaultPortLaws P} sa ka o ts e : reliable ->
  exists e', _audit_record P run_ref sa ka o ts e = (Ok tt, e') /\ access_rows e' = access_rows e ++ [access_row sa ka o ts].
Proof.
  intros [Hw _]. specialize (Hw (access_row sa ka o ts) e). unfold _audit_record. fold (access_row sa ka o ts).
  destruct (access_record P _ e) as [r e'] eqn:Er. simpl in Hw. subst r. exists e'. split; [done|]. by apply record_returned.
Qed.

Lemma finish_recorded `{!VaultPortLaws P} scope sa ka fetched e : reliable -> safe_ident scope = true ->
  exists r e' ts, finish_access P run_ref scope sa ka fetched e = (r, e') /\
    access_rows e' = access_rows e ++ [access_row sa ka (fetch_outcome fetched).1 ts] /\
    (is_ok r = true <-> (fetch_outcome fetched).1 = CA_SUCCESS).
Proof.
  intros Hrel Hs. unfold finish_access. destruct (now_reliable e Hrel) as (ts & e1 & Hn & R1).
  destruct (fetch_outcome fetched) as [o message] eqn:Ef.
  destruct (audit_reliable sa ka o ts e1 Hrel) as (e2 & Ha & R2). unfold bind at 1. rewrite Hn. unfold bind, attempt. rewrite Ha.
  rewrite R1 in R2. unfold fetch_outcome in Ef.
  destruct fetched as [[raw|]|x].
  - destruct (truthy_str (strip raw)) eqn:Ht; simpl in Ef; injection Ef as <- <-; [|by eexists _, e2, ts].
    eexists _, e2, ts. split; [reflexivity|]. split; [done|]. split; [done|]. intros _.
    unfold new_credential_value. rewrite Ht. assert (truthy_str raw = true) as -> by (by destruct raw).
    unfold safe_ident in *. apply andb_true_iff in Hs as [Hs1 Hs2]. by rewrite Hs1, Hs2.
  - injection Ef as <- <-. by eexists _, e2, ts.
  - destruct x; injection Ef as <- <-; eexists _, e2, ts; (split; [reflexivity|]); (split; [done|]); try done;
      match goal with k : VaultBackendErrorKind |- _ => by destruct k end.
Qed.

(** Every access is recorded exactly once, whatever the identifiers and
    whatever the backend does: with a writer that does not fail, a call of
    [get] adds one row, whose outcome is success exactly when a credential is
    returned, and which names the identifiers by their hashes or not at all. *)
Theorem every_access_recorded `{!VaultPortLaws P} scope key e : reliable ->
  exists r e' row, get scope key e = (r, e') /\ access_rows e' = access_rows e ++ [row] /\
    (is_ok r = true <-> ar_outcome row = CA_SUCCESS) /\ ar_run_ref row = run_ref /\
    ar_scope_ref row ∈ [hashed scope; _REDACTED_IDENT] /\ ar_key row ∈ [hashed key; _REDACTED_IDENT].
Proof.
  intros Hrel. unfold vault_get. destruct (now_reliable e Hrel) as (ts0 & e0 & Hn & R0). unfold bind at 1. rewrite Hn.
  destruct (_is_valid_identifier scope) eqn:Hs; simpl negb; [destruct (_is_valid_identifier key) eqn:Hk|]; simpl.
  2,3: unfold refuse_invalid, bind, attempt;
    destruct (audit_reliable _REDACTED_IDENT _REDACTED_IDENT CA_INVALID_IDENTIFIER ts0 e0 Hrel) as (e1 & -> & R1);
    eexists _, e1, _; (split; [reflexivity|]); rewrite R0 in R1; (split; [exact R1|]); simpl; split_and!; try done; set_solver.
  unfold bind at 1, attempt. destruct (backend_fetch P scope key e0) as [f e1] eqn:Ef.
  pose proof (fetch_rows scope key e0) as R1. rewrite Ef in R1. simpl in R1.
  assert ((exists b g, f = Raise (ProductionRuntimeNotImplemented b g)) \/
    (match f with Raise (ProductionRuntimeNotImplemented b g as x) => refuse_gate P run_ref (hashed scope) (hashed key) ts0 x
     | _ => finish_access P run_ref scope (hashed scope) (hashed key) f end) e1 = finish_access P run_ref scope (hashed scope) (hashed key) f e1)
    as [(b & g & ->)| ->] by (destruct f as [?|[]]; eauto).
  - destruct (audit_reliable (hashed scope) (hashed key) CA_PRODUCTION_GATE_REFUSED ts0 e1 Hrel) as (e2 & Ha & R2).
    unfold refuse_gate, bind, attempt. rewrite Ha. eexists _, e2, _. split; [reflexivity|]. rewrite R2, R1, R0.
    split; [done|]. simpl. split_and!; try done; set_solver.
  - destruct (finish_recorded scope (hashed scope) (hashed key) f e1 Hrel Hs) as (r & e2 & ts & -> & R2 & Ho).
    eexists r, e2, _. split; [reflexivity|]. rewrite R2, R1, R0. split; [done|]. simpl. split_and!; try done; set_solver.
Qed.
End Promises.

(** *** The secret does not reach the audit *)

Definition with_fetch {E} (P : VaultPorts E) (fetch : string -> string -> M E (option string)) : VaultPorts E :=
  {| backend_fetch := fetch; access_record := access_record P; vault_clock := vault_clock P; vault_log := vault_log P |}.

(** What the caller can tell of a result without revealing the secret. *)
Definition same_shape (r1 r2 : res CredentialValue) : Prop :=
  match r1, r2 with
  | Ok c1, Ok c2 => _redacted c1 = _redacted c2
  | Raise x1, Raise x2 => x1 = x2
  | _, _ => False
  end.

(** Neither the audit rows, nor the log, nor any other effect, nor an
    exception depends on the secret: two runs of [get] whose backends differ
    only in the value they return end in the same world, with the same
    exception or with credentials that print alike. *)
Theorem audit_independent_of_secret sha {E} (P : VaultPorts E) run_ref scope key f1 f2 v1 v2 e :
  (forall e0, exists e1, f1 scope key e0 = (Ok (Some v1), e1) /\ f2 scope key e0 = (Ok (Some v2), e1)) ->
  truthy_str (strip v1) = true -> truthy_str (strip v2) = true ->
  let r1 := vault_get sha (with_fetch P f1) run_ref scope key e in
  let r2 := vault_get sha (with_fetch P f2) run_ref scope key e in
  r1.2 = r2.2 /\ same_shape r1.1 r2.1.
Proof.
  intros Hf H1 H2. assert (forall f, vault_now (with_fetch P f) = vault_now P) as Hnow by done.
  unfold vault_get. cbv zeta. rewrite !Hnow. unfold bind, attempt. destruct (vault_now P e) as [[ts0|x] e0]; [|done].
  destruct (negb (_is_valid_identifier scope) || negb (_is_valid_identifier key)) eqn:Hid.
  { change (refuse_invalid (with_fetch P f2) run_ref ts0) with (refuse_invalid (with_fetch P f1) run_ref ts0). split; [done|].
    destruct (refuse_invalid (with_fetch P f1) run_ref ts0 e0) as [[?|?] ?]; done. }
  apply orb_false_iff in Hid as [Hs%negb_false_iff _]. unfold _is_valid_identifier, safe_ident in Hs. apply andb_true_iff in Hs as [Hs1 Hs2].
  unfold bind, attempt. simpl backend_fetch. destruct (Hf e0) as (e1 & -> & ->).
  unfold finish_access, fetch_outcome. rewrite H1, H2, !Hnow. unfold bind, attempt. cbn [negb].
  destruct (vault_now P e1) as [[ts|x] e2]; [|done]. unfold _audit_record. cbn [access_record vault_log with_fetch].
  destruct (access_record P _ e2) as [[[]|y] e3].
  - unfold lift, new_credential_value. rewrite H1, H2. unfold safe_ident. rewrite Hs1, Hs2.
    assert (truthy_str v1 = true) as -> by (by destruct v1). by assert (truthy_str v2 = true) as -> by (by destruct v2).
  - by destruct (vault_log P _ e3) as [[[]|z] e4].
Qed.

(** ** An instance: lists, and the in-memory backend *)

Module VaultDemo.
Record World := { w_rows : list AccessRow; w_log : list LogEvent }.
Definition credentials : dict (string * string) string := [(("API", "TOKEN"), "s3cret-a"); (("API", "BLANK"), "  ")].
Definition ports (production : bool) (full : bool) : VaultPorts World :=
  {| backend_fetch s k := lift (in_memory_fetch production credentials None s k);
     access_record r := if full then raise (ForeignError "QueueFull")
                        else modify (fun w => {| w_rows := w_rows w ++ [r]; w_log := w_log w |});
     vault_clock := ret (aware 7);
     vault_log ev := modify (fun w => {| w_rows := w_rows w; w_log := w_log w ++ [ev] |}) |}.
#[export] Instance ports_laws production full : VaultPortLaws (ports production full).
Proof. by apply (Build_VaultPortLaws World (ports production full) w_rows); destruct full; try (intros ? ? ? [= <-]). Defined.
Definition start : World := {| w_rows := []; w_log := [] |}.
Definition sha (s : string) : string := s +:+ "0123456789abcdef".
Definition ask (production full : bool) (scope key : string) : res CredentialValue * World :=
  vault_get sha (ports production full) "run" scope key start.
End VaultDemo.
Import VaultDemo.

Lemma no_secret_without_row_witness :
  ask false false "API" "TOKEN" = (Ok {| cv_value := "s3cret-a"; cv_scope_ref := "API" |}, (ask false false "API" "TOKEN").2) /\
  exists ts ts0 e0 e1, vault_clock (ports false false) start = (Ok ts0, e0) /\
    backend_fetch (ports false false) "API" "TOKEN" e0 = (Ok (Some "s3cret-a"), e1) /\ "API" = "API" /\
    dt_is_aware ts = true /\ w_rows (ask false false "API" "TOKEN").2 =
      w_rows start ++ [access_row "run" (_hashed_ref sha "API") (_hashed_ref sha "TOKEN") CA_SUCCESS ts].
Proof.
  split; [reflexivity|].
  exact (no_secret_without_row sha (ports false false) "run" "API" "TOKEN" start {| cv_value := "s3cret-a"; cv_scope_ref := "API" |}
    (ask false false "API" "TOKEN").2 eq_refl).
Defined.

Lemma every_access_recorded_witness :
  (map (fun k => is_ok (ask false false "API" k).1) ["TOKEN"; "BLANK"; "token"] = [true; false; false]) /\
  exists r e' row, vault_get sha (ports false false) "run" "API" "token" start = (r, e') /\
    w_rows e' = w_rows start ++ [row] /\ (is_ok r = true <-> ar_outcome row = CA_SUCCESS) /\ ar_run_ref row = "run" /\
    ar_scope_ref row ∈ [_hashed_ref sha "API"; _REDACTED_IDENT] /\ ar_key row ∈ [_hashed_ref sha "token"; _REDACTED_IDENT].
Proof.
  split; [by vm_compute|].
  assert (reliable (ports false false)) as Hrel by (split; [done|]; intros e; by exists (aware 7), e).
  exact (every_access_recorded sha (ports false false) "run" "API" "token" start Hrel).
Defined.

Lemma audit_independent_of_secret_witness :
  let f v := fun (_ _ : string) => ret (S := World) (Some v) in
  let r1 := vault_get sha (with_fetch (ports false true) (f "one")) "run" "API" "TOKEN" start in
  let r2 := vault_get sha (with_fetch (ports false true) (f "two")) "run" "API" "TOKEN" start in
  r1.1 = Raise unaudited_error /\ length (w_log r1.2) = 1%nat /\ r1.2 = r2.2 /\ same_shape r1.1 r2.1.
Proof.
  split; [by vm_compute|]. split; [by vm_compute|].
  apply (audit_independent_of_secret sha (ports false true) "run" "API" "TOKEN"
           (fun _ _ => ret (Some "one")) (fun _ _ => ret (Some "two")) "one" "two" start); [|done|done].
  intros e0. by exists e0.
Defined.

(** The double underscore does not separate: identifiers may contain it, so two
    different scopes read one variable. *)
Lemma env_names_alias :
  safe_ident "A" = true /\ safe_ident "A__B" = true /\ env_name "A__B" "C" = env_name "A" "B__C" /\
  env_var_get false [("VERACRAWL_CRED_A__B__C", "secret")] "A" "B__C" = Ok {| cv_value := "secret"; cv_scope_ref := "A" |} /\
  env_var_get false [("VERACRAWL_CRED_A__B__C", "secret")] "A__B" "C" = Ok {| cv_value := "secret"; cv_scope_ref := "A__B" |}.
Proof. by vm_compute. Qed.
