(* ===== verification/CredLifecycle.v ===== *)
(** * The credential session of an agent run

    [agents/credential_lifecycle.py]: the context manager that resolves the
    credential scopes of a run, counts the uses and cleans up at its end, and
    [adapters/credential_vault/outbox_credential_use_audit.py], the writer that
    files use records as outbox rows. The object is the first component of the
    state and the world of the registry, the callback, the clock and the logger
    the second: those ports do not call the object back. Theorems: entering is
    atomic, the cleanup runs exactly once whatever the body does, and the count
    the session reports is the number of records its requests left. *)
From Stdlib Require Import Ascii.
From S2P Require Import Prelude PyDict PyStr Contracts UrlLib Url DurableStore CredScope Vault AuthSession.
Local Open Scope Z_scope.

(** ** AgentCredentialLifecycle *)

Inductive lifecycle_state := constructed | entered | exited.

Record Lifecycle := {
  lc_scopes : list CredentialScope;
  lc_scope_by_ref : dict Ref CredentialScope;
  lc_credential_use_count : Z;
  lc_state : lifecycle_state }.

#[export] Instance lifecycle_state_eq_dec : EqDecision lifecycle_state.
Proof. solve_decision. Defined.

(** [__init__] *)
Definition new_lifecycle : Lifecycle :=
  {| lc_scopes := []; lc_scope_by_ref := []; lc_credential_use_count := 0; lc_state := constructed |}.

(** [credential_scope_refs] and [id] of the [AgentRunRequest], and the
    identifiers of the session. *)
Record LifecycleConfig := {
  lf_credential_scope_refs : list Ref;
  lf_request_id : string;
  lf_run_ref : Ref;
  lf_session_id : string }.

Record LifecyclePorts (E : Type) := {
  lp_resolve : Ref -> M E CredentialScope;
  lp_on_session_end : list CredentialScope -> M E unit;
  lp_clock : M E datetime;
  lp_log : LogEvent -> M E unit }.
Arguments lp_resolve {E} _ _.
Arguments lp_on_session_end {E} _ _.
Arguments lp_clock {E} _.
Arguments lp_log {E} _ _.

Section Lifecycle.
Context (sha256_hexdigest : string -> string) {E : Type} (P : LifecyclePorts E) (cfg : LifecycleConfig).
#[local] Abbreviation Mw := (M (Lifecycle * E)).

Definition _hashed_scope_id (scope_id : string) : string := "sha256:" +:+ String.substring 0 16 (sha256_hexdigest scope_id).

Definition count_one (l : Lifecycle) : Lifecycle :=
  {| lc_scopes := lc_scopes l; lc_scope_by_ref := lc_scope_by_ref l;
     lc_credential_use_count := lc_credential_use_count l + 1; lc_state := lc_state l |}.

Definition record_use : Mw unit :=
  let* state := gets (fun p => lc_state p.1) in
  if negb (bool_decide (state = entered)) then raise (RuntimeError "record_use() is only valid between __enter__ and __exit__")
  else on_object count_one.

Definition scope_for (l : Lifecycle) (scope_ref : Ref) : res CredentialScope :=
  match dict_get (lc_scope_by_ref l) scope_ref with
  | None => Raise (KeyError "scope_ref not resolved by this session")
  | Some scope => Ok scope
  end.

Definition lifecycle_now : M E datetime :=
  let* ts := lp_clock P in
  if negb (dt_is_aware ts) then raise (RuntimeError "AgentCredentialLifecycle.clock returned a tz-naive datetime") else ret ts.

(** The loop of [__enter__], with its two locals. *)
Fixpoint resolve_all (refs : list Ref) (resolved : list CredentialScope) (scope_by_ref : dict Ref CredentialScope)
    : M E (list CredentialScope * dict Ref CredentialScope) :=
  match refs with
  | [] => ret (resolved, scope_by_ref)
  | scope_ref :: refs =>
      let* scope := lp_resolve P scope_ref in
      resolve_all refs (resolved ++ [scope]) (dict_set scope_by_ref scope_ref scope)
  end.

Definition lifecycle_fields (fields : dict string string) : dict string string :=
  ("session_id", lf_session_id cfg) :: ("run_ref", lf_run_ref cfg) :: fields.

(** The tuple of hashes, as a field's text. *)
Definition session_started (resolved : list CredentialScope) (timestamp : datetime) : LogEvent :=
  {| le_level := "info"; le_event := "agent_credential_session_started";
     le_fields := lifecycle_fields [("agent_run_request_id", lf_request_id cfg); ("scope_count", pretty (length resolved));
       ("scope_id_hashes", String.concat "," (map (fun scope => _hashed_scope_id (cs_id scope)) resolved))];
     le_timestamp := Some timestamp |}.

Definition __enter__ : Mw unit :=
  let* state := gets (fun p => lc_state p.1) in
  if negb (bool_decide (state = constructed)) then raise (RuntimeError "the lifecycle is not designed for reuse")
  else
    let* (resolved, scope_by_ref) := on_world (resolve_all (lf_credential_scope_refs cfg) [] []) in
    let* timestamp := on_world lifecycle_now in
    do* on_world (lp_log P (session_started resolved timestamp)) in
    on_object (fun l => {| lc_scopes := resolved; lc_scope_by_ref := scope_by_ref;
                           lc_credential_use_count := lc_credential_use_count l; lc_state := entered |}).

Definition py_bool (b : bool) : string := if b then "True" else "False".

Definition session_ended (l : Lifecycle) (ended_with_exception cleanup_succeeded : bool) (timestamp : datetime) : LogEvent :=
  {| le_level := "info"; le_event := "agent_credential_session_ended";
     le_fields := lifecycle_fields [("agent_run_request_id", lf_request_id cfg); ("scope_count", pretty (length (lc_scopes l)));
       ("credential_use_count", pretty (lc_credential_use_count l));
       ("ended_with_exception", py_bool ended_with_exception); ("cleanup_succeeded", py_bool cleanup_succeeded)];
     le_timestamp := Some timestamp |}.

Definition end_event_failed (ended_with_exception cleanup_succeeded : bool) : LogEvent :=
  {| le_level := "error"; le_event := "agent_credential_session_end_event_emit_failed";
     le_fields := lifecycle_fields [("ended_with_exception", py_bool ended_with_exception); ("cleanup_succeeded", py_bool cleanup_succeeded)];
     le_timestamp := None |}.

(** Without the class of the callback's exception. *)
Definition end_callback_failed (ended_with_exception : bool) : LogEvent :=
  {| le_level := "error"; le_event := "agent_credential_session_end_callback_failed";
     le_fields := lifecycle_fields [("masked_by_original_exception", py_bool ended_with_exception)];
     le_timestamp := None |}.

Definition set_exited (l : Lifecycle) : Lifecycle :=
  {| lc_scopes := lc_scopes l; lc_scope_by_ref := lc_scope_by_ref l;
     lc_credential_use_count := lc_credential_use_count l; lc_state := exited |}.

(** The end of [__exit__]: the events, then the error of a failed cleanup. *)
Definition finish_exit (with_exception : bool) (cleaned : res unit) : Mw unit :=
  let* l := gets fst in
  let* emitted := attempt (
    let* timestamp := on_world lifecycle_now in
    on_world (lp_log P (session_ended l with_exception (is_ok cleaned) timestamp))) in
  do* (if emitted is Raise _ then on_world (lp_log P (end_event_failed with_exception (is_ok cleaned))) else ret tt) in
  match cleaned with
  | Ok _ => ret tt
  | Raise _ =>
      do* on_world (lp_log P (end_callback_failed with_exception)) in
      if with_exception then ret tt else raise (LifecycleEndCallbackError "agent credential session end callback failed")
  end.

(** [__exit__(exc_type, ...)], [with_exception] when [exc_type is not None]. *)
Definition __exit__ (with_exception : bool) : Mw unit :=
  let* scopes := gets (fun p => lc_scopes p.1) in
  let* cleaned := attempt (on_world (lp_on_session_end P scopes)) in
  do* on_object set_exited in
  finish_exit with_exception cleaned.

(** [with lifecycle as session: body]. *)
Definition with_session {A} (body : Mw A) : Mw A :=
  do* __enter__ in
  let* r := attempt body in
  do* __exit__ (negb (is_ok r)) in
  lift r.
End Lifecycle.

(** ** OutboxCredentialUseAuditWriter *)

Section Writer.
Context {O : Type} (record_persister : CredentialUseRecord -> M O Ref) (append_outbox : OutboxRecord -> M O Ref)
  (uuid_hex : M O string) (created_at : M O Z) (command_result_ref event_ref : Ref).

Definition use_outbox_row (use_record : CredentialUseRecord) (hex : string) (payload_ref : Ref) (now : Z) : OutboxRecord :=
  {| ob_id := "outbox:credential-use:" +:+ hex; ob_run_ref := cu_run_ref use_record;
     ob_command_result_ref := command_result_ref; ob_event_ref := event_ref; ob_dispatch_topic := "credential-use";
     ob_payload_ref := payload_ref; ob_idempotency_key := cu_id use_record; ob_status := OB_PENDING;
     ob_attempt_count := 0; ob_dispatched_at_ref := None; ob_last_error_ref := None; ob_created_at := now |}.

Definition write_use_record (use_record : CredentialUseRecord) : M O unit :=
  let* payload_ref := record_persister use_record in
  let* hex := uuid_hex in
  let* now := created_at in
  let* row := lift (validate_outbox (use_outbox_row use_record hex payload_ref now)) in
  do* append_outbox row in
  ret tt.
End Writer.

(** Over the durable store's repository, a use record that was written is a
    pending row under its own idempotency key. *)
Lemma use_record_filed persister uuid_hex created_at command_result_ref event_ref use_record s s' :
  write_use_record persister append_outbox uuid_hex created_at command_result_ref event_ref use_record s = (Ok tt, s') ->
  exists row, get_outbox s' (ob_id row) = Some row /\ ob_idempotency_key row = cu_id use_record /\
    ob_run_ref row = cu_run_ref use_record /\ ob_status row = OB_PENDING /\ ob_dispatch_topic row = "credential-use".
Proof.
  unfold write_use_record. intros H. run_m H.
  injection Hm2 as <- <-. injection Hm3 as <- <-. eexists. split; [apply dict_get_set_eq|]. done.
Qed.

(** ** Running methods on the object and the world *)

(** [leaves f m]: [m] does not change what [f] observes. *)
Definition leaves {S A X} (f : S -> X) (m : M S A) : Prop := forall s, f (m s).2 = f s.

Section Keeps.
Context {S X : Type} (f : S -> X).
Lemma leaves_ret {A} (x : A) : leaves f (ret x). Proof. done. Qed.
Lemma leaves_raise {A} x : leaves f (raise (A := A) x). Proof. done. Qed.
Lemma leaves_gets {A} (g : S -> A) : leaves f (gets g). Proof. done. Qed.
Lemma leaves_bind {A B} (m : M S A) (k : A -> M S B) : leaves f m -> (forall x, leaves f (k x)) -> leaves f (bind m k).
Proof. intros Hm Hk s. unfold bind. specialize (Hm s). destruct (m s) as [[x|x] s1]; simpl in *; [|done]. by rewrite (Hk x s1). Qed.
Lemma leaves_attempt {A} (m : M S A) : leaves f m -> leaves f (attempt m).
Proof. intros Hm s. unfold attempt. specialize (Hm s). by destruct (m s). Qed.
End Keeps.

Lemma leaves_object {L E A X} (f : L -> X) (m : M E A) : leaves (fun p : L * E => f p.1) (on_world m).
Proof. intros p. by rewrite on_world_run. Qed.
Lemma leaves_world {L E A X} (f : E -> X) (m : M E A) : leaves f m -> leaves (fun p : L * E => f p.2) (on_world m).
Proof. intros Hm p. rewrite on_world_run. apply Hm. Qed.

(** *** What the ports promise *)

(** [cleanups e]: the calls of the callback so far, each with its scopes. *)
Class LifecycleLaws {E : Type} (P : LifecyclePorts E) := {
  cleanups : E -> list (list CredentialScope);
  end_cleans : forall scopes e, cleanups (lp_on_session_end P scopes e).2 = cleanups e ++ [scopes];
  resolve_leaves : forall ref, leaves cleanups (lp_resolve P ref);
  clock_leaves : leaves cleanups (lp_clock P);
  log_leaves : forall ev, leaves cleanups (lp_log P ev) }.

Section Laws.
Context (sha256_hexdigest : string -> string) {E : Type} (P : LifecyclePorts E) (cfg : LifecycleConfig).

Lemma lifecycle_now_leaves {X} (f : E -> X) : leaves f (lp_clock P) -> leaves f (lifecycle_now P).
Proof. intros H. apply leaves_bind; [done|]. intros ts. by case_match. Qed.

Lemma resolve_all_leaves {X} (f : E -> X) refs : (forall ref, leaves f (lp_resolve P ref)) ->
  forall acc d, leaves f (resolve_all P refs acc d).
Proof. intros H. induction refs as [|ref refs IH]; intros acc d; [apply leaves_ret|]. apply leaves_bind; auto. Qed.

(** An observation of the world that the registry, the clock and the logger do
    not change is not changed by [__enter__]. *)
Lemma enter_leaves_world {X} (f : E -> X) : (forall ref, leaves f (lp_resolve P ref)) -> leaves f (lp_clock P) ->
  (forall ev, leaves f (lp_log P ev)) -> leaves (fun p => f p.2) (__enter__ sha256_hexdigest P cfg).
Proof.
  intros Hr Hc Hl. apply leaves_bind; [done|]. intros state. case_match; [apply leaves_raise|].
  apply leaves_bind; [by apply leaves_world, resolve_all_leaves|]. intros [resolved d].
  apply leaves_bind; [by apply leaves_world, lifecycle_now_leaves|]. intros ts.
  by apply leaves_bind; [by apply leaves_world|].
Qed.

(** *** Entering *)

(** What the registry returned for a reference. *)
Definition resolved_to (ref : Ref) (scope : CredentialScope) : Prop := exists e1 e2, lp_resolve P ref e1 = (Ok scope, e2).

Lemma resolve_all_ok refs acc d e scopes d' e' : resolve_all P refs acc d e = (Ok (scopes, d'), e') ->
  exists new, scopes = acc ++ new /\ Forall2 resolved_to refs new /\
    (forall ref scope, dict_get d' ref = Some scope -> (ref ∈ refs /\ resolved_to ref scope) \/ dict_get d ref = Some scope) /\
    (forall ref, ref ∈ refs \/ is_Some (dict_get d ref) -> is_Some (dict_get d' ref)).
Proof.
  revert acc d e. induction refs as [|ref refs IH]; intros acc d e; cbn [resolve_all].
  { intros [= <- <- _]. exists []. rewrite app_nil_r. split_and!; [done|constructor|by right|].
    by intros ref [?%elem_of_nil|?]. }
  intros (scope & e1 & Hs & H)%bind_ok. destruct (IH _ _ _ H) as (new & -> & HF & Hd & Hk).
  exists (scope :: new). rewrite <-app_assoc. assert (resolved_to ref scope) by (by exists e, e1). split_and!; [done|by constructor| |].
  - intros ref' scope' [[? ?]|Hg]%Hd; [left; split; [by right|done]|]. rewrite dict_get_set in Hg. case_decide; [|by right].
    injection Hg as <-. subst. left. split; [left|done].
  - intros ref' Hin. apply Hk. rewrite dict_get_set. case_decide; [by right|]. destruct Hin as [[->|Hin]%elem_of_cons|Hin]; [done|by left|by right].
Qed.

Lemma enter_raised p x p' : __enter__ sha256_hexdigest P cfg p = (Raise x, p') -> p'.1 = p.1.
Proof.
  unfold __enter__, bind, gets. destruct (negb _); [by intros [= _ <-]|]. rewrite on_world_run.
  destruct (resolve_all _ _ _ _ _) as [[[resolved d]|y] e1]; simpl; [|by intros [= _ <-]]. rewrite on_world_run. simpl.
  destruct (lifecycle_now _ _) as [[ts|y] e2]; simpl; [|by intros [= _ <-]]. rewrite on_world_run. simpl.
  destruct (lp_log _ _ _) as [[u|y] e3]; simpl; [done|by intros [= _ <-]].
Qed.

Lemma enter_ok p u p' : __enter__ sha256_hexdigest P cfg p = (Ok u, p') ->
  lc_state p.1 = constructed /\ lc_state p'.1 = entered /\ lc_credential_use_count p'.1 = lc_credential_use_count p.1 /\
  exists e e', resolve_all P (lf_credential_scope_refs cfg) [] [] e = (Ok (lc_scopes p'.1, lc_scope_by_ref p'.1), e').
Proof.
  unfold __enter__. intros (state & p1 & [= <- <-] & H)%bind_ok. case_bool_decide as Hst; [|done]. simpl in H.
  apply bind_ok in H as ([resolved d] & p2 & Hr & H). rewrite on_world_run in Hr. injection Hr as Hr <-.
  apply bind_ok in H as (ts & p3 & Ht & H). rewrite on_world_run in Ht. injection Ht as _ <-.
  apply bind_ok in H as (u' & p4 & Hl & H). rewrite on_world_run in Hl. injection Hl as _ <-. injection H as _ <-. simpl.
  split_and!; [done..|]. destruct (resolve_all P _ _ _ p.2) as [r e'] eqn:Hra. simpl in Hr. subst. eauto.
Qed.

(** Entering is atomic: it succeeds on a new session only, and then every
    reference of the request has the scope the registry returned for it, and
    no other reference has one; when the registry, the clock or the logger
    fails, the session is as it was. *)
Theorem enter_atomic p r p' : __enter__ sha256_hexdigest P cfg p = (r, p') ->
  match r with
  | Raise _ => p'.1 = p.1
  | Ok _ => lc_state p.1 = constructed /\ lc_state p'.1 = entered /\
      lc_credential_use_count p'.1 = lc_credential_use_count p.1 /\
      Forall2 resolved_to (lf_credential_scope_refs cfg) (lc_scopes p'.1) /\
      forall ref, match scope_for p'.1 ref with
                  | Ok scope => ref ∈ lf_credential_scope_refs cfg /\ resolved_to ref scope
                  | Raise _ => ref ∉ lf_credential_scope_refs cfg
                  end
  end.
Proof.
  destruct r as [u|x]; [|apply enter_raised]. intros (Hc & He & Hn & e & e' & Hr)%enter_ok. split_and!; [done..| |];
    destruct (resolve_all_ok _ _ _ _ _ _ _ Hr) as (new & Hnew & HF & Hd & Hk); simpl in Hnew; [by rewrite Hnew|].
  intros ref. unfold scope_for. destruct (dict_get (lc_scope_by_ref p'.1) ref) as [scope|] eqn:Hg.
  - by destruct (Hd _ _ Hg) as [?|?].
  - intros Hin. destruct (Hk ref (or_introl Hin)) as [? ?]. congruence.
Qed.
(** *** Leaving *)

Lemma exit_run wx p : __exit__ P cfg wx p =
  finish_exit P cfg wx (lp_on_session_end P (lc_scopes p.1) p.2).1 (set_exited p.1, (lp_on_session_end P (lc_scopes p.1) p.2).2).
Proof. unfold __exit__, bind, gets, attempt, on_object, modify. rewrite on_world_run. done. Qed.

Lemma finish_exit_leaves {X} (f : Lifecycle * E -> X) : (forall A (m : M E A), leaves f (on_world m)) \/
    (exists g, f = (fun p => g p.2) /\ leaves g (lp_clock P) /\ forall ev, leaves g (lp_log P ev)) ->
  forall wx cleaned, leaves f (finish_exit P cfg wx cleaned).
Proof.
  intros Hf. assert (leaves f (on_world (lifecycle_now P)) /\ forall ev, leaves f (on_world (lp_log P ev))) as [Hc Hl].
  { destruct Hf as [Hf|(g & -> & Hc & Hl)]; [by split|]. split; [by apply leaves_world, lifecycle_now_leaves|]. intros ev. by apply leaves_world. }
  intros wx cleaned. apply leaves_bind; [done|]. intros l. apply leaves_bind; [by apply leaves_attempt, leaves_bind|].
  intros emitted. apply leaves_bind; [by destruct emitted|]. intros _. destruct cleaned; [done|]. apply leaves_bind; [done|]. by destruct wx.
Qed.

Lemma exit_object wx p : (__exit__ P cfg wx p).2.1 = set_exited p.1.
Proof.
  rewrite exit_run. apply (finish_exit_leaves (fun p => p.1)). left. intros A m. apply (leaves_object (fun l => l)).
Qed.

Lemma exit_world {X} (f : E -> X) wx p : leaves f (lp_clock P) -> (forall ev, leaves f (lp_log P ev)) ->
  f (__exit__ P cfg wx p).2.2 = f (lp_on_session_end P (lc_scopes p.1) p.2).2.
Proof. intros Hc Hl. rewrite exit_run. apply (finish_exit_leaves (fun p => f p.2)). right. by exists f. Qed.

(** A logger that returns. *)
Definition logs_return : Prop := forall ev e, is_ok (lp_log P ev e).1 = true.

Lemma log_ok ev (p : Lifecycle * E) : logs_return -> exists u p', on_world (lp_log P ev) p = (Ok u, p').
Proof.
  intros H. rewrite on_world_run. specialize (H ev p.2). destruct (lp_log P ev p.2) as [[u|?] e]; [|done]. simpl. eauto.
Qed.

Lemma exit_result wx p : logs_return -> (__exit__ P cfg wx p).1 =
  if is_ok (lp_on_session_end P (lc_scopes p.1) p.2).1 || wx then Ok tt
  else Raise (LifecycleEndCallbackError "agent credential session end callback failed").
Proof.
  intros Hlog. rewrite exit_run. destruct (lp_on_session_end _ _ _) as [cleaned e1]. simpl.
  unfold finish_exit, bind at 1, gets. simpl. unfold bind at 1. unfold attempt at 1.
  destruct (bind _ _ _) as [emitted p1]. unfold bind at 1.
  assert (exists u p2, (if emitted is Raise _ then on_world (lp_log P (end_event_failed cfg wx (is_ok cleaned))) else ret tt) p1 = (Ok u, p2))
    as (u & p2 & ->) by (destruct emitted; [by eexists _, _|by apply log_ok]).
  destruct cleaned as [[]|x]; [done|]. unfold bind. destruct (log_ok (end_callback_failed cfg wx) p2 Hlog) as (u' & p3 & ->). by destruct wx.
Qed.

(** The cleanup runs exactly once, with the scopes of the session, whatever
    the body, the clock, the logger and the callback do: a [with] that could
    not enter neither changed the session nor called the callback; one that
    entered called it once after the body and left the session closed, and, if
    the logger returns, the caller gets the body's exception, or else the
    body's value unless the callback failed. *)
Theorem cleanup_exactly_once `{!LifecycleLaws P} {A} (body : M (Lifecycle * E) A) p r p' :
  leaves (fun q => lc_scopes q.1) body -> leaves (fun q => cleanups q.2) body ->
  with_session sha256_hexdigest P cfg body p = (r, p') ->
  (exists x, r = Raise x /\ p'.1 = p.1 /\ cleanups p'.2 = cleanups p.2) \/
  exists p1 p2 r2, __enter__ sha256_hexdigest P cfg p = (Ok tt, p1) /\ body p1 = (r2, p2) /\ lc_state p'.1 = exited /\
    cleanups p'.2 = cleanups p.2 ++ [lc_scopes p1.1] /\
    (logs_return -> r = match r2 with
       | Raise x => Raise x
       | Ok v => if is_ok (lp_on_session_end P (lc_scopes p1.1) p2.2).1 then Ok v
                 else Raise (LifecycleEndCallbackError "agent credential session end callback failed")
       end).
Proof.
  intros Hs Hb. pose proof (enter_leaves_world cleanups (resolve_leaves (P := P)) (clock_leaves (P := P)) (log_leaves (P := P)) p) as Hc.
  unfold with_session, bind at 1. destruct (__enter__ _ _ _ p) as [[[]|x] p1] eqn:Hin; simpl in Hc.
  2:{ intros [= <- <-]. left. exists x. split_and!; [done| |done]. by eapply enter_raised. }
  unfold bind, attempt. destruct (body p1) as [r2 p2] eqn:Eb. specialize (Hs p1). specialize (Hb p1). rewrite Eb in Hs, Hb. simpl in Hs, Hb.
  pose proof (exit_object (negb (is_ok r2)) p2) as Ho.
  pose proof (exit_world cleanups (negb (is_ok r2)) p2 (clock_leaves (P := P)) (log_leaves (P := P))) as Hw.
  pose proof (exit_result (negb (is_ok r2)) p2) as Hr. rewrite end_cleans, Hs, Hb, Hc in Hw. rewrite Hs in Hr.
  destruct (__exit__ P cfg (negb (is_ok r2)) p2) as [rx px]. simpl in Ho, Hw, Hr. unfold lift. intros Hend. right. exists p1, p2, r2.
  assert (p' = px) as -> by (destruct rx; by injection Hend). split_and!; [done..|by rewrite Ho|done|].
  intros Hl. rewrite Hr in Hend by done. destruct r2 as [v|x]; simpl in Hend; [|by rewrite orb_true_r in Hend; injection Hend].
  rewrite orb_false_r in Hend. by destruct (is_ok _); injection Hend.
Qed.
End Laws.

(** ** The session's requests, counted *)

Section Wired.
Context (env : NetEnv) {Request Response : Type} (status_code : Response -> Z) (sha256_hexdigest : string -> string).
Context {E : Type} (P : SessionPorts Request Response E) (scfg : SessionConfig) `{L : !SessionLaws P}.

(** The adapter of a run: ports of the world, and [lifecycle.record_use] as
    its [on_credential_use]. *)
Definition wire : SessionPorts Request Response (Lifecycle * E) :=
  {| sp_clock := on_world (sp_clock P);
     sp_check s u m t := on_world (sp_check P s u m t);
     sp_vault_get s k := on_world (sp_vault_get P s k);
     sp_uuid_hex := on_world (sp_uuid_hex P);
     sp_created_at := on_world (sp_created_at P);
     sp_new_request m u a := on_world (sp_new_request P m u a);
     sp_handle_request r := on_world (sp_handle_request P r);
     sp_close r := on_world (sp_close P r);
     sp_use_record r := on_world (sp_use_record P r);
     sp_on_credential_use := Some record_use;
     sp_log ev := on_world (sp_log P ev) |}.

Lemma on_world_quiet {X Y A} (f : E -> list X) (g : E -> list Y) (m : M E A) :
  quiet f g m -> quiet (fun p : Lifecycle * E => f p.2) (fun p => g p.2) (on_world m).
Proof. intros Hm p. rewrite on_world_run. apply Hm. Qed.

Lemma record_use_run (p : Lifecycle * E) :
  record_use p = if bool_decide (lc_state p.1 = entered) then (Ok tt, (count_one p.1, p.2))
                 else (Raise (RuntimeError "record_use() is only valid between __enter__ and __exit__"), p).
Proof. unfold record_use, bind, gets. by case_bool_decide. Qed.

#[export] Instance wire_laws : SessionLaws wire.
Proof.
  apply (Build_SessionLaws _ _ _ wire (fun p => sent p.2) (fun p => uses p.2)); intros; simpl.
  1: rewrite on_world_run; apply handle_sent.
  1: rewrite on_world_run; apply record_used.
  all: try (apply on_world_quiet; first [apply clock_quiet|apply check_quiet|apply vault_quiet|apply uuid_quiet|apply created_quiet
    |apply new_request_quiet|apply close_quiet|apply log_quiet]).
  injection H as <-. intros p. rewrite record_use_run. by case_bool_decide.
Defined.

(** The count and the records move together. *)
Definition balanced {A} (m : M (Lifecycle * E) A) : Prop := forall p, lc_state p.1 = entered ->
  lc_state (m p).2.1 = entered /\ lc_scopes (m p).2.1 = lc_scopes p.1 /\
  lc_credential_use_count (m p).2.1 - Z.of_nat (length (uses (m p).2.2)) =
    lc_credential_use_count p.1 - Z.of_nat (length (uses p.2)).

Lemma balanced_world {A} (m : M E A) : quiet sent uses m -> balanced (on_world m).
Proof. intros Hm p Hp. rewrite on_world_run. simpl. destruct (Hm p.2) as [_ ->]. done. Qed.
Lemma balanced_pure {A} (r : res A) : balanced (lift r). Proof. done. Qed.
Lemma balanced_bind {A B} (m : M (Lifecycle * E) A) (k : A -> M (Lifecycle * E) B) :
  balanced m -> (forall x, balanced (k x)) -> balanced (bind m k).
Proof.
  intros Hm Hk p Hp. unfold bind. destruct (Hm p Hp) as (H1 & H2 & H3). destruct (m p) as [[x|x] p1]; simpl in *; [|done].
  destruct (Hk x p1 H1) as (H4 & H5 & H6). rewrite H4, H5, H2, H6. done.
Qed.
Lemma balanced_attempt {A} (m : M (Lifecycle * E) A) : balanced m -> balanced (attempt m).
Proof. intros Hm p Hp. unfold attempt. specialize (Hm p Hp). by destruct (m p). Qed.

(** Recording a use and counting it, whatever follows. *)
Lemma balanced_recorded {A} record ev (k : res unit -> M (Lifecycle * E) A) (k' : unit -> M (Lifecycle * E) A) :
  k (Ok tt) = bind (count_use wire scfg ev record) k' -> balanced (k' tt) -> (forall x, balanced (k (Raise x))) ->
  balanced (bind (attempt (sp_use_record wire record)) k).
Proof.
  intros Hk Hk' Hx p Hp. unfold bind, attempt. simpl sp_use_record. rewrite on_world_run.
  destruct (record_used record p.2) as [_ Hu]. destruct (sp_use_record P record p.2) as [[[]|x] e1]; simpl in Hu |- *.
  - rewrite Hk. unfold bind at 1 2 3, count_use. cbn [wire sp_on_credential_use]. unfold bind, attempt. rewrite record_use_run. simpl.
    rewrite bool_decide_eq_true_2 by done. simpl.
    destruct (Hk' (count_one p.1, e1)) as (H1 & H2 & H3); [done|]. rewrite H1, H2, H3. simpl. rewrite Hu, length_app. simpl.
    split_and!; [done..|lia].
  - destruct (Hx x (p.1, e1)) as (H1 & H2 & H3); [done|]. by rewrite H1, H2, H3, <-Hu.
Qed.

Ltac balanced_step :=
  first
  [ apply balanced_pure | done
  | apply balanced_world; first [apply clock_quiet|apply check_quiet|apply vault_quiet|apply uuid_quiet|apply created_quiet
      |apply new_request_quiet|apply close_quiet|apply log_quiet]
  | apply balanced_attempt | apply balanced_bind; [|intros ?]
  | match goal with
    | |- balanced (match ?x with _ => _ end) => destruct x
    | |- balanced (if ?x then _ else _) => destruct x
    end ].
Ltac balanced_solve := repeat balanced_step.

Lemma balanced_complete su m ts cid response : balanced (complete env status_code wire scfg su m ts cid response).
Proof.
  unfold complete. do 3 (apply balanced_bind; [balanced_solve|intros ?]).
  eapply balanced_recorded; [reflexivity|balanced_solve|]. intros y. balanced_solve.
Qed.

Lemma balanced_failed {A} su m ts error : balanced (transport_failed env wire scfg (A := A) su m ts error).
Proof.
  unfold transport_failed. do 4 (apply balanced_bind; [balanced_solve|intros ?]).
  eapply balanced_recorded; [reflexivity|balanced_solve|]. intros y. balanced_solve.
Qed.

Lemma balanced_handle r : balanced (on_world (sp_handle_request P r)).
Proof. intros p Hp. rewrite on_world_run. simpl. destruct (handle_sent r p.2) as [_ ->]. done. Qed.

Lemma balanced_request method url : balanced (request env status_code wire scfg method url).
Proof.
  unfold request, session_now, check_scope, send. apply balanced_bind; [balanced_solve|]. intros ts.
  apply balanced_bind; [balanced_solve|]. intros _. do 4 (apply balanced_bind; [balanced_solve|intros ?]).
  apply balanced_bind; [apply balanced_attempt, balanced_handle|]. intros [response|error]; [apply balanced_complete|apply balanced_failed].
Qed.

Lemma balanced_request_all calls : balanced (request_all env status_code wire scfg calls).
Proof.
  induction calls as [|[method url] calls IH]; [done|]. cbn [request_all].
  apply balanced_bind; [apply balanced_attempt, balanced_request|]. intros r. by apply balanced_bind.
Qed.

(** The session counts its uses: when the requests of a run go through an
    adapter whose [on_credential_use] is the session's [record_use], inside a
    [with] on a new session, the session ends closed, with a count that is the
    number of use records the requests left. *)
Theorem count_is_records (LP : LifecyclePorts E) lcfg calls p r p' :
  (forall ref, leaves uses (lp_resolve LP ref)) -> (forall scopes, leaves uses (lp_on_session_end LP scopes)) ->
  leaves uses (lp_clock LP) -> (forall ev, leaves uses (lp_log LP ev)) ->
  p.1 = new_lifecycle ->
  with_session sha256_hexdigest LP lcfg (request_all env status_code wire scfg calls) p = (r, p') ->
  lc_credential_use_count p'.1 = Z.of_nat (length (uses p'.2)) - Z.of_nat (length (uses p.2)) /\
  (lc_state p'.1 = exited \/ p'.1 = new_lifecycle /\ is_ok r = false).
Proof.
  intros Hres Hend Hclock Hlog Hnew.
  pose proof (enter_leaves_world sha256_hexdigest LP lcfg uses Hres Hclock Hlog p) as Hu.
  unfold with_session, bind at 1. destruct (__enter__ _ _ _ p) as [[[]|x] p1] eqn:Hin; simpl in Hu.
  2:{ intros [= <- <-]. apply enter_raised in Hin. rewrite Hin, Hnew, Hu. split; [simpl; lia|by right]. }
  apply enter_ok in Hin as (_ & Hst & Hcount & _). rewrite Hnew in Hcount. simpl in Hcount.
  unfold bind, attempt. destruct (balanced_request_all calls p1 Hst) as (H1 & H2 & H3).
  destruct (request_all env status_code wire scfg calls p1) as [r2 p2]. simpl in H1, H2, H3.
  pose proof (exit_object LP lcfg (negb (is_ok r2)) p2) as Ho.
  pose proof (exit_world LP lcfg uses (negb (is_ok r2)) p2 Hclock Hlog) as Hw. rewrite (Hend _ _) in Hw.
  destruct (__exit__ LP lcfg (negb (is_ok r2)) p2) as [rx px]. simpl in Ho, Hw. intros Heq.
  assert (p' = px) as -> by (destruct rx; by injection Heq). rewrite Ho, Hw. simpl. rewrite Hu, Hcount in H3. split; [lia|by left].
Qed.
End Wired.

(** ** Instances *)

Module LifecycleDemo.
(** The world of [SessionDemo], a log of the cleanups, and a registry. *)
Definition World : Type := SessionDemo.World * list (list CredentialScope).
Definition start : World := (SessionDemo.start, []).
Definition sports : SessionPorts (string * string) Z World :=
  let w {A} (m : M SessionDemo.World A) : M World A := fun p => let '(r, e) := m p.1 in (r, (e, p.2)) in
  {| sp_clock := w (sp_clock SessionDemo.ports);
     sp_check s u m t := w (sp_check SessionDemo.ports s u m t);
     sp_vault_get s k := w (sp_vault_get SessionDemo.ports s k);
     sp_uuid_hex := w (sp_uuid_hex SessionDemo.ports);
     sp_created_at := w (sp_created_at SessionDemo.ports);
     sp_new_request m u a := w (sp_new_request SessionDemo.ports m u a);
     sp_handle_request r := w (sp_handle_request SessionDemo.ports r);
     sp_close r := w (sp_close SessionDemo.ports r);
     sp_use_record r := w (sp_use_record SessionDemo.ports r);
     sp_on_credential_use := None;
     sp_log ev := w (sp_log SessionDemo.ports ev) |}.

#[local] Existing Instance SessionDemo.ports_laws.
#[export] Instance sports_laws : SessionLaws sports.
Proof.
  assert (forall A (m : M SessionDemo.World A), quiet SessionDemo.w_sent SessionDemo.w_uses m ->
    quiet (fun p : World => SessionDemo.w_sent p.1) (fun p => SessionDemo.w_uses p.1) (fun p => let '(r, e) := m p.1 in (r, (e, p.2)))) as Hq.
  { intros A m Hm [w l]. specialize (Hm w). simpl. by destruct (m w). }
  apply (Build_SessionLaws _ _ World sports (fun p => SessionDemo.w_sent p.1) (fun p => SessionDemo.w_uses p.1)); intros; cbn [sp_clock sp_check sp_vault_get
    sp_uuid_hex sp_created_at sp_new_request sp_handle_request sp_close sp_use_record sp_log sports];
    try (apply Hq; first
      [exact (clock_quiet (P := SessionDemo.ports))|exact (check_quiet (P := SessionDemo.ports) _ _ _ _)|exact (vault_quiet (P := SessionDemo.ports) _ _)|exact (uuid_quiet (P := SessionDemo.ports))|exact (created_quiet (P := SessionDemo.ports))
      |exact (new_request_quiet (P := SessionDemo.ports) _ _ _)|exact (close_quiet (P := SessionDemo.ports) _)|exact (log_quiet (P := SessionDemo.ports) _)]).
  - destruct e as [w l]. pose proof (handle_sent (P := SessionDemo.ports) r w). simpl fst. by destruct (sp_handle_request SessionDemo.ports r w).
  - destruct e as [w l]. pose proof (record_used (P := SessionDemo.ports) r w). simpl fst. by destruct (sp_use_record SessionDemo.ports r w) as [[]].
  - done.
Defined.

(** A callback that fails when told to. *)
Definition lports (failing : bool) : LifecyclePorts World :=
  {| lp_resolve ref := if bool_decide (ref = "scope:api") then ret ScopeDemo.scope else raise (KeyError ref);
     lp_on_session_end scopes := fun p => (if failing then Raise (ForeignError "CacheDown") else Ok tt, (p.1, p.2 ++ [scopes]));
     lp_clock := ret (aware 6);
     lp_log _ := ret tt |}.
#[export] Instance lports_laws failing : LifecycleLaws (lports failing).
Proof. apply (Build_LifecycleLaws World (lports failing) snd); try done. intros ref. unfold lports. simpl. by case_bool_decide. Defined.
Definition lcfg (refs : list Ref) : LifecycleConfig :=
  {| lf_credential_scope_refs := refs; lf_request_id := "agent-run:1"; lf_run_ref := "run:1"; lf_session_id := "agent-credential-session:1" |}.
Definition calls : list (string * string) :=
  [("GET", "https://api.example.com/v1/items/slow"); ("GET", "https://api.example.com/v1/items/7"); ("GET", "https://evil.example.com/v1/items/7")].
Definition demo_run (failing : bool) (refs : list Ref) :=
  with_session VaultDemo.sha (lports failing) (lcfg refs)
    (request_all offline (fun status => status) (wire sports) SessionDemo.cfg calls) (new_lifecycle, start).
End LifecycleDemo.
Import LifecycleDemo.

Lemma enter_atomic_witness :
  let entering refs := __enter__ VaultDemo.sha (lports false) (lcfg refs) (new_lifecycle, LifecycleDemo.start) in
  is_ok (entering ["scope:api"; "scope:other"]).1 = false /\ (entering ["scope:api"; "scope:other"]).2.1 = new_lifecycle /\
  lc_state (entering ["scope:api"]).2.1 = entered.
Proof.
  intros entering. split; [by vm_compute|]. split; [|by vm_compute].
  assert ((entering ["scope:api"; "scope:other"]).1 = Raise (KeyError "scope:other")) as H by (by vm_compute).
  pose proof (enter_atomic VaultDemo.sha (lports false) (lcfg ["scope:api"; "scope:other"]) (new_lifecycle, LifecycleDemo.start)
    _ (entering ["scope:api"; "scope:other"]).2 (surjective_pairing _)) as Ha.
  change (__enter__ _ _ _ _) with (entering ["scope:api"; "scope:other"]) in Ha. rewrite H in Ha. exact Ha.
Defined.

Lemma count_is_records_witness :
  let p' := (LifecycleDemo.demo_run true ["scope:api"]).2 in
  lc_credential_use_count p'.1 = 2 /\ length (uses (P := sports) p'.2) = 2%nat /\
  lc_credential_use_count p'.1 = Z.of_nat (length (uses (P := sports) p'.2)) - 0 /\
  (lc_state p'.1 = exited \/ p'.1 = new_lifecycle /\ is_ok (LifecycleDemo.demo_run true ["scope:api"]).1 = false).
Proof.
  intros p'. split; [by vm_compute|]. split; [by vm_compute|].
  refine (count_is_records offline (fun status => status) VaultDemo.sha sports SessionDemo.cfg (lports true) (lcfg ["scope:api"]) calls
    (new_lifecycle, LifecycleDemo.start) (LifecycleDemo.demo_run true ["scope:api"]).1 p' _ _ _ _ eq_refl (surjective_pairing _)).
  - intros ref. unfold lports. simpl. by case_bool_decide.
  - done.
  - done.
  - done.
Defined.

Lemma cleanup_exactly_once_witness :
  let p' := (LifecycleDemo.demo_run true ["scope:api"]).2 in
  cleanups (P := lports true) p'.2 = [[ScopeDemo.scope]] /\
  let body := raise (S := Lifecycle * LifecycleDemo.World) (A := unit) AssertionError in
  let q := with_session VaultDemo.sha (lports true) (lcfg ["scope:api"]) body (new_lifecycle, LifecycleDemo.start) in
  q.1 = Raise AssertionError /\ 
  ((exists x, q.1 = Raise x /\ q.2.1 = new_lifecycle /\ cleanups (P := lports true) q.2.2 = []) \/
   exists p1 p2 r2, __enter__ VaultDemo.sha (lports true) (lcfg ["scope:api"]) (new_lifecycle, LifecycleDemo.start) = (Ok tt, p1) /\
     body p1 = (r2, p2) /\ lc_state q.2.1 = exited /\ cleanups (P := lports true) q.2.2 = [] ++ [lc_scopes p1.1] /\
     (logs_return (lports true) -> q.1 = match r2 with
       | Raise x => Raise x
       | Ok v => if is_ok (lp_on_session_end (lports true) (lc_scopes p1.1) p2.2).1 then Ok v
                 else Raise (LifecycleEndCallbackError "agent credential session end callback failed")
       end)).
Proof.
  intros p'. split; [by vm_compute|]. intros body q. split; [by vm_compute|].
  exact (cleanup_exactly_once VaultDemo.sha (lports true) (lcfg ["scope:api"]) body (new_lifecycle, LifecycleDemo.start) q.1 q.2
    (fun _ => eq_refl) (fun _ => eq_refl) (surjective_pairing _)).
Defined.
