(* ===== verification/PyFormat.v ===== *)
(** * Format strings

    [string.Formatter] and the parser [_string.formatter_parser] behind it, as in
    CPython 3.11-3.12, for the calls of [agents/prompt_redaction.py] and
    [adapters/prompt_registry/json_prompt_registry.py]: no positional arguments.
    The values and what can be done with them are the caller's ([FormatOps]).
    Conversions are ASCII characters. Lemmas: the parser consumes its input, and
    what a format string is made of. *)
From Stdlib Require Import Ascii.
From S2P Require Import Prelude PyStr.
Local Open Scope Z_scope.

(** ** Parsing *)

Record Field := { fd_name : string; fd_conversion : option ascii; fd_spec : string }.

(** Literal text with the field that follows it, if one does. *)
Definition Chunk : Type := string * option Field.

Definition is_brace (c : ascii) : bool := bool_decide (c = "{"%char \/ c = "}"%char).

(** The text of a field name up to [}], [:] or [!], that character, and what
    follows; brackets protect these characters, [{] is refused. *)
Fixpoint scan_name (bracket : bool) (s : string) : res (string * ascii * string) :=
  match s with
  | "" => Raise (ValueError "expected '}' before end of string")
  | String c s =>
      if bracket then let? (name, stop, rest) := scan_name (negb (bool_decide (c = "]"%char))) s in Ok (String c name, stop, rest)
      else if bool_decide (c = "{"%char) then Raise (ValueError "unexpected '{' in field name")
      else if bool_decide (c ∈ ["}"%char; ":"%char; "!"%char]) then Ok ("", c, s)
      else let? (name, stop, rest) := scan_name (bool_decide (c = "["%char)) s in Ok (String c name, stop, rest)
  end.

(** A format specification, [nested] braces deep, up to the [}] of its field. *)
Fixpoint scan_spec (nested : nat) (s : string) : res (string * string) :=
  match s with
  | "" => Raise (ValueError "unmatched '{' in format spec")
  | String c s =>
      if bool_decide (c = "}"%char) then
        match nested with
        | O => Ok ("", s)
        | S nested => let? (spec, rest) := scan_spec nested s in Ok (String c spec, rest)
        end
      else let? (spec, rest) := scan_spec (if bool_decide (c = "{"%char) then S nested else nested) s in Ok (String c spec, rest)
  end.

Definition with_spec (name : string) (conversion : option ascii) (s : string) : res (Field * string) :=
  let? (spec, rest) := scan_spec 0 s in Ok ({| fd_name := name; fd_conversion := conversion; fd_spec := spec |}, rest).

Definition parse_field (s : string) : res (Field * string) :=
  let? (name, stop, rest) := scan_name false s in
  if bool_decide (stop = "}"%char) then Ok ({| fd_name := name; fd_conversion := None; fd_spec := "" |}, rest)
  else if bool_decide (stop = ":"%char) then with_spec name None rest
  else
    match rest with
    | "" => Raise (ValueError "end of string while looking for conversion specifier")
    | String conversion "" => with_spec name (Some conversion) ""
    | String conversion (String c rest) =>
        if bool_decide (c = "}"%char) then Ok ({| fd_name := name; fd_conversion := Some conversion; fd_spec := "" |}, rest)
        else if bool_decide (c = ":"%char) then with_spec name (Some conversion) rest
        else Raise (ValueError "expected ':' after conversion specifier")
    end.

(** One step of the parser: the next chunk and the rest of the input. *)
Definition next_chunk (s : string) : res (Chunk * string) :=
  let '(literal, rest) := span (fun c => negb (is_brace c)) s in
  match rest with
  | "" => Ok ((literal, None), "")
  | String c "" => Raise (ValueError "Single brace encountered in format string")
  | String c (String c' rest as tail) =>
      if bool_decide (c = c') then Ok ((literal +:+ String c "", None), rest)
      else if bool_decide (c = "}"%char) then Raise (ValueError "Single '}' encountered in format string")
      else let? (field, rest) := parse_field tail in Ok ((literal, Some field), rest)
  end.

(** The chunks of a format string in order; an error ends them, after those
    that came before it. *)
Fixpoint chunks (fuel : nat) (s : string) : list (res Chunk) :=
  match fuel, s with
  | O, _ | _, "" => []
  | S fuel, _ =>
      match next_chunk s with
      | Raise e => [Raise e]
      | Ok (chunk, rest) => Ok chunk :: chunks fuel rest
      end
  end.
Definition parse (format_string : string) : list (res Chunk) := chunks (String.length format_string) format_string.

Lemma scan_name_shorter s : forall bracket name stop rest, scan_name bracket s = Ok (name, stop, rest) -> (String.length rest < String.length s)%nat.
Proof.
  induction s as [|c s IH]; intros bracket name stop rest H; simpl in *; [done|]. destruct bracket.
  - apply rbind_ok in H as ([[n st] r] & Hr & [= <- <- <-]). apply IH in Hr. lia.
  - destruct (bool_decide _); [done|]. destruct (bool_decide _); [injection H as <- <- <-; lia|].
    apply rbind_ok in H as ([[n st] r] & Hr & [= <- <- <-]). apply IH in Hr. lia.
Qed.
Lemma scan_spec_shorter s : forall nested spec rest, scan_spec nested s = Ok (spec, rest) -> (String.length rest < String.length s)%nat.
Proof.
  induction s as [|c s IH]; intros nested spec rest H; simpl in *; [done|]. destruct (bool_decide _); [destruct nested|];
    [injection H as <- <-; lia| |]; apply rbind_ok in H as ([sp r] & Hr & [= <- <-]); apply IH in Hr; lia.
Qed.
Lemma with_spec_shorter name conversion s field rest : with_spec name conversion s = Ok (field, rest) -> (String.length rest < String.length s)%nat.
Proof. unfold with_spec. intros H. apply rbind_ok in H as ([sp r] & Hr & [= <- <-]). by apply scan_spec_shorter in Hr. Qed.
Lemma parse_field_shorter s field rest : parse_field s = Ok (field, rest) -> (String.length rest < String.length s)%nat.
Proof.
  unfold parse_field. intros H. apply rbind_ok in H as ([[name stop] r] & Hr & H). apply scan_name_shorter in Hr.
  destruct (bool_decide _); [injection H as <- <-; lia|]. destruct (bool_decide _); [apply with_spec_shorter in H; lia|].
  destruct r as [|conversion [|c r]]; [done|apply with_spec_shorter in H; simpl in *; lia|].
  destruct (bool_decide _); [injection H as <- <-; simpl in *; lia|]. destruct (bool_decide _); [apply with_spec_shorter in H; simpl in *; lia|done].
Qed.

Lemma next_chunk_shorter s chunk rest : s <> "" -> next_chunk s = Ok (chunk, rest) -> (String.length rest < String.length s)%nat.
Proof.
  unfold next_chunk. intros Hs H. destruct (span _ s) as [literal tail] eqn:E. apply span_spec in E as (-> & _). rewrite str_length_app.
  destruct tail as [|c [|c' tail]]; [|done|].
  - injection H as <- <-. destruct literal; [by destruct Hs|simpl; lia].
  - simpl. destruct (bool_decide (c = c')); [injection H as <- <-; lia|]. destruct (bool_decide _); [done|].
    apply rbind_ok in H as ([field r] & Hr & [= <- <-]). apply parse_field_shorter in Hr. simpl in Hr. lia.
Qed.

(** The fuel of [parse] is enough: more of it changes nothing. *)
Lemma parse_enough n : forall s, (String.length s <= n)%nat -> chunks n s = parse s.
Proof.
  unfold parse. assert (forall n m s, (String.length s <= n)%nat -> (String.length s <= m)%nat -> chunks n s = chunks m s) as Hnm;
    [|intros s Hs; by apply Hnm]. clear n.
  induction n as [|n IH]; intros m s Hn Hm; [by destruct s, m; simpl in *; try lia|]. destruct m as [|m]; [by destruct s; simpl in *; try lia|].
  destruct s as [|c s]; [done|]. cbn [chunks]. destruct (next_chunk (String c s)) as [[chunk rest]|e] eqn:E; [|done].
  apply next_chunk_shorter in E; [|done]. f_equal. apply IH; simpl in *; lia.
Qed.

(** Text without braces is one chunk of text. *)
Lemma span_all p s : str_forall p s = true -> span p s = (s, "").
Proof. induction s as [|c s IH]; simpl; [done|]. intros [-> H]%andb_true_iff. by rewrite IH. Qed.
Lemma parse_literal s : s <> "" -> str_forall (fun c => negb (is_brace c)) s = true -> parse s = [Ok (s, None)].
Proof.
  intros Hs Hb. destruct s as [|c s]; [done|]. unfold parse. cbn [String.length chunks]. unfold next_chunk. rewrite span_all by done.
  by destruct (String.length s).
Qed.

(** ** Field names *)

Inductive Accessor := Attr (name : string) | Index (i : Z) | Key (key : string).

(** The integer of a text of digits, of a length that a C [ssize_t] holds. *)
Definition ssize_index (s : string) : res (option Z) :=
  if isdigit s then
    let n := int_of_digits s in
    if n <=? 9223372036854775807 then Ok (Some n) else Raise (ValueError "Too many decimal digits in format string")
  else Ok None.

(** What follows the first part of a field name, one accessor at a time. *)
Fixpoint accessors (fuel : nat) (s : string) : list (res Accessor) :=
  match fuel, s with
  | O, _ | _, "" => []
  | S fuel, String c s =>
      if bool_decide (c = "."%char) then
        let '(name, rest) := span (fun c => negb (bool_decide (c = "."%char \/ c = "["%char))) s in
        if truthy_str name then Ok (Attr name) :: accessors fuel rest else [Raise (ValueError "Empty attribute in format string")]
      else if bool_decide (c = "["%char) then
        let '(key, closed, rest) := partition "]" s in
        if negb closed then [Raise (ValueError "Missing ']' in format string")]
        else if negb (truthy_str key) then [Raise (ValueError "Empty attribute in format string")]
        else
          match ssize_index key with
          | Raise e => [Raise e]
          | Ok index => Ok (if index is Some i then Index i else Key key) :: accessors fuel rest
          end
      else [Raise (ValueError "Only '.' or '[' may follow ']' in format field specifier")]
  end.

Definition field_name_split (s : string) : string * list (res Accessor) :=
  let '(first, rest) := span (fun c => negb (bool_decide (c = "."%char \/ c = "["%char))) s in
  (first, accessors (String.length rest) rest).

(** ** Formatter.vformat *)

(** What a formatter does to values; [format_field] may change the formatter. *)
Class FormatOps (S V : Type) := {
  text_value : string -> V;
  get_attr : V -> string -> res V;
  get_item : V -> Z + string -> res V;
  to_str : V -> res string;
  to_repr : V -> res string;
  to_ascii : V -> res string;
  format_field : V -> string -> M S string }.

Section Formatter.
Context {S V : Type} `{FormatOps S V} (kwargs : string -> option V).

Definition access (obj : V) (a : Accessor) : res V :=
  match a with
  | Attr name => get_attr obj name
  | Index i => get_item obj (inl i)
  | Key key => get_item obj (inr key)
  end.

Fixpoint follow (obj : V) (rest : list (res Accessor)) : res V :=
  match rest with
  | [] => Ok obj
  | a :: rest => let? a := a in let? obj := access obj a in follow obj rest
  end.

(** [get_field]; there are no positional arguments, so [{}] and [{0}] fail. *)
Definition get_field (field_name : string) : res V :=
  let '(first, rest) := field_name_split field_name in
  let? index := ssize_index first in
  if negb (truthy_str field_name) || (if index is Some _ then true else false) then Raise IndexError
  else
    match kwargs first with
    | Some obj => follow obj rest
    | None => Raise (KeyError first)
    end.

Definition convert_field (obj : V) (conversion : option ascii) : res V :=
  match conversion with
  | None => Ok obj
  | Some c =>
      if bool_decide (c = "s"%char) then let? s := to_str obj in Ok (text_value s)
      else if bool_decide (c = "r"%char) then let? s := to_repr obj in Ok (text_value s)
      else if bool_decide (c = "a"%char) then let? s := to_ascii obj in Ok (text_value s)
      else Raise (ValueError "Unknown conversion specifier")
  end.

(** [for chunk in chunks: ...], collecting the texts. *)
Fixpoint concat_chunks (f : Chunk -> M S string) (l : list (res Chunk)) : M S string :=
  match l with
  | [] => ret ""
  | chunk :: l => let* chunk := lift chunk in let* text := f chunk in let* rest := concat_chunks f l in ret (text +:+ rest)
  end.

(** [_vformat]; the first argument is [recursion_depth + 1]. *)
Fixpoint _vformat (depth : nat) (format_string : string) : M S string :=
  match depth with
  | O => raise (ValueError "Max string recursion exceeded")
  | Datatypes.S depth =>
      concat_chunks (fun '(literal_text, field) =>
        match field with
        | None => ret literal_text
        | Some field =>
            let* obj := lift (get_field (fd_name field)) in
            let* obj := lift (convert_field obj (fd_conversion field)) in
            let* format_spec := _vformat depth (fd_spec field) in
            let* text := format_field obj format_spec in
            ret (literal_text +:+ text)
        end) (parse format_string)
  end.
Definition vformat (format_string : string) : M S string := _vformat 3 format_string.
End Formatter.
