(* ===== verification/PromptRedaction.v ===== *)
(** * Prompts without credentials

    [agents/prompt_redaction.py]: the walk that looks for a [CredentialValue] in
    the values of a prompt's context, and [RedactedPromptContext.render] around
    [string.Formatter]. Values are references into a heap, since the walk goes by
    the identity of objects: they may be shared and cyclic. An object is what the
    walk distinguishes; what the language does with other objects when a template
    asks for an attribute, an item or a text is a parameter, [PyObjects].
    Theorems: the walk misses no credential that is reachable, and what [render]
    does is independent of the secrets. *)
From Stdlib Require Import Ascii.
From stdpp Require Import relations.
From S2P Require Import Prelude PyDict PyStr UrlLib PyFormat Vault.

(** ** Values *)

(** [bytes], [bytearray] and [complex] are [POther]; a float is its [repr]. *)
Inductive Primitive := PNone | PBool (b : bool) | PInt (n : Z) | PFloat (repr : string) | PStr (s : string) | POther (repr : string).
#[export] Instance Primitive_eq_dec : EqDecision Primitive.
Proof. solve_decision. Defined.

(** A primitive, or the identity of an object. *)
Inductive Value := Prim (p : Primitive) | Obj (id : nat).
#[export] Instance Value_eq_dec : EqDecision Value.
Proof. solve_decision. Defined.

(** A credential; a [dict] with its items; a [list] or [tuple]; a [set] or
    [frozenset]; any other object, with the values of [vars(obj)] when that is a
    dict and those of its [__slots__] that are set. *)
Inductive Object :=
  | Credential (c : CredentialValue)
  | Dict (items : list (Value * Value))
  | Sequence (items : list Value)
  | SetOf (items : list Value)
  | Instance_ (instance_dict : option (list Value)) (slots : list Value).
Abbreviation Heap := (gmap nat Object).

(** An object the heap does not list has nothing that can be walked. *)
Definition deref (h : Heap) (id : nat) : Object := default (Instance_ None []) (h !! id).

(** ** The walk *)

Definition _MAX_CONTEXT_DEPTH : nat := 12.

(** [any(f(x) for x in l)] *)
Fixpoint any_of {S A} (f : A -> M S bool) (l : list A) : M S bool :=
  match l with
  | [] => ret false
  | x :: l => let* found := f x in if found then ret true else any_of f l
  end.

(** The values the walk goes to from an object, in order. *)
Definition parts (o : Object) : list Value :=
  match o with
  | Credential _ => []
  | Dict items => items ≫= (fun kv => [kv.1; kv.2])
  | Sequence items | SetOf items => items
  | Instance_ instance_dict slots => default [] instance_dict ++ slots
  end.

(** [_context_contains_credential]; [remaining] is [_MAX_CONTEXT_DEPTH - depth],
    the state is [seen]. *)
Fixpoint _context_contains_credential (h : Heap) (remaining : nat) (value : Value) : M (gset nat) bool :=
  match remaining with
  | O => ret true
  | S remaining =>
      match value with
      | Prim _ => ret false
      | Obj id =>
          match deref h id with
          | Credential _ => ret true
          | o =>
              let* seen := gets (fun seen => bool_decide (id ∈ seen)) in
              if seen then ret false
              else
                do* modify (fun seen => {[id]} ∪ seen) in
                any_of (_context_contains_credential h remaining) (parts o)
          end
      end
  end.

Definition contains_credential (h : Heap) (value : Value) : bool :=
  match (_context_contains_credential h _MAX_CONTEXT_DEPTH value ∅).1 with Ok found => found | Raise _ => true end.

(** ** Formatting *)

(** What the language does with an object that is no credential. *)
Class PyObjects := {
  obj_attr : Heap -> Value -> string -> res Value;
  obj_item : Heap -> Value -> Z + string -> res Value;
  obj_str : Heap -> Value -> res string;
  obj_repr : Heap -> Value -> res string;
  obj_ascii : Heap -> Value -> res string;
  obj_format : Heap -> Value -> string -> res string }.

Definition credential_at (h : Heap) (v : Value) : option CredentialValue :=
  match v with
  | Prim _ => None
  | Obj id => if deref h id is Credential c then Some c else None
  end.

(** [CredentialValue] of [ports/credential_vault.py]: its texts are the marker;
    its attributes can be read, the private ones too. *)
Definition credential_attr (c : CredentialValue) (name : string) : option string :=
  if bool_decide (name = "_value") then Some (cv_value c)
  else if bool_decide (name ∈ ["_scope_ref"; "scope_ref"]) then Some (cv_scope_ref c)
  else None.

Section Formatting.
Context `{PyObjects} (h : Heap).

Definition get_attribute (v : Value) (name : string) : res Value :=
  match credential_at h v with
  | Some c => if credential_attr c name is Some s then Ok (Prim (PStr s)) else obj_attr h v name
  | None => obj_attr h v name
  end.
Definition text_of (other : res string) (v : Value) : res string :=
  match credential_at h v with Some c => Ok (_redacted c) | None => other end.

(** [_CredentialAwareFormatter]; the state is [credential_reached]. *)
#[local] Instance credential_aware : FormatOps bool Value := {
  text_value s := Prim (PStr s);
  get_attr := get_attribute;
  get_item v key := obj_item h v key;
  to_str v := text_of (obj_str h v) v;
  to_repr v := text_of (obj_repr h v) v;
  to_ascii v := text_of (obj_ascii h v) v;
  format_field v format_spec :=
    match credential_at h v with
    | Some _ => do* modify (fun _ => true) in ret ""
    | None => lift (obj_format h v format_spec)
    end }.

(** [_TEMPLATE_REF_RE.fullmatch] *)
Definition template_ref_char (c : ascii) : bool := is_alpha c || is_digit c || bool_decide (c ∈ ["_"; ":"; "."; "-"]%char).
Definition is_template_ref (s : string) : bool :=
  match s with
  | "" => false
  | String c s => ((97 <=? N_of_ascii c) && (N_of_ascii c <=? 122))%N && str_forall template_ref_char s
  end.
Definition leak_error (template_ref : string) : exn :=
  PromptCredentialLeakError (if is_template_ref template_ref then template_ref
    else "[REDACTED:len=" +:+ pretty (Z.of_nat (String.length template_ref)) +:+ "]").

(** [_CREDENTIAL_MARKER_RE.search] *)
Definition marker_here (s : string) : bool :=
  startswith "<credential:redacted:" s &&
  (let '(scope, rest) := span ident_char (String.substring 21 (String.length s) s) in truthy_str scope && startswith ">" rest).
Fixpoint marker_in (s : string) : bool :=
  marker_here s || match s with "" => false | String _ s => marker_in s end.

(** [RedactedPromptContext.render] *)
Definition render (context : dict string Value) (template template_ref : string) : res string :=
  do? guard (negb (existsb (contains_credential h) (dict_values context))) (leak_error template_ref) in
  match vformat (dict_get context) template false with
  | (Raise e, _) => Raise e
  | (Ok rendered, credential_reached) =>
      do? guard (negb credential_reached) (leak_error template_ref) in
      do? guard (negb (marker_in rendered)) (leak_error template_ref) in
      Ok rendered
  end.
End Formatting.

(** [RedactedPromptContext.__init__] *)
Definition merged_context (context kwargs : dict string Value) : dict string Value := foldl (fun d kv => dict_set d kv.1 kv.2) (foldl (fun d kv => dict_set d kv.1 kv.2) [] context) kwargs.

(** ** The walk finds every credential *)

(** What an object holds: its keys, values, elements or attributes. *)
Definition held (o : Object) (w : Value) : Prop :=
  match o with
  | Credential _ => False
  | Dict items => exists kv, kv ∈ items /\ (w = kv.1 \/ w = kv.2)
  | Sequence items | SetOf items => w ∈ items
  | Instance_ instance_dict slots => (exists attributes, instance_dict = Some attributes /\ w ∈ attributes) \/ w ∈ slots
  end.
Definition step (h : Heap) (v w : Value) : Prop := if v is Obj id then held (deref h id) w else False.
Lemma parts_held o w : w ∈ parts o <-> held o w.
Proof.
  destruct o as [c|items|items|items|[attributes|] slots]; simpl; [by rewrite elem_of_nil| |done|done| |].
  - rewrite list_elem_of_bind. split.
    + intros (kv & Hw & Hin). exists kv. split; [done|]. rewrite !elem_of_cons, elem_of_nil in Hw. tauto.
    + intros (kv & Hin & Hw). exists kv. split; [|done]. rewrite !elem_of_cons. tauto.
  - rewrite elem_of_app. split; [intros [?|?]; [left; eauto|by right]|intros [(a & [= <-] & ?)|?]; auto].
  - split; [by right|intros [(a & [=] & ?)|?]; done].
Qed.
Definition reaches (h : Heap) : Value -> Value -> Prop := rtc (step h).
Definition is_credential (h : Heap) (v : Value) : bool := if credential_at h v is Some _ then true else false.
(** No credential can be reached from [v]. *)
Definition clean (h : Heap) (v : Value) : Prop := forall w, reaches h v w -> is_credential h w = false.

(** A value the walk is done with: no credential, and seen if it is an object. *)
Definition done_with (h : Heap) (seen : gset nat) (v : Value) : Prop :=
  is_credential h v = false /\ match v with Prim _ => True | Obj id => id ∈ seen end.
(** What holds of the objects seen between two states. *)
Definition explored (h : Heap) (seen seen' : gset nat) : Prop :=
  seen ⊆ seen' /\ forall id, id ∈ seen' -> id ∉ seen -> is_credential h (Obj id) = false /\ Forall (done_with h seen') (parts (deref h id)).

Lemma done_with_mono h s s' v : s ⊆ s' -> done_with h s v -> done_with h s' v.
Proof. intros Hs [? Hv]. split; [done|]. destruct v; set_solver. Qed.
Lemma explored_refl h s : explored h s s.
Proof. split; [done|]. by intros id ? ?. Qed.
Lemma explored_trans h s1 s2 s3 : explored h s1 s2 -> explored h s2 s3 -> explored h s1 s3.
Proof.
  intros [H12 He12] [H23 He23]. split; [set_solver|]. intros id H3 H1. destruct (decide (id ∈ s2)) as [H2|H2]; [|by apply He23].
  destruct (He12 id H2 H1) as [Hc Hp]. split; [done|]. eapply Forall_impl; [exact Hp|]. intros v. by apply done_with_mono.
Qed.

Lemma any_of_false {S A} (f : A -> M S bool) (I : S -> S -> Prop) (D : S -> A -> Prop) l : PreOrder I ->
  (forall s s' x, I s s' -> D s x -> D s' x) -> (forall x s s', x ∈ l -> f x s = (Ok false, s') -> I s s' /\ D s' x) ->
  forall s s', any_of f l s = (Ok false, s') -> I s s' /\ Forall (D s') l.
Proof.
  intros HI HD. induction l as [|x l IH]; intros Hf s s' H; simpl in H; [injection H as <-; by split|].
  apply bind_ok in H as ([] & s1 & Hx & H); [done|]. apply Hf in Hx as [Hx Hd]; [|left].
  apply IH in H as [Hl Hds]; [|intros y ? ? ?; apply Hf; by right]. split; [by etrans|]. constructor; [by eapply HD|done].
Qed.

Lemma walk_false h n : forall v s s', _context_contains_credential h n v s = (Ok false, s') -> explored h s s' /\ done_with h s' v.
Proof.
  assert (PreOrder (explored h)) as Hpre by (split; [exact (explored_refl h)|exact (explored_trans h)]).
  induction n as [|n IH]; intros v s s' H; [done|]. simpl in H. destruct v as [p|id].
  - injection H as <-. split; [apply explored_refl|by split].
  - assert (forall o, deref h id = o -> (if o is Credential _ then false else true) = true ->
      (let* seen := gets (fun seen => bool_decide (id ∈ seen)) in
       if seen then ret false else do* modify (fun seen => {[id]} ∪ seen) in any_of (_context_contains_credential h n) (parts o)) s = (Ok false, s') ->
      explored h s s' /\ done_with h s' (Obj id)) as Hobj.
    { clear H. intros o Ho Hk H. assert (is_credential h (Obj id) = false) as Hc by (unfold is_credential; simpl; rewrite Ho; by destruct o).
      apply bind_ok in H as (b & s1 & [= Hb <-] & H). case_bool_decide as Hin; subst b.
      - injection H as <-. split; [apply explored_refl|by split].
      - apply bind_ok in H as (u & s1 & [= _ <-] & H).
        apply (any_of_false _ (explored h) (done_with h)) in H as [He Hd];
          [|done|intros s1 s2 x [Hs _]; by apply done_with_mono|intros x s1 s2 _; by apply IH].
        assert (id ∈ s') by (destruct He as [Hs _]; set_solver). split; [|by split]. split; [destruct He; set_solver|].
        intros id' Hs' Hs. destruct (decide (id' = id)) as [->|Hne]; [by rewrite Ho|]. apply He; set_solver. }
    destruct (deref h id) eqn:Ho; [done|eapply Hobj; eauto..].
Qed.

(** What is explored from nothing is closed. *)
Lemma explored_clean h s v : explored h ∅ s -> done_with h s v -> clean h v.
Proof.
  intros [_ He] Hd w Hr. revert Hd. induction Hr as [v|v v' w Hs _ IH]; intros Hd; [by destruct Hd|]. apply IH.
  destruct v as [p|id]; [done|]. destruct Hd as [_ Hin]. destruct (He id Hin) as [_ Hp]; [set_solver|].
  rewrite Forall_forall in Hp. by apply Hp, parts_held.
Qed.

Lemma contains_false h v : contains_credential h v = false -> clean h v.
Proof.
  unfold contains_credential. destruct (_context_contains_credential h _MAX_CONTEXT_DEPTH v ∅) as [[[]|e] s] eqn:E; try done. intros _.
  apply walk_false in E as [He Hd]. by eapply explored_clean.
Qed.

(** The walk never raises, and it reports a credential that it reaches, or that
    it has gone as deep as it may. *)
Lemma any_of_true {S A} (f : A -> M S bool) l : (forall x s, x ∈ l -> is_ok (f x s).1 = true) -> forall s, is_ok (any_of f l s).1 = true /\
  forall s', any_of f l s = (Ok true, s') -> exists x s1 s2, x ∈ l /\ f x s1 = (Ok true, s2).
Proof.
  induction l as [|x l IH]; intros Hf s; simpl; [by split; [|intros s' H]|]. unfold bind.
  pose proof (Hf x s ltac:(left)) as Hx. destruct (f x s) as [[[]|e] s1] eqn:E; [| |done].
  - split; [done|]. intros _ _. exists x, s, s1. split; [left|done].
  - destruct (IH ltac:(intros y s' Hy; apply Hf; by right) s1) as [Hok Hl]. split; [done|]. intros s' H.
    destruct (Hl s' H) as (y & s2 & s3 & ? & ?). exists y, s2, s3. split; [by right|done].
Qed.

Lemma walk_true h n : forall v s, is_ok (_context_contains_credential h n v s).1 = true /\
  forall s', _context_contains_credential h n v s = (Ok true, s') -> (exists w, reaches h v w /\ is_credential h w = true) \/ exists w, nsteps (step h) n v w.
Proof.
  induction n as [|n IH]; intros v s; simpl; [split; [done|]; intros _ _; right; exists v; constructor|].
  destruct v as [p|id]; [done|].
  assert (forall o, deref h id = o -> (forall s, is_ok (any_of (_context_contains_credential h n) (parts o) s).1 = true /\
      forall s', any_of (_context_contains_credential h n) (parts o) s = (Ok true, s') ->
      (exists w, reaches h (Obj id) w /\ is_credential h w = true) \/ exists w, nsteps (step h) (S n) (Obj id) w)) as Hparts.
  { intros o Ho s1. destruct (any_of_true (_context_contains_credential h n) (parts o) ltac:(intros x s2 _; apply IH) s1) as [Hok Ht]. split; [done|].
    intros s' H. destruct (Ht s' H) as (x & s2 & s3 & Hx & Hf). destruct (IH x s2) as [_ Hi].
    assert (step h (Obj id) x) as Hs by (unfold step; by rewrite Ho, <-parts_held).
    destruct (Hi s3 Hf) as [(w & Hw & Hc)|[w Hw]]; [left|right]; exists w; [split; [by eapply rtc_l|done]|by econstructor]. }
  unfold bind, gets, modify.
  destruct (deref h id) as [c|items|items|items|d slots] eqn:Ho; [|case_bool_decide; [done|exact (Hparts _ eq_refl _)]..].
  split; [done|]. intros _ _. left. exists (Obj id). split; [constructor|]. unfold is_credential. simpl. by rewrite Ho.
Qed.

(** C15: The walk over a prompt's context misses no credential of what it is
    made to look at. When it reports none, no [CredentialValue] can be reached
    from the value through keys, values and elements of dicts, lists, tuples and
    sets and through the instance dicts and own slots of other objects, whatever
    is shared and whatever cycles there are; and when none can be reached that
    way and nothing is nested twelve deep, it reports none. What it does not look
    at, the attributes of an instance of a subclass of a container, slots that a
    base class declares and the elements of other containers, is outside the
    statement, and a credential there is missed
    ([PromptDemo.subclass_attribute_leaks]). *)
Theorem walk_finds_credentials h v :
  (contains_credential h v = false -> clean h v) /\
  (clean h v -> (forall w, ~ nsteps (step h) _MAX_CONTEXT_DEPTH v w) -> contains_credential h v = false).
Proof.
  split; [apply contains_false|]. intros Hc Hd. unfold contains_credential. destruct (walk_true h _MAX_CONTEXT_DEPTH v ∅) as [Hok Ht].
  destruct (_context_contains_credential h _MAX_CONTEXT_DEPTH v ∅) as [[[]|e] s]; [|done..].
  destruct (Ht s eq_refl) as [(w & Hw & Hcr)|[w Hw]]; [by rewrite (Hc w Hw) in Hcr|by destruct (Hd w)].
Qed.

(** ** Secrets do not influence prompts *)

(** Heaps that differ in the secrets of their credentials only. *)
Definition alike (h h' : Heap) : Prop := forall id,
  match deref h id, deref h' id with
  | Credential c, Credential c' => cv_scope_ref c = cv_scope_ref c'
  | o, o' => o = o'
  end.

Lemma alike_parts h h' id : alike h h' -> parts (deref h id) = parts (deref h' id).
Proof. intros Ha. specialize (Ha id). by destruct (deref h id), (deref h' id); simplify_eq. Qed.
Lemma alike_walk h h' n : alike h h' -> forall v s, _context_contains_credential h n v s = _context_contains_credential h' n v s.
Proof.
  intros Ha. induction n as [|n IH]; intros v s; simpl; [done|]. destruct v as [p|id]; [done|].
  assert (forall l s, any_of (_context_contains_credential h n) l s = any_of (_context_contains_credential h' n) l s) as Hany.
  { induction l as [|x l IHl]; intros s1; simpl; [done|]. unfold bind. rewrite IH. destruct (_context_contains_credential h' n x s1) as [[[]|e] s2]; [done|apply IHl|done]. }
  specialize (Ha id). destruct (deref h id), (deref h' id); simplify_eq; try done; unfold bind, gets; case_bool_decide; try done; apply Hany.
Qed.

Lemma alike_contains h h' v : alike h h' -> contains_credential h v = contains_credential h' v.
Proof. intros Ha. unfold contains_credential. rewrite (alike_walk h h' _ Ha). reflexivity. Qed.

(** What is asked of the objects of a context, [h] and [h'] being the same
    objects with other secrets: an object from which the walk reaches no
    credential leads a template to none, and its attributes, items and texts do
    not depend on one. It holds of dicts, lists and objects that keep what they
    have where the walk looks for it, and fails for an object that keeps a
    credential elsewhere, as in [PromptDemo.subclass_attribute_leaks]. *)
Record confined `{PyObjects} (h h' : Heap) : Prop := {
  attr_alike : forall v name, clean h v -> obj_attr h v name = obj_attr h' v name;
  attr_clean : forall v name w, clean h v -> obj_attr h v name = Ok w -> clean h w;
  item_alike : forall v key, clean h v -> obj_item h v key = obj_item h' v key;
  item_clean : forall v key w, clean h v -> obj_item h v key = Ok w -> clean h w;
  str_alike : forall v, clean h v -> obj_str h v = obj_str h' v;
  repr_alike : forall v, clean h v -> obj_repr h v = obj_repr h' v;
  ascii_alike : forall v, clean h v -> obj_ascii h v = obj_ascii h' v;
  format_alike : forall v spec, clean h v -> obj_format h v spec = obj_format h' v spec }.

Section Noninterference.
Context `{HO : PyObjects} (h h' : Heap) (Halike : alike h h') (HC : confined h h').

Lemma clean_at v : clean h v -> credential_at h v = None /\ credential_at h' v = None.
Proof.
  intros Hc. assert (credential_at h v = None) as E by (specialize (Hc v (rtc_refl _ _)); unfold is_credential in Hc; by destruct (credential_at h v)).
  split; [done|]. destruct v as [p|id]; [done|]. simpl in *. specialize (Halike id). destruct (deref h id), (deref h' id); by simplify_eq.
Qed.
Lemma clean_prim p : clean h (Prim p).
Proof. intros w Hr. apply rtc_inv in Hr as [<-|(w' & Hs & _)]; [done|]. by unfold step in Hs. Qed.

(** Equal results, and a value that is clean. *)
Definition agree (r r' : res Value) : Prop := r = r' /\ forall v, r = Ok v -> clean h v.
Lemma agree_text (r r' : res string) : r = r' -> agree (let? s := r in Ok (Prim (PStr s))) (let? s := r' in Ok (Prim (PStr s))).
Proof. intros <-. split; [done|]. intros v Hv. apply rbind_ok in Hv as (s & _ & [= <-]). apply clean_prim. Qed.

#[local] Abbreviation ops := (credential_aware h).
#[local] Abbreviation ops' := (credential_aware h').

Lemma access_agree v a : clean h v -> agree (access (H := ops) v a) (access (H := ops') v a).
Proof.
  intros Hc. destruct (clean_at v Hc) as [E E']. destruct a as [name|i|key]; simpl; unfold get_attribute; rewrite ?E, ?E'.
  - split; [by apply HC|intros w; by apply (attr_clean _ _ HC)].
  - split; [by apply HC|intros w; by apply (item_clean _ _ HC)].
  - split; [by apply HC|intros w; by apply (item_clean _ _ HC)].
Qed.
Lemma follow_agree l : forall v, clean h v -> agree (follow (H := ops) v l) (follow (H := ops') v l).
Proof.
  induction l as [|[a|e] l IH]; intros v Hc; simpl; [split; [done|by intros w [= <-]]| |by split].
  destruct (access_agree v a Hc) as [<- Hw]. destruct (access v a) as [w|e]; simpl; [by apply IH, Hw|by split].
Qed.
Lemma convert_agree v conversion : clean h v -> agree (convert_field (H := ops) v conversion) (convert_field (H := ops') v conversion).
Proof.
  intros Hc. destruct (clean_at v Hc) as [E E']. destruct conversion as [c|]; simpl; [|split; [done|by intros w [= <-]]].
  unfold text_of. rewrite E, E'. destruct (bool_decide _); [by apply agree_text, HC|]. destruct (bool_decide _); [by apply agree_text, HC|].
  destruct (bool_decide _); [by apply agree_text, HC|by split].
Qed.
Lemma get_field_agree kwargs name : (forall k v, kwargs k = Some v -> clean h v) ->
  agree (get_field (H := ops) kwargs name) (get_field (H := ops') kwargs name).
Proof.
  intros Hk. unfold get_field. destruct (field_name_split name) as [first rest]. destruct (ssize_index first) as [i|e]; simpl; [|by split].
  destruct (_ || _); [by split|]. destruct (kwargs first) as [v|] eqn:E; [|by split]. by apply follow_agree, (Hk _ _ E).
Qed.

Lemma concat_chunks_ext {S} (f f' : Chunk -> M S string) l : (forall c s, f c s = f' c s) -> forall s, concat_chunks f l s = concat_chunks f' l s.
Proof.
  intros Hf. induction l as [|[c|e] l IH]; intros s; simpl; [done| |done]. unfold bind, lift. rewrite Hf.
  destruct (f' c s) as [[text|e] s']; [|done]. by rewrite IH.
Qed.
Lemma vformat_agree kwargs n : (forall k v, kwargs k = Some v -> clean h v) ->
  forall template flag, _vformat (H := ops) kwargs n template flag = _vformat (H := ops') kwargs n template flag.
Proof.
  intros Hk. induction n as [|n IH]; intros template flag; [done|]. cbn [_vformat]. apply concat_chunks_ext. intros [literal [field|]] s; [|done].
  unfold bind, lift. destruct (get_field_agree kwargs (fd_name field) Hk) as [<- Hv]. destruct (get_field kwargs (fd_name field)) as [v|e]; [|done].
  destruct (convert_agree v (fd_conversion field) (Hv v eq_refl)) as [<- Hw]. destruct (convert_field v (fd_conversion field)) as [w|e]; [|done].
  rewrite IH. destruct (_vformat _ _ _ _) as [[spec|e] s']; [|done]. specialize (Hw w eq_refl). destruct (clean_at w Hw) as [E E'].
  cbn [format_field credential_aware]. rewrite E, E'. unfold lift. by rewrite (format_alike h h' HC w spec Hw).
Qed.

Lemma render_alike context template template_ref : render h context template template_ref = render h' context template template_ref.
Proof.
  unfold render. assert (existsb (contains_credential h) (dict_values context) = existsb (contains_credential h') (dict_values context)) as <-.
  { induction (dict_values context) as [|v l IH]; cbn [existsb]; [reflexivity|]. rewrite IH, (alike_contains h h' v Halike). reflexivity. }
  destruct (existsb (contains_credential h) (dict_values context)) eqn:E; cbn [negb guard rbind]; [reflexivity|].
  unfold vformat. rewrite vformat_agree; [reflexivity|].
  intros k v Hv. apply contains_false. apply not_true_iff_false. intros Hc. apply not_true_iff_false in E. apply E, existsb_exists.
  exists v. split; [|done]. apply dict_get_Some_in in Hv. apply list_elem_of_In, list_elem_of_fmap. by exists (k, v).
Qed.
End Noninterference.

(** ** A concrete language

    Objects whose attributes cannot be read, sequences that can be indexed, and
    texts that show the primitives. *)
Module PromptDemo.
Definition shown (v : Value) : res string :=
  match v with
  | Prim (PStr s) | Prim (PFloat s) | Prim (POther s) => Ok s
  | Prim (PInt n) => Ok (pretty n)
  | Prim (PBool b) => Ok (if b then "True" else "False")
  | Prim PNone => Ok "None"
  | Obj _ => Ok "<object>"
  end.
Definition item (h : Heap) (v : Value) (key : Z + string) : res Value :=
  match v, key with
  | Obj id, inl i => if deref h id is Sequence items then (if items !! Z.to_nat i is Some w then Ok w else Raise IndexError) else Raise (TypeError "not subscriptable")
  | _, _ => Raise (TypeError "not subscriptable")
  end.
#[global] Instance language : PyObjects := {
  obj_attr _ _ _ := Raise (ForeignError "AttributeError"); obj_item := item; obj_str _ := shown; obj_repr _ := shown; obj_ascii _ := shown;
  obj_format _ v spec := if truthy_str spec then Raise (ValueError "Invalid format specifier") else shown v }.
Lemma language_confined h h' : alike h h' -> confined h h'.
Proof.
  intros Ha. split; try done; simpl.
  - intros v key Hc. unfold item. destruct v as [p|id], key as [i|key]; try done. pose proof (Hc _ (rtc_refl _ _)) as Hn. specialize (Ha id).
    unfold is_credential in Hn. simpl in Hn. destruct (deref h id), (deref h' id); by simplify_eq.
  - intros v key w Hc H. destruct v as [p|id], key as [i|key]; try done. simpl in H. destruct (deref h id) as [| |items| |] eqn:Ho; try done.
    destruct (items !! Z.to_nat i) as [x|] eqn:Hx; [injection H as <-|done]. intros u Hu. apply Hc. eapply rtc_l; [|exact Hu].
    unfold step. rewrite Ho. by apply list_elem_of_lookup_2 in Hx.
Qed.

Definition token : CredentialValue := {| cv_value := "hunter2"; cv_scope_ref := "SHOP" |}.
Definition number (n : Z) : Value := Prim (PInt n).
(** A list that contains itself, under a dict; a dict with a credential three
    objects down. *)
Definition heap : Heap := {[ 0 := Sequence [Obj 0; number 7]; 1 := Dict [(Prim (PStr "k"), Obj 0)];
  2 := Dict [(Prim (PStr "k"), Obj 3)]; 3 := Instance_ (Some [Obj 1]) [Obj 4]; 4 := Credential token ]}%nat.

Example walk_of_cycles : contains_credential heap (Obj 1) = false /\ contains_credential heap (Obj 2) = true.
Proof. vm_compute. by split. Qed.
Example rendered : render heap [("a", Obj 0)] "{{a}} is {a[1]} of {a[0][0]}" "t" = Ok "{a} is 7 of <object>".
Proof. vm_compute. reflexivity. Qed.
Example refused : render heap [("a", Obj 2)] "nothing" "t/1" = Raise (PromptCredentialLeakError "[REDACTED:len=3]").
Proof. vm_compute. reflexivity. Qed.

(** A language in which object 5, a dict of a subclass of [dict], has an
    attribute that the walk does not go to, as have a [deque] and an object
    whose slots are declared by a base class. A template reads the secret out of
    it, and none of the three defenses notices. *)
Definition with_subclass : PyObjects := {|
  obj_attr h v name := if decide (v = Obj 5 /\ name = "cred") then Ok (Obj 4) else Raise (ForeignError "AttributeError");
  obj_item := item; obj_str _ := shown; obj_repr _ := shown; obj_ascii _ := shown; obj_format _ v _ := shown v |}.
Example subclass_attribute_leaks : contains_credential heap (Obj 5) = false /\
  render (H := with_subclass) (<[5%nat := Dict []]> heap) [("d", Obj 5)] "{d.cred._value}" "t" = Ok "hunter2".
Proof. vm_compute. by split. Qed.
End PromptDemo.

Lemma walk_finds_credentials_witness : contains_credential PromptDemo.heap (Obj 1) = false /\ clean PromptDemo.heap (Obj 1).
Proof. split; [vm_compute; reflexivity|]. apply (proj1 (walk_finds_credentials PromptDemo.heap (Obj 1))). vm_compute. reflexivity. Defined.
