(* ===== verification/PromptRegistry.v ===== *)
(** * The prompt registry

    [adapters/prompt_registry/json_prompt_registry.py] with the template contract
    ([contracts/prompt_registry.py]) and the errors of
    [ports/prompt_registry.py]: templates are loaded from files, checked, cached
    and rendered through [PromptRedaction.render]. The file system and the import
    of modules are ports on a world of any type, [json.loads] is a parameter; the
    cache is the first component of the state, and the lock around its update
    makes that update one step. Theorems: what [resolve] returns agrees with its
    reference and its body and does not change any more, and a rendered prompt
    has no credential in it. *)
From Stdlib Require Import Ascii.
From S2P Require Import Prelude PyDict PyStr PyList UrlLib HarRedaction Vault PyFormat PromptRedaction.
Local Open Scope Z_scope.

(** ** The contract of a template *)

Record PromptTemplate := {
  pt_ref : string;
  pt_role : string;
  pt_name : string;
  pt_version : string;
  pt_template : string;
  pt_variables : list string;
  pt_output_schema_class : option string }.

Definition name_char (c : ascii) : bool := is_alpha c || is_digit c || bool_decide (c ∈ ["_"; "-"]%char).
Definition word_char (c : ascii) : bool := is_alpha c || is_digit c || bool_decide (c = "_"%char).
(** [fullmatch] of [_NAME_PART_RE], [_VERSION_RE], [_IDENTIFIER_RE],
    [_PROMPT_TEMPLATE_REF_RE] and [_OUTPUT_CLASS_RE]. *)
Definition is_name_part (s : string) : bool := truthy_str s && str_forall name_char s.
Definition is_version (s : string) : bool := match s with String "v" s => isdigit s | _ => false end.
Definition is_identifier (s : string) : bool :=
  match s with "" => false | String c s => (is_alpha c || bool_decide (c = "_"%char)) && str_forall word_char s end.
Definition is_prompt_ref (s : string) : bool :=
  let '(role, slash, rest) := partition "/" s in
  let '(name, dot, version) := partition "." rest in
  slash && dot && is_name_part role && is_name_part name && is_version version.
Definition is_output_class (s : string) : bool :=
  let parts := split_on "." s in (2 <=? length parts)%nat && forallb is_identifier parts.

Fixpoint validate_variables (seen : list string) (variables : list string) : res unit :=
  match variables with
  | [] => Ok tt
  | variable :: variables =>
      do? guard (is_name_part variable) (ValidationError "prompt template variable names must match ^[A-Za-z0-9_-]+$") in
      do? guard (negb (bool_decide (variable ∈ seen))) (ValidationError "prompt template variables must be unique") in
      validate_variables (variable :: seen) variables
  end.

Definition validate_template (t : PromptTemplate) : res PromptTemplate :=
  do? guard (is_prompt_ref (pt_ref t)) (ValidationError "prompt template ref must match <role>/<name>.<vN>") in
  do? guard (is_name_part (pt_role t)) (ValidationError "prompt template role must match ^[A-Za-z0-9_-]+$") in
  do? guard (is_name_part (pt_name t)) (ValidationError "prompt template name must match ^[A-Za-z0-9_-]+$") in
  do? guard (is_version (pt_version t)) (ValidationError "prompt template version must match ^v\d+$") in
  do? guard (bool_decide (pt_ref t = pt_role t +:+ "/" +:+ pt_name t +:+ "." +:+ pt_version t))
        (ValidationError "prompt template ref must equal '<role>/<name>.<version>'") in
  do? guard (non_blank (pt_template t)) (ValidationError "prompt template body must be non-blank") in
  do? validate_variables [] (pt_variables t) in
  do? (match pt_output_schema_class t with
       | None => Ok tt
       | Some path => guard (is_output_class path) (ValidationError "prompt template output_schema_class must be a dotted Python path")
       end) in
  Ok t.

(** ** Reading a template: [PromptTemplate] of the fields of a JSON object *)

Definition json_str (fields : dict string Json) (key : string) : res string :=
  match dict_get fields key with Some (JString s) => Ok s | _ => Raise (ValidationError "a string is required") end.
Fixpoint json_strs (l : list Json) : res (list string) :=
  match l with
  | [] => Ok []
  | JString s :: l => let? rest := json_strs l in Ok (s :: rest)
  | _ :: _ => Raise (ValidationError "a string is required")
  end.
Definition parse_template (fields : dict string Json) : res PromptTemplate :=
  do? guard (forallb (fun key => bool_decide (key ∈ ["ref"; "role"; "name"; "version"; "template"; "variables"; "output_schema_class"])) (dict_keys fields))
        (ValidationError "extra fields are forbidden") in
  let? ref := json_str fields "ref" in
  let? role := json_str fields "role" in
  let? name := json_str fields "name" in
  let? version := json_str fields "version" in
  let? template := json_str fields "template" in
  let? variables := (match dict_get fields "variables" with
    | None => Ok [] | Some (JArray l) => json_strs l | Some _ => Raise (ValidationError "a list is required") end) in
  let? output_schema_class := (match dict_get fields "output_schema_class" with
    | None | Some JNull => Ok None | Some (JString s) => Ok (Some s) | Some _ => Raise (ValidationError "a string is required") end) in
  validate_template {| pt_ref := ref; pt_role := role; pt_name := name; pt_version := version; pt_template := template;
    pt_variables := variables; pt_output_schema_class := output_schema_class |}.

(** ** The body of a template and the values of a context *)

(** [_extract_template_variables]: the names of the fields, in order. *)
Fixpoint field_names (l : list (res Chunk)) : res (list string) :=
  match l with
  | [] => Ok []
  | Raise e :: _ => Raise e
  | Ok (_, None) :: l => field_names l
  | Ok (_, Some field) :: l =>
      do? guard (truthy_str (fd_name field)) (MalformedTemplateField "empty replacement field {} not allowed") in
      do? guard (is_identifier (fd_name field))
            (MalformedTemplateField "template fields must be plain identifiers (no dots, no subscripts, no positional indexes)") in
      let? rest := field_names l in
      Ok (fd_name field :: rest)
  end.
Definition _extract_template_variables (template : string) : res (list string) := field_names (parse template).

(** [all(f(x) for x in l)] *)
Fixpoint every_of {A} (f : A -> res bool) (l : list A) : res bool :=
  match l with
  | [] => Ok true
  | x :: l => let? holds := f x in if holds then every_of f l else Ok false
  end.

(** [_is_primitive_context_value], [limit] calls deep at most. *)
Fixpoint _is_primitive_context_value (limit : nat) (h : Heap) (value : Value) : res bool :=
  match limit with
  | O => Raise (RuntimeError "maximum recursion depth exceeded")
  | S limit =>
      match value with
      | Prim (POther _) => Ok false
      | Prim _ => Ok true
      | Obj id =>
          match deref h id with
          | Dict items =>
              every_of (fun kv => if kv.1 is Prim (PStr _) then _is_primitive_context_value limit h kv.2 else Ok false) items
          | Sequence items => every_of (_is_primitive_context_value limit h) items
          | _ => Ok false
          end
      end
  end.

(** [sorted(xs - ys)] for sets given as lists. *)
Definition set_difference (xs ys : list string) : list string := py_sorted String.leb (remove_dups (filter (fun x => x ∉ ys) xs)).

(** ** The registry *)

(** The path of a reference, resolved; whether a path is under the root; whether
    it exists; the text of a file; the import of a module, and whether it has an
    attribute. *)
Class RegistryPorts (E Path Module_ : Type) := {
  resolve_path : string -> string -> M E Path;
  under_root : Path -> bool;
  path_exists : Path -> M E bool;
  read_text : Path -> M E string;
  import_module : string -> M E Module_;
  has_attr : Module_ -> string -> M E bool }.

Section Registry.
Context {E Path Module_ : Type} `{RegistryPorts E Path Module_} (json_loads : string -> res Json).
Abbreviation State := (dict string PromptTemplate * E)%type.

Definition _import_pydantic_class (dotted_path : string) : M E unit :=
  let '(module_path, _, class_name) := rpartition "." dotted_path in
  do* lift (guard (truthy_str module_path) (PromptTemplateLoadError dotted_path "output_schema_class is not a dotted path")) in
  let* imported := attempt (import_module module_path) in
  match imported with
  | Raise ImportError => raise (PromptTemplateLoadError dotted_path ("output_schema_class module not importable: " +:+ module_path))
  | Raise e => raise e
  | Ok module =>
      let* has := has_attr module class_name in
      lift (guard has (PromptTemplateLoadError dotted_path ("output_schema_class not found in " +:+ module_path)))
  end.

(** What [resolve] reads from the disk: the file of a reference, checked. *)
Definition load_template (ref : string) : M E PromptTemplate :=
  let '(role, slash, rest) := partition "/" ref in
  do* lift (guard slash (PromptTemplateNotFoundError ref)) in
  let '(name_part, _, version) := rpartition "." rest in
  do* lift (guard (truthy_str role && truthy_str name_part && truthy_str version) (PromptTemplateNotFoundError ref)) in
  let* candidate := resolve_path role (name_part +:+ "." +:+ version +:+ ".json") in
  do* lift (guard (under_root candidate) (PromptTemplateLoadError ref "resolved path escapes registry root")) in
  let* found := path_exists candidate in
  do* lift (guard found (PromptTemplateNotFoundError ref)) in
  let* text := read_text candidate in
  let* payload := lift (match json_loads text with
    | Raise JSONDecodeError => Raise (PromptTemplateLoadError ref "invalid JSON")
    | r => r
    end) in
  let* fields := lift (if payload is JObject fields then Ok fields else Raise (PromptTemplateLoadError ref "top-level JSON must be an object")) in
  let* template := lift (match parse_template fields with
    | Raise e => Raise (if subclass_value_error e then PromptTemplateLoadError ref "malformed PromptTemplate shape" else e)
    | r => r
    end) in
  do* lift (guard (bool_decide (pt_ref template = ref)) (PromptTemplateLoadError ref "file ref does not match resolution ref")) in
  do* (if pt_output_schema_class template is Some path then _import_pydantic_class path else ret tt) in
  let* body_variables := lift (match _extract_template_variables (pt_template template) with
    | Raise (MalformedTemplateField msg) => Raise (PromptTemplateLoadError ref msg)
    | Raise e => Raise (if subclass_value_error e then PromptTemplateLoadError ref "template body has malformed format syntax" else e)
    | r => r
    end) in
  let missing := set_difference body_variables (pt_variables template) in
  let extra := set_difference (pt_variables template) body_variables in
  do* lift (guard (negb (truthy_list (missing ++ extra)))
        (PromptTemplateLoadError ref ("declared variables disagree with template body: body-only=" +:+ join "," missing +:+ " declared-only=" +:+ join "," extra))) in
  ret template.

Definition resolve (ref : string) : M State PromptTemplate :=
  let* cached := gets (fun s => dict_get s.1 ref) in
  match cached with
  | Some template => ret template
  | None =>
      let* template := on_world (load_template ref) in
      let* cached := gets (fun s => dict_get s.1 ref) in
      match cached with
      | Some cached => ret cached
      | None => do* on_object (fun cache => dict_set cache ref template) in ret template
      end
  end.

(** [for key, value in context.items(): ...] *)
Fixpoint check_values (limit : nat) (h : Heap) (ref : string) (items : list (string * Value)) : res unit :=
  match items with
  | [] => Ok tt
  | (key, value) :: items =>
      let? primitive := _is_primitive_context_value limit h value in
      do? guard primitive (PromptTemplateVariableError ref [] ["non-primitive:" +:+ key]) in
      check_values limit h ref items
  end.

(** [JsonPromptRegistry.render] *)
Definition render_prompt `{PyObjects} (limit : nat) (h : Heap) (ref : string) (context : dict string Value) : M State string :=
  let* template := resolve ref in
  let missing := set_difference (pt_variables template) (dict_keys context) in
  let extra := set_difference (dict_keys context) (pt_variables template) in
  do* lift (guard (negb (truthy_list missing || truthy_list extra)) (PromptTemplateVariableError ref missing extra)) in
  do* lift (check_values limit h ref context) in
  lift (match render h context (pt_template template) ref with
        | Raise (KeyError key) => Raise (PromptTemplateVariableError ref [key] [])
        | r => r
        end).
End Registry.

(** ** What the registry returns *)

Lemma set_difference_nil xs ys : set_difference xs ys = [] <-> forall x, x ∈ xs -> x ∈ ys.
Proof.
  unfold set_difference. split.
  - intros E x Hx. destruct (decide (x ∈ ys)) as [Hy|Hy]; [done|]. assert (x ∈ py_sorted String.leb (remove_dups (filter (fun x => x ∉ ys) xs))) as Hin.
    { rewrite py_sorted_perm, elem_of_remove_dups, list_elem_of_filter. by split. }
    rewrite E in Hin. by apply elem_of_nil in Hin.
  - intros Hsub. replace (filter (fun x => x ∉ ys) xs) with ([] : list string); [done|]. symmetry. apply elem_of_nil_inv.
    intros x [Hn Hx]%list_elem_of_filter. by apply Hn, Hsub.
Qed.

(** A template that agrees with its reference and its body. *)
Definition agrees (ref : string) (t : PromptTemplate) : Prop :=
  pt_ref t = ref /\ validate_template t = Ok t /\
  exists names, _extract_template_variables (pt_template t) = Ok names /\ forall x, x ∈ names <-> x ∈ pt_variables t.
Definition cache_ok (cache : dict string PromptTemplate) : Prop := forall ref t, dict_get cache ref = Some t -> agrees ref t.

Lemma validate_template_id t t' : validate_template t = Ok t' -> t' = t.
Proof. unfold validate_template. intros H. run_m H. done. Qed.

Section Promises.
Context {E Path Module_ : Type} `{HP : RegistryPorts E Path Module_} (json_loads : string -> res Json).
Implicit Types s : dict string PromptTemplate * E.

Lemma load_agrees ref e t e' : load_template json_loads ref e = (Ok t, e') -> agrees ref t.
Proof.
  unfold load_template. destruct (partition "/" ref) as [[role slash] rest]. intros H. apply bind_ok in H as (u & e0 & _ & H).
  destruct (rpartition "." rest) as [[name_part dot] version].
  apply bind_ok in H as (u1 & e1 & _ & H). apply bind_ok in H as (candidate & e2 & _ & H). apply bind_ok in H as (u2 & e3 & _ & H).
  apply bind_ok in H as (found & e4 & _ & H). apply bind_ok in H as (u3 & e5 & _ & H). apply bind_ok in H as (text & e6 & _ & H).
  apply bind_ok in H as (payload & e7 & _ & H). apply bind_ok in H as (fields & e8 & _ & H). apply bind_ok in H as (template & e9 & Ht & H).
  apply bind_ok in H as (u4 & e10 & Href & H). apply bind_ok in H as (u5 & e11 & _ & H). apply bind_ok in H as (names & e12 & Hn & H).
  apply bind_ok in H as (u6 & e13 & Hset & H). injection H as <- _.
  apply lift_ok in Ht as [Ht _]. apply lift_ok in Href as [Href _]. apply lift_ok in Hn as [Hn _]. apply lift_ok in Hset as [Hset _].
  apply guard_ok, bool_decide_eq_true in Href. destruct (parse_template fields) as [t'|x] eqn:Ep; [injection Ht as ->|done]. split; [done|]. split.
  - unfold parse_template in Ep. run_m Ep. match goal with Hv : validate_template _ = Ok _ |- _ => pose proof (validate_template_id _ _ Hv) as -> end. done.
  - destruct (_extract_template_variables (pt_template template)) as [names'|x]; [injection Hn as ->|by destruct x]. exists names. split; [done|].
    apply guard_ok in Hset. rewrite truthy_list_spec, negb_true_iff, bool_decide_eq_false in Hset. apply dec_stable, app_nil in Hset as [H1 H2].
    rewrite set_difference_nil in H1, H2. intros x. split; auto.
Qed.

(** A resolved template is sound and final. From a cache of sound templates,
    what [resolve] returns has the reference asked for, passes its contract and
    declares exactly the fields of its body; the cache stays sound and keeps
    what it has; and from then on the reference resolves to the same template,
    whatever becomes of the files. *)
Theorem resolved_template_final ref s t s' : cache_ok s.1 -> resolve json_loads ref s = (Ok t, s') ->
  agrees ref t /\ cache_ok s'.1 /\ (forall r x, dict_get s.1 r = Some x -> dict_get s'.1 r = Some x) /\
  forall e, resolve json_loads ref (s'.1, e) = (Ok t, (s'.1, e)).
Proof.
  intros Hok H. unfold resolve in H. apply bind_ok in H as (cached & s1 & [= <- <-] & H). destruct (dict_get s.1 ref) as [x|] eqn:Ec.
  - injection H as <- <-. split; [by apply Hok|]. split; [done|]. split; [done|]. intros e. unfold resolve, bind, gets. simpl. by rewrite Ec.
  - apply bind_ok in H as (template & s1 & Hl & H). apply on_world_ok in Hl as [Hl Hs]. apply load_agrees in Hl.
    apply bind_ok in H as (cached & s2 & [= <- <-] & H). rewrite Hs, Ec in H. apply bind_ok in H as (u & s2 & [= _ <-] & [= <- <-]). simpl.
    rewrite Hs. split; [done|]. split; [|split].
    + intros r x. rewrite dict_get_set. case_decide as Hr; [intros [= <-]; by subst r|apply Hok].
    + intros r x Hx. rewrite dict_get_set. case_decide as Hr; [congruence|done].
    + intros e. unfold resolve, bind, gets. simpl. rewrite dict_get_set, decide_True by done. done.
Qed.

Lemma alike_primitive limit h h' : alike h h' -> forall v, _is_primitive_context_value limit h v = _is_primitive_context_value limit h' v.
Proof.
  intros Ha. induction limit as [|limit IH]; intros v; [done|]. simpl. destruct v as [p|id]; [done|]. specialize (Ha id).
  assert (forall A (f f' : A -> res bool) l, (forall x, f x = f' x) -> every_of f l = every_of f' l) as Hall.
  { intros A f f' l Hf. induction l as [|x l IHl]; [done|]. simpl. by rewrite Hf, IHl. }
  destruct (deref h id), (deref h' id); simplify_eq; try done; apply Hall; [|done]. intros [[[]|] w]; simpl; done.
Qed.
Lemma alike_check limit h h' ref items : alike h h' -> check_values limit h ref items = check_values limit h' ref items.
Proof. intros Ha. induction items as [|[key v] items IH]; [done|]. cbn [check_values]. by rewrite (alike_primitive limit h h' Ha), IH. Qed.

Lemma render_clean `{PyObjects} h context template ref text : render h context template ref = Ok text ->
  forall v, v ∈ dict_values context -> clean h v.
Proof.
  unfold render. intros Hr v Hv. apply rbind_ok in Hr as (u & Hg & _). apply guard_ok, negb_true_iff in Hg. apply contains_false.
  apply not_true_iff_false. intros Hc. apply not_true_iff_false in Hg. apply Hg, existsb_exists. exists v. split; [by apply list_elem_of_In|done].
Qed.

(** C14: No prompt depends on a secret, if the objects of its context are
    [confined]: an object from which the walk reaches no credential leads to none
    through the attributes and items a template may ask for, and shows none in
    its texts. Then rendering a prompt of the registry gives the same text or
    error, and leaves the same cache, over any two heaps that differ in the
    secrets of credentials only. Whatever the objects do, a text is only rendered
    from a context that has exactly the variables of the template and from which
    the walk reaches no credential. An object that keeps a credential where the
    walk does not look is not confined, and leaks it
    ([PromptDemo.subclass_attribute_leaks]). *)
Theorem prompts_hold_no_secret `{HO : PyObjects} limit h h' ref context s : alike h h' ->
  (confined h h' -> render_prompt json_loads limit h ref context s = render_prompt json_loads limit h' ref context s) /\
  forall text s', render_prompt json_loads limit h ref context s = (Ok text, s') ->
    (forall v, v ∈ dict_values context -> clean h v) /\
    exists t s1, resolve json_loads ref s = (Ok t, s1) /\ forall x, x ∈ dict_keys context <-> x ∈ pt_variables t.
Proof.
  intros Ha. split.
  - intros HC. unfold render_prompt. unfold bind. destruct (resolve json_loads ref s) as [[t|e] s1]; [|done]. unfold lift. destruct (guard _ _) as [u|e]; [|done].
    rewrite (alike_check limit h h' ref context Ha). destruct (check_values limit h' ref context) as [u1|e]; [|done].
    by rewrite (render_alike h h' Ha HC).
  - intros text s' H. unfold render_prompt in H. apply bind_ok in H as (t & s1 & Hres & H). apply bind_ok in H as (u & s2 & Hg & H).
    apply bind_ok in H as (u1 & s3 & _ & H). apply lift_ok in H as [H _]. split.
    + destruct (render h context (pt_template t) ref) as [text'|e] eqn:Er; [|by destruct e]. by apply (render_clean _ _ _ _ _ Er).
    + exists t, s1. split; [done|]. apply lift_ok in Hg as [Hg _]. apply guard_ok, negb_true_iff, orb_false_iff in Hg as [H1 H2].
      rewrite truthy_list_spec, bool_decide_eq_false in H1, H2. apply dec_stable in H1. apply dec_stable in H2.
      pose proof (proj1 (set_difference_nil _ _) H1). pose proof (proj1 (set_difference_nil _ _) H2). intros x. split; auto.
Qed.
End Promises.

(** A reference that the contract accepts is none that the leak error shows. *)
Lemma no_slash_in_template_ref s : is_template_ref s = true -> str_in_char "/" s = false.
Proof.
  destruct s as [|c s]; [done|]. unfold is_template_ref. intros [Hc Hs]%andb_true_iff.
  assert (str_forall template_ref_char (String c s) = true) as Hall.
  { simpl. rewrite Hs, andb_true_r. unfold template_ref_char, is_alpha. rewrite Hc. by rewrite orb_true_r. }
  by apply (str_forall_not_in _ "/"%char) in Hall.
Qed.
Lemma prompt_refs_are_hidden s : is_prompt_ref s = true -> is_template_ref s = false.
Proof.
  intros Hp. apply not_true_iff_false. intros Ht%no_slash_in_template_ref. unfold is_prompt_ref in Hp.
  destruct (partition "/" s) as [[role slash] rest] eqn:E. destruct (partition "." rest) as [[name dot] version].
  destruct slash; [|done]. apply partition_spec in E as [-> _]. rewrite str_in_char_app in Ht. simpl in Ht. by rewrite orb_true_r in Ht.
Qed.

(** ** A concrete registry

    Files by path, whose text is the body of a template with one variable. *)
Module RegistryDemo.
Import PromptDemo.
Definition Disk : Type := dict string string.
Definition loads (output : Json) (text : string) : res Json :=
  Ok (JObject [("ref", JString "extractor/title.v1"); ("role", JString "extractor"); ("name", JString "title"); ("version", JString "v1");
    ("template", JString text); ("variables", JArray [JString "page"]); ("output_schema_class", output)]).
#[global] Instance disk : RegistryPorts Disk string unit := {
  resolve_path role file := ret (role +:+ "/" +:+ file); under_root _ := true; path_exists path := gets (fun d => dict_mem d path);
  read_text path := gets (fun d => default "" (dict_get d path)); import_module _ := raise ImportError; has_attr _ _ := ret false }.
Definition files : Disk := [("extractor/title.v1.json", "The title of {page}:")].
Definition title : PromptTemplate := {| pt_ref := "extractor/title.v1"; pt_role := "extractor"; pt_name := "title"; pt_version := "v1";
  pt_template := "The title of {page}:"; pt_variables := ["page"]; pt_output_schema_class := None |}.
Definition page : dict string Value := [("page", Prim (PStr "example"))].
Definition other : Heap := <[4%nat := Credential {| cv_value := "another"; cv_scope_ref := "SHOP" |}]> heap.

Example rendered_prompt : render_prompt (loads JNull) 100 heap "extractor/title.v1" page ([], files) =
  (Ok "The title of example:", ([("extractor/title.v1", title)], files)).
Proof. vm_compute. reflexivity. Qed.

Lemma other_alike : alike heap other.
Proof.
  intros id. unfold alike, deref, other. destruct (decide (id = 4%nat)) as [->|Hne]; [by rewrite lookup_insert_eq|].
  rewrite lookup_insert_ne by done. by destruct (heap !! id) as [[]|].
Qed.

(** A nested field is not checked: it may traverse attributes, and it is not
    among the variables. *)
Example nested_field_unchecked : _extract_template_variables "{page:{page.secret}}" = Ok ["page"].
Proof. vm_compute. reflexivity. Qed.
(** A variable need not be an identifier for the contract. *)
Example variable_no_identifier : validate_variables [] ["1-a"] = Ok tt.
Proof. vm_compute. reflexivity. Qed.
(** The error of a class that cannot be imported names what the file says, not
    the reference. *)
Example load_error_shows_file : (resolve (loads (JString "secret.module.Class")) "extractor/title.v1" ([], files)).1 =
  Raise (PromptTemplateLoadError "secret.module.Class" "output_schema_class module not importable: secret.module").
Proof. vm_compute. reflexivity. Qed.
(** A file that is no UTF-8 raises an error that is no load error. *)
Definition broken_disk : RegistryPorts Disk string unit := {|
  resolve_path role file := ret file; under_root _ := true; path_exists _ := ret true; read_text _ := raise UnicodeDecodeError;
  import_module _ := raise ImportError; has_attr _ _ := ret false |}.
Example unreadable_file_escapes : (resolve (H := broken_disk) (loads JNull) "extractor/title.v1" ([], files)).1 = Raise UnicodeDecodeError.
Proof. vm_compute. reflexivity. Qed.
End RegistryDemo.

Lemma resolved_template_final_witness : exists s', resolve (RegistryDemo.loads JNull) "extractor/title.v1" ([], RegistryDemo.files) = (Ok RegistryDemo.title, s') /\
  forall e : RegistryDemo.Disk, resolve (RegistryDemo.loads JNull) "extractor/title.v1" (s'.1, e) = (Ok RegistryDemo.title, (s'.1, e)).
Proof.
  eexists. split; [vm_compute; reflexivity|].
  apply (resolved_template_final (RegistryDemo.loads JNull) "extractor/title.v1" ([], RegistryDemo.files)); [|vm_compute; reflexivity].
  intros r x Hx. discriminate Hx.
Defined.

Lemma prompts_hold_no_secret_witness : let prompt h := render_prompt (RegistryDemo.loads JNull) 100 h "extractor/title.v1" RegistryDemo.page ([], RegistryDemo.files) in
  (prompt PromptDemo.heap).1 = Ok "The title of example:" /\ prompt PromptDemo.heap = prompt RegistryDemo.other.
Proof.
  intros prompt. split; [vm_compute; reflexivity|].
  apply (prompts_hold_no_secret (RegistryDemo.loads JNull) 100 PromptDemo.heap RegistryDemo.other);
    [|apply PromptDemo.language_confined]; apply RegistryDemo.other_alike.
Defined.
