(* ===== verification/Planners.v ===== *)
(** * The planners of a crawl

    [adapters/planning/]: the deterministic planner, the one that reads the
    feedback of a run, and the one that asks a model, with the proposal contract
    ([contracts/llm_crawl_planner.py]); and the observer whose snapshots the
    feedback is derived from ([adapters/graph/in_memory_graph_observer.py]). The
    prompt registry, the budget and the model provider are ports that record
    their calls. Theorems: without feedback the two deterministic planners
    decide the same; what a run observed steers the frontier; a call of the
    model is charged before anything is made of its answer. *)
From Stdlib Require Import Floats Ascii.
From S2P Require Import Prelude PyDict PyStr PyList PyTime PyFloat Contracts UrlLib UrlJoin Url RateLimiter PriorityFrontier CredScope HttpAdapter CrawlContracts Budget Trace.
Local Open Scope Z_scope.

(** A list comprehension whose body may raise. *)
Fixpoint map_each {A B} (f : A -> res B) (l : list A) : res (list B) :=
  match l with
  | [] => Ok []
  | x :: l => let? y := f x in let? ys := map_each f l in Ok (y :: ys)
  end.
(** [enumerate(l)] *)
Definition enumerate {A} (l : list A) : list (Z * A) := imap (fun i x => (Z.of_nat i, x)) l.

(** [1.0 / (1 + index)] *)
Definition seed_priority (index : Z) : res float := let? n := float_of_int (1 + index) in float_div 1%float n.

(** ** DeterministicCrawlPlanner *)

Module V1.
Definition ADAPTER_REF : Ref := "adapter:deterministic-crawl-planner:v1".
Definition HTTP_PRIOR_RATIONALE_REF : Ref := "rationale:deterministic-crawl-planner:http-only".

Definition planned_seed (env : NetEnv) (seed : Z * string) : res PlannedSeed :=
  let? priority := seed_priority seed.1 in
  validate_planned_seed env {| ps_canonical_url := seed.2; ps_priority_score := priority; ps_adapter_hint := HTTP;
    ps_rationale_ref := "rationale:" +:+ ADAPTER_REF +:+ ":seed-" +:+ pretty seed.1 |}.

Definition plan (env : NetEnv) (request : PlanRequest) : res PlanDecision :=
  let? planned_seeds := map_each (planned_seed env) (enumerate (pq_seed_urls request)) in
  let? prior := validate_adapter_prior {| ap_adapter_type := HTTP; ap_weight := 1; ap_rationale_ref := HTTP_PRIOR_RATIONALE_REF |} in
  validate_plan_decision
    {| pd_id := "plan-decision:" +:+ pq_id request; pd_request_ref := pq_id request; pd_planner_adapter_ref := ADAPTER_REF;
       pd_planned_seeds := planned_seeds; pd_adapter_priors := [prior]; pd_frontier_priority_hints := [];
       pd_extraction_strategy_refs := [];
       pd_replay_refs := [pq_id request; ADAPTER_REF; pq_replay_config_ref request; pq_objective_ref request];
       pd_policy_decision_refs := pq_policy_decision_refs request |}.
End V1.

(** ** DeterministicCrawlPlannerV2 *)

Module V2.
Definition ADAPTER_REF : Ref := "adapter:deterministic-crawl-planner-v2:v1".
Definition _HTTP_PRIOR_RATIONALE : Ref := "rationale:deterministic-crawl-planner-v2:http-only".
Definition _REDIRECT_DELTA : float := 0x1.3333333333333p-1.
Definition _CANONICAL_DELTA : float := 0x1.999999999999ap-2.
Definition _HUB_DELTA : float := 0x1.999999999999ap-3.
Definition _HUB_THRESHOLD : Z := 5.

Section Planner.
Context (env : NetEnv) (sha256_hexdigest : string -> string).

Definition _host (url : string) : res string := let? parsed := urlparse env url "" in Ok (default "" (pr_hostname parsed)).
Definition _short_hash (url : string) : string := String.substring 0 8 (stable_hash sha256_hexdigest url).

Definition planned_seed (seed : Z * string) : res PlannedSeed :=
  let? priority := seed_priority seed.1 in
  validate_planned_seed env {| ps_canonical_url := seed.2; ps_priority_score := priority; ps_adapter_hint := HTTP;
    ps_rationale_ref := "rationale:" +:+ ADAPTER_REF +:+ ":seed-" +:+ pretty seed.1 |}.

Definition redirect_hint (url : string) : res FrontierPriorityHint :=
  let? host := _host url in
  validate_hint env {| ph_match_kind := HOST_GLOB; ph_match_value := host; ph_priority_delta := _REDIRECT_DELTA;
    ph_rationale_ref := "rationale:" +:+ ADAPTER_REF +:+ ":redirect-" +:+ host |}.
Definition canonical_hint (url : string) : res FrontierPriorityHint :=
  validate_hint env {| ph_match_kind := URL_PREFIX; ph_match_value := url; ph_priority_delta := _CANONICAL_DELTA;
    ph_rationale_ref := "rationale:" +:+ ADAPTER_REF +:+ ":canonical-" +:+ _short_hash url |}.
Definition hub_hint (url : string) : res FrontierPriorityHint :=
  validate_hint env {| ph_match_kind := URL_PREFIX; ph_match_value := url; ph_priority_delta := _HUB_DELTA;
    ph_rationale_ref := "rationale:" +:+ ADAPTER_REF +:+ ":hub-" +:+ _short_hash url |}.
Definition is_hub (fb : PlannerObservationFeedback) (url : string) : bool :=
  negb (dict_get_or (fb_page_neighbour_count_by_url fb) url 0 <? _HUB_THRESHOLD).
Definition hints_of (fb : PlannerObservationFeedback) : res (list FrontierPriorityHint) :=
  let? redirects := map_each redirect_hint (fb_redirect_neighbours fb) in
  let? canonicals := map_each canonical_hint (fb_canonical_targets fb) in
  let? hubs := map_each hub_hint (filter (fun url => is_hub fb url = true) (py_sorted String.leb (dict_keys (fb_page_neighbour_count_by_url fb)))) in
  Ok (redirects ++ canonicals ++ hubs).

Definition plan (feedback : option PlannerObservationFeedback) (request : PlanRequest) : res PlanDecision :=
  do? (match feedback with
       | None => Ok tt
       | Some fb =>
           do? guard (bool_decide (fb_run_ref fb = pq_run_ref request))
                 (ValueError "DeterministicCrawlPlannerV2: feedback.run_ref must match request.run_ref") in
           guard (bool_decide (fb_id fb ∈ pq_observed_state_refs request))
             (ValueError "DeterministicCrawlPlannerV2: feedback.id must be threaded through request.observed_state_refs")
       end) in
  let? planned_seeds := map_each planned_seed (enumerate (pq_seed_urls request)) in
  let? prior := validate_adapter_prior {| ap_adapter_type := HTTP; ap_weight := 1; ap_rationale_ref := _HTTP_PRIOR_RATIONALE |} in
  let? frontier_priority_hints := (match feedback with None => Ok [] | Some fb => hints_of fb end) in
  validate_plan_decision
    {| pd_id := "plan-decision:" +:+ pq_id request; pd_request_ref := pq_id request; pd_planner_adapter_ref := ADAPTER_REF;
       pd_planned_seeds := planned_seeds; pd_adapter_priors := [prior]; pd_frontier_priority_hints := frontier_priority_hints;
       pd_extraction_strategy_refs := [];
       pd_replay_refs := [pq_id request; ADAPTER_REF; pq_replay_config_ref request; pq_objective_ref request]
         ++ (match feedback with None => [] | Some fb => [fb_id fb] end);
       pd_policy_decision_refs := pq_policy_decision_refs request |}.
End Planner.
End V2.

(** ** InMemoryGraphObserver *)

Record InMemoryGraphObserver := {
  go_run_ref : Ref;
  go_urls : list UrlObservedEvent;
  go_redirects : list RedirectObservedEvent;
  go_canonicals : list CanonicalObservedEvent;
  go_pages : list PageStructureObservedEvent }.

Definition new_observer (run_ref : Ref) : res InMemoryGraphObserver :=
  do? guard (truthy_str (strip run_ref)) (ValueError "run_ref must be non-blank") in
  Ok {| go_run_ref := run_ref; go_urls := []; go_redirects := []; go_canonicals := []; go_pages := [] |}.

Definition _check_run (event_run_ref : Ref) : M InMemoryGraphObserver unit :=
  fun o => (guard (bool_decide (event_run_ref = go_run_ref o)) (ValueError "run_ref does not match observer run_ref"), o).

Definition record_url_observed (event : UrlObservedEvent) : M InMemoryGraphObserver unit :=
  do* _check_run (uo_run_ref event) in
  modify (fun o => {| go_run_ref := go_run_ref o; go_urls := go_urls o ++ [event]; go_redirects := go_redirects o;
    go_canonicals := go_canonicals o; go_pages := go_pages o |}).
Definition record_redirect_observed (event : RedirectObservedEvent) : M InMemoryGraphObserver unit :=
  do* _check_run (ro_run_ref event) in
  modify (fun o => {| go_run_ref := go_run_ref o; go_urls := go_urls o; go_redirects := go_redirects o ++ [event];
    go_canonicals := go_canonicals o; go_pages := go_pages o |}).
Definition record_canonical_observed (event : CanonicalObservedEvent) : M InMemoryGraphObserver unit :=
  do* _check_run (co_run_ref event) in
  modify (fun o => {| go_run_ref := go_run_ref o; go_urls := go_urls o; go_redirects := go_redirects o;
    go_canonicals := go_canonicals o ++ [event]; go_pages := go_pages o |}).
Definition record_page_structure_observed (event : PageStructureObservedEvent) : M InMemoryGraphObserver unit :=
  do* _check_run (po_run_ref event) in
  modify (fun o => {| go_run_ref := go_run_ref o; go_urls := go_urls o; go_redirects := go_redirects o;
    go_canonicals := go_canonicals o; go_pages := go_pages o ++ [event] |}).

Definition snapshot (id : string) (snapshot_at : clock_value) (o : InMemoryGraphObserver) : res GraphObservationSnapshot :=
  validate_snapshot {| gs_id := id; gs_run_ref := go_run_ref o; gs_url_observed_events := go_urls o;
    gs_redirect_observed_events := go_redirects o; gs_canonical_observed_events := go_canonicals o;
    gs_page_structure_observed_events := go_pages o; gs_snapshot_at := snapshot_at |}.

(** ** LlmCrawlPlanner *)

(** [contracts/llm_crawl_planner.py] *)
Record LlmProposedSeed := { ls_canonical_url : string; ls_priority_score : float; ls_adapter_hint : AdapterType }.
Record LlmProposedAdapterPrior := { la_adapter_type : AdapterType; la_weight : float }.
Record LlmProposedFrontierPriorityHint := { lh_match_kind : FrontierMatchKind; lh_match_value : string; lh_priority_delta : float }.
Record LlmPlanProposal := {
  lp_planned_seeds : list LlmProposedSeed;
  lp_adapter_priors : list LlmProposedAdapterPrior;
  lp_frontier_priority_hints : list LlmProposedFrontierPriorityHint;
  lp_extraction_strategy_refs : list Ref;
  lp_rationale_summary : string }.

Definition validate_proposed_seed (env : NetEnv) (s : LlmProposedSeed) : res unit :=
  do? require_http env "canonical_url must be absolute http(s)" (ls_canonical_url s) in
  _require (unit_interval (ls_priority_score s)) "priority_score must be in [0.0, 1.0]".
Definition validate_proposed_prior (p : LlmProposedAdapterPrior) : res unit :=
  _require (unit_interval (la_weight p)) "weight must be in [0.0, 1.0]".
Definition validate_proposed_hint (env : NetEnv) (h : LlmProposedFrontierPriorityHint) : res unit :=
  do? _require (PrimFloat.leb (-1) (lh_priority_delta h) && PrimFloat.leb (lh_priority_delta h) 1) "priority_delta must be in [-1.0, 1.0]" in
  do? _require (truthy_str (strip (lh_match_value h))) "match_value must be non-blank" in
  match lh_match_kind h with
  | URL_PREFIX => require_http env "match_value must be http(s) URL" (lh_match_value h)
  | HOST_GLOB => _require (all_of host_glob_char (lh_match_value h)) "match_value must be host glob"
  | CONTENT_TYPE_PREFIX => _require (mime_prefix (lh_match_value h)) "match_value must be type/subtype"
  end.
Fixpoint distinct_proposed (seen : list AdapterType) (priors : list LlmProposedAdapterPrior) : res unit :=
  match priors with
  | [] => Ok tt
  | p :: priors =>
      do? _require (bool_decide (la_adapter_type p ∉ seen)) "adapter_priors duplicate adapter_type" in
      distinct_proposed (la_adapter_type p :: seen) priors
  end.
Definition validate_proposal (env : NetEnv) (p : LlmPlanProposal) : res LlmPlanProposal :=
  do? for_each (validate_proposed_seed env) (lp_planned_seeds p) in
  do? for_each validate_proposed_prior (lp_adapter_priors p) in
  do? for_each (validate_proposed_hint env) (lp_frontier_priority_hints p) in
  do? _require (truthy_list (lp_planned_seeds p)) "planned_seeds must be non-empty" in
  do? _require (truthy_list (lp_adapter_priors p)) "adapter_priors must be non-empty" in
  do? distinct_proposed [] (lp_adapter_priors p) in
  do? _require (PrimFloat.leb (foldl PrimFloat.add 0%float (map la_weight (lp_adapter_priors p))) _SUM_TOL) "adapter_priors weight sum must be <= 1.0" in
  do? _require (truthy_str (strip (lp_rationale_summary p))) "rationale_summary must be non-blank" in
  Ok p.

(** The request sent to the provider: one user message, a JSON object asked for. *)
Record LlmRequest := {
  lr_id : string; lr_run_ref : Ref; lr_model_name : string; lr_content : string; lr_max_output_tokens : Z; lr_temperature : float }.
Definition validate_request (r : LlmRequest) : res LlmRequest :=
  do? ensure_non_blank ValidationError "provider request id" (lr_id r) in
  do? ensure_non_blank ValidationError "provider request run_ref" (lr_run_ref r) in
  do? ensure_non_blank ValidationError "provider request model_name" (lr_model_name r) in
  do? guard (1 <=? lr_max_output_tokens r) (ValidationError "max_output_tokens must be positive") in
  do? guard (isfinite (lr_temperature r)) (ValidationError "temperature must be a finite number") in
  do? guard (PrimFloat.leb 0 (lr_temperature r) && PrimFloat.leb (lr_temperature r) 2) (ValidationError "temperature must be in [0.0, 2.0]") in
  Ok r.

(** What the planner reads of a response; the parsed output is of any type. *)
Record LlmResponse (J : Type) := { ls_id : string; ls_usage : TokenUsage; ls_parsed_output : option J; ls_raw_response_ref : option Ref }.
Arguments ls_id {J}. Arguments ls_usage {J}. Arguments ls_parsed_output {J}. Arguments ls_raw_response_ref {J}.

Class LlmPorts (J E : Type) := {
  render_prompt : string -> dict string (string + list string) -> M E string;
  estimate_request : LlmRequest -> M E unit;
  complete : LlmRequest -> M E (LlmResponse J);
  charge_usage : TokenUsage -> Ref -> M E unit }.

Module Llm.
Record Config := { prompt_template_ref : string; model_name : string; max_output_tokens : Z; temperature : float; adapter_ref : string }.

Section Planner.
Context {J E : Type} `{LlmPorts J E} (env : NetEnv) (decode : J -> option LlmPlanProposal) (cfg : Config) (adapter_value : AdapterType -> string)
  (kind_value : FrontierMatchKind -> string).

Definition rationale : string := "rationale:" +:+ adapter_ref cfg +:+ ":" +:+ prompt_template_ref cfg.

Definition _project (request : PlanRequest) (proposal : LlmPlanProposal) (response_id raw_response_ref : string) : res PlanDecision :=
  let? seeds := map_each (fun seed => validate_planned_seed env
      {| ps_canonical_url := ls_canonical_url seed.2; ps_priority_score := ls_priority_score seed.2; ps_adapter_hint := ls_adapter_hint seed.2;
         ps_rationale_ref := rationale +:+ ":seed-" +:+ pretty seed.1 |}) (enumerate (lp_planned_seeds proposal)) in
  let? priors := map_each (fun p => validate_adapter_prior
      {| ap_adapter_type := la_adapter_type p; ap_weight := la_weight p; ap_rationale_ref := rationale +:+ ":prior-" +:+ adapter_value (la_adapter_type p) |})
      (lp_adapter_priors proposal) in
  let? hints := map_each (fun h => validate_hint env
      {| ph_match_kind := lh_match_kind h; ph_match_value := lh_match_value h; ph_priority_delta := lh_priority_delta h;
         ph_rationale_ref := rationale +:+ ":hint-" +:+ kind_value (lh_match_kind h) |}) (lp_frontier_priority_hints proposal) in
  validate_plan_decision
    {| pd_id := "plan-decision:" +:+ pq_id request; pd_request_ref := pq_id request; pd_planner_adapter_ref := adapter_ref cfg;
       pd_planned_seeds := seeds; pd_adapter_priors := priors; pd_frontier_priority_hints := hints;
       pd_extraction_strategy_refs := lp_extraction_strategy_refs proposal;
       pd_replay_refs := [pq_id request; adapter_ref cfg; pq_replay_config_ref request; pq_objective_ref request; prompt_template_ref cfg;
         response_id; raw_response_ref];
       pd_policy_decision_refs := pq_policy_decision_refs request |}.

Definition context_of (request : PlanRequest) : dict string (string + list string) :=
  [("objective_ref", inl (pq_objective_ref request)); ("seed_urls", inr (pq_seed_urls request)); ("budget_ref", inl (pq_budget_ref request));
   ("policy_snapshot_ref", inl (pq_policy_snapshot_ref request)); ("run_ref", inl (pq_run_ref request))].

Definition plan (request : PlanRequest) : M E PlanDecision :=
  let* rendered := render_prompt (prompt_template_ref cfg) (context_of request) in
  let* provider_request := lift (validate_request
    {| lr_id := "provider-request:" +:+ pq_id request; lr_run_ref := pq_run_ref request; lr_model_name := model_name cfg; lr_content := rendered;
       lr_max_output_tokens := max_output_tokens cfg; lr_temperature := temperature cfg |}) in
  do* estimate_request provider_request in
  let* response := complete provider_request in
  do* charge_usage (ls_usage response) (lr_id provider_request) in
  let raw_response_ref := default "" (ls_raw_response_ref response) in
  do* lift (guard (truthy_str (strip raw_response_ref)) (ProviderTraceMissingError (lr_id provider_request))) in
  let* parsed := lift (if ls_parsed_output response is Some parsed then Ok parsed else Raise StructuredOutputViolation) in
  let* proposal := lift (match decode parsed with
    | None => Raise StructuredOutputViolation
    | Some proposal => match validate_proposal env proposal with Raise (ValidationError _) => Raise StructuredOutputViolation | r => r end
    end) in
  lift (_project request proposal (ls_id response) raw_response_ref).
End Planner.
End Llm.

(** ** The two deterministic planners agree without feedback *)

(** What a decision says apart from the name of the planner in its references. *)
Definition seed_view (s : PlannedSeed) : string * float * AdapterType := (ps_canonical_url s, ps_priority_score s, ps_adapter_hint s).
Definition decision_view (adapter_ref : Ref) (d : PlanDecision) :=
  (pd_id d, pd_request_ref d, map seed_view (pd_planned_seeds d), map (fun p => (ap_adapter_type p, ap_weight p)) (pd_adapter_priors d),
   pd_frontier_priority_hints d, pd_extraction_strategy_refs d,
   map (fun r => if decide (r = adapter_ref) then None else Some r) (pd_replay_refs d), pd_policy_decision_refs d).

(** Results with the same view, or the same exception. *)
Definition same_view {A B} (view view' : A -> B) (r r' : res A) : Prop :=
  match r, r' with Ok x, Ok y => view x = view' y | Raise e, Raise e' => e = e' | _, _ => False end.

Lemma rationale_visible s : truthy_str (strip ("rationale:" +:+ s)) = true.
Proof. unfold strip. simpl. by destruct (str_rstrip is_space _). Qed.

Lemma validated_seed env s : validate_planned_seed env s = Ok s \/ exists e, validate_planned_seed env s = Raise e.
Proof.
  unfold validate_planned_seed. destruct (require_http env _ _) as [u|e]; [|by right; eexists]. simpl.
  destruct (_require _ _) as [u1|e]; [|by right; eexists]. simpl. destruct (_require _ _) as [u2|e]; [by left|by right; eexists].
Qed.
Lemma seeds_agree env seed : same_view seed_view seed_view (V1.planned_seed env seed) (V2.planned_seed env seed).
Proof.
  unfold V1.planned_seed, V2.planned_seed. destruct (seed_priority seed.1) as [priority|e]; [|done]. cbn [rbind].
  unfold validate_planned_seed, _require. cbn [ps_canonical_url ps_priority_score ps_rationale_ref]. rewrite !rationale_visible.
  destruct (require_http env _ _) as [u|e]; [|done]. cbn [rbind]. by destruct (unit_interval priority).
Qed.
Lemma map_each_agree {A B C} (view : B -> C) (f g : A -> res B) l : (forall x, same_view view view (f x) (g x)) ->
  same_view (map view) (map view) (map_each f l) (map_each g l).
Proof.
  intros Hfg. induction l as [|x l IH]; [done|]. simpl. specialize (Hfg x). unfold same_view in *. destruct (f x) as [y|e], (g x) as [z|e']; try done.
  simpl. destruct (map_each f l) as [ys|e], (map_each g l) as [zs|e']; try done. simpl. by rewrite Hfg, IH.
Qed.


(** The contract of a decision whose one prior is HTTP with weight 1. *)
Lemma http_prior_ok ref : truthy_str (strip ref) = true ->
  validate_adapter_prior {| ap_adapter_type := HTTP; ap_weight := 1; ap_rationale_ref := ref |} = Ok {| ap_adapter_type := HTTP; ap_weight := 1; ap_rationale_ref := ref |}.
Proof. intros Hr. unfold validate_adapter_prior, _require. simpl. by rewrite Hr. Qed.
Lemma http_decision_checks d ref : pd_adapter_priors d = [{| ap_adapter_type := HTTP; ap_weight := 1; ap_rationale_ref := ref |}] ->
  pd_request_ref d ∈ pd_replay_refs d -> pd_planner_adapter_ref d ∈ pd_replay_refs d -> truthy_str (strip (pd_planner_adapter_ref d)) = true ->
  validate_plan_decision d =
    (do? _require (truthy_str (strip (pd_request_ref d))) "request_ref must be non-blank" in
     do? _require (truthy_list (pd_planned_seeds d)) "planned_seeds must be non-empty" in
     do? _require (truthy_list (pd_policy_decision_refs d)) "policy_decision_refs must be non-empty" in
     Ok d).
Proof.
  intros Hp Hr Ha Ht. unfold validate_plan_decision, _require. rewrite Hp, Ht, !bool_decide_true by done.
  destruct (truthy_str _); [|done]. cbn [guard rbind]. destruct (truthy_list (pd_planned_seeds d)); done.
Qed.

(** Without feedback the two deterministic planners decide the same: for
    every request whose references do not name a planner, the decisions of both
    have the same seeds with the same priorities, the same priors, no hints and
    the same references apart from the planner's own, and one raises exactly
    when the other does, the same exception. *)
Theorem planners_agree env sha256_hexdigest q :
  Forall (fun r => r <> V1.ADAPTER_REF /\ r <> V2.ADAPTER_REF) [pq_id q; pq_replay_config_ref q; pq_objective_ref q] ->
  same_view (decision_view V1.ADAPTER_REF) (decision_view V2.ADAPTER_REF) (V1.plan env q) (V2.plan env sha256_hexdigest None q).
Proof.
  intros Hrefs. rewrite !Forall_cons in Hrefs. destruct Hrefs as ([Hi1 Hi2] & [Hc1 Hc2] & [Ho1 Ho2] & _).
  unfold V1.plan, V2.plan. cbn [rbind].
  pose proof (map_each_agree seed_view _ _ (enumerate (pq_seed_urls q)) (seeds_agree env)) as Hs. unfold same_view in Hs.
  destruct (map_each (V1.planned_seed env) _) as [seeds|e], (map_each (V2.planned_seed env) _) as [seeds'|e']; try done.
  cbn [rbind]. rewrite !http_prior_ok by reflexivity. cbn [rbind].
  rewrite (http_decision_checks _ V1.HTTP_PRIOR_RATIONALE_REF) by (simpl; rewrite ?elem_of_cons; auto).
  rewrite (http_decision_checks _ V2._HTTP_PRIOR_RATIONALE) by (simpl; rewrite ?elem_of_cons; auto). unfold _require.
  cbn [pd_request_ref pd_planned_seeds pd_policy_decision_refs].
  assert (truthy_list seeds = truthy_list seeds') as -> by (by destruct seeds, seeds').
  destruct (truthy_str (strip (pq_id q))), (truthy_list seeds'), (truthy_list (pq_policy_decision_refs q)); try done.
  unfold same_view, decision_view. cbn [guard rbind pd_id pd_request_ref pd_planned_seeds pd_adapter_priors pd_frontier_priority_hints
    pd_extraction_strategy_refs pd_replay_refs pd_policy_decision_refs map app]. rewrite Hs. repeat case_decide; done.
Qed.

(** ** What a run observed steers its frontier *)

Inductive Observation :=
  | ObsUrl (e : UrlObservedEvent) | ObsRedirect (e : RedirectObservedEvent)
  | ObsCanonical (e : CanonicalObservedEvent) | ObsPage (e : PageStructureObservedEvent).
Definition record (o : Observation) : M InMemoryGraphObserver unit :=
  match o with
  | ObsUrl e => record_url_observed e | ObsRedirect e => record_redirect_observed e
  | ObsCanonical e => record_canonical_observed e | ObsPage e => record_page_structure_observed e
  end.
(** The observer after a list of observations; those of another run are refused. *)
Definition observe_all (l : list Observation) (g : InMemoryGraphObserver) : InMemoryGraphObserver := foldl (fun g o => (record o g).2) g l.

(** The contract that an event has passed when it was constructed. *)
Definition validated (env : NetEnv) (o : Observation) : Prop :=
  match o with
  | ObsUrl e => validate_url_observed env e = Ok e | ObsRedirect e => validate_redirect_observed env e = Ok e
  | ObsCanonical e => validate_canonical_observed env e = Ok e | ObsPage e => validate_page_observed env e = Ok e
  end.

Definition redirects_of (run : Ref) (l : list Observation) : list RedirectObservedEvent :=
  omap (fun o => if o is ObsRedirect e then (if decide (ro_run_ref e = run) then Some e else None) else None) l.
Definition canonicals_of (run : Ref) (l : list Observation) : list CanonicalObservedEvent :=
  omap (fun o => if o is ObsCanonical e then (if decide (co_run_ref e = run) then Some e else None) else None) l.
Definition pages_of (run : Ref) (l : list Observation) : list PageStructureObservedEvent :=
  omap (fun o => if o is ObsPage e then (if decide (po_run_ref e = run) then Some e else None) else None) l.

(** The observer keeps the events of its run, in order. *)
Lemma observer_keeps l : forall g, let g' := observe_all l g in
  go_run_ref g' = go_run_ref g /\ go_redirects g' = go_redirects g ++ redirects_of (go_run_ref g) l /\
  go_canonicals g' = go_canonicals g ++ canonicals_of (go_run_ref g) l /\ go_pages g' = go_pages g ++ pages_of (go_run_ref g) l.
Proof.
  unfold redirects_of, canonicals_of, pages_of. induction l as [|o l IH]; intros g; simpl; [by rewrite !app_nil_r|].
  specialize (IH (record o g).2). cbv zeta in IH. destruct IH as (H1 & H2 & H3 & H4).
  destruct o as [e|e|e|e]; simpl in *;
    unfold record_url_observed, record_redirect_observed, record_canonical_observed, record_page_structure_observed, _check_run, bind, modify in *;
    case_bool_decide as Hrun; cbn [guard fst snd go_run_ref go_redirects go_canonicals go_pages] in *;
    rewrite ?decide_True, ?decide_False by done; rewrite H1, H2, H3, H4, <-?app_assoc; done.
Qed.

Lemma map_each_in {A B} (f : A -> res B) l ys : map_each f l = Ok ys -> forall x, x ∈ l -> exists y, y ∈ ys /\ f x = Ok y.
Proof.
  revert ys. induction l as [|z l IH]; intros ys H x; [by intros ?%elem_of_nil|]. simpl in H.
  apply rbind_ok in H as (y & Hy & H). apply rbind_ok in H as (ys' & Hys & [= <-]). intros [->|Hx]%elem_of_cons; [exists y; split; [left|done]|].
  destruct (IH _ Hys x Hx) as (y' & ? & ?). exists y'. split; [by right|done].
Qed.
Lemma fnmatch_refl p : fnmatch p p = true.
Proof.
  induction p as [|c p IH]; [reflexivity|]. cbn [fnmatch]. destruct (decide (c = "*"%char)) as [->|Hc].
  - apply orb_true_iff. right. destruct p; by rewrite IH.
  - by rewrite bool_decide_true by auto.
Qed.
Lemma startswith_prefix_ok p s : startswith p (p +:+ s) = true.
Proof. apply startswith_spec. by exists s. Qed.

Lemma validated_hint env h h' : validate_hint env h = Ok h' -> h' = h /\ truthy_str (strip (ph_match_value h)) = true.
Proof. unfold validate_hint. intros H. run_m H. apply guard_ok in Hr0. by split. Qed.
Lemma nonblank_nonempty s : truthy_str (strip s) = true -> truthy_str s = true.
Proof. by destruct s. Qed.

Lemma map_each_map {A B C} (f : A -> res B) (g : A -> C) (h : B -> C) l ys : (forall x y, f x = Ok y -> h y = g x) ->
  map_each f l = Ok ys -> map h ys = map g l.
Proof.
  intros Hf. revert ys. induction l as [|x l IH]; intros ys H; simpl in H; [by injection H as <-|].
  apply rbind_ok in H as (y & Hy & H). apply rbind_ok in H as (ys' & Hys & [= <-]). simpl. by rewrite (Hf _ _ Hy), (IH _ Hys).
Qed.
Lemma enumerate_snd {A} (l : list A) : map snd (enumerate l) = l.
Proof.
  unfold enumerate. assert (forall f : nat -> Z, map snd (imap (fun i x => (f i, x)) l) = l) as H; [|apply (H Z.of_nat)].
  induction l as [|x l IH]; intros f; [done|]. simpl. f_equal. apply (IH (f ∘ S)).
Qed.
Lemma seeds_in_order env urls seeds : map_each (V2.planned_seed env) (enumerate urls) = Ok seeds -> map ps_canonical_url seeds = urls.
Proof.
  intros H. rewrite <-(enumerate_snd urls). eapply map_each_map; [|exact H]. intros x y Hxy. unfold V2.planned_seed in Hxy. apply rbind_ok in Hxy as (priority & _ & Hxy).
  destruct (validated_seed env {| ps_canonical_url := x.2; ps_priority_score := priority; ps_adapter_hint := HTTP;
    ps_rationale_ref := "rationale:" +:+ V2.ADAPTER_REF +:+ ":seed-" +:+ pretty x.1 |}) as [E|[e E]]; rewrite E in Hxy; by simplify_eq.
Qed.

(** The hints of a feedback: one per redirect, canonical target and hub. *)
Lemma hints_steer env sha256_hexdigest fb hints : V2.hints_of env sha256_hexdigest fb = Ok hints ->
  (forall u host, u ∈ fb_redirect_neighbours fb -> V2._host env u = Ok host ->
    exists h, h ∈ hints /\ ph_priority_delta h = V2._REDIRECT_DELTA /\ forall url, hint_matches url host h = true) /\
  (forall u, u ∈ fb_canonical_targets fb ->
    exists h, h ∈ hints /\ ph_priority_delta h = V2._CANONICAL_DELTA /\ forall rest host, hint_matches (u +:+ rest) host h = true) /\
  (forall u n, dict_get (fb_page_neighbour_count_by_url fb) u = Some n -> V2._HUB_THRESHOLD <= n ->
    exists h, h ∈ hints /\ ph_priority_delta h = V2._HUB_DELTA /\ forall rest host, hint_matches (u +:+ rest) host h = true).
Proof.
  unfold V2.hints_of. intros H. apply rbind_ok in H as (redirects & Hr & H). apply rbind_ok in H as (canonicals & Hc & H).
  apply rbind_ok in H as (hubs & Hh & [= <-]). split_and!.
  - intros u host Hu Hhost. destruct (map_each_in _ _ _ Hr u Hu) as (h & Hin & E). unfold V2.redirect_hint in E. rewrite Hhost in E. simpl in E.
    apply validated_hint in E as [-> Hv]. eexists. split; [rewrite !elem_of_app; left; exact Hin|]. split; [done|]. intros url.
    unfold hint_matches. simpl in *. by rewrite (nonblank_nonempty _ Hv), fnmatch_refl.
  - intros u Hu. destruct (map_each_in _ _ _ Hc u Hu) as (h & Hin & E). apply validated_hint in E as [-> _].
    eexists. split; [rewrite !elem_of_app; right; left; exact Hin|]. split; [done|]. intros rest host. apply startswith_prefix_ok.
  - intros u n Hn Hhub. destruct (map_each_in _ _ _ Hh u) as (h & Hin & E).
    { apply list_elem_of_filter. split; [unfold V2.is_hub, dict_get_or; rewrite Hn; simpl; apply negb_true_iff, Z.ltb_ge; lia|].
      apply elem_of_py_sorted. by apply elem_of_dict_keys; exists n. }
    apply validated_hint in E as [-> _].
    eexists. split; [rewrite !elem_of_app; right; right; exact Hin|]. split; [done|]. intros rest host. apply startswith_prefix_ok.
Qed.

Lemma observed_events_valid env run l g at_ id snap : Forall (validated env) l -> new_observer run = Ok g -> snapshot id at_ (observe_all l g) = Ok snap ->
  validate_snapshot snap = Ok snap /\ gs_run_ref snap = run /\ gs_redirect_observed_events snap = redirects_of run l /\
  gs_canonical_observed_events snap = canonicals_of run l /\
  gs_page_structure_observed_events snap = pages_of run l /\ observed_valid env snap.
Proof.
  intros Hl Hg Hsnap. assert (go_run_ref g = run /\ go_redirects g = [] /\ go_canonicals g = [] /\ go_pages g = []) as (Hrun & Hgr & Hgc & Hgp)
    by (unfold new_observer in Hg; by run_m Hg).
  destruct (observer_keeps l g) as (Hk1 & Hk2 & Hk3 & Hk4). rewrite Hrun in Hk1. rewrite Hrun, Hgr in Hk2. rewrite Hrun, Hgc in Hk3. rewrite Hrun, Hgp in Hk4.
  pose proof Hsnap as Hv. unfold snapshot, validate_snapshot in Hv. run_m Hv. split; [exact Hsnap|]. cbn [gs_run_ref gs_redirect_observed_events gs_canonical_observed_events gs_page_structure_observed_events].
  split; [done|]. split; [done|]. split; [done|]. split; [done|]. rewrite Forall_forall in Hl.
  unfold observed_valid. cbn [gs_redirect_observed_events gs_canonical_observed_events gs_page_structure_observed_events]. rewrite Hk2, Hk3, Hk4.
  unfold redirects_of, canonicals_of, pages_of. split_and!; intros e ([o|o|o|o] & Hin & He)%list_elem_of_omap; try done; case_decide; simplify_eq; apply (Hl _ Hin).
Qed.

(** *** The planner accepts the feedback *)

Lemma space_c0 s : str_lstrip is_space s = "" -> str_lstrip c0_or_space s = "".
Proof.
  induction s as [|c s IH]; [done|]. simpl. destruct (is_space c) eqn:E; [|done]. intros H.
  assert (c0_or_space c = true) as ->; [|by apply IH].
  unfold is_space in E. unfold c0_or_space. rewrite !orb_true_iff, !andb_true_iff, !N.leb_le, N.eqb_eq in E. apply N.leb_le. lia.
Qed.
Lemma rstrip_nil s : str_rstrip is_space s = "" -> str_lstrip is_space s = "".
Proof.
  induction s as [|c s IH]; [done|]. simpl. destruct (str_rstrip is_space s) eqn:E; [|done]. by destruct (is_space c); [rewrite IH|].
Qed.
Lemma lstrip_twice s : str_lstrip is_space (str_lstrip is_space s) = str_lstrip is_space s.
Proof. induction s as [|c s IH]; [done|]. simpl. destruct (is_space c) eqn:E; [done|]. simpl. by rewrite E. Qed.
(** A URL that the observation contracts accept is one that the hint contract accepts. *)
Lemma hint_url env u : _is_http_url env u = Ok true -> is_http_url env u = Ok true /\ truthy_str (strip u) = true.
Proof.
  intros H. split.
  - unfold _is_http_url in H. unfold is_http_url. destruct (urlsplit env u) as [p|e]; [|done]. cbn [rbind] in *. rewrite <-H.
    do 2 f_equal. apply bool_decide_ext. set_solver.
  - destruct (truthy_str (strip u)) eqn:E; [done|]. exfalso. assert (strip u = "") as Hs by (unfold truthy_str in E; by destruct (strip u)).
    unfold strip in Hs. apply rstrip_nil in Hs. rewrite lstrip_twice in Hs. apply space_c0 in Hs.
    unfold _is_http_url, urlsplit in H. rewrite Hs in H. by vm_compute in H.
Qed.
Lemma prefix_hint env u delta ref : _is_http_url env u = Ok true -> PrimFloat.leb (-1) delta && PrimFloat.leb delta 1 = true ->
  let h := {| ph_match_kind := URL_PREFIX; ph_match_value := u; ph_priority_delta := delta; ph_rationale_ref := "rationale:" +:+ ref |} in
  validate_hint env h = Ok h.
Proof.
  intros [Hu Hs]%hint_url Hd h. unfold validate_hint. cbn [ph_match_kind ph_match_value ph_priority_delta ph_rationale_ref h].
  by rewrite Hd, Hs, Hu, rationale_visible.
Qed.
(** The host of a URL can be the pattern of a hint. *)
Definition host_usable (env : NetEnv) (url : string) : Prop :=
  exists host, V2._host env url = Ok host /\ truthy_str (strip host) = true /\ all_of host_glob_char host = true.
Lemma host_hint env u : host_usable env u -> exists h, V2.redirect_hint env u = Ok h.
Proof.
  intros (host & Hh & Hs & Hg). unfold V2.redirect_hint. rewrite Hh. cbn [rbind]. unfold validate_hint.
  cbn [ph_match_kind ph_match_value ph_priority_delta ph_rationale_ref]. rewrite Hs, Hg, rationale_visible. by eexists.
Qed.

Lemma map_each_total {A B} (f : A -> res B) l : (forall x, x ∈ l -> exists y, f x = Ok y) -> exists ys, map_each f l = Ok ys.
Proof.
  induction l as [|x l IH]; intros H; [by exists []|]. destruct (H x) as [y Hy]; [left|]. destruct IH as [ys Hys]; [intros z Hz; apply H; by right|].
  simpl. rewrite Hy, Hys. by eexists.
Qed.
Lemma hints_total env sha256_hexdigest fb : validate_feedback env fb = Ok fb -> (forall u, u ∈ fb_redirect_neighbours fb -> host_usable env u) ->
  exists hints, V2.hints_of env sha256_hexdigest fb = Ok hints.
Proof.
  intros Hv Hr. unfold validate_feedback in Hv. run_m Hv.
  repeat match goal with u : () |- _ => destruct u end.
  repeat match goal with H : for_each _ ?l = Ok tt |- _ => pose proof (proj1 (for_each_ok _ l) H); clear H end.
  unfold V2.hints_of. destruct (map_each_total (V2.redirect_hint env) (fb_redirect_neighbours fb)) as [rs ->].
  { intros u Hu. by apply host_hint, Hr. }
  cbn [rbind]. destruct (map_each_total (V2.canonical_hint env sha256_hexdigest) (fb_canonical_targets fb)) as [cs ->].
  { intros u Hu. eexists. apply prefix_hint; [|done]. eapply http_url_ok. by match goal with H : forall x, x ∈ fb_canonical_targets fb -> _ |- _ => apply H end. }
  cbn [rbind]. match goal with |- context [map_each (V2.hub_hint env sha256_hexdigest) ?l] =>
    destruct (map_each_total (V2.hub_hint env sha256_hexdigest) l) as [hs ->]; [|by eexists] end.
  intros u [_ Hu%elem_of_py_sorted]%list_elem_of_filter. apply elem_of_dict_keys in Hu as [n Hn%dict_get_Some_in].
  eexists. apply prefix_hint; [|done]. eapply http_url_ok.
  match goal with H : forall x, x ∈ fb_page_neighbour_count_by_url fb -> _ |- _ => specialize (H _ Hn) end. simpl in *.
  match goal with H : (do? ?m in _) = Ok _ |- _ => by apply rbind_ok in H as ([] & ? & _) end.
Qed.

(** Every page's count is that of its last observation. *)
Lemma last_page_count before e after d : Forall (fun e' => po_page_canonical_url e' <> po_page_canonical_url e) after ->
  dict_get (foldl (fun d e => dict_set d (po_page_canonical_url e) (po_discovered_link_count e)) d (before ++ e :: after)) (po_page_canonical_url e)
    = Some (po_discovered_link_count e).
Proof.
  intros Hafter. rewrite foldl_app. simpl. generalize (foldl (fun d e => dict_set d (po_page_canonical_url e) (po_discovered_link_count e)) d before). intros d0.
  assert (dict_get (dict_set d0 (po_page_canonical_url e) (po_discovered_link_count e)) (po_page_canonical_url e) = Some (po_discovered_link_count e))
    as Hd by apply dict_get_set_eq. revert Hd. generalize (dict_set d0 (po_page_canonical_url e) (po_discovered_link_count e)).
  induction Hafter as [|e' after He Hafter IH]; intros d1 Hd; [done|]. simpl. apply IH. by rewrite dict_get_set_ne.
Qed.

(** What the planner decides without a feedback it decides with one, if it can
    make the hints. *)
Lemma plan_with_feedback env sha256_hexdigest fb q d0 hints :
  V2.plan env sha256_hexdigest None q = Ok d0 -> fb_run_ref fb = pq_run_ref q -> fb_id fb ∈ pq_observed_state_refs q ->
  V2.hints_of env sha256_hexdigest fb = Ok hints -> exists d, V2.plan env sha256_hexdigest (Some fb) q = Ok d.
Proof.
  intros H0 Hrun Hid Hh. unfold V2.plan in *. cbn [rbind] in H0. rewrite !bool_decide_true by done. cbn [guard rbind].
  destruct (map_each (V2.planned_seed env) _) as [seeds|]; [|done]. cbn [rbind] in *. rewrite Hh. rewrite http_prior_ok in * by done. cbn [rbind] in *.
  rewrite (http_decision_checks _ V2._HTTP_PRIOR_RATIONALE) in H0 by (simpl; rewrite ?elem_of_cons; auto).
  rewrite (http_decision_checks _ V2._HTTP_PRIOR_RATIONALE) by (simpl; rewrite ?elem_of_cons; auto). unfold _require in *.
  cbn [pd_request_ref pd_planned_seeds pd_policy_decision_refs] in *.
  destruct (truthy_str (strip (pq_id q))), (truthy_list seeds), (truthy_list (pq_policy_decision_refs q)); try done. by eexists.
Qed.

(** C19: What a run observed steers its frontier. The observations of a run, each
    valid by its contract, always give a feedback through the observer's
    snapshot. On that feedback the planner decides whatever it decides without
    one, for a request of the run that names the feedback, provided that the host
    of every observed redirect target can be the pattern of a hint (an IPv6 host
    cannot, and the planner raises: [ipv6_redirect_stops_planning]). Whenever it
    decides, it keeps the seeds in order and cites the feedback, and its hints
    raise every URL on the host of an observed redirect target, every URL that
    extends an observed canonical target, and every URL that extends a page whose
    last observation counted five links or more. *)
Theorem observations_steer_frontier env sha256_hexdigest run g l id at_ snap fid q :
  new_observer run = Ok g -> Forall (validated env) l -> snapshot id at_ (observe_all l g) = Ok snap -> truthy_str (strip fid) = true ->
  exists fb, derive_planner_observation_feedback env fid run snap = Ok fb /\
    (forall d0, V2.plan env sha256_hexdigest None q = Ok d0 -> pq_run_ref q = run -> fid ∈ pq_observed_state_refs q ->
       (forall e, e ∈ redirects_of run l -> host_usable env (ro_to_canonical_url e)) ->
       exists d, V2.plan env sha256_hexdigest (Some fb) q = Ok d) /\
    forall d, V2.plan env sha256_hexdigest (Some fb) q = Ok d ->
    let hints := pd_frontier_priority_hints d in
    map ps_canonical_url (pd_planned_seeds d) = pq_seed_urls q /\ fid ∈ pd_replay_refs d /\
    (forall e host, e ∈ redirects_of run l -> V2._host env (ro_to_canonical_url e) = Ok host ->
      exists h, h ∈ hints /\ ph_priority_delta h = V2._REDIRECT_DELTA /\ forall url, hint_matches url host h = true) /\
    (forall e, e ∈ canonicals_of run l ->
      exists h, h ∈ hints /\ ph_priority_delta h = V2._CANONICAL_DELTA /\ forall rest host, hint_matches (co_canonical_target_url e +:+ rest) host h = true) /\
    (forall before e after, pages_of run l = before ++ e :: after ->
      Forall (fun e' => po_page_canonical_url e' <> po_page_canonical_url e) after -> 5 <= po_discovered_link_count e ->
      exists h, h ∈ hints /\ ph_priority_delta h = V2._HUB_DELTA /\ forall rest host, hint_matches (po_page_canonical_url e +:+ rest) host h = true).
Proof.
  intros Hg Hl Hsnap Hid. destruct (observed_events_valid env run l g at_ id snap Hl Hg Hsnap) as (Hv & Hrun & Hsr & Hsc & Hsp & Hov).
  destruct (derive_feedback_total env fid snap Hov Hv Hid) as (fb & Hfb & _ & Hfr & Hfc). rewrite Hrun in Hfb. rewrite Hsr in Hfr. rewrite Hsc in Hfc.
  exists fb. split; [done|].
  assert (validate_feedback env fb = Ok fb /\ fb_id fb = fid /\ fb_run_ref fb = run /\ fb_page_neighbour_count_by_url fb =
    foldl (fun d e => dict_set d (po_page_canonical_url e) (po_discovered_link_count e)) [] (pages_of run l)) as (Hval & <- & Hfrun & Hpages).
  { pose proof Hfb as Hd. unfold derive_planner_observation_feedback in Hd. apply rbind_ok in Hd as ([] & _ & Hd).
    assert (forall f f', validate_feedback env f = Ok f' -> f' = f) as Hsame by (intros f f' Hf; unfold validate_feedback in Hf; by run_m Hf).
    pose proof (Hsame _ _ Hd) as Heq. rewrite <-Heq in Hd. split; [done|]. rewrite Heq, <-Hsp. by split_and!. }
  split.
  { intros d0 H0 Hq Hin Hhosts. destruct (hints_total env sha256_hexdigest fb Hval) as [hints Hhints].
    - intros u (e & He & ->)%Hfr. by apply Hhosts.
    - eapply plan_with_feedback; [exact H0|congruence|done|exact Hhints]. }
  intros d Hd. cbv zeta.
  unfold V2.plan in Hd. apply rbind_ok in Hd as ([] & _ & Hd). apply rbind_ok in Hd as (seeds & Hseeds & Hd).
  apply rbind_ok in Hd as (prior & _ & Hd). apply rbind_ok in Hd as (hints & Hhints & Hd).
  unfold validate_plan_decision in Hd. run_m Hd. apply hints_steer in Hhints as (H1 & H2 & H3). split_and!.
  - by apply (seeds_in_order env).
  - rewrite !elem_of_cons. tauto.
  - intros e host He Hhost. apply (H1 (ro_to_canonical_url e) host); [apply Hfr; by exists e|done].
  - intros e He. apply H2, Hfc. by exists e.
  - intros before e after Hsplit Hafter Hcount. apply (H3 _ (po_discovered_link_count e)); [|exact Hcount].
    rewrite Hpages, Hsplit. by apply last_page_count.
Qed.

(** ** A call of the model is charged *)

Inductive LlmEvent (J : Type) :=
  | Rendered (r : res string) | Estimated (r : res unit) | Completed (request : LlmRequest) (r : res (LlmResponse J))
  | Charged (usage : TokenUsage) (request_ref : Ref) (r : res unit).
Arguments Rendered {J} r. Arguments Estimated {J} r. Arguments Completed {J} request r. Arguments Charged {J} usage request_ref r.

(** The ports record their calls. *)
Class LlmLaws (J E : Type) `{LlmPorts J E} (trace : E -> list (LlmEvent J)) := {
  render_traced : forall ref ctx e, trace (render_prompt ref ctx e).2 = trace e ++ [Rendered (render_prompt ref ctx e).1];
  estimate_traced : forall r e, trace (estimate_request r e).2 = trace e ++ [Estimated (estimate_request r e).1];
  complete_traced : forall r e, trace (complete r e).2 = trace e ++ [Completed r (complete r e).1];
  charge_traced : forall u ref e, trace (charge_usage u ref e).2 = trace e ++ [Charged u ref (charge_usage u ref e).1] }.

(** The calls of one plan: the model is asked after an estimate that the budget
    admits, and its answer is charged at once. *)
Inductive plan_calls {J} : list (LlmEvent J) -> Prop :=
  | NotRendered e : plan_calls [Rendered (Raise e)]
  | NotRequested s : plan_calls [Rendered (Ok s)]
  | NotAdmitted s e : plan_calls [Rendered (Ok s); Estimated (Raise e)]
  | NotAnswered s r e : lr_content r = s -> plan_calls [Rendered (Ok s); Estimated (Ok tt); Completed r (Raise e)]
  | Billed s r response c : lr_content r = s ->
      plan_calls [Rendered (Ok s); Estimated (Ok tt); Completed r (Ok response); Charged (ls_usage response) (lr_id r) c].

Section Charged.
Context {J E : Type} `{HP : LlmPorts J E} (trace : E -> list (LlmEvent J)) `{HL : !LlmLaws J E trace}.
Context (env : NetEnv) (decode : J -> option LlmPlanProposal) (cfg : Llm.Config) (adapter_value : AdapterType -> string) (kind_value : FrontierMatchKind -> string).
Abbreviation plan := (Llm.plan env decode cfg adapter_value kind_value).

(** C18: No call of the model goes uncharged, and no plan is made without one.
    Whatever the registry, the budget and the model do, a plan renders, asks the
    budget, asks the model and charges the usage of its answer, in this order
    and each at most once, before the answer is looked at; and a decision is
    only made of an answer that was charged without an exception, and cites
    its raw response. *)
Theorem llm_plan_is_charged request e : exists t, trace (plan request e).2 = trace e ++ t /\ plan_calls t /\
  forall d, (plan request e).1 = Ok d -> exists s r response raw,
    t = [Rendered (Ok s); Estimated (Ok tt); Completed r (Ok response); Charged (ls_usage response) (lr_id r) (Ok tt)] /\
    ls_raw_response_ref response = Some raw /\ raw ∈ pd_replay_refs d /\ validate_plan_decision d = Ok d.
Proof.
  unfold Llm.plan, bind, lift. pose proof (render_traced (Llm.prompt_template_ref cfg) (Llm.context_of request) e) as Hr.
  destruct (render_prompt _ _ e) as [[rendered|x] e1]; simpl in Hr; [|by eexists; split; [exact Hr|]; split; [constructor|]].
  destruct (validate_request _) as [r|x] eqn:Hv; [|by eexists; split; [exact Hr|]; split; [constructor|]].
  assert (lr_content r = rendered) as Hcontent by (unfold validate_request in Hv; by run_m Hv).
  pose proof (estimate_traced r e1) as He. destruct (estimate_request r e1) as [[[]|x] e2]; simpl in He; rewrite Hr, <-app_assoc in He; cbn [app] in He;
    [|by eexists; split; [exact He|]; split; [constructor|]].
  pose proof (complete_traced r e2) as Hc. destruct (complete r e2) as [[response|x] e3]; simpl in Hc; rewrite He, <-app_assoc in Hc; cbn [app] in Hc;
    [|by eexists; split; [exact Hc|]; split; [by constructor|]].
  pose proof (charge_traced (ls_usage response) (lr_id r) e3) as Hb. destruct (charge_usage _ _ e3) as [[[]|x] e4]; simpl in Hb; rewrite Hc, <-app_assoc in Hb; cbn [app] in Hb;
    [|by eexists; split; [exact Hb|]; split; [by constructor|]].
  eexists. split; [|split; [by apply (Billed rendered r response)|]].
  - destruct (guard _ _); [|exact Hb]. destruct (match ls_parsed_output response with Some _ => _ | None => _ end); [|exact Hb].
    destruct (match decode _ with Some _ => _ | None => _ end); exact Hb.
  - intros d Hd. exists rendered, r, response. destruct (ls_raw_response_ref response) as [raw|]; [|done]. exists raw. split; [done|]. split; [done|].
    simpl in Hd. destruct (guard _ _); [|done]. destruct (match ls_parsed_output response with Some _ => _ | None => _ end); [|done].
    destruct (match decode _ with Some _ => _ | None => _ end) as [proposal|x]; [|done]. simpl in Hd. unfold Llm._project in Hd.
    apply rbind_ok in Hd as (seeds & _ & Hd). apply rbind_ok in Hd as (priors & _ & Hd). apply rbind_ok in Hd as (hints & _ & Hd).
    assert (forall x y, validate_plan_decision x = Ok y -> y = x) as Hid by (intros x y Hxy; unfold validate_plan_decision in Hxy; by run_m Hxy).
    pose proof (Hid _ _ Hd) as ->. split; [simpl; rewrite !elem_of_cons; tauto|exact Hd].
Qed.
End Charged.

(** ** Concrete planners *)

Module PlannerDemo.
Definition hash (s : string) : string := "0123456789abcdef".
Definition job_request : PlanRequest := {| pq_id := "plan-req:job:1"; pq_run_ref := "run:1"; pq_objective_ref := "objective:1";
  pq_seed_urls := ["https://a.test/"; "https://b.test/"]; pq_budget_ref := "budget:1"; pq_policy_snapshot_ref := "policy:1";
  pq_policy_decision_refs := ["decision:1"]; pq_replay_config_ref := "replay:1"; pq_observed_state_refs := ["fb:1"] |}.
Definition noon : clock_value := {| cv_us := 0; cv_offset := Some 0 |}.
Definition hop (to : string) : RedirectObservedEvent := {| ro_id := "r:1"; ro_run_ref := "run:1"; ro_from_canonical_url := "https://a.test/old";
  ro_to_canonical_url := to; ro_status_code := 301; ro_observed_at := noon |}.
Definition page : PageStructureObservedEvent := {| po_id := "p:1"; po_run_ref := "run:1"; po_page_canonical_url := "https://a.test/list";
  po_discovered_link_count := 6; po_discovered_canonical_urls := []; po_observed_at := noon |}.
Definition canonical : CanonicalObservedEvent := {| co_id := "c:1"; co_run_ref := "run:1"; co_linked_canonical_url := "https://a.test/p?x=1";
  co_canonical_target_url := "https://a.test/p"; co_observed_at := noon |}.
Definition seen : list Observation := [ObsRedirect (hop "https://c.test/new"); ObsPage page; ObsCanonical canonical].
Definition observer : InMemoryGraphObserver :=
  {| go_run_ref := "run:1"; go_urls := []; go_redirects := []; go_canonicals := []; go_pages := [] |}.
Definition taken : GraphObservationSnapshot := {| gs_id := "snap:1"; gs_run_ref := "run:1"; gs_url_observed_events := [];
  gs_redirect_observed_events := [hop "https://c.test/new"]; gs_canonical_observed_events := [canonical];
  gs_page_structure_observed_events := [page]; gs_snapshot_at := noon |}.
Definition feedback (to : string) : PlannerObservationFeedback := {| fb_id := "fb:1"; fb_run_ref := "run:1"; fb_redirect_neighbours := [to];
  fb_canonical_targets := ["https://a.test/p"]; fb_page_neighbour_count_by_url := [("https://a.test/list", 6); ("https://a.test/leaf", 1)] |}.

Example hints_of_feedback :
  match V2.plan offline hash (Some (feedback "https://c.test/new")) job_request with
  | Ok d => map (fun h => (ph_match_value h, ph_priority_delta h)) (pd_frontier_priority_hints d) =
      [("c.test", V2._REDIRECT_DELTA); ("https://a.test/p", V2._CANONICAL_DELTA); ("https://a.test/list", V2._HUB_DELTA)]
  | Raise _ => False
  end.
Proof. vm_compute. reflexivity. Qed.

(** A redirect to an IPv6 host, or to a URL without a host, makes the planner
    raise: the host is no host glob. *)
Example ipv6_redirect_stops_planning : map (fun u => is_ok (V2.plan no_dns hash (Some (feedback u)) job_request)) ["http://[::1]/"; "http://:80/"] = [false; false] /\
  map (_is_http_url no_dns) ["http://[::1]/"; "http://:80/"] = [Ok true; Ok true].
Proof. vm_compute. by split. Qed.

(** A model that proposes one seed. *)
Definition world : Type := list (LlmEvent LlmPlanProposal).
Definition logged {A} (ev : res A -> LlmEvent LlmPlanProposal) (r : res A) : M world A := fun w => (r, w ++ [ev r]).
Definition usage : TokenUsage := {| tu_prompt_tokens := 10; tu_completion_tokens := 5; tu_total_tokens := 15; tu_cached_input_tokens := 0; tu_reasoning_tokens := 0 |}.
Definition proposal : LlmPlanProposal := {| lp_planned_seeds := [{| ls_canonical_url := "https://a.test/"; ls_priority_score := 0.5; ls_adapter_hint := HTTP |}];
  lp_adapter_priors := [{| la_adapter_type := HTTP; la_weight := 1 |}]; lp_frontier_priority_hints := []; lp_extraction_strategy_refs := [];
  lp_rationale_summary := "one seed" |}.
#[global] Instance model : LlmPorts LlmPlanProposal world := {
  render_prompt _ _ := logged Rendered (Ok "plan this"); estimate_request _ := logged Estimated (Ok tt);
  complete r := logged (Completed r) (Ok {| ls_id := "response:1"; ls_usage := usage; ls_parsed_output := Some proposal; ls_raw_response_ref := Some "raw:1" |});
  charge_usage u ref := logged (Charged u ref) (Ok tt) }.
#[global] Instance model_laws : LlmLaws LlmPlanProposal world (fun w => w).
Proof. by split. Qed.
Definition config : Llm.Config := {| Llm.prompt_template_ref := "planner/plan.v1"; Llm.model_name := "large"; Llm.max_output_tokens := 100;
  Llm.temperature := 0; Llm.adapter_ref := "adapter:llm-crawl-planner:v1" |}.
Definition planned := Llm.plan offline Some config (fun _ => "http") (fun _ => "url_prefix") job_request ([] : world).
Example planned_and_charged : is_ok planned.1 = true /\ length planned.2 = 4%nat.
Proof. vm_compute. by split. Qed.

(** With two models in the price table the budget cannot tell the model of the
    planner's request from its reference: the answer is billed and not charged. *)
Definition two_models : ProviderPriceTable := {| pt_version := "1";
  pt_prices := [("large", [("input_per_1k", PvFloat 1); ("output_per_1k", PvFloat 1)]); ("small", [("input_per_1k", PvFloat 1); ("output_per_1k", PvFloat 1)])] |}.
Definition budget : BudgetConfig := {|
  bc_budget := {| tb_id := "b"; tb_run_ref := "run:1"; tb_max_input_tokens := None; tb_max_output_tokens := None; tb_max_total_tokens := Some 1000; tb_max_cost_usd := None; tb_created_at := 0 |};
  bc_price_table := two_models; bc_run_ref := "run:1"; bc_command_result_ref := "c"; bc_event_ref := "e"; bc_production := false |}.
Example charge_cannot_name_model : charge_event budget usage ("provider-request:" +:+ pq_id job_request) {| dr_uuid_hex := "0"; dr_event_at := 0; dr_outbox_at := 0 |} =
  Raise (ValueError "could not infer model_name from request_ref").
Proof. vm_compute. reflexivity. Qed.
End PlannerDemo.

Lemma planners_agree_witness : is_ok (V1.plan offline PlannerDemo.job_request) = true /\
  same_view (decision_view V1.ADAPTER_REF) (decision_view V2.ADAPTER_REF) (V1.plan offline PlannerDemo.job_request) (V2.plan offline PlannerDemo.hash None PlannerDemo.job_request).
Proof. split; [vm_compute; reflexivity|]. apply planners_agree. rewrite !Forall_cons. split_and!; done. Defined.

Lemma observations_steer_frontier_witness : exists fb d, derive_planner_observation_feedback offline "fb:1" "run:1" PlannerDemo.taken = Ok fb /\
  V2.plan offline PlannerDemo.hash (Some fb) PlannerDemo.job_request = Ok d /\
  map ps_canonical_url (pd_planned_seeds d) = ["https://a.test/"; "https://b.test/"] /\ "fb:1" ∈ pd_replay_refs d /\
  exists h, h ∈ pd_frontier_priority_hints d /\ hint_matches "https://a.test/list/2" "a.test" h = true.
Proof.
  destruct (observations_steer_frontier offline PlannerDemo.hash "run:1" PlannerDemo.observer PlannerDemo.seen "snap:1" PlannerDemo.noon PlannerDemo.taken "fb:1" PlannerDemo.job_request)
    as (fb & Hfb & Htotal & Hd); [reflexivity|repeat constructor; vm_compute; reflexivity|vm_compute; reflexivity|reflexivity|].
  assert (exists d0, V2.plan offline PlannerDemo.hash None PlannerDemo.job_request = Ok d0) as [d0 H0] by (eexists; vm_compute; reflexivity).
  destruct (Htotal d0 H0) as [d Hplan]; [reflexivity|left| |].
  { intros e He. exists "c.test". vm_compute in He. apply list_elem_of_singleton in He as ->. split_and!; vm_compute; reflexivity. }
  exists fb, d. split; [exact Hfb|]. split; [exact Hplan|]. destruct (Hd d Hplan) as (H1 & H2 & _ & _ & H3). split; [exact H1|]. split; [exact H2|].
  destruct (H3 [] PlannerDemo.page [] eq_refl) as (h & Hh & _ & Hm); [constructor|discriminate|].
  exists h. split; [exact Hh|]. exact (Hm "/2" "a.test").
Defined.

Lemma llm_plan_is_charged_witness : exists t, PlannerDemo.planned.2 = [] ++ t /\ plan_calls t.
Proof.
  destruct (llm_plan_is_charged (fun w : PlannerDemo.world => w) offline Some PlannerDemo.config (fun _ => "http") (fun _ => "url_prefix") PlannerDemo.job_request []) as (t & Ht & Hc & _).
  exists t. split; [exact Ht|exact Hc].
Defined.
