(* ===== verification/ModelProviders.v ===== *)
(** * The model providers

    [adapters/model_providers/anthropic_messages.py] and
    [openai_responses_v2.py], the adapters of the provider port; what they share
    is written once, in [Adapter], with a [Provider] for what differs: the body
    sent, the text, usage and finish reason read from an answer. Also
    [_artifact_persist.py], [replaying_model_provider.py], the contracts of
    [contracts/llm_input.py] and the messages of [contracts/agent.py], and the
    classification of errors in [contracts/errors.py]. httpx, the clocks, the
    jitter and the artifact store are ports; [json.loads] is a parameter. Header
    values are ASCII. The theorems are in [ProviderLaws]. *)
From Stdlib Require Import Floats Ascii.
From S2P Require Import Prelude PyDict PyStr PyTime PyFloat Contracts Budget CrawlContracts.
Local Open Scope Z_scope.

(** A JSON value, an [object] by its items with distinct keys. *)
Inductive JsonValue :=
  | JNull | JBool (b : bool) | JInt (n : Z) | JFloat (x : float) | JStr (s : string) | JList (l : list JsonValue) | JDict (d : list (string * JsonValue)).
Definition json_get (d : dict string JsonValue) (key : string) : JsonValue := dict_get_or d key JNull.

(** ** Contracts *)

Inductive MessageRole := SYSTEM | USER | ASSISTANT | TOOL.
Inductive ResponseFormatKind := TEXT | JSON_OBJECT | JSON_SCHEMA.
Inductive ProviderFinishReason := STOP | LENGTH | TOOL_CALL | CONTENT_FILTER | ERROR.
Inductive ProviderArtifactPersistencePolicy := PERSIST_ALL | PERSIST_NONE | PERSIST_NON_SECRET.
Inductive ModelCapability := STRUCTURED_OUTPUT_JSON_SCHEMA | TOOL_CALLS | VISION | EXTENDED_THINKING.
#[export] Instance MessageRole_eq_dec : EqDecision MessageRole.
Proof. solve_decision. Defined.
#[export] Instance ResponseFormatKind_eq_dec : EqDecision ResponseFormatKind.
Proof. solve_decision. Defined.
#[export] Instance ProviderFinishReason_eq_dec : EqDecision ProviderFinishReason.
Proof. solve_decision. Defined.
#[export] Instance ProviderArtifactPersistencePolicy_eq_dec : EqDecision ProviderArtifactPersistencePolicy.
Proof. solve_decision. Defined.
#[export] Instance ModelCapability_eq_dec : EqDecision ModelCapability.
Proof. solve_decision. Defined.

Record ToolCall := { tc_id : string; tc_name : string; tc_arguments : dict string JsonValue }.
Definition validate_tool_call (c : ToolCall) : res ToolCall :=
  do? guard (truthy_str (strip (tc_id c))) (ValidationError "tool call id must be non-blank") in
  do? guard (truthy_str (strip (tc_name c))) (ValidationError "tool call name must be non-blank") in
  Ok c.

Record Message := {
  ms_role : MessageRole;
  ms_content : string;
  ms_name : option string;
  ms_tool_call_id : option string;
  ms_tool_calls : list ToolCall }.
Definition nonblank_opt (o : option string) : bool := if o is Some s then truthy_str (strip s) else false.
Definition absent {A} (o : option A) : bool := if o is None then true else false.
Definition validate_message (m : Message) : res Message :=
  match ms_role m with
  | TOOL =>
      do? guard (nonblank_opt (ms_tool_call_id m)) (ValidationError "tool-role message requires non-blank tool_call_id") in
      do? guard (nonblank_opt (ms_name m)) (ValidationError "tool-role message requires non-blank name") in
      do? guard (negb (truthy_list (ms_tool_calls m))) (ValidationError "tool-role message must not carry tool_calls") in
      Ok m
  | ASSISTANT =>
      do? guard (absent (ms_tool_call_id m)) (ValidationError "assistant message must not set tool_call_id") in
      do? guard (truthy_list (ms_tool_calls m) || truthy_str (ms_content m))
            (ValidationError "assistant message requires content unless tool_calls is non-empty") in
      Ok m
  | USER | SYSTEM =>
      do? guard (absent (ms_tool_call_id m)) (ValidationError "message must not set tool_call_id") in
      do? guard (negb (truthy_list (ms_tool_calls m))) (ValidationError "message must not carry tool_calls") in
      Ok m
  end.

Record ToolSpec := { ts_name : string; ts_description : string; ts_parameters_schema : dict string JsonValue; ts_strict : bool }.
Definition validate_tool_spec (s : ToolSpec) : res ToolSpec :=
  do? guard (truthy_str (strip (ts_name s))) (ValidationError "tool spec name must be non-blank") in
  do? guard (truthy_str (strip (ts_description s))) (ValidationError "tool spec description must be non-blank") in
  do? guard (dict_mem (ts_parameters_schema s) "type") (ValidationError "tool spec parameters_schema must declare a JSON Schema 'type'") in
  Ok s.

Record ResponseFormat := { rf_kind : ResponseFormatKind; rf_schema_name : option string; rf_json_schema : option (dict string JsonValue); rf_strict : bool }.
Definition validate_response_format (f : ResponseFormat) : res ResponseFormat :=
  match rf_kind f with
  | JSON_SCHEMA =>
      do? guard (nonblank_opt (rf_schema_name f)) (ValidationError "json_schema response format requires non-blank schema_name") in
      do? guard (negb (absent (rf_json_schema f))) (ValidationError "json_schema response format requires json_schema") in
      Ok f
  | _ =>
      do? guard (absent (rf_json_schema f)) (ValidationError "response format must not carry json_schema") in
      do? guard (absent (rf_schema_name f)) (ValidationError "response format must not carry schema_name") in
      do? guard (negb (rf_strict f)) (ValidationError "response format must not set strict=True") in
      Ok f
  end.

Record Anchor := { an_id : string; an_selector : option string; an_excerpt : string; an_screenshot_region_ref : option Ref }.
Definition validate_anchor (a : Anchor) : res Anchor :=
  do? ensure_non_blank ValidationError "anchor.id" (an_id a) in
  do? guard (non_blank (an_excerpt a)) (ValidationError "anchor excerpt must be non-blank") in
  do? guard (absent (an_selector a) || nonblank_opt (an_selector a))
        (ValidationError "anchor selector must be non-blank when present (use None to omit)") in
  Ok a.

Record ProviderRequest := {
  rq_id : string;
  rq_run_ref : Ref;
  rq_model_name : string;
  rq_messages : list Message;
  rq_tools : list ToolSpec;
  rq_response_format : ResponseFormat;
  rq_max_output_tokens : Z;
  rq_temperature : float;
  rq_anchors : list Anchor }.
Definition validate_request (r : ProviderRequest) : res ProviderRequest :=
  do? ensure_non_blank ValidationError "provider request id" (rq_id r) in
  do? ensure_non_blank ValidationError "provider request run_ref" (rq_run_ref r) in
  do? ensure_non_blank ValidationError "provider request model_name" (rq_model_name r) in
  do? guard (1 <=? rq_max_output_tokens r) (ValidationError "max_output_tokens must be positive") in
  do? guard (isfinite (rq_temperature r)) (ValidationError "temperature must be a finite number") in
  do? guard (PrimFloat.leb 0 (rq_temperature r) && PrimFloat.leb (rq_temperature r) 2) (ValidationError "temperature must be in [0.0, 2.0]") in
  do? guard (truthy_list (rq_messages r)) (ValidationError "provider request requires at least one message") in
  do? guard (bool_decide (NoDup (map an_id (rq_anchors r)))) (ValidationError "anchor IDs must be unique within a provider request") in
  Ok r.

Record ProviderResponse := {
  rs_id : string;
  rs_request_ref : Ref;
  rs_text : string;
  rs_usage : TokenUsage;
  rs_finish_reason : ProviderFinishReason;
  rs_parsed_output : option (dict string JsonValue);
  rs_raw_response_ref : option Ref;
  rs_tool_calls : list ToolCall }.
(** The finish reasons with which no structured output goes. *)
Definition unparsed (r : ProviderFinishReason) : bool := bool_decide (r ∈ [CONTENT_FILTER; ERROR; LENGTH]).
Definition validate_response (r : ProviderResponse) : res ProviderResponse :=
  do? ensure_non_blank ValidationError "provider response id" (rs_id r) in
  do? ensure_non_blank ValidationError "provider response request_ref" (rs_request_ref r) in
  do? guard (negb (bool_decide (rs_finish_reason r = STOP) && negb (truthy_str (strip (rs_text r)))))
        (ValidationError "provider response text must be non-empty (and not whitespace-only) when finish_reason is STOP") in
  do? (if truthy_list (rs_tool_calls r) then
         do? guard (bool_decide (rs_finish_reason r = TOOL_CALL)) (ValidationError "tool_calls populated; expected TOOL_CALL") in
         guard (bool_decide (NoDup (map tc_id (rs_tool_calls r)))) (ValidationError "tool_calls ids must be unique within a response")
       else Ok tt) in
  do? (if rs_parsed_output r is Some _ then
         do? guard (negb (unparsed (rs_finish_reason r))) (ValidationError "parsed_output is not meaningful when finish_reason is this") in
         guard (truthy_str (strip (rs_text r)) || nonblank_opt (rs_raw_response_ref r))
           (ValidationError "parsed_output requires either non-blank text or a non-blank raw_response_ref as provenance")
       else Ok tt) in
  Ok r.

(** ** Errors *)

(** [classify_provider_error]; the two policy errors carry no fields here. *)
Definition classify_provider_error (status_code : Z) (error_code : string) (request_id : option string) : exn :=
  let error class := ModelProviderError class status_code error_code request_id in
  default (error ProviderAdapterFailure) (dict_get
    [("AUTH_FAILED", error ProviderAuthFailed); ("RATE_LIMITED", error ProviderRateLimited); ("SERVER_ERROR", error ProviderServerError);
     ("BAD_REQUEST", error ProviderBadRequest); ("NOT_FOUND", error ProviderNotFound); ("ADAPTER_FAILURE", error ProviderAdapterFailure);
     ("TOKEN_BUDGET_EXCEEDED", TokenBudgetExceeded); ("STRUCTURED_OUTPUT_VIOLATION", StructuredOutputViolation)] error_code).

Definition classify_provider_status (status : Z) : string :=
  if bool_decide (status ∈ [401; 403]) then "AUTH_FAILED"
  else if status =? 429 then "RATE_LIMITED"
  else if status =? 404 then "NOT_FOUND"
  else if bool_decide (status ∈ [400; 422]) then "BAD_REQUEST"
  else if (500 <=? status) && (status <? 600) then "SERVER_ERROR"
  else "ADAPTER_FAILURE".

(** [ProviderAdapterFailure(status_code=status, error_code="ADAPTER_FAILURE", request_id=None)] *)
Definition adapter_failure (status : Z) : exn := ModelProviderError ProviderAdapterFailure status "ADAPTER_FAILURE" None.

(** ** The ports *)

(** An answer of httpx: the headers by lowercase name, the body in full. *)
Record HttpResponse := { hr_status_code : Z; hr_headers : dict string string; hr_content : string }.
Definition is_success (r : HttpResponse) : bool := (200 <=? hr_status_code r) && (hr_status_code r <=? 299).

(** The classes of [httpx.HTTPError], those that are retried apart. *)
Inductive HttpxError := ConnectError | ConnectTimeout | ReadTimeout | PoolTimeout | OtherHTTPError (class : string).

Class ProviderPorts (E : Type) := {
  post : string -> JsonValue -> list (string * string) -> M E (HttpResponse + HttpxError);
  sleep : float -> M E unit;
  jitter : M E float;
  utc_now : M E Z;
  utc_clock : M E clock_value;
  write_artifact : string -> list (string * JsonValue) -> M E Ref }.

(** ** What the two adapters share *)

Definition _coerce_non_negative_int (value : JsonValue) : option Z :=
  match value with JInt n => if n <? 0 then None else Some n | _ => None end.
Definition _coerce_optional_subtotal (value : JsonValue) : Z := default 0 (_coerce_non_negative_int value).

(** [request_id] of the headers, when it is there and not empty. *)
Definition _request_id_from (header : string) (headers : dict string string) : option string :=
  match dict_get headers header with Some value => if truthy_str value then Some value else None | None => None end.

Definition _is_retryable_transport (exc : HttpxError) : bool := if exc is OtherHTTPError _ then false else true.

(** What a provider has of its own. *)
Record Provider := {
  pv_artifact_name : string;
  pv_fallback_prefix : string;
  pv_request_id_header : string;
  pv_retryable_statuses : list Z;
  pv_headers : string -> list (string * string);
  pv_request_body : ProviderRequest -> res JsonValue;
  pv_output_text : dict string JsonValue -> res string;
  pv_usage : dict string JsonValue -> res TokenUsage;
  pv_finish_reason : dict string JsonValue -> ProviderFinishReason }.

(** The attributes that the constructor fixes, and those that a call sets. *)
Record ProviderConfig := {
  cf_api_key : string;
  cf_endpoint : string;
  cf_max_attempts : Z;
  cf_artifact_store : bool;
  cf_persistence_policy : ProviderArtifactPersistencePolicy }.
Record Stash := { st_last_raw_bytes : string; st_last_response_headers : dict string string }.
Definition no_stash : Stash := {| st_last_raw_bytes := ""; st_last_response_headers := [] |}.

Inductive RuntimeMode := FIXTURE | PRODUCTION.
Inductive Transport := MockTransport | HTTPTransport | OtherTransport.

(** [__init__]: the configuration and the transport of its client. *)
Definition new_provider (runtime_mode : option RuntimeMode) (current_mode : res RuntimeMode) (transport : option Transport) (cfg : ProviderConfig)
    : res (ProviderConfig * Transport) :=
  let? effective_mode := (if runtime_mode is Some mode then Ok mode else current_mode) in
  do? guard (non_blank (cf_api_key cfg)) (ValueError "requires a non-blank api_key") in
  do? guard (1 <=? cf_max_attempts cfg) (ValueError "max_attempts must be >= 1") in
  match effective_mode, transport with
  | FIXTURE, None => Raise (ValueError "in FIXTURE mode requires an explicit httpx.MockTransport")
  | FIXTURE, Some MockTransport => Ok (cfg, MockTransport)
  | FIXTURE, Some _ => Raise (ValueError "in FIXTURE mode only accepts httpx.MockTransport")
  | PRODUCTION, None => Ok (cfg, HTTPTransport)
  | PRODUCTION, Some transport => Ok (cfg, transport)
  end.

Definition _SUPPORTED_CAPABILITIES : list ModelCapability := [].
Definition supports (capability : ModelCapability) : bool := bool_decide (capability ∈ _SUPPORTED_CAPABILITIES).

(** [persist_provider_response] *)
Definition persist_provider_response {E} `{ProviderPorts E} (raw_bytes provider_name request_id upstream_id : string) (captured_at : clock_value)
    : M E Ref :=
  do* lift (guard (non_blank request_id) (ValueError "request_id must be non-blank")) in
  do* lift (guard (non_blank upstream_id) (ValueError "upstream_id must be non-blank")) in
  do* lift (guard (non_blank provider_name) (ValueError "provider_name must be non-blank")) in
  do* lift (guard (bool_decide (cv_offset captured_at = Some 0)) (ValueError "captured_at must be UTC")) in
  write_artifact raw_bytes
    [("provider", JStr provider_name); ("request_id", JStr request_id); ("upstream_id", JStr upstream_id);
     ("captured_at", JStr (isoformat (cv_us captured_at))); ("bytes_len", JInt (Z.of_nat (String.length raw_bytes)))].

Section Adapter.
(** [parsedate s]: the date of [parsedate_to_datetime(s)] in microseconds, a
    naive one taken as UTC; [None] when it raises. [json_loads]: of a text, and
    of the body of a response. *)
Context {E : Type} `{ProviderPorts E} (parsedate : string -> option Z) (json_loads response_json : string -> res JsonValue).
Context (p : Provider) (cfg : ProviderConfig).
#[local] Abbreviation Mp := (M (Stash * E)).

(** [(when - now).total_seconds()], not below [0.0]. *)
Definition delta_seconds (at_us now : Z) : res float := if at_us <=? now then Ok 0%float else int_truediv (at_us - now) 1000000.

Definition _parse_retry_after (value : option string) : M E (option float) :=
  match value with
  | None => ret None
  | Some value =>
      if negb (truthy_str value) then ret None
      else let raw := strip value in
        if isdigit raw then ret (Some (float_of_digits (int_of_digits raw)))
        else match parsedate raw with
             | None => ret None
             | Some at_us => let* now := utc_now in let* delta := lift (delta_seconds at_us now) in ret (Some delta)
             end
  end.

(** [min(2 ** (attempt - 1), 30.0)] *)
Definition backoff_base (attempt : Z) : res float := let n := 2 ^ (attempt - 1) in if 30 <? n then Ok 30%float else float_of_int n.
Definition _backoff_seconds (attempt : Z) : M E float :=
  let* base := lift (backoff_base attempt) in
  let* j := jitter in
  ret (base + j)%float.

Definition _RETRY_AFTER_CAP_S : float := 60.

(** The pause before the next attempt, after an answer that asks for one. *)
Definition pause_seconds (attempt : Z) (r : HttpResponse) : M E float :=
  let* retry_after := _parse_retry_after (dict_get (hr_headers r) "retry-after") in
  let* wait := (if retry_after is Some wait then ret wait else _backoff_seconds attempt) in
  ret (py_min wait _RETRY_AFTER_CAP_S).

(** The end of the retries: the last response that was to be retried, if any. *)
Definition exhausted (last_response : option HttpResponse) : exn :=
  match last_response with
  | Some r => classify_provider_error (hr_status_code r) (classify_provider_status (hr_status_code r))
                (_request_id_from (pv_request_id_header p) (hr_headers r))
  | None => classify_provider_error 0 "ADAPTER_FAILURE" None
  end.

(** A response that is not retried. *)
Definition settle_response (r : HttpResponse) : Mp (dict string JsonValue) :=
  let request_id := _request_id_from (pv_request_id_header p) (hr_headers r) in
  if is_success r then
    let failure := classify_provider_error (hr_status_code r) "ADAPTER_FAILURE" request_id in
    let* data := lift (match response_json (hr_content r) with Raise JSONDecodeError => Raise failure | d => d end) in
    match data with
    | JDict d => do* on_object (fun _ => {| st_last_raw_bytes := hr_content r; st_last_response_headers := hr_headers r |}) in ret d
    | _ => raise failure
    end
  else raise (classify_provider_error (hr_status_code r) (classify_provider_status (hr_status_code r)) request_id).

(** The loop over the attempts that are left. *)
Fixpoint post_attempts (body : JsonValue) (attempts : list Z) (last_response : option HttpResponse) : Mp (dict string JsonValue) :=
  match attempts with
  | [] => raise (exhausted last_response)
  | attempt :: attempts =>
      let* outcome := on_world (post (cf_endpoint cfg) body (pv_headers p (cf_api_key cfg))) in
      match outcome with
      | inr exc =>
          if (cf_max_attempts cfg <=? attempt) || negb (_is_retryable_transport exc) then raise (classify_provider_error 0 "ADAPTER_FAILURE" None)
          else let* seconds := on_world (_backoff_seconds attempt) in
            do* on_world (sleep seconds) in
            post_attempts body attempts last_response
      | inl r =>
          if bool_decide (hr_status_code r ∈ pv_retryable_statuses p) then
            if cf_max_attempts cfg <=? attempt then raise (exhausted (Some r))
            else let* seconds := on_world (pause_seconds attempt r) in
              do* on_world (sleep seconds) in
              post_attempts body attempts (Some r)
          else settle_response r
      end
  end.
Definition _post_with_retry (body : JsonValue) : Mp (dict string JsonValue) := post_attempts body (seqZ 1 (cf_max_attempts cfg)) None.

Definition _maybe_parse_structured_output (request : ProviderRequest) (text : string) (finish_reason : ProviderFinishReason)
    : res (option (dict string JsonValue)) :=
  if negb (bool_decide (rf_kind (rq_response_format request) = JSON_OBJECT)) then Ok None
  else if unparsed finish_reason then Ok None
  else if negb (truthy_str (strip text)) then Ok None
  else match json_loads text with
       | Raise JSONDecodeError => Raise StructuredOutputViolation
       | Raise e => Raise e
       | Ok (JDict parsed) => Ok (Some parsed)
       | Ok _ => Raise StructuredOutputViolation
       end.

(** Whether the policy lets a body with these headers be stored. *)
Definition persistable (headers : dict string string) : bool :=
  cf_artifact_store cfg &&
  match cf_persistence_policy cfg with
  | PERSIST_NONE => false
  | PERSIST_NON_SECRET => negb (bool_decide (lower (dict_get_or headers "x-veracrawl-secret" "") = "true"))
  | PERSIST_ALL => true
  end.
Definition _persist_if_allowed (request : ProviderRequest) (upstream_id : string) : Mp (option Ref) :=
  let* stash := gets fst in
  if negb (persistable (st_last_response_headers stash)) then ret None
  else let* captured_at := on_world utc_clock in
    let* ref := on_world (persist_provider_response (st_last_raw_bytes stash) (pv_artifact_name p) (rq_id request) upstream_id captured_at) in
    ret (Some ref).

Definition response_id_of (request : ProviderRequest) (data : dict string JsonValue) : string :=
  match json_get data "id" with
  | JStr id => if truthy_str (strip id) then strip id else pv_fallback_prefix p +:+ ":" +:+ rq_id request
  | _ => pv_fallback_prefix p +:+ ":" +:+ rq_id request
  end.

Definition complete (request : ProviderRequest) : Mp ProviderResponse :=
  do* on_object (fun _ => no_stash) in
  do* lift (guard (negb (truthy_list (rq_tools request))) NotImplementedError) in
  do* lift (guard (forallb (fun m => negb (bool_decide (ms_role m = TOOL))) (rq_messages request)) NotImplementedError) in
  do* lift (guard (negb (bool_decide (rf_kind (rq_response_format request) = JSON_SCHEMA))) NotImplementedError) in
  let* body := lift (pv_request_body p request) in
  let* response_data := _post_with_retry body in
  let* text := lift (pv_output_text p response_data) in
  let* usage := lift (pv_usage p response_data) in
  let finish_reason := pv_finish_reason p response_data in
  let* parsed_output := lift (_maybe_parse_structured_output request text finish_reason) in
  let response_id := response_id_of request response_data in
  let* raw_response_ref := _persist_if_allowed request response_id in
  match validate_response
    {| rs_id := response_id; rs_request_ref := rq_id request; rs_text := text; rs_usage := usage; rs_finish_reason := finish_reason;
       rs_parsed_output := parsed_output; rs_raw_response_ref := raw_response_ref; rs_tool_calls := [] |} with
  | Ok response => ret response
  | Raise e => raise (if subclass_value_error e then adapter_failure 200 else e)
  end.
End Adapter.

(** The two subtotal checks and the construction of a [TokenUsage]. *)
Definition usage_dict (response : dict string JsonValue) : res (dict string JsonValue) :=
  match json_get response "usage" with JDict usage_raw => Ok usage_raw | _ => Raise (adapter_failure 200) end.
Definition required_count (usage_raw : dict string JsonValue) (key : string) : res Z :=
  match _coerce_non_negative_int (json_get usage_raw key) with Some n => Ok n | None => Raise (adapter_failure 200) end.

(** ** Anthropic Messages *)

Module Anthropic.
Definition _MESSAGES_ENDPOINT : string := "https://api.anthropic.com/v1/messages".

(** The loop of [_split_leading_system_messages]. *)
Fixpoint split_messages (messages : list Message) (system_chunks : list string) (rest : list Message) : res (list string * list Message) :=
  match messages with
  | [] => Ok (system_chunks, rest)
  | message :: messages =>
      if decide (ms_role message = SYSTEM) then
        (if truthy_list rest then Raise (adapter_failure 0) else split_messages messages (system_chunks ++ [ms_content message]) rest)
      else split_messages messages system_chunks (rest ++ [message])
  end.
Definition nl : string := String "010"%char "".
Definition _split_leading_system_messages (messages : list Message) : res (option string * list Message) :=
  let? (system_chunks, rest) := split_messages messages [] [] in
  Ok (if truthy_list system_chunks then Some (join (nl +:+ nl) system_chunks) else None, rest).

Definition _message_to_anthropic (message : Message) : res JsonValue :=
  match ms_role message with
  | USER => Ok (JDict [("role", JStr "user"); ("content", JStr (ms_content message))])
  | ASSISTANT => Ok (JDict [("role", JStr "assistant"); ("content", JStr (ms_content message))])
  | SYSTEM => Raise (KeyError "system")
  | TOOL => Raise (KeyError "tool")
  end.

(** One turn of the loop of [_coalesce_same_role_runs]. *)
Definition coalesce_message (coalesced : list Message) (message : Message) : res (list Message) :=
  match last coalesced with
  | Some previous =>
      if bool_decide (ms_role previous = ms_role message) && bool_decide (ms_role message ∈ [USER; ASSISTANT]) then
        let? merged := validate_message {| ms_role := ms_role previous; ms_content := ms_content previous +:+ nl +:+ ms_content message;
          ms_name := None; ms_tool_call_id := None; ms_tool_calls := [] |} in
        Ok (removelast coalesced ++ [merged])
      else Ok (coalesced ++ [message])
  | None => Ok (coalesced ++ [message])
  end.
Fixpoint coalesce_from (coalesced messages : list Message) : res (list Message) :=
  match messages with
  | [] => Ok coalesced
  | message :: messages => let? coalesced := coalesce_message coalesced message in coalesce_from coalesced messages
  end.
Definition _coalesce_same_role_runs (messages : list Message) : res (list Message) := coalesce_from [] messages.

Fixpoint wire_messages (messages : list Message) : res (list JsonValue) :=
  match messages with
  | [] => Ok []
  | m :: messages => let? j := _message_to_anthropic m in let? js := wire_messages messages in Ok (j :: js)
  end.

Definition _build_request_body (request : ProviderRequest) : res JsonValue :=
  let? (system_prompt, rest) := _split_leading_system_messages (rq_messages request) in
  let? rest_coalesced := _coalesce_same_role_runs rest in
  let? messages := wire_messages rest_coalesced in
  Ok (JDict ([("model", JStr (rq_model_name request)); ("messages", JList messages); ("max_tokens", JInt (rq_max_output_tokens request));
              ("temperature", JFloat (rq_temperature request))]
             ++ (if system_prompt is Some system_prompt then [("system", JStr system_prompt)] else []))).

(** The text of a block, when it is a text block. *)
Definition block_text (block : JsonValue) : option string :=
  match block with
  | JDict block => match json_get block "type", json_get block "text" with JStr t, JStr text => if decide (t = "text") then Some text else None | _, _ => None end
  | _ => None
  end.
Definition _extract_output_text (response : dict string JsonValue) : string :=
  match json_get response "content" with JList content => join nl (omap block_text content) | _ => "" end.

Definition _extract_usage (response : dict string JsonValue) : res TokenUsage :=
  let? usage_raw := usage_dict response in
  let? prompt := required_count usage_raw "input_tokens" in
  let? completion := required_count usage_raw "output_tokens" in
  let cached_input := _coerce_optional_subtotal (json_get usage_raw "cache_read_input_tokens") in
  do? guard (cached_input <=? prompt) (adapter_failure 200) in
  validate_token_usage {| tu_prompt_tokens := prompt; tu_completion_tokens := completion; tu_total_tokens := prompt + completion;
    tu_cached_input_tokens := cached_input; tu_reasoning_tokens := 0 |}.

Definition _FINISH_REASON_MAP : dict string ProviderFinishReason :=
  [("end_turn", STOP); ("max_tokens", LENGTH); ("stop_sequence", STOP); ("tool_use", TOOL_CALL)].
Definition _map_finish_reason (stop_reason : JsonValue) : ProviderFinishReason :=
  match stop_reason with JStr s => dict_get_or _FINISH_REASON_MAP (lower s) ERROR | _ => ERROR end.

Definition provider : Provider := {|
  pv_artifact_name := "anthropic-messages-v2"; pv_fallback_prefix := "anthropic-msg"; pv_request_id_header := "request-id";
  pv_retryable_statuses := [429; 500; 502; 503; 504; 529];
  pv_headers api_key := [("x-api-key", api_key); ("anthropic-version", "2023-06-01"); ("content-type", "application/json")];
  pv_request_body := _build_request_body;
  pv_output_text d := Ok (_extract_output_text d);
  pv_usage := _extract_usage;
  pv_finish_reason d := _map_finish_reason (json_get d "stop_reason") |}.

Definition _post_with_retry {E} `{ProviderPorts E} parsedate response_json cfg := _post_with_retry parsedate response_json provider cfg.
Definition complete {E} `{ProviderPorts E} parsedate json_loads response_json cfg := complete parsedate json_loads response_json provider cfg.
End Anthropic.

(** ** OpenAI Responses *)

Module OpenAI.
Definition _RESPONSES_ENDPOINT : string := "https://api.openai.com/v1/responses".

Definition role_name (role : MessageRole) : string :=
  match role with SYSTEM => "developer" | USER => "user" | ASSISTANT => "assistant" | TOOL => "tool" end.
Definition _message_to_input (message : Message) : JsonValue :=
  JDict ([("role", JStr (role_name (ms_role message))); ("content", JStr (ms_content message))]
         ++ (if ms_tool_call_id message is Some id then [("tool_call_id", JStr id)] else [])).

Definition text_format (f : ResponseFormat) : list (string * JsonValue) :=
  match rf_kind f with
  | JSON_SCHEMA =>
      [("text", JDict [("format", JDict [("type", JStr "json_schema");
         ("name", if rf_schema_name f is Some name then JStr name else JNull);
         ("schema", if rf_json_schema f is Some schema then JDict schema else JNull); ("strict", JBool (rf_strict f))])])]
  | JSON_OBJECT => [("text", JDict [("format", JDict [("type", JStr "json_object")])])]
  | TEXT => []
  end.
Definition _build_request_body (request : ProviderRequest) : JsonValue :=
  JDict ([("model", JStr (rq_model_name request)); ("input", JList (map _message_to_input (rq_messages request)));
          ("max_output_tokens", JInt (rq_max_output_tokens request)); ("temperature", JFloat (rq_temperature request))]
         ++ text_format (rq_response_format request)).

(** [for item in value]: the items, of which those that are no dicts are
    skipped by the loops; keys and characters never are. *)
Definition iter_json (value : JsonValue) : res (list JsonValue) :=
  match value with
  | JList l => Ok l
  | JDict d => Ok (map (fun kv => JStr kv.1) d)
  | JStr s => Ok (map (fun c => JStr (String c "")) (String.list_ascii_of_string s))
  | JNull | JBool _ | JInt _ | JFloat _ => Raise (TypeError "object is not iterable")
  end.
Definition content_text (content : JsonValue) : option string :=
  match content with
  | JDict content =>
      match json_get content "type", json_get content "text" with JStr t, JStr text => if decide (t = "output_text") then Some text else None | _, _ => None end
  | _ => None
  end.
Fixpoint item_texts (items : list JsonValue) : res (list string) :=
  match items with
  | [] => Ok []
  | JDict item :: items =>
      let? contents := iter_json (dict_get_or item "content" (JList [])) in
      let? texts := item_texts items in
      Ok (omap content_text contents ++ texts)
  | _ :: items => item_texts items
  end.
Definition _extract_output_text (response : dict string JsonValue) : res string :=
  let? items := iter_json (dict_get_or response "output" (JList [])) in
  let? texts := item_texts items in
  Ok (join Anthropic.nl texts).

(** A subtotal inside an object of details. *)
Definition detail (usage_raw : dict string JsonValue) (details key : string) : Z :=
  match json_get usage_raw details with JDict d => _coerce_optional_subtotal (json_get d key) | _ => 0 end.
Definition _extract_usage (response : dict string JsonValue) : res TokenUsage :=
  let? usage_raw := usage_dict response in
  let? prompt := required_count usage_raw "input_tokens" in
  let? completion := required_count usage_raw "output_tokens" in
  let? total := (match _coerce_non_negative_int (dict_get_or usage_raw "total_tokens" (JInt (prompt + completion))) with
                 | Some n => Ok n | None => Raise (adapter_failure 200) end) in
  let cached_input := detail usage_raw "input_tokens_details" "cached_tokens" in
  let reasoning := detail usage_raw "output_tokens_details" "reasoning_tokens" in
  do? guard (total =? prompt + completion) (adapter_failure 200) in
  do? guard ((cached_input <=? prompt) && (reasoning <=? completion)) (adapter_failure 200) in
  validate_token_usage {| tu_prompt_tokens := prompt; tu_completion_tokens := completion; tu_total_tokens := total;
    tu_cached_input_tokens := cached_input; tu_reasoning_tokens := reasoning |}.

Definition _FINISH_REASON_MAP : dict string ProviderFinishReason :=
  [("completed", STOP); ("stop", STOP); ("max_output_tokens", LENGTH); ("length", LENGTH); ("tool_calls", TOOL_CALL); ("tool_use", TOOL_CALL);
   ("content_filter", CONTENT_FILTER); ("incomplete", LENGTH); ("failed", ERROR)].
(** [str] of a status that is no text is no key of the map. *)
Definition status_reason (status : JsonValue) : ProviderFinishReason :=
  match status with JStr s => dict_get_or _FINISH_REASON_MAP (lower s) STOP | _ => STOP end.
Definition _map_finish_reason (response : dict string JsonValue) : ProviderFinishReason :=
  let by_status := status_reason (dict_get_or response "status" (JStr "completed")) in
  match json_get response "incomplete_details" with
  | JDict d => match json_get d "reason" with JStr reason => dict_get_or _FINISH_REASON_MAP (lower reason) by_status | _ => by_status end
  | _ => by_status
  end.

Definition provider : Provider := {|
  pv_artifact_name := "openai-responses-v2"; pv_fallback_prefix := "openai-response"; pv_request_id_header := "x-request-id";
  pv_retryable_statuses := [429; 500; 502; 503; 504];
  pv_headers api_key := [("Authorization", "Bearer " +:+ api_key); ("Content-Type", "application/json")];
  pv_request_body q := Ok (_build_request_body q);
  pv_output_text := _extract_output_text;
  pv_usage := _extract_usage;
  pv_finish_reason := _map_finish_reason |}.

Definition _post_with_retry {E} `{ProviderPorts E} parsedate response_json cfg := _post_with_retry parsedate response_json provider cfg.
Definition complete {E} `{ProviderPorts E} parsedate json_loads response_json cfg := complete parsedate json_loads response_json provider cfg.
End OpenAI.

(** ** The replaying provider *)

Module Replay.
Record Replaying := {
  rp_canned : dict string ProviderResponse;
  rp_canned_by_raw_ref : dict Ref ProviderResponse;
  rp_artifact_store : bool;
  rp_replay_request_overrides : dict string Ref }.

(** [artifact_store.read(ref)], which raises [KeyError] for an unknown [ref]. *)
Definition read_back {E} (read : Ref -> M E string) (request_id : string) (ref : Ref) (response : ProviderResponse) : M E ProviderResponse :=
  let* bytes := attempt (read ref) in
  match bytes with
  | Ok _ => ret response
  | Raise (KeyError _) => raise (ReplayLookupMissError request_id)
  | Raise e => raise e
  end.

Definition complete {E} (read : Ref -> M E string) (rp : Replaying) (request : ProviderRequest) : M E ProviderResponse :=
  match dict_get (rp_canned rp) (rq_id request) with
  | Some response => ret response
  | None =>
      match rp_canned_by_raw_ref rp with
      | (ref, response) :: _ =>
          if rp_artifact_store rp then
            match dict_get (rp_replay_request_overrides rp) (rq_id request) with
            | Some override_ref =>
                match dict_get (rp_canned_by_raw_ref rp) override_ref with
                | None => raise (ReplayLookupMissError (rq_id request))
                | Some response => read_back read (rq_id request) override_ref response
                end
            | None => read_back read (rq_id request) ref response
            end
          else raise (ReplayLookupMissError (rq_id request))
      | [] => raise (ReplayLookupMissError (rq_id request))
      end
  end.

Definition supports (rp : Replaying) (capability : ModelCapability) : bool :=
  let values := dict_values (rp_canned rp) ++ dict_values (rp_canned_by_raw_ref rp) in
  match capability with
  | STRUCTURED_OUTPUT_JSON_SCHEMA => existsb (fun r => negb (absent (rs_parsed_output r))) values
  | TOOL_CALLS => existsb (fun r => truthy_list (rs_tool_calls r)) values
  | _ => false
  end.
End Replay.
