(* ===== verification/ProviderLaws.v ===== *)
(** * What a call of a model provider does

    Over ports that record their calls: a call follows the protocol of one
    exchange of bounded attempts and then at most one filing ([called]); what it
    raises is made of the adapter's own constants, the statuses and the request
    ids of the answers, or comes from a port or a decoder as it is ([cause]); and
    the turns sent to Anthropic alternate and keep every message. *)
From Stdlib Require Import Floats Ascii.
From S2P Require Import Prelude PyDict PyStr PyTime PyFloat Contracts Budget CrawlContracts Trace ModelProviders.
Local Open Scope Z_scope.

(** ** The turns sent to Anthropic *)

Definition is_system (m : Message) : bool := bool_decide (ms_role m = SYSTEM).
Definition speaker (m : Message) : bool := bool_decide (ms_role m ∈ [USER; ASSISTANT]).

(** A run of messages of one role, sent as one turn. *)
Definition turn_of (run : list Message) (role : MessageRole) : Prop := run <> [] /\ Forall (fun m => ms_role m = role) run.
Definition wire_turn (role : MessageRole) (contents : list string) : JsonValue :=
  JDict [("role", JStr (if decide (role = USER) then "user" else "assistant")); ("content", JStr (join Anthropic.nl contents))].

(** Adjacent turns have different roles. *)
Fixpoint alternating (roles : list MessageRole) : Prop :=
  match roles with
  | role :: ((role' :: _) as roles') => role <> role' /\ alternating roles'
  | _ => True
  end.

Lemma split_rest messages chunks rest : rest <> [] -> Anthropic.split_messages messages chunks rest =
  if existsb is_system messages then Raise (adapter_failure 0) else Ok (chunks, rest ++ messages).
Proof.
  revert rest. induction messages as [|m messages IH]; intros rest Hr; simpl; [by rewrite app_nil_r|].
  unfold is_system at 1. case_decide as Hm; [by rewrite bool_decide_true by done; destruct rest|].
  rewrite bool_decide_false, IH by (done || by destruct rest). simpl. by rewrite <-app_assoc.
Qed.
Lemma split_lead lead rest chunks : Forall (fun m => is_system m = true) lead -> existsb is_system rest = false ->
  Anthropic.split_messages (lead ++ rest) chunks [] = Ok (chunks ++ map ms_content lead, rest).
Proof.
  intros Hl Hr. revert chunks. induction Hl as [|m lead Hm Hl IH]; intros chunks; simpl.
  - destruct rest as [|m rest]; simpl in *; [by rewrite app_nil_r|]. apply orb_false_iff in Hr as [Hm Hr]. unfold is_system in Hm.
    apply bool_decide_eq_false in Hm. rewrite decide_False, split_rest by done. by rewrite Hr, app_nil_r.
  - unfold is_system in Hm. apply bool_decide_eq_true in Hm. rewrite decide_True, IH by done. by rewrite <-app_assoc.
Qed.
Lemma split_late lead m rest chunks : Forall (fun m => is_system m = true) lead -> is_system m = false -> existsb is_system rest = true ->
  Anthropic.split_messages (lead ++ m :: rest) chunks [] = Raise (adapter_failure 0).
Proof.
  intros Hl Hm Hr. revert chunks. induction Hl as [|m' lead Hm' Hl IH]; intros chunks; simpl.
  - unfold is_system in Hm. apply bool_decide_eq_false in Hm. rewrite decide_False, split_rest by done. by rewrite Hr.
  - unfold is_system in Hm'. apply bool_decide_eq_true in Hm'. by rewrite decide_True, IH.
Qed.
(** Every list of messages is of one of these shapes. *)
Lemma messages_cases messages : exists lead rest, messages = lead ++ rest /\ Forall (fun m => is_system m = true) lead /\
  (existsb is_system rest = false \/ exists m rest', rest = m :: rest' /\ is_system m = false /\ existsb is_system rest' = true).
Proof.
  induction messages as [|m messages IH]; [by exists [], []; split_and!; auto|]. destruct (is_system m) eqn:Hm.
  - destruct IH as (lead & rest & -> & Hl & Hr). exists (m :: lead), rest. split_and!; auto.
  - exists [], (m :: messages). split_and!; [done..|]. simpl. rewrite Hm. destruct (existsb is_system messages) eqn:E; [|by left].
    right. by exists m, messages.
Qed.

(** [merged run m]: the message that stands for the run. *)
Definition stands_for (m : Message) (run : list Message) : Prop :=
  turn_of run (ms_role m) /\ ms_content m = join Anthropic.nl (map ms_content run).

Lemma join_snoc sep l s : l <> [] -> join sep (l ++ [s]) = join sep l +:+ sep +:+ s.
Proof.
  induction l as [|t l IH]; [done|]. intros _. destruct l as [|t' l]; [done|]. change ((t :: t' :: l) ++ [s]) with (t :: (t' :: l) ++ [s]).
  assert (exists u us, (t' :: l) ++ [s] = u :: us) as (u & us & E) by (simpl; eauto). rewrite E, join_cons, <-E, IH by done.
  rewrite join_cons. by rewrite !append_assoc.
Qed.

Lemma removelast_snoc {A} (l : list A) x : removelast (l ++ [x]) = l.
Proof. apply removelast_last. Qed.

Lemma alternating_snoc roles role : alternating roles -> (forall r, last roles = Some r -> r <> role) -> alternating (roles ++ [role]).
Proof.
  induction roles as [|r [|r' roles] IH]; intros Ha Hl; [done| |].
  - simpl. split; [by apply Hl|done].
  - destruct Ha as [Hr Ha]. simpl. split; [done|]. apply IH; [done|]. intros x Hx. by apply Hl.
Qed.

Lemma coalesce_runs messages : Forall (fun m => speaker m = true) messages -> forall coalesced runs,
  Forall2 stands_for coalesced runs -> Forall (fun m => speaker m = true) coalesced -> alternating (map ms_role coalesced) ->
  exists coalesced' runs', Anthropic.coalesce_from coalesced messages = Ok coalesced' /\ concat runs' = concat runs ++ messages /\
    Forall2 stands_for coalesced' runs' /\ Forall (fun m => speaker m = true) coalesced' /\ alternating (map ms_role coalesced').
Proof.
  intros Hs. induction Hs as [|m messages Hm Hs IH]; intros coalesced runs Hf Hc Ha; simpl; [exists coalesced, runs; by rewrite app_nil_r|].
  unfold Anthropic.coalesce_message. destruct (last coalesced) as [prev|] eqn:El.
  2: { apply last_None in El as ->. apply Forall2_nil_inv_l in Hf as ->. simpl. destruct (IH [m] [[m]]) as (c & rs & ? & Hcat & ?); [|by repeat constructor|done|by exists c, rs].
       repeat constructor; done. }
  apply last_Some in El as (pre & ->). apply Forall2_app_inv_l in Hf as (pruns & lruns & Hp & Hl & ->).
  apply Forall2_cons_inv_l in Hl as (run & nil & Hrun & Hnil & ->). apply Forall2_nil_inv_l in Hnil as ->.
  unfold speaker in Hm. rewrite Hm, andb_true_r.
  destruct (bool_decide (ms_role prev = ms_role m)) eqn:Hrole; [apply bool_decide_eq_true in Hrole|apply bool_decide_eq_false in Hrole].
  - rewrite removelast_snoc. set (merged := {| ms_role := ms_role prev; ms_content := _; ms_name := None; ms_tool_call_id := None; ms_tool_calls := [] |}).
    assert (validate_message merged = Ok merged) as ->.
    { unfold validate_message, merged. simpl. apply bool_decide_eq_true in Hm. rewrite Hrole. rewrite !elem_of_cons, elem_of_nil in Hm.
      destruct (ms_role m); try (by destruct Hm as [?|[?|[]]]). simpl. by destruct (ms_content prev). }
    cbn [rbind]. destruct Hrun as [[Hne Hall] Hcont].
    destruct (IH (pre ++ [merged]) (pruns ++ [run ++ [m]])) as (c & rs & ? & Hcat & ?).
    + apply Forall2_app; [done|]. repeat constructor; simpl; [by destruct run|apply Forall_app; by split; [|constructor]|].
      rewrite Hcont, map_app. cbn [map]. rewrite join_snoc; [done|by destruct run].
    + apply Forall_app in Hc as [Hc1 Hc2]. apply Forall_app. split; [done|]. apply Forall_cons in Hc2 as [Hc2 _]. by repeat constructor.
    + by rewrite map_app in *.
    + exists c, rs. split; [done|]. split; [|done]. rewrite Hcat, !concat_app. simpl. by rewrite !app_nil_r, <-!app_assoc.
  - cbn [rbind]. destruct (IH ((pre ++ [prev]) ++ [m]) ((pruns ++ [run]) ++ [[m]])) as (c & rs & ? & Hcat & ?).
    + apply Forall2_app; [apply Forall2_app; [done|by constructor]|]. repeat constructor; done.
    + apply Forall_app. split; [done|by repeat constructor].
    + rewrite map_app. apply alternating_snoc; [done|]. rewrite map_app. cbn [map]. rewrite last_snoc. by intros r [= <-].
    + exists c, rs. split; [done|]. split; [|done]. rewrite Hcat, !concat_app. simpl. by rewrite !app_nil_r, <-!app_assoc.
Qed.

Lemma wire_messages_ok coalesced runs : Forall2 stands_for coalesced runs -> Forall (fun m => speaker m = true) coalesced ->
  Anthropic.wire_messages coalesced = Ok (zip_with (fun m run => wire_turn (ms_role m) (map ms_content run)) coalesced runs).
Proof.
  intros Hf. induction Hf as [|m run coalesced runs [_ Hc] Hf IH]; intros Hs; [done|]. apply Forall_cons in Hs as [Hm Hs]. simpl.
  rewrite IH by done. unfold Anthropic._message_to_anthropic, wire_turn. rewrite <-Hc. unfold speaker in Hm. apply bool_decide_eq_true in Hm.
  rewrite !elem_of_cons, elem_of_nil in Hm. destruct (ms_role m); try (by destruct Hm as [?|[?|[]]]); done.
Qed.

(** The body of a request whose runs of messages are [runs]. *)
Definition body_of (q : ProviderRequest) (lead : list Message) (roles : list MessageRole) (runs : list (list Message)) : JsonValue :=
  JDict ([("model", JStr (rq_model_name q));
          ("messages", JList (zip_with (fun role run => wire_turn role (map ms_content run)) roles runs));
          ("max_tokens", JInt (rq_max_output_tokens q)); ("temperature", JFloat (rq_temperature q))]
         ++ (if lead is [] then [] else [("system", JStr (join (Anthropic.nl +:+ Anthropic.nl) (map ms_content lead)))])).

Lemma body_of_split q lead rest : rq_messages q = lead ++ rest -> Forall (fun m => is_system m = true) lead -> existsb is_system rest = false ->
  Forall (fun m => ms_role m <> TOOL) (rq_messages q) ->
  exists roles runs, Anthropic._build_request_body q = Ok (body_of q lead roles runs) /\ concat runs = rest /\
    Forall2 (fun role run => turn_of run role) roles runs /\ alternating roles.
Proof.
  intros Hq Hl Hr Ht. rewrite Hq in Ht. apply Forall_app in Ht as [_ Ht].
  assert (Forall (fun m => speaker m = true) rest) as Hs.
  { clear -Hr Ht. induction Ht as [|m rest Hm Ht IH]; constructor; simpl in Hr; apply orb_false_iff in Hr as [Hs Hr]; [|by apply IH].
    unfold speaker, is_system in *. apply bool_decide_eq_false in Hs. apply bool_decide_eq_true. rewrite !elem_of_cons. destruct (ms_role m); tauto || done. }
  destruct (coalesce_runs rest Hs [] []) as (c & runs & Hc & Hcat & Hf & Hsp & Ha); [constructor|constructor|done|].
  exists (map ms_role c), runs. split_and!.
  - unfold Anthropic._build_request_body, Anthropic._split_leading_system_messages, Anthropic._coalesce_same_role_runs.
    rewrite Hq, (split_lead lead rest []) by done. cbn [rbind app]. rewrite Hc. cbn [rbind]. rewrite (wire_messages_ok _ _ Hf Hsp). cbn [rbind].
    unfold body_of. rewrite zip_with_fmap_l. by destruct lead.
  - by rewrite Hcat.
  - apply Forall2_fmap_l. eapply Forall2_impl; [exact Hf|]. by intros m run [H _].
  - done.
Qed.

(** C22: The turns sent to Anthropic alternate and keep every message. A request
    without tool messages is refused when a system message comes after another
    one; otherwise the system messages it begins with are joined to the system
    prompt, and the others are cut into runs of one role, none empty, adjacent
    ones of different roles, each of which is sent as one turn with the contents
    of its messages, in order, on lines of their own. *)
Theorem wire_turns_alternate q : Forall (fun m => ms_role m <> TOOL) (rq_messages q) ->
  (exists lead rest roles runs, rq_messages q = lead ++ rest /\ Forall (fun m => is_system m = true) lead /\ existsb is_system rest = false /\
     Anthropic._build_request_body q = Ok (body_of q lead roles runs) /\ concat runs = rest /\
     Forall2 (fun role run => turn_of run role) roles runs /\ alternating roles) \/
  (exists lead m rest, rq_messages q = lead ++ m :: rest /\ is_system m = false /\ existsb is_system rest = true /\
     Anthropic._build_request_body q = Raise (adapter_failure 0)).
Proof.
  intros Ht. destruct (messages_cases (rq_messages q)) as (lead & rest & Hq & Hl & [Hr|(m & rest' & -> & Hm & Hr)]).
  - left. destruct (body_of_split q lead rest Hq Hl Hr Ht) as (roles & runs & H1 & H2 & H3 & H4). by exists lead, rest, roles, runs.
  - right. exists lead, m, rest'. split_and!; [done..|].
    unfold Anthropic._build_request_body, Anthropic._split_leading_system_messages. rewrite Hq. by rewrite (split_late _ _ _ []).
Qed.

(** ** The pure parts *)

Lemma validate_response_error r e : validate_response r = Raise e -> subclass_value_error e = true.
Proof.
  unfold validate_response, ensure_non_blank, guard. intros H.
  repeat match type of H with context [if ?b then _ else _] => destruct b; simpl in H | context [match ?o with Some _ => _ | None => _ end] => destruct o; simpl in H end;
    by simplify_eq/=.
Qed.
Lemma validate_response_ok r r' : validate_response r = Ok r' -> r' = r.
Proof. unfold validate_response. intros H. by run_m H. Qed.

Lemma count_natural v n : _coerce_non_negative_int v = Some n -> 0 <= n.
Proof. unfold _coerce_non_negative_int. destruct v; try done. destruct (Z.ltb_spec n0 0); naive_solver lia. Qed.
Lemma subtotal_natural v : 0 <= _coerce_optional_subtotal v.
Proof. unfold _coerce_optional_subtotal. destruct (_coerce_non_negative_int v) eqn:E; [by eapply count_natural|done]. Qed.
Lemma required_count_cases d k : (exists n, required_count d k = Ok n /\ 0 <= n) \/ required_count d k = Raise (adapter_failure 200).
Proof.
  unfold required_count. destruct (_coerce_non_negative_int _) eqn:E; [left|by right]. eexists. split; [done|by eapply count_natural].
Qed.
Lemma token_usage_ok u : 0 <= tu_prompt_tokens u -> 0 <= tu_completion_tokens u -> 0 <= tu_cached_input_tokens u <= tu_prompt_tokens u ->
  0 <= tu_reasoning_tokens u <= tu_completion_tokens u -> tu_total_tokens u = tu_prompt_tokens u + tu_completion_tokens u -> validate_token_usage u = Ok u.
Proof.
  intros. unfold validate_token_usage. cbn [for_each].
  repeat match goal with |- context [guard ?b _] => replace b with true by (symmetry; rewrite ?Z.leb_le, ?Z.eqb_eq; lia); cbn [guard rbind] end. done.
Qed.

(** The usage of an answer is a valid one, or the sanitised failure. *)
Definition usage_sanitised (usage : dict string JsonValue -> res TokenUsage) : Prop :=
  forall d, usage d = Raise (adapter_failure 200) \/ exists u, usage d = Ok u /\ validate_token_usage u = Ok u.
Lemma anthropic_usage : usage_sanitised Anthropic._extract_usage.
Proof.
  intros d. unfold Anthropic._extract_usage, usage_dict. destruct (json_get d "usage") as [| | | | | |u]; auto. cbn [rbind].
  destruct (required_count_cases u "input_tokens") as [(n & -> & Hn)| ->]; [|auto]. cbn [rbind].
  destruct (required_count_cases u "output_tokens") as [(m & -> & Hm)| ->]; [|auto]. cbn [rbind].
  pose proof (subtotal_natural (json_get u "cache_read_input_tokens")). destruct (Z.leb_spec (_coerce_optional_subtotal (json_get u "cache_read_input_tokens")) n); [|auto].
  right. eexists. cbn [guard rbind]. rewrite token_usage_ok; simpl; try lia. split; [done|]. by apply token_usage_ok; simpl; lia.
Qed.
Lemma openai_usage : usage_sanitised OpenAI._extract_usage.
Proof.
  intros d. unfold OpenAI._extract_usage, usage_dict. destruct (json_get d "usage") as [| | | | | |u]; auto. cbn [rbind].
  destruct (required_count_cases u "input_tokens") as [(n & -> & Hn)| ->]; [|auto]. cbn [rbind].
  destruct (required_count_cases u "output_tokens") as [(m & -> & Hm)| ->]; [|auto]. cbn [rbind].
  destruct (_coerce_non_negative_int _) as [total|]; [|auto]. cbn [rbind]. destruct (Z.eqb_spec total (n + m)) as [->|]; [|auto]. cbn [guard rbind].
  assert (forall k l, 0 <= OpenAI.detail u k l) as Hd by (intros k l; unfold OpenAI.detail; destruct (json_get u k); try done; apply subtotal_natural).
  pose proof (Hd "input_tokens_details" "cached_tokens"). pose proof (Hd "output_tokens_details" "reasoning_tokens").
  destruct (Z.leb_spec (OpenAI.detail u "input_tokens_details" "cached_tokens") n); [|auto].
  destruct (Z.leb_spec (OpenAI.detail u "output_tokens_details" "reasoning_tokens") m); [|auto].
  right. eexists. cbn [andb guard rbind]. rewrite token_usage_ok; simpl; try lia. split; [done|]. by apply token_usage_ok; simpl; lia.
Qed.

(** ** The calls of an exchange *)

Inductive Call :=
  | Posted (endpoint : string) (body : JsonValue) (headers : list (string * string)) (r : res (HttpResponse + HttpxError))
  | Slept (seconds : float) (r : res unit)
  | Drew (r : res float)
  | Timed (r : res Z)
  | Clocked (r : res clock_value)
  | Wrote (bytes : string) (metadata : list (string * JsonValue)) (r : res Ref).

(** The ports record their calls. *)
Class ProviderPortsLaws (E : Type) `{ProviderPorts E} (trace : E -> list Call) := {
  post_traced : forall u b h e, trace (post u b h e).2 = trace e ++ [Posted u b h (post u b h e).1];
  sleep_traced : forall s e, trace (sleep s e).2 = trace e ++ [Slept s (sleep s e).1];
  jitter_traced : forall e, trace (jitter e).2 = trace e ++ [Drew (jitter e).1];
  now_traced : forall e, trace (utc_now e).2 = trace e ++ [Timed (utc_now e).1];
  clock_traced : forall e, trace (utc_clock e).2 = trace e ++ [Clocked (utc_clock e).1];
  write_traced : forall b m e, trace (write_artifact b m e).2 = trace e ++ [Wrote b m (write_artifact b m e).1] }.

Definition error_of {A} (r : res A) : option exn := if r is Raise e then Some e else None.
Definition raised_by (c : Call) : option exn :=
  match c with
  | Posted _ _ _ r => error_of r | Slept _ r => error_of r | Drew r => error_of r | Timed r => error_of r
  | Clocked r => error_of r | Wrote _ _ r => error_of r
  end.
Definition answered_with (c : Call) : option HttpResponse := if c is Posted _ _ _ (Ok (inl r)) then Some r else None.
Definition is_post (c : Call) : bool := if c is Posted _ _ _ _ then true else false.
Definition posts (t : list Call) : nat := length (filter (fun c => is_post c = true) t).

(** What happens in a pause before its sleep, and in a filing. *)
Definition waits (c : Call) : Prop := match c with Drew _ | Timed _ => True | _ => False end.
Definition files (content : string) (c : Call) : Prop :=
  match c with Clocked _ => True | Wrote bytes _ _ => bytes = content | _ => False end.

Section Exchange.
Context {E : Type} `{Ports : ProviderPorts E} (trace : E -> list Call) `{Laws : !ProviderPortsLaws E trace}.
Context (parsedate : string -> option Z) (json_loads response_json : string -> res JsonValue) (p : Provider) (cfg : ProviderConfig).

(** An outcome after which the adapter tries again while it may. *)
Definition again (o : HttpResponse + HttpxError) : Prop :=
  match o with inl r => hr_status_code r ∈ pv_retryable_statuses p | inr exc => _is_retryable_transport exc = true end.
(** The backoff of an attempt: a second, doubled with each, 30 from the sixth. *)
Definition base_seconds (attempt : Z) : float := nth (Z.to_nat (attempt - 1)) [1; 2; 4; 8; 16]%float 30%float.
(** The wait that an answer leads to, after the calls that were made for it: the
    number its [Retry-After] is; the time until the date that it is, none when
    that has passed; and otherwise the backoff with the jitter drawn. *)
Inductive answer_wait (attempt : Z) (value : option string) : list Call -> float -> Prop :=
  | Wait_digits v : value = Some v -> v <> "" -> isdigit (strip v) = true ->
      answer_wait attempt value [] (float_of_digits (int_of_digits (strip v)))
  | Wait_date v at_us now wait : value = Some v -> v <> "" -> isdigit (strip v) = false -> parsedate (strip v) = Some at_us ->
      (at_us <= now /\ wait = 0%float \/ now < at_us /\ int_truediv (at_us - now) 1000000 = Ok wait) ->
      answer_wait attempt value [Timed (Ok now)] wait
  | Wait_backoff j : (forall v, value = Some v -> v <> "" -> isdigit (strip v) = false /\ parsedate (strip v) = None) ->
      answer_wait attempt value [Drew (Ok j)] (base_seconds attempt + j)%float.
(** The sleep after an outcome of an attempt, and the calls between the two: the
    wait that an answer leads to, a minute at most; after a transport failure the
    backoff with the jitter that was drawn. *)
Definition paused (attempt : Z) (o : HttpResponse + HttpxError) (q : list Call) (seconds : float) : Prop :=
  match o with
  | inl r => exists wait, answer_wait attempt (dict_get (hr_headers r) "retry-after") q wait /\
      seconds = if PrimFloat.ltb 60 wait then 60%float else wait
  | inr _ => exists j, q = [Drew (Ok j)] /\ seconds = (base_seconds attempt + j)%float
  end.

Definition sent (body : JsonValue) (r : res (HttpResponse + HttpxError)) : Call := Posted (cf_endpoint cfg) body (pv_headers p (cf_api_key cfg)) r.

(** The exchange from an attempt on: the calls, and the answer that settles it. *)
Inductive exchange (body : JsonValue) : Z -> list Call -> option HttpResponse -> Prop :=
  | Ex_spent k : cf_max_attempts cfg < k -> exchange body k [] None
  | Ex_settled k r : k <= cf_max_attempts cfg -> hr_status_code r ∉ pv_retryable_statuses p -> exchange body k [sent body (Ok (inl r))] (Some r)
  | Ex_broken k x : k <= cf_max_attempts cfg -> exchange body k [sent body (Raise x)] None
  | Ex_fatal k exc : k <= cf_max_attempts cfg -> _is_retryable_transport exc = false -> exchange body k [sent body (Ok (inr exc))] None
  | Ex_last k o : again o -> k = cf_max_attempts cfg -> exchange body k [sent body (Ok o)] None
  | Ex_unpaused k o q : again o -> k < cf_max_attempts cfg -> Forall waits q -> exchange body k (sent body (Ok o) :: q) None
  | Ex_awoken k o q seconds x : again o -> k < cf_max_attempts cfg -> Forall waits q -> paused k o q seconds ->
      exchange body k (sent body (Ok o) :: q ++ [Slept seconds (Raise x)]) None
  | Ex_again k o q seconds t answer : again o -> k < cf_max_attempts cfg -> Forall waits q -> paused k o q seconds ->
      exchange body (k + 1) t answer -> exchange body k (sent body (Ok o) :: q ++ Slept seconds (Ok tt) :: t) answer.

Lemma posts_waits q : Forall waits q -> posts q = 0%nat.
Proof. intros Hq. unfold posts. induction Hq as [|c q Hc Hq IH]; [done|]. rewrite filter_cons. by destruct c. Qed.
Lemma posts_app a b : posts (a ++ b) = (posts a + posts b)%nat.
Proof. unfold posts. by rewrite filter_app, length_app. Qed.
Lemma posts_sent body r q : posts (sent body r :: q) = S (posts q).
Proof. done. Qed.

(** No more attempts than are left. *)
Lemma exchange_bounded body k t answer : exchange body k t answer -> Z.of_nat (posts t) <= Z.max 0 (cf_max_attempts cfg - k + 1).
Proof.
  intros He. induction He as [k|k r|k x|k exc|k o|k o q Ha Hk Hq|k o q s x Ha Hk Hq Hp|k o q s t answer Ha Hk Hq Hp He IH];
    rewrite ?posts_sent, ?posts_app, ?(posts_waits q Hq); try (change (posts []) with 0%nat; lia).
  - change (posts [_]) with 0%nat. lia.
  - change (posts (Slept s (Ok tt) :: t)) with (posts t). lia.
Qed.

(** ** What a call raises *)

(** The exceptions a call may end with after the calls [t]: fixed ones; those
    made of the status and request id of an answer; and those that a port or a
    decoder raised. *)
Inductive cause (t : list Call) : exn -> Prop :=
  | By_refusal : cause t NotImplementedError
  | By_adapter status : status ∈ [0; 200] -> cause t (adapter_failure status)
  | By_output : cause t StructuredOutputViolation
  | By_overflow : cause t OverflowError
  | By_filing msg : msg ∈ ["request_id must be non-blank"; "upstream_id must be non-blank"; "provider_name must be non-blank"; "captured_at must be UTC"] ->
      cause t (ValueError msg)
  | By_status c r code : c ∈ t -> answered_with c = Some r -> code ∈ ["ADAPTER_FAILURE"; classify_provider_status (hr_status_code r)] ->
      cause t (classify_provider_error (hr_status_code r) code (_request_id_from (pv_request_id_header p) (hr_headers r)))
  | By_port c e : c ∈ t -> raised_by c = Some e -> cause t e
  | By_decoder c r e : c ∈ t -> answered_with c = Some r -> response_json (hr_content r) = Raise e -> e <> JSONDecodeError -> cause t e
  | By_text c r d e : c ∈ t -> answered_with c = Some r -> response_json (hr_content r) = Ok (JDict d) -> pv_output_text p d = Raise e -> cause t e
  | By_loads c r d text e : c ∈ t -> answered_with c = Some r -> response_json (hr_content r) = Ok (JDict d) -> pv_output_text p d = Ok text ->
      json_loads text = Raise e -> e <> JSONDecodeError -> cause t e.

Lemma cause_mono t t' e : cause t e -> t ⊆ t' -> cause t' e.
Proof. intros Hc Ht. destruct Hc; eauto using cause. Qed.
Lemma cause_app_l t t' e : cause t e -> cause (t ++ t') e.
Proof. intros Hc. eapply cause_mono; [exact Hc|]. intros c Hin. apply elem_of_app. by left. Qed.
Lemma cause_app_r t t' e : cause t' e -> cause (t ++ t') e.
Proof. intros Hc. eapply cause_mono; [exact Hc|]. intros c Hin. apply elem_of_app. by right. Qed.
Lemma cause_cons c t e : cause t e -> cause (c :: t) e.
Proof. apply (cause_app_r [c]). Qed.

(** ** The methods *)

#[local] Abbreviation Mp := (M (Stash * E)).

Lemma emits_world_bind {L A B} (m : M E A) (k : A -> M E B) (s : L) Q :
  emits trace (bind (on_world m) (fun x => on_world (k x))) s Q -> emits trace (on_world (bind m k)) s Q.
Proof.
  intros H e. destruct (H e) as (t & Ht & HQ). exists t. unfold bind, on_world in *. simpl in *. destruct (m e) as [[x|x] e']; [|done].
  exact (conj Ht HQ).
Qed.
Lemma emits_world_lift {L A} (r : res A) (s : L) (Q : list Call -> res A -> L -> Prop) : Q [] r s -> emits trace (on_world (lift r)) s Q.
Proof. intros HQ e. exists []. by rewrite app_nil_r. Qed.
Lemma emits_world_ret {L A} (x : A) (s : L) (Q : list Call -> res A -> L -> Prop) : Q [] (Ok x) s -> emits trace (on_world (ret x)) s Q.
Proof. intros HQ e. exists []. by rewrite app_nil_r. Qed.

Lemma overflow_only n e : float_of_int n = Raise e -> e = OverflowError.
Proof. unfold float_of_int. destruct (PrimFloat.is_infinity _); by intros [= <-]. Qed.
Lemma backoff_seconds k : 1 <= k -> backoff_base k = Ok (base_seconds k).
Proof.
  intros Hk. unfold backoff_base, base_seconds. destruct (Z.leb_spec k 5) as [H5|H5].
  - assert (k = 1 \/ k = 2 \/ k = 3 \/ k = 4 \/ k = 5) as Hc by lia. by repeat destruct Hc as [->|Hc]; subst; vm_compute.
  - rewrite nth_overflow by (simpl; lia). assert (2 ^ 5 <= 2 ^ (k - 1)) as Hp by (apply Z.pow_le_mono_r; lia).
    change (2 ^ 5) with 32 in Hp. destruct (Z.ltb_spec 30 (2 ^ (k - 1))); [done|lia].
Qed.
Lemma delta_overflow a b e : delta_seconds a b = Raise e -> e = OverflowError.
Proof.
  unfold delta_seconds, int_truediv. destruct (a <=? b); [done|]. cbn [Z.eqb]. destruct (a - b =? 0); [done|].
  destruct (SFdiv_core_binary _ _ _ _ _ _) as [[? ?] ?]. destruct (PrimFloat.is_infinity _); by intros [= <-].
Qed.

(** The result of a pause: its seconds, or an exception that is accounted for. *)
Definition waited {A} (good : list Call -> A -> Prop) (t : list Call) (r : res A) : Prop :=
  Forall waits t /\ match r with Ok x => good t x | Raise e => cause t e end.

Lemma backoff_waits (s : Stash) k : 1 <= k -> emits trace (on_world (_backoff_seconds k)) s
  (fun t r s' => s' = s /\ waited (fun q x => exists j, q = [Drew (Ok j)] /\ x = (base_seconds k + j)%float) t r).
Proof.
  intros Hk. unfold _backoff_seconds. apply emits_world_bind, emits_bind, emits_world_lift. rewrite backoff_seconds by done.
  apply emits_world_bind, emits_bind. apply (emits_event jitter Drew); [intros; apply jitter_traced|]. intros e.
  destruct (jitter e).1 as [j|x]; [apply emits_world_ret|]; split; try done; (split; [by repeat constructor|]); [by exists j|].
  by apply (By_port _ (Drew (Raise x))); [left|].
Qed.

(** What a [Retry-After] header is read as. *)
Definition read_wait (value : option string) (q : list Call) (x : option float) : Prop :=
  match x with
  | Some wait => forall k, answer_wait k value q wait
  | None => q = [] /\ forall v, value = Some v -> v <> "" -> isdigit (strip v) = false /\ parsedate (strip v) = None
  end.

Lemma retry_after_waits (s : Stash) value : emits trace (on_world (_parse_retry_after parsedate value)) s (fun t r s' => s' = s /\ waited (read_wait value) t r).
Proof.
  unfold _parse_retry_after. destruct value as [v|]; [|by apply emits_world_ret; split; [|split; [constructor|]]].
  destruct (truthy_str v) eqn:Ev; cbn [negb].
  2: { apply emits_world_ret. split; [done|]. split; [constructor|]. split; [done|]. intros v' [= <-] Hd. exfalso. by destruct v. }
  assert (v <> "") as Hv by by intros ->.
  destruct (isdigit (strip v)) eqn:Ed; [apply emits_world_ret; split; [done|]; split; [constructor|]; intros k; by apply Wait_digits|].
  destruct (parsedate (strip v)) as [at_us|] eqn:Ep; [|apply emits_world_ret; split; [done|]; split; [constructor|]; split; [done|]; by intros v' [= <-]].
  apply emits_world_bind, emits_bind, (emits_event utc_now Timed); [intros; apply now_traced|]. intros e. destruct (utc_now e).1 as [now|x].
  - apply emits_world_bind, emits_bind, emits_world_lift. destruct (delta_seconds at_us now) as [d|x] eqn:Ex.
    + apply emits_world_ret. split; [done|]. split; [by repeat constructor|]. intros k. eapply Wait_date; [done..|].
      unfold delta_seconds in Ex. destruct (Z.leb_spec at_us now); [left|right]; by simplify_eq/=.
    + split; [done|]. split; [by repeat constructor|]. rewrite (delta_overflow _ _ _ Ex). constructor.
  - split; [done|]. split; [by repeat constructor|]. by apply (By_port _ (Timed (Raise x))); [left|].
Qed.

Lemma pause_waits (s : Stash) k r : 1 <= k -> emits trace (on_world (pause_seconds parsedate k r)) s (fun t res s' => s' = s /\ waited (paused k (inl r)) t res).
Proof.
  intros Hk. unfold pause_seconds. apply emits_world_bind, emits_bind. eapply emits_mono; [apply retry_after_waits|].
  intros t [[wait|]|x] s' [-> [Ht Hx]]; [| |done].
  - apply emits_world_bind, emits_bind, emits_world_ret, emits_world_ret. split; [done|]. rewrite !app_nil_r. split; [done|].
    by exists wait.
  - destruct Hx as [-> Hx]. apply emits_world_bind, emits_bind. eapply emits_mono; [by apply backoff_waits|]. intros t' [wait|x] s' [-> [Ht' Hx']].
    + apply emits_world_ret. split; [done|]. rewrite app_nil_r. split; [done|]. destruct Hx' as (j & -> & ->).
      eexists. split; [by apply Wait_backoff|done].
    + split; [done|]. by split.
Qed.

(** A response that settles the exchange: the data of a successful one. *)
Definition stash_of (r : HttpResponse) : Stash := {| st_last_raw_bytes := hr_content r; st_last_response_headers := hr_headers r |}.
Definition settled (r : HttpResponse) (d : dict string JsonValue) : Prop := is_success r = true /\ response_json (hr_content r) = Ok (JDict d).

Lemma adapter_code t c r : c ∈ t -> answered_with c = Some r -> cause t (classify_provider_error (hr_status_code r) "ADAPTER_FAILURE" (_request_id_from (pv_request_id_header p) (hr_headers r))).
Proof. intros. eapply By_status; [done|done|]. left. Qed.
Lemma status_code t c r : c ∈ t -> answered_with c = Some r ->
  cause t (classify_provider_error (hr_status_code r) (classify_provider_status (hr_status_code r)) (_request_id_from (pv_request_id_header p) (hr_headers r))).
Proof. intros. eapply By_status; [done|done|]. right. left. Qed.

Lemma settle_emits c r s : answered_with c = Some r -> emits trace (settle_response response_json p r) s (fun t res s' => t = [] /\
  match res with Ok d => settled r d /\ s' = stash_of r | Raise e => s' = s /\ cause [c] e end).
Proof.
  intros Hc. assert (c ∈ [c]) as Hin by left. unfold settle_response. destruct (is_success r) eqn:Es; [|apply emits_raise; split; [done|]; split; [done|by eapply status_code]].
  apply emits_bind, emits_lift. destruct (response_json (hr_content r)) as [d|x] eqn:Ej.
  - destruct d as [| | | | | |d]; try (apply emits_raise; split; [done|]; split; [done|]; by eapply adapter_code).
    apply emits_bind, emits_object, emits_ret. by split_and!.
  - destruct (decide (x = JSONDecodeError)) as [->|Hx]; [split; [done|]; split; [done|]; by eapply adapter_code|].
    destruct x; try (by destruct Hx); (split; [done|]); (split; [done|]); by eapply (By_decoder _ c r).
Qed.

Lemma exhausted_cause t last : (forall r, last = Some r -> exists c, c ∈ t /\ answered_with c = Some r) -> cause t (exhausted p last).
Proof.
  intros Hl. destruct last as [r|]; simpl; [|apply (By_adapter t 0); left]. destruct (Hl r) as (c & ? & ?); [done|]. by eapply status_code.
Qed.

Lemma again_inl r : bool_decide (hr_status_code r ∈ pv_retryable_statuses p) = true -> again (inl r).
Proof. apply bool_decide_eq_true. Qed.

(** What the attempts from [k] on have done. *)
Definition exchanged (body : JsonValue) (k : Z) (t : list Call) (res : res (dict string JsonValue)) (s' : Stash) : Prop :=
  exists answer, exchange body k t answer /\
    match res with
    | Ok d => exists r c, answer = Some r /\ c ∈ t /\ answered_with c = Some r /\ settled r d /\ s' = stash_of r
    | Raise e => cause t e
    end.

Lemma pause_then body k o (pause : M E float) (rest : Mp (dict string JsonValue)) s :
  again o -> k < cf_max_attempts cfg ->
  emits trace (on_world pause) s (fun t res s' => s' = s /\ waited (paused k o) t res) ->
  emits trace rest s (exchanged body (k + 1)) ->
  emits trace (bind (on_world pause) (fun seconds => bind (on_world (sleep seconds)) (fun _ => rest))) s
    (fun t => exchanged body k (sent body (Ok o) :: t)).
Proof.
  intros Ha Hk Hp Hrest. apply emits_bind. eapply emits_mono; [exact Hp|]. intros q [seconds|x] s' [-> [Hq Hx]].
  2: { exists None. split; [by apply Ex_unpaused|by apply cause_cons]. }
  apply emits_bind. apply (emits_event (sleep seconds) (Slept seconds)); [intros; apply sleep_traced|]. intros e.
  destruct (sleep seconds e).1 as [[]|x].
  - eapply emits_mono; [exact Hrest|]. intros t res s' (answer & He & Hres). exists answer. cbn [app].
    split; [by apply Ex_again|]. destruct res as [d|x].
    + destruct Hres as (r & c & ? & Hin & ?). exists r, c. split; [done|]. split; [|done]. rewrite elem_of_cons, elem_of_app, elem_of_cons. auto.
    + apply cause_cons, cause_app_r, cause_cons, Hres.
  - exists None. split; [by apply Ex_awoken|]. apply cause_cons, cause_app_r. by apply (By_port _ (Slept seconds (Raise x))); [left|].
Qed.

Lemma post_attempts_emits body n : forall k last s, 1 <= k -> k + Z.of_nat n = Z.max 1 (cf_max_attempts cfg + 1) -> (last <> None -> (0 < n)%nat) ->
  emits trace (post_attempts parsedate response_json p cfg body (seqZ k (Z.of_nat n)) last) s (exchanged body k).
Proof.
  induction n as [|n IH]; intros k last s Hk Hn Hlast.
  { simpl. apply emits_raise. exists None. split; [apply Ex_spent; lia|]. apply exhausted_cause. intros r ->. specialize (Hlast ltac:(done)). lia. }
  rewrite seqZ_cons by lia. cbn [post_attempts]. rewrite Nat2Z.inj_succ, Z.pred_succ.
  apply emits_bind. apply (emits_event (post _ _ _) (Posted (cf_endpoint cfg) body (pv_headers p (cf_api_key cfg)))); [intros; apply post_traced|].
  intros e. match goal with |- context [Posted _ _ _ ?w] => change (Posted (cf_endpoint cfg) body (pv_headers p (cf_api_key cfg)) w) with (sent body w); destruct w as [[r|exc]|x] end.
  - destruct (bool_decide _) eqn:Ea; [apply again_inl in Ea; destruct (Z.leb_spec (cf_max_attempts cfg) k) as [Hl|Hl]|].
    + apply emits_raise. exists None. split; [apply Ex_last; [done|lia]|]. by apply (status_code _ (sent body (Ok (inl r)))); [left|].
    + apply pause_then; [done|done|by apply pause_waits|]. apply IH; lia.
    + eapply emits_mono; [by apply (settle_emits (sent body (Ok (inl r))))|]. intros t res s' [-> Hres]. apply bool_decide_eq_false in Ea.
      exists (Some r). split; [apply Ex_settled; [lia|done]|]. destruct res as [d|x]; [|by destruct Hres].
      exists r, (sent body (Ok (inl r))). destruct Hres. split_and!; try done. left.
  - destruct (Z.leb_spec (cf_max_attempts cfg) k) as [Hl|Hl]; [|destruct (_is_retryable_transport exc) eqn:Ex]; cbn [orb negb].
    + apply emits_raise. exists None. split; [|apply (By_adapter _ 0); left]. destruct (_is_retryable_transport exc) eqn:Ex; [by apply Ex_last; [|lia]|apply Ex_fatal; [lia|done]].
    + apply (pause_then body k (inr exc)); [done|done|by apply backoff_waits|]. apply IH; lia.
    + apply emits_raise. exists None. split; [apply Ex_fatal; [lia|done]|apply (By_adapter _ 0); left].
  - exists None. split; [apply Ex_broken; lia|]. by apply (By_port _ (sent body (Raise x))); [left|].
Qed.

Lemma post_with_retry_emits body s : emits trace (_post_with_retry parsedate response_json p cfg body) s (exchanged body 1).
Proof.
  unfold _post_with_retry. replace (seqZ 1 (cf_max_attempts cfg)) with (seqZ 1 (Z.of_nat (Z.to_nat (cf_max_attempts cfg)))).
  - apply post_attempts_emits; [done|lia|done].
  - unfold seqZ. by rewrite Nat2Z.id.
Qed.

(** ** A whole call *)

(** The filing of an answer: its body, as it came, when the policy allows it. *)
Inductive filed (r : HttpResponse) : list Call -> option Ref -> Prop :=
  | Not_filed : persistable cfg (hr_headers r) = false -> filed r [] None
  | Filed captured_at metadata ref : persistable cfg (hr_headers r) = true ->
      filed r [Clocked (Ok captured_at); Wrote (hr_content r) metadata (Ok ref)] (Some ref).

(** What a call of [complete] does: nothing; or one exchange, and after it, when
    it was settled by a successful answer and the policy allows it, at most one
    filing of the body of that answer. *)
Inductive called (q : ProviderRequest) : list Call -> res ProviderResponse -> Prop :=
  | Called_refused e : called q [] (Raise e)
  | Called_failed body t answer e : exchange body 1 t answer -> called q t (Raise e)
  | Called_unfiled body t r d t' e : exchange body 1 t (Some r) -> settled r d -> persistable cfg (hr_headers r) = true ->
      Forall (files (hr_content r)) t' -> called q (t ++ t') (Raise e)
  | Called_invalid body t r d t' ref e : exchange body 1 t (Some r) -> settled r d -> filed r t' ref -> called q (t ++ t') (Raise e)
  | Called_answered body t r d t' ref response : exchange body 1 t (Some r) -> settled r d -> filed r t' ref ->
      pv_output_text p d = Ok (rs_text response) -> pv_usage p d = Ok (rs_usage response) -> rs_finish_reason response = pv_finish_reason p d ->
      rs_request_ref response = rq_id q -> rs_raw_response_ref response = ref -> validate_response response = Ok response ->
      called q (t ++ t') (Ok response).

(** The provider's own parts raise nothing but the sanitised failure. *)
Class SaneProvider : Prop := {
  sane_body : forall q, Forall (fun m => ms_role m <> TOOL) (rq_messages q) ->
    is_ok (pv_request_body p q) = true \/ pv_request_body p q = Raise (adapter_failure 0);
  sane_usage : usage_sanitised (pv_usage p) }.
Context `{Sane : SaneProvider}.

Lemma guarded_cause t b msg x e : msg ∈ ["request_id must be non-blank"; "upstream_id must be non-blank"; "provider_name must be non-blank"; "captured_at must be UTC"] ->
  guard b (ValueError msg) = x -> x = Raise e -> cause t e.
Proof. intros Hm <-. destruct b; [done|]. intros [= <-]. by constructor. Qed.

(** A guard whose failure is accounted for. *)
Lemma emits_guard {B} b x (k : unit -> Mp B) s (Q : list Call -> res B -> Stash -> Prop) :
  (b = false -> Q [] (Raise x) s) -> (b = true -> emits trace (k tt) s Q) -> emits trace (bind (lift (guard b x)) k) s Q.
Proof. intros Hf Ht. apply emits_bind, emits_lift. destruct b; simpl; auto. Qed.
Lemma emits_world_guard {L B} b x (k : unit -> M E B) (s : L) (Q : list Call -> res B -> L -> Prop) :
  (b = false -> Q [] (Raise x) s) -> (b = true -> emits trace (on_world (k tt)) s Q) -> emits trace (on_world (bind (lift (guard b x)) k)) s Q.
Proof. intros Hf Ht. apply emits_world_bind, emits_bind, emits_world_lift. destruct b; simpl; auto. Qed.

Lemma persist_emits q id r : emits trace (_persist_if_allowed p cfg q id) (stash_of r) (fun t res _ =>
  match res with
  | Ok ref => filed r t ref
  | Raise e => persistable cfg (hr_headers r) = true /\ Forall (files (hr_content r)) t /\ cause t e
  end).
Proof.
  unfold _persist_if_allowed. apply emits_bind, emits_gets. intros e0. change (st_last_response_headers (stash_of r, e0).1) with (hr_headers r).
  change (st_last_raw_bytes (stash_of r, e0).1) with (hr_content r). destruct (persistable cfg (hr_headers r)) eqn:Ep; cbn [negb]; [|apply emits_ret; by constructor].
  apply emits_bind, (emits_event utc_clock Clocked); [intros; apply clock_traced|]. intros e.
  destruct (utc_clock e).1 as [at_|x]; [|split_and!; [done|by repeat constructor|by apply (By_port _ (Clocked (Raise x))); [left|]]].
  apply emits_bind. unfold persist_provider_response.
  do 4 (apply emits_world_guard; [intros _; cbn [app]; split_and!; [done|by repeat constructor|apply By_filing; set_solver]|intros _]).
  match goal with |- emits _ (on_world (write_artifact ?b ?m)) _ _ => apply (emits_event (write_artifact b m) (Wrote b m)); [intros; apply write_traced|] end. intros e2.
  destruct (write_artifact _ _ e2).1 as [ref|x]; [apply emits_ret; by constructor|].
  split_and!; [done|by repeat constructor|]. eapply By_port; [right; left|done].
Qed.

Lemma parse_cause t c r d q text reason e : c ∈ t -> answered_with c = Some r -> settled r d -> pv_output_text p d = Ok text ->
  _maybe_parse_structured_output json_loads q text reason = Raise e -> cause t e.
Proof.
  intros Hc Ha [_ Hd] Ht. unfold _maybe_parse_structured_output.
  destruct (negb (bool_decide _)); [done|]. destruct (unparsed reason); [done|]. destruct (negb _); [done|].
  destruct (json_loads text) as [[]|x] eqn:El; try (intros [= <-]; apply By_output).
  destruct (decide (x = JSONDecodeError)) as [->|Hx]; [intros [= <-]; apply By_output|]. intros H.
  assert (e = x) as -> by (destruct x; congruence). by eapply By_loads.
Qed.

Lemma complete_emits q s : emits trace (complete parsedate json_loads response_json p cfg q) s (fun t res _ =>
  called q t res /\ match res with Ok _ => True | Raise e => cause t e end).
Proof.
  unfold complete. apply emits_bind, emits_object. cbn [app].
  apply emits_guard; [intros _; split; constructor|]. intros _. apply emits_guard; [intros _; split; constructor|]. intros Htool.
  apply emits_guard; [intros _; split; constructor|]. intros _. apply emits_bind, emits_lift.
  assert (Forall (fun m => ms_role m <> TOOL) (rq_messages q)) as Hm.
  { apply Forall_forall. intros m Hin Hr. rewrite forallb_forall in Htool. specialize (Htool m ltac:(by apply list_elem_of_In)). by rewrite Hr in Htool. }
  destruct (pv_request_body p q) as [body|x] eqn:Eb.
  2: { destruct (sane_body q Hm) as [Hok|Hx]; rewrite Eb in *; [done|]. injection Hx as ->. split; [constructor|apply By_adapter; left]. }
  cbn [app]. apply emits_bind. eapply emits_mono; [apply post_with_retry_emits|]. intros t [d|x] s' (answer & He & Hres).
  2: { split; [by eapply Called_failed|done]. }
  destruct Hres as (r & c & -> & Hin & Hc & Hset & ->). pose proof Hset as [_ Hj].
  apply emits_bind, emits_lift. destruct (pv_output_text p d) as [text|x] eqn:Et.
  2: { rewrite app_nil_r. split; [by eapply Called_failed|by eapply By_text]. }
  apply emits_bind, emits_lift. destruct (sane_usage d) as [Hu|(u & Hu & Hvalid)]; rewrite Hu.
  { cbn [app]. rewrite app_nil_r. split; [by eapply Called_failed|]. apply By_adapter. right. left. }
  apply emits_bind, emits_lift. destruct (_maybe_parse_structured_output _ _ _ _) as [parsed|x] eqn:Ep.
  2: { cbn [app]. rewrite app_nil_r. split; [by eapply Called_failed|by eapply parse_cause]. }
  cbn [app]. apply emits_bind. eapply emits_mono; [apply persist_emits|]. intros t' [ref|x] s'' Hf.
  2: { destruct Hf as (Hp & Hfiles & Hx). split; [by eapply Called_unfiled|by apply cause_app_r]. }
  destruct (validate_response _) as [response|x] eqn:Ev.
  - apply emits_ret. rewrite app_nil_r. split; [|done]. pose proof (validate_response_ok _ _ Ev) as ->. by eapply Called_answered.
  - apply emits_raise. rewrite app_nil_r, (validate_response_error _ _ Ev). split; [by eapply Called_invalid|]. apply By_adapter. right. left.
Qed.
End Exchange.

Lemma anthropic_body_sane q : Forall (fun m => ms_role m <> TOOL) (rq_messages q) ->
  is_ok (Anthropic._build_request_body q) = true \/ Anthropic._build_request_body q = Raise (adapter_failure 0).
Proof.
  intros Ht. destruct (messages_cases (rq_messages q)) as (lead & rest & Hq & Hl & [Hr|(m & rest' & -> & Hm & Hr)]).
  - left. by destruct (body_of_split q lead rest Hq Hl Hr Ht) as (roles & runs & -> & _).
  - right. unfold Anthropic._build_request_body, Anthropic._split_leading_system_messages. rewrite Hq. by rewrite (split_late _ _ _ []).
Qed.
#[export] Instance anthropic_sane : SaneProvider Anthropic.provider.
Proof. split; [exact anthropic_body_sane|exact anthropic_usage]. Qed.
#[export] Instance openai_sane : SaneProvider OpenAI.provider.
Proof. split; [by left|exact openai_usage]. Qed.
Lemma providers_sane p : p ∈ [Anthropic.provider; OpenAI.provider] -> SaneProvider p.
Proof. rewrite !elem_of_cons, elem_of_nil. intros [->|[->|[]]]; typeclasses eauto. Qed.

Lemma posts_filed content t : Forall (files content) t -> posts t = 0%nat.
Proof. intros Ht. unfold posts. induction Ht as [|c t Hc Ht IH]; [done|]. rewrite filter_cons. by destruct c. Qed.
Lemma called_bounded parsedate response_json p cfg q t r : called parsedate response_json p cfg q t r -> Z.of_nat (posts t) <= Z.max 0 (cf_max_attempts cfg).
Proof.
  intros Hc. assert (forall r t ref, filed cfg r t ref -> posts t = 0%nat) as Hf by (by intros ???[]).
  destruct Hc as [x|body t answer x He|body t r d t' x He _ _ Ht|body t r d t' ref x He _ Ht|body t r d t' ref response He _ Ht];
    [change (posts []) with 0%nat; lia|apply exchange_bounded in He..]; [lia|rewrite posts_app, (posts_filed _ _ Ht)|rewrite posts_app, (Hf _ _ _ Ht)..]; lia.
Qed.

Section Claims.
Context {E : Type} `{Ports : ProviderPorts E} (trace : E -> list Call) `{Laws : !ProviderPortsLaws E trace}.
Context (parsedate : string -> option Z) (json_loads response_json : string -> res JsonValue).

(** C20: A call of a model follows the protocol of one exchange. Whatever the
    ports answer, [complete] of either adapter does nothing, or posts the same
    body at most [max_attempts] times, sleeping between two attempts only after
    an outcome that is to be retried. After an answer it sleeps what its
    [Retry-After] says, a number of seconds or the time until a date, and at most
    a minute; after a transport failure, and after an answer without a readable
    [Retry-After], the backoff (1, 2, 4, 8, 16, then 30 seconds) plus the jitter
    drawn in that pause (with the same cap after an answer). A response is made
    of the first answer that is not retried, successful and a JSON object, with
    its text, usage and finish reason, and the body of that answer is filed,
    unchanged, exactly when the policy and its headers allow it, under the
    reference that the response carries. *)
Theorem provider_calls_follow_protocol p cfg q s e : p ∈ [Anthropic.provider; OpenAI.provider] ->
  let run := complete parsedate json_loads response_json p cfg q (s, e) in
  exists t, trace run.2.2 = trace e ++ t /\ called parsedate response_json p cfg q t run.1 /\ Z.of_nat (posts t) <= Z.max 0 (cf_max_attempts cfg).
Proof.
  intros Hp run. pose proof (providers_sane p Hp). destruct (complete_emits trace parsedate json_loads response_json p cfg q s e) as (t & Ht & Hc & _).
  exists t. split; [done|]. split; [done|]. by eapply called_bounded.
Qed.

End Claims.

(** ** Concrete calls *)

Module ProviderDemo.
Record World := { answers : list (HttpResponse + HttpxError); log : list Call }.
Definition logged {A} (ev : res A -> Call) (r : res A) : M World A := fun w => (r, {| answers := answers w; log := log w ++ [ev r] |}).
#[global] Instance scripted : ProviderPorts World := {
  post u b h := fun w =>
    let r := match answers w with o :: _ => Ok o | [] => Raise (ForeignError "httpx.InvalidURL") end in
    (r, {| answers := tail (answers w); log := log w ++ [Posted u b h r] |});
  sleep s := logged (Slept s) (Ok tt);
  jitter := logged Drew (Ok 0.5%float);
  utc_now := logged Timed (Ok 0);
  utc_clock := logged Clocked (Ok {| cv_us := 0; cv_offset := Some 0 |});
  write_artifact b m := logged (Wrote b m) (Ok "artifact:1") }.
#[global] Instance scripted_laws : ProviderPortsLaws World log.
Proof. by split. Qed.

Definition usage : JsonValue := JDict [("input_tokens", JInt 7); ("output_tokens", JInt 2)].
Definition answer : JsonValue := JDict [("id", JStr " msg_1 "); ("usage", usage); ("stop_reason", JStr "end_turn"); ("status", JStr "cancelled");
  ("content", JList [JDict [("type", JStr "text"); ("text", JStr "one")]; JDict [("type", JStr "text"); ("text", JStr "two")]]);
  ("output", JList [JDict [("content", JList [JDict [("type", JStr "output_text"); ("text", JStr "one")]])]])].
(** A decoder of three bodies. *)
Definition decode (s : string) : res JsonValue :=
  if decide (s = "answer") then Ok answer
  else if decide (s = "no output") then Ok (JDict [("output", JNull); ("usage", usage)])
  else if decide (s = "not text") then Raise UnicodeDecodeError
  else Raise JSONDecodeError.
Definition reply (status : Z) (headers : dict string string) (body : string) : HttpResponse + HttpxError :=
  inl {| hr_status_code := status; hr_headers := headers; hr_content := body |}.
Definition config (policy : ProviderArtifactPersistencePolicy) : ProviderConfig := {| cf_api_key := "key"; cf_endpoint := "https://api.test/"; cf_max_attempts := 3;
  cf_artifact_store := true; cf_persistence_policy := policy |}.
Definition says (role : MessageRole) (content : string) : Message :=
  {| ms_role := role; ms_content := content; ms_name := None; ms_tool_call_id := None; ms_tool_calls := [] |}.
Definition asks (messages : list Message) : ProviderRequest := {| rq_id := "request:1"; rq_run_ref := "run:1"; rq_model_name := "large"; rq_messages := messages;
  rq_tools := []; rq_response_format := {| rf_kind := TEXT; rf_schema_name := None; rf_json_schema := None; rf_strict := false |};
  rq_max_output_tokens := 100; rq_temperature := 0; rq_anchors := [] |}.
Definition asked : ProviderRequest := asks [says SYSTEM "be brief"; says USER "a"; says USER "b"; says ASSISTANT "c"].
Definition run (p : Provider) (policy : ProviderArtifactPersistencePolicy) (l : list (HttpResponse + HttpxError)) :=
  complete (fun _ => None) decode decode p (config policy) asked (no_stash, {| answers := l; log := [] |}).
Definition sleeps (w : World) : list float := omap (fun c => if c is Slept s _ then Some s else None) (log w).
Definition stored (w : World) : list string := omap (fun c => if c is Wrote b _ _ then Some b else None) (log w).

Example retried : let r := run Anthropic.provider PERSIST_ALL [reply 429 [("retry-after", "120")] ""; inr ReadTimeout; reply 200 [] "answer"] in
  match r.1 with Ok x => (rs_id x, rs_text x, tu_total_tokens (rs_usage x), rs_raw_response_ref x) = ("msg_1", "one" +:+ Anthropic.nl +:+ "two", 9, Some "artifact:1") | Raise _ => False end /\
  sleeps r.2.2 = [60%float; 2.5%float] /\ stored r.2.2 = ["answer"].
Proof. vm_compute. by split_and!. Qed.
Example given_up : (run Anthropic.provider PERSIST_ALL [inr ReadTimeout; inr PoolTimeout; reply 529 [("request-id", "r9")] "secret"; reply 200 [] "answer"]).1 =
  Raise (ModelProviderError ProviderServerError 529 "SERVER_ERROR" (Some "r9")).
Proof. vm_compute. reflexivity. Qed.
Example secret_not_stored : stored (run Anthropic.provider PERSIST_NON_SECRET [reply 200 [("x-veracrawl-secret", "TRUE")] "answer"]).2.2 = [].
Proof. vm_compute. reflexivity. Qed.

(** A body that is not UTF-8 raises [UnicodeDecodeError], which holds the body
    and is no [JSONDecodeError]; OpenAI's adapter iterates over what is not
    iterable. *)
Example undecodable_body_escapes : map (fun p => (run p PERSIST_ALL [reply 200 [] "not text"]).1) [Anthropic.provider; OpenAI.provider] =
  [Raise UnicodeDecodeError; Raise UnicodeDecodeError].
Proof. vm_compute. reflexivity. Qed.
Example null_output_escapes : (run OpenAI.provider PERSIST_ALL [reply 200 [] "no output"]).1 = Raise (TypeError "object is not iterable").
Proof. vm_compute. reflexivity. Qed.
(** A status it does not know is a success for the one, an error for the other. *)
Example unknown_status : (OpenAI._map_finish_reason [("status", JStr "cancelled")], Anthropic._map_finish_reason (JStr "cancelled")) = (STOP, ERROR).
Proof. reflexivity. Qed.
(** The tool calls of an assistant message are not sent. *)
Definition called_tool : Message := {| ms_role := ASSISTANT; ms_content := ""; ms_name := None; ms_tool_call_id := None;
  ms_tool_calls := [{| tc_id := "1"; tc_name := "search"; tc_arguments := [] |}] |}.
Example tool_calls_dropped : validate_message called_tool = Ok called_tool /\
  OpenAI._message_to_input called_tool = JDict [("role", JStr "assistant"); ("content", JStr "")] /\
  Anthropic._message_to_anthropic called_tool = Ok (JDict [("role", JStr "assistant"); ("content", JStr "")]).
Proof. vm_compute. by split_and!. Qed.
(** Without an override the first canned response answers any request. *)
Definition canned (ref : Ref) : ProviderResponse := {| rs_id := "r"; rs_request_ref := ref; rs_text := "t";
  rs_usage := {| tu_prompt_tokens := 0; tu_completion_tokens := 0; tu_total_tokens := 0; tu_cached_input_tokens := 0; tu_reasoning_tokens := 0 |};
  rs_finish_reason := STOP; rs_parsed_output := None; rs_raw_response_ref := Some "raw:1"; rs_tool_calls := [] |}.
Example replay_answers_another_request :
  (Replay.complete (fun _ => ret "bytes") {| Replay.rp_canned := []; Replay.rp_canned_by_raw_ref := [("raw:1", canned "request:other")];
     Replay.rp_artifact_store := true; Replay.rp_replay_request_overrides := [] |} asked ()).1 = Ok (canned "request:other").
Proof. reflexivity. Qed.
End ProviderDemo.

Lemma wire_turns_alternate_witness : Forall (fun m => ms_role m <> TOOL) (rq_messages ProviderDemo.asked) /\
  ((exists lead rest roles runs, rq_messages ProviderDemo.asked = lead ++ rest /\ concat runs = rest /\
     Anthropic._build_request_body ProviderDemo.asked = Ok (body_of ProviderDemo.asked lead roles runs) /\ alternating roles) \/
   (exists lead m rest, rq_messages ProviderDemo.asked = lead ++ m :: rest /\ is_system m = false /\ existsb is_system rest = true)).
Proof.
  assert (Forall (fun m => ms_role m <> TOOL) (rq_messages ProviderDemo.asked)) as Ht by (repeat constructor; done). split; [exact Ht|].
  destruct (wire_turns_alternate ProviderDemo.asked Ht) as [(lead & rest & roles & runs & H1 & _ & _ & H2 & H3 & _ & H4)|(lead & m & rest & H1 & H2 & H3 & _)].
  - left. by exists lead, rest, roles, runs.
  - right. by exists lead, m, rest.
Defined.

Lemma provider_calls_follow_protocol_witness : let r := ProviderDemo.run Anthropic.provider PERSIST_ALL [inr ReadTimeout; ProviderDemo.reply 200 [] "answer"] in
  is_ok r.1 = true /\ exists t, ProviderDemo.log r.2.2 = [] ++ t /\ called (fun _ => None) ProviderDemo.decode Anthropic.provider (ProviderDemo.config PERSIST_ALL) ProviderDemo.asked t r.1.
Proof.
  intros r. split; [vm_compute; reflexivity|].
  destruct (provider_calls_follow_protocol ProviderDemo.log (fun _ => None) ProviderDemo.decode ProviderDemo.decode Anthropic.provider (ProviderDemo.config PERSIST_ALL)
    ProviderDemo.asked no_stash {| ProviderDemo.answers := [inr ReadTimeout; ProviderDemo.reply 200 [] "answer"]; ProviderDemo.log := [] |}) as (t & Ht & Hc & _); [left|].
  exists t. split; [exact Ht|exact Hc].
Defined.

